(* ===== verification/_CoqProject ===== *)
-Q . S2P
Prelude.v
Mem.v
Console.v
Pmm.v
Ptm.v
Heap.v
Pff.v
PffSpec.v
PffFile.v
PffDir.v
PffMount.v
CodePages.v
CString.v
Factor.v
Strstr.v
MemFns.v
StrCopy.v
StrTo.v
StrWords.v
HashStream.v
Sha256.v
Sha512.v
Md5.v
ShaCryptSpec.v
ShaCrypt.v
Md5Crypt.v
DesTables.v
DesSpec.v
Des.v
DesCrypt.v
Calendar.v
Avl.v
Qsort.v
Search.v
Utf8.v
Interrupts.v
PciBus.v
Ahci.v
AhciInit.v
DiskIo.v
Boot.v
