(* ===== verification/Prelude.v ===== *)
(** * lofi: a verification library for the lofi kernel and its C library

    lofi is a small x86-64 kernel (src/kernel) that is started by the Limine
    boot loader, together with a copy of the C library musl (src/musl-1.2.3).
    This library models the kernel's components and the parts of the C library
    that compute (no system calls), and proves what makes them correct.

    ** How the program works

    [PrepareKernel] (kernel/main.cpp) sets up the segment and interrupt
    tables, takes the boot loader's memory map as the page allocator's memory,
    builds the page tables of the kernel, puts a heap on top of them and looks
    for disks: the firmware's tables name the PCI configuration spaces, every
    AHCI controller found there gets a driver, and the port whose first sector
    holds the text ROOT becomes the disk below the FAT file system.

    ** Files, in the order of the layers

    - Prelude: machine words ([u8] to [u64], [i32], [i64]), the step monad
      [M S A] with its outcomes [Ret], [Done] (the processor halts in [done()])
      and [NoFuel], [zoom] for a routine of an inner component, tactics and
      hints.
    - Mem: byte-addressed memory, little-endian loads and stores, the kernel's
      [memset] and [memcmp].
    - Console: strlen, fputs, puts (kernel/TTY0, kernel/ToString), number
      formatting (ToString.cpp), LogNumber (Debug.cpp), puts_n (main.cpp).
    - Pmm: kernel/Memory/Paging/Pmm.  State [pmm]: memory, console and the
      globals of Pmm.cpp.  Abstraction: [pool], the pages still to be handed
      out, in order; [AllocatePage_refines], [no_double_allocation].
    - Ptm: kernel/Memory/Paging/Ptm.  The class [PageSource] is what the paging
      code needs of an allocator; [pmm_source] is the page allocator as an
      instance.  Abstraction: [translate], the walk of the processor, on a
      [tree] of tables; [MapMemory_maps_range], [CreatePTM_address_space].
    - Heap: kernel/Memory/Heap.  The class [VMem] is the virtual memory below
      the heap; abstraction: a list of segments that tile the heap;
      [malloc_first_fit], [free_releases], [heap_blocks_disjoint].
    - Pff (data, operations), PffSpec (volumes, FAT entries, clusters), PffFile
      (reading and seeking), PffDir (directories, names), PffMount (mounting,
      paths): kernel/Fat/pff.c.  The class [Disk] is the sector interface
      diskio.h; abstraction: the chain of clusters and the contents of a file,
      a directory as a list of entries.  The configuration macros that select
      code are fields of [config].
    - CodePages: the case conversion tables of pff.c.
    - MemFns: musl src/string (memcpy.c, memmove.c, memset.c, the C versions).
    - StrCopy, StrWords: musl src/string: copying and joining strings (stpcpy.c,
      stpncpy.c, strlcpy.c, memccpy.c and those written with them), taking
      them apart (strtok_r.c, strsep.c), other orders (strcasecmp.c,
      strverscmp.c).  Abstractions: [place], where a copy ends; [put_string],
      memory with a string stored in it; [words], the tokens of a text.
    - CString, StrTo: musl src/string (searching and comparing) and
      src/internal/intscan.c with src/stdlib/strtol.c, atoi.c, atol.c.
    - Factor, Strstr: musl src/string (strstr.c, memmem.c).  Factor is the
      theory of maximal suffixes, periods and local repetitions of a word; the
      class [LetterOrder] is the order of the letters, which the code takes
      both ways.  Abstraction: [find_sub], trying each place of a list.
    - HashStream, Sha256, Sha512, Md5, ShaCryptSpec (the SHA-crypt document,
      without reference to the code), ShaCrypt, Md5Crypt: musl src/crypt.  The
      class [Hash] is a message digest with its streaming laws; the three
      digests are instances, and the password hashing functions are written
      and proved once over the interface.
    - DesTables (the tables), DesSpec (the cipher of FIPS 46-3 on lists of
      bits), Des (crypt_des.c, encrypt.c), DesCrypt (the password hashes with
      DES): musl src/crypt.  A table look-up is a [scatter] of masks, and a
      pass over tables a permutation of bits, which is checked on the tables.
    - Calendar: musl src/time (__secs_to_tm, __tm_to_secs and their parts).
    - Avl: musl src/search (tsearch and its relatives).  The class [Comparison]
      is what they require of the comparison function; abstraction: the sorted
      list of the nodes.
    - Qsort: musl src/stdlib (qsort.c, qsort_nr.c, bsearch.c).  Smoothsort on
      bytes in memory; abstraction: an array of objects, heaps of Leonardo
      sizes in it and a forest of them, the bit vector as the list of orders.
    - Search: musl src/search (hsearch.c, lsearch.c, insque.c).  Abstraction of
      the hash table: a finite map.
    - Utf8: musl src/multibyte.  [utf8] and [wf_char] are the standard's two
      descriptions of the encoding; the decoder's table is checked entry by
      entry against them.
    - Interrupts: kernel/Interrupts, Faults, Memory/Gdt, with what the
      processor reads from the tables.
    - PciBus: kernel/IO and kernel/Acpi: the walk over the configuration
      spaces, GetAcpi and GetPci, the programming of the interrupt controllers.
    - Ahci: kernel/Ahci, operations and reading.  The classes [Host] (memory,
      page tables and pages), [Hba] (the registers of a controller) and
      [AtaDisk] (what the AHCI and ATA specifications promise of the disks at
      its ports) are its surroundings; [effect] is what a step may change.
    - AhciInit: the theorems on configuring and probing ports and on the
      constructor [AhciDriver].  [up] is a port with its pages (command list,
      received FIS, one per command slot), [fresh_pages] that pages are new and
      all different.
    - DiskIo: kernel/Fat/diskio.cpp; [PtmHost.ptm_host] makes the page tables
      a [Host], and [ahci_disk] makes the driver a [Disk] of the file system:
      the theorems of PffSpec to PffMount hold over it.
    - Boot: kernel/main.cpp.  [PagedMem.paged_vmem] makes memory seen through
      the page tables a [VMem], so that the heap's theorems hold over it;
      [Boot.PrepareKernel] and [Boot._start] run the components one after the
      other on one memory.  [Boot.protocol] says what the boot loader promises,
      [Boot.ready] what is set up in the end.

    ** What the theorems show

    Refinement: the page allocator is a pool of pages, MapMemory an update of
    the address space, malloc a first fit on segments, pf_open followed by
    pf_read the contents of the file the path names, the disk below the file
    system the disk the driver found, tsearch and tdelete a sorted list,
    hsearch a finite map, strtok_r the words of a text, the SHA, MD5 and DES
    password hashes their published designs. Invariants and safety: no page
    or block is handed out twice, blocks do not overlap, the page tables stay
    a tree. Round trips: numbers and their text, names and directory entries,
    seconds and dates, a password and its hash, enciphering and deciphering,
    characters and their UTF-8. Equivalence: the DES of tables and 32-bit
    words and the published cipher, word-wise string search and byte-wise
    search, two-way matching of strings and the search at every place, the
    unrolled and word-wise memory copies and a copy of all bytes at once,
    copies that stop at a byte and the search for that byte, digests of a
    message in pieces and as a whole, the walk over the buses and an
    enumeration, the table-driven UTF-8 decoder and the standard. Termination
    and liveness: searching a directory, GetAcpi and GetPci calling each
    other, a disk read within the latency of the disk, the kernel's start to
    its end. Composition: after PrepareKernel the tables, the heap on them,
    the system data and the interrupt gates are in order, all seen through
    the tables; the driver's constructor on the page tables brings up every
    disk and finds the marked one, which disk_initialize and disk_readp then
    serve. Sorting: qsort leaves a sorted permutation and bsearch finds in
    it. Bounds and types: sizes of memory, cluster numbers, the ranges memset
    and strlcat write, strtol and strtoul. Some theorems describe what the
    code does where it should not: the free list lies in a page that is
    handed out, splitting the last segment stores through a null pointer,
    pf_mount divides by a cluster size of 0, a sector number of 2^24 and more
    is cut, a busy disk is not noticed, the last bus of a range is left out.

    ** Fuel

    Loops with a bound in the source are structural. Where the source loops
    on data, the model has fuel and a theorem says how much is enough: one
    turn per page in MapMemory, one per segment and three calls in malloc,
    one per directory entry (at most 65536), byte to read, cluster to seek
    over and path segment in the file system, one per byte of a string and
    one more in CString, StrCopy, StrWords and StrTo, one per byte of the
    text and two per byte of the needle in Strstr, one per byte of the range
    in MemFns, two levels of calls in GetAcpi, one per eight characters of a
    key in DesCrypt, one per place of the hash table, one per element in each
    loop of qsort and one per order of a heap below it, the latency of the
    disk in the driver's loops without a bound, 10001 turns in the loop with
    one.

    ** Parameters

    The boot loader's answers, the addresses the linker gives to tables and
    string literals, the disk controller, the ports, the bit scan instruction
    and the comparison functions of the C library, the success of calloc,
    what the table of shifts of strstr holds before it is filled, and the
    password hashes that __crypt_r chooses from are arguments, in Boot also
    the construction of a disk driver ([driver_keeps] is what it has to
    respect) and the code behind a function pointer. Hardware is described by
    classes whose laws state its specification; each class has an instance,
    so that the laws can be met.

    ** Not modelled

    The reload of the segment registers in Gdt.asm. Of the C library:
    floating point, standard I/O, threads, signals and everything that is a
    system call of Linux; locale tables, regular expressions, the dynamic
    linker; Blowfish; strings of wide characters and the remaining multibyte
    functions. The boot loader and the build files are third-party or not
    code. *)

From stdpp Require Import base tactics list gmap numbers option.
From Stdlib Require Import ZArith Lia Ascii String.

#[local] Open Scope Z_scope.

(** ** Machine words

    A w-bit unsigned C integer is a [Z] in [0, 2^w); every operation whose
    result may leave that range is followed by one of these reductions. *)

Definition wrap (w x : Z) : Z := x mod 2 ^ w.
Definition u8 (x : Z) : Z := x mod 2 ^ 8.
Definition u16 (x : Z) : Z := x mod 2 ^ 16.
Definition u32 (x : Z) : Z := x mod 2 ^ 32.
Definition u64 (x : Z) : Z := x mod 2 ^ 64.

(** Two's complement reading of a w-bit pattern. *)
Definition sgn (w x : Z) : Z :=
  let y := x mod 2 ^ w in if y <? 2 ^ (w - 1) then y else y - 2 ^ w.
Definition i64 (x : Z) : Z := sgn 64 x.
Definition i32 (x : Z) : Z := sgn 32 x.

Lemma u8_range x : 0 <= u8 x < 2 ^ 8.
Proof. apply Z.mod_pos_bound. lia. Qed.
Lemma u16_range x : 0 <= u16 x < 2 ^ 16.
Proof. apply Z.mod_pos_bound. lia. Qed.
Lemma u32_range x : 0 <= u32 x < 2 ^ 32.
Proof. apply Z.mod_pos_bound. lia. Qed.
Lemma u64_range x : 0 <= u64 x < 2 ^ 64.
Proof. apply Z.mod_pos_bound. lia. Qed.

Lemma u8_id x : 0 <= x < 2 ^ 8 -> u8 x = x.
Proof. apply Z.mod_small. Qed.
Lemma u16_id x : 0 <= x < 2 ^ 16 -> u16 x = x.
Proof. apply Z.mod_small. Qed.
Lemma u32_id x : 0 <= x < 2 ^ 32 -> u32 x = x.
Proof. apply Z.mod_small. Qed.
Lemma u64_id x : 0 <= x < 2 ^ 64 -> u64 x = x.
Proof. apply Z.mod_small. Qed.

Lemma u8_u8 x : u8 (u8 x) = u8 x.
Proof. apply Zmod_mod. Qed.

Lemma i64_id x : 0 <= x < 2 ^ 63 -> i64 x = x.
Proof.
  intros H. unfold i64, sgn. rewrite Z.mod_small by lia.
  destruct (Z.ltb_spec x (2 ^ (64 - 1))); lia.
Qed.

Lemma i64_sub a b :
  0 <= a < 2 ^ 63 -> 0 <= b < 2 ^ 63 -> i64 (u64 (a - b)) = a - b.
Proof.
  intros Ha Hb. unfold i64, u64, sgn. rewrite Zmod_mod.
  destruct (Z_le_gt_dec b a).
  - rewrite Z.mod_small by lia. destruct (Z.ltb_spec (a - b) (2 ^ (64 - 1))); lia.
  - replace ((a - b) mod 2 ^ 64) with (a - b + 2 ^ 64).
    + destruct (Z.ltb_spec (a - b + 2 ^ 64) (2 ^ (64 - 1))); lia.
    + apply (Z.mod_unique_pos _ _ (-1)); lia.
Qed.

(** ** Automation *)

(** Linear arithmetic with division and remainder by constants. *)
Ltac zdm := Z.div_mod_to_equations; lia.

(** Turns every boolean comparison of the goal or a hypothesis into its
    proposition, by case analysis. *)
Ltac zcase :=
  match goal with
  | |- context [Z.eqb ?a ?b] => destruct (Z.eqb_spec a b)
  | |- context [Z.ltb ?a ?b] => destruct (Z.ltb_spec a b)
  | |- context [Z.leb ?a ?b] => destruct (Z.leb_spec a b)
  | H : context [Z.eqb ?a ?b] |- _ => destruct (Z.eqb_spec a b)
  | H : context [Z.ltb ?a ?b] |- _ => destruct (Z.ltb_spec a b)
  | H : context [Z.leb ?a ?b] |- _ => destruct (Z.leb_spec a b)
  end.

Create HintDb lofi.
#[export] Hint Resolve u8_range u16_range u32_range u64_range : lofi.
Create Rewrite HintDb lofi_rw.
#[export] Hint Rewrite @u8_u8 : lofi_rw.

(** ** Bit facts shared by the components *)

(** A low part and a shifted high part do not overlap: [lor] is [+]. *)
Lemma lor_shiftl_add a b n :
  0 <= n -> 0 <= a < 2 ^ n -> Z.lor a (Z.shiftl b n) = a + b * 2 ^ n.
Proof.
  intros Hn Ha. rewrite Z.shiftl_mul_pow2 by lia. symmetry.
  assert (Hd : Z.land a (b * 2 ^ n) = 0).
  { apply Z.bits_inj'; intros i Hi; rewrite Z.land_spec, Z.bits_0.
    destruct (Z.lt_ge_cases i n).
    - rewrite Z.mul_pow2_bits_low by lia. apply andb_false_r.
    - rewrite <- (Z.mod_small a (2 ^ n)) by lia.
      by rewrite Z.mod_pow2_bits_high by lia. }
  by rewrite Z.add_nocarry_lxor, Z.lxor_lor.
Qed.

Lemma bits_bound x n :
  0 <= x -> 0 <= n -> (forall i, n <= i -> Z.testbit x i = false) -> x < 2 ^ n.
Proof.
  intros Hx Hn H. destruct (Z.eq_dec x 0) as [->|Hne]; [lia|].
  apply Z.log2_lt_pow2; [lia|]. destruct (Z.lt_ge_cases (Z.log2 x) n) as [?|Hge]; [done|].
  specialize (H _ Hge). rewrite Z.bit_log2 in H by lia. done.
Qed.

Lemma testbit_high x n i : 0 <= x < 2 ^ n -> 0 <= n <= i -> Z.testbit x i = false.
Proof.
  intros Hx Hi. rewrite <- (Z.mod_small x (2 ^ n)) by done. apply Z.mod_pow2_bits_high. lia.
Qed.

(** Words of [n] bits are closed under the bit operations. *)
Lemma lor_range a b n : 0 <= n -> 0 <= a < 2 ^ n -> 0 <= b < 2 ^ n -> 0 <= Z.lor a b < 2 ^ n.
Proof.
  intros Hn Ha Hb. assert (0 <= Z.lor a b) by (apply Z.lor_nonneg; lia). split; [done|]. apply bits_bound; [done|done|].
  intros i Hi. by rewrite Z.lor_spec, (testbit_high a n), (testbit_high b n) by lia.
Qed.
Lemma lxor_range a b n : 0 <= n -> 0 <= a < 2 ^ n -> 0 <= b < 2 ^ n -> 0 <= Z.lxor a b < 2 ^ n.
Proof.
  intros Hn Ha Hb. assert (0 <= Z.lxor a b) by (apply Z.lxor_nonneg; lia). split; [done|]. apply bits_bound; [done|done|].
  intros i Hi. by rewrite Z.lxor_spec, (testbit_high a n), (testbit_high b n) by lia.
Qed.
Lemma land_range a b n : 0 <= n -> 0 <= a < 2 ^ n -> 0 <= Z.land a b < 2 ^ n.
Proof.
  intros Hn Ha. assert (0 <= Z.land a b) by (apply Z.land_nonneg; lia). split; [done|]. apply bits_bound; [done|done|].
  intros i Hi. by rewrite Z.land_spec, (testbit_high a n) by lia.
Qed.

Lemma land_ones_mod x n : 0 <= n -> Z.land x (Z.ones n) = x mod 2 ^ n.
Proof. apply Z.land_ones. Qed.

(** Testing a bit with a mask. *)
Lemma bit_test w k : 0 <= k -> negb (Z.land w (Z.shiftl 1 k) =? 0) = Z.testbit w k.
Proof.
  intros Hk. destruct (Z.testbit w k) eqn:E.
  - apply negb_true_iff, Z.eqb_neq. intros H0. assert (Hb : Z.testbit (Z.land w (Z.shiftl 1 k)) k = true).
    { rewrite Z.land_spec, E, Z.shiftl_spec, Z.sub_diag by lia. done. }
    rewrite H0, Z.bits_0 in Hb. done.
  - apply negb_false_iff, Z.eqb_eq. apply Z.bits_inj'. intros i Hi. rewrite Z.land_spec, Z.bits_0.
    destruct (Z.eq_dec i k) as [->|Hne]; [by rewrite E|].
    rewrite Z.shiftl_1_l, Z.pow2_bits_false by lia. apply andb_false_r.
Qed.

(** ** Step monad

    A kernel routine reads and updates a state.  It returns a value, it ends
    in [done()] (kernel/main.cpp: the processor halts for ever, nothing
    after the call runs), or, for the routines that loop on a bound the code
    does not state, the fuel of the model is used up. *)

Inductive outcome (S A : Type) : Type :=
| Ret (a : A) (s : S)
| Done (s : S)
| NoFuel.
Arguments Ret {S A} _ _.
Arguments Done {S A} _.
Arguments NoFuel {S A}.

Definition M (S A : Type) : Type := S -> outcome S A.

Definition ret {S A} (a : A) : M S A := fun s => Ret a s.
Definition bind {S A B} (c : M S A) (k : A -> M S B) : M S B :=
  fun s => match c s with
           | Ret a s' => k a s'
           | Done s' => Done s'
           | NoFuel => NoFuel
           end.
Definition gets {S A} (f : S -> A) : M S A := fun s => Ret (f s) s.
Definition modify {S} (f : S -> S) : M S unit := fun s => Ret tt (f s).
(** The call [done()]. *)
Definition done_ {S A} : M S A := fun s => Done s.

(** Runs a routine of an inner component on the part of the state it owns. *)
Definition zoom {S T A} (get : S -> T) (put : T -> S -> S) (c : M T A) : M S A :=
  fun s => match c (get s) with
           | Ret a t => Ret a (put t s)
           | Done t => Done (put t s)
           | NoFuel => NoFuel
           end.

Declare Scope lofi_scope.
Delimit Scope lofi_scope with lofi.
Notation "'let*' x := c 'in' k" := (bind c (fun x => k))
  (at level 200, x pattern, c at level 100, k at level 200,
   format "'[v' 'let*'  x  :=  c  'in' '/' k ']'") : lofi_scope.
Notation "c1 ;;; c2" := (bind c1 (fun _ => c2))
  (at level 100, c2 at level 200, right associativity) : lofi_scope.

Lemma bind_ret {S A B} (c : M S A) (k : A -> M S B) s a s' :
  c s = Ret a s' -> bind c k s = k a s'.
Proof. unfold bind. by intros ->. Qed.

Lemma zoom_ret {S T A} (get : S -> T) put (c : M T A) s a t :
  c (get s) = Ret a t -> zoom get put c s = Ret a (put t s).
Proof. unfold zoom. by intros ->. Qed.

Lemma bind_ret_inv {S A B} (c : M S A) (k : A -> M S B) s b s' :
  bind c k s = Ret b s' -> exists a s1, c s = Ret a s1 /\ k a s1 = Ret b s'.
Proof. unfold bind. destruct (c s) as [a s1| |]; intros H; [eauto|done..]. Qed.

(** The bytes of a string literal. *)
Fixpoint lit (s : string) : list Z :=
  match s with
  | EmptyString => []
  | String c s' => Z.of_N (N_of_ascii c) :: lit s'
  end.

(** ** C strings

    A string is the list of its bytes before the terminating NUL; reading at
    the end of the list reads that NUL. *)
Definition cstr_get (p : list Z) (i : nat) : Z := default 0 (p !! i).

(** ** Lists of bytes *)
Definition byte_list (l : list Z) : Prop := Forall (fun b => 0 <= b < 256) l.

Lemma byte_list_cons b l : byte_list (b :: l) <-> 0 <= b < 256 /\ byte_list l.
Proof. apply Forall_cons_iff. Qed.
Lemma byte_list_app l1 l2 : byte_list (l1 ++ l2) <-> byte_list l1 /\ byte_list l2.
Proof. apply Forall_app. Qed.
Lemma byte_list_take n l : byte_list l -> byte_list (take n l).
Proof. apply Forall_take. Qed.
Lemma byte_list_drop n l : byte_list l -> byte_list (drop n l).
Proof. apply Forall_drop. Qed.
#[export] Hint Resolve byte_list_take byte_list_drop : lofi.
