(* ===== verification/Mem.v ===== *)
(** Byte-addressed memory: the store every kernel component reads and
    writes through its pointers, with little-endian loads and stores of n
    bytes and the kernel's own [memset] and [memcmp]. *)

From stdpp Require Import base tactics list gmap numbers option.
From Stdlib Require Import ZArith Lia.
From S2P Require Import Prelude.

#[local] Open Scope Z_scope.

Module Mem.

(** The content of an address that was never written is 0 or whatever the
    initial map says; a cell always reads as a byte. *)
Definition ld8 (m : gmap Z Z) (a : Z) : Z := u8 (default 0 (m !! a)).
Definition st8 (m : gmap Z Z) (a v : Z) : gmap Z Z := <[a := u8 v]> m.

Fixpoint ld (n : nat) (m : gmap Z Z) (a : Z) : Z :=
  match n with
  | O => 0
  | S n' => ld8 m a + 256 * ld n' m (a + 1)
  end.

Fixpoint st (n : nat) (m : gmap Z Z) (a v : Z) : gmap Z Z :=
  match n with
  | O => m
  | S n' => st n' (st8 m a v) (a + 1) (v / 256)
  end.

(** kernel/Memory/Paging/Pmm/Pmm.cpp, [memset]: one byte store per index. *)
Fixpoint memset_loop (n : nat) (m : gmap Z Z) (a v : Z) : gmap Z Z :=
  match n with
  | O => m
  | S n' => memset_loop n' (st8 m a v) (a + 1) v
  end.
Definition memset (m : gmap Z Z) (Base Val Length : Z) : gmap Z Z :=
  memset_loop (Z.to_nat Length) m Base Val.

(** ** Loads after stores *)

Lemma ld8_range m a : 0 <= ld8 m a < 256.
Proof. apply (u8_range _). Qed.

Lemma ld8_st8_eq m a v : ld8 (st8 m a v) a = u8 v.
Proof. unfold ld8, st8. rewrite lookup_insert_eq. simpl. apply u8_u8. Qed.

Lemma ld8_st8_ne m a b v : a <> b -> ld8 (st8 m a v) b = ld8 m b.
Proof. intros H. unfold ld8, st8. by rewrite lookup_insert_ne. Qed.

Lemma ld_range n m a : 0 <= ld n m a < 256 ^ Z.of_nat n.
Proof.
  revert a. induction n as [|n IH]; intros a; simpl ld; [lia|].
  pose proof (ld8_range m a). specialize (IH (a + 1)).
  rewrite Nat2Z.inj_succ, Z.pow_succ_r by lia. lia.
Qed.

(** Two memories that agree on the bytes [a, a+n) give the same load. *)
Lemma ld_ext n m m' a :
  (forall x, a <= x < a + Z.of_nat n -> ld8 m x = ld8 m' x) -> ld n m a = ld n m' a.
Proof.
  revert a. induction n as [|n IH]; intros a H; simpl; [done|].
  rewrite (H a) by lia. rewrite (IH (a + 1)); [done|]. intros x Hx. apply H. lia.
Qed.

Lemma ld8_st_out n m a v x :
  x < a \/ a + Z.of_nat n <= x -> ld8 (st n m a v) x = ld8 m x.
Proof.
  revert m a v. induction n as [|n IH]; intros m a v H; simpl; [done|].
  rewrite IH by lia. apply ld8_st8_ne. lia.
Qed.

Lemma ld_st_eq n m a v : ld n (st n m a v) a = v mod 256 ^ Z.of_nat n.
Proof.
  revert m a v. induction n as [|n IH]; intros m a v.
  - simpl. by rewrite Z.mod_1_r.
  - simpl st. simpl ld. rewrite ld8_st_out by lia. rewrite ld8_st8_eq, IH.
    rewrite Nat2Z.inj_succ, Z.pow_succ_r by lia. unfold u8.
    rewrite Z.rem_mul_r by lia. change (2 ^ 8) with 256. lia.
Qed.

Lemma ld_st_ne n k m a b v :
  a + Z.of_nat n <= b \/ b + Z.of_nat k <= a -> ld k (st n m a v) b = ld k m b.
Proof. intros H. apply ld_ext. intros x Hx. apply ld8_st_out. lia. Qed.

Lemma ld_1 m a : ld 1 m a = ld8 m a.
Proof. cbn [ld]. lia. Qed.

(** ** [memset] *)

Lemma ld8_memset_loop_out n m a v x :
  x < a \/ a + Z.of_nat n <= x -> ld8 (memset_loop n m a v) x = ld8 m x.
Proof.
  revert m a. induction n as [|n IH]; intros m a H; simpl; [done|].
  rewrite IH by lia. apply ld8_st8_ne. lia.
Qed.

Lemma ld8_memset_loop_in n m a v x :
  a <= x < a + Z.of_nat n -> ld8 (memset_loop n m a v) x = u8 v.
Proof.
  revert m a. induction n as [|n IH]; intros m a H; simpl; [lia|].
  destruct (decide (x = a)) as [->|Hne].
  - rewrite ld8_memset_loop_out by lia. apply ld8_st8_eq.
  - apply IH. lia.
Qed.

Lemma ld8_memset_out m a v len x :
  0 <= len -> x < a \/ a + len <= x -> ld8 (memset m a v len) x = ld8 m x.
Proof. intros ? H. apply ld8_memset_loop_out. lia. Qed.

Lemma ld8_memset_in m a v len x :
  a <= x < a + len -> ld8 (memset m a v len) x = u8 v.
Proof. intros H. apply ld8_memset_loop_in. lia. Qed.

Lemma ld_memset_out k m a v len x :
  0 <= len -> x + Z.of_nat k <= a \/ a + len <= x ->
  ld k (memset m a v len) x = ld k m x.
Proof. intros ? H. apply ld_ext. intros y Hy. apply ld8_memset_out; lia. Qed.

Lemma ld_zero k m x :
  (forall y, x <= y < x + Z.of_nat k -> ld8 m y = 0) -> ld k m x = 0.
Proof.
  revert x. induction k as [|k IH]; intros x H; simpl; [done|].
  rewrite (H x) by lia. rewrite IH; [lia|]. intros y Hy. apply H. lia.
Qed.

Lemma ld_memset_zero k m a len x :
  a <= x -> x + Z.of_nat k <= a + len -> ld k (memset m a 0 len) x = 0.
Proof. intros H1 H2. apply ld_zero. intros y Hy. rewrite ld8_memset_in; [done|lia]. Qed.

(** ** [memcmp] (kernel/Memory/Memory.cpp)

    [s1] or [s2] may be null, in which case the routine compares against
    zero bytes without advancing that pointer.  The loop counter is an [int]
    compared with a [size_t]: for a length below 2^31 it counts up to it. *)
Fixpoint memcmp_loop (n : nat) (m : gmap Z Z) (s1 s2 a b : Z) : Z :=
  match n with
  | O => 0
  | S n' =>
    let A := if s1 =? 0 then 0 else ld8 m a in
    let B := if s2 =? 0 then 0 else ld8 m b in
    if A <? B then -1
    else if B <? A then 1
    else memcmp_loop n' m s1 s2
           (if s1 =? 0 then a else a + 1) (if s2 =? 0 then b else b + 1)
  end.
Definition memcmp (m : gmap Z Z) (s1 s2 n : Z) : Z :=
  memcmp_loop (Z.to_nat n) m s1 s2 s1 s2.

Lemma memcmp_loop_zero n m s1 s2 a b :
  s1 <> 0 -> s2 <> 0 ->
  memcmp_loop n m s1 s2 a b = 0 <->
  (forall i, 0 <= i < Z.of_nat n -> ld8 m (a + i) = ld8 m (b + i)).
Proof.
  intros H1 H2. revert a b. induction n as [|n IH]; intros a b; cbn [memcmp_loop].
  { split; [lia|done]. }
  destruct (Z.eqb_spec s1 0), (Z.eqb_spec s2 0); try lia.
  repeat zcase; cbv zeta.
  - split; [lia|]. intros Hall. specialize (Hall 0). rewrite !Z.add_0_r in Hall. lia.
  - split; [lia|]. intros Hall. specialize (Hall 0). rewrite !Z.add_0_r in Hall. lia.
  - rewrite IH. split; intros Hall i Hi.
    + destruct (decide (i = 0)) as [->|Hne]; [rewrite !Z.add_0_r; lia|].
      specialize (Hall (i - 1)). replace (a + 1 + (i - 1)) with (a + i) in Hall by lia.
      replace (b + 1 + (i - 1)) with (b + i) in Hall by lia. apply Hall. lia.
    + specialize (Hall (i + 1)). replace (a + 1 + i) with (a + (i + 1)) by lia.
      replace (b + 1 + i) with (b + (i + 1)) by lia. apply Hall. lia.
Qed.

#[export] Hint Resolve ld8_range ld_range : lofi.
#[export] Hint Rewrite ld8_st8_eq ld_st_eq @ld_1 : lofi_rw.

End Mem.
