(* ===== verification/Console.v ===== *)
(** The kernel console: [strlen], [fputs] and [puts] (kernel/TTY0,
    kernel/ToString/strlen.cpp), the number formatting routines of
    kernel/ToString/ToString.cpp, [LogNumber] (kernel/Debug) and [puts_n]
    (kernel/main.cpp). *)

From stdpp Require Import base tactics list numbers option strings.
From Stdlib Require Import ZArith Lia.
From S2P Require Import Prelude.

#[local] Open Scope Z_scope.

Module Console.
Import Prelude.
#[local] Open Scope lofi_scope.

(** ** State and operations *)

(** What terminal 0 of the boot loader has received, and the global counter
    of [strlen]. *)
Record tty := mkTty { tty_out : list Z; strlen_length : Z }.

Definition stdout : Z := 13370.

(** [for (; *s != '\0'; s++) strlen_length++]: the string is the list of
    bytes before the NUL, [rest] is what the pointer still has ahead. *)
Fixpoint strlen_loop (rest : list Z) (n : Z) : Z :=
  match rest with
  | [] => n
  | c :: rest' => if c =? 0 then n else strlen_loop rest' (u64 (n + 1))
  end.
Definition strlen (s : list Z) : M tty Z :=
  fun t => let n := strlen_loop s 0 in Ret n (mkTty (tty_out t) n).

(** [terminal_request.response->write(terminal, s, n)]: the boot loader's
    callback appends n bytes to the terminal. *)
Definition terminal_write (s : list Z) (n : Z) : M tty unit :=
  modify (fun t => mkTty (tty_out t ++ take (Z.to_nat n) s) (strlen_length t)).

Definition fputs (s : list Z) (stream : Z) : M tty Z :=
  if stream =? stdout then
    let* n := strlen s in
    terminal_write s n ;;;
    ret 1
  else ret (-1).

Definition puts (s : list Z) : M tty Z :=
  fputs s stdout ;;; fputs [10] stdout.

(** Each turn stores [str[i]] and a NUL in a two-byte string and prints it. *)
Fixpoint puts_n_loop (n : nat) (i : nat) (str : list Z) : M tty unit :=
  match n with
  | O => ret tt
  | S n' =>
    fputs [cstr_get str i; 0] stdout ;;;
    puts_n_loop n' (S i) str
  end.
Definition puts_n (str : list Z) (s : Z) : M tty unit :=
  puts_n_loop (Z.to_nat s) 0 str.

(** [uint64_t len = 1; while (tmp / base > 0) { tmp /= base; len++; }] *)
Fixpoint num_len (fuel : nat) (base tmp : Z) (len : nat) : nat :=
  match fuel with
  | O => len
  | S f => if 0 <? tmp / base then num_len f base (tmp / base) (S len) else len
  end.

(** [for (i = len - 1; i >= 0; i--) { out[off + i] = chr(val % base); val /= base; }]
    with C's truncating division. *)
Fixpoint write_digits (base : Z) (chr : Z -> Z) (off len : nat) (val : Z) (out : list Z) : list Z :=
  match len with
  | O => out
  | S i => write_digits base chr off i (Z.quot val base)
             (<[(off + i)%nat := u8 (chr (Z.rem val base))]> out)
  end.

Definition dec_chr (d : Z) : Z := 48 + d.
Definition hex_chr (digit : Z) : Z :=
  (if 9 <? digit then 65 else 48) + (if 9 <? digit then digit - 10 else digit).

(** A 64-bit value has at most 20 decimal digits, so 64 turns suffice. *)
Definition uint2str (val : Z) (out : list Z) : list Z :=
  let len := num_len 64 10 val 1 in
  <[len := 0]> (write_digits 10 dec_chr 0 len val out).

Definition hex2str (val : Z) (out : list Z) : list Z :=
  let len := num_len 64 16 val 1 in
  <[len := 0]> (write_digits 16 hex_chr 0 len val out).

Definition int2str (val : Z) (out : list Z) : list Z :=
  let '(out, offset, val) :=
    if val <? 0 then (<[0%nat := 45]> out, 1%nat, i64 (val * -1)) else (out, 0%nat, val) in
  let len := num_len 64 10 (u64 val) 1 in
  <[(offset + len)%nat := 0]> (write_digits 10 dec_chr offset len val out).

(** The C string held by a buffer: its bytes up to the first NUL. *)
Fixpoint buf_str (buf : list Z) : list Z :=
  match buf with
  | [] => []
  | c :: r => if c =? 0 then [] else c :: buf_str r
  end.

(** [LogNumber(uint64_t, bool)] and [LogNumber(int64_t)]; the buffer
    [LogNumberStr] is a 256-byte global. *)
Definition LogNumber_u (Number : Z) (IsHex : bool) (LogNumberStr : list Z) : M tty (list Z) :=
  let buf := if IsHex then hex2str Number LogNumberStr else uint2str Number LogNumberStr in
  fputs (buf_str buf) stdout ;;; ret buf.
Definition LogNumber_i (Number : Z) (LogNumberStr : list Z) : M tty (list Z) :=
  let buf := int2str Number LogNumberStr in
  fputs (buf_str buf) stdout ;;; ret buf.

(** ** Reference: positional notation, most significant digit first *)

Fixpoint digits (fuel : nat) (base v : Z) : list Z :=
  match fuel with
  | O => []
  | S f => if v <? base then [v] else digits f base (v / base) ++ [v mod base]
  end.
Definition number_of (base : Z) (ds : list Z) : Z :=
  foldl (fun acc d => acc * base + d) 0 ds.


(** ** Lemmas *)

Lemma number_of_digits fuel base v :
  1 < base -> 0 <= v < base ^ Z.of_nat fuel -> number_of base (digits fuel base v) = v.
Proof.
  intros Hb. revert v. induction fuel as [|f IH]; intros v Hv; [cbn in Hv; change (0 = v); lia|].
  cbn [digits]. zcase.
  - unfold number_of. simpl. lia.
  - unfold number_of in *. rewrite foldl_app, IH; simpl.
    + pose proof (Z.div_mod v base). lia.
    + rewrite Nat2Z.inj_succ, Z.pow_succ_r in Hv by lia. split; [apply Z.div_pos; lia|].
      apply Z.div_lt_upper_bound; lia.
Qed.

Lemma digits_range fuel base v :
  1 < base -> 0 <= v -> Forall (fun d => 0 <= d < base) (digits fuel base v).
Proof.
  intros Hb. revert v. induction fuel as [|f IH]; intros v Hv; cbn [digits]; [constructor|].
  zcase; [by repeat constructor|]. apply Forall_app. split.
  - apply IH. apply Z.div_pos; lia.
  - repeat constructor; apply Z.mod_pos_bound; lia.
Qed.

Lemma digits_length fuel base v n :
  1 < base -> (n <= fuel)%nat -> 0 <= v < base ^ Z.of_nat n -> (1 <= n)%nat ->
  (1 <= length (digits fuel base v) <= n)%nat.
Proof.
  intros Hb. revert v n. induction fuel as [|f IH]; intros v n Hn Hv H1; [lia|].
  cbn [digits]. zcase; [simpl; lia|].
  rewrite length_app. simpl.
  destruct n as [|n]; [lia|]. rewrite Nat2Z.inj_succ, Z.pow_succ_r in Hv by lia.
  destruct n as [|n]; [simpl in Hv; lia|].
  specialize (IH (v / base) (S n)).
  assert (0 <= v / base < base ^ Z.of_nat (S n)).
  { split; [apply Z.div_pos; lia|]. apply Z.div_lt_upper_bound; lia. }
  lia.
Qed.

(** The length loop of the code computes the number of digits. *)
Lemma num_len_digits fuel base v k :
  1 < base -> fuel <> O -> 0 <= v < base ^ Z.of_nat fuel ->
  num_len fuel base v (S k) = (k + length (digits fuel base v))%nat.
Proof.
  intros Hb. revert v k. induction fuel as [|f IH]; intros v k Hf Hv; [done|].
  cbn [num_len digits].
  destruct (Z.ltb_spec v base) as [Hlt|Hge].
  - rewrite Z.div_small by lia. simpl. lia.
  - assert (0 < v / base) by (apply Z.div_str_pos; lia).
    destruct (Z.ltb_spec 0 (v / base)); [|lia].
    rewrite Nat2Z.inj_succ, Z.pow_succ_r in Hv by lia.
    rewrite IH.
    + rewrite length_app. simpl. lia.
    + intros ->. simpl in Hv. lia.
    + split; [lia|]. apply Z.div_lt_upper_bound; lia.
Qed.

(** A block written at [off]. *)
Lemma insert_last_block (pre blk post : list Z) x y :
  <[(length pre + length blk)%nat := y]> (pre ++ blk ++ x :: post) = pre ++ blk ++ y :: post.
Proof.
  rewrite app_assoc, <- length_app, insert_app_r_alt, Nat.sub_diag by lia.
  by rewrite <- app_assoc.
Qed.

(** The digit loop fills the block of [len] cells at [off] with the digits
    and leaves every other cell alone. *)
Lemma write_digits_spec fuel base chr (pre blk post : list Z) v :
  1 < base -> (forall d, 0 <= d < base -> 0 <= chr d < 256) -> fuel <> O ->
  0 <= v < base ^ Z.of_nat fuel -> length blk = length (digits fuel base v) ->
  write_digits base chr (length pre) (length blk) v (pre ++ blk ++ post) =
    pre ++ (chr <$> digits fuel base v) ++ post.
Proof.
  intros Hb Hc. revert v blk post.
  induction fuel as [|f IH]; intros v blk post Hf Hv Hlen; [done|].
  cbn [digits] in *. destruct (Z.ltb_spec v base) as [Hlt|Hge].
  - destruct blk as [|x [|? ?]]; simpl in Hlen; try lia. cbn [length write_digits].
    rewrite Z.rem_small by lia. rewrite u8_id by (apply Hc; lia).
    pose proof (insert_last_block pre [] post x (chr v)) as E. simpl in *. by rewrite E.
  - rewrite length_app in Hlen. simpl in Hlen.
    destruct (exists_last (l := blk)) as (b & x & ->); [by destruct blk; simpl in *; [lia|]|].
    rewrite length_app in *. simpl in *. rewrite Nat.add_comm. cbn [Nat.add write_digits].
    rewrite <- app_assoc. cbn [app]. rewrite insert_last_block.
    rewrite Z.quot_div_nonneg, Z.rem_mod_nonneg by lia.
    rewrite Nat2Z.inj_succ, Z.pow_succ_r in Hv by lia.
    rewrite IH; [|intros ->; simpl in Hv; lia| |lia].
    + rewrite fmap_app, <- app_assoc. simpl. rewrite u8_id; [done|].
      apply Hc. apply Z.mod_pos_bound. lia.
    + split; [apply Z.div_pos; lia|]. apply Z.div_lt_upper_bound; lia.
Qed.

(** What the three formatting routines leave in the buffer. *)
Lemma format_spec base chr (pre out : list Z) v :
  1 < base -> 2 ^ 64 <= base ^ 64 -> (forall d, 0 <= d < base -> 0 <= chr d < 256) ->
  0 <= v < 2 ^ 64 -> (length (digits 64 base v) < length out)%nat ->
  let len := num_len 64 base v 1 in
  <[(length pre + len)%nat := 0]> (write_digits base chr (length pre) len v (pre ++ out)) =
    pre ++ (chr <$> digits 64 base v) ++ 0 :: drop (S len) out.
Proof.
  intros Hb Hp Hc Hv Hout len.
  assert (Hlen : len = length (digits 64 base v))
    by (unfold len; rewrite num_len_digits by (done || lia); lia).
  rewrite <- Hlen in Hout.
  pose proof (digits_length 64 base v 64 Hb ltac:(lia) ltac:(lia) ltac:(lia)) as Hd.
  rewrite <- (take_drop len out) at 1.
  assert (Hblk : length (take len out) = len) by (rewrite length_take; lia).
  rewrite <- Hblk at 2.
  rewrite (write_digits_spec 64) by (done || lia).
  destruct (drop len out) as [|x post] eqn:E.
  { apply (f_equal length) in E. rewrite length_drop in E. simpl in E. lia. }
  replace len with (length (chr <$> digits 64 base v)) at 1 by (rewrite length_fmap; lia).
  rewrite insert_last_block. do 3 f_equal.
  replace (S len) with (len + 1)%nat by lia. by rewrite <- drop_drop, E.
Qed.

Lemma buf_str_app (l r : list Z) : Forall (fun c => c <> 0) l -> buf_str (l ++ 0 :: r) = l.
Proof.
  induction l as [|c l IH]; intros H; [done|]. simpl.
  apply Forall_cons in H as [H1 H2]. rewrite IH by done. by destruct (Z.eqb_spec c 0).
Qed.

Lemma buf_str_id (l : list Z) : Forall (fun c => c <> 0) l -> buf_str l = l.
Proof.
  induction 1 as [|c l H ? IH]; [done|]. simpl. rewrite IH. by destruct (Z.eqb_spec c 0).
Qed.

Lemma dec_chr_range d : 0 <= d < 10 -> 48 <= dec_chr d < 58.
Proof. unfold dec_chr. lia. Qed.
Lemma hex_chr_range d : 0 <= d < 16 -> 48 <= hex_chr d < 71.
Proof. unfold hex_chr. repeat zcase; lia. Qed.

Lemma chars_nonzero base chr v :
  1 < base -> 0 <= v -> (forall d, 0 <= d < base -> 48 <= chr d < 256) ->
  Forall (fun c => c <> 0) (chr <$> digits 64 base v).
Proof.
  intros Hb Hv Hc. apply Forall_fmap. eapply Forall_impl; [apply digits_range; done|].
  intros d Hd. specialize (Hc d Hd). simpl. lia.
Qed.

Lemma strlen_loop_spec (s : list Z) n :
  0 <= n -> n + Z.of_nat (length s) < 2 ^ 64 ->
  strlen_loop s n = n + Z.of_nat (length (buf_str s)).
Proof.
  revert n. induction s as [|c s IH]; intros n Hn Hl; simpl; [lia|].
  destruct (Z.eqb_spec c 0); simpl; [lia|]. simpl in Hl.
  rewrite u64_id by lia. rewrite IH by lia. lia.
Qed.

Lemma take_buf_str (s : list Z) : take (length (buf_str s)) s = buf_str s.
Proof.
  induction s as [|c s IH]; [done|]. simpl. destruct (c =? 0); [done|]. simpl. by rewrite IH.
Qed.

(** [fputs] sends the bytes before the first NUL to the terminal. *)
Lemma fputs_out (s : list Z) t :
  Z.of_nat (length s) < 2 ^ 64 ->
  fputs s stdout t =
    Ret 1 (mkTty (tty_out t ++ buf_str s) (Z.of_nat (length (buf_str s)))).
Proof.
  intros Hs. unfold fputs, bind, strlen, terminal_write, modify, ret.
  rewrite Z.eqb_refl. simpl. rewrite strlen_loop_spec by lia. cbn [tty_out strlen_length].
  rewrite ?Z.add_0_l, Nat2Z.id. by rewrite take_buf_str.
Qed.

Lemma puts_n_loop_out n i (str : list Z) t :
  exists k, puts_n_loop n i str t =
    Ret tt (mkTty (tty_out t ++ filter (fun c => c <> 0) (cstr_get str <$> seq i n)) k).
Proof.
  revert i t. induction n as [|n IH]; intros i [o k]; simpl.
  - exists k. by rewrite app_nil_r.
  - unfold bind. rewrite fputs_out by done. simpl.
    destruct (IH (S i) (mkTty (o ++ buf_str [cstr_get str i; 0]) (Z.of_nat (length (buf_str [cstr_get str i; 0]))))) as [k' E].
    exists k'. simpl in E. rewrite E. f_equal. f_equal. rewrite <- app_assoc. f_equal.
    rewrite filter_cons. simpl. destruct (Z.eqb_spec (cstr_get str i) 0), (decide (cstr_get str i <> 0)); done.
Qed.

(** Reading a number back: the inverse of [dec_chr] and of [hex_chr]. *)
Definition undec (c : Z) : Z := c - 48.
Definition unhex (c : Z) : Z := if 65 <=? c then c - 55 else c - 48.
Definition parse (base : Z) (un : Z -> Z) (s : list Z) : Z := number_of base (un <$> s).
Definition parse_int (s : list Z) : Z :=
  match s with
  | 45 :: s' => - parse 10 undec s'
  | _ => parse 10 undec s
  end.

Lemma parse_chars base chr un v :
  1 < base -> 2 ^ 64 <= base ^ 64 -> 0 <= v < 2 ^ 64 ->
  (forall d, 0 <= d < base -> un (chr d) = d) ->
  parse base un (chr <$> digits 64 base v) = v.
Proof.
  intros Hb Hp Hv Hu. unfold parse. rewrite <- list_fmap_compose.
  rewrite (Forall_fmap_ext_1 _ id).
  - rewrite list_fmap_id. apply number_of_digits; lia.
  - eapply Forall_impl; [apply digits_range; lia|]. intros d Hd. by apply Hu.
Qed.

Lemma unhex_hex_chr d : 0 <= d < 16 -> unhex (hex_chr d) = d.
Proof. intros H. unfold unhex, hex_chr. repeat zcase; lia. Qed.

(** A buffer that holds [s] as a C string and is otherwise as [out] was. *)
Definition holds (s out buf : list Z) : Prop :=
  buf = s ++ 0 :: drop (S (length s)) out /\ Forall (fun c => c <> 0) s.

Lemma holds_str s out buf : holds s out buf -> buf_str buf = s.
Proof. intros [-> H]. by apply buf_str_app. Qed.

Lemma uint2str_holds val (out : list Z) :
  0 <= val < 2 ^ 64 -> (20 < length out)%nat ->
  let s := dec_chr <$> digits 64 10 val in
  holds s out (uint2str val out) /\ (length s <= 20)%nat /\ parse 10 undec s = val.
Proof.
  intros Hv Ho s. pose proof (digits_length 64 10 val 20 ltac:(lia) ltac:(lia) ltac:(lia) ltac:(lia)).
  assert (Hc : forall d, 0 <= d < 10 -> 48 <= dec_chr d < 256)
    by (intros d Hd; pose proof (dec_chr_range d Hd); lia).
  split; [split|split].
  - unfold uint2str. pose proof (format_spec 10 dec_chr [] out val) as E. cbn zeta in E.
    cbn [length app Nat.add] in E. rewrite E; [|lia|lia|intros d Hd; specialize (Hc d Hd); lia|lia|lia].
    unfold s. rewrite length_fmap. rewrite num_len_digits; [done|lia|lia|lia].
  - by apply chars_nonzero; [lia|lia|].
  - unfold s. rewrite length_fmap. lia.
  - apply parse_chars; [lia|lia|lia|]. intros d Hd. unfold undec, dec_chr. lia.
Qed.

Lemma hex2str_holds val (out : list Z) :
  0 <= val < 2 ^ 64 -> (16 < length out)%nat ->
  let s := hex_chr <$> digits 64 16 val in
  holds s out (hex2str val out) /\ (length s <= 16)%nat /\ parse 16 unhex s = val.
Proof.
  intros Hv Ho s. pose proof (digits_length 64 16 val 16 ltac:(lia) ltac:(lia) ltac:(lia) ltac:(lia)).
  assert (Hc : forall d, 0 <= d < 16 -> 48 <= hex_chr d < 256)
    by (intros d Hd; pose proof (hex_chr_range d Hd); lia).
  split; [split|split].
  - unfold hex2str. pose proof (format_spec 16 hex_chr [] out val) as E. cbn zeta in E.
    cbn [length app Nat.add] in E. rewrite E; [|lia|lia|intros d Hd; specialize (Hc d Hd); lia|lia|lia].
    unfold s. rewrite length_fmap. rewrite num_len_digits; [done|lia|lia|lia].
  - by apply chars_nonzero; [lia|lia|].
  - unfold s. rewrite length_fmap. lia.
  - apply parse_chars; [lia|lia|lia|]. apply unhex_hex_chr.
Qed.

Lemma int2str_neg_holds val (out : list Z) :
  - 2 ^ 63 < val < 0 -> (20 < length out)%nat ->
  holds (45 :: (dec_chr <$> digits 64 10 (- val))) out (int2str val out).
Proof.
  intros Hv Ho. pose proof (digits_length 64 10 (- val) 19 ltac:(lia) ltac:(lia) ltac:(lia) ltac:(lia)).
  assert (Hc : forall d, 0 <= d < 10 -> 48 <= dec_chr d < 256)
    by (intros d Hd; pose proof (dec_chr_range d Hd); lia).
  destruct out as [|x out]; [simpl in Ho; lia|].
  split; [|constructor; [done|]; by apply chars_nonzero; [lia|lia|]].
  unfold int2str. destruct (Z.ltb_spec val 0); [|lia].
  replace (val * -1) with (- val) by lia. rewrite i64_id, u64_id by lia.
  pose proof (format_spec 10 dec_chr [45] out (- val)) as E. cbn zeta in E.
  cbn [length app] in E. cbn [insert list_insert]. simpl in Ho.
  rewrite E; [|lia|lia|intros d Hd; specialize (Hc d Hd); lia|lia|lia].
  cbn [length]. rewrite length_fmap. rewrite num_len_digits; [done|lia|lia|lia].
Qed.

Lemma holds_length s out buf :
  holds s out buf -> (length s < length out)%nat -> length buf = length out.
Proof. intros [-> _] H. rewrite length_app. simpl. rewrite length_drop. lia. Qed.

(** Printing a buffer that holds [s] appends [s] to the terminal. *)
Lemma fputs_holds s out buf t :
  holds s out buf -> (length s <= 20)%nat ->
  (fputs (buf_str buf) stdout ;;; ret buf) t =
    Ret buf (mkTty (tty_out t ++ s) (Z.of_nat (length s))).
Proof.
  intros H Hl. rewrite (holds_str _ _ _ H). unfold bind. rewrite fputs_out by lia.
  rewrite buf_str_id by apply H. done.
Qed.

Lemma parse_int_pos s c : 48 <= c -> parse_int (c :: s) = parse 10 undec (c :: s).
Proof.
  intros H. unfold parse_int. destruct c as [|p|p]; try done.
  do 6 (destruct p as [p|p|]; try done; try lia).
Qed.

(** The text of a signed number. *)
Lemma int2str_holds val (out : list Z) :
  - 2 ^ 63 < val < 2 ^ 63 -> (20 < length out)%nat ->
  exists s, holds s out (int2str val out) /\ (length s <= 20)%nat /\ parse_int s = val.
Proof.
  intros Hv Ho. destruct (Z_lt_ge_dec val 0) as [Hn|Hp].
  - exists (45 :: (dec_chr <$> digits 64 10 (- val))).
    pose proof (digits_length 64 10 (- val) 19 ltac:(lia) ltac:(lia) ltac:(lia) ltac:(lia)).
    split; [apply int2str_neg_holds; lia|]. split; [cbn [length]; rewrite length_fmap; lia|].
    unfold parse_int. rewrite parse_chars; [lia..|]. intros d Hd. unfold undec, dec_chr. lia.
  - exists (dec_chr <$> digits 64 10 val).
    assert (E0 : int2str val out = uint2str val out).
    { unfold int2str, uint2str. destruct (Z.ltb_spec val 0); [lia|].
      cbv beta iota zeta. rewrite u64_id by lia. reflexivity. }
    destruct (uint2str_holds val out ltac:(lia) ltac:(lia)) as (Hh & Hl & Hpar).
    rewrite E0. split; [done|]. split; [done|]. rewrite <- Hpar at 2.
    pose proof (digits_range 64 10 val ltac:(lia) ltac:(lia)) as Hr.
    pose proof (digits_length 64 10 val 20 ltac:(lia) ltac:(lia) ltac:(lia) ltac:(lia)) as Hd.
    destruct (digits 64 10 val) as [|d ds]; [simpl in Hd; lia|].
    apply Forall_cons in Hr as [Hr _]. apply parse_int_pos. unfold dec_chr. lia.
Qed.

(** ** Properties *)



(** [LogNumber] of a signed number other than the most negative one
    sends to the terminal exactly its decimal text: the text parses back to
    the number, and what was on the terminal before stays. *)
Theorem LogNumber_i_roundtrip val (buf : list Z) t :
  - 2 ^ 63 < val < 2 ^ 63 -> length buf = 256%nat ->
  exists s buf' k,
    LogNumber_i val buf t = Ret buf' (mkTty (tty_out t ++ s) k) /\
    parse_int s = val /\ (length s <= 20)%nat /\ length buf' = 256%nat.
Proof.
  intros Hv Hb. destruct (int2str_holds val buf Hv ltac:(lia)) as (s & Hh & Hl & Hp).
  exists s, (int2str val buf), (Z.of_nat (length s)). split; [|split; [|split]].
  - by apply fputs_holds with buf.
  - done.
  - done.
  - rewrite (holds_length _ _ _ Hh); lia.
Qed.

Lemma LogNumber_i_roundtrip_witness :
  exists s buf' k,
    LogNumber_i (-1207) (replicate 256 0) (mkTty [72] 0) = Ret buf' (mkTty ([72] ++ s) k) /\
    parse_int s = -1207 /\ (length s <= 20)%nat /\ length buf' = 256%nat.
Proof. apply (LogNumber_i_roundtrip (-1207) (replicate 256 0) (mkTty [72] 0)); [lia|done]. Defined.

(** [puts_n] prints the first [s] bytes of its argument one by one; a
    NUL byte among them prints nothing, and every other byte appears once, in
    order. *)
Theorem puts_n_prints (str : list Z) s t :
  exists k, puts_n str s t =
    Ret tt (mkTty (tty_out t ++ filter (fun c => c <> 0) (cstr_get str <$> seq 0 (Z.to_nat s))) k).
Proof. apply puts_n_loop_out. Qed.

End Console.
