(* ===== verification/Pmm.v ===== *)
(** The physical memory manager (kernel/Memory/Paging/Pmm): the boot loader's
    memory map, the size of memory, the page allocator with its free list, and
    their refinement of a pool of pages. *)

From stdpp Require Import base tactics list gmap numbers option strings sorting.
From Stdlib Require Import ZArith Lia.
From S2P Require Import Prelude Mem Console.

#[local] Open Scope Z_scope.

Module Pmm.
Import Prelude Mem Console.
#[local] Open Scope lofi_scope.

(** ** State *)

Record limine_memmap_entry := mkEntry { base : Z; len : Z; type : Z }.

Definition LIMINE_MEMMAP_USABLE : Z := 0.
Definition LIMINE_MEMMAP_BOOTLOADER_RECLAIMABLE : Z := 5.

(** The memory, the console, the globals of Pmm.cpp and the static variable
    of [GetSizeOfMemory]. *)
Record pmm := mkPmm {
  mem : gmap Z Z;
  con : tty;
  FreeList : Z;
  FreeListLength : Z;
  LastAddress : Z;
  SizeOfMemory : Z
}.

Definition set_mem (f : gmap Z Z -> gmap Z Z) (s : pmm) : pmm :=
  mkPmm (f (mem s)) (con s) (FreeList s) (FreeListLength s) (LastAddress s) (SizeOfMemory s).
Definition set_con (t : tty) (s : pmm) : pmm :=
  mkPmm (mem s) t (FreeList s) (FreeListLength s) (LastAddress s) (SizeOfMemory s).
Definition set_FreeList (v : Z) (s : pmm) : pmm :=
  mkPmm (mem s) (con s) v (FreeListLength s) (LastAddress s) (SizeOfMemory s).
Definition set_FreeListLength (v : Z) (s : pmm) : pmm :=
  mkPmm (mem s) (con s) (FreeList s) v (LastAddress s) (SizeOfMemory s).
Definition set_LastAddress (v : Z) (s : pmm) : pmm :=
  mkPmm (mem s) (con s) (FreeList s) (FreeListLength s) v (SizeOfMemory s).
Definition set_SizeOfMemory (v : Z) (s : pmm) : pmm :=
  mkPmm (mem s) (con s) (FreeList s) (FreeListLength s) (LastAddress s) v.

Section Ops.
(** [MemoryMapRequest.response->entries]. *)
Variable memmap : list limine_memmap_entry.

(** ** Operations *)

Fixpoint size_loop (l : list limine_memmap_entry) (acc : Z) : Z :=
  match l with
  | [] => acc
  | Entry :: r =>
    let EndOfSegment := u64 (base Entry + len Entry) in
    if (type Entry =? LIMINE_MEMMAP_USABLE)
       || (type Entry =? LIMINE_MEMMAP_BOOTLOADER_RECLAIMABLE)
    then size_loop r (if acc <? EndOfSegment then EndOfSegment else acc)
    else size_loop r acc
  end.

Definition GetSizeOfMemory : M pmm Z :=
  let* cached := gets SizeOfMemory in
  if 0 <? cached then ret cached
  else
    let size := size_loop memmap cached in
    let Unit := 1048576 in
    let size := if negb (size mod Unit =? 0) then u64 (u64 (size / Unit + 1) * Unit) else size in
    modify (set_SizeOfMemory size) ;;;
    ret size.

Fixpoint create_loop (l : list limine_memmap_entry) (MAX_Size FL : Z) : Z :=
  match l with
  | [] => FL
  | Entry :: r =>
    if type Entry =? LIMINE_MEMMAP_USABLE then
      if MAX_Size <? len Entry then create_loop r (len Entry) (base Entry)
      else create_loop r MAX_Size FL
    else create_loop r MAX_Size FL
  end.
Definition CreatePMM : M pmm unit :=
  let* FL := gets FreeList in
  modify (set_FreeList (create_loop memmap 0 FL)).

(** The inner loop of [AllocatePage], from page [PageIndex] on, [n] pages
    left; then the loop over the entries. *)
Fixpoint scan_pages (n : nat) (PageIndex : Z) (Entry : limine_memmap_entry) (last : Z) : option Z :=
  match n with
  | O => None
  | S n' =>
    let Address := u64 (base Entry + PageIndex * 4096) in
    if last <? Address then Some Address else scan_pages n' (PageIndex + 1) Entry last
  end.
Fixpoint scan_entries (l : list limine_memmap_entry) (last : Z) : option Z :=
  match l with
  | [] => None
  | Entry :: r =>
    if type Entry =? LIMINE_MEMMAP_USABLE then
      match scan_pages (Z.to_nat (len Entry / 4096)) 0 Entry last with
      | Some a => Some a
      | None => scan_entries r last
      end
    else scan_entries r last
  end.

Definition out_of_memory {A} : M pmm A :=
  zoom con set_con (fputs (lit "Out of memory") stdout) ;;; done_.

Definition AllocatePage : M pmm Z :=
  fun s =>
  if 0 <? FreeListLength s then
    let FreeAddress := ld 8 (mem s) (u64 (FreeList s + (FreeListLength s - 1) * 8)) in
    Ret FreeAddress (set_FreeListLength (FreeListLength s - 1) s)
  else
    match scan_entries memmap (LastAddress s) with
    | Some Address => Ret Address (set_LastAddress Address s)
    | None => out_of_memory s
    end.

Definition AllocateEmptyPage : M pmm Z :=
  let* Address := AllocatePage in
  modify (set_mem (fun m => memset m Address 0 4096)) ;;;
  ret Address.

Definition FreePage (ptr : Z) : M pmm unit :=
  fun s =>
  let n := u64 (FreeListLength s + 1) in
  Ret tt (set_mem (fun m => st 8 m (u64 (FreeList s + u64 ((n - 1) * 8))) ptr)
            (set_FreeListLength n s)).

(** ** Specification: a pool of pages *)

Definition entry_pages (e : limine_memmap_entry) : list Z :=
  (fun i => base e + Z.of_nat i * 4096) <$> seq 0 (Z.to_nat (len e / 4096)).
Definition usable (e : limine_memmap_entry) : Prop := type e = LIMINE_MEMMAP_USABLE.
#[global] Instance usable_dec e : Decision (usable e).
Proof. unfold usable. apply _. Defined.
Definition pages : list Z := flat_map entry_pages (filter usable memmap).

(** What the Limine protocol says of a memory map: usable entries are page
    aligned, do not overlap and come in increasing order; physical addresses
    have at most 52 bits. *)
Definition entry_ok (e : limine_memmap_entry) : Prop :=
  0 <= base e /\ base e mod 4096 = 0 /\ 0 <= len e /\ base e + len e <= 2 ^ 52.
Definition entry_before (e1 e2 : limine_memmap_entry) : Prop := base e1 + len e1 <= base e2.
Definition memmap_ok : Prop :=
  Forall entry_ok (filter usable memmap) /\ StronglySorted entry_before (filter usable memmap).

(** The free list as it lies in memory, most recently freed page first. *)
Fixpoint stack_at (n : nat) (m : gmap Z Z) (fl : Z) : list Z :=
  match n with
  | O => []
  | S n' => ld 8 m (fl + Z.of_nat n' * 8) :: stack_at n' m fl
  end.
Definition stack (s : pmm) : list Z := stack_at (Z.to_nat (FreeListLength s)) (mem s) (FreeList s).
Definition fresh (s : pmm) : list Z := filter (fun a => LastAddress s < a) pages.
Definition pool (s : pmm) : list Z := stack s ++ fresh s.

(** The free list fits below the end of the address space. *)
Definition pmm_ok (s : pmm) : Prop :=
  0 <= LastAddress s /\ 0 <= FreeList s /\ 0 <= FreeListLength s /\
  FreeList s + (FreeListLength s + 1) * 8 < 2 ^ 64.

End Ops.

(** Computes the fields of an updated state. *)
Ltac fields := cbn [set_mem set_con set_FreeList set_FreeListLength set_LastAddress
  set_SizeOfMemory mem con FreeList FreeListLength LastAddress SizeOfMemory fst snd].

(** ** Lemmas *)

Lemma scan_pages_find n k e last :
  0 <= base e -> base e + (Z.of_nat k + Z.of_nat n) * 4096 <= 2 ^ 64 ->
  scan_pages n (Z.of_nat k) e last =
    head (filter (fun a => last < a) ((fun i => base e + Z.of_nat i * 4096) <$> seq k n)).
Proof.
  intros Hb. revert k. induction n as [|n IH]; intros k Hk; [done|].
  cbn [scan_pages seq fmap list_fmap]. rewrite u64_id by lia. rewrite filter_cons.
  destruct (Z.ltb_spec last (base e + Z.of_nat k * 4096)); case_decide; try lia; [done|].
  replace (Z.of_nat k + 1) with (Z.of_nat (S k)) by lia. apply IH. lia.
Qed.

Lemma head_app_None {A} (l1 l2 : list A) :
  head (l1 ++ l2) = match head l1 with Some a => Some a | None => head l2 end.
Proof. by destruct l1. Qed.

(** The scan of the code returns the first page above [LastAddress]. *)
Lemma scan_entries_find l last :
  Forall entry_ok (filter usable l) ->
  scan_entries l last = head (filter (fun a => last < a) (pages l)).
Proof.
  induction l as [|e l IH]; intros Hok; [done|]. cbn [scan_entries]. unfold pages.
  rewrite filter_cons in Hok |- *. unfold usable in *.
  destruct (Z.eqb_spec (type e) LIMINE_MEMMAP_USABLE), (decide (type e = LIMINE_MEMMAP_USABLE)); try done.
  - apply Forall_cons in Hok as [(H1 & H2 & H3 & H4) Hok].
    cbn [flat_map]. rewrite filter_app, head_app_None. rewrite IH by done.
    rewrite (scan_pages_find _ 0 e) by (zdm). done.
  - by apply IH.
Qed.

Lemma entry_pages_in e a :
  entry_ok e -> a ∈ entry_pages e ->
  base e <= a /\ a + 4096 <= base e + len e /\ a mod 4096 = 0.
Proof.
  intros (H1 & H2 & H3 & H4) (i & -> & Hi)%list_elem_of_fmap.
  apply elem_of_seq in Hi. split; [lia|]. split; [zdm|].
  rewrite Z.mod_add by lia. done.
Qed.

Lemma elem_of_pages l a : a ∈ pages l -> exists e, e ∈ l /\ usable e /\ a ∈ entry_pages e.
Proof.
  unfold pages. intros H. apply list_elem_of_In, in_flat_map in H as (e & He & Ha).
  apply list_elem_of_In in He, Ha. apply list_elem_of_filter in He as [? ?]. eauto.
Qed.

(** Every page of a well-formed map is aligned, non-overflowing memory of a
    usable entry. *)
Lemma pages_in l a :
  memmap_ok l -> a ∈ pages l ->
  exists e, e ∈ l /\ usable e /\ base e <= a /\ a + 4096 <= base e + len e /\
            a mod 4096 = 0 /\ 0 <= a /\ a + 4096 <= 2 ^ 52.
Proof.
  intros [Hok _] Ha. apply elem_of_pages in Ha as (e & He & Hu & Ha).
  rewrite Forall_forall in Hok.
  assert (Hoke : entry_ok e) by (apply Hok, list_elem_of_filter; done).
  pose proof (entry_pages_in e a Hoke Ha) as (? & ? & ?).
  destruct Hoke as (? & ? & ? & ?). exists e. repeat split; auto; lia.
Qed.

Lemma StronglySorted_flat {A B} (R : A -> A -> Prop) (P : B -> B -> Prop) (Q : A -> Prop) (f : A -> list B) l :
  StronglySorted R l -> Forall Q l ->
  (forall x, Q x -> StronglySorted P (f x)) ->
  (forall x y a b, Q x -> Q y -> R x y -> a ∈ f x -> b ∈ f y -> P a b) ->
  StronglySorted P (flat_map f l).
Proof.
  intros Hs HQ Hf Hc. induction Hs as [|x l Hs IH Hx]; [constructor|].
  apply Forall_cons in HQ as [HQx HQ]. cbn [flat_map].
  assert (Hall : Forall (fun a => Forall (P a) (flat_map f l)) (f x)).
  { apply Forall_forall. intros a Ha. apply Forall_forall. intros b Hb.
    apply list_elem_of_In, in_flat_map in Hb as (y & Hy & Hb). apply list_elem_of_In in Hy, Hb.
    rewrite Forall_forall in Hx, HQ. exact (Hc x y a b HQx (HQ y Hy) (Hx y Hy) Ha Hb). }
  specialize (Hf x HQx). specialize (IH HQ). clear -Hf IH Hall.
  induction Hf as [|a la Hf IHf Ha]; [done|].
  apply Forall_cons in Hall as [Ha' Hall]. cbn [app]. constructor; [auto|].
  apply Forall_app. done.
Qed.

Lemma StronglySorted_seq_fmap (f : nat -> Z) n k :
  (forall i j, (i < j)%nat -> f i < f j) -> StronglySorted Z.lt (f <$> seq k n).
Proof.
  intros Hf. revert k. induction n as [|n IH]; intros k; cbn; constructor; [apply IH|].
  apply Forall_fmap, Forall_forall. intros x Hx. apply elem_of_seq in Hx. apply Hf. lia.
Qed.

(** The pages of a well-formed map come in strictly increasing order. *)
Lemma pages_sorted l : memmap_ok l -> StronglySorted Z.lt (pages l).
Proof.
  intros [Hok Hs]. unfold pages.
  apply (StronglySorted_flat entry_before Z.lt entry_ok entry_pages); [done|done|..].
  - intros e He. apply StronglySorted_seq_fmap. lia.
  - intros x y a b Hx Hy Hxy Ha Hb. unfold entry_before in Hxy.
    pose proof (entry_pages_in x a Hx Ha). pose proof (entry_pages_in y b Hy Hb). lia.
Qed.

Lemma pages_NoDup l : memmap_ok l -> NoDup (pages l).
Proof.
  intros Hl. induction (pages_sorted l Hl) as [|x r Hs IH Hx]; constructor; [|done].
  intros Hin. rewrite Forall_forall in Hx. specialize (Hx x Hin). lia.
Qed.

(** In a sorted list, dropping the elements up to the first one above a bound
    keeps exactly the elements above that element. *)
Lemma filter_gt_cons (l : list Z) last a r :
  StronglySorted Z.lt l -> filter (fun x => last < x) l = a :: r ->
  filter (fun x => a < x) l = r /\ last < a /\ a ∈ l.
Proof.
  induction 1 as [|x l Hs IH Hx]; intros Hf; [done|].
  rewrite filter_cons in Hf |- *. destruct (decide (last < x)).
  - injection Hf as -> <-. destruct (decide (a < a)); [lia|].
    split; [|split; [lia|left]].
    assert (Hall : Forall (fun y => last < y /\ a < y) l).
    { eapply Forall_impl; [exact Hx|]. simpl. lia. }
    clear -Hall. induction Hall as [|y l [Hy1 Hy2] _ IH]; [done|].
    rewrite !filter_cons. destruct (decide (a < y)), (decide (last < y)); try lia. by rewrite IH.
  - destruct (IH Hf) as (E & Hl & Hin). destruct (decide (a < x)).
    + exfalso. rewrite Forall_forall in Hx. specialize (Hx a Hin). lia.
    + split; [done|]. split; [done|by right].
Qed.

Lemma stack_at_ext n m m' fl :
  (forall k, 0 <= k < Z.of_nat n -> ld 8 m (fl + k * 8) = ld 8 m' (fl + k * 8)) ->
  stack_at n m fl = stack_at n m' fl.
Proof.
  induction n as [|n IH]; intros H; [done|]. cbn [stack_at]. rewrite H by lia.
  f_equal. apply IH. intros k Hk. apply H. lia.
Qed.

Lemma stack_pop s :
  0 < FreeListLength s ->
  stack s = ld 8 (mem s) (FreeList s + (FreeListLength s - 1) * 8)
            :: stack (set_FreeListLength (FreeListLength s - 1) s).
Proof.
  intros H. unfold stack, set_FreeListLength. cbn [FreeListLength mem FreeList].
  replace (Z.to_nat (FreeListLength s)) with (S (Z.to_nat (FreeListLength s - 1))) by lia.
  cbn [stack_at]. do 3 f_equal. lia.
Qed.

Lemma pool_no_stack l s : FreeListLength s <= 0 -> pool l s = fresh l s.
Proof.
  intros H. unfold pool, stack. by replace (Z.to_nat (FreeListLength s)) with 0%nat by lia.
Qed.

(** Writing below or above the free list does not change the pool. *)
Lemma pool_set_mem l f s :
  (forall k, 0 <= k < FreeListLength s ->
     ld 8 (f (mem s)) (FreeList s + k * 8) = ld 8 (mem s) (FreeList s + k * 8)) ->
  pool l (set_mem f s) = pool l s.
Proof.
  intros H. unfold pool, stack, fresh. cbn. f_equal. apply stack_at_ext.
  intros k Hk. apply H. lia.
Qed.

Lemma out_of_memory_out {A} s :
  exists s', @out_of_memory A s = Done s' /\
    tty_out (con s') = tty_out (con s) ++ lit "Out of memory".
Proof.
  unfold out_of_memory, bind, zoom. rewrite fputs_out by (vm_compute; done).
  eexists. split; [reflexivity|]. done.
Qed.

(** *** Allocation pops the pool, freeing pushes on it *)

Lemma AllocatePage_pop l s a p :
  memmap_ok l -> pmm_ok s -> pool l s = a :: p ->
  exists s', AllocatePage l s = Ret a s' /\ pool l s' = p /\ pmm_ok s' /\
    mem s' = mem s /\ FreeList s' = FreeList s /\ con s' = con s.
Proof.
  intros Hl (H1 & H2 & H3 & H4) Hp. unfold AllocatePage.
  destruct (Z.ltb_spec 0 (FreeListLength s)) as [Hn|Hn].
  - unfold pool in Hp. rewrite stack_pop in Hp by done. injection Hp as <- <-.
    rewrite u64_id by lia. eexists. split; [reflexivity|].
    unfold pmm_ok. fields. repeat split; try done; lia.
  - rewrite pool_no_stack in Hp by done. unfold fresh in Hp.
    rewrite scan_entries_find by apply Hl. rewrite Hp. cbn [head].
    destruct (filter_gt_cons _ _ _ _ (pages_sorted l Hl) Hp) as (E & Hlt & Hin).
    eexists. split; [reflexivity|]. rewrite pool_no_stack by done.
    unfold fresh, pmm_ok. fields. repeat split; try done; lia.
Qed.

Lemma AllocatePage_empty l s :
  memmap_ok l -> pmm_ok s -> pool l s = [] ->
  exists s', AllocatePage l s = Done s' /\
    tty_out (con s') = tty_out (con s) ++ lit "Out of memory".
Proof.
  intros Hl (H1 & H2 & H3 & H4) Hp. unfold AllocatePage.
  destruct (Z.ltb_spec 0 (FreeListLength s)) as [Hn|Hn].
  - unfold pool in Hp. by rewrite stack_pop in Hp.
  - rewrite pool_no_stack in Hp by done. unfold fresh in Hp.
    rewrite scan_entries_find by apply Hl. rewrite Hp. apply out_of_memory_out.
Qed.

Lemma FreePage_push l s p :
  pmm_ok s -> 0 <= p < 2 ^ 64 -> FreeList s + (FreeListLength s + 2) * 8 < 2 ^ 64 ->
  exists s', FreePage p s = Ret tt s' /\ pool l s' = p :: pool l s /\ pmm_ok s' /\
    FreeList s' = FreeList s /\ FreeListLength s' = FreeListLength s + 1 /\
    LastAddress s' = LastAddress s.
Proof.
  intros (H1 & H2 & H3 & H4) Hp Hb. eexists. split; [reflexivity|].
  rewrite (u64_id (FreeListLength s + 1)) by lia.
  replace (FreeListLength s + 1 - 1) with (FreeListLength s) by lia.
  rewrite (u64_id (FreeListLength s * 8)), u64_id by lia.
  unfold pmm_ok, pool, fresh, stack. fields. split; [|repeat split; lia].
  replace (Z.to_nat (FreeListLength s + 1)) with (S (Z.to_nat (FreeListLength s))) by lia.
  cbn [stack_at app]. rewrite Z2Nat.id by lia. rewrite ld_st_eq, Z.mod_small by (change (256 ^ Z.of_nat 8) with (2 ^ 64); lia).
  do 2 f_equal. apply stack_at_ext. intros k Hk. apply ld_st_ne. lia.
Qed.

(** A page outside the free list's own storage. *)
Definition clear_of_list (s : pmm) (a : Z) : Prop :=
  FreeListLength s <= 0 \/ a + 4096 <= FreeList s \/ FreeList s + FreeListLength s * 8 <= a.

Lemma AllocateEmptyPage_pop l s a p :
  memmap_ok l -> pmm_ok s -> pool l s = a :: p -> clear_of_list s a ->
  exists s', AllocateEmptyPage l s = Ret a s' /\ pool l s' = p /\ pmm_ok s' /\
    mem s' = memset (mem s) a 0 4096 /\ FreeList s' = FreeList s /\ con s' = con s.
Proof.
  intros Hl Hok Hp Hc. destruct (AllocatePage_pop l s a p Hl Hok Hp) as (s1 & E & Hp1 & Hok1 & Hm & Hf & Hco).
  exists (set_mem (fun m => memset m a 0 4096) s1).
  unfold AllocateEmptyPage. rewrite (bind_ret _ _ _ _ _ E). split; [reflexivity|].
  split; [|fields; rewrite Hm; repeat split; try done; apply Hok1].
  rewrite pool_set_mem; [done|]. intros k Hk. apply ld_memset_out; [lia|].
  assert (FreeListLength s1 <= FreeListLength s).
  { revert E. unfold AllocatePage. zcase.
    - intros [= _ <-]. cbn. lia.
    - destruct (scan_entries l (LastAddress s)).
      + by intros [= _ <-].
      + destruct (@out_of_memory_out Z s) as (? & -> & _). done. }
  unfold clear_of_list in Hc. rewrite Hf. lia.
Qed.

(** *** Runs of the allocator with its clients *)

Section Runs.
Context (l : list limine_memmap_entry) (Hl : memmap_ok l).

(** A client allocates, frees a page it owns, or writes to memory outside
    the storage of the free list. *)
Inductive client_step : pmm * list Z -> pmm * list Z -> Prop :=
| step_alloc s a s' owned :
    AllocatePage l s = Ret a s' -> client_step (s, owned) (s', a :: owned)
| step_free s p s' o1 o2 :
    FreePage p s = Ret tt s' -> client_step (s, o1 ++ p :: o2) (s', o1 ++ o2)
| step_write s a n v owned :
    a + Z.of_nat n <= FreeList s \/ FreeList s + FreeListLength s * 8 <= a ->
    client_step (s, owned) (set_mem (fun m => st n m a v) s, owned).

(** The pages of the pool and those in the clients' hands are, together, the
    non-zero pages of the map, each once. *)
Definition run_inv (c : pmm * list Z) : Prop :=
  pmm_ok (fst c) /\ FreeList (fst c) <= 2 ^ 52 /\
  pool l (fst c) ++ snd c ≡ₚ filter (fun a => 0 < a) (pages l).

Lemma length_pages_bound : Z.of_nat (length (filter (fun a => 0 < a) (pages l))) <= 2 ^ 52.
Proof.
  set (f := filter _ _). assert (NoDup (Z.to_nat <$> f)) as Hnd.
  { apply NoDup_fmap_2_strong.
    - intros x y Hx Hy E. unfold f in Hx, Hy.
      apply list_elem_of_filter in Hx as [? ?]. apply list_elem_of_filter in Hy as [? ?]. lia.
    - by apply NoDup_filter, pages_NoDup. }
  assert (Hincl : forall x, x ∈ (Z.to_nat <$> f) -> (x < Z.to_nat (2 ^ 52))%nat).
  { intros x (a & -> & Ha)%list_elem_of_fmap. apply list_elem_of_filter in Ha as [Ha0 Ha].
    apply (pages_in l a Hl) in Ha as (e & _ & _ & _ & _ & _ & ? & ?). lia. }
  rewrite <- (length_fmap Z.to_nat f).
  enough (length (Z.to_nat <$> f) <= Z.to_nat (2 ^ 52))%nat by lia.
  generalize dependent (Z.to_nat <$> f). intros g Hnd Hincl.
  assert (Hsub : g ⊆+ seq 0 (Z.to_nat (2 ^ 52))).
  { apply NoDup_submseteq; [done|]. intros x Hx. apply elem_of_seq. specialize (Hincl x Hx). lia. }
  apply submseteq_length in Hsub. by rewrite length_seq in Hsub.
Qed.

Lemma run_inv_step c c' : run_inv c -> client_step c c' -> run_inv c'.
Proof.
  intros (Hok & Hf & Hp) Hs. pose proof length_pages_bound as Hbound.
  destruct Hs as [s a s' owned E|s p s' o1 o2 E|s a n v owned Hc]; cbn [fst snd] in *.
  - destruct (pool l s) as [|b q] eqn:Hpool.
    + destruct (AllocatePage_empty l s Hl Hok Hpool) as (? & E' & _). congruence.
    + destruct (AllocatePage_pop l s b q Hl Hok Hpool) as (s1 & E' & Hq & Hok' & _ & Hf' & _).
      rewrite E in E'. injection E' as -> ->. split; [done|]. split; [cbn; lia|].
      cbn [fst snd]. rewrite Hq, <- Hp. by rewrite <- Permutation_middle.
  - assert (Hin : p ∈ pages l).
    { assert (p ∈ filter (fun a => 0 < a) (pages l)) as Hin.
      { rewrite <- Hp. apply elem_of_app. right. apply elem_of_app. right. left. }
      by apply list_elem_of_filter in Hin as [_ ?]. }
    destruct (pages_in l p Hl Hin) as (_ & _ & _ & _ & _ & _ & ? & ?).
    assert (Hlen : FreeListLength s <= 2 ^ 52).
    { apply Permutation_length in Hp. rewrite length_app in Hp.
      assert (Hst : length (stack s) = Z.to_nat (FreeListLength s)).
      { unfold stack. generalize (Z.to_nat (FreeListLength s)) as k.
        induction k as [|k IH]; cbn; [done|]. by rewrite IH. }
      unfold pool in Hp. rewrite length_app in Hp. lia. }
    destruct (FreePage_push l s p Hok ltac:(lia) ltac:(lia)) as (s1 & E' & Hq & Hok' & Hf' & _).
    rewrite E in E'. injection E' as ->. split; [done|]. split; [cbn; lia|].
    cbn [fst snd]. rewrite Hq, <- Hp. cbn [app]. rewrite !app_assoc. by rewrite Permutation_middle.
  - split; [done|]. split; [done|]. cbn [fst snd]. rewrite pool_set_mem; [done|].
    intros k Hk. apply ld_st_ne. lia.
Qed.

Lemma run_inv_reachable c c' : run_inv c -> rtc client_step c c' -> run_inv c'.
Proof. intros H Hr. induction Hr; [done|]. eauto using run_inv_step. Qed.

End Runs.

(** The state at boot, before [CreatePMM]. *)
Definition boot_state (m : gmap Z Z) (t : tty) : pmm := mkPmm m t 0 0 0 0.

Lemma create_loop_in l mx fl :
  create_loop l mx fl = fl \/ exists e, e ∈ l /\ usable e /\ create_loop l mx fl = base e.
Proof.
  revert mx fl. induction l as [|e l IH]; intros mx fl; cbn [create_loop]; [by left|].
  destruct (Z.eqb_spec (type e) LIMINE_MEMMAP_USABLE) as [Hu|].
  - destruct (mx <? len e).
    + right. destruct (IH (len e) (base e)) as [->|(e' & ? & ? & ?)].
      * exists e. split; [left|done].
      * exists e'. split; [by right|done].
    + destruct (IH mx fl) as [?|(e' & ? & ? & ?)]; [by left|].
      right. exists e'. split; [by right|done].
  - destruct (IH mx fl) as [?|(e' & ? & ? & ?)]; [by left|].
    right. exists e'. split; [by right|done].
Qed.

(** [CreatePMM] picks the base of a usable entry at least as long as every
    usable entry (or keeps the old value when there is none). *)
Lemma create_loop_max l mx fl :
  (create_loop l mx fl = fl /\ forall e, e ∈ l -> usable e -> len e <= mx) \/
  (exists e, e ∈ l /\ usable e /\ create_loop l mx fl = base e /\ mx < len e /\
     forall e', e' ∈ l -> usable e' -> len e' <= len e).
Proof.
  revert mx fl. induction l as [|e l IH]; intros mx fl; cbn [create_loop].
  { left. split; [done|]. intros e He. inversion He. }
  destruct (Z.eqb_spec (type e) LIMINE_MEMMAP_USABLE) as [Hu|Hu];
    [destruct (Z.ltb_spec mx (len e))|].
  - right. destruct (IH (len e) (base e)) as [[E Hm]|(e' & ? & ? & ? & ? & Hm)].
    + exists e. split; [left|]. repeat split; try done. intros e' [->|?]%elem_of_cons ?; [lia|auto].
    + exists e'. split; [by right|]. repeat split; try done; [lia|].
      intros e'' [->|?]%elem_of_cons ?; [lia|auto].
  - destruct (IH mx fl) as [[E Hm]|(e' & ? & ? & ? & ? & Hm)].
    + left. split; [done|]. intros e' [->|?]%elem_of_cons ?; [lia|auto].
    + right. exists e'. split; [by right|]. repeat split; try done.
      intros e'' [->|?]%elem_of_cons ?; [lia|auto].
  - destruct (IH mx fl) as [[E Hm]|(e' & ? & ? & ? & ? & Hm)].
    + left. split; [done|]. intros e' [->|?]%elem_of_cons ?; [done|auto].
    + right. exists e'. split; [by right|]. repeat split; try done.
      intros e'' [->|?]%elem_of_cons ?; [done|auto].
Qed.

Lemma CreatePMM_inv l m t s :
  memmap_ok l -> CreatePMM l (boot_state m t) = Ret tt s -> run_inv l (s, []).
Proof.
  intros Hl [= <-]. unfold run_inv. cbn [fst snd]. rewrite app_nil_r.
  assert (Hb : 0 <= create_loop l 0 0 <= 2 ^ 52).
  { destruct (create_loop_in l 0 0) as [->|(e & He & Hu & ->)]; [lia|].
    destruct Hl as [Hok _]. rewrite Forall_forall in Hok.
    destruct (Hok e) as (? & ? & ? & ?); [by apply list_elem_of_filter|]. lia. }
  unfold pmm_ok, boot_state. fields. repeat split; try lia.
  rewrite pool_no_stack by done. reflexivity.
Qed.

(** ** Size of memory *)

Lemma size_loop_spec l acc :
  0 <= acc -> let r := size_loop l acc in
  acc <= r /\
  (forall e, e ∈ l -> type e = LIMINE_MEMMAP_USABLE \/ type e = LIMINE_MEMMAP_BOOTLOADER_RECLAIMABLE ->
     u64 (base e + len e) <= r) /\
  (r = acc \/ exists e, e ∈ l /\ r = u64 (base e + len e)).
Proof.
  revert acc. induction l as [|e l IH]; intros acc Ha; cbn [size_loop]; cbv zeta.
  { split; [lia|]. split; [intros e He; inversion He|by left]. }
  set (E := u64 (base e + len e)). set (acc' := if acc <? E then E else acc).
  assert (Hacc' : acc <= acc' /\ E <= acc' /\ (acc' = acc \/ acc' = E)).
  { unfold acc'. zcase; lia. }
  destruct (_ || _) eqn:Ht.
  - destruct (IH acc' ltac:(lia)) as (H1 & H2 & H3). split; [lia|]. split.
    + intros e' He' Hu. apply elem_of_cons in He' as [->|He']; [|by apply H2]. fold E. lia.
    + destruct H3 as [H3|(e' & ? & ?)].
      * destruct Hacc' as (_ & _ & [?|?]); [left; lia|]. right. exists e. split; [left|lia].
      * right. exists e'. split; [by right|done].
  - destruct (IH acc Ha) as (H1 & H2 & H3). split; [lia|]. split.
    + intros e' He' Hu. apply elem_of_cons in He' as [->|He']; [|by apply H2].
      apply orb_false_iff in Ht as [Ht1 Ht2]. apply Z.eqb_neq in Ht1, Ht2. tauto.
    + destruct H3 as [H3|(e' & ? & ?)]; [by left|]. right. exists e'. split; [by right|done].
Qed.

(** ** Properties *)

(** C1: [AllocatePage] refines "take the first page of the pool", where the
    pool is the free list as it lies in memory (last freed first) followed by
    the pages of the memory map above [LastAddress]: it returns that page and
    leaves the rest of the pool, without touching memory; on an empty pool it
    prints the message and halts. *)
Theorem AllocatePage_refines l s :
  memmap_ok l -> pmm_ok s ->
  match pool l s with
  | a :: p => exists s', AllocatePage l s = Ret a s' /\ pool l s' = p /\ pmm_ok s' /\ mem s' = mem s
  | [] => exists s', AllocatePage l s = Done s' /\
            tty_out (con s') = tty_out (con s) ++ lit "Out of memory"
  end.
Proof.
  intros Hl Hok. destruct (pool l s) as [|a p] eqn:E.
  - by apply AllocatePage_empty.
  - destruct (AllocatePage_pop l s a p Hl Hok E) as (s' & ? & ? & ? & ? & _). eauto 6.
Qed.

Definition map1 : list limine_memmap_entry :=
  [mkEntry 0 4096 1; mkEntry 4096 8192 0; mkEntry 12288 4096 5; mkEntry 16384 16384 0].

Lemma map1_ok : memmap_ok map1.
Proof.
  unfold memmap_ok. change (filter usable map1) with [mkEntry 4096 8192 0; mkEntry 16384 16384 0].
  unfold entry_ok, entry_before. split; repeat constructor; cbn; lia.
Qed.

Lemma AllocatePage_refines_witness :
  match pool map1 (mkPmm ∅ (mkTty [] 0) 16384 0 8192 0) with
  | a :: p => exists s', AllocatePage map1 (mkPmm ∅ (mkTty [] 0) 16384 0 8192 0) = Ret a s' /\
                pool map1 s' = p /\ pmm_ok s' /\ mem s' = ∅
  | [] => exists s', AllocatePage map1 (mkPmm ∅ (mkTty [] 0) 16384 0 8192 0) = Done s' /\
            tty_out (con s') = [] ++ lit "Out of memory"
  end.
Proof.
  apply (AllocatePage_refines map1 (mkPmm ∅ (mkTty [] 0) 16384 0 8192 0)).
  - apply map1_ok.
  - unfold pmm_ok. cbn. lia.
Defined.

(** C2: From boot on, however allocations, frees of owned pages and writes
    outside the free list's storage are interleaved, no page is in two hands:
    the pages the clients own are distinct, none of them is also in the pool,
    and each is an aligned, non-zero page inside a usable entry. *)
Theorem no_double_allocation l m t s0 s owned :
  memmap_ok l -> CreatePMM l (boot_state m t) = Ret tt s0 ->
  rtc (client_step l) (s0, []) (s, owned) ->
  NoDup owned /\ (forall a, a ∈ owned -> a ∉ pool l s) /\
  (forall a, a ∈ owned -> 0 < a /\ a mod 4096 = 0 /\
     exists e, e ∈ l /\ usable e /\ base e <= a /\ a + 4096 <= base e + len e).
Proof.
  intros Hl Hc Hr. destruct (run_inv_reachable l Hl _ _ (CreatePMM_inv l m t s0 Hl Hc) Hr) as (_ & _ & Hp).
  cbn [fst snd] in Hp.
  assert (Hnd : NoDup (pool l s ++ owned)).
  { rewrite Hp. by apply NoDup_filter, pages_NoDup. }
  apply NoDup_app in Hnd as (_ & Hd & Hnd). split; [done|]. split.
  { intros a Ha Hb. exact (Hd a Hb Ha). }
  intros a Ha. assert (Hin : a ∈ filter (fun a => 0 < a) (pages l)).
  { rewrite <- Hp. apply elem_of_app. by right. }
  apply list_elem_of_filter in Hin as [Ha0 Hin].
  destruct (pages_in l a Hl Hin) as (e & ? & ? & ? & ? & ? & _ & _). eauto 10.
Qed.

Lemma no_double_allocation_witness :
  NoDup [16384; 8192] /\
  (forall a, a ∈ [16384; 8192] -> a ∉ pool map1 (mkPmm (st 8 ∅ 16384 4096) (mkTty [] 0) 16384 1 16384 0)) /\
  (forall a, a ∈ [16384; 8192] -> 0 < a /\ a mod 4096 = 0 /\
     exists e, e ∈ map1 /\ usable e /\ base e <= a /\ a + 4096 <= base e + len e).
Proof.
  apply (no_double_allocation map1 ∅ (mkTty [] 0) (mkPmm ∅ (mkTty [] 0) 16384 0 0 0)).
  - apply map1_ok.
  - reflexivity.
  - eapply rtc_l; [apply step_alloc; reflexivity|].
    eapply rtc_l; [apply step_alloc; reflexivity|].
    eapply rtc_l; [apply step_alloc; reflexivity|].
    eapply rtc_l; [eapply (step_free _ _ 4096 _ [16384; 8192] []); reflexivity|].
    apply rtc_refl.
Defined.

(** [AllocateEmptyPage] hands out the first page of the pool with every
    byte of it 0 and all other memory as it was, provided that page does not
    overlap the storage of the free list. *)
Theorem AllocateEmptyPage_zero l s a p :
  memmap_ok l -> pmm_ok s -> pool l s = a :: p -> clear_of_list s a ->
  exists s', AllocateEmptyPage l s = Ret a s' /\ pool l s' = p /\ pmm_ok s' /\
    (forall x, a <= x < a + 4096 -> ld8 (mem s') x = 0) /\
    (forall x, x < a \/ a + 4096 <= x -> ld8 (mem s') x = ld8 (mem s) x).
Proof.
  intros Hl Hok Hp Hc. destruct (AllocateEmptyPage_pop l s a p Hl Hok Hp Hc) as (s' & E & Hp' & Hok' & Hm & _).
  exists s'. rewrite Hm. split; [exact E|]. split; [exact Hp'|]. split; [exact Hok'|]. split.
  - intros x Hx. exact (ld8_memset_in _ _ 0 _ _ Hx).
  - intros x Hx. apply ld8_memset_out; lia.
Qed.

Lemma AllocateEmptyPage_zero_witness :
  exists s', AllocateEmptyPage map1 (mkPmm (st8 ∅ 8200 7) (mkTty [] 0) 16384 0 4096 0) = Ret 8192 s' /\
    pool map1 s' = [16384; 20480; 24576; 28672] /\ pmm_ok s' /\
    (forall x, 8192 <= x < 8192 + 4096 -> ld8 (mem s') x = 0) /\
    (forall x, x < 8192 \/ 8192 + 4096 <= x -> ld8 (mem s') x = ld8 (st8 ∅ 8200 7) x).
Proof.
  apply (AllocateEmptyPage_zero map1 (mkPmm (st8 ∅ 8200 7) (mkTty [] 0) 16384 0 4096 0) 8192 [16384; 20480; 24576; 28672]).
  - apply map1_ok.
  - unfold pmm_ok. cbn. lia.
  - vm_compute. reflexivity.
  - unfold clear_of_list. cbn. lia.
Defined.

(** The storage of the free list is one of the pages the allocator hands
    out: whenever some usable entry holds a page, the page [CreatePMM] chose
    for the list is (unless it is page 0) in the pool, so that a later
    [FreePage] writes into a page some client owns. *)
Theorem free_list_storage_in_pool l m t s0 e :
  memmap_ok l -> e ∈ l -> usable e -> 4096 <= len e ->
  CreatePMM l (boot_state m t) = Ret tt s0 -> FreeList s0 <> 0 ->
  FreeList s0 ∈ pool l s0.
Proof.
  intros Hl He Hu Hlen [= <-]. unfold boot_state. fields. intros Hnz.
  destruct (create_loop_max l 0 0) as [[E Hm]|(e' & He' & Hu' & E & Hpos & Hm)].
  { specialize (Hm e He Hu). lia. }
  rewrite E in Hnz |- *. specialize (Hm e He Hu).
  rewrite pool_no_stack by done. unfold fresh. fields.
  assert (Hok : entry_ok e').
  { destruct Hl as [Hok _]. rewrite Forall_forall in Hok. by apply Hok, list_elem_of_filter. }
  apply list_elem_of_filter. split; [destruct Hok; lia|].
  unfold pages. apply list_elem_of_In, in_flat_map. exists e'. split.
  - by apply list_elem_of_In, list_elem_of_filter.
  - apply list_elem_of_In. apply list_elem_of_fmap. exists 0%nat. split; [lia|].
    apply elem_of_seq. split; [lia|]. zdm.
Qed.

Lemma free_list_storage_in_pool_witness :
  FreeList (mkPmm ∅ (mkTty [] 0) 16384 0 0 0) ∈ pool map1 (mkPmm ∅ (mkTty [] 0) 16384 0 0 0).
Proof.
  apply (free_list_storage_in_pool map1 ∅ (mkTty [] 0) _ (mkEntry 4096 8192 0)).
  - apply map1_ok.
  - apply list_elem_of_In. cbn. auto.
  - reflexivity.
  - cbn. lia.
  - reflexivity.
  - cbn. lia.
Defined.

(** [GetSizeOfMemory] returns the least multiple of 1 MiB that covers
    every usable and every reclaimable entry of the map, and a second call
    returns the same number without changing the state. *)
Theorem GetSizeOfMemory_spec l s :
  SizeOfMemory s = 0 ->
  (forall e, e ∈ l -> 0 <= base e + len e <= 2 ^ 52) ->
  exists r s', GetSizeOfMemory l s = Ret r s' /\ r mod 2 ^ 20 = 0 /\
    (forall e, e ∈ l -> type e = LIMINE_MEMMAP_USABLE \/ type e = LIMINE_MEMMAP_BOOTLOADER_RECLAIMABLE ->
       base e + len e <= r) /\
    (r = 0 \/ exists e, e ∈ l /\ r - 2 ^ 20 < base e + len e) /\
    GetSizeOfMemory l s' = Ret r s'.
Proof.
  intros Hs Hb. destruct (size_loop_spec l 0 ltac:(lia)) as (H1 & H2 & H3). cbv zeta in *.
  set (z := size_loop l 0) in *.
  assert (Hz : z <= 2 ^ 52).
  { destruct H3 as [->|(e & He & ->)]; [lia|]. specialize (Hb e He). rewrite u64_id by lia. lia. }
  set (r := if negb (z mod 1048576 =? 0) then u64 (u64 (z / 1048576 + 1) * 1048576) else z).
  assert (Hr : r mod 2 ^ 20 = 0 /\ z <= r < z + 2 ^ 20).
  { unfold r. destruct (Z.eqb_spec (z mod 1048576) 0) as [E|E]; cbn [negb].
    - change (2 ^ 20) with 1048576. split; [done|lia].
    - rewrite (u64_id (z / 1048576 + 1)) by zdm. rewrite u64_id by zdm.
      change (2 ^ 20) with 1048576. split; [apply Z.mod_mul; lia|zdm]. }
  exists r, (set_SizeOfMemory r s).
  assert (E1 : GetSizeOfMemory l s = Ret r (set_SizeOfMemory r s)).
  { unfold GetSizeOfMemory, bind, gets, modify, ret. by rewrite Hs. }
  split; [done|]. split; [apply Hr|]. split; [|split].
  - intros e He Ht. specialize (H2 e He Ht). specialize (Hb e He). rewrite u64_id in H2 by lia. lia.
  - destruct H3 as [H3|(e & He & H3)].
    + left. unfold r. rewrite H3. reflexivity.
    + right. exists e. split; [done|]. specialize (Hb e He). rewrite u64_id in H3 by lia. lia.
  - unfold GetSizeOfMemory, bind, gets, modify, ret. fields.
    destruct (Z.ltb_spec 0 r); [done|]. replace r with 0 in * by lia.
    assert (z = 0) as Hz0 by lia. fold z. rewrite Hz0. reflexivity.
Qed.

Lemma GetSizeOfMemory_spec_witness :
  exists r s', GetSizeOfMemory map1 (boot_state ∅ (mkTty [] 0)) = Ret r s' /\ r mod 2 ^ 20 = 0 /\
    (forall e, e ∈ map1 -> type e = LIMINE_MEMMAP_USABLE \/ type e = LIMINE_MEMMAP_BOOTLOADER_RECLAIMABLE ->
       base e + len e <= r) /\
    (r = 0 \/ exists e, e ∈ map1 /\ r - 2 ^ 20 < base e + len e) /\
    GetSizeOfMemory map1 s' = Ret r s'.
Proof.
  apply (GetSizeOfMemory_spec map1 (boot_state ∅ (mkTty [] 0))).
  - reflexivity.
  - apply Forall_forall. repeat constructor; cbn; lia.
Defined.

End Pmm.
