(* ===== verification/Ptm.v ===== *)
(** Page tables (kernel/Memory/Paging/Ptm): four-level x86-64 tables built in
    physical memory by [MapMemory], the pages for new tables coming from a
    page source, and the address translation they define. *)

From stdpp Require Import base tactics list gmap numbers option strings.
From Stdlib Require Import ZArith Lia.
From S2P Require Import Prelude Mem Console Pmm.

#[local] Open Scope Z_scope.

(** ** The interface of a source of zeroed pages

    What the page-table code relies on: [ps_alloc] hands out a page that was
    free before, is no longer free, and reads as zeros, and changes nothing
    else in memory.  The kernel's source is [AllocateEmptyPage]. *)
Class PageSource (S : Type) := {
  ps_mem : S -> gmap Z Z;
  ps_set_mem : gmap Z Z -> S -> S;
  ps_alloc : M S Z;
  ps_inv : S -> Prop;
  ps_free : S -> Z -> Prop;
  ps_count : S -> nat;
  ps_mem_set m s : ps_mem (ps_set_mem m s) = m;
  ps_set_set m m' s : ps_set_mem m (ps_set_mem m' s) = ps_set_mem m s;
  ps_set_inv m s : ps_inv s -> ps_inv (ps_set_mem m s);
  ps_set_free m s a : ps_free (ps_set_mem m s) a <-> ps_free s a;
  ps_set_count m s : ps_count (ps_set_mem m s) = ps_count s;
  ps_alloc_ret s a s' :
    ps_inv s -> ps_alloc s = Ret a s' ->
    ps_inv s' /\ ps_free s a /\ ~ ps_free s' a /\ (forall b, ps_free s' b -> ps_free s b) /\
    ps_mem s' = Mem.memset (ps_mem s) a 0 4096 /\ ps_count s = Datatypes.S (ps_count s');
  ps_alloc_live s : ps_inv s -> ps_count s <> O -> exists a s', ps_alloc s = Ret a s';
  ps_free_page s a : ps_inv s -> ps_free s a -> a mod 4096 = 0 /\ 0 < a /\ a + 4096 <= 2 ^ 52
}.

Module Ptm.
Import Prelude Mem.
#[local] Open Scope lofi_scope.

(** ** Page table entries: the bit field [PageTableEntry] of Ptm.h *)

Definition Present (e : Z) : bool := Z.testbit e 0.
Definition set_Present (e : Z) : Z := Z.setbit e 0.
Definition set_Writable (e : Z) : Z := Z.setbit e 1.
Definition set_UserAccessible (e : Z) : Z := Z.setbit e 2.
Definition PhysicalAddress (e : Z) : Z := Z.land (Z.shiftr e 12) (Z.ones 40).
Definition set_PhysicalAddress (v e : Z) : Z :=
  Z.lor (Z.ldiff e (Z.shiftl (Z.ones 40) 12)) (Z.shiftl (Z.land v (Z.ones 40)) 12).

Definition SetupPageTableEntry (e : Z) : Z := set_UserAccessible (set_Writable e).

Definition GetPageTableIndex (VirtualAddress Level : Z) : Z :=
  Z.land (Z.shiftr VirtualAddress (3 + 9 * Level)) 511.

(** The memory the tables live in, with the global [CurrentPageTableEntry]. *)
Record ptm (S : Type) := mkPtm { src : S; CurrentPageTableEntry : Z }.
Arguments mkPtm {S} _ _.
Arguments src {S} _.
Arguments CurrentPageTableEntry {S} _.

Section Ops.
Context {S : Type} `{PageSource S}.

Definition pmem (s : ptm S) : gmap Z Z := ps_mem (src s).
Definition load_entry (table index : Z) : M (ptm S) unit :=
  modify (fun s => mkPtm (src s) (ld 8 (pmem s) (table + index * 8))).
Definition store_entry (table index : Z) : M (ptm S) unit :=
  modify (fun s => mkPtm (ps_set_mem (st 8 (pmem s) (table + index * 8) (CurrentPageTableEntry s)) (src s))
                         (CurrentPageTableEntry s)).
Definition update_entry (f : Z -> Z) : M (ptm S) unit :=
  modify (fun s => mkPtm (src s) (f (CurrentPageTableEntry s))).
Definition AllocateEmptyPage : M (ptm S) Z :=
  zoom src (fun t s => mkPtm t (CurrentPageTableEntry s)) ps_alloc.

(** Returns [*NextLevelPageTable]. *)
Definition GetNextPageLevel (CurrentLevelPageTable NextLevelIndex : Z) : M (ptm S) Z :=
  load_entry CurrentLevelPageTable NextLevelIndex ;;;
  let* e := gets CurrentPageTableEntry in
  if negb (Present e) then
    let* NextLevelPageTable := AllocateEmptyPage in
    update_entry (set_PhysicalAddress (Z.shiftr NextLevelPageTable 12)) ;;;
    update_entry set_Present ;;;
    update_entry SetupPageTableEntry ;;;
    store_entry CurrentLevelPageTable NextLevelIndex ;;;
    ret NextLevelPageTable
  else ret (Z.shiftl (PhysicalAddress e) 12).

(** One turn of the loop of [MapMemory]. *)
Definition MapPage (Pml4 CurrentVirtualPage CurrentPhysicalPage : Z) : M (ptm S) unit :=
  let* t3 := GetNextPageLevel Pml4 (GetPageTableIndex CurrentVirtualPage 4) in
  let* t2 := GetNextPageLevel t3 (GetPageTableIndex CurrentVirtualPage 3) in
  let* t1 := GetNextPageLevel t2 (GetPageTableIndex CurrentVirtualPage 2) in
  load_entry t1 (GetPageTableIndex CurrentVirtualPage 1) ;;;
  update_entry (set_PhysicalAddress (Z.shiftr CurrentPhysicalPage 12)) ;;;
  update_entry set_Present ;;;
  update_entry SetupPageTableEntry ;;;
  store_entry t1 (GetPageTableIndex CurrentVirtualPage 1).

(** [while (CurrentPhysicalPage < PhysicalBasePage + Size)]; [stop] is the
    right-hand side, which does not change. *)
Fixpoint MapMemory_loop (fuel : nat) (Pml4 va pa stop : Z) : M (ptm S) unit :=
  if pa <? stop then
    match fuel with
    | O => fun _ => NoFuel
    | Datatypes.S f =>
      MapPage Pml4 va pa ;;;
      MapMemory_loop f Pml4 (u64 (va + 4096)) (u64 (pa + 4096)) stop
    end
  else ret tt.

(** The loop turns once per started page of [Size] (see
    [MapMemory_maps_range]); the fuel is that number. *)
Definition MapMemory (Pml4 VirtualBasePage PhysicalBasePage Size : Z) : M (ptm S) unit :=
  MapMemory_loop (Z.to_nat ((Size + 4095) / 4096)) Pml4 VirtualBasePage PhysicalBasePage
    (u64 (PhysicalBasePage + Size)).

End Ops.

(** ** The translation the tables define *)

(** The walk of the processor from a table of level [lvl]. *)
Fixpoint walk (lvl : nat) (m : gmap Z Z) (t va : Z) : option Z :=
  match lvl with
  | O => Some (t + va mod 4096)
  | S l =>
    let e := ld 8 m (t + GetPageTableIndex va (Z.of_nat lvl) * 8) in
    if Present e then walk l m (Z.shiftl (PhysicalAddress e) 12) va else None
  end.
Definition translate (m : gmap Z Z) (root va : Z) : option Z := walk 4 m root va.

(** The page number of a virtual address: bits 12 to 47. *)
Definition vpage (va : Z) : Z := (va / 4096) mod 2 ^ 36.

(** *** Entries *)

Lemma index_range va lvl : 0 <= GetPageTableIndex va lvl < 512.
Proof.
  unfold GetPageTableIndex. change 511 with (Z.ones 9). rewrite Z.land_ones by lia.
  apply Z.mod_pos_bound. lia.
Qed.

Lemma index_arith va lvl : 0 <= lvl -> GetPageTableIndex va lvl = va / 2 ^ (3 + 9 * lvl) mod 512.
Proof.
  intros H. unfold GetPageTableIndex. change 511 with (Z.ones 9).
  by rewrite Z.land_ones, Z.shiftr_div_pow2 by lia.
Qed.

(** The four indices of an address determine its page, and conversely. *)
Lemma vpage_indices va va' :
  vpage va = vpage va' <->
  (forall l, 1 <= l <= 4 -> GetPageTableIndex va l = GetPageTableIndex va' l).
Proof.
  unfold vpage. split.
  - intros H l Hl. rewrite !index_arith by lia.
    assert (l = 1 \/ l = 2 \/ l = 3 \/ l = 4) as [-> | [-> | [-> | ->]]] by lia;
      cbn [Z.mul Z.add Z.pow]; simpl (2 ^ _) in *; zdm.
  - intros H.
    pose proof (H 1 ltac:(lia)) as H1. pose proof (H 2 ltac:(lia)) as H2.
    pose proof (H 3 ltac:(lia)) as H3. pose proof (H 4 ltac:(lia)) as H4.
    rewrite !index_arith in H1, H2, H3, H4 by lia.
    simpl (2 ^ _) in *. clear H. zdm.
Qed.

(** The entry written for physical page [p]. *)
Definition make_entry (p e : Z) : Z :=
  SetupPageTableEntry (set_Present (set_PhysicalAddress (Z.shiftr p 12) e)).

Lemma make_entry_present p e : Present (make_entry p e) = true.
Proof.
  unfold Present, make_entry, SetupPageTableEntry, set_UserAccessible, set_Writable, set_Present.
  rewrite !Z.setbit_eqb by lia. done.
Qed.

Lemma make_entry_frame p e :
  0 <= p < 2 ^ 52 -> p mod 4096 = 0 -> Z.shiftl (PhysicalAddress (make_entry p e)) 12 = p.
Proof.
  intros Hp Ha. unfold PhysicalAddress, make_entry, SetupPageTableEntry, set_UserAccessible,
    set_Writable, set_Present, set_PhysicalAddress.
  apply Z.bits_inj'. intros i Hi. rewrite Z.shiftl_spec by done.
  destruct (Z.lt_ge_cases i 12) as [Hlt|Hge].
  - rewrite Z.testbit_neg_r by lia.
    change 4096 with (2 ^ 12) in Ha. rewrite <- Z.land_ones in Ha by lia.
    assert (Hb : Z.testbit (Z.land p (Z.ones 12)) i = false) by (rewrite Ha; apply Z.bits_0).
    rewrite Z.land_spec, Z.ones_spec_low, andb_true_r in Hb by lia. done.
  - rewrite Z.land_spec, Z.shiftr_spec by lia. rewrite !Z.setbit_eqb by lia.
    replace (i - 12 + 12) with i by lia.
    rewrite Z.lor_spec, Z.ldiff_spec, !Z.shiftl_spec, Z.land_spec, Z.shiftr_spec by lia.
    replace (i - 12 + 12) with i by lia.
    destruct (Z.eqb_spec 2 i), (Z.eqb_spec 1 i), (Z.eqb_spec 0 i); try lia. cbn [orb].
    destruct (Z.lt_ge_cases (i - 12) 40).
    + rewrite Z.ones_spec_low by lia. cbn [negb]. by rewrite !andb_false_r, !andb_true_r.
    + rewrite Z.ones_spec_high by lia. rewrite !andb_false_r. symmetry.
      apply testbit_high with 52; lia.
Qed.

Lemma make_entry_range p e : 0 <= e < 2 ^ 64 -> 0 <= make_entry p e < 2 ^ 64.
Proof.
  intros He. unfold make_entry, SetupPageTableEntry, set_UserAccessible, set_Writable,
    set_Present, set_PhysicalAddress, Z.setbit.
  assert (Hnn : 0 <= Z.ldiff e (Z.shiftl (Z.ones 40) 12)) by (apply Z.ldiff_nonneg; lia).
  assert (Hn2 : 0 <= Z.shiftl (Z.land (Z.shiftr p 12) (Z.ones 40)) 12).
  { apply Z.shiftl_nonneg, Z.land_nonneg. right. done. }
  split.
  - rewrite !Z.lor_nonneg. repeat split; try done; apply Z.shiftl_nonneg; lia.
  - apply bits_bound; [|lia|].
    + rewrite !Z.lor_nonneg. repeat split; try done; apply Z.shiftl_nonneg; lia.
    + intros i Hi. rewrite !Z.lor_spec, Z.ldiff_spec, !Z.shiftl_spec, Z.land_spec by lia.
      rewrite (testbit_high e 64) by lia. rewrite (Z.ones_spec_high 40) by lia.
      rewrite andb_false_r. cbn [andb orb].
      rewrite !(testbit_high 1 1) by lia. done.
Qed.

(** ** The tables form a tree

    [T] names the pages that hold tables, each with its level.  Every present
    entry of a table above level 1 points to a table one level below, and no
    two entries point to the same table. *)

Definition ent (m : gmap Z Z) (t i : Z) : Z := ld 8 m (t + i * 8).
Definition frame (e : Z) : Z := Z.shiftl (PhysicalAddress e) 12.
Definition is_page (t : Z) : Prop := t mod 4096 = 0 /\ 0 < t /\ t + 4096 <= 2 ^ 52.

Record tree (m : gmap Z Z) (root : Z) (T : gmap Z nat) : Prop := {
  tr_root : T !! root = Some 4%nat;
  tr_page t l : T !! t = Some l -> is_page t;
  tr_child t l i :
    T !! t = Some (S (S l)) -> 0 <= i < 512 -> Present (ent m t i) = true ->
    T !! frame (ent m t i) = Some (S l);
  tr_inj t t' l l' i i' :
    T !! t = Some (S (S l)) -> T !! t' = Some (S (S l')) -> 0 <= i < 512 -> 0 <= i' < 512 ->
    Present (ent m t i) = true -> Present (ent m t' i') = true ->
    frame (ent m t i) = frame (ent m t' i') -> t = t' /\ i = i'
}.

Lemma walk_S l m t va :
  walk (S l) m t va =
    let e := ent m t (GetPageTableIndex va (Z.of_nat (S l))) in
    if Present e then walk l m (frame e) va else None.
Proof. done. Qed.

Lemma ent_range m t i : 0 <= ent m t i < 2 ^ 64.
Proof. apply (ld_range 8). Qed.

Lemma ent_store_eq m t i v : 0 <= v < 2 ^ 64 -> ent (st 8 m (t + i * 8) v) t i = v.
Proof. intros Hv. unfold ent. rewrite ld_st_eq. by apply Z.mod_small. Qed.

Lemma ent_store_ne m t i t' i' v :
  is_page t -> is_page t' -> 0 <= i < 512 -> 0 <= i' < 512 -> (t, i) <> (t', i') ->
  ent (st 8 m (t + i * 8) v) t' i' = ent m t' i'.
Proof.
  intros (Ht & _ & _) (Ht' & _ & _) Hi Hi' Hne. unfold ent. apply ld_st_ne.
  destruct (decide (t = t')) as [->|]; [|zdm].
  assert (i <> i') by congruence. lia.
Qed.

Lemma ent_memset_zero m n i : 0 <= i < 512 -> ent (memset m n 0 4096) n i = 0.
Proof. intros Hi. unfold ent. apply ld_memset_zero; lia. Qed.

Lemma ent_memset_ne m n t i :
  is_page n -> is_page t -> n <> t -> 0 <= i < 512 -> ent (memset m n 0 4096) t i = ent m t i.
Proof. intros (? & _ & _) (? & _ & _) Hne Hi. unfold ent. apply ld_memset_out; [lia|zdm]. Qed.

Lemma ent_empty t i : ent ∅ t i = 0.
Proof. apply ld_zero. intros y _. reflexivity. Qed.

#[local] Opaque memset st ld ent make_entry.

Section Link.
(** A fresh zeroed page [n] is linked into slot [i] of the table [t]. *)
Context (m : gmap Z Z) (root : Z) (T : gmap Z nat) (HT : tree m root T).
Context (t i n : Z) (l : nat) (e : Z).
Context (Ht : T !! t = Some (S (S l))) (Hi : 0 <= i < 512) (Hnp : Present (ent m t i) = false).
Context (Hn : is_page n) (Hfresh : T !! n = None) (He : 0 <= e < 2 ^ 64).

Context (m' : gmap Z Z) (Hm' : m' = st 8 (memset m n 0 4096) (t + i * 8) (make_entry n e)).

Lemma link_slot : ent m' t i = make_entry n e.
Proof. rewrite Hm'. apply ent_store_eq. by apply make_entry_range. Qed.

Lemma link_frame : frame (make_entry n e) = n.
Proof. destruct Hn as (? & ? & ?). apply make_entry_frame; [lia|done]. Qed.

Lemma link_other t' l' i' :
  T !! t' = Some l' -> 0 <= i' < 512 -> (t, i) <> (t', i') -> ent m' t' i' = ent m t' i'.
Proof.
  intros Ht' Hi' Hne. rewrite Hm'. clear Hm'.
  pose proof (tr_page _ _ _ HT _ _ Ht). pose proof (tr_page _ _ _ HT _ _ Ht').
  rewrite ent_store_ne by assumption. apply ent_memset_ne; try assumption. congruence.
Qed.

Lemma link_new i' : 0 <= i' < 512 -> ent m' n i' = 0.
Proof.
  intros Hi'. rewrite Hm'. clear Hm'. pose proof (tr_page _ _ _ HT _ _ Ht).
  rewrite ent_store_ne; try assumption; [by apply ent_memset_zero|congruence].
Qed.

Lemma link_tree : tree m' root (<[n := S l]> T).
Proof using Hm' HT Ht Hi Hnp Hn Hfresh He.
  pose proof link_slot as Hslot. pose proof link_other as Hother. pose proof link_new as Hnew.
  pose proof link_frame as Hframe. clear Hm'. split.
  - rewrite lookup_insert_ne; [apply HT|]. intros ->. rewrite (tr_root _ _ _ HT) in Hfresh. done.
  - intros t' l' Hl'. destruct (decide (n = t')) as [<-|]; [done|].
    rewrite lookup_insert_ne in Hl' by done. eauto using tr_page.
  - intros t' l' i' Hl' Hi' Hp. destruct (decide (n = t')) as [<-|Hnt].
    { by rewrite Hnew in Hp. }
    rewrite lookup_insert_ne in Hl' by done.
    destruct (decide ((t, i) = (t', i'))) as [E|E].
    + injection E as <- <-. rewrite Hslot, Hframe.
      rewrite Ht in Hl'. injection Hl' as <-. apply lookup_insert_eq.
    + rewrite (Hother _ _ _ Hl' Hi' E) in Hp |- *.
      pose proof (tr_child _ _ _ HT _ _ _ Hl' Hi' Hp) as Hc.
      rewrite lookup_insert_ne; [done|]. congruence.
  - intros t1 t2 l1 l2 i1 i2 H1 H2 Hi1 Hi2 Hp1 Hp2 Hf.
    destruct (decide (n = t1)) as [<-|N1]; [rewrite (Hnew _ Hi1) in Hp1; discriminate Hp1|].
    destruct (decide (n = t2)) as [<-|N2]; [rewrite (Hnew _ Hi2) in Hp2; discriminate Hp2|].
    rewrite lookup_insert_ne in H1, H2 by done.
    destruct (decide ((t, i) = (t1, i1))) as [E1|E1], (decide ((t, i) = (t2, i2))) as [E2|E2].
    + by simplify_eq.
    + exfalso. injection E1 as <- <-. rewrite Hslot, Hframe in Hf.
      rewrite (Hother _ _ _ H2 Hi2 E2) in Hp2, Hf.
      pose proof (tr_child _ _ _ HT _ _ _ H2 Hi2 Hp2). congruence.
    + exfalso. injection E2 as <- <-. rewrite Hslot, Hframe in Hf.
      rewrite (Hother _ _ _ H1 Hi1 E1) in Hp1, Hf.
      pose proof (tr_child _ _ _ HT _ _ _ H1 Hi1 Hp1). congruence.
    + rewrite (Hother _ _ _ H1 Hi1 E1) in Hp1, Hf.
      rewrite (Hother _ _ _ H2 Hi2 E2) in Hp2, Hf.
      eapply (tr_inj _ _ _ HT); eauto.
Qed.

(** Linking an empty table changes no translation. *)
Lemma link_walk lvl t' va : T !! t' = Some lvl -> walk lvl m' t' va = walk lvl m t' va.
Proof.
  pose proof link_slot as Hslot. pose proof link_other as Hother. pose proof link_new as Hnew.
  pose proof link_frame as Hframe. clear Hm'. revert t'. induction lvl as [|lvl IH]; intros t' Ht'; [done|].
  rewrite !walk_S. cbv zeta. set (j := GetPageTableIndex va _).
  assert (Hj : 0 <= j < 512) by apply index_range.
  destruct (decide ((t, i) = (t', j))) as [E|E].
  - injection E as <- <-. rewrite Hslot, make_entry_present, Hnp, Hframe.
    rewrite Ht in Ht'. injection Ht' as <-. rewrite walk_S. cbv zeta.
    rewrite Hnew by apply index_range. done.
  - rewrite (Hother _ _ _ Ht' Hj E). destruct (Present (ent m t' j)) eqn:Hp; [|done].
    destruct lvl as [|lvl]; [done|]. apply IH. by apply (tr_child _ _ _ HT _ _ _ Ht').
Qed.

End Link.


(** ** Writing a last-level entry *)

(** The last-level slot the walk of [va] ends in. *)
Fixpoint slot (lvl : nat) (m : gmap Z Z) (t va : Z) : option (Z * Z) :=
  match lvl with
  | O => None
  | S l =>
    match l with
    | O => Some (t, GetPageTableIndex va 1)
    | S _ =>
      let e := ent m t (GetPageTableIndex va (Z.of_nat lvl)) in
      if Present e then slot l m (frame e) va else None
    end
  end.

Lemma slot_SS l m t va :
  slot (S (S l)) m t va =
    let e := ent m t (GetPageTableIndex va (Z.of_nat (S (S l)))) in
    if Present e then slot (S l) m (frame e) va else None.
Proof. done. Qed.

(** Two walks that end in the same slot started in the same table and follow
    the same indices. *)
Lemma slot_inj m root T (HT : tree m root T) lvl t t' va va' x :
  T !! t = Some (S lvl) -> T !! t' = Some (S lvl) ->
  slot (S lvl) m t va = Some x -> slot (S lvl) m t' va' = Some x ->
  t = t' /\ forall k, (1 <= k <= S lvl)%nat ->
    GetPageTableIndex va (Z.of_nat k) = GetPageTableIndex va' (Z.of_nat k).
Proof.
  revert t t'. induction lvl as [|lvl IH]; intros t t' Ht Ht' Hs Hs'.
  - simpl in Hs, Hs'. rewrite <- Hs' in Hs. injection Hs as -> E. split; [done|].
    intros k Hk. by replace k with 1%nat by lia.
  - rewrite slot_SS in Hs, Hs'. cbv zeta in Hs, Hs'.
    destruct (Present (ent m t _)) eqn:Hp; [|done].
    destruct (Present (ent m t' _)) eqn:Hp'; [|done].
    pose proof (tr_child _ _ _ HT _ _ _ Ht (index_range _ _) Hp) as Hc.
    pose proof (tr_child _ _ _ HT _ _ _ Ht' (index_range _ _) Hp') as Hc'.
    destruct (IH _ _ Hc Hc' Hs Hs') as [Hf Hk].
    destruct (tr_inj _ _ _ HT _ _ _ _ _ _ Ht Ht' (index_range _ _) (index_range _ _) Hp Hp' Hf) as [-> Hi].
    split; [done|]. intros k Hkr. destruct (decide (k = S (S lvl))) as [->|]; [done|].
    apply Hk. lia.
Qed.

Lemma slot_ext m lvl t va va' :
  (forall k, (1 <= k <= lvl)%nat -> GetPageTableIndex va (Z.of_nat k) = GetPageTableIndex va' (Z.of_nat k)) ->
  slot lvl m t va = slot lvl m t va'.
Proof.
  revert t. induction lvl as [|[|lvl] IH]; intros t Hk; [done| |].
  - simpl. specialize (Hk 1%nat ltac:(lia)). change (Z.of_nat 1) with 1 in Hk. by rewrite Hk.
  - rewrite !slot_SS. cbv zeta. rewrite <- (Hk (S (S lvl))) by lia.
    destruct (Present _); [|done]. apply IH. intros k Hkr. apply Hk. lia.
Qed.

(** The walk of [va] ends in the slot [x]: then exactly the addresses of the
    page of [va] do. *)
Lemma slot_vpage m root T (HT : tree m root T) va va' x :
  slot 4 m root va = Some x -> slot 4 m root va' = Some x <-> vpage va' = vpage va.
Proof.
  intros Hs. rewrite vpage_indices. split.
  - intros Hs'. destruct (slot_inj m root T HT 3 root root va' va x) as [_ Hk]; try done; try apply HT.
    intros l Hl. specialize (Hk (Z.to_nat l)). rewrite Z2Nat.id in Hk by lia. apply Hk. lia.
  - intros Hk. rewrite <- Hs. apply slot_ext. intros k Hkr. apply Hk. lia.
Qed.

Section Leaf.
Context (m : gmap Z Z) (root : Z) (T : gmap Z nat) (HT : tree m root T).
Context (t i v : Z) (Ht : T !! t = Some 1%nat) (Hi : 0 <= i < 512) (Hv : 0 <= v < 2 ^ 64).
Context (m' : gmap Z Z) (Hm' : m' = st 8 m (t + i * 8) v).

Lemma leaf_slot : ent m' t i = v.
Proof. rewrite Hm'. by apply ent_store_eq. Qed.

Lemma leaf_other t' l' i' :
  T !! t' = Some l' -> 0 <= i' < 512 -> (t, i) <> (t', i') -> ent m' t' i' = ent m t' i'.
Proof.
  intros Ht' Hi' Hne. rewrite Hm'. clear Hm'.
  pose proof (tr_page _ _ _ HT _ _ Ht). pose proof (tr_page _ _ _ HT _ _ Ht').
  by rewrite ent_store_ne.
Qed.

Lemma leaf_upper t' l' i' :
  T !! t' = Some (S (S l')) -> 0 <= i' < 512 -> ent m' t' i' = ent m t' i'.
Proof. intros Ht' Hi'. apply (leaf_other _ _ _ Ht' Hi'). congruence. Qed.

Lemma leaf_tree : tree m' root T.
Proof.
  pose proof leaf_upper as Hup. clear Hm'. split; try apply HT.
  - intros t' l' i' Hl' Hi' Hp. rewrite (Hup _ _ _ Hl' Hi') in Hp |- *. by apply (tr_child _ _ _ HT).
  - intros t1 t2 l1 l2 i1 i2 H1 H2 Hi1 Hi2 Hp1 Hp2 Hf.
    rewrite (Hup _ _ _ H1 Hi1) in Hp1, Hf. rewrite (Hup _ _ _ H2 Hi2) in Hp2, Hf.
    exact (tr_inj _ _ _ HT _ _ _ _ _ _ H1 H2 Hi1 Hi2 Hp1 Hp2 Hf).
Qed.

Lemma leaf_walk lvl t' va :
  T !! t' = Some (S lvl) ->
  walk (S lvl) m' t' va =
    if decide (slot (S lvl) m t' va = Some (t, i)) then
      if Present v then Some (frame v + va mod 4096) else None
    else walk (S lvl) m t' va.
Proof.
  pose proof leaf_slot as Hslot. pose proof leaf_other as Hother. pose proof leaf_upper as Hup.
  clear Hm'. revert t'. induction lvl as [|lvl IH]; intros t' Ht'.
  - rewrite !walk_S. cbv zeta. change (Z.of_nat 1) with 1. simpl (slot 1 m t' va).
    destruct (decide (Some (t', GetPageTableIndex va 1) = Some (t, i))) as [E|E].
    + injection E as -> ->. rewrite Hslot. done.
    + rewrite (Hother _ _ _ Ht' (index_range _ _)); [done|]. congruence.
  - rewrite walk_S, slot_SS. cbv zeta. rewrite (walk_S (S lvl)). cbv zeta.
    rewrite (Hup _ _ _ Ht' (index_range _ _)).
    destruct (Present (ent m t' _)) eqn:Hp; [|done].
    apply IH. by apply (tr_child _ _ _ HT _ _ _ Ht' (index_range _ _)).
Qed.

(** The way to the last level is not affected. *)
Lemma leaf_slots lvl t' va :
  T !! t' = Some (S lvl) -> slot (S lvl) m' t' va = slot (S lvl) m t' va.
Proof.
  pose proof leaf_upper as Hup. clear Hm'. revert t'. induction lvl as [|lvl IH]; intros t' Ht'; [done|].
  rewrite !slot_SS. cbv zeta. rewrite (Hup _ _ _ Ht' (index_range _ _)).
  destruct (Present (ent m t' _)) eqn:Hp; [|done].
  apply IH. by apply (tr_child _ _ _ HT _ _ _ Ht' (index_range _ _)).
Qed.

End Leaf.

(** ** The operations keep the tree *)

Section Spec.
Context {S : Type} `{PageSource S}.

Definition pt_inv (s : ptm S) (root : Z) (T : gmap Z nat) : Prop :=
  ps_inv (src s) /\ tree (pmem s) root T /\ (forall t l, T !! t = Some l -> ~ ps_free (src s) t).

(** How a step of the paging code may change the state: tables are added
    from the free pages, memory changes in table pages only, and at most
    [n] pages are used. *)
Record extends (n : Z) (s s' : ptm S) (T T' : gmap Z nat) : Prop := {
  ex_sub : T ⊆ T';
  ex_new t l : T' !! t = Some l -> T !! t = Some l \/ (T !! t = None /\ ps_free (src s) t);
  ex_mem x : (forall t l, T' !! t = Some l -> x < t \/ t + 4096 <= x) ->
             ld8 (pmem s') x = ld8 (pmem s) x;
  ex_free a : ps_free (src s') a -> ps_free (src s) a;
  ex_count : Z.of_nat (ps_count (src s)) <= n + Z.of_nat (ps_count (src s'))
}.

Lemma extends_refl s T : extends 0 s s T T.
Proof. split; auto; lia. Qed.

Lemma extends_weaken n n' s s' T T' : n <= n' -> extends n s s' T T' -> extends n' s s' T T'.
Proof. intros Hn [? ? ? ? ?]. split; auto; lia. Qed.

Lemma extends_trans n1 n2 s1 s2 s3 T1 T2 T3 :
  extends n1 s1 s2 T1 T2 -> extends n2 s2 s3 T2 T3 -> extends (n1 + n2) s1 s3 T1 T3.
Proof.
  intros E1 E2. split.
  - etrans; [apply E1|apply E2].
  - intros t l Ht. destruct (ex_new _ _ _ _ _ E2 t l Ht) as [Ht2|[Hn Hf]].
    + by apply (ex_new _ _ _ _ _ E1).
    + right. split; [|by apply (ex_free _ _ _ _ _ E1)].
      destruct (T1 !! t) eqn:E; [|done].
      apply (lookup_weaken _ T2) in E; [congruence|apply E1].
  - intros x Hx. rewrite (ex_mem _ _ _ _ _ E2 x Hx). apply (ex_mem _ _ _ _ _ E1).
    intros t l Ht. apply (Hx t l). eapply lookup_weaken; [exact Ht|apply E2].
  - intros a Ha. by apply (ex_free _ _ _ _ _ E1), (ex_free _ _ _ _ _ E2).
  - pose proof (ex_count _ _ _ _ _ E1). pose proof (ex_count _ _ _ _ _ E2). lia.
Qed.

(** Present entries of known tables stay as they are. *)
Definition keeps (s s' : ptm S) (T : gmap Z nat) : Prop :=
  forall t l i, T !! t = Some l -> 0 <= i < 512 -> Present (ent (pmem s) t i) = true ->
    ent (pmem s') t i = ent (pmem s) t i.
Definition same_walks (s s' : ptm S) (T : gmap Z nat) : Prop :=
  forall lvl t va, T !! t = Some lvl -> walk lvl (pmem s') t va = walk lvl (pmem s) t va.

Lemma ld8_in_page_ne m a n x :
  x < a \/ a + n <= x -> 0 <= n -> ld8 (memset m a 0 n) x = ld8 m x.
Proof. intros. apply ld8_memset_out; lia. Qed.

(** The allocating branch of [GetNextPageLevel]. *)
Lemma GetNextPageLevel_alloc s root T t l i :
  pt_inv s root T -> T !! t = Some (Datatypes.S (Datatypes.S l)) -> 0 <= i < 512 ->
  Present (ent (pmem s) t i) = false -> ps_count (src s) <> O ->
  exists n s', GetNextPageLevel t i s = Ret n s' /\
    pt_inv s' root (<[n := Datatypes.S l]> T) /\
    extends 1 s s' T (<[n := Datatypes.S l]> T) /\
    Present (ent (pmem s') t i) = true /\ frame (ent (pmem s') t i) = n /\
    keeps s s' T /\ same_walks s s' T.
Proof.
  intros (Hsrc & HT & Hused) Ht Hi Hnp Hc.
  destruct (ps_alloc_live _ Hsrc Hc) as (n & s1 & Ha).
  destruct (ps_alloc_ret _ _ _ Hsrc Ha) as (Hinv1 & Hf & Hnf & Hmono & Hmem & Hcnt).
  pose proof (ps_free_page _ _ Hsrc Hf) as Hpage. change (is_page n) in Hpage.
  assert (Hfresh : T !! n = None).
  { destruct (T !! n) eqn:E; [|reflexivity]. exfalso. exact (Hused _ _ E Hf). }
  pose proof (ent_range (pmem s) t i) as He. remember (ent (pmem s) t i) as e eqn:Ee.
  remember (st 8 (memset (pmem s) n 0 4096) (t + i * 8) (make_entry n e)) as m' eqn:Em'.
  exists n, (mkPtm (ps_set_mem m' s1) (make_entry n e)).
  assert (Epm : pmem (mkPtm (ps_set_mem m' s1) (make_entry n e)) = m') by apply ps_mem_set.
  pose proof (tr_page _ _ _ HT _ _ Ht) as Htp.
  split; [|split; [|split; [|split; [|split; [|split]]]]].
  - unfold GetNextPageLevel, load_entry, update_entry, store_entry, AllocateEmptyPage, zoom,
      bind, gets, modify, ret. cbn [src CurrentPageTableEntry].
    change (ld 8 (pmem s) (t + i * 8)) with (ent (pmem s) t i). rewrite <- Ee, Hnp. cbn [negb].
    cbn [src CurrentPageTableEntry]. rewrite Ha. cbn [src CurrentPageTableEntry]. rewrite Em'. unfold pmem. cbn [src].
    rewrite Hmem. reflexivity.
  - split; [apply ps_set_inv; assumption|]. rewrite Epm. split.
    + eapply (link_tree _ _ _ HT t i n l e); rewrite <- ?Ee; assumption.
    + intros t' l' Ht'. cbn [src]. rewrite ps_set_free.
      destruct (decide (n = t')) as [<-|Hne]; [exact Hnf|].
      rewrite lookup_insert_ne in Ht' by exact Hne. intros Hfr. exact (Hused _ _ Ht' (Hmono _ Hfr)).
  - split.
    + apply insert_subseteq; assumption.
    + intros t' l' Ht'. destruct (decide (n = t')) as [<-|Hne]; [right; split; assumption|].
      rewrite lookup_insert_ne in Ht' by exact Hne. left; assumption.
    + intros x Hx. rewrite Epm, Em'.
      pose proof (Hx t (Datatypes.S (Datatypes.S l))) as Hxt.
      rewrite lookup_insert_ne in Hxt by congruence. specialize (Hxt Ht).
      pose proof (Hx n _ (lookup_insert_eq _ _ _)) as Hxn.
      rewrite ld8_st_out by lia. apply ld8_in_page_ne; lia.
    + intros a. cbn [src]. rewrite ps_set_free. apply Hmono.
    + cbn [src]. rewrite ps_set_count, Hcnt. lia.
  - rewrite Epm, Em'. rewrite ent_store_eq by (apply make_entry_range; assumption).
    apply make_entry_present.
  - rewrite Epm, Em'. rewrite ent_store_eq by (apply make_entry_range; assumption).
    apply link_frame; assumption.
  - intros t' l' i' Ht' Hi' Hp. rewrite Epm.
    eapply (link_other _ _ _ HT t i n _ e); try eassumption. intros [= <- <-]. congruence.
  - intros lvl t' va Ht'. rewrite Epm. eapply (link_walk _ _ _ HT t i n _ e); rewrite <- ?Ee; eassumption.
Qed.

(** Both branches: a page is used exactly when the entry is not present, and
    a present entry is only read. *)
Definition lack (m : gmap Z Z) (t i : Z) : Z := if Present (ent m t i) then 0 else 1.

Lemma lack_range m t i : 0 <= lack m t i <= 1.
Proof. unfold lack. destruct (Present _); lia. Qed.

Lemma GetNextPageLevel_spec s root T t l i :
  pt_inv s root T -> T !! t = Some (Datatypes.S (Datatypes.S l)) -> 0 <= i < 512 ->
  lack (pmem s) t i <= Z.of_nat (ps_count (src s)) ->
  exists n s' T', GetNextPageLevel t i s = Ret n s' /\
    pt_inv s' root T' /\ extends (lack (pmem s) t i) s s' T T' /\ T' !! n = Some (Datatypes.S l) /\
    Present (ent (pmem s') t i) = true /\ frame (ent (pmem s') t i) = n /\
    keeps s s' T /\ same_walks s s' T /\ (lack (pmem s) t i = 0 -> pmem s' = pmem s).
Proof.
  intros Hinv Ht Hi Hc. unfold lack in *. destruct (Present (ent (pmem s) t i)) eqn:Hp.
  - exists (frame (ent (pmem s) t i)), (mkPtm (src s) (ent (pmem s) t i)), T.
    assert (Epm : pmem (mkPtm (src s) (ent (pmem s) t i)) = pmem s) by done.
    split; [|split; [|split; [|split; [|split; [|split; [|split; [|split]]]]]]]; try done.
    + unfold GetNextPageLevel, load_entry, bind, gets, modify, ret. cbn [src CurrentPageTableEntry].
      change (ld 8 (pmem s) (t + i * 8)) with (ent (pmem s) t i). by rewrite Hp.
    + destruct (extends_refl s T) as [? ? ? ? ?]. split; auto.
    + destruct Hinv as (_ & HT & _). by apply (tr_child _ _ _ HT).
  - destruct (GetNextPageLevel_alloc s root T t l i Hinv Ht Hi Hp ltac:(lia))
      as (n & s' & ? & ? & ? & ? & ? & ? & ?).
    exists n, s', (<[n := Datatypes.S l]> T). split; [done|]. split; [done|]. split; [done|].
    split; [apply lookup_insert_eq|]. repeat (split; [done|]). done.
Qed.

(** The tables missing on the way to the last level of [va]. *)
Definition missing (m : gmap Z Z) (root va : Z) : Z :=
  let e4 := ent m root (GetPageTableIndex va 4) in
  if negb (Present e4) then 3 else
  let e3 := ent m (frame e4) (GetPageTableIndex va 3) in
  if negb (Present e3) then 2 else
  let e2 := ent m (frame e3) (GetPageTableIndex va 2) in
  if negb (Present e2) then 1 else 0.

Lemma missing_range m root va : 0 <= missing m root va <= 3.
Proof. unfold missing. repeat destruct (Present _); cbn [negb]; lia. Qed.

Ltac present_case := match goal with |- context [Present ?x] => destruct (Present x) end.

(** The three upper levels of [MapPage]: afterwards the walk of [va] ends in
    slot [GetPageTableIndex va 1] of the table returned. *)
Lemma three_levels s root T va :
  pt_inv s root T -> missing (pmem s) root va <= Z.of_nat (ps_count (src s)) ->
  exists t1 s' T',
    (let* t3 := GetNextPageLevel root (GetPageTableIndex va 4) in
     let* t2 := GetNextPageLevel t3 (GetPageTableIndex va 3) in
     GetNextPageLevel t2 (GetPageTableIndex va 2)) s = Ret t1 s' /\
    pt_inv s' root T' /\ extends (missing (pmem s) root va) s s' T T' /\ T' !! t1 = Some 1%nat /\
    slot 4 (pmem s') root va = Some (t1, GetPageTableIndex va 1) /\
    (forall va', translate (pmem s') root va' = translate (pmem s) root va').
Proof.
  intros Hinv Hc.
  pose proof (proj1 (proj2 Hinv)) as HT. pose proof (tr_root _ _ _ HT) as Hroot.
  set (i4 := GetPageTableIndex va 4) in *. set (i3 := GetPageTableIndex va 3) in *.
  set (i2 := GetPageTableIndex va 2) in *.
  assert (Hi4 : 0 <= i4 < 512) by apply index_range. assert (Hi3 : 0 <= i3 < 512) by apply index_range.
  assert (Hi2 : 0 <= i2 < 512) by apply index_range.
  pose proof (missing_range (pmem s) root va) as Hmr. pose proof (lack_range (pmem s) root i4) as Hl4.
  assert (Hm4 : lack (pmem s) root i4 <= missing (pmem s) root va).
  { clear Hc Hmr Hl4. unfold missing, lack. fold i4.
    destruct (Present (ent (pmem s) root i4)); cbn [negb]; [|lia].
    repeat present_case; cbn [negb]; lia. }
  destruct (GetNextPageLevel_spec s root T root 2 i4 Hinv Hroot Hi4 ltac:(lia))
    as (t3 & s1 & T1 & E1 & Hinv1 & Ex1 & Ht3 & Hp1 & Hf1 & Hk1 & Hw1 & Hsame1).
  pose proof (ex_count _ _ _ _ _ Ex1). pose proof (lack_range (pmem s1) t3 i3) as Hl3.
  assert (Hm3 : lack (pmem s) root i4 + lack (pmem s1) t3 i3 <= missing (pmem s) root va).
  { clear Hc Hmr Hm4. unfold missing. fold i4 i3. unfold lack at 1 in Hsame1. unfold lack at 1.
    destruct (Present (ent (pmem s) root i4)) eqn:P4; cbn [negb]; [|lia]. clear Hl3.
    rewrite <- Hf1, (Hsame1 eq_refl). unfold lack.
    destruct (Present (ent (pmem s) (frame (ent (pmem s) root i4)) i3)); cbn [negb]; [|lia].
    present_case; cbn [negb]; lia. }
  destruct (GetNextPageLevel_spec s1 root T1 t3 1 i3 Hinv1 Ht3 Hi3 ltac:(lia))
    as (t2 & s2 & T2 & E2 & Hinv2 & Ex2 & Ht2 & Hp2 & Hf2 & Hk2 & Hw2 & Hsame2).
  pose proof (ex_count _ _ _ _ _ Ex2). pose proof (lack_range (pmem s2) t2 i2) as Hl2.
  assert (Hm2 : lack (pmem s) root i4 + lack (pmem s1) t3 i3 + lack (pmem s2) t2 i2 <= missing (pmem s) root va).
  { clear Hc Hmr Hm4 Hm3. unfold missing. fold i4 i3 i2. unfold lack at 1 in Hsame1. unfold lack at 1.
    destruct (Present (ent (pmem s) root i4)) eqn:P4; cbn [negb]; [|lia].
    rewrite (Hsame1 eq_refl) in *. rewrite <- Hf1 in *. unfold lack at 1 in Hsame2. unfold lack at 1.
    destruct (Present (ent (pmem s) (frame (ent (pmem s) root i4)) i3)) eqn:P3; cbn [negb]; [|lia].
    clear Hl2. rewrite (Hsame2 eq_refl) in *. rewrite <- Hf2 in *. unfold lack.
    present_case; cbn [negb]; lia. }
  destruct (GetNextPageLevel_spec s2 root T2 t2 0 i2 Hinv2 Ht2 Hi2 ltac:(lia))
    as (t1 & s3 & T3 & E3 & Hinv3 & Ex3 & Ht1 & Hp3 & Hf3 & Hk3 & Hw3 & _).
  pose proof (lookup_weaken _ _ _ _ Hroot (ex_sub _ _ _ _ _ Ex1)) as Hroot1.
  pose proof (lookup_weaken _ _ _ _ Hroot1 (ex_sub _ _ _ _ _ Ex2)) as Hroot2.
  pose proof (lookup_weaken _ _ _ _ Ht3 (ex_sub _ _ _ _ _ Ex2)) as Ht3'.
  exists t1, s3, T3. split; [|split; [|split; [|split; [|split]]]].
  - rewrite (bind_ret _ _ _ _ _ E1). rewrite (bind_ret _ _ _ _ _ E2). exact E3.
  - exact Hinv3.
  - eapply extends_weaken; [|exact (extends_trans _ _ _ _ _ _ _ _ Ex1 (extends_trans _ _ _ _ _ _ _ _ Ex2 Ex3))].
    lia.
  - exact Ht1.
  - assert (A4 : ent (pmem s3) root i4 = ent (pmem s1) root i4).
    { pose proof (Hk2 _ _ _ Hroot1 Hi4 Hp1) as A. rewrite <- A in Hp1 |- *. exact (Hk3 _ _ _ Hroot2 Hi4 Hp1). }
    assert (A3 : ent (pmem s3) t3 i3 = ent (pmem s2) t3 i3) by exact (Hk3 _ _ _ Ht3' Hi3 Hp2).
    rewrite slot_SS. cbv zeta. change (Z.of_nat 4) with 4. fold i4. rewrite A4, Hp1, Hf1.
    rewrite slot_SS. cbv zeta. change (Z.of_nat 3) with 3. fold i3. rewrite A3, Hp2, Hf2.
    rewrite slot_SS. cbv zeta. change (Z.of_nat 2) with 2. fold i2. rewrite Hp3, Hf3. reflexivity.
  - intros va'. unfold translate.
    rewrite (Hw3 4%nat root va' Hroot2), (Hw2 4%nat root va' Hroot1). exact (Hw1 4%nat root va' Hroot).
Qed.

Lemma slot_missing m root va x : slot 4 m root va = Some x -> missing m root va = 0.
Proof.
  rewrite slot_SS. cbv zeta. unfold missing. change (Z.of_nat 4) with 4. destruct (Present _); [|done].
  rewrite slot_SS. cbv zeta. change (Z.of_nat 3) with 3. destruct (Present _); [|done].
  rewrite slot_SS. cbv zeta. change (Z.of_nat 2) with 2. destruct (Present _); done.
Qed.

Lemma MapPage_spec s root T va pa :
  pt_inv s root T -> missing (pmem s) root va <= Z.of_nat (ps_count (src s)) ->
  0 <= pa -> pa + 4096 <= 2 ^ 52 -> pa mod 4096 = 0 ->
  exists s' T', MapPage root va pa s = Ret tt s' /\ pt_inv s' root T' /\
    extends (missing (pmem s) root va) s s' T T' /\ missing (pmem s') root va = 0 /\
    forall va', translate (pmem s') root va' =
      if decide (vpage va' = vpage va) then Some (pa + va' mod 4096)
      else translate (pmem s) root va'.
Proof.
  intros Hinv Hc H1 H2 H3.
  destruct (three_levels s root T va Hinv Hc) as (t1 & s3 & T3 & E & Hinv3 & Ex3 & Ht1 & Hslot & Htr).
  destruct Hinv3 as (Hsrc3 & HT3 & Hused3).
  set (i := GetPageTableIndex va 1) in *.
  assert (Hi : 0 <= i < 512) by apply index_range.
  pose proof (make_entry_range pa _ (ent_range (pmem s3) t1 i)) as Hv.
  pose proof (make_entry_frame pa (ent (pmem s3) t1 i) ltac:(lia) H3) as Hfr.
  pose proof (make_entry_present pa (ent (pmem s3) t1 i)) as Hpr.
  remember (make_entry pa (ent (pmem s3) t1 i)) as v eqn:Ev.
  remember (st 8 (pmem s3) (t1 + i * 8) v) as m' eqn:Em'.
  exists (mkPtm (ps_set_mem m' (src s3)) v), T3.
  assert (Epm : pmem (mkPtm (ps_set_mem m' (src s3)) v) = m') by apply ps_mem_set.
  split; [|split; [|split; [|split]]].
  - unfold MapPage. apply bind_ret_inv in E as (t3 & sa & Ea & E).
    apply bind_ret_inv in E as (t2 & sb & Eb & Ec).
    rewrite (bind_ret _ _ _ _ _ Ea). rewrite (bind_ret _ _ _ _ _ Eb). rewrite (bind_ret _ _ _ _ _ Ec).
    fold i. rewrite Em', Ev. reflexivity.
  - split; [by apply ps_set_inv|]. rewrite Epm. split.
    + eapply (leaf_tree _ _ _ HT3 t1 i v); eassumption.
    + intros t l Ht. cbn [src]. rewrite ps_set_free. eauto.
  - eapply extends_weaken; [|apply (extends_trans _ 0 s s3 _ T T3 T3 Ex3)]; [lia|]. split.
    + reflexivity.
    + auto.
    + intros x Hx'. rewrite Epm, Em'. specialize (Hx' t1 _ Ht1). apply ld8_st_out. lia.
    + intros a. cbn [src]. by rewrite ps_set_free.
    + cbn [src]. rewrite ps_set_count. lia.
  - rewrite Epm. apply (slot_missing m' root va (t1, i)). rewrite <- Hslot.
    exact (leaf_slots _ _ _ HT3 t1 i v Ht1 Hi m' Em' 3 root va (tr_root _ _ _ HT3)).
  - intros va'. unfold translate. rewrite Epm.
    rewrite (leaf_walk _ _ _ HT3 t1 i v Ht1 Hi Hv m' Em' 3 root va' (tr_root _ _ _ HT3)).
    pose proof (slot_vpage _ _ _ HT3 va va' _ Hslot) as Hiff.
    unfold frame. rewrite Hpr, Hfr.
    destruct (decide (slot 4 (pmem s3) root va' = Some (t1, i))) as [Hs|Hs],
      (decide (vpage va' = vpage va)); try tauto. apply Htr.
Qed.

(** The distance in pages from [va] to [va'] in the 48-bit window. *)
Definition page_off (va va' : Z) : Z := (vpage va' - vpage va) mod 2 ^ 36.

Lemma page_off_next va va' :
  page_off (u64 (va + 4096)) va' = (page_off va va' - 1) mod 2 ^ 36.
Proof. unfold page_off, vpage, u64. zdm. Qed.

Lemma page_off_zero va va' : page_off va va' = 0 <-> vpage va' = vpage va.
Proof. unfold page_off, vpage. split; zdm. Qed.

(** What the range [n] pages from [va] to [pa] means for the translation. *)
Definition maps_range (tr tr' : Z -> option Z) (va pa : Z) (n : Z) : Prop :=
  forall va', tr' va' =
    if page_off va va' <? n then Some (pa + page_off va va' * 4096 + va' mod 4096) else tr va'.

Lemma maps_range_step (tr tr1 tr2 : Z -> option Z) va pa n :
  0 <= n < 2 ^ 36 ->
  (forall va', tr1 va' = if decide (vpage va' = vpage va) then Some (pa + va' mod 4096) else tr va') ->
  maps_range tr1 tr2 (u64 (va + 4096)) (pa + 4096) n -> maps_range tr tr2 va pa (n + 1).
Proof.
  intros Hn H1 H2 va'. rewrite H2, H1, page_off_next.
  assert (Hk : 0 <= page_off va va' < 2 ^ 36) by (apply Z.mod_pos_bound; lia).
  pose proof (page_off_zero va va') as Hz.
  destruct (decide (page_off va va' = 0)) as [E|E].
  - rewrite decide_True by tauto. rewrite E. change ((0 - 1) mod 2 ^ 36) with (2 ^ 36 - 1).
    repeat zcase; try lia. f_equal. lia.
  - rewrite decide_False by tauto. rewrite (Z.mod_small (page_off va va' - 1)) by lia.
    repeat zcase; try lia; [|done]. f_equal. lia.
Qed.

(** Tables needed when the page after page number [P] of a run is mapped, and
    for the [k] pages after it: one per boundary of 2^9, 2^18 and 2^27 pages. *)
Definition span (P k : Z) : Z :=
  ((P + k) / 2 ^ 9 - P / 2 ^ 9) + ((P + k) / 2 ^ 18 - P / 2 ^ 18) + ((P + k) / 2 ^ 27 - P / 2 ^ 27).

(** After the page of [va] is mapped, its neighbour shares the tables it can. *)
Lemma missing_next m root va :
  0 <= va -> va + 4096 < 2 ^ 64 -> missing m root va = 0 ->
  missing m root (u64 (va + 4096)) <= span (va / 4096) 1.
Proof.
  intros H1 H2. rewrite u64_id by lia. unfold missing, span.
  rewrite !(index_arith va), !(index_arith (va + 4096)) by lia.
  change (2 ^ (3 + 9 * 4)) with (2 ^ 39). change (2 ^ (3 + 9 * 3)) with (2 ^ 30).
  change (2 ^ (3 + 9 * 2)) with (2 ^ 21).
  assert (A4 : (va / 4096 + 1) / 2 ^ 27 = va / 4096 / 2 ^ 27 -> (va + 4096) / 2 ^ 39 = va / 2 ^ 39) by zdm.
  assert (A3 : (va / 4096 + 1) / 2 ^ 18 = va / 4096 / 2 ^ 18 -> (va + 4096) / 2 ^ 30 = va / 2 ^ 30) by zdm.
  assert (A2 : (va / 4096 + 1) / 2 ^ 9 = va / 4096 / 2 ^ 9 -> (va + 4096) / 2 ^ 21 = va / 2 ^ 21) by zdm.
  assert (B : 0 <= (va / 4096 + 1) / 2 ^ 27 - va / 4096 / 2 ^ 27 <= (va / 4096 + 1) / 2 ^ 18 - va / 4096 / 2 ^ 18
    /\ (va / 4096 + 1) / 2 ^ 18 - va / 4096 / 2 ^ 18 <= (va / 4096 + 1) / 2 ^ 9 - va / 4096 / 2 ^ 9) by zdm.
  set (d4 := (va / 4096 + 1) / 2 ^ 27) in *. set (d3 := (va / 4096 + 1) / 2 ^ 18) in *.
  set (d2 := (va / 4096 + 1) / 2 ^ 9) in *.
  destruct (decide (d4 = va / 4096 / 2 ^ 27)) as [E4|E4].
  - rewrite (A4 E4). destruct (Present (ent m root _)); cbn [negb]; [|lia].
    destruct (decide (d3 = va / 4096 / 2 ^ 18)) as [E3|E3].
    + rewrite (A3 E3). destruct (Present (ent m (frame _) _)); cbn [negb]; [|lia].
      destruct (decide (d2 = va / 4096 / 2 ^ 9)) as [E2|E2].
      * rewrite (A2 E2). destruct (Present (ent m (frame _) _)); cbn [negb]; lia.
      * intros _. present_case; cbn [negb]; lia.
    + intros _. repeat present_case; cbn [negb]; lia.
  - intros _. repeat present_case; cbn [negb]; lia.
Qed.

Lemma span_step P k : span P 1 + span (P + 1) k = span P (k + 1).
Proof. unfold span. replace (P + 1 + k) with (P + (k + 1)) by lia. lia. Qed.

Lemma span_nonneg P k : 0 <= k -> 0 <= span P k.
Proof.
  intros. unfold span. assert (P <= P + k) by lia.
  pose proof (Z.div_le_mono P (P + k) (2 ^ 9)). pose proof (Z.div_le_mono P (P + k) (2 ^ 18)).
  pose proof (Z.div_le_mono P (P + k) (2 ^ 27)). lia.
Qed.

Lemma MapMemory_loop_spec n s root T va pa stop :
  pt_inv s root T -> Z.of_nat n + 1 <= 2 ^ 36 ->
  missing (pmem s) root va + span (va / 4096) (Z.of_nat n) <= Z.of_nat (ps_count (src s)) ->
  0 <= va -> va + Z.of_nat n * 4096 < 2 ^ 64 ->
  0 <= pa -> pa + Z.of_nat n * 4096 + 4096 <= 2 ^ 52 -> pa mod 4096 = 0 ->
  pa + Z.of_nat n * 4096 < stop <= pa + Z.of_nat n * 4096 + 4096 ->
  exists s' T', MapMemory_loop (Datatypes.S n) root va pa stop s = Ret tt s' /\ pt_inv s' root T' /\
    extends (missing (pmem s) root va + span (va / 4096) (Z.of_nat n)) s s' T T' /\
    maps_range (translate (pmem s) root) (translate (pmem s') root) va pa (Z.of_nat n + 1).
Proof.
  revert s T va pa. induction n as [|n IH]; intros s T va pa Hinv Hn Hc Hva Hvb Hpa Hb Ha Hstop;
    cbn [MapMemory_loop]; (destruct (Z.ltb_spec pa stop); [|lia]);
    pose proof (missing_range (pmem s) root va).
  - destruct (MapPage_spec s root T va pa Hinv) as (s1 & T1 & E1 & Hinv1 & Ex1 & _ & Htr1); try done; try lia.
    { change (Z.of_nat 0) with 0 in Hc. unfold span in Hc. rewrite Z.add_0_r in Hc. lia. }
    exists s1, T1. rewrite (bind_ret _ _ _ _ _ E1). rewrite u64_id by lia.
    destruct (Z.ltb_spec (pa + 4096) stop); [lia|]. split; [done|]. split; [done|]. split.
    + eapply extends_weaken; [|exact Ex1]. pose proof (span_nonneg (va / 4096) (Z.of_nat 0)). lia.
    + apply (maps_range_step _ (translate (pmem s1) root)); [lia|done|].
      intros va'. assert (0 <= page_off (u64 (va + 4096)) va') by (apply Z.mod_pos_bound; lia).
      change (Z.of_nat 0) with 0. zcase; [lia|done].
  - rewrite Nat2Z.inj_succ in *. rewrite <- !Z.add_1_r in *.
    destruct (MapPage_spec s root T va pa Hinv) as (s1 & T1 & E1 & Hinv1 & Ex1 & Hm1 & Htr1); try done; try lia.
    { pose proof (span_nonneg (va / 4096) (Z.of_nat n + 1)). lia. }
    pose proof (ex_count _ _ _ _ _ Ex1) as Hc1.
    pose proof (missing_next (pmem s1) root va Hva ltac:(lia) Hm1) as Hmn.
    pose proof (span_step (va / 4096) (Z.of_nat n)) as Hss.
    assert (Hdiv : u64 (va + 4096) / 4096 = va / 4096 + 1) by (rewrite u64_id by lia; zdm).
    rewrite (u64_id (pa + 4096)) by lia.
    destruct (IH s1 T1 (u64 (va + 4096)) (pa + 4096) Hinv1) as (s2 & T2 & E2 & Hinv2 & Ex2 & Htr2);
      rewrite ?Hdiv in *; try lia; try zdm; try (rewrite u64_id; lia).
    exists s2, T2. rewrite (bind_ret _ _ _ _ _ E1). split; [exact E2|]. split; [exact Hinv2|]. split.
    + eapply extends_weaken; [|exact (extends_trans _ _ _ _ _ _ _ _ Ex1 Ex2)]. lia.
    + apply (maps_range_step _ (translate (pmem s1) root)); [lia|done|done].
Qed.

(** The number of pages a mapping of [size] bytes covers, and a bound on the
    tables it may need. *)
Definition npages (size : Z) : Z := (size + 4095) / 4096.
Definition tables_for (va size : Z) : Z := 3 + span (va / 4096) (npages size - 1).

Lemma tables_for_ge va size : 0 < size -> 3 <= tables_for va size.
Proof.
  intros H0. unfold tables_for. pose proof (span_nonneg (va / 4096) (npages size - 1)).
  unfold npages in *. zdm.
Qed.

Lemma MapMemory_spec s root T va pa size :
  pt_inv s root T -> 0 < size -> 0 <= va -> va + size <= 2 ^ 64 - 4096 ->
  0 <= pa -> pa mod 4096 = 0 -> pa + size <= 2 ^ 48 ->
  tables_for va size <= Z.of_nat (ps_count (src s)) ->
  exists s' T', MapMemory root va pa size s = Ret tt s' /\ pt_inv s' root T' /\
    extends (tables_for va size) s s' T T' /\
    maps_range (translate (pmem s) root) (translate (pmem s') root) va pa (npages size).
Proof.
  intros Hinv Hs Hva Hvb Hpa Ha Hb Hc. unfold MapMemory, tables_for in *. rewrite u64_id by lia.
  assert (Hn : 1 <= npages size <= 2 ^ 36) by (unfold npages; zdm).
  change ((size + 4095) / 4096) with (npages size).
  replace (Z.to_nat (npages size)) with (Datatypes.S (Z.to_nat (npages size - 1))) by lia.
  pose proof (missing_range (pmem s) root va).
  destruct (MapMemory_loop_spec (Z.to_nat (npages size - 1)) s root T va pa (pa + size))
    as (s' & T' & E & Hinv' & Ex & Hm); rewrite ?Z2Nat.id in * by lia;
    try done; try lia; try (unfold npages in *; zdm).
  exists s', T'. split; [exact E|]. split; [done|]. split.
  - eapply extends_weaken; [|exact Ex]. lia.
  - by replace (npages size - 1 + 1) with (npages size) in Hm by lia.
Qed.

End Spec.

(** ** [CreatePTM] *)

(** The boot loader's answers and the linker's symbols. *)
Record boot := mkBoot {
  memmap : list Pmm.limine_memmap_entry;
  hhdm_response : option Z;
  kernel_address_response : option (Z * Z);
  KernelStart : Z;
  KernelEnd : Z
}.

Record paging (S : Type) := mkPaging {
  pg : ptm S;
  HHDM_Offset : Z;
  PhysicalKernelStart : Z;
  VirtualKernelStart : Z;
  Pml4 : Z;
  FullSizeOfMemory : Z;
  cr3 : Z
}.
Arguments mkPaging {S} _ _ _ _ _ _ _.
Arguments pg {S} _.
Arguments HHDM_Offset {S} _.
Arguments PhysicalKernelStart {S} _.
Arguments VirtualKernelStart {S} _.
Arguments Pml4 {S} _.
Arguments FullSizeOfMemory {S} _.
Arguments cr3 {S} _.

Section Create.
Context {S : Type} `{PageSource S} (b : boot).

Definition set_pg (g : ptm S) (s : paging S) : paging S :=
  mkPaging g (HHDM_Offset s) (PhysicalKernelStart s) (VirtualKernelStart s) (Pml4 s) (FullSizeOfMemory s) (cr3 s).
Definition set_HHDM (v : Z) (s : paging S) : paging S :=
  mkPaging (pg s) v (PhysicalKernelStart s) (VirtualKernelStart s) (Pml4 s) (FullSizeOfMemory s) (cr3 s).
Definition set_kernel (p v : Z) (s : paging S) : paging S :=
  mkPaging (pg s) (HHDM_Offset s) p v (Pml4 s) (FullSizeOfMemory s) (cr3 s).
Definition set_Pml4 (v : Z) (s : paging S) : paging S :=
  mkPaging (pg s) (HHDM_Offset s) (PhysicalKernelStart s) (VirtualKernelStart s) v (FullSizeOfMemory s) (cr3 s).
Definition set_Full (v : Z) (s : paging S) : paging S :=
  mkPaging (pg s) (HHDM_Offset s) (PhysicalKernelStart s) (VirtualKernelStart s) (Pml4 s) v (cr3 s).
Definition set_cr3 (v : Z) (s : paging S) : paging S :=
  mkPaging (pg s) (HHDM_Offset s) (PhysicalKernelStart s) (VirtualKernelStart s) (Pml4 s) (FullSizeOfMemory s) v.

Fixpoint full_loop (l : list Pmm.limine_memmap_entry) (acc : Z) : Z :=
  match l with
  | [] => acc
  | Entry :: r =>
    let EndOfSegment := u64 (Pmm.base Entry + Pmm.len Entry) in
    full_loop r (if acc <? EndOfSegment then EndOfSegment else acc)
  end.
Definition GetFullSizeOfMemory : M (paging S) Z :=
  let* cached := gets FullSizeOfMemory in
  if 0 <? cached then ret cached
  else
    let size := full_loop (memmap b) cached in
    modify (set_Full size) ;;; ret size.

Definition CreatePTM : M (paging S) unit :=
  (match hhdm_response b with
   | None => done_
   | Some off => modify (set_HHDM off)
   end) ;;;
  (match kernel_address_response b with
   | None => done_
   | Some (phys, virt) => modify (set_kernel phys virt)
   end) ;;;
  let* p := zoom pg set_pg AllocateEmptyPage in
  modify (set_Pml4 p) ;;;
  let KernelSize := u64 (KernelEnd b - KernelStart b) in
  let* n := GetFullSizeOfMemory in
  zoom pg set_pg (MapMemory p 0 0 n) ;;;
  let* s := gets (fun s => s) in
  zoom pg set_pg (MapMemory p (VirtualKernelStart s) (PhysicalKernelStart s) KernelSize) ;;;
  let* n := GetFullSizeOfMemory in
  zoom pg set_pg (MapMemory p (HHDM_Offset s) 0 n) ;;;
  modify (set_cr3 p).

End Create.

(** A fresh zero page is a tree of one table that translates nothing. *)
Lemma fresh_root_tree m root :
  is_page root -> (forall i, 0 <= i < 512 -> ent m root i = 0) -> tree m root {[root := 4%nat]}.
Proof.
  intros Hp Hz. split.
  - apply lookup_singleton_eq.
  - intros t l Ht. apply lookup_singleton_Some in Ht as [<- _]. done.
  - intros t l i Ht Hi. apply lookup_singleton_Some in Ht as [<- _]. rewrite Hz by done. intros [=].
  - intros t t' l l' i i' Ht _ Hi _ Hpr. apply lookup_singleton_Some in Ht as [<- _].
    rewrite Hz in Hpr by done. discriminate Hpr.
Qed.

Lemma fresh_root_translate m root va :
  (forall i, 0 <= i < 512 -> ent m root i = 0) -> translate m root va = None.
Proof. intros Hz. unfold translate. rewrite walk_S. cbv zeta. by rewrite Hz by apply index_range. Qed.

Lemma full_loop_ge l acc : acc <= full_loop l acc.
Proof.
  revert acc. induction l as [|e l IH]; intros acc; cbn [full_loop]; [lia|]. cbv zeta.
  specialize (IH (if acc <? u64 (Pmm.base e + Pmm.len e) then u64 (Pmm.base e + Pmm.len e) else acc)).
  destruct (Z.ltb_spec acc (u64 (Pmm.base e + Pmm.len e))); lia.
Qed.

Section CreateSpec.
Context {S : Type} `{PageSource S}.

(** The root table comes from one allocated page. *)
Lemma AllocateRoot_spec (g : ptm S) :
  ps_inv (src g) -> ps_count (src g) <> O ->
  exists p g', AllocateEmptyPage g = Ret p g' /\ pt_inv g' p {[p := 4%nat]} /\
    ps_count (src g) = Datatypes.S (ps_count (src g')) /\
    (forall va, translate (pmem g') p va = None) /\ ps_free (src g) p /\
    (forall a, ps_free (src g') a -> ps_free (src g) a) /\
    (forall x, x < p \/ p + 4096 <= x -> ld8 (pmem g') x = ld8 (pmem g) x).
Proof.
  intros Hinv Hc. destruct (ps_alloc_live _ Hinv Hc) as (p & s1 & Ha).
  destruct (ps_alloc_ret _ _ _ Hinv Ha) as (Hinv1 & Hf & Hnf & Hmono & Hmem & Hcnt).
  pose proof (ps_free_page _ _ Hinv Hf) as Hpage. change (is_page p) in Hpage.
  exists p, (mkPtm s1 (CurrentPageTableEntry g)).
  assert (Hz : forall i, 0 <= i < 512 -> ent (ps_mem s1) p i = 0).
  { intros i Hi. rewrite Hmem. by apply ent_memset_zero. }
  assert (Ho : forall x, x < p \/ p + 4096 <= x -> ld8 (ps_mem s1) x = ld8 (ps_mem (src g)) x).
  { intros x Hx. rewrite Hmem. by apply ld8_memset_out. }
  clear Hmem. split; [exact (zoom_ret _ _ _ _ _ _ Ha)|]. split; [|split; [done|split; [|done]]].
  - split; [done|]. split; [by apply fresh_root_tree|].
    intros t l Ht. apply lookup_singleton_Some in Ht as [<- _]. done.
  - intros va. by apply fresh_root_translate.
Qed.

Lemma GetFullSizeOfMemory_first (b : boot) (s : paging S) :
  FullSizeOfMemory s = 0 -> GetFullSizeOfMemory b s =
    Ret (full_loop (memmap b) 0) (set_Full (full_loop (memmap b) 0) s).
Proof. intros E. unfold GetFullSizeOfMemory, bind, gets, modify, ret. by rewrite E. Qed.

Lemma GetFullSizeOfMemory_cached (b : boot) (s : paging S) :
  0 < FullSizeOfMemory s -> GetFullSizeOfMemory b s = Ret (FullSizeOfMemory s) s.
Proof.
  intros E. unfold GetFullSizeOfMemory, bind, gets, ret.
  destruct (Z.ltb_spec 0 (FullSizeOfMemory s)); [done|lia].
Qed.

(** The address space [CreatePTM] builds: the higher-half window, the kernel
    image and the identity window, the later mapping winning. *)
Definition kernel_space (full off phys virt ksize va : Z) : option Z :=
  if page_off off va <? npages full then Some (page_off off va * 4096 + va mod 4096)
  else if page_off virt va <? npages ksize then Some (phys + page_off virt va * 4096 + va mod 4096)
  else if page_off 0 va <? npages full then Some (page_off 0 va * 4096 + va mod 4096)
  else None.

(** What lies in no page that was free at the beginning is kept, and the
    tables lie in pages that were. *)
Record from_free (s s' : ptm S) (T : gmap Z nat) : Prop := {
  ff_mem x : (forall a, ps_free (src s) a -> x < a \/ a + 4096 <= x) -> ld8 (pmem s') x = ld8 (pmem s) x;
  ff_free a : ps_free (src s') a -> ps_free (src s) a;
  ff_table t l : T !! t = Some l -> ps_free (src s) t
}.

Lemma from_free_trans s s1 s' T p n T1 :
  ps_free (src s) p -> (forall a, ps_free (src s1) a -> ps_free (src s) a) ->
  (forall x, x < p \/ p + 4096 <= x -> ld8 (pmem s1) x = ld8 (pmem s) x) ->
  (forall t l, T1 !! t = Some l -> t = p) -> extends n s1 s' T1 T -> from_free s s' T.
Proof.
  intros Hp Hf Hm HT1 Ex.
  assert (Ht : forall t l, T !! t = Some l -> ps_free (src s) t).
  { intros t l Ht. destruct (ex_new _ _ _ _ _ Ex t l Ht) as [H1|[_ H1]]; [by rewrite (HT1 t l H1)|by apply Hf]. }
  split; [|intros a Ha; by apply Hf, (ex_free _ _ _ _ _ Ex)|done].
  intros x Hx. rewrite (ex_mem _ _ _ _ _ Ex); [by apply Hm, Hx|]. intros t l Hl. by apply Hx, (Ht t l).
Qed.

Lemma CreatePTM_run (b : boot) (s : paging S) off phys virt :
  let full := full_loop (memmap b) 0 in
  let ksize := u64 (KernelEnd b - KernelStart b) in
  hhdm_response b = Some off -> kernel_address_response b = Some (phys, virt) ->
  FullSizeOfMemory s = 0 -> ps_inv (src (pg s)) ->
  0 < full <= 2 ^ 48 -> 0 < ksize -> 0 <= phys -> phys mod 4096 = 0 -> phys + ksize <= 2 ^ 48 ->
  0 <= virt -> virt + ksize <= 2 ^ 64 - 4096 -> 0 <= off -> off + full <= 2 ^ 64 - 4096 ->
  1 + tables_for 0 full + tables_for virt ksize + tables_for off full
    <= Z.of_nat (ps_count (src (pg s))) ->
  exists s' T, CreatePTM b s = Ret tt s' /\ cr3 s' = Pml4 s' /\ pt_inv (pg s') (cr3 s') T /\
    (forall va, translate (pmem (pg s')) (cr3 s') va = kernel_space full off phys virt ksize va) /\
    from_free (pg s) (pg s') T /\
    Z.of_nat (ps_count (src (pg s))) <=
      1 + tables_for 0 full + tables_for virt ksize + tables_for off full + Z.of_nat (ps_count (src (pg s'))).
Proof.
  intros full ksize Hoff Hk Hfs Hinv Hfull Hks Hph Hal Hksz Hv0 Hv1 Ho0 Ho1 Hcnt.
  assert (Ht1 : 3 <= tables_for 0 full) by (apply tables_for_ge; lia).
  assert (Ht2 : 3 <= tables_for virt ksize) by (apply tables_for_ge; lia).
  assert (Ht3 : 3 <= tables_for off full) by (apply tables_for_ge; lia).
  unfold CreatePTM. rewrite Hoff, Hk.
  erewrite bind_ret by reflexivity. erewrite bind_ret by reflexivity.
  set (s1 := set_kernel phys virt (set_HHDM off s)).
  destruct (AllocateRoot_spec (pg s)) as (p & g1 & E1 & Hi1 & Hc1 & Htr1 & Hp & Hfr1 & Hm1); [done|lia|].
  erewrite bind_ret by exact (zoom_ret pg set_pg _ s1 _ _ E1). erewrite bind_ret by reflexivity.
  erewrite bind_ret by (by apply GetFullSizeOfMemory_first). fold full ksize.
  destruct (MapMemory_spec g1 p _ 0 0 full Hi1) as (g2 & T2 & E2 & Hi2 & Ex2 & Htr2); try done; try lia.
  pose proof (ex_count _ _ _ _ _ Ex2) as Hc2.
  erewrite bind_ret by (apply zoom_ret; exact E2). erewrite bind_ret by reflexivity.
  cbn [VirtualKernelStart PhysicalKernelStart HHDM_Offset set_pg set_Full set_Pml4].
  destruct (MapMemory_spec g2 p T2 virt phys ksize Hi2) as (g3 & T3 & E3 & Hi3 & Ex3 & Htr3); try done; try lia.
  pose proof (ex_count _ _ _ _ _ Ex3) as Hc3.
  erewrite bind_ret by (apply zoom_ret; exact E3).
  erewrite bind_ret by (apply GetFullSizeOfMemory_cached; cbn; lia).
  cbn [FullSizeOfMemory set_pg set_Full].
  destruct (MapMemory_spec g3 p T3 off 0 full Hi3) as (g4 & T4 & E4 & Hi4 & Ex4 & Htr4); try done; try lia.
  erewrite bind_ret by (apply zoom_ret; exact E4).
  pose proof (ex_count _ _ _ _ _ Ex4) as Hc4.
  eexists _, T4. split; [reflexivity|]. cbn [cr3 Pml4 pg set_cr3 set_pg]. split; [done|]. split; [done|].
  split; [intros va; rewrite Htr4, Htr3, Htr2, Htr1; done|]. split; [|lia].
  eapply (from_free_trans _ g1 _ T4); [exact Hp|done|done| |exact (extends_trans _ _ _ _ _ _ _ _ (extends_trans _ _ _ _ _ _ _ _ Ex2 Ex3) Ex4)].
  intros t l0 Ht. by apply lookup_singleton_Some in Ht as [<- _].
Qed.



End CreateSpec.

(** ** The kernel's page source *)

Section PmmSource.
Context (l : list Pmm.limine_memmap_entry) (Hl : Pmm.memmap_ok l).
Import Pmm.

(** The kernel never frees a page, so the free list is empty. *)
Definition never_freed (s : pmm) : Prop := pmm_ok s /\ FreeListLength s = 0.

Lemma source_set_inv m s : never_freed s -> never_freed (set_mem (fun _ => m) s).
Proof. done. Qed.

Lemma fresh_NoDup s : NoDup (fresh l s).
Proof. by apply NoDup_filter, pages_NoDup. Qed.

Lemma source_alloc_ret s a s' :
  never_freed s -> Pmm.AllocateEmptyPage l s = Ret a s' ->
  never_freed s' /\ a ∈ fresh l s /\ (a ∉ fresh l s') /\ (forall b, b ∈ fresh l s' -> b ∈ fresh l s) /\
  mem s' = memset (mem s) a 0 4096 /\ length (fresh l s) = S (length (fresh l s')).
Proof.
  intros [Hok Hfl] E. pose proof (pool_no_stack l s ltac:(lia)) as Hp.
  destruct (fresh l s) as [|a0 p] eqn:Ef.
  { destruct (AllocatePage_empty l s Hl Hok Hp) as (s1 & E1 & _).
    unfold Pmm.AllocateEmptyPage, bind in E. rewrite E1 in E. discriminate E. }
  assert (Hc : clear_of_list s a0) by (left; lia).
  destruct (AllocateEmptyPage_pop l s a0 p Hl Hok Hp Hc) as (s1 & E1 & Hp1 & Hok1 & Hm & _).
  rewrite E in E1. injection E1 as <- <-.
  assert (Hfl' : FreeListLength s' = 0).
  { revert E. unfold Pmm.AllocateEmptyPage, bind, AllocatePage. rewrite Hfl. cbn [Z.ltb Z.compare].
    rewrite scan_entries_find by apply Hl. unfold fresh in Ef. rewrite Ef. cbn [head].
    intros E. injection E as <-. exact Hfl. }
  rewrite pool_no_stack in Hp1 by lia. rewrite Hp1.
  pose proof (fresh_NoDup s) as Hnd. rewrite Ef in Hnd. apply NoDup_cons in Hnd as [Hnin _].
  split; [split; assumption|]. split; [left|]. split; [assumption|].
  split; [intros b Hb; right; assumption|]. split; [assumption|reflexivity].
Qed.

Lemma source_alloc_live s :
  never_freed s -> length (fresh l s) <> O -> exists a s', Pmm.AllocateEmptyPage l s = Ret a s'.
Proof.
  intros [Hok Hfl] Hne. pose proof (pool_no_stack l s ltac:(lia)) as Hp.
  destruct (fresh l s) as [|a p]; [done|].
  destruct (AllocateEmptyPage_pop l s a p Hl Hok Hp ltac:(left; lia)) as (s1 & E1 & _). eauto.
Qed.

Lemma source_free_page s a :
  never_freed s -> a ∈ fresh l s -> a mod 4096 = 0 /\ 0 < a /\ a + 4096 <= 2 ^ 52.
Proof.
  intros [Hok _] Ha. apply list_elem_of_filter in Ha as [Hgt Ha].
  destruct (pages_in l a Hl Ha) as (e & _ & _ & _ & _ & ? & ? & ?). destruct Hok. lia.
Qed.

(** The page allocator is a page source. *)
Definition pmm_source : PageSource pmm := {|
  ps_mem := mem;
  ps_set_mem m := set_mem (fun _ => m);
  ps_alloc := Pmm.AllocateEmptyPage l;
  ps_inv := never_freed;
  ps_free s a := a ∈ fresh l s;
  ps_count s := length (fresh l s);
  ps_mem_set _ _ := eq_refl;
  ps_set_set _ _ _ := eq_refl;
  ps_set_inv := source_set_inv;
  ps_set_free _ _ _ := iff_refl _;
  ps_set_count _ _ := eq_refl;
  ps_alloc_ret := source_alloc_ret;
  ps_alloc_live := source_alloc_live;
  ps_free_page := source_free_page
|}.

End PmmSource.

(** ** Properties *)

(** C3: [MapMemory] refines the update of an address space: on a well-formed
    tree of tables with enough pages left it returns, and afterwards an
    address whose page lies in the mapped range translates to the
    corresponding physical address, every other address translates as before,
    the tree is well formed again, and no byte outside the table pages has
    changed. *)
Theorem MapMemory_maps_range {S : Type} `{PageSource S} (s : ptm S) root T va pa size :
  pt_inv s root T -> 0 < size -> 0 <= va -> va + size <= 2 ^ 64 - 4096 ->
  0 <= pa -> pa mod 4096 = 0 -> pa + size <= 2 ^ 48 ->
  tables_for va size <= Z.of_nat (ps_count (src s)) ->
  exists s' T', MapMemory root va pa size s = Ret tt s' /\ pt_inv s' root T' /\
    (forall va', translate (pmem s') root va' =
       if page_off va va' <? npages size then Some (pa + page_off va va' * 4096 + va' mod 4096)
       else translate (pmem s) root va') /\
    (forall x, (forall t l, T' !! t = Some l -> x < t \/ t + 4096 <= x) ->
       ld8 (pmem s') x = ld8 (pmem s) x).
Proof.
  intros Hinv Hs Hva Hvb Hpa Ha Hb Hc.
  destruct (MapMemory_spec s root T va pa size Hinv Hs Hva Hvb Hpa Ha Hb Hc)
    as (s' & T' & E & Hinv' & Ex & Hm).
  exists s', T'. split; [exact E|]. split; [exact Hinv'|]. split; [exact Hm|].
  exact (ex_mem _ _ _ _ _ Ex).
Qed.

Definition map2 : list Pmm.limine_memmap_entry := [Pmm.mkEntry 4096 (64 * 4096) 0].

Lemma map2_ok : Pmm.memmap_ok map2.
Proof.
  unfold Pmm.memmap_ok. change (filter Pmm.usable map2) with map2.
  unfold map2, Pmm.entry_ok. split; repeat constructor; cbn; lia.
Qed.

(** One empty root table at 4096, everything else free. *)
Definition one_table : ptm Pmm.pmm :=
  mkPtm (Pmm.mkPmm ∅ (Console.mkTty [] 0) 4096 0 4096 0) 0.

Lemma one_table_inv : @pt_inv _ (pmm_source map2 map2_ok) one_table 4096 {[4096 := 4%nat]}.
Proof.
  split; [|split].
  - cbn [ps_inv pmm_source]. unfold never_freed, Pmm.pmm_ok, one_table. cbn [src]. Pmm.fields. lia.
  - apply fresh_root_tree; [split; [reflexivity|lia]|]. intros i _. apply ent_empty.
  - intros t l Ht. apply lookup_singleton_Some in Ht as [<- _].
    intros Hin. apply list_elem_of_filter in Hin as [Hlt _]. cbn [src one_table] in Hlt.
    unfold one_table in Hlt. cbn [src Pmm.LastAddress] in Hlt. lia.
Qed.

Lemma MapMemory_maps_range_witness :
  exists s' T', @MapMemory _ (pmm_source map2 map2_ok) 4096 (2 ^ 64 - 2 ^ 31) (2 ^ 21) 12288 one_table = Ret tt s' /\
    @pt_inv _ (pmm_source map2 map2_ok) s' 4096 T' /\
    (forall va', translate (@pmem _ (pmm_source map2 map2_ok) s') 4096 va' =
       if page_off (2 ^ 64 - 2 ^ 31) va' <? npages 12288
       then Some (2 ^ 21 + page_off (2 ^ 64 - 2 ^ 31) va' * 4096 + va' mod 4096)
       else translate (@pmem _ (pmm_source map2 map2_ok) one_table) 4096 va') /\
    (forall x, (forall t l, T' !! t = Some l -> x < t \/ t + 4096 <= x) ->
       ld8 (@pmem _ (pmm_source map2 map2_ok) s') x = ld8 (@pmem _ (pmm_source map2 map2_ok) one_table) x).
Proof.
  apply (@MapMemory_maps_range _ (pmm_source map2 map2_ok) one_table 4096 {[4096 := 4%nat]}
           (2 ^ 64 - 2 ^ 31) (2 ^ 21) 12288).
  - apply one_table_inv.
  - lia.
  - lia.
  - lia.
  - lia.
  - reflexivity.
  - lia.
  - vm_compute. discriminate.
Defined.

(** C4: With the boot loader's answers present and enough usable pages,
    [CreatePTM] on the page allocator returns with [cr3] loaded with a
    well-formed tree, and the whole address space is known: the higher-half
    window, else the kernel image, else the identity window, and every other
    address unmapped. *)
Theorem CreatePTM_address_space (l : list Pmm.limine_memmap_entry) (Hl : Pmm.memmap_ok l)
    (b : boot) (s : paging Pmm.pmm) off phys virt :
  let full := full_loop (memmap b) 0 in
  let ksize := u64 (KernelEnd b - KernelStart b) in
  hhdm_response b = Some off -> kernel_address_response b = Some (phys, virt) ->
  FullSizeOfMemory s = 0 -> never_freed (src (pg s)) ->
  0 < full <= 2 ^ 48 -> 0 < ksize -> 0 <= phys -> phys mod 4096 = 0 -> phys + ksize <= 2 ^ 48 ->
  0 <= virt -> virt + ksize <= 2 ^ 64 - 4096 -> 0 <= off -> off + full <= 2 ^ 64 - 4096 ->
  1 + tables_for 0 full + tables_for virt ksize + tables_for off full
    <= Z.of_nat (length (Pmm.fresh l (src (pg s)))) ->
  exists s' T, @CreatePTM _ (pmm_source l Hl) b s = Ret tt s' /\ cr3 s' = Pml4 s' /\
    @pt_inv _ (pmm_source l Hl) (pg s') (cr3 s') T /\
    forall va, translate (Pmm.mem (src (pg s'))) (cr3 s') va =
               kernel_space full off phys virt ksize va.
Proof.
  intros full ksize H1 H2 H3 H4 H5 H6 H7 H8 H9 H10 H11 H12 H13 H14.
  destruct (@CreatePTM_run _ (pmm_source l Hl) b s off phys virt H1 H2 H3 H4 H5 H6 H7 H8 H9 H10 H11 H12 H13 H14)
    as (s' & T & E & Hc & Hi & Htr & _). by exists s', T.
Qed.

Definition boot2 : boot :=
  mkBoot map2 (Some (2 ^ 64 - 2 ^ 47)) (Some (2 ^ 21, 2 ^ 64 - 2 ^ 31)) (2 ^ 64 - 2 ^ 31) (2 ^ 64 - 2 ^ 31 + 8192).

Lemma CreatePTM_address_space_witness :
  exists s' T, @CreatePTM _ (pmm_source map2 map2_ok) boot2
      (mkPaging (mkPtm (Pmm.mkPmm ∅ (Console.mkTty [] 0) 4096 0 0 0) 0) 0 0 0 0 0 0) = Ret tt s' /\
    cr3 s' = Pml4 s' /\ @pt_inv _ (pmm_source map2 map2_ok) (pg s') (cr3 s') T /\
    forall va, translate (Pmm.mem (src (pg s'))) (cr3 s') va =
               kernel_space (full_loop map2 0) (2 ^ 64 - 2 ^ 47) (2 ^ 21) (2 ^ 64 - 2 ^ 31)
                 (u64 (KernelEnd boot2 - KernelStart boot2)) va.
Proof.
  apply (CreatePTM_address_space map2 map2_ok boot2
    (mkPaging (mkPtm (Pmm.mkPmm ∅ (Console.mkTty [] 0) 4096 0 0 0) 0) 0 0 0 0 0 0));
  try reflexivity; try (vm_compute; split; congruence); try (vm_compute; congruence).
  unfold never_freed, Pmm.pmm_ok. cbn [src pg]. Pmm.fields. lia.
Defined.

End Ptm.
