(* ===== verification/Heap.v ===== *)
(** The kernel heap (kernel/Memory/Heap): a first-fit allocator on a doubly
    linked list of segment headers in virtual memory, and its refinement of
    list operations on segments. *)

From stdpp Require Import base tactics list gmap numbers option strings.
From Stdlib Require Import ZArith Lia.
From S2P Require Import Prelude Mem.

#[local] Open Scope Z_scope.

(** ** The interface of the virtual memory the heap runs on

    [vok v b]: the byte at [b] is backed by memory of its own.  [vmap va] is
    the pair of calls [MapMemory(Pml4, va, AllocateEmptyPage(), 4096)] of the
    heap code; [vpages] is a number of such calls that still succeed. *)
Class VMem (V : Type) := {
  vld : nat -> V -> Z -> Z;
  vst : nat -> V -> Z -> Z -> V;
  vmap : Z -> M V unit;
  vputs : list Z -> V -> V;
  vinv : V -> Prop;
  vok : V -> Z -> Prop;
  vpages : V -> Z;
  vld_range n v a : 0 <= vld n v a < 256 ^ Z.of_nat n;
  vld_vst_eq n v a x :
    vinv v -> (forall i, 0 <= i < Z.of_nat n -> vok v (a + i)) ->
    vld n (vst n v a x) a = x mod 256 ^ Z.of_nat n;
  vld_vst_ne n k v a b x :
    vinv v -> (forall i, 0 <= i < Z.of_nat n -> vok v (a + i)) ->
    (forall i, 0 <= i < Z.of_nat k -> vok v (b + i)) ->
    a + Z.of_nat n <= b \/ b + Z.of_nat k <= a ->
    vld k (vst n v a x) b = vld k v b;
  vst_inv n v a x : vinv v -> (forall i, 0 <= i < Z.of_nat n -> vok v (a + i)) -> vinv (vst n v a x);
  vst_ok n v a x b :
    vinv v -> (forall i, 0 <= i < Z.of_nat n -> vok v (a + i)) -> vok (vst n v a x) b <-> vok v b;
  vst_pages n v a x : vpages (vst n v a x) = vpages v;
  vok_null v b : vinv v -> 0 <= b < 4096 -> vok v b;
  vmap_spec v va :
    vinv v -> 2 ^ 64 - 2 ^ 30 - 4096 <= va -> va + 4096 <= 2 ^ 64 - 4096 -> va mod 4096 = 0 ->
    (forall b, va <= b < va + 4096 -> ~ vok v b) -> 0 < vpages v ->
    exists v', vmap va v = Ret tt v' /\ vinv v' /\ vpages v - 1 <= vpages v' /\
      (forall b, vok v' b <-> vok v b \/ va <= b < va + 4096) /\
      (forall k b, (forall i, 0 <= i < Z.of_nat k -> vok v (b + i)) -> vld k v' b = vld k v b)
}.

Module Heap.
Import Prelude.
#[local] Open Scope lofi_scope.

(** ** State and operations *)

Record heap (V : Type) := mkHeap {
  vm : V; HeapStart : Z; HeapEnd : Z; LastHeapHDR : Z
}.
Arguments mkHeap {V} _ _ _ _.
Arguments vm {V} _.
Arguments HeapStart {V} _.
Arguments HeapEnd {V} _.
Arguments LastHeapHDR {V} _.

(** [sizeof(HeapSegmentHeader)]: Length at 0, Next at 8, Last at 16, IsFree
    (one byte) at 24, padded to a multiple of 8. *)
Definition HDR_SIZE : Z := 32.

Section Ops.
Context {V : Type} `{VMem V}.

Definition set_vm (v : V) (s : heap V) : heap V := mkHeap v (HeapStart s) (HeapEnd s) (LastHeapHDR s).
Definition set_HeapStart (x : Z) (s : heap V) : heap V := mkHeap (vm s) x (HeapEnd s) (LastHeapHDR s).
Definition set_HeapEnd (x : Z) (s : heap V) : heap V := mkHeap (vm s) (HeapStart s) x (LastHeapHDR s).
Definition set_LastHeapHDR (x : Z) (s : heap V) : heap V := mkHeap (vm s) (HeapStart s) (HeapEnd s) x.

(** Fields of the header at [h]. *)
Definition Length (s : heap V) (h : Z) : Z := vld 8 (vm s) h.
Definition Next (s : heap V) (h : Z) : Z := vld 8 (vm s) (h + 8).
Definition Last (s : heap V) (h : Z) : Z := vld 8 (vm s) (h + 16).
Definition IsFree (s : heap V) (h : Z) : bool := negb (vld 1 (vm s) (h + 24) =? 0).
Definition set_Length (h x : Z) (s : heap V) : heap V := set_vm (vst 8 (vm s) h x) s.
Definition set_Next (h x : Z) (s : heap V) : heap V := set_vm (vst 8 (vm s) (h + 8) x) s.
Definition set_Last (h x : Z) (s : heap V) : heap V := set_vm (vst 8 (vm s) (h + 16) x) s.
Definition set_IsFree (h x : Z) (s : heap V) : heap V := set_vm (vst 1 (vm s) (h + 24) x) s.

Definition SegmentHeaderCombineForward (HDR : Z) (s : heap V) : heap V :=
  if Next s HDR =? 0 then s
  else if negb (IsFree s (Next s HDR)) then s
  else
    let s := if Next s HDR =? LastHeapHDR s then set_LastHeapHDR HDR s else s in
    let s := if negb (Next s (Next s HDR) =? 0) then set_Last (Next s (Next s HDR)) HDR s else s in
    let s := set_Length HDR (u64 (Length s HDR + Length s (Next s HDR) + HDR_SIZE)) s in
    set_Next HDR (Next s (Next s HDR)) s.

Definition SegmentHeaderCombineBackward (HDR : Z) (s : heap V) : heap V :=
  if negb (Last s HDR =? 0) && IsFree s (Last s HDR)
  then SegmentHeaderCombineForward (Last s HDR) s else s.

(** Returns the state; the returned pointer is not used by the callers. *)
Definition SegmentHeaderSplit (HDR Len : Z) (s : heap V) : heap V :=
  if Len <? 16 then s
  else
    let SplitSegmentLength := i64 (u64 (u64 (Length s HDR - Len) - HDR_SIZE)) in
    if SplitSegmentLength <? 16 then s
    else
      let NewHDR := u64 (HDR + Len + HDR_SIZE) in
      let s := set_Last (Next s HDR) NewHDR s in
      let s := set_Next NewHDR (Next s HDR) s in
      let s := set_Next HDR NewHDR s in
      let s := set_Last NewHDR HDR s in
      let s := set_Length NewHDR (u64 SplitSegmentLength) s in
      let s := set_IsFree NewHDR (if IsFree s HDR then 1 else 0) s in
      let s := set_Length HDR Len s in
      if LastHeapHDR s =? HDR then set_LastHeapHDR NewHDR s else s.

Fixpoint map_loop (n : nat) : M (heap V) unit :=
  match n with
  | O => ret tt
  | S n' =>
    let* e := gets HeapEnd in
    zoom vm set_vm (vmap e) ;;;
    modify (set_HeapEnd (u64 (e + 4096))) ;;;
    map_loop n'
  end.

Definition round_page (Len : Z) : Z :=
  if negb (Len mod 4096 =? 0) then u64 (u64 (Len - Len mod 4096) + 4096) else Len.

Definition ExpandHeap (Len : Z) : M (heap V) unit :=
  let Len := round_page Len in
  let PageCount := Len / 4096 in
  let* NewHDR := gets HeapEnd in
  map_loop (Z.to_nat PageCount) ;;;
  modify (set_IsFree NewHDR 1) ;;;
  let* lst := gets LastHeapHDR in
  modify (set_Last NewHDR lst) ;;;
  modify (set_Next lst NewHDR) ;;;
  modify (set_LastHeapHDR NewHDR) ;;;
  modify (set_Next NewHDR 0) ;;;
  modify (set_Length NewHDR (u64 (Len - HDR_SIZE))) ;;;
  modify (SegmentHeaderCombineBackward NewHDR).

(** The loop of [malloc]: [Some p] where the code returns, [None] where it
    leaves the loop at the end of the list. *)
Fixpoint malloc_scan (fuel : nat) (Current Size : Z) : M (heap V) (option Z) :=
  match fuel with
  | O => fun _ => NoFuel
  | S f =>
    fun s =>
    if IsFree s Current && (Size <? Length s Current) then
      let s := SegmentHeaderSplit Current Size s in
      Ret (Some (u64 (Current + HDR_SIZE))) (set_IsFree Current 0 s)
    else if IsFree s Current && (Length s Current =? Size) then
      Ret (Some (u64 (Current + HDR_SIZE))) (set_IsFree Current 0 s)
    else if Next s Current =? 0 then Ret None s
    else malloc_scan f (Next s Current) Size s
  end.

Definition round16 (Size : Z) : Z :=
  if 0 <? Size mod 16 then u64 (Size - Size mod 16 + 16) else Size.

(** [turns] bounds the calls [malloc] makes to itself after an expansion,
    [scan] the list it walks; three turns and one step per segment are
    enough (see [malloc_first_fit]). *)
Fixpoint malloc (turns scan : nat) (Size : Z) : M (heap V) Z :=
  match turns with
  | O => fun _ => NoFuel
  | S t =>
    let Size := round16 Size in
    if Size =? 0 then
      modify (fun s => set_vm (vputs (lit "Out of memory") (vm s)) s) ;;; done_
    else
      let* start := gets HeapStart in
      let* r := malloc_scan scan start Size in
      match r with
      | Some p => ret p
      | None => ExpandHeap Size ;;; malloc t scan Size
      end
  end.

Definition free (Address : Z) : M (heap V) unit :=
  let HDR := u64 (Address - HDR_SIZE) in
  modify (set_IsFree HDR 1) ;;;
  modify (SegmentHeaderCombineForward HDR) ;;;
  modify (SegmentHeaderCombineBackward HDR).

(** [CreateHeap(HeapAddress, PageCount)]. *)
Fixpoint create_map_loop (n : nat) (Position : Z) : M (heap V) unit :=
  match n with
  | O => ret tt
  | S n' => zoom vm set_vm (vmap Position) ;;; create_map_loop n' (u64 (Position + 4096))
  end.
Definition CreateHeap (HeapAddress PageCount : Z) : M (heap V) unit :=
  create_map_loop (Z.to_nat PageCount) HeapAddress ;;;
  let Len := u64 (PageCount * 4096) in
  modify (set_HeapStart HeapAddress) ;;;
  modify (set_HeapEnd (u64 (HeapAddress + Len))) ;;;
  modify (set_Length HeapAddress (u64 (Len - HDR_SIZE))) ;;;
  modify (set_Next HeapAddress 0) ;;;
  modify (set_Last HeapAddress 0) ;;;
  modify (set_IsFree HeapAddress 1) ;;;
  modify (set_LastHeapHDR HeapAddress).

(** [CreateHeap()]: the page of system data, cleared, and the heap. *)
Definition AddressOfSystemData : Z := 0xFFFFFFFFBFFFF000.
Fixpoint vmemset (n : nat) (a x : Z) (v : V) : V :=
  match n with
  | O => v
  | S n' => vmemset n' (a + 1) x (vst 1 v a x)
  end.
Definition CreateHeap_default : M (heap V) unit :=
  zoom vm set_vm (vmap AddressOfSystemData) ;;;
  modify (fun s => set_vm (vmemset 4096 AddressOfSystemData 0 (vm s)) s) ;;;
  CreateHeap 0xffffffffC0000000 512.

End Ops.

(** ** Specification: lists of segments *)

(** Header address, payload length, free or not. *)
Record seg := mkSeg { sa : Z; sl : Z; sf : bool }.

#[global] Instance seg_eq_dec : EqDecision seg.
Proof. solve_decision. Defined.

(** The segments [l] tile the addresses from [a] to [e]. *)
Fixpoint tiles (a : Z) (l : list seg) (e : Z) : Prop :=
  match l with
  | [] => a = e
  | x :: r => sa x = a /\ 16 <= sl x /\ sl x mod 16 = 0 /\ tiles (a + 32 + sl x) r e
  end.

Definition hd_addr (l : list seg) (d : Z) : Z := match l with [] => d | x :: _ => sa x end.
Definition last_addr (l : list seg) (d : Z) : Z := match last l with Some x => sa x | None => d end.

(** No two neighbours are free. *)
Fixpoint coalesced (l : list seg) : Prop :=
  match l with
  | x :: ((y :: _) as r) => (sf x = true -> sf y = false) /\ coalesced r
  | _ => True
  end.

(** The blocks in use. *)
Definition used (l : list seg) : list (Z * Z) :=
  (fun x => (sa x, sl x)) <$> filter (fun x => sf x = false) l.

(** First fit. *)
Definition cut (a n size : Z) : list seg :=
  if n - size - 32 <? 16 then [mkSeg a n false]
  else [mkSeg a size false; mkSeg (a + size + 32) (n - size - 32) true].
Fixpoint first_fit (size : Z) (l : list seg) : option (list seg * Z) :=
  match l with
  | [] => None
  | x :: r =>
    if sf x && (size <=? sl x) then Some (cut (sa x) (sl x) size ++ r, sa x + 32)
    else match first_fit size r with
         | Some (r', p) => Some (x :: r', p)
         | None => None
         end
  end.

(** *** Facts on tilings *)

Lemma tiles_app a l1 l2 e :
  tiles a (l1 ++ l2) e <-> exists m, tiles a l1 m /\ tiles m l2 e.
Proof.
  revert a. induction l1 as [|x l1 IH]; intros a; cbn [app tiles].
  - split; [intros; exists a; auto|]. intros (m & -> & ?). done.
  - split.
    + intros (? & ? & ? & Ht). apply IH in Ht as (m & ? & ?). exists m. auto 6.
    + intros (m & (? & ? & ? & ?) & ?). repeat split; auto. apply IH. eauto.
Qed.

Lemma tiles_le a l e : tiles a l e -> a <= e.
Proof.
  revert a. induction l as [|x l IH]; intros a; cbn [tiles]; [lia|].
  intros (? & ? & ? & Ht). specialize (IH _ Ht). lia.
Qed.

Lemma tiles_in a l e x :
  tiles a l e -> x ∈ l -> a <= sa x /\ sa x + 32 + sl x <= e /\ 16 <= sl x.
Proof.
  intros Ht Hin. apply list_elem_of_split in Hin as (l1 & l2 & ->).
  apply tiles_app in Ht as (m & Ht1 & Ht2). cbn [tiles] in Ht2.
  destruct Ht2 as (-> & ? & ? & Ht2).
  apply tiles_le in Ht1, Ht2. lia.
Qed.

Lemma last_addr_app l x d : last_addr (l ++ [x]) d = sa x.
Proof. unfold last_addr. by rewrite last_snoc. Qed.

Lemma last_addr_cons x l d : last_addr (x :: l) d = last_addr l (sa x).
Proof. unfold last_addr. rewrite last_cons. by destruct (last l). Qed.

Lemma last_addr_mid l1 x l2 d : last_addr (l1 ++ x :: l2) d = last_addr l2 (sa x).
Proof. revert d. induction l1; intros d; cbn [app]; rewrite ?last_addr_cons; auto. Qed.

Lemma last_addr_in l d : l <> [] -> exists x, x ∈ l /\ last_addr l d = sa x.
Proof.
  intros Hl. destruct (exists_last Hl) as (l' & x & ->). exists x.
  split; [set_solver|apply last_addr_app].
Qed.

Lemma used_app l1 l2 : used (l1 ++ l2) = used l1 ++ used l2.
Proof. unfold used. by rewrite filter_app, fmap_app. Qed.

Lemma used_cons x l : used (x :: l) = (if sf x then [] else [(sa x, sl x)]) ++ used l.
Proof. unfold used. rewrite filter_cons. destruct (sf x); case_decide; done. Qed.

Lemma coalesced_app_inv l1 l2 : coalesced (l1 ++ l2) -> coalesced l1 /\ coalesced l2.
Proof.
  induction l1 as [|x l1 IH]; cbn [app]; [done|]. intros Hc.
  destruct l1 as [|y l1]; cbn [app] in *.
  - split; [done|]. destruct l2; [done|]. apply Hc.
  - destruct Hc as [Hxy Hc]. destruct (IH Hc) as [H1 H2]. done.
Qed.

Lemma coalesced_join l1 x l2 :
  coalesced (l1 ++ [x]) -> coalesced (x :: l2) -> coalesced (l1 ++ x :: l2).
Proof.
  induction l1 as [|y l1 IH]; cbn [app]; [done|]. intros H1 H2.
  destruct l1 as [|z l1]; cbn [app] in *.
  - destruct H1 as [H1 _]. split; done.
  - destruct H1 as [Hyz H1]. split; [done|]. by apply IH.
Qed.

(** A segment in use separates: what stands on its two sides matters
    separately. *)
Lemma coalesced_used l1 x l2 :
  sf x = false -> coalesced l1 -> coalesced l2 -> coalesced (l1 ++ x :: l2).
Proof.
  intros Hx H1 H2. apply coalesced_join.
  - induction l1 as [|y l1 IH]; [done|]. destruct l1 as [|z l1]; cbn [app] in *; [by split|].
    destruct H1 as [? H1]. split; [done|]. by apply IH.
  - destruct l2; [done|]. split; [congruence|done].
Qed.

(** ** Headers in memory *)

Section Refine.
Context {V : Type} `{VMem V}.

(** The four fields of a header under one name: 0 Length, 1 Next, 2 Last,
    3 IsFree. *)
Definition off (k : nat) : Z := Z.of_nat k * 8.
Definition width (k : nat) : nat := match k with 3%nat => 1%nat | _ => 8%nat end.
Definition fget (k : nat) (s : heap V) (h : Z) : Z := vld (width k) (vm s) (h + off k).
Definition fset (k : nat) (h x : Z) (s : heap V) : heap V := set_vm (vst (width k) (vm s) (h + off k) x) s.

Definition ok_at (s : heap V) (h : Z) : Prop := forall i, 0 <= i < 32 -> vok (vm s) (h + i).

Lemma field_ok k s h i : (k < 4)%nat -> ok_at s h -> 0 <= i < Z.of_nat (width k) -> vok (vm s) (h + off k + i).
Proof.
  intros Hk Hok Hi. rewrite <- Z.add_assoc. apply Hok. unfold off.
  destruct k as [|[|[|[|]]]]; simpl in *; lia.
Qed.

Lemma fset_inv k h x s : (k < 4)%nat -> vinv (vm s) -> ok_at s h -> vinv (vm (fset k h x s)).
Proof. intros Hk Hi Ho. cbn. apply vst_inv; [done|]. intros i Hi'. by apply field_ok. Qed.

Lemma fset_ok k h x s h' :
  (k < 4)%nat -> vinv (vm s) -> ok_at s h -> ok_at s h' -> ok_at (fset k h x s) h'.
Proof.
  intros Hk Hi Ho Ho' i Hi'. cbn. apply vst_ok; [done| |by apply Ho'].
  intros j Hj. by apply field_ok.
Qed.

Definition apart (h h' : Z) : Prop := h + 32 <= h' \/ h' + 32 <= h.

Lemma fget_fset_eq k h x s :
  (k < 4)%nat -> vinv (vm s) -> ok_at s h ->
  fget k (fset k h x s) h = x mod 256 ^ Z.of_nat (width k).
Proof. intros Hk Hi Ho. unfold fget. cbn. apply vld_vst_eq; [done|]. intros i Hi'. by apply field_ok. Qed.

Lemma fget_fset_id k h x s :
  (k < 4)%nat -> vinv (vm s) -> ok_at s h -> 0 <= x < 256 ^ Z.of_nat (width k) ->
  fget k (fset k h x s) h = x.
Proof. intros. rewrite fget_fset_eq by done. by apply Z.mod_small. Qed.

Lemma fget_fset_field j k h x s :
  (j < 4)%nat -> (k < 4)%nat -> j <> k -> vinv (vm s) -> ok_at s h ->
  fget j (fset k h x s) h = fget j s h.
Proof.
  intros Hj Hk Hne Hi Ho. unfold fget. cbn. apply vld_vst_ne; [done|intros; by apply field_ok..|].
  unfold off. destruct j as [|[|[|[|]]]], k as [|[|[|[|]]]]; simpl; lia.
Qed.

Lemma fget_fset_apart j k h h' x s :
  (j < 4)%nat -> (k < 4)%nat -> apart h h' -> vinv (vm s) -> ok_at s h -> ok_at s h' ->
  fget j (fset k h x s) h' = fget j s h'.
Proof.
  intros Hj Hk Ha Hi Ho Ho'. unfold fget. cbn. apply vld_vst_ne; [done|intros; by apply field_ok..|].
  unfold off, apart in *. destruct j as [|[|[|[|]]]], k as [|[|[|[|]]]]; simpl; lia.
Qed.

Lemma fget_range k s h : 0 <= fget k s h < 256 ^ Z.of_nat (width k).
Proof. apply vld_range. Qed.

(** A byte outside the header is not touched. *)
Lemma vld_fset_out k h x s b :
  (k < 4)%nat -> vinv (vm s) -> ok_at s h -> vok (vm s) b -> b < h \/ h + 32 <= b ->
  vld 1 (vm (fset k h x s)) b = vld 1 (vm s) b.
Proof.
  intros Hk Hi Ho Hb Hout. cbn. apply vld_vst_ne; [done|intros; by apply field_ok|..].
  - intros i Hi'. replace i with 0 by (simpl in Hi'; lia). by rewrite Z.add_0_r.
  - unfold off. destruct k as [|[|[|[|]]]]; simpl; lia.
Qed.

(** The header of [x] between its neighbours. *)
Definition hdr (s : heap V) (x : seg) (prev nxt : Z) : Prop :=
  fget 0 s (sa x) = sl x /\ fget 1 s (sa x) = nxt /\ fget 2 s (sa x) = prev /\
  fget 3 s (sa x) = (if sf x then 1 else 0).

Fixpoint chain (s : heap V) (prev : Z) (l : list seg) (nxt : Z) : Prop :=
  match l with
  | [] => True
  | x :: r => hdr s x prev (hd_addr r nxt) /\ chain s (sa x) r nxt
  end.

Lemma chain_app s prev l1 l2 nxt :
  chain s prev (l1 ++ l2) nxt <->
  chain s prev l1 (hd_addr l2 nxt) /\ chain s (last_addr l1 prev) l2 nxt.
Proof.
  revert prev. induction l1 as [|x l1 IH]; intros prev.
  - cbn. tauto.
  - cbn [app chain]. rewrite IH, last_addr_cons.
    assert (E : hd_addr (l1 ++ l2) nxt = hd_addr l1 (hd_addr l2 nxt)) by (by destruct l1).
    rewrite E. tauto.
Qed.

Lemma hdr_ext s s' x prev nxt :
  (forall j, (j < 4)%nat -> fget j s' (sa x) = fget j s (sa x)) ->
  hdr s x prev nxt -> hdr s' x prev nxt.
Proof. intros E (? & ? & ? & ?). unfold hdr. rewrite !E by lia. done. Qed.

Lemma chain_ext s s' prev l nxt :
  (forall x j, x ∈ l -> (j < 4)%nat -> fget j s' (sa x) = fget j s (sa x)) ->
  chain s prev l nxt -> chain s' prev l nxt.
Proof.
  revert prev. induction l as [|x l IH]; intros prev E; [done|]. cbn [chain]. intros [Hx Hl]. split.
  - eapply hdr_ext; [|exact Hx]. intros j Hj. apply E; [left|done].
  - apply IH; [|done]. intros y j Hy Hj. apply E; [by right|done].
Qed.

(** The heap and the list of its segments. *)
Record wf (s : heap V) (l : list seg) : Prop := {
  wf_inv : vinv (vm s);
  wf_tiles : tiles (HeapStart s) l (HeapEnd s);
  wf_chain : chain s 0 l 0;
  wf_last : LastHeapHDR s = last_addr l 0;
  wf_start : 2 ^ 64 - 2 ^ 30 <= HeapStart s < HeapEnd s /\ HeapStart s mod 16 = 0;
  wf_end : HeapEnd s <= 2 ^ 64 - 8192 /\ HeapEnd s mod 4096 = 0;
  wf_ok b : HeapStart s <= b < HeapEnd s -> vok (vm s) b;
  wf_above b : HeapEnd s <= b < 2 ^ 64 -> ~ vok (vm s) b
}.

Lemma wf_ok_at s l x : wf s l -> x ∈ l -> ok_at s (sa x).
Proof.
  intros W Hx i Hi. destruct (tiles_in _ _ _ _ (wf_tiles _ _ W) Hx) as (? & ? & ?).
  apply (wf_ok _ _ W). lia.
Qed.

Lemma wf_ok_null s l : wf s l -> ok_at s 0.
Proof. intros W i Hi. apply vok_null; [apply W|lia]. Qed.

(** Two segments of a tiling are apart. *)
Lemma tiles_apart a l1 x l2 e :
  tiles a (l1 ++ x :: l2) e ->
  (forall y, y ∈ l1 -> sa y + 48 <= sa x) /\ (forall y, y ∈ l2 -> sa x + 32 + sl x <= sa y).
Proof.
  intros Ht. apply tiles_app in Ht as (m & Ht1 & Ht2). cbn [tiles] in Ht2.
  destruct Ht2 as (E & ? & ? & Ht2). split; intros y Hy.
  - destruct (tiles_in _ _ _ _ Ht1 Hy) as (? & ? & ?). lia.
  - destruct (tiles_in _ _ _ _ Ht2 Hy) as (? & ? & ?). lia.
Qed.

(** *** Operations as field updates *)

Lemma Length_f s h : Length s h = fget 0 s h.
Proof. unfold Length, fget, off. simpl. by rewrite Z.add_0_r. Qed.
Lemma Next_f s h : Next s h = fget 1 s h.
Proof. done. Qed.
Lemma Last_f s h : Last s h = fget 2 s h.
Proof. done. Qed.
Lemma IsFree_f s h : IsFree s h = negb (fget 3 s h =? 0).
Proof. done. Qed.
Lemma set_Length_f h x s : set_Length h x s = fset 0 h x s.
Proof. unfold set_Length, fset, off. simpl. by rewrite Z.add_0_r. Qed.
Lemma set_Next_f h x s : set_Next h x s = fset 1 h x s.
Proof. done. Qed.
Lemma set_Last_f h x s : set_Last h x s = fset 2 h x s.
Proof. done. Qed.
Lemma set_IsFree_f h x s : set_IsFree h x s = fset 3 h x s.
Proof. done. Qed.

Lemma fget_LastHeapHDR k a s h : fget k (set_LastHeapHDR a s) h = fget k s h.
Proof. done. Qed.

(** [s'] differs from [s] only in headers at the addresses [hs] (and in
    [LastHeapHDR]). *)
Record frame (hs : list Z) (s s' : heap V) : Prop := {
  fr_inv : vinv (vm s');
  fr_ok b : vok (vm s') b <-> vok (vm s) b;
  fr_pages : vpages (vm s') = vpages (vm s);
  fr_start : HeapStart s' = HeapStart s;
  fr_end : HeapEnd s' = HeapEnd s;
  fr_fget j h : (j < 4)%nat -> (forall a, a ∈ hs -> apart a h) -> ok_at s h -> fget j s' h = fget j s h;
  fr_byte b : vok (vm s) b -> (forall a, a ∈ hs -> b < a \/ a + 32 <= b) -> vld 1 (vm s') b = vld 1 (vm s) b
}.

Lemma frame_refl hs s : vinv (vm s) -> frame hs s s.
Proof. by split. Qed.

Lemma frame_ok_at hs s s' h : frame hs s s' -> ok_at s h -> ok_at s' h.
Proof. intros F Ho i Hi. apply (fr_ok _ _ _ F). by apply Ho. Qed.

Lemma frame_set hs s s' k h x :
  frame hs s s' -> (k < 4)%nat -> h ∈ hs -> ok_at s h -> frame hs s (fset k h x s').
Proof.
  intros F Hk Hh Ho. assert (Ho' := frame_ok_at _ _ _ _ F Ho). assert (Hi := fr_inv _ _ _ F).
  split; try apply F.
  - by apply fset_inv.
  - intros b. cbn. rewrite vst_ok by (intros; try apply field_ok; done). apply F.
  - cbn. rewrite vst_pages. apply F.
  - intros j h' Hj Ha Hh'. rewrite fget_fset_apart; [by apply F|done..| |done| |]; auto.
    by eapply frame_ok_at.
  - intros b Hb Ha. rewrite vld_fset_out; [by apply F|done..| | auto]. by apply F.
Qed.

Lemma frame_last hs s s' a : frame hs s s' -> frame hs s (set_LastHeapHDR a s').
Proof. intros F. split; apply F. Qed.

Lemma frame_weaken hs hs' s s' : frame hs s s' -> hs ⊆ hs' -> frame hs' s s'.
Proof. intros F Hsub. split; try apply F; intros; apply F; auto. Qed.

Lemma frame_trans hs s1 s2 s3 : frame hs s1 s2 -> frame hs s2 s3 -> frame hs s1 s3.
Proof.
  intros F G. split; try apply G.
  - intros b. rewrite (fr_ok _ _ _ G). apply F.
  - rewrite (fr_pages _ _ _ G). apply F.
  - rewrite (fr_start _ _ _ G). apply F.
  - rewrite (fr_end _ _ _ G). apply F.
  - intros. rewrite (fr_fget _ _ _ G); [by apply F|done..|]. by eapply frame_ok_at.
  - intros. rewrite (fr_byte _ _ _ G); [by apply F| |done]. by apply F.
Qed.

Lemma frame_chain hs s s' prev l nxt :
  frame hs s s' ->
  (forall x, x ∈ l -> ok_at s (sa x) /\ forall a, a ∈ hs -> apart a (sa x)) ->
  chain s prev l nxt -> chain s' prev l nxt.
Proof.
  intros F Ha. apply chain_ext. intros x j Hx Hj. destruct (Ha x Hx). by apply F.
Qed.

End Refine.

Ltac inlist := intros; set_unfold; lia.

(** Side conditions of the field lemmas. *)
Ltac fok :=
  repeat match goal with
  | |- vinv (vm (set_LastHeapHDR _ ?s)) => change (vinv (vm s))
  | |- ok_at (set_LastHeapHDR _ ?s) ?h => change (ok_at s h)
  | |- vinv (vm (fset _ _ _ _)) => apply fset_inv
  | |- ok_at (fset _ _ _ _) _ => apply fset_ok
  | |- vinv _ => assumption
  | |- ok_at _ _ => assumption
  | |- apart _ _ => first [assumption | unfold apart in *; lia]
  | |- (_ < _)%nat => apply Nat.ltb_lt; reflexivity
  | |- ?j <> ?k => discriminate
  | |- 0 <= _ < 256 ^ Z.of_nat (width _) => cbn [width]; lia
  end.
Ltac fsimp :=
  rewrite ?fget_LastHeapHDR;
  repeat match goal with
  | |- context [fget ?k (fset ?k ?h ?x ?s) ?h] =>
    rewrite (fget_fset_id k h x s) by fok; rewrite ?fget_LastHeapHDR
  | |- context [fget ?j (fset ?k ?h ?x ?s) ?h] =>
    rewrite (fget_fset_field j k h x s) by fok; rewrite ?fget_LastHeapHDR
  | |- context [fget ?j (fset ?k ?h ?x ?s) ?h'] =>
    rewrite (fget_fset_apart j k h h' x s) by fok; rewrite ?fget_LastHeapHDR
  end.
Ltac ffields :=
  repeat first
    [ rewrite Length_f | rewrite Next_f | rewrite Last_f | rewrite IsFree_f
    | rewrite set_Length_f | rewrite set_Next_f | rewrite set_Last_f | rewrite set_IsFree_f ].
Ltac fframe :=
  repeat first
    [ apply frame_last
    | apply frame_set; [|lia|set_solver|assumption]
    | apply frame_refl; assumption ].

Section Ops_spec.
Context {V : Type} `{VMem V}.

Lemma wf_frame hs (s s' : heap V) l l' :
  wf s l -> frame hs s s' -> tiles (HeapStart s) l' (HeapEnd s) -> chain s' 0 l' 0 ->
  LastHeapHDR s' = last_addr l' 0 -> wf s' l'.
Proof.
  intros W F Ht Hc Hl. split; rewrite ?(fr_start _ _ _ F), ?(fr_end _ _ _ F); try apply W; auto.
  - apply F.
  - intros b Hb. apply (fr_ok _ _ _ F). by apply W.
  - intros b Hb. rewrite (fr_ok _ _ _ F). by apply W.
Qed.

(** What the invariant says of one segment of the list. *)
Lemma wf_at (s : heap V) l1 x l2 :
  wf s (l1 ++ x :: l2) ->
  hdr s x (last_addr l1 0) (hd_addr l2 0) /\ ok_at s (sa x) /\
  2 ^ 64 - 2 ^ 30 <= sa x /\ sa x + 32 + sl x <= 2 ^ 64 - 8192 /\ 16 <= sl x /\ sl x mod 16 = 0.
Proof.
  intros W. assert (Hc := wf_chain _ _ W). apply chain_app in Hc as [_ [Hx _]].
  assert (Ht := wf_tiles _ _ W). assert (Hin : x ∈ l1 ++ x :: l2) by set_solver.
  destruct (tiles_in _ _ _ _ Ht Hin) as (? & ? & ?).
  destruct (wf_start _ _ W), (wf_end _ _ W).
  apply tiles_app in Ht as (m & _ & (_ & _ & ? & _)).
  split; [done|]. split; [by eapply wf_ok_at|]. repeat split; try lia.
Qed.

(** The segments outside the changed ones keep their headers. *)
Lemma wf_chain_l hs (s s' : heap V) l1 x l2 :
  wf s (l1 ++ x :: l2) -> frame hs s s' -> (forall a, a ∈ hs -> a = 0 \/ sa x <= a) ->
  chain s' 0 l1 (sa x).
Proof.
  intros W F Ha. assert (Hc := wf_chain _ _ W). apply chain_app in Hc as [Hc _].
  eapply frame_chain; [exact F| |exact Hc]. intros u Hu.
  destruct (tiles_in _ _ _ u (wf_tiles _ _ W)) as [? _]; [set_solver|]. destruct (wf_start _ _ W).
  destruct (tiles_apart _ _ _ _ _ (wf_tiles _ _ W)) as [Hap _]. specialize (Hap u Hu).
  split; [eapply wf_ok_at; [done|set_solver]|]. intros a Ha'. specialize (Ha a Ha'). unfold apart. lia.
Qed.

Lemma wf_chain_r hs (s s' : heap V) l1 x l2 :
  wf s (l1 ++ x :: l2) -> frame hs s s' -> (forall a, a ∈ hs -> a + 32 <= sa x + 32 + sl x) ->
  chain s' (sa x) l2 0.
Proof.
  intros W F Ha. assert (Hc := wf_chain _ _ W). apply chain_app in Hc as [_ [_ Hc]].
  eapply frame_chain; [exact F| |exact Hc]. intros u Hu.
  destruct (tiles_apart _ _ _ _ _ (wf_tiles _ _ W)) as [_ Hap]. specialize (Hap u Hu).
  split; [eapply wf_ok_at; [done|set_solver]|]. intros a Ha'. specialize (Ha a Ha'). unfold apart. lia.
Qed.

Definition merge (x y : seg) : seg := mkSeg (sa x) (sl x + 32 + sl y) (sf x).

Lemma tiles_merge a l1 x y l2 e :
  tiles a (l1 ++ x :: y :: l2) e -> tiles a (l1 ++ merge x y :: l2) e.
Proof.
  rewrite !tiles_app. intros (m & Ht1 & Ht2). exists m. split; [done|].
  cbn [tiles merge sa sl] in *. destruct Ht2 as (? & ? & ? & ? & ? & ? & Ht).
  repeat split; [done|lia|zdm; lia|].
  replace (m + 32 + (sl x + 32 + sl y)) with (m + 32 + sl x + 32 + sl y) by lia. done.
Qed.

Lemma combine_forward_eq (s : heap V) h n nn :
  fget 1 s h = n -> n <> 0 -> fget 3 s n = 1 -> fget 1 s n = nn ->
  SegmentHeaderCombineForward h s =
    (let b := if n =? LastHeapHDR s then set_LastHeapHDR h s else s in
     let c := if nn =? 0 then b else fset 2 nn h b in
     let d := fset 0 h (u64 (fget 0 c h + fget 0 c (fget 1 c h) + 32)) c in
     fset 1 h (fget 1 d (fget 1 d h)) d).
Proof.
  intros En Hn Hf Enn. unfold SegmentHeaderCombineForward. cbv zeta. ffields.
  rewrite En, Hf. cbn [Z.eqb negb]. destruct (Z.eqb_spec n 0) as [|_]; [lia|].
  destruct (n =? LastHeapHDR s); rewrite ?fget_LastHeapHDR, ?En, ?Enn;
    destruct (nn =? 0); cbn [negb]; done.
Qed.

Lemma combine_forward_merge (s : heap V) l1 x y l2 :
  wf s (l1 ++ x :: y :: l2) -> sf y = true ->
  let s' := SegmentHeaderCombineForward (sa x) s in
  wf s' (l1 ++ merge x y :: l2) /\ frame (sa x :: (match l2 with [] => [] | z :: _ => [sa z] end)) s s'.
Proof.
  intros W Hy s'.
  destruct (wf_at _ _ _ _ W) as ((Lx & Nx & Px & Fx) & Ox & ? & ? & ? & ?).
  assert (Hi := wf_inv _ _ W).
  assert (W2 := W). rewrite (cons_middle x), app_assoc in W2.
  destruct (wf_at _ _ _ _ W2) as ((Ly & Ny & Py & Fy) & Oy & ? & ? & ? & ?).
  assert (Hxy : sa y = sa x + 32 + sl x).
  { assert (Ht := wf_tiles _ _ W). apply tiles_app in Ht as (m & _ & Ht). cbn in Ht. lia. }
  rewrite Hy in Fy. cbn [hd_addr] in Nx.
  assert (Hlast := wf_last _ _ W). 
  subst s'. rewrite (combine_forward_eq _ _ _ _ Nx ltac:(lia) Fy Ny). clear Fy. cbv zeta.
  destruct l2 as [|z l2]; cbn [hd_addr].
  - cbn [Z.eqb] in *. 
    rewrite last_addr_mid in Hlast. change (LastHeapHDR s = sa y) in Hlast. rewrite Hlast, Z.eqb_refl. fsimp.
    rewrite Nx, Lx, Ly, u64_id by lia. fsimp. rewrite Ny. cbn [hd_addr].
    match goal with |- wf ?t _ /\ _ => assert (F : frame [sa x] s t) by fframe end.
    split; [|exact F]. eapply (wf_frame [sa x]); [exact W|exact F| | |by rewrite last_addr_mid]; [apply tiles_merge, W|].
    apply chain_app. split.
    + apply (wf_chain_l _ _ _ _ _ _ W F). inlist.
    + split; [|done]. unfold hdr. cbn [merge sa sl sf hd_addr]. fsimp. repeat split; auto; lia.
  - assert (W3 := W2). rewrite (cons_middle y), app_assoc in W3.
    destruct (wf_at _ _ _ _ W3) as ((Lz & Nz & Pz & Fz) & Oz & ? & ? & ? & ?).
    assert (Hyz : sa z = sa y + 32 + sl y).
    { assert (Ht := wf_tiles _ _ W). apply tiles_app in Ht as (m & _ & Ht). cbn in Ht. lia. }
    rewrite last_addr_mid in Hlast. cbn [app] in Hlast. rewrite !last_addr_cons in Hlast.
    destruct (Z.eqb_spec (sa y) (LastHeapHDR s)) as [E|_].
    { exfalso. rewrite <- (last_addr_cons z l2 (sa y)) in Hlast.
      destruct (last_addr_in (z :: l2) (sa y)) as (u & Hu & Eu); [done|].
      destruct (tiles_apart _ _ _ _ _ (wf_tiles _ _ W2)) as [_ Hap]. specialize (Hap u Hu). lia. }
    cbn [hd_addr] in Ny. destruct (Z.eqb_spec (sa z) 0) as [|_]; [lia|].
    fsimp. rewrite Nx, Lx. fsimp. rewrite Ly, u64_id by lia. fsimp. rewrite Ny.
    match goal with |- wf ?t _ /\ _ => assert (F : frame [sa x; sa z] s t) by fframe end.
    split; [|exact F]. eapply (wf_frame [sa x; sa z]); [exact W|exact F|apply tiles_merge, W| |].
    2: { cbn [LastHeapHDR fset set_vm]. rewrite last_addr_mid. by rewrite last_addr_cons. }
    apply chain_app. split.
    + apply (wf_chain_l _ _ _ _ _ _ W F). inlist.
    + split; [|split].
     * unfold hdr. cbn [merge sa sl sf hd_addr]. fsimp. repeat split; auto; lia.
     * unfold hdr. cbn [merge sa sl sf hd_addr]. fsimp. repeat split; auto; lia.
     * apply (wf_chain_r _ _ _ _ _ _ W3 F). inlist. 
Qed.
Lemma combine_forward_noop (s : heap V) l1 x l2 :
  wf s (l1 ++ x :: l2) -> match l2 with [] => True | y :: _ => sf y = false end ->
  SegmentHeaderCombineForward (sa x) s = s.
Proof.
  intros W Hy. destruct (wf_at _ _ _ _ W) as ((_ & Nx & _) & _).
  unfold SegmentHeaderCombineForward. ffields. rewrite Nx. destruct l2 as [|y l2]; [done|].
  assert (W2 := W). rewrite (cons_middle x), app_assoc in W2.
  destruct (wf_at _ _ _ _ W2) as ((_ & _ & _ & Fy) & _ & ? & _).
  cbn [hd_addr]. rewrite Fy, Hy. destruct (Z.eqb_spec (sa y) 0); [lia|done].
Qed.

(** All headers of a list. *)
Definition hdrs (l : list seg) : list Z := sa <$> l.

Definition fwd (x : seg) (l2 : list seg) : list seg :=
  match l2 with
  | y :: r => if sf y then merge x y :: r else x :: l2
  | [] => [x]
  end.

Lemma combine_forward_spec (s : heap V) l1 x l2 :
  wf s (l1 ++ x :: l2) ->
  let s' := SegmentHeaderCombineForward (sa x) s in
  wf s' (l1 ++ fwd x l2) /\ frame (hdrs (x :: l2)) s s'.
Proof.
  intros W s'. assert (Hi := wf_inv _ _ W). unfold fwd. destruct l2 as [|y l2].
  { subst s'. rewrite (combine_forward_noop _ _ _ _ W) by done. split; [done|by apply frame_refl]. }
  destruct (sf y) eqn:Hy.
  - destruct (combine_forward_merge _ _ _ _ _ W Hy) as [W' F]. split; [done|].
    eapply frame_weaken; [exact F|]. unfold hdrs. destruct l2; set_solver.
  - subst s'. rewrite (combine_forward_noop _ _ _ _ W) by done. split; [done|by apply frame_refl].
Qed.

Definition bwd (l1 : list seg) (x : seg) (l2 : list seg) : list seg :=
  match last l1 with
  | Some w => if sf w then removelast l1 ++ merge w x :: l2 else l1 ++ x :: l2
  | None => x :: l2
  end.

Lemma combine_backward_spec (s : heap V) l1 x l2 :
  wf s (l1 ++ x :: l2) -> sf x = true ->
  let s' := SegmentHeaderCombineBackward (sa x) s in
  wf s' (bwd l1 x l2) /\ frame (hdrs (l1 ++ x :: l2)) s s'.
Proof.
  intros W Hx s'. assert (Hi := wf_inv _ _ W).
  destruct (wf_at _ _ _ _ W) as ((_ & _ & Px & _) & _).
  subst s'. unfold SegmentHeaderCombineBackward, bwd. ffields. rewrite Px.
  destruct (decide (l1 = [])) as [->|Hne].
  { cbn [last last_addr app]. split; [done|by apply frame_refl]. }
  destruct (exists_last Hne) as (l0 & w & ->). rewrite last_addr_app, last_snoc, removelast_last.
  assert (W2 := W). rewrite <- app_assoc in W2. cbn [app] in W2.
  destruct (wf_at _ _ _ _ W2) as ((_ & _ & _ & Fw) & _ & ? & _). rewrite Fw.
  destruct (Z.eqb_spec (sa w) 0) as [|_]; [lia|].
  destruct (sf w); cbn [Z.eqb negb andb]; [|split; [done|by apply frame_refl]].
  destruct (combine_forward_spec _ _ _ _ W2) as [W' F]. cbn [fwd] in W'. rewrite Hx in W'.
  split; [done|]. eapply frame_weaken; [exact F|]. unfold hdrs. set_solver.
Qed.

(** [IsFree] of one segment. *)
Definition with_free (b : bool) (x : seg) : seg := mkSeg (sa x) (sl x) b.

Lemma set_IsFree_spec (s : heap V) l1 x l2 (b : bool) :
  wf s (l1 ++ x :: l2) ->
  let s' := set_IsFree (sa x) (if b then 1 else 0) s in
  wf s' (l1 ++ with_free b x :: l2) /\ frame [sa x] s s'.
Proof.
  intros W s'. assert (Hi := wf_inv _ _ W).
  destruct (wf_at _ _ _ _ W) as ((Lx & Nx & Px & Fx) & Ox & ? & ? & ? & ?).
  assert (F : frame [sa x] s s') by (subst s'; ffields; fframe).
  split; [|done]. subst s'. rewrite set_IsFree_f in *. eapply wf_frame; [exact W|exact F|..].
  - assert (Ht := wf_tiles _ _ W). by rewrite tiles_app in *.
  - apply chain_app. split; [apply (wf_chain_l _ _ _ _ _ _ W F); inlist|]. split.
    + unfold hdr. cbn [with_free sa sl sf]. by destruct b; fsimp.
    + cbn [with_free sa]. apply (wf_chain_r _ _ _ _ _ _ W F). inlist.
  - cbn. rewrite (wf_last _ _ W), !last_addr_mid. done.
Qed.


Definition splt (x : seg) (size : Z) : list seg :=
  if sl x - size - 32 <? 16 then [x]
  else [mkSeg (sa x) size (sf x); mkSeg (sa x + size + 32) (sl x - size - 32) (sf x)].

Lemma split_noop (s : heap V) l1 x l2 size :
  wf s (l1 ++ x :: l2) -> 0 <= size <= sl x -> sl x - size - 32 < 16 ->
  SegmentHeaderSplit (sa x) size s = s.
Proof.
  intros W Hs Hn. destruct (wf_at _ _ _ _ W) as ((Lx & _) & _ & ? & ? & ? & _).
  unfold SegmentHeaderSplit, HDR_SIZE. destruct (size <? 16); [done|].
  rewrite Length_f, Lx, (u64_id (sl x - size)), i64_sub by lia.
  destruct (Z.ltb_spec (sl x - size - 32) 16); [done|lia].
Qed.

(** The stores of [SegmentHeaderSplit]; with no next segment the first one
    goes through the null pointer. *)
Lemma split_eq (s : heap V) h size n len :
  fget 0 s h = len -> fget 1 s h = n -> 16 <= size -> 16 <= len - size - 32 -> len < 2 ^ 63 ->
  0 <= h -> h + len + 32 < 2 ^ 64 -> 0 <= n < 2 ^ 64 -> vinv (vm s) -> ok_at s h -> ok_at s n -> ok_at s (h + size + 32) ->
  apart n h -> apart n (h + size + 32) ->
  let new := h + size + 32 in
  let s' := fset 0 h size (fset 3 new (if fget 3 s h =? 0 then 0 else 1) (fset 0 new (len - size - 32)
             (fset 2 new h (fset 1 h new (fset 1 new n (fset 2 n new s)))))) in
  SegmentHeaderSplit h size s = if LastHeapHDR s =? h then set_LastHeapHDR new s' else s'.
Proof.
  intros El En Hs Hl Hb Hh Ht Hn Hi Oh On Onew Ha1 Ha2 new s'.
  unfold SegmentHeaderSplit, HDR_SIZE. destruct (Z.ltb_spec size 16); [lia|].
  rewrite Length_f, El, (u64_id (len - size)), i64_sub by lia.
  destruct (Z.ltb_spec (len - size - 32) 16); [lia|].
  rewrite (u64_id (len - size - 32)), (u64_id (h + size + 32)) by lia. fold new.
  cbv zeta. ffields. rewrite En. 
  assert (E : fget 1 (fset 2 n new s) h = n) by (rewrite fget_fset_apart by fok; done).
  rewrite E. subst new. fsimp. unfold s'. destruct (fget 3 s h =? 0); done.
Qed.

Lemma tiles_split a l1 x l2 e size :
  tiles a (l1 ++ x :: l2) e -> 16 <= size -> size mod 16 = 0 -> size <= sl x ->
  tiles a (l1 ++ splt x size ++ l2) e.
Proof.
  rewrite !tiles_app. intros (m & Ht1 & Ht2) ? ? ?. exists m. split; [done|].
  unfold splt. destruct (Z.ltb_spec (sl x - size - 32) 16); [done|].
  cbn [app tiles sa sl] in *. destruct Ht2 as (? & ? & ? & Ht).
  repeat split; [done|lia|lia|lia|lia|zdm; lia|].
  replace (m + 32 + size + 32 + (sl x - size - 32)) with (m + 32 + sl x) by lia. done.
Qed.

Lemma split_spec (s : heap V) l1 x l2 size :
  wf s (l1 ++ x :: l2) -> 16 <= size -> size mod 16 = 0 -> size <= sl x ->
  let s' := SegmentHeaderSplit (sa x) size s in
  wf s' (l1 ++ splt x size ++ l2) /\
  frame (match l2 with [] => 0 | z :: _ => sa z end :: hdrs (splt x size)) s s'.
Proof.
  intros W Hs Hm Hle s'. assert (Hi := wf_inv _ _ W). subst s'.
  assert (Ht := tiles_split _ _ _ _ _ _ (wf_tiles _ _ W) Hs Hm Hle). revert Ht. unfold splt.
  destruct (Z.ltb_spec (sl x - size - 32) 16).
  { intros _. rewrite (split_noop _ _ _ _ _ W) by lia. split; [done|by apply frame_refl]. }
  intros Ht. destruct (wf_at _ _ _ _ W) as ((Lx & Nx & Px & Fx) & Ox & ? & ? & ? & ?).
  assert (Onew : ok_at s (sa x + size + 32)).
  { intros i Hi'. apply (wf_ok _ _ W). destruct (tiles_in _ _ _ x (wf_tiles _ _ W)); [set_solver|]. lia. }
  assert (Hlast := wf_last _ _ W). rewrite last_addr_mid in Hlast.
  destruct l2 as [|z l2].
  - assert (O0 := wf_ok_null _ _ W).
    rewrite (split_eq s (sa x) size 0 (sl x)) by (first [assumption | lia | unfold apart; lia]).
    cbn [hd_addr last_addr last] in *. rewrite Hlast, Z.eqb_refl, Fx.
    cbn [app].
    match goal with |- wf ?t _ /\ _ => assert (F : frame [0; sa x; sa x + size + 32] s t) by fframe end.
    split; [|exact F]. eapply wf_frame; [exact W|exact F|exact Ht| |].
    2: { cbn [LastHeapHDR set_LastHeapHDR app]. by rewrite last_addr_mid. }
    apply chain_app. split; [apply (wf_chain_l _ _ _ _ _ _ W F); inlist|].
    repeat split; cbn [sa sl sf hd_addr]; destruct (sf x); cbn [Z.eqb]; fsimp; done || lia.
  - assert (W2 := W). rewrite (cons_middle x), app_assoc in W2.
    destruct (wf_at _ _ _ _ W2) as ((Lz & Nz & Pz & Fz) & Oz & ? & ? & ? & ?).
    assert (Hxz : sa z = sa x + 32 + sl x).
    { assert (Ht' := wf_tiles _ _ W). apply tiles_app in Ht' as (m & _ & Ht'). cbn in Ht'. lia. }
    rewrite (split_eq s (sa x) size (sa z) (sl x)) by (first [assumption | lia | unfold apart; lia]).
    destruct (Z.eqb_spec (LastHeapHDR s) (sa x)) as [E|_].
    { exfalso. destruct (last_addr_in (z :: l2) (sa x)) as (u & Hu & Eu); [done|].
      destruct (tiles_apart _ _ _ _ _ (wf_tiles _ _ W)) as [_ Hap]. specialize (Hap u Hu). lia. }
    cbn [hd_addr] in *. rewrite Fx. cbn [app].
    match goal with |- wf ?t _ /\ _ => assert (F : frame [sa z; sa x; sa x + size + 32] s t) by fframe end.
    split; [|exact F]. eapply wf_frame; [exact W|exact F|exact Ht| |].
    2: { cbn [LastHeapHDR fset set_vm]. rewrite Hlast, last_addr_mid. by rewrite !last_addr_cons. }
    apply chain_app. split; [apply (wf_chain_l _ _ _ _ _ _ W F); inlist|].
    split; [|split; [|split]].
    1-3: unfold hdr; cbn [sa sl sf hd_addr]; destruct (sf x); cbn [Z.eqb]; fsimp; repeat split; done || lia.
    apply (wf_chain_r _ _ _ _ _ _ W2 F). inlist.
Qed.


(** *** Scanning for a block *)

Lemma wf_ne (s : heap V) l : wf s l -> l <> [].
Proof. intros W ->. assert (Ht := wf_tiles _ _ W). destruct (wf_start _ _ W). cbn in Ht. lia. Qed.

Lemma cut_splt x size :
  sf x = true -> size <= sl x ->
  exists r, splt x size = with_free true (hd x (cut (sa x) (sl x) size)) :: r /\
    cut (sa x) (sl x) size = with_free false (hd x (splt x size)) :: r.
Proof.
  intros Hx Hs. unfold splt, cut. destruct (Z.ltb_spec (sl x - size - 32) 16).
  - exists []. destruct x; cbn in *; subst; done.
  - rewrite Hx. by eexists.
Qed.

Lemma take_block_spec (s : heap V) l1 x l2 size :
  wf s (l1 ++ x :: l2) -> sf x = true -> 16 <= size -> size mod 16 = 0 -> size <= sl x ->
  let s' := set_IsFree (sa x) 0 (SegmentHeaderSplit (sa x) size s) in
  wf s' (l1 ++ cut (sa x) (sl x) size ++ l2) /\
  frame (0 :: hdrs (cut (sa x) (sl x) size ++ l2)) s s'.
Proof.
  intros W Hx H1 H2 H3 s'.
  destruct (split_spec _ _ _ _ _ W H1 H2 H3) as [W1 F1].
  destruct (cut_splt x size Hx H3) as (r & E1 & E2).
  assert (Eh : sa (hd x (splt x size)) = sa x) by (unfold splt; by destruct (_ <? _)).
  assert (E3 : splt x size = hd x (splt x size) :: r) by (by rewrite E1).
  rewrite E3 in W1, F1. rewrite E2. cbn [app] in *.
  destruct (set_IsFree_spec _ _ _ _ false W1) as [W2 F2]. rewrite Eh in W2, F2.
  split; [exact W2|]. unfold hdrs in *. rewrite fmap_cons in *. cbn [with_free sa] in *. rewrite Eh in *.
  eapply frame_trans; eapply frame_weaken; [exact F1| |exact F2|].
  - rewrite fmap_app. destruct l2; set_solver.
  - set_solver.
Qed.

Lemma malloc_scan_spec (s : heap V) fuel l1 l2 size :
  wf s (l1 ++ l2) -> l2 <> [] -> (length l2 <= fuel)%nat -> 16 <= size -> size mod 16 = 0 ->
  match first_fit size l2 with
  | Some (l2', p) => exists s', malloc_scan fuel (hd_addr l2 0) size s = Ret (Some p) s' /\
      wf s' (l1 ++ l2') /\ frame (0 :: hdrs l2') s s'
  | None => malloc_scan fuel (hd_addr l2 0) size s = Ret None s
  end.
Proof.
  intros W Hne Hf Hs Hm. revert fuel l1 W Hf. induction l2 as [|x l2 IH]; [done|].
  intros [|fuel] l1 W Hf; [simpl in Hf; lia|]. cbn [first_fit hd_addr malloc_scan].
  destruct (wf_at _ _ _ _ W) as ((Lx & Nx & Px & Fx) & Ox & ? & ? & ? & ?).
  ffields. rewrite Lx, Fx, Nx.
  destruct (sf x && (size <=? sl x)) eqn:Hfit.
  - apply andb_prop in Hfit as [Hx Hle%Z.leb_le].
    destruct (take_block_spec _ _ _ _ _ W Hx Hs Hm Hle) as [W' F'].
    rewrite Hx. cbn [Z.eqb negb andb]. unfold HDR_SIZE. rewrite u64_id by lia.
    destruct (Z.ltb_spec size (sl x)); [by eexists|].
    assert (E : sl x = size) by lia. rewrite E, Z.eqb_refl. eexists. split; [done|].
    rewrite (split_noop _ _ _ _ _ W) in W', F' by lia. rewrite <- E at 1 3. done.
  - assert (Hno : negb ((if sf x then 1 else 0) =? 0) && (size <? sl x) = false /\
                  negb ((if sf x then 1 else 0) =? 0) && (sl x =? size) = false).
    { apply andb_false_iff in Hfit as [->|Hlt%Z.leb_gt]; [done|]. split; apply andb_false_iff; right; lia. }
    destruct Hno as [-> ->]. destruct l2 as [|y l2]; [done|].
    assert (W2 := W). rewrite (cons_middle x), app_assoc in W2.
    assert (IH' := IH ltac:(done) fuel _ W2 ltac:(simpl in *; lia)). cbn [hd_addr] in *.
    destruct (wf_at _ _ _ _ W2) as (_ & _ & ? & _). destruct (Z.eqb_spec (sa y) 0); [lia|].
    destruct (first_fit size (y :: l2)) as [[l2' p]|]; [|done].
    destruct IH' as (s' & E & W' & F'). exists s'. split; [done|]. rewrite <- app_assoc in W'. split; [done|].
    eapply frame_weaken; [exact F'|]. unfold hdrs. set_solver.
Qed.


(** *** Growing the heap *)

Record grown (n : Z) (s s' : heap V) : Prop := {
  gr_inv : vinv (vm s');
  gr_end : HeapEnd s' = HeapEnd s + n;
  gr_start : HeapStart s' = HeapStart s;
  gr_last : LastHeapHDR s' = LastHeapHDR s;
  gr_ok b : vok (vm s') b <-> vok (vm s) b \/ HeapEnd s <= b < HeapEnd s';
  gr_ld k b : (forall i, 0 <= i < Z.of_nat k -> vok (vm s) (b + i)) -> vld k (vm s') b = vld k (vm s) b;
  gr_pages : vpages (vm s) - n / 4096 <= vpages (vm s')
}.

Lemma map_loop_spec n (s : heap V) :
  vinv (vm s) -> 2 ^ 64 - 2 ^ 30 <= HeapEnd s -> HeapEnd s mod 4096 = 0 ->
  HeapEnd s + 4096 * Z.of_nat n <= 2 ^ 64 - 4096 ->
  (forall b, HeapEnd s <= b < 2 ^ 64 -> ~ vok (vm s) b) -> Z.of_nat n <= vpages (vm s) ->
  exists s', map_loop n s = Ret tt s' /\ grown (4096 * Z.of_nat n) s s'.
Proof.
  revert s. induction n as [|n IH]; intros s Hi Hlo Hal Hhi Hno Hp.
  { exists s. split; [done|]. split; try done; [lia| |zdm; lia]. intros b. split; [by left|]. intros [?|?]; [done|lia]. }
  cbn [map_loop].
  destruct (vmap_spec (vm s) (HeapEnd s)) as (v1 & E1 & Hi1 & Hp1 & Hok1 & Hld1); try done; try lia.
  { intros b Hb. apply Hno. lia. }
  set (s1 := set_HeapEnd (u64 (HeapEnd s + 4096)) (set_vm v1 s)).
  assert (Ee : HeapEnd s1 = HeapEnd s + 4096) by (unfold s1; cbn; apply u64_id; lia).
  destruct (IH s1) as (s' & E' & G); try done; try lia.
  { rewrite Ee. zdm; lia. }
  { intros b Hb. change (vm s1) with v1. rewrite Hok1, Ee in *. intros [Hb'|?]; [|lia]. revert Hb'. apply Hno. lia. }
  { change (vm s1) with v1. lia. }
  exists s'. split.
  { unfold gets, bind at 1. erewrite bind_ret by (by apply zoom_ret). exact E'. }
  destruct G as [G1 G2 G3 G4 G5 G6 G7]. change (vm s1) with v1 in *. split; auto.
  - lia.
  - intros b. rewrite G5, Hok1. split.
    + intros [[?|?]|?]; [by left|right; lia..].
    + intros [?|?]; [by auto|]. destruct (Z.lt_ge_cases b (HeapEnd s + 4096)); [left; right; lia|right; lia].
  - intros k b Hb. rewrite G6; [by apply Hld1|]. intros i Hi'. apply Hok1. left. auto.
  - change (vm s1) with v1 in *. zdm; lia.
Qed.

Lemma round_page_spec x :
  0 < x < 2 ^ 63 ->
  round_page x mod 4096 = 0 /\ x <= round_page x < x + 4096.
Proof.
  intros Hx. unfold round_page. destruct (Z.eqb_spec (x mod 4096) 0); cbn [negb].
  - zdm; lia.
  - rewrite (u64_id (x - x mod 4096)) by (zdm; lia). rewrite u64_id by (zdm; lia). zdm; lia.
Qed.

Lemma grown_fget n (s s' : heap V) j h :
  grown n s s' -> (j < 4)%nat -> ok_at s h -> fget j s' h = fget j s h.
Proof. intros G Hj Ho. apply G. intros i Hi. by apply field_ok. Qed.

(** The new pages as a segment behind the others. *)
Lemma append_spec (s t : heap V) l n :
  wf s l -> grown n s t -> 4096 <= n -> n mod 4096 = 0 -> HeapEnd s + n <= 2 ^ 64 - 8192 ->
  let e := HeapEnd s in let lst := LastHeapHDR s in
  let t' := fset 0 e (n - 32) (fset 1 e 0 (set_LastHeapHDR e (fset 1 lst e (fset 2 e lst (fset 3 e 1 t))))) in
  wf t' (l ++ [mkSeg e (n - 32) true]) /\ frame [e; lst] t t'.
Proof.
  intros W G Hn Hm Hend e lst t'.
  destruct (exists_last (wf_ne _ _ W)) as (l0 & w & El). subst l.
  assert (Hlast : lst = sa w) by (subst lst; rewrite (wf_last _ _ W); apply last_addr_app).
  destruct (wf_at _ _ _ _ W) as ((Lw & Nw & Pw & Fw) & Ow & ? & ? & ? & ?).
  destruct (wf_start _ _ W), (wf_end _ _ W).
  assert (Hw : sa w + 32 + sl w = e).
  { assert (Ht := wf_tiles _ _ W). apply tiles_app in Ht as (m & _ & Ht). cbn in Ht. lia. }
  assert (Hi := gr_inv _ _ _ G). assert (Hge := gr_end _ _ _ G). fold e in Hge.
  assert (Oe : ok_at t e) by (intros i Hi'; apply (gr_ok _ _ _ G); right; lia).
  assert (Ot : ok_at t lst) by (rewrite Hlast; intros i Hi'; apply (gr_ok _ _ _ G); left; by apply Ow).
  assert (F : frame [e; lst] t t') by (subst t'; fframe).
  split; [|done]. split; try (rewrite ?(fr_start _ _ _ F), ?(fr_end _ _ _ F), ?(gr_start _ _ _ G), ?Hge; auto; try lia).
  - apply F.
  - apply tiles_app. exists e. split; [apply W|]. cbn [tiles sa sl]. repeat split; [lia|zdm; lia|lia].
  - rewrite <- app_assoc. cbn [app]. apply chain_app. split; [|split; [|split; [|done]]].
    + eapply frame_chain; [exact F| |].
      * intros u Hu. destruct (tiles_apart _ _ _ _ _ (wf_tiles _ _ W)) as [Hap _]. specialize (Hap u Hu).
        split; [|rewrite Hlast; unfold apart; inlist].
        assert (Ou := wf_ok_at _ _ u W ltac:(set_solver)). intros i Hi'. apply (gr_ok _ _ _ G). left. by apply Ou.
      * assert (Hc := wf_chain _ _ W). apply chain_app in Hc as [Hc _].
        eapply chain_ext; [|exact Hc]. intros u j Hu Hj. apply (grown_fget _ _ _ _ _ G Hj).
        eapply wf_ok_at; [exact W|set_solver].
    + unfold hdr. cbn [hd_addr sa]. subst t'. rewrite Hlast in *. fsimp.
      rewrite !(grown_fget _ _ _ _ _ G) by (done || lia). done.
    + unfold hdr. cbn [hd_addr sa sl sf]. subst t'. rewrite Hlast in *. fsimp. done.
  - by rewrite last_addr_app.
  - split; [done|zdm; lia].
  - intros b Hb. apply (fr_ok _ _ _ F), (gr_ok _ _ _ G). 
    destruct (Z.lt_ge_cases b e); [left; apply (wf_ok _ _ W); lia|right; lia].
  - intros b Hb. rewrite (fr_ok _ _ _ F), (gr_ok _ _ _ G). intros [Hb'|?]; [|lia].
    revert Hb'. apply (wf_above _ _ W). lia.
Qed.


(** *** What clients keep *)

Lemma used_elem l a n : (a, n) ∈ used l <-> mkSeg a n false ∈ l.
Proof.
  unfold used. rewrite list_elem_of_fmap. split.
  - intros ([a' n' f] & E & Hin). apply list_elem_of_filter in Hin as [Hf Hin]. cbn in *. by simplify_eq.
  - intros Hin. exists (mkSeg a n false). split; [done|]. by apply list_elem_of_filter.
Qed.

(** The contents of the blocks in use are the same in [s] and [s']. *)
Definition kept (l : list seg) (s s' : heap V) : Prop :=
  forall a n b, (a, n) ∈ used l -> a + 32 <= b < a + 32 + n -> vld 1 (vm s') b = vld 1 (vm s) b.

Lemma payload_apart a l e x b h :
  32 <= a -> tiles a l e -> x ∈ l -> sa x + 32 <= b < sa x + 32 + sl x -> h ∈ 0 :: hdrs l ->
  b < h \/ h + 32 <= b.
Proof.
  intros Ha Ht Hx Hb Hh. apply list_elem_of_split in Hx as (l1 & l2 & ->).
  destruct (tiles_in _ _ _ x Ht) as (? & _); [set_solver|].
  destruct (tiles_apart _ _ _ _ _ Ht) as [H1 H2].
  apply elem_of_cons in Hh as [->|Hh]; [lia|]. unfold hdrs in Hh. apply list_elem_of_fmap in Hh as (y & -> & Hy).
  apply elem_of_app in Hy as [Hy|[->|Hy]%elem_of_cons].
  - specialize (H1 y Hy). lia.
  - lia.
  - specialize (H2 y Hy). lia.
Qed.

Lemma frame_kept hs (s s' : heap V) l l' :
  wf s l -> frame hs s s' -> tiles (HeapStart s) l' (HeapEnd s) -> hs ⊆ 0 :: hdrs l' ->
  used l ⊆ used l' -> kept l s s'.
Proof.
  intros W F Ht Hhs Hu a n b Hin Hb. apply (fr_byte _ _ _ F).
  - apply used_elem in Hin. destruct (tiles_in _ _ _ _ (wf_tiles _ _ W) Hin) as (? & ? & _). cbn in *.
    apply (wf_ok _ _ W). lia.
  - intros h Hh. assert (Hin' := Hu _ Hin). apply used_elem in Hin, Hin'.
    destruct (wf_start _ _ W).
    apply (payload_apart (HeapStart s) l' (HeapEnd s) (mkSeg a n false)); try done; [lia|auto].
Qed.

Lemma kept_trans l l' s1 s2 s3 : kept l s1 s2 -> used l ⊆ used l' -> kept l' s2 s3 -> kept l s1 s3.
Proof. intros K1 Hu K2 a n b Hin Hb. rewrite (K2 a n b); [by apply (K1 a n b)|by apply Hu|done]. Qed.

Lemma used_bwd l1 x : sf x = true -> used (bwd l1 x []) = used l1.
Proof.
  intros Hx. unfold bwd. destruct (decide (l1 = [])) as [->|Hne]; [cbn [last]; by rewrite used_cons, Hx|].
  destruct (exists_last Hne) as (l0 & w & ->). rewrite last_snoc, removelast_last.
  destruct (sf w) eqn:Hw; rewrite !used_app, !used_cons; cbn [merge sf]; rewrite ?Hx, Hw; cbn [app].
  - done.
  - by rewrite !app_nil_r.
Qed.

(** The list after an expansion by [n] bytes at [e]. *)
Definition grow (l : list seg) (e n : Z) : list seg := bwd l (mkSeg e (n - 32) true) [].

Lemma ExpandHeap_spec (s : heap V) l len :
  let n := round_page len in
  wf s l -> 0 < len < 2 ^ 30 -> HeapEnd s + n <= 2 ^ 64 - 8192 -> n / 4096 <= vpages (vm s) ->
  exists s', ExpandHeap len s = Ret tt s' /\ wf s' (grow l (HeapEnd s) n) /\ HeapStart s' = HeapStart s /\
    HeapEnd s' = HeapEnd s + n /\ vpages (vm s) - n / 4096 <= vpages (vm s') /\ kept l s s'.
Proof.
  intros n W Hlen Hend Hp. destruct (round_page_spec len) as [Hm Hr]; [lia|]. fold n in Hm, Hr.
  destruct (wf_start _ _ W), (wf_end _ _ W).
  assert (H4 : 4096 <= n) by (zdm; lia).
  assert (En : 4096 * Z.of_nat (Z.to_nat (n / 4096)) = n) by (zdm; lia).
  destruct (map_loop_spec (Z.to_nat (n / 4096)) s) as (t & Et & G); try lia; [apply W|apply W|].
  rewrite En in G. destruct (append_spec _ _ _ _ W G H4 Hm Hend) as [W1 F1].
  set (t' := fset 0 _ _ _) in W1, F1.
  destruct (combine_backward_spec _ _ _ _ W1 eq_refl) as [W2 F2]. cbn [sa] in W2, F2.
  set (s' := SegmentHeaderCombineBackward _ _) in W2, F2. exists s'. split.
  { unfold ExpandHeap. fold n. unfold gets at 1. unfold bind at 1. erewrite bind_ret by exact Et.
    unfold bind, modify, gets. ffields. unfold HDR_SIZE. rewrite u64_id by lia.
    cbn [LastHeapHDR fset set_vm]. rewrite (gr_last _ _ _ G). done. }
  split; [exact W2|]. rewrite (fr_start _ _ _ F2), (fr_end _ _ _ F2), (fr_pages _ _ _ F2),
    (fr_start _ _ _ F1), (fr_end _ _ _ F1), (fr_pages _ _ _ F1), (gr_start _ _ _ G), (gr_end _ _ _ G).
  repeat split; [apply G|]. 
  assert (Hu : used l ⊆ used (l ++ [mkSeg (HeapEnd s) (n - 32) true])) by (rewrite used_app; set_solver).
  assert (K1 : kept l s t').
  { intros a k b Hin Hb. assert (Hin' := Hin). apply used_elem in Hin'.
    destruct (tiles_in _ _ _ _ (wf_tiles _ _ W) Hin') as (? & ? & _). cbn in *.
    assert (Hb' : vok (vm s) b) by (apply (wf_ok _ _ W); lia).
    rewrite (fr_byte _ _ _ F1).
    - apply (gr_ld _ _ _ G). intros i Hi. replace (b + i) with b by lia. done.
    - apply (gr_ok _ _ _ G). by left.
    - intros h Hh. assert (Hcase : h = HeapEnd s \/ h = LastHeapHDR s) by set_solver. destruct Hcase as [->| ->]; [lia|].
      rewrite (wf_last _ _ W). destruct (last_addr_in l 0 (wf_ne _ _ W)) as (w & Hw & ->).
      apply (payload_apart (HeapStart s) l (HeapEnd s) (mkSeg a k false)); try done; [lia|apply W|].
      apply elem_of_cons. right. unfold hdrs. apply list_elem_of_fmap. eauto. }
  eapply kept_trans; [exact K1|exact Hu|].
  eapply frame_kept; [exact W1|exact F2|apply W1|by apply list_subseteq_cons|done].
Qed.


(** *** First fit on lists *)

Lemma used_cut a n size r : used (cut a n size ++ r) = (a, if n - size - 32 <? 16 then n else size) :: used r.
Proof. unfold cut. by destruct (_ <? _). Qed.

Lemma first_fit_used size l l' p :
  first_fit size l = Some (l', p) ->
  exists n, size <= n < size + 48 /\ used l' ≡ₚ (p - 32, n) :: used l.
Proof.
  revert l'. induction l as [|x l IH]; intros l'; cbn [first_fit]; [done|].
  destruct (sf x && (size <=? sl x)) eqn:Hfit.
  - apply andb_prop in Hfit as [Hx Hle%Z.leb_le]. intros [= <- <-].
    rewrite used_cut, (used_cons x), Hx. replace (sa x + 32 - 32) with (sa x) by lia.
    eexists. split; [|done]. destruct (Z.ltb_spec (sl x - size - 32) 16); lia.
  - destruct (first_fit size l) as [[r' q]|]; [|done]. intros [= <- <-].
    destruct (IH _ eq_refl) as (n & Hn & Hp). exists n. split; [done|].
    rewrite !used_cons, Hp. destruct (sf x); cbn [app]; [done|]. apply Permutation_swap.
Qed.

Lemma first_fit_head size l l' p : first_fit size l = Some (l', p) ->
  match l, l' with x :: _, y :: _ => sf x = false -> sf y = false | _, _ => True end.
Proof.
  destruct l as [|x l]; cbn [first_fit]; [done|]. destruct (sf x && (size <=? sl x)) eqn:Hfit.
  - intros [= <- <-]. unfold cut. by destruct (_ <? _).
  - destruct (first_fit size l) as [[r' q]|]; [|done]. by intros [= <- <-].
Qed.

Lemma first_fit_coalesced size l l' p :
  first_fit size l = Some (l', p) -> coalesced l -> coalesced l'.
Proof.
  revert l'. induction l as [|x l IH]; intros l'; cbn [first_fit]; [done|].
  destruct (sf x && (size <=? sl x)) eqn:Hfit.
  - apply andb_prop in Hfit as [Hx _]. intros [= <- <-] Hc.
    assert (Hl : coalesced (mkSeg 0 0 false :: l)) by (destruct l; [done|]; split; [done|apply Hc]).
    unfold cut. destruct (_ <? _); destruct l as [|y l]; cbn [app] in *; cbn; destruct Hc; repeat split; auto.
  - destruct (first_fit size l) as [[r' q]|] eqn:Ef; [|done]. intros [= <- <-] Hc.
    assert (Hh := first_fit_head _ _ _ _ Ef). destruct l as [|y l]; [done|]. destruct Hc as [Hxy Hc].
    specialize (IH _ eq_refl Hc). destruct r' as [|y' r']; [done|]. split; auto.
Qed.

Lemma first_fit_None size l x : first_fit size l = None -> x ∈ l -> sf x = true -> sl x < size.
Proof.
  induction l as [|y l IH]; cbn [first_fit]; intros Hf Hx Hfree; [set_solver|].
  destruct (sf y && (size <=? sl y)) eqn:Hfit; [done|].
  destruct (first_fit size l) as [[? ?]|]; [done|].
  apply elem_of_cons in Hx as [->|Hx]; [|auto].
  rewrite Hfree in Hfit. cbn in Hfit. by apply Z.leb_gt in Hfit.
Qed.


(** An expansion ends the list with a free segment that holds the new bytes,
    and the bytes of a free last segment before them. *)
Lemma grow_free l e n :
  Forall (fun x => 0 <= sl x) l ->
  exists x, last (grow l e n) = Some x /\ sf x = true /\ n - 32 <= sl x /\
    match last l with Some w => sf w = true -> sl x = sl w + n | None => True end.
Proof.
  intros Hl. unfold grow, bwd. destruct (decide (l = [])) as [->|Hne].
  { eexists. split; [reflexivity|]. cbn [sf sl]. split; [done|]. split; [lia|done]. }
  destruct (exists_last Hne) as (l0 & w & ->). rewrite last_snoc, removelast_last.
  apply Forall_app in Hl as [_ Hw]. apply Forall_cons in Hw as [Hw _].
  destruct (sf w) eqn:Ew; rewrite last_snoc; eexists; (split; [done|]); cbn [merge sf sl]; repeat split; auto; lia || congruence.
Qed.

Lemma grow_coalesced l e n : coalesced l -> coalesced (grow l e n).
Proof.
  intros Hc. unfold grow, bwd. destruct (decide (l = [])) as [->|Hne]; [done|].
  destruct (exists_last Hne) as (l0 & w & ->). rewrite last_snoc, removelast_last. destruct (sf w) eqn:Ew.
  - clear Hne. induction l0 as [|y l0 IH]; [done|]. destruct l0 as [|z l0]; cbn [app] in *.
    + destruct Hc as [Hyw _]. split; [|done]. cbn. intros Hy. specialize (Hyw Hy). congruence.
    + destruct Hc as [Hyz Hc]. split; [done|]. by apply IH.
  - rewrite <- app_assoc. cbn [app]. apply coalesced_used; [done| |done]. by apply coalesced_app_inv in Hc as [? _].
Qed.

Lemma length_grow l e n : (length (grow l e n) <= length l + 1)%nat.
Proof.
  unfold grow, bwd. destruct (decide (l = [])) as [->|Hne]; [done|].
  destruct (exists_last Hne) as (l0 & w & ->). rewrite last_snoc, removelast_last.
  destruct (sf w); rewrite !length_app; simpl; lia.
Qed.


(** *** [malloc] and [free] *)

Lemma round16_spec x : 0 < x < 2 ^ 63 -> round16 x mod 16 = 0 /\ x <= round16 x < x + 16 /\ 16 <= round16 x.
Proof.
  intros Hx. unfold round16. destruct (Z.ltb_spec 0 (x mod 16)).
  - rewrite u64_id by (zdm; lia). zdm; lia.
  - zdm; lia.
Qed.

Lemma round16_id x : x mod 16 = 0 -> round16 x = x.
Proof. intros E. unfold round16. by rewrite E. Qed.

Lemma hd_addr_start (s : heap V) l : wf s l -> hd_addr l 0 = HeapStart s.
Proof.
  intros W. assert (Ht := wf_tiles _ _ W). assert (Hn := wf_ne _ _ W). destruct l; [done|]. by destruct Ht.
Qed.

(** One call of [malloc] up to its call to itself. *)
Lemma malloc_turn (s : heap V) l t scan size :
  let n := round_page size in
  wf s l -> (length l <= scan)%nat -> 16 <= size < 2 ^ 30 -> size mod 16 = 0 ->
  match first_fit size l with
  | Some (l', p) => exists s', malloc (S t) scan size s = Ret p s' /\ wf s' l' /\ kept l s s' /\
      HeapStart s' = HeapStart s /\ vpages (vm s') = vpages (vm s)
  | None => HeapEnd s + n <= 2 ^ 64 - 8192 -> n / 4096 <= vpages (vm s) ->
      exists s', malloc (S t) scan size s = malloc t scan size s' /\ wf s' (grow l (HeapEnd s) n) /\
        HeapEnd s' = HeapEnd s + n /\ vpages (vm s) - n / 4096 <= vpages (vm s') /\ kept l s s'
  end.
Proof.
  intros n W Hsc Hs Hm. assert (Hr := round16_id _ Hm). cbn [malloc]. rewrite Hr.
  destruct (Z.eqb_spec size 0) as [|_]; [lia|].
  assert (Hscan := malloc_scan_spec s scan [] l size W (wf_ne _ _ W) Hsc ltac:(lia) Hm).
  rewrite (hd_addr_start _ _ W) in Hscan. unfold gets. unfold bind at 1 4.
  destruct (first_fit size l) as [[l' p]|] eqn:Ef.
  - destruct Hscan as (s' & E & W' & F). exists s'. rewrite (bind_ret _ _ _ _ _ E). split; [done|]. split; [done|].
    split; [|split; apply F]. destruct (first_fit_used _ _ _ _ Ef) as (k & _ & Hp).
    eapply (frame_kept _ _ _ _ l'); [exact W|exact F| |done|].
    + rewrite <- (fr_start _ _ _ F), <- (fr_end _ _ _ F). apply W'.
    + intros x Hx. rewrite Hp. set_solver.
  - intros He Hv. destruct (ExpandHeap_spec s l size W) as (s' & E & W' & _ & E' & Hv' & K); [lia|done..|].
    exists s'. rewrite (bind_ret _ _ _ _ _ Hscan), (bind_ret _ _ _ _ _ E). done.
Qed.

(** Two expansions are enough for any size. *)
Lemma grow_twice_fits (s0 s1 : heap V) l e e' size n :
  wf s0 l -> wf s1 (grow l e n) -> n = round_page size -> 16 <= size < 2 ^ 30 ->
  first_fit size (grow (grow l e n) e' n) <> None.
Proof.
  intros W0 W1 En Hs Hf. destruct (round_page_spec size) as [Hm Hr]; [lia|]. rewrite <- En in Hm, Hr.
  assert (Hall : forall (s : heap V) k, wf s k -> Forall (fun x => 0 <= sl x) k).
  { intros s k W. apply Forall_forall. intros x Hx. destruct (tiles_in _ _ _ _ (wf_tiles _ _ W) Hx). lia. }
  destruct (grow_free l e n (Hall _ _ W0)) as (x & Hx & Fx & Lx & _).
  destruct (grow_free (grow l e n) e' n (Hall _ _ W1)) as (y & Hy & Fy & Ly & Ey).
  rewrite Hx in Ey. specialize (Ey Fx).
  assert (Hlt := first_fit_None _ _ y Hf ltac:(by apply last_Some_elem_of) Fy). zdm; lia.
Qed.

Lemma used_grow l e n : used (grow l e n) = used l.
Proof. by apply used_bwd. Qed.

Lemma malloc_round t scan Size s :
  round16 Size mod 16 = 0 -> malloc (S t) scan Size s = malloc (S t) scan (round16 Size) s.
Proof. intros Hm. cbn [malloc]. by rewrite (round16_id (round16 Size)). Qed.

Lemma malloc_spec (s : heap V) l scan Size :
  let size := round16 Size in let n := round_page size in
  wf s l -> coalesced l -> 0 < Size < 2 ^ 29 -> (length l + 2 <= scan)%nat ->
  HeapEnd s + 2 * n <= 2 ^ 64 - 8192 -> 2 * (n / 4096) <= vpages (vm s) ->
  exists p s' l' k, malloc 3 scan Size s = Ret p s' /\ wf s' l' /\ coalesced l' /\ kept l s s' /\
    size <= k < size + 48 /\ used l' ≡ₚ (p - 32, k) :: used l /\
    (forall r, first_fit size l = Some r -> r = (l', p)).
Proof.
  intros size n W Hc HS Hsc He Hv.
  destruct (round16_spec Size) as (Hm & Hr & H16); [lia|]. fold size in Hm, Hr, H16.
  destruct (round_page_spec size) as [Hpm Hpr]; [lia|]. fold n in Hpm, Hpr.
  assert (Hn0 : 0 <= n / 4096) by (apply Z.div_pos; lia).
  rewrite malloc_round by done. fold size.
  assert (Hfin : forall sk lk l' p s' t, used lk = used l -> coalesced lk -> kept l s sk ->
            kept lk sk s' -> wf s' l' -> first_fit size lk = Some (l', p) ->
            malloc (S t) scan size sk = Ret p s' ->
            coalesced l' /\ kept l s s' /\ exists k, size <= k < size + 48 /\ used l' ≡ₚ (p - 32, k) :: used l).
  { intros sk lk l' p s' t Eu Hck Kk K W' Ef E. split; [by eapply first_fit_coalesced|].
    split; [eapply kept_trans; [exact Kk|rewrite Eu; done|exact K]|]. rewrite <- Eu. by apply first_fit_used. }
  assert (K0 : kept l s s) by done.
  assert (T0 := malloc_turn s l 2 scan size W ltac:(lia) ltac:(lia) Hm).
  destruct (first_fit size l) as [[l' p]|] eqn:Ef0.
  { destruct T0 as (s' & E & W' & K & _). destruct (Hfin s l l' p s' 2%nat) as (? & ? & k & ? & ?); try done.
    exists p, s', l', k. split_and!; try done; try lia. by intros r [= <-]. }
  destruct T0 as (s1 & E1 & W1 & He1 & Hv1 & K1); [fold n; lia..|]. fold n in W1, He1, Hv1.
  set (l1 := grow l (HeapEnd s) n) in *.
  assert (Hc1 : coalesced l1) by (by apply grow_coalesced).
  assert (Hu1 : used l1 = used l) by apply used_grow.
  assert (Hl1 := length_grow l (HeapEnd s) n). fold l1 in Hl1.
  assert (T1 := malloc_turn s1 l1 1 scan size W1 ltac:(lia) ltac:(lia) Hm).
  destruct (first_fit size l1) as [[l' p]|] eqn:Ef1.
  { destruct T1 as (s' & E & W' & K & _). destruct (Hfin s1 l1 l' p s' 1%nat) as (? & ? & k & ? & ?); try done.
    exists p, s', l', k. split_and!; try done; try lia. by rewrite E1, E. }
  destruct T1 as (s2 & E2 & W2 & He2 & Hv2 & K2); [fold n; lia..|]. fold n in W2, He2, Hv2.
  set (l2 := grow l1 (HeapEnd s1) n) in *.
  assert (Hc2 : coalesced l2) by (by apply grow_coalesced).
  assert (Hu2 : used l2 = used l) by (rewrite <- Hu1; apply used_grow).
  assert (Hl2 := length_grow l1 (HeapEnd s1) n). fold l2 in Hl2.
  assert (T2 := malloc_turn s2 l2 0 scan size W2 ltac:(lia) ltac:(lia) Hm).
  destruct (first_fit size l2) as [[l' p]|] eqn:Ef2.
  - destruct T2 as (s' & E & W' & K & _). destruct (Hfin s2 l2 l' p s' 0%nat) as (? & ? & k & ? & ?); try done.
    { eapply kept_trans; [exact K1|by rewrite Hu1|exact K2]. }
    exists p, s', l', k. split_and!; try done; try lia. by rewrite E1, E2, E.
  - exfalso. apply (grow_twice_fits s s1 l (HeapEnd s) (HeapEnd s1) size n); auto; lia.
Qed.


Lemma free_list_spec (s : heap V) l1 x l2 :
  wf s (l1 ++ x :: l2) -> sf x = false ->
  exists s' y r, free (sa x + 32) s = Ret tt s' /\ fwd (with_free true x) l2 = y :: r /\
    wf s' (bwd l1 y r) /\ kept (l1 ++ x :: l2) s s'.
Proof.
  intros W Hx. destruct (wf_at _ _ _ _ W) as (_ & _ & ? & ? & ? & _).
  destruct (set_IsFree_spec _ _ _ _ true W) as [W1 F1].
  destruct (combine_forward_spec _ _ _ _ W1) as [W2 F2].
  assert (exists y r, fwd (with_free true x) l2 = y :: r /\ sa y = sa x /\ sf y = true /\ hdrs (y :: r) ⊆ hdrs (x :: l2))
    as (y & r & Ef & Ey & Fy & Hr).
  { unfold fwd, hdrs. destruct l2 as [|z l2]; [|destruct (sf z)]; do 2 eexists; (split; [done|]);
      cbn; repeat split; set_solver. }
  rewrite Ef in W2. destruct (combine_backward_spec _ _ _ _ W2 Fy) as [W3 F3]. rewrite Ey in W3, F3.
  eexists _, y, r. split; [|split; [exact Ef|split; [exact W3|]]].
  { unfold free, HDR_SIZE. replace (u64 (sa x + 32 - 32)) with (sa x) by (rewrite u64_id; lia). done. }
  eapply frame_kept; [exact W| |apply W|done|done].
  eapply frame_trans; [eapply frame_weaken; [exact F1|]|eapply frame_trans; eapply frame_weaken; [exact F2| |exact F3|]];
    unfold hdrs in *; cbn [with_free sa fmap list_fmap] in *; rewrite ?fmap_app in *; set_solver.
Qed.


Lemma used_merge_free w x l2 : sf w = true -> sf x = true -> used (merge w x :: l2) = used l2.
Proof. intros Hw Hx. by rewrite used_cons; cbn [merge sf]; rewrite Hw. Qed.

Lemma fwd_free x l2 y r :
  fwd (with_free true x) l2 = y :: r -> coalesced (with_free false x :: l2) ->
  sf y = true /\ used r = used l2 /\ coalesced (y :: r).
Proof.
  unfold fwd. destruct l2 as [|z l2]; [intros [= <- <-]; done|]. destruct (sf z) eqn:Hz; intros [= <- <-] Hc.
  - split; [done|]. rewrite (used_cons z), Hz. split; [done|]. destruct Hc as [_ Hc].
    destruct l2 as [|u l2]; [done|]. destruct Hc as [Hzu Hc]. split; auto.
  - split; [done|]. split; [done|]. destruct Hc as [_ Hc]. split; done.
Qed.

Lemma bwd_free l1 y r :
  sf y = true -> coalesced l1 -> coalesced (y :: r) ->
  coalesced (bwd l1 y r) /\ used (bwd l1 y r) = used l1 ++ used r.
Proof.
  intros Hy H1 H2. unfold bwd. destruct (decide (l1 = [])) as [->|Hne].
  { cbn [last]. split; [done|]. rewrite used_cons, Hy. done. }
  destruct (exists_last Hne) as (l0 & w & ->). rewrite last_snoc, removelast_last.
  destruct (sf w) eqn:Hw; rewrite !used_app, !used_cons; cbn [merge sf]; rewrite ?Hw, ?Hy.
  - split; [|by rewrite app_nil_r]. apply coalesced_join.
    + clear Hne. induction l0 as [|u l0 IH]; [done|]. destruct l0 as [|v l0]; cbn [app] in *.
      * destruct H1 as [Huw _]. split; [|done]. cbn [merge sf]. auto.
      * destruct H1 as [? H1]. split; [done|]. by apply IH.
    + destruct r as [|v r]; [done|]. destruct H2 as [Hyv H2]. split; [|done]. cbn [merge sf]. auto.
  - split; [|by rewrite <- !app_assoc]. rewrite <- app_assoc. cbn [app]. apply coalesced_used; [done| |done].
    by apply coalesced_app_inv in H1 as [? _].
Qed.

(** *** Creating the heap *)

Lemma create_map_spec n (s : heap V) pos :
  vinv (vm s) -> 2 ^ 64 - 2 ^ 30 - 4096 <= pos -> pos mod 4096 = 0 -> pos + 4096 * Z.of_nat n <= 2 ^ 64 - 4096 ->
  (forall b, pos <= b < 2 ^ 64 -> ~ vok (vm s) b) -> Z.of_nat n <= vpages (vm s) ->
  exists v, create_map_loop n pos s = Ret tt (set_vm v s) /\ vinv v /\
    (forall b, vok v b <-> vok (vm s) b \/ pos <= b < pos + 4096 * Z.of_nat n) /\
    vpages (vm s) - Z.of_nat n <= vpages v /\ (forall b, vok (vm s) b -> vld 1 v b = vld 1 (vm s) b).
Proof.
  revert s pos. induction n as [|n IH]; intros s pos Hi Hlo Hal Hhi Hno Hp.
  { exists (vm s). split; [by destruct s|]. split; [done|]. split; [|split; [lia|done]]. intros b. split; [by left|]. intros [?|?]; [done|lia]. }
  cbn [create_map_loop].
  destruct (vmap_spec (vm s) pos) as (v1 & E1 & Hi1 & Hp1 & Hok1 & Hld1); try done; try lia.
  { intros b Hb. apply Hno. lia. }
  destruct (IH (set_vm v1 s) (pos + 4096)) as (v & E & Hi' & Hok & Hp' & Hld); try done; cbn [vm set_vm]; try lia.
  { zdm; lia. }
  { intros b Hb. rewrite Hok1. intros [Hb'|?]; [|lia]. revert Hb'. apply Hno. lia. }
  exists v. split; [|split; [done|split; [|split; [cbn in Hp'; lia|]]]].
  - erewrite bind_ret by (by apply zoom_ret). destruct n.
    + cbn [create_map_loop] in *. exact E.
    + rewrite u64_id by lia. exact E.
  - intros b. rewrite Hok. cbn [vm set_vm]. rewrite Hok1. split.
    + intros [[?|?]|?]; [by left|right; lia..].
    + intros [?|?]; [by auto|]. destruct (Z.lt_ge_cases b (pos + 4096)); [left; right; lia|right; lia].
  - intros b Hb. rewrite Hld by (apply Hok1; by left). apply Hld1. intros i Hi''. by replace (b + i) with b by lia.
Qed.

Lemma CreateHeap_wf (s : heap V) addr pages :
  vinv (vm s) -> 0 < pages -> 2 ^ 64 - 2 ^ 30 <= addr -> addr mod 4096 = 0 ->
  addr + 4096 * pages <= 2 ^ 64 - 8192 ->
  (forall b, addr <= b < 2 ^ 64 -> ~ vok (vm s) b) -> pages <= vpages (vm s) ->
  exists s', CreateHeap addr pages s = Ret tt s' /\ wf s' [mkSeg addr (4096 * pages - 32) true] /\
    HeapEnd s' = addr + 4096 * pages /\ vpages (vm s) - pages <= vpages (vm s') /\
    (forall b, vok (vm s) b -> b < addr -> vok (vm s') b /\ vld 1 (vm s') b = vld 1 (vm s) b).
Proof.
  intros Hi Hp Hlo Hal Hhi Hno Hv.
  destruct (create_map_spec (Z.to_nat pages) s addr) as (v & E & Hi' & Hok & Hp' & Hld); try done; try lia.
  assert (Hoks : forall b, addr <= b < addr + 4096 * pages -> vok v b) by (intros; apply Hok; right; lia).
  set (s0 := mkHeap v addr (addr + 4096 * pages) (LastHeapHDR s)).
  assert (Oa : ok_at s0 addr) by (intros i Hi''; apply Hoks; lia).
  assert (Hi0 : vinv (vm s0)) by done.
  set (s1 := fset 3 addr 1 (fset 2 addr 0 (fset 1 addr 0 (fset 0 addr (4096 * pages - 32) s0)))).
  assert (F : frame [addr] s0 s1) by (subst s1; fframe).
  exists (set_LastHeapHDR addr s1). split; [|split; [|split; [done|split]]].
  - unfold CreateHeap. rewrite (bind_ret _ _ _ _ _ E). unfold bind, modify. ffields. unfold HDR_SIZE.
    rewrite (u64_id (pages * 4096)), (u64_id (addr + pages * 4096)), u64_id by lia.
    unfold s1, s0. replace (pages * 4096) with (4096 * pages) by lia. done.
  - split; cbn [HeapStart HeapEnd LastHeapHDR vm set_LastHeapHDR s1 fset set_vm s0]; try done.
    + apply F.
    + cbn [tiles sa sl]. repeat split; [lia|zdm; lia|lia].
    + split; [|done]. unfold hdr. cbn [sa sl sf hd_addr]. subst s1. fsimp. done.
    + split; [lia|zdm; lia].
    + split; [lia|zdm; lia].
    + intros b Hb. apply (fr_ok _ _ _ F). apply Hoks. lia.
    + intros b Hb Hv'. change (vok (vm s1) b) in Hv'. apply (fr_ok _ _ _ F), Hok in Hv' as [Hb'|?]; [|lia].
      revert Hb'. apply Hno. lia.
  - cbn [vm set_LastHeapHDR]. rewrite (fr_pages _ _ _ F). cbn. lia.
  - intros b Hb Hlt. assert (Hvb : vok v b) by (apply Hok; by left).
    split; [by apply (fr_ok _ _ _ F)|]. cbn [vm set_LastHeapHDR]. rewrite (fr_byte _ _ _ F); [by apply Hld|done|].
    inlist.
Qed.

Lemma vmemset_spec n (v : V) a x :
  vinv v -> (forall i, 0 <= i < Z.of_nat n -> vok v (a + i)) ->
  vinv (vmemset n a x v) /\ (forall b, vok (vmemset n a x v) b <-> vok v b) /\ vpages (vmemset n a x v) = vpages v /\
  (forall b, vok v b -> b < a \/ a + Z.of_nat n <= b -> vld 1 (vmemset n a x v) b = vld 1 v b) /\
  (forall b, a <= b < a + Z.of_nat n -> vld 1 (vmemset n a x v) b = u8 x).
Proof.
  revert v a. induction n as [|n IH]; intros v a Hi Ho; [split_and!; done || lia|]. cbn [vmemset].
  assert (H1 : forall b, vok v b -> forall i, 0 <= i < Z.of_nat 1 -> vok v (b + i)).
  { intros b Hb i Hi'. by replace (b + i) with b by lia. }
  assert (Ha : vok v a) by (rewrite <- (Z.add_0_r a); apply Ho; lia).
  destruct (IH (vst 1 v a x) (a + 1)) as (I1 & I2 & I3 & I4 & I5).
  { apply vst_inv; [done|]. by apply H1. }
  { intros i Hi'. apply vst_ok; [done|by apply H1|]. replace (a + 1 + i) with (a + (i + 1)) by lia. apply Ho. lia. }
  assert (Ok : forall b, vok (vst 1 v a x) b <-> vok v b) by (intros; apply vst_ok; [done|by apply H1]).
  split_and!; [done| | | |].
  - intros b. by rewrite I2, Ok.
  - rewrite I3. apply vst_pages.
  - intros b Hb Hout. rewrite I4; [|by apply Ok|lia]. apply vld_vst_ne; [done|by apply H1..|lia].
  - intros b Hb. destruct (Z.eq_dec b a) as [->|Hne]; [|apply I5; lia].
    rewrite I4; [|by apply Ok|lia]. rewrite vld_vst_eq; [done|done|by apply H1].
Qed.

Lemma CreateHeap_default_spec (s : heap V) :
  vinv (vm s) -> (forall b, AddressOfSystemData <= b < 2 ^ 64 -> ~ vok (vm s) b) -> 513 <= vpages (vm s) ->
  exists s', CreateHeap_default s = Ret tt s' /\
    wf s' [mkSeg 0xffffffffC0000000 (512 * 4096 - 32) true] /\ vpages (vm s) - 513 <= vpages (vm s') /\
    (forall b, AddressOfSystemData <= b < AddressOfSystemData + 4096 -> vok (vm s') b /\ vld 1 (vm s') b = 0) /\
    (forall b, vok (vm s) b -> b < AddressOfSystemData -> vok (vm s') b /\ vld 1 (vm s') b = vld 1 (vm s) b).
Proof.
  unfold AddressOfSystemData. intros Hi Hno Hp.
  destruct (vmap_spec (vm s) 0xFFFFFFFFBFFFF000) as (v1 & E1 & Hi1 & Hp1 & Hok1 & Hld1); try done; try lia.
  { intros b Hb. apply Hno. lia. }
  destruct (vmemset_spec 4096 v1 0xFFFFFFFFBFFFF000 0) as (I1 & I2 & I3 & I4 & I5); [done| |].
  { intros i Hi'. apply Hok1. right. lia. }
  set (v2 := vmemset 4096 _ 0 v1) in *.
  destruct (CreateHeap_wf (set_vm v2 s) 0xffffffffC0000000 512) as (s' & E & W & _ & Hp' & Hk);
    cbn [vm set_vm]; try done; try lia.
  { intros b Hb. rewrite I2, Hok1. intros [Hb'|?]; [|lia]. revert Hb'. apply Hno. lia. }
  exists s'. split; [|split; [exact W|split; [change (vm (set_vm v2 s)) with v2 in Hp'; lia|split]]].
  - unfold CreateHeap_default. erewrite bind_ret by (apply zoom_ret; exact E1). exact E.
  - intros b Hb. destruct (Hk b) as [Hv ->]; [cbn [vm set_vm]; apply I2, Hok1; right; lia|lia|].
    split; [done|]. cbn [vm set_vm]. rewrite I5 by lia. done.
  - intros b Hb Hlt. assert (Hb1 : vok v1 b) by (apply Hok1; by left).
    destruct (Hk b) as [Hv ->]; [cbn [vm set_vm]; by apply I2|lia|]. split; [done|]. cbn [vm set_vm]. rewrite I4 by (done || lia).
    apply Hld1. intros i Hi'. by replace (b + i) with b by lia.
Qed.



(** Splitting the last segment writes through its null [Next] pointer. *)
Lemma split_null_store (s : heap V) l1 x size :
  wf s (l1 ++ [x]) -> 16 <= size -> size mod 16 = 0 -> size + 48 <= sl x ->
  vld 8 (vm (SegmentHeaderSplit (sa x) size s)) 16 = sa x + size + 32.
Proof.
  intros W H1 H2 H3. assert (Hi := wf_inv _ _ W).
  destruct (wf_at _ _ _ _ W) as ((Lx & Nx & Px & Fx) & Ox & ? & ? & ? & ?).
  assert (Onew : ok_at s (sa x + size + 32)).
  { intros i Hi'. apply (wf_ok _ _ W). destruct (tiles_in _ _ _ x (wf_tiles _ _ W)); [set_solver|]. lia. }
  assert (O0 := wf_ok_null _ _ W).
  rewrite (split_eq s (sa x) size 0 (sl x)) by (first [assumption | lia | unfold apart; lia]).
  rewrite Fx. change (vld 8 ?v 16) with (vld (width 2) v (0 + off 2)).
  match goal with |- context [if _ then set_LastHeapHDR _ ?t else _] =>
    transitivity (fget 2 t 0); [by destruct (_ =? _)|] end.
  destruct (sf x); cbn [Z.eqb]; by fsimp.
Qed.

(** *** Histories of client calls *)

(** What clients see: the blocks they own, as (address, requested size). *)
Inductive heap_step (scan : nat) : heap V * list (Z * Z) -> heap V * list (Z * Z) -> Prop :=
| hs_malloc s s' bs Size p :
    0 < Size < 2 ^ 29 -> HeapEnd s + 2 * round_page (round16 Size) <= 2 ^ 64 - 8192 ->
    2 * (round_page (round16 Size) / 4096) <= vpages (vm s) ->
    malloc 3 scan Size s = Ret p s' -> heap_step scan (s, bs) (s', (p, Size) :: bs)
| hs_free s s' b1 p n b2 :
    free p s = Ret tt s' -> heap_step scan (s, b1 ++ (p, n) :: b2) (s', b1 ++ b2)
| hs_write s bs p n b x :
    (p, n) ∈ bs -> p <= b < p + n -> heap_step scan (s, bs) (set_vm (vst 1 (vm s) b x) s, bs).

Definition block_of (b u : Z * Z) : Prop := b.1 = u.1 + 32 /\ 0 < b.2 <= u.2.

Definition heap_inv (c : heap V * list (Z * Z)) : Prop :=
  exists l us, wf c.1 l /\ coalesced l /\ us ≡ₚ used l /\ Forall2 block_of c.2 us.

Lemma tiles_length a l e : tiles a l e -> 48 * Z.of_nat (length l) <= e - a.
Proof.
  revert a. induction l as [|x l IH]; intros a; cbn [tiles length]; [lia|].
  intros (? & ? & ? & Ht). specialize (IH _ Ht). lia.
Qed.

Lemma wf_length (s : heap V) l : wf s l -> Z.of_nat (length l) < 2 ^ 25.
Proof.
  intros W. assert (Hl := tiles_length _ _ _ (wf_tiles _ _ W)).
  destruct (wf_start _ _ W), (wf_end _ _ W). lia.
Qed.

Lemma wf_write (s : heap V) l a n b x :
  wf s l -> (a, n) ∈ used l -> a + 32 <= b < a + 32 + n -> wf (set_vm (vst 1 (vm s) b x) s) l.
Proof.
  intros W Hin Hb. apply used_elem in Hin.
  destruct (tiles_in _ _ _ _ (wf_tiles _ _ W) Hin) as (? & ? & _). cbn [sa sl] in *.
  assert (Hok : forall i, 0 <= i < Z.of_nat 1 -> vok (vm s) (b + i)) by (intros; apply (wf_ok _ _ W); lia).
  assert (Hi := wf_inv _ _ W). destruct (wf_start _ _ W).
  split; cbn [vm set_vm HeapStart HeapEnd LastHeapHDR]; try apply W.
  - by apply vst_inv.
  - eapply chain_ext; [|apply W]. intros u j Hu Hj. unfold fget. cbn [vm set_vm].
    assert (Ou := wf_ok_at _ _ _ W Hu). apply vld_vst_ne; [done|done|intros; by apply field_ok|].
    assert (Hap := payload_apart (HeapStart s) l (HeapEnd s) (mkSeg a n false) b (sa u)).
    cbn [sa sl] in Hap. destruct Hap as [Hlt|Hle]; try done; [lia|apply W|by apply elem_of_cons; right; apply list_elem_of_fmap_2| |];
    unfold off; destruct j as [|[|[|[|]]]]; cbn [width]; lia.
  - intros b' Hb'. apply vst_ok; [done|done|]. by apply W.
  - intros b' Hb'. rewrite vst_ok by done. by apply W.
Qed.

(** Memory below the heap can be written without harm to it. *)
Lemma wf_write_below (s : heap V) l b x :
  wf s l -> vok (vm s) b -> b < HeapStart s -> wf (set_vm (vst 1 (vm s) b x) s) l.
Proof.
  intros W Hb Hlt.
  assert (Hok : forall i, 0 <= i < Z.of_nat 1 -> vok (vm s) (b + i)) by (intros i ?; by replace (b + i) with b by lia).
  assert (Hi := wf_inv _ _ W). split; cbn [vm set_vm HeapStart HeapEnd LastHeapHDR]; try apply W.
  - by apply vst_inv.
  - eapply chain_ext; [|apply W]. intros u j Hu Hj. unfold fget. cbn [vm set_vm].
    assert (Ou := wf_ok_at _ _ _ W Hu). apply vld_vst_ne; [done|done|intros; by apply field_ok|].
    destruct (tiles_in _ _ _ _ (wf_tiles _ _ W) Hu) as (? & _). left. unfold off. lia.
  - intros b' Hb'. apply vst_ok; [done|done|]. by apply W.
  - intros b' Hb'. rewrite vst_ok by done. by apply W.
Qed.

Lemma wf_memset_below n (s : heap V) l a x :
  wf s l -> (forall i, 0 <= i < Z.of_nat n -> vok (vm s) (a + i)) -> a + Z.of_nat n <= HeapStart s ->
  wf (set_vm (vmemset n a x (vm s)) s) l.
Proof.
  revert s a. induction n as [|n IH]; intros s a W Hok Hlt; [by destruct s|]. cbn [vmemset].
  assert (Ha : vok (vm s) a) by (rewrite <- (Z.add_0_r a); apply Hok; lia).
  assert (H1 : forall i, 0 <= i < Z.of_nat 1 -> vok (vm s) (a + i)) by (intros i ?; apply Hok; lia).
  apply (IH (set_vm (vst 1 (vm s) a x) s) (a + 1)).
  - apply wf_write_below; [done|done|lia].
  - intros i Hi. cbn [vm set_vm]. apply vst_ok; [apply W|done|]. replace (a + 1 + i) with (a + (i + 1)) by lia. apply Hok. lia.
  - cbn [HeapStart set_vm]. lia.
Qed.

Lemma Forall2_middle {A B} (R : A -> B -> Prop) l1 x l2 us :
  Forall2 R (l1 ++ x :: l2) us -> exists u1 u u2, us = u1 ++ u :: u2 /\ R x u /\ Forall2 R (l1 ++ l2) (u1 ++ u2).
Proof.
  intros Hf. apply Forall2_app_inv_l in Hf as (u1 & u' & H1 & H2 & ->).
  apply Forall2_cons_inv_l in H2 as (u & u2 & Hx & H2 & ->). exists u1, u, u2. split; [done|]. split; [done|].
  by apply Forall2_app.
Qed.

Lemma free_spec (s : heap V) l a n :
  wf s l -> coalesced l -> (a, n) ∈ used l ->
  exists s' l', free (a + 32) s = Ret tt s' /\ wf s' l' /\ coalesced l' /\
    used l ≡ₚ (a, n) :: used l' /\ kept l s s'.
Proof.
  intros W Hc Hin. apply used_elem in Hin. apply list_elem_of_split in Hin as (l1 & l2 & ->).
  set (x := mkSeg a n false) in *.
  destruct (free_list_spec s l1 x l2 W eq_refl) as (s' & y & r & E & Ef & W' & K).
  apply coalesced_app_inv in Hc as [Hc1 Hc2].
  destruct (fwd_free _ _ _ _ Ef Hc2) as (Hy & Hu & Hc). destruct (bwd_free l1 y r Hy Hc1 Hc) as [Hc' Hu'].
  exists s', (bwd l1 y r). split_and!; try done.
  rewrite Hu', Hu, used_app, used_cons. cbn. by rewrite Permutation_middle.
Qed.

Lemma heap_step_inv scan c c' :
  2 ^ 26 <= Z.of_nat scan -> heap_step scan c c' -> heap_inv c -> heap_inv c'.
Proof.
  intros Hscan Hstep (l & us & W & Hc & Hus & Hbs). assert (Hlen := wf_length (fst c) l).
  destruct Hstep as [s s' bs Size p HS He Hv E|s s' b1 p n b2 E|s bs p n b x Hin Hb]; cbn [fst snd] in *; specialize (Hlen W).
  - destruct (malloc_spec s l scan Size W Hc HS ltac:(lia) He Hv) as (p' & s1 & l' & k & E' & W' & Hc' & _ & Hk & Hu & _).
    rewrite E in E'. injection E' as <- <-. destruct (round16_spec Size); [lia|].
    exists l', ((p - 32, k) :: us). split_and!; try done; [by rewrite Hus, Hu|].
    constructor; [|done]. split; cbn [fst snd]; lia.
  - destruct (Forall2_middle _ _ _ _ _ Hbs) as (u1 & [a k] & u2 & -> & [Hp Hk] & Hbs'). cbn [fst snd] in Hp, Hk. subst p.
    destruct (free_spec s l a k W Hc) as (s1 & l' & E' & W' & Hc' & Hu & _).
    { rewrite <- Hus. set_solver. }
    rewrite E in E'. injection E' as <-. exists l', (u1 ++ u2). split_and!; try done.
    rewrite <- Permutation_middle, Hu in Hus. by apply Permutation_cons_inv in Hus.
  - apply list_elem_of_split in Hin as (b1 & b2 & ->).
    destruct (Forall2_middle _ _ _ _ _ Hbs) as (u1 & [a k] & u2 & -> & [Hp Hk] & Hbs'). cbn [fst snd] in Hp, Hk.
    exists l, (u1 ++ (a, k) :: u2). split_and!; try done.
    apply (wf_write s l a k); [done| |lia]. rewrite <- Hus. set_solver.
Qed.

Lemma heap_run_inv scan c c' :
  2 ^ 26 <= Z.of_nat scan -> rtc (heap_step scan) c c' -> heap_inv c -> heap_inv c'.
Proof. intros Hs. induction 1 as [|c1 c2 c3 Hst _ IH]; [done|]. intros Hi. apply IH. by eapply heap_step_inv. Qed.

Lemma tiles_used a l e :
  tiles a l e -> a mod 16 = 0 ->
  (forall u, u ∈ used l -> u.1 mod 16 = 0 /\ a <= u.1 /\ u.1 + 32 + u.2 <= e) /\
  (forall i j u v, i <> j -> used l !! i = Some u -> used l !! j = Some v ->
     u.1 + 32 + u.2 <= v.1 \/ v.1 + 32 + v.2 <= u.1).
Proof.
  revert a. induction l as [|x l IH]; intros a Ht Ha; [split; [set_solver|done]|].
  destruct Ht as (Ex & Hx & Hm & Ht). destruct (IH _ Ht) as [IH1 IH2]; [zdm; lia|].
  assert (Hle := tiles_le _ _ _ Ht). rewrite used_cons. destruct (sf x); cbn [app].
  - split; [|done]. intros u Hu. destruct (IH1 u Hu). lia.
  - split.
    + intros u [->|Hu]%elem_of_cons; cbn [fst snd]; [rewrite Ex; lia|]. destruct (IH1 u Hu). lia.
    + intros [|i] [|j] u v Hij; cbn [lookup list_lookup]; [done|intros [= <-] Hv|intros Hu [= <-]|].
      * apply list_elem_of_lookup_2 in Hv. destruct (IH1 v Hv). cbn [fst snd]. lia.
      * apply list_elem_of_lookup_2 in Hu. destruct (IH1 u Hu). cbn [fst snd]. lia.
      * apply IH2. congruence.
Qed.

Lemma used_disjoint (s : heap V) l us :
  wf s l -> us ≡ₚ used l ->
  (forall u, u ∈ us -> u.1 mod 16 = 0 /\ HeapStart s <= u.1 /\ u.1 + 32 + u.2 <= HeapEnd s) /\
  (forall i j u v, i <> j -> us !! i = Some u -> us !! j = Some v ->
     u.1 + 32 + u.2 <= v.1 \/ v.1 + 32 + v.2 <= u.1).
Proof.
  intros W Hus. destruct (tiles_used _ _ _ (wf_tiles _ _ W)) as [H1 H2]; [apply W|]. split.
  - intros u Hu. apply H1. by rewrite <- Hus.
  - intros i j u v Hij Hi Hj. apply Permutation_inj in Hus as [Hl (f & Hf & Hlk)].
    apply (H2 (f i) (f j)); [intros E; by apply Hij, (inj f)|by rewrite <- Hlk..].
Qed.


End Ops_spec.


(** ** A flat virtual memory

    Byte-addressed memory with a list of mapped pages and a number of pages
    that can still be mapped: the simplest implementation of the interface. *)
Record flat := mkFlat { fmem : gmap Z Z; fmapped : list Z; fleft : Z; fprinted : list Z }.

Definition flat_ok (v : flat) (b : Z) : Prop :=
  0 <= b < 4096 \/ exists a, a ∈ fmapped v /\ a <= b < a + 4096.

#[global, program] Instance flat_vmem : VMem flat := {|
  vld n v a := Mem.ld n (fmem v) a;
  vst n v a x := mkFlat (Mem.st n (fmem v) a x) (fmapped v) (fleft v) (fprinted v);
  vmap va := fun v =>
    if fleft v <=? 0 then Done v else Ret tt (mkFlat (fmem v) (va :: fmapped v) (fleft v - 1) (fprinted v));
  vputs s v := mkFlat (fmem v) (fmapped v) (fleft v) (fprinted v ++ s);
  vinv _ := True;
  vok := flat_ok;
  vpages := fleft
|}.
Next Obligation. intros. apply Mem.ld_range. Qed.
Next Obligation. intros. apply Mem.ld_st_eq. Qed.
Next Obligation. intros. by apply Mem.ld_st_ne. Qed.
Next Obligation. done. Qed.
Next Obligation. done. Qed.
Next Obligation. done. Qed.
Next Obligation. intros v b _ Hb. by left. Qed.
Next Obligation.
  intros v va _ _ _ _ _ Hp. cbv beta. destruct (Z.leb_spec (fleft v) 0); [lia|].
  eexists. split; [done|]. cbn [fleft fmapped fmem]. split_and!; try done.
  intros b. unfold flat_ok. cbn [fmapped]. split.
  - intros [?|(a & [->|Ha]%elem_of_cons & ?)]; [left; by left|by right|left; right; eauto].
  - intros [[?|(a & Ha & ?)]|?]; [by left|right; exists a; set_solver|right; exists va; set_solver].
Qed.

(** A fresh machine with [n] pages. *)
Definition flat0 (n : Z) : heap flat := mkHeap (mkFlat ∅ [] n []) 0 0 0.

Lemma flat0_CreateHeap n : 513 <= n ->
  exists s, CreateHeap_default (flat0 n) = Ret tt s /\
    wf s [mkSeg 0xffffffffC0000000 (512 * 4096 - 32) true] /\ n - 513 <= vpages (vm s) /\
    (forall b, AddressOfSystemData <= b < AddressOfSystemData + 4096 -> vok (vm s) b /\ vld 1 (vm s) b = 0).
Proof.
  intros Hn. change n with (vpages (vm (flat0 n))) in Hn |- * at 2.
  destruct (CreateHeap_default_spec (flat0 n)) as (s & E & W & Hp & Hz & _); [exact I| |exact Hn|by exists s].
  intros b Hb [?|(a & Ha & _)]; [unfold AddressOfSystemData in Hb; lia|]. cbn in Ha. set_solver.
Qed.

(** ** Properties *)

(** [CreateHeap] maps the page of system data, every byte of it 0, and
    leaves a well-formed heap of one free segment over its 512 pages; what
    was mapped below keeps its contents. *)
Theorem CreateHeap_establishes {V : Type} `{VMem V} (s : heap V) :
  vinv (vm s) -> (forall b, AddressOfSystemData <= b < 2 ^ 64 -> ~ vok (vm s) b) -> 513 <= vpages (vm s) ->
  exists s', CreateHeap_default s = Ret tt s' /\
    wf s' [mkSeg 0xffffffffC0000000 (512 * 4096 - 32) true] /\ vpages (vm s) - 513 <= vpages (vm s') /\
    (forall b, AddressOfSystemData <= b < AddressOfSystemData + 4096 -> vok (vm s') b /\ vld 1 (vm s') b = 0) /\
    (forall b, vok (vm s) b -> b < AddressOfSystemData -> vok (vm s') b /\ vld 1 (vm s') b = vld 1 (vm s) b).
Proof. apply CreateHeap_default_spec. Qed.

Lemma CreateHeap_establishes_witness :
  exists s', CreateHeap_default (flat0 513) = Ret tt s' /\
    wf s' [mkSeg 0xffffffffC0000000 (512 * 4096 - 32) true].
Proof.
  destruct (CreateHeap_establishes (flat0 513)) as (s' & E & W & _).
  - exact I.
  - intros b Hb [Hc|(a & Ha & _)]; [unfold AddressOfSystemData in Hb; lia|].
    apply not_elem_of_nil in Ha. exact Ha.
  - cbn [flat0 vm vpages flat_vmem fleft]. lia.
  - exists s'. split; [exact E|exact W].
Defined.

(** C5: [malloc] refines first fit on the list of segments: on a well-formed
    heap with room for two expansions it returns, after at most three turns,
    an address behind a header of its own; the block is new among the blocks
    in use and at least the rounded size, the contents of all other blocks
    are kept, the list stays well formed and coalesced, and where a free
    segment fits the result is exactly that of first fit. *)
Theorem malloc_first_fit {V : Type} `{VMem V} (s : heap V) l scan Size :
  let size := round16 Size in let n := round_page size in
  wf s l -> coalesced l -> 0 < Size < 2 ^ 29 -> (length l + 2 <= scan)%nat ->
  HeapEnd s + 2 * n <= 2 ^ 64 - 8192 -> 2 * (n / 4096) <= vpages (vm s) ->
  exists p s' l' k, malloc 3 scan Size s = Ret p s' /\ wf s' l' /\ coalesced l' /\ kept l s s' /\
    size <= k < size + 48 /\ used l' ≡ₚ (p - 32, k) :: used l /\
    (forall r, first_fit size l = Some r -> r = (l', p)).
Proof. apply malloc_spec. Qed.

Lemma malloc_first_fit_witness :
  exists s p s' l', CreateHeap_default (flat0 600) = Ret tt s /\ malloc 3 3 100 s = Ret p s' /\
    wf s' l' /\ p = 0xffffffffC0000020.
Proof.
  destruct (flat0_CreateHeap 600) as (s & E & W & Hp & _); [lia|].
  assert (He : HeapEnd s = 0xffffffffC0000000 + 512 * 4096).
  { assert (Ht := wf_tiles _ _ W). cbn [tiles sa sl] in Ht. lia. }
  destruct (malloc_first_fit s _ 3 100 W) as (p & s' & l' & k & E' & W' & _ & _ & _ & _ & Hf).
  - exact I.
  - lia.
  - cbn [length]. lia.
  - rewrite He. change (round_page (round16 100)) with 4096. lia.
  - change (round_page (round16 100)) with 4096. change (4096 / 4096) with 1. lia.
  - exists s, p, s', l'. split; [exact E|]. split; [exact E'|]. split; [exact W'|].
    specialize (Hf _ eq_refl). injection Hf as _ <-. reflexivity.
Defined.

(** C6: [free] of a block in use takes exactly that block off the blocks in
    use, keeps the contents of the others, and joins the freed segment with
    its free neighbours, so that no two neighbours are ever both free. *)
Theorem free_releases {V : Type} `{VMem V} (s : heap V) l a n :
  wf s l -> coalesced l -> (a, n) ∈ used l ->
  exists s' l', free (a + 32) s = Ret tt s' /\ wf s' l' /\ coalesced l' /\
    used l ≡ₚ (a, n) :: used l' /\ kept l s s'.
Proof. apply free_spec. Qed.


(** C8: Splitting the last segment stores the address of the new header at
    address 16, through the null [Next] pointer of the segment. *)
Theorem SegmentHeaderSplit_null_write {V : Type} `{VMem V} (s : heap V) l1 x size :
  wf s (l1 ++ [x]) -> 16 <= size -> size mod 16 = 0 -> size + 48 <= sl x ->
  let s' := SegmentHeaderSplit (sa x) size s in
  wf s' (l1 ++ [mkSeg (sa x) size (sf x); mkSeg (sa x + size + 32) (sl x - size - 32) (sf x)]) /\
  vld 8 (vm s') 16 = sa x + size + 32.
Proof.
  intros W H1 H2 H3 s'. destruct (split_spec s l1 x [] size W H1 H2 ltac:(lia)) as [W' _].
  unfold splt in W'. destruct (Z.ltb_spec (sl x - size - 32) 16); [lia|]. split; [exact W'|].
  exact (split_null_store s l1 x size W H1 H2 H3).
Qed.

(** A heap with two blocks in use. *)
Definition scan0 : nat := Z.to_nat (2 ^ 26).

Lemma scan0_big : Z.of_nat scan0 = 2 ^ 26.
Proof. unfold scan0. lia. Qed.

Definition blocks1 : list seg :=
  [mkSeg 0xffffffffC0000000 112 false; mkSeg 0xffffffffC0000090 (512 * 4096 - 176) true].
Definition blocks2 : list seg :=
  [mkSeg 0xffffffffC0000000 112 false; mkSeg 0xffffffffC0000090 64 false;
   mkSeg 0xffffffffC00000F0 (512 * 4096 - 272) true].

Lemma wf_HeapEnd (s : heap flat) l e : wf s l -> tiles (HeapStart s) l e -> HeapEnd s = e.
Proof.
  intros W Ht. assert (Hw := wf_tiles _ _ W). clear W. revert Ht Hw. generalize (HeapStart s).
  induction l as [|x l IH]; intros a; cbn [tiles]; [congruence|]. intros (_ & _ & _ & H1) (_ & _ & _ & H2). eauto.
Qed.

Lemma two_blocks :
  exists s0 (s : heap flat), wf s0 [mkSeg 0xffffffffC0000000 (512 * 4096 - 32) true] /\ wf s blocks2 /\
    rtc (heap_step scan0) (s0, []) (s, [(0xffffffffC00000B0, 50); (0xffffffffC0000020, 100)]).
Proof.
  assert (Hscan := scan0_big).
  destruct (flat0_CreateHeap 600) as (s0 & _ & W0 & Hp0 & _); [lia|].
  assert (Hr : forall Size, 0 < Size <= 112 -> round_page (round16 Size) = 4096).
  { intros Size HS. destruct (round16_spec Size) as (? & ? & ?); [lia|].
    destruct (round_page_spec (round16 Size)) as [Hm ?]; [lia|].
    apply Z_div_exact_full_2 in Hm; lia. }
  assert (Hstep : forall s l bs Size l' p, wf s l -> (length l <= 4)%nat ->
            tiles (HeapStart s) l (0xffffffffC0000000 + 512 * 4096) ->
            2 <= vpages (vm s) -> 0 < Size <= 112 -> first_fit (round16 Size) l = Some (l', p) ->
            exists s', wf s' l' /\ HeapStart s' = HeapStart s /\ vpages (vm s') = vpages (vm s) /\
              heap_step scan0 (s, bs) (s', (p, Size) :: bs)).
  { intros s l bs Size l' p W Hl Ht Hp HS Ef. destruct (round16_spec Size) as (Hm & Hm1 & Hm2); [lia|].
    assert (T := malloc_turn s l 2 scan0 (round16 Size) W ltac:(lia) ltac:(lia) Hm).
    rewrite Ef in T. destruct T as (s' & E & W' & _ & Hst & Hvp). exists s'. split; [exact W'|]. split; [exact Hst|]. split; [exact Hvp|].
    rewrite <- malloc_round in E by exact Hm. apply hs_malloc; [lia| |rewrite Hr by lia; exact Hp|exact E].
    rewrite (wf_HeapEnd _ _ _ W Ht), Hr by lia. lia. }
  assert (Hst0 : HeapStart s0 = 0xffffffffC0000000) by (assert (Ht := wf_tiles _ _ W0); symmetry; apply Ht).
  destruct (Hstep s0 _ [] 100 blocks1 0xffffffffC0000020 W0) as (s1 & W1 & Hst1 & Hv1 & S1);
    [cbn [length]; lia|rewrite Hst0; unfold blocks1; cbn [tiles sa sl]; split_and!; first [lia | reflexivity]|lia|lia|reflexivity|].
  destruct (Hstep s1 _ [(0xffffffffC0000020, 100)] 50 blocks2 0xffffffffC00000B0 W1) as (s2 & W2 & _ & _ & S2).
  { cbn [length blocks1]. lia. }
  { rewrite Hst1, Hst0. unfold blocks1; cbn [tiles sa sl]; split_and!; first [lia | reflexivity]. }
  { lia. }
  { lia. }
  { reflexivity. }
  exists s0, s2. split; [exact W0|]. split; [exact W2|].
  eapply rtc_l; [exact S1|]. eapply rtc_l; [exact S2|]. apply rtc_refl.
Qed.

Lemma free_releases_witness :
  exists s0 (s : heap flat) s' l', wf s0 blocks2 /\ free 0xffffffffC0000020 s0 = Ret tt s' /\ wf s' l' /\
    used l' ≡ₚ [(0xffffffffC0000090, 64)] /\ s = s'.
Proof.
  destruct two_blocks as (_ & s & _ & W & _).
  destruct (free_releases s blocks2 0xffffffffC0000000 112 W) as (s' & l' & E & W' & _ & Hu & _).
  - split_and!; done.
  - left.
  - exists s, s', s', l'. split; [exact W|]. split; [exact E|]. split; [exact W'|]. split; [|reflexivity].
    symmetry. exact (Permutation_cons_inv Hu).
Defined.


Lemma SegmentHeaderSplit_null_write_witness :
  exists s : heap flat, vld 8 (vm (SegmentHeaderSplit 0xffffffffC0000000 112 s)) 16 = 0xffffffffC0000090.
Proof.
  destruct (flat0_CreateHeap 600) as (s & _ & W & _); [lia|]. exists s.
  exact (proj2 (SegmentHeaderSplit_null_write s [] _ 112 W ltac:(lia) eq_refl ltac:(cbn [sl]; lia))).
Defined.


End Heap.
