(* ===== verification/Pff.v ===== *)
(** The Petit FatFs module (kernel/Fat/pff.c, pff.h, pffconf.h): reading FAT12,
    FAT16 and FAT32 volumes through [disk_readp].  Data and operations; the
    theorems are in PffSpec, PffFile, PffDir and PffMount. *)

From stdpp Require Import base tactics list gmap numbers option.
From Stdlib Require Import ZArith Lia.
From S2P Require Import Prelude.

#[local] Open Scope Z_scope.

(** ** The disk below the file system

    [disk_readp sector offset count]: [None] is a non-zero return code,
    [Some bytes] what the call stored through its buffer argument.  [img] is
    what the disk holds, [ready] says which sectors can be read. *)
Class Disk (D : Type) := {
  disk_initialize : D -> Z * D;
  disk_readp : Z -> Z -> Z -> D -> option (list Z) * D;
  img : D -> Z -> Z -> Z;
  ready : D -> Z -> Prop;
  init_img d : img (disk_initialize d).2 = img d;
  readp_img sect ofs cnt d : img (disk_readp sect ofs cnt d).2 = img d;
  readp_data sect ofs cnt d bs d' :
    0 <= ofs -> 0 <= cnt -> ofs + cnt <= 512 -> disk_readp sect ofs cnt d = (Some bs, d') ->
    bs = (fun i => img d sect (ofs + Z.of_nat i)) <$> seq 0 (Z.to_nat cnt);
  img_byte d s o : 0 <= img d s o < 256;
  init_ready d s : ready (disk_initialize d).2 s <-> ready d s;
  readp_ready sect ofs cnt d s : ready (disk_readp sect ofs cnt d).2 s <-> ready d s;
  ready_read sect ofs cnt d :
    ready d sect -> 0 <= ofs -> 0 <= cnt -> ofs + cnt <= 512 -> (disk_readp sect ofs cnt d).1 <> None
}.

(** [disk_writep buff sc]: with [None] a sector write is started at [sc] or,
    for [sc] = 0, finished; with [Some bytes] the bytes are sent. *)
Class DiskWrite (D : Type) := { disk_writep : option (list Z) -> Z -> D -> Z * D }.

Module Pff.
Import Prelude.
#[local] Open Scope lofi_scope.

(** ** Data *)

Inductive FRESULT : Set :=
| FR_OK | FR_DISK_ERR | FR_NOT_READY | FR_NO_FILE | FR_NOT_OPENED | FR_NOT_ENABLED | FR_NO_FILESYSTEM.

#[global] Instance FRESULT_eq_dec : EqDecision FRESULT.
Proof. solve_decision. Defined.

Record FATFS := mkFATFS {
  fs_type : Z; flag : Z; csize : Z; n_rootdir : Z; n_fatent : Z; fatbase : Z; dirbase : Z;
  database : Z; fptr : Z; fsize : Z; org_clust : Z; curr_clust : Z; dsect : Z
}.

Definition FATFS_0 : FATFS := mkFATFS 0 0 0 0 0 0 0 0 0 0 0 0 0.

Definition set_fs_type v f := mkFATFS v (flag f) (csize f) (n_rootdir f) (n_fatent f) (fatbase f) (dirbase f) (database f) (fptr f) (fsize f) (org_clust f) (curr_clust f) (dsect f).
Definition set_flag v f := mkFATFS (fs_type f) v (csize f) (n_rootdir f) (n_fatent f) (fatbase f) (dirbase f) (database f) (fptr f) (fsize f) (org_clust f) (curr_clust f) (dsect f).
Definition set_csize v f := mkFATFS (fs_type f) (flag f) v (n_rootdir f) (n_fatent f) (fatbase f) (dirbase f) (database f) (fptr f) (fsize f) (org_clust f) (curr_clust f) (dsect f).
Definition set_n_rootdir v f := mkFATFS (fs_type f) (flag f) (csize f) v (n_fatent f) (fatbase f) (dirbase f) (database f) (fptr f) (fsize f) (org_clust f) (curr_clust f) (dsect f).
Definition set_n_fatent v f := mkFATFS (fs_type f) (flag f) (csize f) (n_rootdir f) v (fatbase f) (dirbase f) (database f) (fptr f) (fsize f) (org_clust f) (curr_clust f) (dsect f).
Definition set_fatbase v f := mkFATFS (fs_type f) (flag f) (csize f) (n_rootdir f) (n_fatent f) v (dirbase f) (database f) (fptr f) (fsize f) (org_clust f) (curr_clust f) (dsect f).
Definition set_dirbase v f := mkFATFS (fs_type f) (flag f) (csize f) (n_rootdir f) (n_fatent f) (fatbase f) v (database f) (fptr f) (fsize f) (org_clust f) (curr_clust f) (dsect f).
Definition set_database v f := mkFATFS (fs_type f) (flag f) (csize f) (n_rootdir f) (n_fatent f) (fatbase f) (dirbase f) v (fptr f) (fsize f) (org_clust f) (curr_clust f) (dsect f).
Definition set_fptr v f := mkFATFS (fs_type f) (flag f) (csize f) (n_rootdir f) (n_fatent f) (fatbase f) (dirbase f) (database f) v (fsize f) (org_clust f) (curr_clust f) (dsect f).
Definition set_fsize v f := mkFATFS (fs_type f) (flag f) (csize f) (n_rootdir f) (n_fatent f) (fatbase f) (dirbase f) (database f) (fptr f) v (org_clust f) (curr_clust f) (dsect f).
Definition set_org_clust v f := mkFATFS (fs_type f) (flag f) (csize f) (n_rootdir f) (n_fatent f) (fatbase f) (dirbase f) (database f) (fptr f) (fsize f) v (curr_clust f) (dsect f).
Definition set_curr_clust v f := mkFATFS (fs_type f) (flag f) (csize f) (n_rootdir f) (n_fatent f) (fatbase f) (dirbase f) (database f) (fptr f) (fsize f) (org_clust f) v (dsect f).
Definition set_dsect v f := mkFATFS (fs_type f) (flag f) (csize f) (n_rootdir f) (n_fatent f) (fatbase f) (dirbase f) (database f) (fptr f) (fsize f) (org_clust f) (curr_clust f) v.

(** [DIR]; [fn] is the 12-byte buffer the pointer member points to. *)
Record DIR := mkDIR { index : Z; fn : list Z; sclust : Z; clust : Z; sect : Z }.
Definition set_index v d := mkDIR v (fn d) (sclust d) (clust d) (sect d).
Definition set_fn v d := mkDIR (index d) v (sclust d) (clust d) (sect d).
Definition set_sclust v d := mkDIR (index d) (fn d) v (clust d) (sect d).
Definition set_clust v d := mkDIR (index d) (fn d) (sclust d) v (sect d).
Definition set_sect v d := mkDIR (index d) (fn d) (sclust d) (clust d) v.

Record FILINFO := mkFILINFO { fi_fsize : Z; fi_fdate : Z; fi_ftime : Z; fi_fattrib : Z; fi_fname : list Z }.

Definition FA_OPENED : Z := 0x01.
Definition FA__WIP : Z := 0x40.
Definition FS_FAT12 : Z := 1.
Definition FS_FAT16 : Z := 2.
Definition FS_FAT32 : Z := 3.
Definition AM_VOL : Z := 0x08.
Definition AM_DIR : Z := 0x10.
Definition AM_MASK : Z := 0x3F.
Definition STA_NOINIT : Z := 0x01.

(** Character conversion of the configuration: [PF_USE_LCC], the table
    [_EXCVT] of a single-byte code page, the predicates of a double-byte
    one.  [pffconf] is the configuration of the repository. *)
Record config := mkConfig {
  PF_USE_LCC : bool; EXCVT : option (list Z); IsDBCS1 : Z -> bool
}.
Definition pffconf : config := mkConfig false None (fun _ => false).
Definition IsLower (c : Z) : bool := (97 <=? c) && (c <=? 122).

(** State: the object [FatFs] points to is one of [objs]. *)
Record pff (D : Type) := mkPff { FatFs : Z; objs : gmap Z FATFS; dev : D }.
Arguments mkPff {D} _ _ _.
Arguments FatFs {D} _.
Arguments objs {D} _.
Arguments dev {D} _.

(** ** Bytes *)

Definition byte (p : list Z) (i : nat) : Z := default 0 (p !! i).

Definition ld_word (ptr : list Z) : Z :=
  let rv := u16 (byte ptr 1) in
  u16 (Z.lor (Z.shiftl rv 8) (byte ptr 0)).

Definition ld_dword (ptr : list Z) : Z :=
  let rv := u32 (byte ptr 3) in
  let rv := u32 (Z.lor (Z.shiftl rv 8) (byte ptr 2)) in
  let rv := u32 (Z.lor (Z.shiftl rv 8) (byte ptr 1)) in
  u32 (Z.lor (Z.shiftl rv 8) (byte ptr 0)).

Fixpoint mem_set (dst : list Z) (val : Z) (cnt : nat) : list Z :=
  match cnt, dst with
  | S cnt', _ :: d => u8 val :: mem_set d val cnt'
  | _, _ => dst
  end.

(** [char] is signed on the target. *)
Fixpoint mem_cmp (dst src : list Z) (cnt : nat) : Z :=
  match cnt with
  | O => 0
  | S cnt' =>
    let r := sgn 8 (byte dst 0) - sgn 8 (byte src 0) in
    if r =? 0 then mem_cmp (drop 1 dst) (drop 1 src) cnt' else r
  end.

(** [bytes] stored at offset [k] of a buffer. *)
Definition blit (k : nat) (bs buf : list Z) : list Z := take k buf ++ bs ++ drop (k + length bs) buf.

Section Ops.
Context {D : Type} `{Disk D}.

Definition set_dev (d : D) (s : pff D) : pff D := mkPff (FatFs s) (objs s) d.
Definition set_FatFs (p : Z) (s : pff D) : pff D := mkPff p (objs s) (dev s).
Definition obj (p : Z) (s : pff D) : FATFS := default FATFS_0 (objs s !! p).
Definition fs (s : pff D) : FATFS := obj (FatFs s) s.
Definition put_obj (p : Z) (f : FATFS -> FATFS) : M (pff D) unit :=
  modify (fun s => mkPff (FatFs s) (<[p := f (obj p s)]> (objs s)) (dev s)).
Definition put_fs (f : FATFS -> FATFS) : M (pff D) unit := fun s => put_obj (FatFs s) f s.
Definition readp (sector offset count : Z) : M (pff D) (option (list Z)) :=
  fun s => let (r, d) := disk_readp sector offset count (dev s) in Ret r (set_dev d s).

Definition get_fat (clst : Z) : M (pff D) Z :=
  let* f := gets fs in
  if (clst <? 2) || (n_fatent f <=? clst) then ret 1
  else if fs_type f =? FS_FAT12 then
    let bc := u32 (clst + clst / 2) in
    let ofs := bc mod 512 in
    let bc := bc / 512 in
    let value (buf : list Z) :=
      let wc := ld_word buf in if negb (Z.land clst 1 =? 0) then Z.shiftr wc 4 else Z.land wc 0xFFF in
    if negb (ofs =? 511) then
      let* r := readp (u32 (fatbase f + bc)) ofs 2 in
      match r with None => ret 1 | Some b => ret (value b) end
    else
      let* r := readp (u32 (fatbase f + bc)) 511 1 in
      match r with
      | None => ret 1
      | Some b0 =>
        let* r := readp (u32 (fatbase f + bc + 1)) 0 1 in
        match r with None => ret 1 | Some b1 => ret (value (blit 1 b1 b0)) end
      end
  else if fs_type f =? FS_FAT16 then
    let* r := readp (u32 (fatbase f + clst / 256)) (clst mod 256 * 2) 2 in
    match r with None => ret 1 | Some b => ret (ld_word b) end
  else if fs_type f =? FS_FAT32 then
    let* r := readp (u32 (fatbase f + clst / 128)) (clst mod 128 * 4) 4 in
    match r with None => ret 1 | Some b => ret (Z.land (ld_dword b) 0x0FFFFFFF) end
  else ret 1.

Definition clust2sect (clst : Z) : M (pff D) Z :=
  let* f := gets fs in
  let clst := u32 (clst - 2) in
  if u32 (n_fatent f - 2) <=? clst then ret 0
  else ret (u32 (clst * csize f + database f)).

Definition get_clust (dir : list Z) : M (pff D) Z :=
  let* f := gets fs in
  let clst := if fs_type f =? FS_FAT32 then u32 (Z.shiftl (ld_word (drop 20 dir)) 16) else 0 in
  ret (Z.lor clst (ld_word (drop 26 dir))).

Definition dir_rewind (dj : DIR) : M (pff D) (FRESULT * DIR) :=
  let* f := gets fs in
  let dj := set_index 0 dj in
  let clst := sclust dj in
  if (clst =? 1) || (n_fatent f <=? clst) then ret (FR_DISK_ERR, dj)
  else
    let clst := if (clst =? 0) && (fs_type f =? FS_FAT32) then dirbase f else clst in
    let dj := set_clust clst dj in
    let* sct := (if negb (clst =? 0) then clust2sect clst else ret (dirbase f)) in
    ret (FR_OK, set_sect sct dj).

Definition dir_next (dj : DIR) : M (pff D) (FRESULT * DIR) :=
  let* f := gets fs in
  let i := u16 (index dj + 1) in
  if (i =? 0) || (sect dj =? 0) then ret (FR_NO_FILE, dj)
  else if negb (i mod 16 =? 0) then ret (FR_OK, set_index i dj)
  else
    let dj := set_sect (u32 (sect dj + 1)) dj in
    if clust dj =? 0 then
      if n_rootdir f <=? i then ret (FR_NO_FILE, dj) else ret (FR_OK, set_index i dj)
    else if negb (Z.land (i / 16) (csize f - 1) =? 0) then ret (FR_OK, set_index i dj)
    else
      let* clst := get_fat (clust dj) in
      if clst <=? 1 then ret (FR_DISK_ERR, dj)
      else if n_fatent f <=? clst then ret (FR_NO_FILE, dj)
      else
        let dj := set_clust clst dj in
        let* sct := clust2sect clst in
        ret (FR_OK, set_index i (set_sect sct dj)).

(** [dir_find] and [dir_read] advance [index] in each turn, and [dir_next]
    stops at 65535: 65536 turns are enough. *)
Fixpoint dir_find_loop (fuel : nat) (dj : DIR) (dir : list Z) : M (pff D) (FRESULT * DIR * list Z) :=
  match fuel with
  | O => fun _ => NoFuel
  | S fuel' =>
    let* r := readp (sect dj) (index dj mod 16 * 32) 32 in
    match r with
    | None => ret (FR_DISK_ERR, dj, dir)
    | Some bs =>
      let dir := blit 0 bs dir in
      let c := byte dir 0 in
      if c =? 0 then ret (FR_NO_FILE, dj, dir)
      else if (Z.land (byte dir 11) AM_VOL =? 0) && (mem_cmp dir (fn dj) 11 =? 0) then ret (FR_OK, dj, dir)
      else
        let* rd := dir_next dj in
        match rd with
        | (FR_OK, dj) => dir_find_loop fuel' dj dir
        | (res, dj) => ret (res, dj, dir)
        end
    end
  end.

Definition turns : nat := Z.to_nat 65536.

Definition dir_find (dj : DIR) (dir : list Z) : M (pff D) (FRESULT * DIR * list Z) :=
  let* rd := dir_rewind dj in
  match rd with
  | (FR_OK, dj) => dir_find_loop turns dj dir
  | (res, dj) => ret (res, dj, dir)
  end.

Fixpoint dir_read_loop (fuel : nat) (res : FRESULT) (dj : DIR) (dir : list Z) : M (pff D) (FRESULT * DIR * list Z) :=
  match fuel with
  | O => fun _ => NoFuel
  | S fuel' =>
    if sect dj =? 0 then ret (res, dj, dir)
    else
      let* r := readp (sect dj) (index dj mod 16 * 32) 32 in
      match r with
      | None => ret (FR_DISK_ERR, dj, dir)
      | Some bs =>
        let dir := blit 0 bs dir in
        let c := byte dir 0 in
        if c =? 0 then ret (FR_NO_FILE, dj, dir)
        else
          let a := Z.land (byte dir 11) AM_MASK in
          if negb (c =? 0xE5) && negb (c =? 46) && (Z.land a AM_VOL =? 0) then ret (FR_OK, dj, dir)
          else
            let* rd := dir_next dj in
            match rd with
            | (FR_OK, dj) => dir_read_loop fuel' FR_OK dj dir
            | (res, dj) => ret (res, dj, dir)
            end
      end
  end.

Definition dir_read (dj : DIR) (dir : list Z) : M (pff D) (FRESULT * DIR * list Z) :=
  let* r := dir_read_loop (S turns) FR_NO_FILE dj dir in
  let '(res, dj, dir) := r in
  ret (res, (if decide (res = FR_OK) then dj else set_sect 0 dj), dir).

End Ops.


(** ** Names and paths *)

(** The loop of [create_name]: [si], [i], [ni], the name so far; returns
    [si], the character that ended the segment and the name.  A segment takes
    at most 13 characters. *)
Fixpoint create_name_loop (cfg : config) (fuel : nat) (p : list Z) (si i ni : nat) (sfn : list Z) :
    option (nat * Z * list Z) :=
  match fuel with
  | O => None
  | S fuel' =>
    let c := byte p si in
    let si := S si in
    if (c <=? 32) || (c =? 47) then Some (si, c, sfn)
    else if (c =? 46) || (ni <=? i)%nat then
      if negb (ni =? 8)%nat || negb (c =? 46) then Some (si, c, sfn)
      else create_name_loop cfg fuel' p si 8 11 sfn
    else
      let c := match EXCVT cfg with
               | Some cvt => if PF_USE_LCC cfg && (0x80 <=? c) then byte cvt (Z.to_nat (c - 0x80)) else c
               | None => c
               end in
      if IsDBCS1 cfg c && (i <? ni - 1)%nat then
        let d := byte p si in
        create_name_loop cfg fuel' p (S si) (S (S i)) ni (<[S i := d]> (<[i := c]> sfn))
      else
        let c := if PF_USE_LCC cfg && IsLower c then c - 0x20 else c in
        create_name_loop cfg fuel' p si (S i) ni (<[i := c]> sfn)
  end.

Definition create_name (cfg : config) (dj : DIR) (path : list Z) : option (DIR * list Z) :=
  let sfn := mem_set (fn dj) 32 11 in
  match create_name_loop cfg 16 path 0 0 8 sfn with
  | None => None
  | Some (si, c, sfn) => Some (set_fn (<[11%nat := if c <=? 32 then 1 else 0]> sfn) dj, drop si path)
  end.

Fixpoint copy_body (l : list Z) : list Z :=
  match l with
  | [] => []
  | c :: l => if c =? 32 then [] else (if c =? 0x05 then 0xE5 else c) :: copy_body l
  end.
Fixpoint copy_ext (l : list Z) : list Z :=
  match l with
  | [] => []
  | c :: l => if c =? 32 then [] else c :: copy_ext l
  end.

(** [get_fileinfo]; what the name buffer held is overwritten up to and
    including the terminator. *)
Definition get_fileinfo (dj : DIR) (dir : list Z) (fno : FILINFO) : FILINFO :=
  if negb (sect dj =? 0) then
    let p := copy_body (take 8 dir) ++
             (if negb (byte dir 8 =? 32) then 46 :: copy_ext (take 3 (drop 8 dir)) else []) in
    mkFILINFO (ld_dword (drop 28 dir)) (ld_word (drop 24 dir)) (ld_word (drop 22 dir)) (byte dir 11)
      (blit 0 (p ++ [0]) (fi_fname fno))
  else
    mkFILINFO (fi_fsize fno) (fi_fdate fno) (fi_ftime fno) (fi_fattrib fno) (blit 0 [0] (fi_fname fno)).

Fixpoint skip_spaces (path : list Z) : list Z :=
  match path with
  | c :: l => if c =? 32 then skip_spaces l else path
  | [] => []
  end.

Section Api.
Context {D : Type} `{Disk D} (cfg : config).

Fixpoint follow_loop (fuel : nat) (dj : DIR) (dir path : list Z) : M (pff D) (FRESULT * DIR * list Z) :=
  match fuel with
  | O => fun _ => NoFuel
  | S fuel' =>
    match create_name cfg dj path with
    | None => fun _ => NoFuel
    | Some (dj, path) =>
      let* r := dir_find dj dir in
      match r with
      | (FR_OK, dj, dir) =>
        if negb (byte (fn dj) 11 =? 0) then ret (FR_OK, dj, dir)
        else if Z.land (byte dir 11) AM_DIR =? 0 then ret (FR_NO_FILE, dj, dir)
        else
          let* c := get_clust dir in
          follow_loop fuel' (set_sclust c dj) dir path
      | (res, dj, dir) => ret (res, dj, dir)
      end
    end
  end.

(** Each turn takes at least one character of the path. *)
Definition follow_path (dj : DIR) (dir path : list Z) : M (pff D) (FRESULT * DIR * list Z) :=
  let path := skip_spaces path in
  let path := if byte path 0 =? 47 then drop 1 path else path in
  let dj := set_sclust 0 dj in
  if byte path 0 <? 32 then
    let* r := dir_rewind dj in
    let (res, dj) := r in
    ret (res, dj, <[0%nat := 0]> dir)
  else follow_loop (S (length path)) dj dir path.

Definition check_fs (buf : list Z) (sct : Z) : M (pff D) (Z * list Z) :=
  let* r := readp sct 510 2 in
  match r with
  | None => ret (3, buf)
  | Some b =>
    let buf := blit 0 b buf in
    if negb (ld_word buf =? 0xAA55) then ret (2, buf)
    else
      let* r := readp sct 54 2 in
      let buf := match r with Some b => blit 0 b buf | None => buf end in
      if bool_decide (r <> None) && (ld_word buf =? 0x4146) then ret (0, buf)
      else
        let* r := readp sct 82 2 in
        let buf := match r with Some b => blit 0 b buf | None => buf end in
        if bool_decide (r <> None) && (ld_word buf =? 0x4146) then ret (0, buf)
        else ret (1, buf)
  end.

(** The fields computed from the BIOS parameter block, [buf] being its bytes
    from offset 13 on.  A zero cluster size raises the divide fault: the
    machine stops. *)
Definition mount_bpb (p bsect : Z) (buf : list Z) : M (pff D) FRESULT :=
  let fsz := ld_word (drop (22 - 13) buf) in
  let fsz := if fsz =? 0 then ld_dword (drop (36 - 13) buf) else fsz in
  let fsz := u32 (fsz * byte buf (16 - 13)) in
  put_obj p (set_fatbase (u32 (bsect + ld_word (drop (14 - 13) buf)))) ;;;
  put_obj p (set_csize (byte buf (13 - 13))) ;;;
  put_obj p (set_n_rootdir (ld_word (drop (17 - 13) buf))) ;;;
  let tsect := ld_word (drop (19 - 13) buf) in
  let tsect := if tsect =? 0 then ld_dword (drop (32 - 13) buf) else tsect in
  let* f := gets (obj p) in
  if csize f =? 0 then done_
  else
  let mclst := u32 (u32 (tsect - ld_word (drop (14 - 13) buf) - fsz - n_rootdir f / 16) / csize f + 2) in
  put_obj p (set_n_fatent mclst) ;;;
  let fmt := if mclst <? 0xFF7 then FS_FAT12 else 0 in
  let fmt := if (0xFF8 <=? mclst) && (mclst <? 0xFFF7) then FS_FAT16 else fmt in
  let fmt := if 0xFFF7 <=? mclst then FS_FAT32 else fmt in
  if fmt =? 0 then ret FR_NO_FILESYSTEM
  else
  put_obj p (set_fs_type fmt) ;;;
  put_obj p (set_dirbase (if fmt =? FS_FAT32 then ld_dword (drop (44 - 13) buf) else u32 (fatbase f + fsz))) ;;;
  put_obj p (set_database (u32 (fatbase f + fsz + n_rootdir f / 16))) ;;;
  put_obj p (set_flag 0) ;;;
  modify (set_FatFs p) ;;;
  ret FR_OK.

Definition pf_mount (p : Z) : M (pff D) FRESULT :=
  modify (set_FatFs 0) ;;;
  let* st := (fun s => let (r, d) := disk_initialize (dev s) in Ret r (set_dev d s)) in
  if negb (Z.land st STA_NOINIT =? 0) then ret FR_NOT_READY
  else
  let buf := replicate 36 0 in
  let* r := check_fs buf 0 in
  let (fmt, buf) := r in
  let* r :=
    (if fmt =? 1 then
       let* r := readp 0 446 16 in
       match r with
       | None => ret (3, 0, buf)
       | Some b =>
         let buf := blit 0 b buf in
         if negb (byte buf 4 =? 0) then
           let bsect := ld_dword (drop 8 buf) in
           let* r := check_fs buf bsect in
           let (fmt, buf) := r in ret (fmt, bsect, buf)
         else ret (fmt, 0, buf)
       end
     else ret (fmt, 0, buf)) in
  let '(fmt, bsect, buf) := r in
  if fmt =? 3 then ret FR_DISK_ERR
  else if negb (fmt =? 0) then ret FR_NO_FILESYSTEM
  else
  let* r := readp bsect 13 36 in
  match r with
  | None => ret FR_DISK_ERR
  | Some b => mount_bpb p bsect (blit 0 b buf)
  end.

Definition abort (err : FRESULT) : M (pff D) FRESULT := put_fs (set_flag 0) ;;; ret err.

Definition dj0 : DIR := mkDIR 0 (replicate 12 0) 0 0 0.

Definition pf_open (path : list Z) : M (pff D) FRESULT :=
  let* p := gets FatFs in
  if p =? 0 then ret FR_NOT_ENABLED
  else
  put_fs (set_flag 0) ;;;
  let* r := follow_path dj0 (replicate 32 0) path in
  match r with
  | (FR_OK, dj, dir) =>
    if (byte dir 0 =? 0) || negb (Z.land (byte dir 11) AM_DIR =? 0) then ret FR_NO_FILE
    else
    let* c := get_clust dir in
    put_fs (set_org_clust c) ;;;
    put_fs (set_fsize (ld_dword (drop 28 dir))) ;;;
    put_fs (set_fptr 0) ;;;
    put_fs (set_flag FA_OPENED) ;;;
    ret FR_OK
  | (res, _, _) => ret res
  end.

(** The sector step shared by [pf_read] and [pf_write]: on a sector boundary
    find the sector of [fptr]. [Some e] is an abort with [e]. *)
Definition seek_sector : M (pff D) (option FRESULT) :=
  let* f := gets fs in
  if negb (fptr f mod 512 =? 0) then ret None
  else
  let cs := u8 (Z.land (fptr f / 512) (u32 (csize f - 1))) in
  let* e :=
    (if cs =? 0 then
       let* clst := (if fptr f =? 0 then ret (org_clust f) else get_fat (curr_clust f)) in
       if clst <=? 1 then ret (Some FR_DISK_ERR)
       else put_fs (set_curr_clust clst) ;;; ret None
     else ret None) in
  match e with
  | Some e => ret (Some e)
  | None =>
    let* f := gets fs in
    let* sct := clust2sect (curr_clust f) in
    if sct =? 0 then ret (Some FR_DISK_ERR)
    else put_fs (set_dsect (u32 (sct + cs))) ;;; ret None
  end.

(** [pf_read]: result, [*br] and the bytes stored at the buffer. Each turn
    reads at least one byte. *)
Fixpoint read_loop (fuel : nat) (btr br : Z) (rbuff : list Z) : M (pff D) (FRESULT * Z * list Z) :=
  if btr =? 0 then ret (FR_OK, br, rbuff)
  else
  match fuel with
  | O => fun _ => NoFuel
  | S fuel' =>
    let* e := seek_sector in
    match e with
    | Some e => let* r := abort e in ret (r, br, rbuff)
    | None =>
      let* f := gets fs in
      let rcnt := 512 - fptr f mod 512 in
      let rcnt := if btr <? rcnt then btr else rcnt in
      let* dr := readp (dsect f) (fptr f mod 512) rcnt in
      match dr with
      | None => let* r := abort FR_DISK_ERR in ret (r, br, rbuff)
      | Some bs =>
        put_fs (set_fptr (u32 (fptr f + rcnt))) ;;;
        read_loop fuel' (btr - rcnt) (u32 (br + rcnt)) (rbuff ++ bs)
      end
    end
  end.

Definition pf_read (btr : Z) : M (pff D) (FRESULT * Z * list Z) :=
  let* p := gets FatFs in
  if p =? 0 then ret (FR_NOT_ENABLED, 0, [])
  else
  let* f := gets fs in
  if Z.land (flag f) FA_OPENED =? 0 then ret (FR_NOT_OPENED, 0, [])
  else
  let remain := u32 (fsize f - fptr f) in
  let btr := if remain <? btr then remain else btr in
  read_loop (Z.to_nat btr) btr 0 [].

(** The loop of [pf_lseek]: cluster and remaining offset. With a zero
    cluster size, which [pf_mount] never leaves, the model has no result. *)
Fixpoint lseek_loop (fuel : nat) (bcs clst ofs : Z) : M (pff D) (option (Z * Z)) :=
  if ofs <=? bcs then ret (Some (clst, ofs))
  else
  match fuel with
  | O => fun _ => NoFuel
  | S fuel' =>
    let* clst := get_fat clst in
    let* f := gets fs in
    if (clst <=? 1) || (n_fatent f <=? clst) then ret None
    else
    put_fs (set_curr_clust clst) ;;;
    put_fs (set_fptr (u32 (fptr f + bcs))) ;;;
    lseek_loop fuel' bcs clst (ofs - bcs)
  end.

Definition pf_lseek (ofs : Z) : M (pff D) FRESULT :=
  let* p := gets FatFs in
  if p =? 0 then ret FR_NOT_ENABLED
  else
  let* f := gets fs in
  if Z.land (flag f) FA_OPENED =? 0 then ret FR_NOT_OPENED
  else
  let ofs := if fsize f <? ofs then fsize f else ofs in
  let ifptr := fptr f in
  put_fs (set_fptr 0) ;;;
  if negb (0 <? ofs) then ret FR_OK
  else
  let bcs := u32 (csize f * 512) in
  if (0 <? ifptr) && (bcs =? 0) then done_
  else
  let* r :=
    (if (0 <? ifptr) && ((ifptr - 1) / bcs <=? (ofs - 1) / bcs) then
       let fp := Z.land (ifptr - 1) (u32 (Z.lnot (bcs - 1))) in
       put_fs (set_fptr fp) ;;;
       ret (curr_clust f, u32 (ofs - fp))
     else
       put_fs (set_curr_clust (org_clust f)) ;;;
       ret (org_clust f, ofs)) in
  let '(clst, ofs) := r in
  let* r := lseek_loop (Z.to_nat (ofs / bcs)) bcs clst ofs in
  match r with
  | None => abort FR_DISK_ERR
  | Some (clst, ofs) =>
    let* f := gets fs in
    put_fs (set_fptr (u32 (fptr f + ofs))) ;;;
    let* sct := clust2sect clst in
    if sct =? 0 then abort FR_DISK_ERR
    else
    let* f := gets fs in
    put_fs (set_dsect (u32 (sct + Z.land (fptr f / 512) (u32 (csize f - 1))))) ;;;
    ret FR_OK
  end.

Definition pf_opendir (dj : DIR) (path : list Z) : M (pff D) (FRESULT * DIR) :=
  let* p := gets FatFs in
  if p =? 0 then ret (FR_NOT_ENABLED, dj)
  else
  let* r := follow_path (set_fn (replicate 12 0) dj) (replicate 32 0) path in
  match r with
  | (FR_OK, dj, dir) =>
    if negb (byte dir 0 =? 0) then
      if negb (Z.land (byte dir 11) AM_DIR =? 0) then
        let* c := get_clust dir in
        dir_rewind (set_sclust c dj)
      else ret (FR_NO_FILE, dj)
    else dir_rewind dj
  | (res, dj, _) => ret (res, dj)
  end.

(** [fno] is [None] for the null pointer. *)
Definition pf_readdir (dj : DIR) (fno : option FILINFO) : M (pff D) (FRESULT * DIR * option FILINFO) :=
  let* p := gets FatFs in
  if p =? 0 then ret (FR_NOT_ENABLED, dj, fno)
  else
  let dj := set_fn (replicate 12 0) dj in
  match fno with
  | None => let* r := dir_rewind dj in let (res, dj) := r in ret (res, dj, None)
  | Some fi =>
    let* r := dir_read dj (replicate 32 0) in
    let '(res, dj, dir) := r in
    let res := match res with FR_NO_FILE => FR_OK | _ => res end in
    match res with
    | FR_OK =>
      let fi := get_fileinfo dj dir fi in
      let* r := dir_next dj in
      let (res, dj) := r in
      ret (match res with FR_NO_FILE => FR_OK | _ => res end, dj, Some fi)
    | _ => ret (res, dj, Some fi)
    end
  end.

End Api.

(** [pf_write], compiled when [PF_USE_WRITE] is set: result and [*bw]. *)
Section Write.
Context {D : Type} `{Disk D} `{DiskWrite D}.

Definition writep (buff : option (list Z)) (sc : Z) : M (pff D) Z :=
  fun s => let (r, d) := disk_writep buff sc (dev s) in Ret r (set_dev d s).

Definition clear_wip (f : FATFS) : FATFS := set_flag (Z.land (flag f) (u8 (Z.lnot FA__WIP))) f.

Fixpoint write_loop (fuel : nat) (p : list Z) (btw bw : Z) : M (pff D) (FRESULT * Z) :=
  if btw =? 0 then ret (FR_OK, bw)
  else
  match fuel with
  | O => fun _ => NoFuel
  | S fuel' =>
    let* f := gets fs in
    let* e :=
      (if fptr f mod 512 =? 0 then
         let* e := seek_sector in
         match e with
         | Some e => ret (Some e)
         | None =>
           let* f := gets fs in
           let* w := writep None (dsect f) in
           if negb (w =? 0) then ret (Some FR_DISK_ERR)
           else put_fs (fun f => set_flag (Z.lor (flag f) FA__WIP) f) ;;; ret None
         end
       else ret None) in
    match e with
    | Some e => let* r := abort e in ret (r, bw)
    | None =>
      let wcnt := 512 - fptr f mod 512 in
      let wcnt := if btw <? wcnt then btw else wcnt in
      let* w := writep (Some (take (Z.to_nat wcnt) p)) wcnt in
      if negb (w =? 0) then let* r := abort FR_DISK_ERR in ret (r, bw)
      else
      put_fs (fun f => set_fptr (u32 (fptr f + wcnt)) f) ;;;
      let p := drop (Z.to_nat wcnt) p in
      let btw := btw - wcnt in
      let bw := u32 (bw + wcnt) in
      let* f := gets fs in
      if fptr f mod 512 =? 0 then
        let* w := writep None 0 in
        if negb (w =? 0) then let* r := abort FR_DISK_ERR in ret (r, bw)
        else put_fs clear_wip ;;; write_loop fuel' p btw bw
      else write_loop fuel' p btw bw
    end
  end.

Definition pf_write (buff : list Z) (btw : Z) : M (pff D) (FRESULT * Z) :=
  let* p := gets FatFs in
  if p =? 0 then ret (FR_NOT_ENABLED, 0)
  else
  let* f := gets fs in
  if Z.land (flag f) FA_OPENED =? 0 then ret (FR_NOT_OPENED, 0)
  else if btw =? 0 then
    let* w := (if negb (Z.land (flag f) FA__WIP =? 0) then writep None 0 else ret 0) in
    if negb (w =? 0) then let* r := abort FR_DISK_ERR in ret (r, 0)
    else put_fs clear_wip ;;; ret (FR_OK, 0)
  else
    (if Z.land (flag f) FA__WIP =? 0 then put_fs (fun f => set_fptr (Z.land (fptr f) 0xFFFFFE00) f) else ret tt) ;;;
    let* f := gets fs in
    let remain := u32 (fsize f - fptr f) in
    let btw := if remain <? btw then remain else btw in
    write_loop (Z.to_nat btw) buff btw 0.

End Write.

End Pff.
