(* ===== verification/PffSpec.v ===== *)
(** FAT volumes, part one: what a volume on disk means, and the theorems on
    the lookup of FAT entries, clusters, directory entries and names. *)

From stdpp Require Import base tactics list gmap numbers option.
From Stdlib Require Import ZArith Lia.
From S2P Require Import Prelude Pff.

#[local] Open Scope Z_scope.

Module PffSpec.
Import Prelude Pff.
#[local] Open Scope lofi_scope.

(** ** Bytes *)

Lemma testbit_byte b i : 0 <= b < 256 -> 8 <= i -> Z.testbit b i = false.
Proof. intros Hb Hi. apply (testbit_high b 8); lia. Qed.

Lemma lor_byte a b : 0 <= a < 256 -> 0 <= b -> Z.lor (Z.shiftl b 8) a = a + b * 256.
Proof. intros Ha Hb. rewrite Z.lor_comm. apply (lor_shiftl_add a b 8); lia. Qed.

Lemma ld_word_spec p :
  0 <= byte p 0 < 256 -> 0 <= byte p 1 < 256 -> ld_word p = byte p 0 + 256 * byte p 1.
Proof.
  intros H0 H1. unfold ld_word. rewrite (u16_id (byte p 1)), lor_byte, u16_id by lia. lia.
Qed.

Lemma ld_dword_spec p :
  0 <= byte p 0 < 256 -> 0 <= byte p 1 < 256 -> 0 <= byte p 2 < 256 -> 0 <= byte p 3 < 256 ->
  ld_dword p = byte p 0 + 256 * byte p 1 + 65536 * byte p 2 + 16777216 * byte p 3.
Proof.
  intros H0 H1 H2 H3. unfold ld_dword.
  rewrite (u32_id (byte p 3)), (lor_byte (byte p 2)), (u32_id (byte p 2 + _)) by lia.
  rewrite (lor_byte (byte p 1)), (u32_id (byte p 1 + _)) by lia.
  rewrite (lor_byte (byte p 0)), u32_id by lia. lia.
Qed.

Lemma word_bit a b i :
  0 <= a < 256 -> 0 <= b -> 0 <= i ->
  Z.testbit (a + 256 * b) i = if i <? 8 then Z.testbit a i else Z.testbit b (i - 8).
Proof.
  intros Ha Hb Hi. replace (a + 256 * b) with (a + b * 2 ^ 8) by lia.
  rewrite <- lor_shiftl_add by lia. rewrite Z.lor_spec, Z.shiftl_spec by lia.
  destruct (Z.ltb_spec i 8).
  - rewrite (Z.testbit_neg_r b) by lia. apply orb_false_r.
  - rewrite (testbit_byte a) by lia. done.
Qed.

(** ** Reading the disk *)

Section Disk.
Context {D : Type} `{Disk D}.

Definition slice (d : D) (sct ofs : Z) (n : nat) : list Z :=
  (fun i => img d sct (ofs + Z.of_nat i)) <$> seq 0 n.

Lemma length_slice d sct ofs n : length (slice d sct ofs n) = n.
Proof. unfold slice. by rewrite length_fmap, length_seq. Qed.

Lemma byte_slice d sct ofs n i : (i < n)%nat -> byte (slice d sct ofs n) i = img d sct (ofs + Z.of_nat i).
Proof. intros Hi. unfold byte, slice. rewrite list_lookup_fmap, lookup_seq_lt by done. done. Qed.

(** Two disks with the same contents. *)
Definition same (d d' : D) : Prop := img d' = img d /\ forall s, ready d' s <-> ready d s.

#[global] Instance same_refl : Reflexive same.
Proof. done. Qed.
#[global] Instance same_trans : Transitive same.
Proof. intros d1 d2 d3 [E1 R1] [E2 R2]. split; [congruence|]. intros s. by rewrite R2, R1. Qed.

Lemma readp_spec (s : pff D) sct ofs cnt :
  ready (dev s) sct -> 0 <= ofs -> 0 <= cnt -> ofs + cnt <= 512 ->
  exists d', readp sct ofs cnt s = Ret (Some (slice (dev s) sct ofs (Z.to_nat cnt))) (set_dev d' s) /\ same (dev s) d'.
Proof.
  intros Hr H1 H2 H3. unfold readp. assert (Hn := ready_read sct ofs cnt _ Hr H1 H2 H3).
  assert (Hi := readp_img sct ofs cnt (dev s)). assert (Hr' := fun x => readp_ready sct ofs cnt (dev s) x).
  destruct (disk_readp sct ofs cnt (dev s)) as [[bs|] d'] eqn:E; [|done]. exists d'. cbn [fst snd] in *.
  split; [|done]. by rewrite (readp_data _ _ _ _ _ _ H1 H2 H3 E).
Qed.

(** [readp] never stops and keeps the disk, whatever the answer. *)
Lemma readp_same (s : pff D) sct ofs cnt :
  exists r d', readp sct ofs cnt s = Ret r (set_dev d' s) /\ same (dev s) d'.
Proof.
  unfold readp. assert (Hi := readp_img sct ofs cnt (dev s)).
  assert (Hr' := fun x => readp_ready sct ofs cnt (dev s) x).
  destruct (disk_readp sct ofs cnt (dev s)) as [r d'] eqn:E. exists r, d'. by cbn [fst snd] in *.
Qed.

Lemma fs_set_dev d (s : pff D) : fs (set_dev d s) = fs s.
Proof. done. Qed.

(** ** The file allocation table as a sequence of bits *)

Definition fatbyte (d : D) (base k : Z) : Z := img d (base + k / 512) (k mod 512).
Definition fat_bit (d : D) (base k : Z) : bool := Z.testbit (fatbyte d base (k / 8)) (k mod 8).

(** Bits per entry and how many of them count. *)
Definition entry_bits (t : Z) : Z := if t =? FS_FAT12 then 12 else if t =? FS_FAT16 then 16 else 32.
Definition value_bits (t : Z) : Z := if t =? FS_FAT12 then 12 else if t =? FS_FAT16 then 16 else 28.

Lemma fatbyte_range d base k : 0 <= fatbyte d base k < 256.
Proof. apply img_byte. Qed.

Lemma fat_bit_word d base B i :
  0 <= i < 16 ->
  Z.testbit (fatbyte d base B + 256 * fatbyte d base (B + 1)) i = fat_bit d base (8 * B + i).
Proof.
  intros Hi. assert (H0 := fatbyte_range d base B). assert (H1 := fatbyte_range d base (B + 1)).
  rewrite word_bit by lia. unfold fat_bit. destruct (Z.ltb_spec i 8).
  - replace ((8 * B + i) / 8) with B by (zdm; lia). f_equal. zdm; lia.
  - replace ((8 * B + i) / 8) with (B + 1) by (zdm; lia). f_equal. zdm; lia.
Qed.

Lemma fat_bit_dword d base B i :
  0 <= i < 32 ->
  Z.testbit (fatbyte d base B + 256 * fatbyte d base (B + 1) + 65536 * fatbyte d base (B + 2)
             + 16777216 * fatbyte d base (B + 3)) i = fat_bit d base (8 * B + i).
Proof.
  intros Hi. assert (H0 := fatbyte_range d base B). assert (H1 := fatbyte_range d base (B + 1)).
  assert (H2 := fatbyte_range d base (B + 2)). assert (H3 := fatbyte_range d base (B + 3)).
  replace (fatbyte d base B + 256 * fatbyte d base (B + 1) + 65536 * fatbyte d base (B + 2) + 16777216 * fatbyte d base (B + 3))
    with (fatbyte d base B + 256 * (fatbyte d base (B + 1) + 256 * (fatbyte d base (B + 2) + 256 * fatbyte d base (B + 3)))) by lia.
  rewrite word_bit by lia. unfold fat_bit. destruct (Z.ltb_spec i 8).
  { replace ((8 * B + i) / 8) with B by (zdm; lia). f_equal. zdm; lia. }
  rewrite word_bit by lia. destruct (Z.ltb_spec (i - 8) 8).
  { replace ((8 * B + i) / 8) with (B + 1) by (zdm; lia). f_equal. zdm; lia. }
  rewrite word_bit by lia. destruct (Z.ltb_spec (i - 8 - 8) 8).
  { replace ((8 * B + i) / 8) with (B + 2) by (zdm; lia). f_equal. zdm; lia. }
  replace ((8 * B + i) / 8) with (B + 3) by (zdm; lia). f_equal. zdm; lia.
Qed.

(** The allocation table of a mounted volume can be read. *)
Record fat_ok (d : D) (f : FATFS) : Prop := {
  fo_base : 0 <= fatbase f < 2 ^ 31;
  fo_ents : n_fatent f <= 2 ^ 28;
  fo_type : fs_type f = FS_FAT12 \/ fs_type f = FS_FAT16 \/ fs_type f = FS_FAT32;
  fo_ready k : 0 <= k -> 8 * k < entry_bits (fs_type f) * n_fatent f -> ready d (fatbase f + k / 512)
}.

Lemma fat_word (s : pff D) f B n :
  fat_ok (dev s) f -> 0 <= B -> (n <= 4)%nat -> 8 * B < entry_bits (fs_type f) * n_fatent f ->
  (0 < n)%nat -> B mod 512 + Z.of_nat n <= 512 ->
  exists d', readp (u32 (fatbase f + B / 512)) (B mod 512) (Z.of_nat n) s =
      Ret (Some (slice (dev s) (fatbase f + B / 512) (B mod 512) n)) (set_dev d' s) /\ same (dev s) d' /\
    forall i, (i < n)%nat -> byte (slice (dev s) (fatbase f + B / 512) (B mod 512) n) i = fatbyte (dev s) (fatbase f) (B + Z.of_nat i).
Proof.
  intros Hf HB Hn4 Hk Hn Hc. assert (Hfb := fo_base _ _ Hf). assert (Hfe := fo_ents _ _ Hf).
  assert (He : 0 <= entry_bits (fs_type f) <= 32) by (unfold entry_bits; repeat destruct (_ =? _); lia).
  assert (entry_bits (fs_type f) * n_fatent f <= 32 * 2 ^ 28).
  { transitivity (entry_bits (fs_type f) * 2 ^ 28); [apply Z.mul_le_mono_nonneg_l; lia|apply Z.mul_le_mono_nonneg_r; lia]. }
  assert (HB' : 8 * B < 2 ^ 33) by lia.
  rewrite (u32_id (fatbase f + B / 512)) by (zdm).
  destruct (readp_spec s (fatbase f + B / 512) (B mod 512) (Z.of_nat n)) as (d' & E & Hs).
  - apply (fo_ready _ _ Hf); lia.
  - zdm.
  - lia.
  - lia.
  - exists d'. rewrite Nat2Z.id in E. split; [exact E|]. split; [exact Hs|].
    intros i Hi. rewrite byte_slice by done. unfold fatbyte.
    replace ((B + Z.of_nat i) / 512) with (B / 512) by (zdm).
    replace ((B + Z.of_nat i) mod 512) with (B mod 512 + Z.of_nat i) by (zdm). done.
Qed.

Lemma fat_ok_same d d' f : same d d' -> fat_ok d f -> fat_ok d' f.
Proof. intros [_ Hr] [H1 H2 H3 H4]. split; try done. intros k Hk Hk'. apply Hr. auto. Qed.

(** A 12-bit entry from the two bytes it lies in. *)
Lemma fat12_value d base clst :
  0 <= clst ->
  let B := clst + clst / 2 in
  let wc := fatbyte d base B + 256 * fatbyte d base (B + 1) in
  let v := if negb (Z.land clst 1 =? 0) then Z.shiftr wc 4 else Z.land wc 0xFFF in
  0 <= v < 2 ^ 12 /\ forall j, 0 <= j < 12 -> Z.testbit v j = fat_bit d base (12 * clst + j).
Proof.
  intros Hc B wc v. assert (H0 := fatbyte_range d base B). assert (H1 := fatbyte_range d base (B + 1)).
  assert (Hwc : 0 <= wc < 2 ^ 16) by (subst wc; lia).
  assert (Hl : Z.land clst 1 = clst mod 2) by apply (Z.land_ones clst 1 ltac:(lia)).
  subst v. rewrite Hl. change 0xFFF with (Z.ones 12). rewrite land_ones_mod by lia.
  destruct (Z.eqb_spec (clst mod 2) 0) as [Ev|Od]; cbn [negb].
  - split; [apply Z.mod_pos_bound; lia|]. intros j Hj. rewrite Z.mod_pow2_bits_low by lia.
    subst wc. rewrite fat_bit_word by lia. f_equal. subst B. zdm.
  - split; [rewrite Z.shiftr_div_pow2 by lia; zdm|]. intros j Hj. rewrite Z.shiftr_spec by lia.
    subst wc. rewrite fat_bit_word by lia. f_equal. subst B. zdm.
Qed.

(** [get_fat] reads the entry's bits. *)
Lemma get_fat_bits_spec (s : pff D) clst :
  fat_ok (dev s) (fs s) -> 2 <= clst < n_fatent (fs s) ->
  exists v d', get_fat clst s = Ret v (set_dev d' s) /\ same (dev s) d' /\
    0 <= v < 2 ^ value_bits (fs_type (fs s)) /\
    forall j, 0 <= j < value_bits (fs_type (fs s)) ->
      Z.testbit v j = fat_bit (dev s) (fatbase (fs s)) (entry_bits (fs_type (fs s)) * clst + j).
Proof.
  intros Hf Hc. set (f := fs s) in *. assert (Hfb := fo_base _ _ Hf). assert (Hfe := fo_ents _ _ Hf).
  unfold get_fat, gets. unfold bind at 1. fold f.
  destruct (Z.ltb_spec clst 2); [lia|]. destruct (Z.leb_spec (n_fatent f) clst); [lia|]. cbn [orb].
  assert (Hw := fun n B => fat_word s f B n Hf). unfold entry_bits, value_bits in *.
  destruct (fo_type _ _ Hf) as [Ht|[Ht|Ht]]; rewrite Ht in *; cbn [Z.eqb FS_FAT12 FS_FAT16 FS_FAT32 Pos.eqb] in *.
  - set (B := clst + clst / 2). assert (HB : u32 B = B) by (apply u32_id; subst B; zdm).
    rewrite HB. destruct (fat12_value (dev s) (fatbase f) clst ltac:(lia)) as [Hv Hbits]. fold B in Hv, Hbits.
    assert (Hfin : forall buf d', byte buf 0 = fatbyte (dev s) (fatbase f) B ->
              byte buf 1 = fatbyte (dev s) (fatbase f) (B + 1) -> same (dev s) d' ->
              exists v d'', (ret (if negb (Z.land clst 1 =? 0) then Z.shiftr (ld_word buf) 4 else Z.land (ld_word buf) 0xFFF)
                             : M (pff D) Z) (set_dev d' s) = Ret v (set_dev d'' s) /\ same (dev s) d'' /\
                0 <= v < 2 ^ 12 /\ forall j, 0 <= j < 12 -> Z.testbit v j = fat_bit (dev s) (fatbase f) (12 * clst + j)).
    { intros buf d' E0 E1 Hs. rewrite ld_word_spec, E0, E1 by (rewrite ?E0, ?E1; apply fatbyte_range).
      eexists _, d'. split; [reflexivity|]. split; [exact Hs|]. split; [exact Hv|exact Hbits]. }
    destruct (Z.eqb_spec (B mod 512) 511) as [E511|N511]; cbn [negb].
    + destruct (Hw 1%nat B) as (d1 & E1 & Hs1 & Hb1); [subst B; zdm|lia|subst B; zdm|lia|lia|].
      rewrite E511 in E1, Hb1. erewrite bind_ret by exact E1.
      destruct (fat_word (set_dev d1 s) f (B + 1) 1 (fat_ok_same _ _ _ Hs1 Hf)) as (d2 & E2 & Hs2 & Hb2);
        [subst B; zdm|lia|rewrite Ht; change (entry_bits FS_FAT12) with 12; subst B; zdm|lia|zdm|].
      replace ((B + 1) / 512) with (B / 512 + 1) in E2, Hb2 by (zdm).
      replace ((B + 1) mod 512) with 0 in E2, Hb2 by (zdm).
      replace (fatbase f + B / 512 + 1) with (fatbase f + (B / 512 + 1)) by lia.
      erewrite bind_ret by exact E2. change (set_dev d2 (set_dev d1 s)) with (set_dev d2 s).
      apply Hfin; [| |by transitivity d1].
      * change (byte (blit 1 _ (slice ?a ?b ?c 1)) 0) with (byte (slice a b c 1) 0).
        rewrite (Hb1 0%nat) by lia. f_equal. lia.
      * change (byte (blit 1 ?b1 (slice ?a ?b ?c 1)) 1) with (byte b1 0).
        rewrite (Hb2 0%nat) by lia. unfold fatbyte. change (dev (set_dev d1 s)) with d1. rewrite (proj1 Hs1).
        replace (B + 1 + Z.of_nat 0) with (B + 1) by lia. done.
    + destruct (Hw 2%nat B) as (d1 & E1 & Hs1 & Hb1); [subst B; zdm|lia|subst B; zdm|lia|zdm|].
      erewrite bind_ret by exact E1. apply Hfin; [|apply (Hb1 1%nat); lia|exact Hs1].
      rewrite (Hb1 0%nat) by lia. f_equal. lia.
  - destruct (Hw 2%nat (2 * clst)) as (d' & E & Hs & Hb); [lia..|zdm|].
    replace (2 * clst / 512) with (clst / 256) in * by (zdm).
    replace ((2 * clst) mod 512) with (clst mod 256 * 2) in * by (zdm).
    erewrite bind_ret by exact E. eexists _, d'. split; [reflexivity|]. split; [exact Hs|].
    rewrite ld_word_spec by (rewrite Hb by lia; apply fatbyte_range). rewrite !Hb by lia.
    replace (2 * clst + Z.of_nat 0) with (2 * clst) by lia. change (Z.of_nat 1) with 1.
    assert (Hb0 := fatbyte_range (dev s) (fatbase f) (2 * clst)). assert (Hb1 := fatbyte_range (dev s) (fatbase f) (2 * clst + 1)).
    split; [lia|]. intros j Hj. rewrite fat_bit_word by lia. f_equal. lia.
  - destruct (Hw 4%nat (4 * clst)) as (d' & E & Hs & Hb); [lia..|zdm|].
    replace (4 * clst / 512) with (clst / 128) in * by (zdm).
    replace ((4 * clst) mod 512) with (clst mod 128 * 4) in * by (zdm).
    erewrite bind_ret by exact E. eexists _, d'. split; [reflexivity|]. split; [exact Hs|].
    change 0x0FFFFFFF with (Z.ones 28). rewrite land_ones_mod by lia.
    split; [apply Z.mod_pos_bound; lia|]. intros j Hj. rewrite Z.mod_pow2_bits_low by lia.
    rewrite ld_dword_spec by (rewrite Hb by lia; apply fatbyte_range). rewrite !Hb by lia.
    replace (4 * clst + Z.of_nat 0) with (4 * clst) by lia.
    change (Z.of_nat 1) with 1. change (Z.of_nat 2) with 2. change (Z.of_nat 3) with 3.
    rewrite fat_bit_dword by lia. f_equal. lia.
Qed.


(** *** FAT entries and cluster chains *)

Fixpoint num_of_bits (b : Z -> bool) (n : nat) : Z :=
  match n with
  | O => 0
  | S n' => Z.b2z (b 0) + 2 * num_of_bits (fun j => b (j + 1)) n'
  end.

Lemma num_of_bits_spec n : forall b v,
  0 <= v < 2 ^ Z.of_nat n -> (forall j, 0 <= j < Z.of_nat n -> Z.testbit v j = b j) -> num_of_bits b n = v.
Proof.
  induction n as [|n IH]; intros b v Hv Hb; cbn [num_of_bits]; [change (2 ^ Z.of_nat 0) with 1 in Hv; lia|].
  rewrite (IH (fun j => b (j + 1)) (v / 2)).
  - rewrite <- Hb, Z.bit0_mod by lia. zdm.
  - rewrite Nat2Z.inj_succ, Z.pow_succ_r in Hv by lia. zdm.
  - intros j Hj. rewrite <- Hb by lia. change 2 with (2 ^ 1). rewrite Z.div_pow2_bits by lia. done.
Qed.

(** The value of FAT entry [c]: [value_bits] bits from bit
    [entry_bits * c] of the allocation table on. *)
Definition fat_entry (d : D) (f : FATFS) (c : Z) : Z :=
  num_of_bits (fun j => fat_bit d (fatbase f) (entry_bits (fs_type f) * c + j)) (Z.to_nat (value_bits (fs_type f))).

Lemma get_fat_spec (s : pff D) clst :
  fat_ok (dev s) (fs s) -> 2 <= clst < n_fatent (fs s) ->
  exists d', get_fat clst s = Ret (fat_entry (dev s) (fs s) clst) (set_dev d' s) /\ same (dev s) d'.
Proof.
  intros Hf Hc. destruct (get_fat_bits_spec s clst Hf Hc) as (v & d' & E & Hs & Hv & Hb).
  exists d'. split; [|exact Hs]. rewrite E. f_equal. symmetry. unfold fat_entry.
  assert (0 <= value_bits (fs_type (fs s))) by (unfold value_bits; repeat destruct (_ =? _); lia).
  apply num_of_bits_spec; rewrite Z2Nat.id by lia; auto.
Qed.

Lemma fat_entry_same d d' f c : same d d' -> fat_entry d' f c = fat_entry d f c.
Proof. intros [E _]. unfold fat_entry, fat_bit, fatbyte. by rewrite E. Qed.

Lemma fat_entry_range d f c : 0 <= fat_entry d f c < 2 ^ 28.
Proof.
  assert (Hg : forall n b, 0 <= num_of_bits b n < 2 ^ Z.of_nat n).
  { induction n as [|n IH]; intros b; cbn [num_of_bits]; [change (2 ^ Z.of_nat 0) with 1; lia|].
    rewrite Nat2Z.inj_succ, Z.pow_succ_r by lia. specialize (IH (fun j => b (j + 1))). destruct (b 0); cbn [Z.b2z]; lia. }
  unfold fat_entry. set (n := Z.to_nat _). specialize (Hg n (fun j => fat_bit d (fatbase f) (entry_bits (fs_type f) * c + j))).
  assert (2 ^ Z.of_nat n <= 2 ^ 28); [|lia]. apply Z.pow_le_mono_r; [lia|]. subst n. unfold value_bits.
  repeat destruct (_ =? _); lia.
Qed.

(** The [k]-th cluster of the chain from [c]. *)
Fixpoint chain (d : D) (f : FATFS) (c : Z) (k : nat) : Z :=
  match k with O => c | S k' => fat_entry d f (chain d f c k') end.

(** *** Clusters and sectors *)

(** A mounted volume: geometry without overflow, and a readable disk. *)
Record vol_ok (d : D) (f : FATFS) : Prop := {
  vo_fat : fat_ok d f;
  vo_csize : exists k, 0 <= k <= 7 /\ csize f = 2 ^ k;
  vo_ents : 2 <= n_fatent f;
  vo_data : 0 < database f;
  vo_end : database f + (n_fatent f - 2) * csize f <= 2 ^ 32;
  vo_ready s : database f <= s < database f + (n_fatent f - 2) * csize f -> ready d s
}.

Lemma vol_ok_same d d' f : same d d' -> vol_ok d f -> vol_ok d' f.
Proof.
  intros Hs [H1 H2 H3 H4 H5 H6]. split; try done; [by eapply fat_ok_same|]. intros x Hx. apply Hs. auto.
Qed.

Lemma csize_range d f : vol_ok d f -> 1 <= csize f <= 128.
Proof.
  intros [_ (k & Hk & E) _ _ _ _]. rewrite E.
  assert (2 ^ 0 <= 2 ^ k) by (apply Z.pow_le_mono_r; lia). assert (2 ^ k <= 2 ^ 7) by (apply Z.pow_le_mono_r; lia). lia.
Qed.

Definition cluster_sector (f : FATFS) (c : Z) : Z := database f + (c - 2) * csize f.

Lemma clust2sect_in (s : pff D) d clst :
  vol_ok d (fs s) -> 2 <= clst < n_fatent (fs s) ->
  clust2sect clst s = Ret (cluster_sector (fs s) clst) s /\
  0 < database (fs s) <= cluster_sector (fs s) clst /\
  cluster_sector (fs s) clst + csize (fs s) <= database (fs s) + (n_fatent (fs s) - 2) * csize (fs s).
Proof.
  intros V Hc. set (f := fs s) in *. assert (Hcs := csize_range _ _ V).
  assert (H1 := vo_data _ _ V). assert (H2 := vo_end _ _ V). assert (H3 := fo_ents _ _ (vo_fat _ _ V)).
  assert (Hm : (clst - 2) * csize f + csize f <= (n_fatent f - 2) * csize f).
  { replace ((clst - 2) * csize f + csize f) with ((clst - 1) * csize f) by lia. apply Z.mul_le_mono_nonneg_r; lia. }
  assert (0 <= (clst - 2) * csize f) by (apply Z.mul_nonneg_nonneg; lia).
  unfold cluster_sector. split; [|lia]. unfold clust2sect, gets. unfold bind. fold f.
  rewrite (u32_id (clst - 2)), (u32_id (n_fatent f - 2)) by lia.
  destruct (Z.leb_spec (n_fatent f - 2) (clst - 2)); [lia|]. rewrite u32_id by lia.
  unfold ret. f_equal. lia.
Qed.

Lemma clust2sect_out (s : pff D) clst :
  2 <= n_fatent (fs s) < 2 ^ 32 -> 0 <= clst < 2 ^ 32 -> ~ (2 <= clst < n_fatent (fs s)) ->
  clust2sect clst s = Ret 0 s.
Proof.
  intros Hn Hc Hout. unfold clust2sect, gets. unfold bind. rewrite (u32_id (n_fatent _ - 2)) by lia.
  destruct (Z.leb_spec (n_fatent (fs s) - 2) (u32 (clst - 2))) as [|Hlt]; [done|]. exfalso.
  destruct (Z.lt_ge_cases clst 2).
  - assert (E : u32 (clst - 2) = clst - 2 + 2 ^ 32) by (unfold u32; rewrite <- (Z_mod_plus_full _ 1); apply Z.mod_small; lia).
    lia.
  - rewrite u32_id in Hlt by lia. lia.
Qed.

End Disk.


(** ** Disk images

    The simplest disk: sparse contents and a number of sectors. *)
Record image := mkImage { ibytes : gmap Z Z; isect : Z }.

Definition img_at (d : image) (s o : Z) : Z := u8 (default 0 (ibytes d !! (s * 512 + o))).

#[global, program] Instance image_disk : Disk image := {|
  disk_initialize d := (0, d);
  disk_readp sct ofs cnt d :=
    (if (0 <=? sct) && (sct <? isect d) && (ofs + cnt <=? 512)
     then Some ((fun i => img_at d sct (ofs + Z.of_nat i)) <$> seq 0 (Z.to_nat cnt)) else None, d);
  img := img_at;
  ready d s := 0 <= s < isect d
|}.
Next Obligation. done. Qed.
Next Obligation. done. Qed.
Next Obligation. intros sct ofs cnt d bs d' _ _ _ E. cbv beta in E. destruct (_ && _); by simplify_eq. Qed.
Next Obligation. intros. apply (u8_range _). Qed.
Next Obligation. done. Qed.
Next Obligation. done. Qed.
Next Obligation.
  intros sct ofs cnt d Hr H1 H2 H3. cbv beta in *. cbn [fst].
  destruct (Z.leb_spec 0 sct), (Z.ltb_spec sct (isect d)), (Z.leb_spec (ofs + cnt) 512); try lia; done.
Qed.

(** A FAT12 volume of eight sectors: one for the allocation table, one for
    the root directory, five clusters of one sector; the root directory holds
    the file A.TXT of 600 bytes in the clusters 2 and 4. *)
Definition demo : image := mkImage (list_to_map [
  (13, 1); (14, 1); (16, 1); (17, 16); (19, 8); (22, 1);
  (54, 0x46); (55, 0x41); (510, 0x55); (511, 0xAA);
  (512 + 3, 0x04); (512 + 6, 0xFF); (512 + 7, 0x0F);
  (1024 + 0, 65); (1024 + 1, 32); (1024 + 2, 32); (1024 + 3, 32); (1024 + 4, 32); (1024 + 5, 32);
  (1024 + 6, 32); (1024 + 7, 32); (1024 + 8, 84); (1024 + 9, 88); (1024 + 10, 84); (1024 + 11, 0x20);
  (1024 + 26, 2); (1024 + 28, 0x58); (1024 + 29, 2);
  (1536, 104); (1536 + 511, 120); (2560, 121); (2560 + 87, 122)]) 8.

(** The volume mounted at address 1, and the file open at [pos]. *)
Definition demo_fs (pos cur ds : Z) : FATFS := mkFATFS FS_FAT12 FA_OPENED 1 16 7 1 2 3 pos 600 2 cur ds.
Definition demo_state (f : FATFS) : pff image := mkPff 1 {[ 1 := f ]} demo.

Lemma demo_vol pos cur ds : vol_ok demo (demo_fs pos cur ds).
Proof.
  split.
  - split; [change (0 <= 1 < 2 ^ 31); lia|change (7 <= 2 ^ 28); lia|by left|]. intros k Hk Hk'.
    change (8 * k < 12 * 7) in Hk'. change (0 <= 1 + k / 512 < 8). zdm.
  - exists 0. split; [lia|done].
  - change (2 <= 7). lia.
  - change (0 < 3). lia.
  - change (3 + (7 - 2) * 1 <= 2 ^ 32). lia.
  - intros x Hx. change (3 <= x < 3 + (7 - 2) * 1) in Hx. change (0 <= x < 8). lia.
Qed.

(** ** Properties *)

(** [get_fat] of a cluster in range returns exactly the bits of its
    entry: bit [j] of the result is bit [w * n + j] of the allocation table
    read as a sequence of little-endian bits, for entries of [w] = 12, 16 and
    32 bits (of which 12, 16 and 28 count), also where a 12-bit entry crosses
    a sector boundary. *)
Theorem get_fat_bits {D : Type} `{Disk D} (s : pff D) clst :
  fat_ok (dev s) (fs s) -> 2 <= clst < n_fatent (fs s) ->
  exists v d', get_fat clst s = Ret v (set_dev d' s) /\ same (dev s) d' /\
    0 <= v < 2 ^ value_bits (fs_type (fs s)) /\
    forall j, 0 <= j < value_bits (fs_type (fs s)) ->
      Z.testbit v j = fat_bit (dev s) (fatbase (fs s)) (entry_bits (fs_type (fs s)) * clst + j).
Proof. apply get_fat_bits_spec. Qed.

Lemma get_fat_bits_witness :
  exists v d', get_fat 2 (demo_state (demo_fs 0 0 0)) = Ret v (set_dev d' (demo_state (demo_fs 0 0 0))) /\
    Z.testbit v 2 = true /\ Z.testbit v 1 = false.
Proof.
  destruct (get_fat_bits (demo_state (demo_fs 0 0 0)) 2) as (v & d' & E & _ & _ & Hb).
  - apply (vo_fat _ _ (demo_vol 0 0 0)).
  - change (2 <= 2 < 7). lia.
  - exists v, d'. split; [exact E|]. split.
    + rewrite Hb by (change (0 <= 2 < 12); lia). vm_compute. reflexivity.
    + rewrite Hb by (change (0 <= 1 < 12); lia). vm_compute. reflexivity.
Defined.

(** [clust2sect] maps every cluster number of the volume to its own run
    of [csize] sectors inside the data area, without overflow and disjoint
    from the run of any other cluster, and every other 32-bit number to 0. *)
Theorem clust2sect_disjoint {D : Type} `{Disk D} (s : pff D) a b :
  vol_ok (dev s) (fs s) -> 0 <= a < 2 ^ 32 -> 0 <= b < 2 ^ 32 ->
  exists sa sb, clust2sect a s = Ret sa s /\ clust2sect b s = Ret sb s /\
    (sa <> 0 <-> 2 <= a < n_fatent (fs s)) /\
    (sa <> 0 -> database (fs s) <= sa /\ sa + csize (fs s) <= database (fs s) + (n_fatent (fs s) - 2) * csize (fs s)) /\
    (sa <> 0 -> sb <> 0 -> a <> b -> sa + csize (fs s) <= sb \/ sb + csize (fs s) <= sa).
Proof.
  intros V Ha Hb. assert (Hn := vo_ents _ _ V). assert (Hn' := fo_ents _ _ (vo_fat _ _ V)).
  assert (Hc := csize_range _ _ V).
  assert (Hone : forall x, 0 <= x < 2 ^ 32 -> exists sx, clust2sect x s = Ret sx s /\
            (2 <= x < n_fatent (fs s) /\ sx = cluster_sector (fs s) x /\ 0 < database (fs s) <= sx /\
               sx + csize (fs s) <= database (fs s) + (n_fatent (fs s) - 2) * csize (fs s) \/
             ~ (2 <= x < n_fatent (fs s)) /\ sx = 0)).
  { intros x Hx. destruct (decide (2 <= x < n_fatent (fs s))) as [Hin|Hout].
    - destruct (clust2sect_in s _ x V Hin) as (E & H1 & H2). eauto 8.
    - exists 0. split; [apply clust2sect_out; lia|auto]. }
  destruct (Hone a Ha) as (xa & Ea & Ca). destruct (Hone b Hb) as (xb & Eb & Cb).
  exists xa, xb. split; [done|]. split; [done|].
  destruct Ca as [(H1 & H2 & H3 & H4)|[H1 H2]]; [|split_and!; lia].
  split; [lia|]. split; [lia|]. intros _ Hxb Hab. destruct Cb as [(K1 & K2 & _ & _)|[K1 K2]]; [|lia].
  subst xa xb. unfold cluster_sector.
  destruct (Z.lt_ge_cases a b).
  - left. assert ((a - 1) * csize (fs s) <= (b - 2) * csize (fs s)) by (apply Z.mul_le_mono_nonneg_r; lia). lia.
  - right. assert ((b - 1) * csize (fs s) <= (a - 2) * csize (fs s)) by (apply Z.mul_le_mono_nonneg_r; lia). lia.
Qed.

Lemma clust2sect_disjoint_witness :
  exists sa sb, clust2sect 2 (demo_state (demo_fs 0 0 0)) = Ret sa (demo_state (demo_fs 0 0 0)) /\
    clust2sect 6 (demo_state (demo_fs 0 0 0)) = Ret sb (demo_state (demo_fs 0 0 0)) /\ sa <> 0.
Proof.
  destruct (clust2sect_disjoint (demo_state (demo_fs 0 0 0)) 2 6) as (sa & sb & Ea & Eb & Hz & _).
  - apply demo_vol.
  - lia.
  - lia.
  - exists sa, sb. split; [exact Ea|]. split; [exact Eb|]. apply Hz. change (2 <= 2 < 7). lia.
Defined.


End PffSpec.
