(* ===== verification/PffFile.v ===== *)
(** FAT volumes, part two: the contents of an open file, and that [pf_read]
    and [pf_lseek] (kernel/Fat/pff.c) deliver and address them. *)

From stdpp Require Import base tactics list gmap numbers option.
From Stdlib Require Import ZArith Lia.
From S2P Require Import Prelude Pff PffSpec.

#[local] Open Scope Z_scope.

Module PffFile.
Import Prelude Pff PffSpec.
#[local] Open Scope lofi_scope.

Section File.
Context {D : Type} `{Disk D}.

(** ** Updates of the file system object *)

Definition upd (g : FATFS -> FATFS) (s : pff D) : pff D :=
  mkPff (FatFs s) (<[FatFs s := g (fs s)]> (objs s)) (dev s).

Lemma put_fs_upd g (s : pff D) : put_fs g s = Ret tt (upd g s).
Proof. done. Qed.

Lemma fs_upd g (s : pff D) : fs (upd g s) = g (fs s).
Proof. unfold fs, obj, upd. cbn [FatFs objs]. by rewrite lookup_insert_eq. Qed.

(** ** The contents of a file

    [c0] is its first cluster; byte [k] lies in cluster [k / bcs] of the
    chain. *)
Definition bcs (f : FATFS) : Z := csize f * 512.
Definition cluster_at (d : D) (f : FATFS) (c0 k : Z) : Z := chain d f c0 (Z.to_nat (k / bcs f)).
Definition sector_at (d : D) (f : FATFS) (c0 k : Z) : Z :=
  cluster_sector f (cluster_at d f c0 k) + (k / 512) mod csize f.
Definition file_byte (d : D) (f : FATFS) (c0 k : Z) : Z := img d (sector_at d f c0 k) (k mod 512).
Definition file_slice (d : D) (f : FATFS) (c0 pos : Z) (n : nat) : list Z :=
  (fun i => file_byte d f c0 (pos + Z.of_nat i)) <$> seq 0 n.

(** Geometry of two states of one volume. *)
Definition geom_eq (f f' : FATFS) : Prop :=
  fs_type f' = fs_type f /\ csize f' = csize f /\ n_fatent f' = n_fatent f /\ fatbase f' = fatbase f /\
  database f' = database f.

Lemma geom_vol d f f' : geom_eq f f' -> vol_ok d f -> vol_ok d f'.
Proof.
  intros (E1 & E2 & E3 & E4 & E5) [[F1 F2 F3 F4] V2 V3 V4 V5 V6].
  split; [split|..]; rewrite ?E1, ?E2, ?E3, ?E4, ?E5; auto.
Qed.

Lemma geom_entry d f f' c : geom_eq f f' -> fat_entry d f' c = fat_entry d f c.
Proof. intros (E1 & E2 & E3 & E4 & E5). unfold fat_entry. by rewrite E1, E4. Qed.

Lemma geom_chain d d' f f' c k : geom_eq f f' -> same d d' -> chain d' f' c k = chain d f c k.
Proof.
  intros E S. induction k as [|k IH]; [done|]. cbn [chain].
  by rewrite IH, (geom_entry _ _ _ _ E), (fat_entry_same _ _ _ _ S).
Qed.

Lemma geom_byte d d' f f' c k : geom_eq f f' -> same d d' -> file_byte d' f' c k = file_byte d f c k.
Proof.
  intros E S. unfold file_byte, sector_at, cluster_at, cluster_sector, bcs.
  rewrite (geom_chain _ _ _ _ _ _ E S). destruct E as (E1 & E2 & E3 & E4 & E5). destruct S as [-> _].
  by rewrite E2, E5.
Qed.

Lemma geom_slice d d' f f' c p n : geom_eq f f' -> same d d' -> file_slice d' f' c p n = file_slice d f c p n.
Proof.
  intros E S. unfold file_slice. apply list_fmap_ext. intros i x _. by apply geom_byte.
Qed.

(** A file of [fsize] bytes whose chain is long enough. *)
Record file_ok (d : D) (f : FATFS) : Prop := {
  fi_vol : vol_ok d f;
  fi_size : 0 <= fsize f < 2 ^ 32;
  fi_chain k : 0 <= k < fsize f -> 2 <= cluster_at d f (org_clust f) k < n_fatent f
}.

(** The position [fptr] with the cluster and sector that belong to it. *)
Record pos_ok (d : D) (f : FATFS) : Prop := {
  po_range : 0 <= fptr f <= fsize f;
  po_clust : 0 < fptr f -> curr_clust f = cluster_at d f (org_clust f) (fptr f - 1);
  po_sect : fptr f mod 512 <> 0 -> dsect f = sector_at d f (org_clust f) (fptr f)
}.

Record open_ok (s : pff D) : Prop := {
  op_ptr : FatFs s <> 0;
  op_flag : Z.land (flag (fs s)) FA_OPENED <> 0;
  op_file : file_ok (dev s) (fs s);
  op_pos : pos_ok (dev s) (fs s)
}.

(** ** Arithmetic of positions *)

Lemma bcs_pos d f : vol_ok d f -> 512 <= bcs f <= 65536.
Proof. intros V. assert (Hc := csize_range _ _ V). unfold bcs. lia. Qed.

Lemma csize_mask d f x : vol_ok d f -> 0 <= x -> Z.land x (u32 (csize f - 1)) = x mod csize f.
Proof.
  intros V Hx. assert (Hc := csize_range _ _ V). destruct (vo_csize _ _ V) as (k & Hk & E).
  rewrite u32_id by lia. rewrite E. replace (2 ^ k - 1) with (Z.ones k) by (rewrite Z.ones_equiv; lia).
  apply land_ones_mod. lia.
Qed.

Lemma div_bcs d f x : vol_ok d f -> 0 <= x -> x / bcs f = x / 512 / csize f.
Proof. intros V Hx. assert (Hc := csize_range _ _ V). unfold bcs. rewrite Z.mul_comm. symmetry. apply Z.div_div; lia. Qed.

(** On a cluster boundary the position before lies in the cluster before. *)
Lemma boundary_prev d f x :
  vol_ok d f -> 0 < x -> x mod 512 = 0 -> (x / 512) mod csize f = 0 ->
  Z.to_nat (x / bcs f) = S (Z.to_nat ((x - 1) / bcs f)).
Proof.
  intros V Hx H1 H2. assert (Hb := bcs_pos _ _ V). assert (Hc := csize_range _ _ V).
  assert (Hm : x mod bcs f = 0).
  { unfold bcs. rewrite Z.mul_comm, Z.rem_mul_r by lia. lia. }
  assert (Hx' : x = bcs f * (x / bcs f)) by (apply Z_div_exact_full_2; lia).
  assert (Hq : 0 < x / bcs f) by (assert (0 <= x / bcs f) by (apply Z.div_pos; lia); nia).
  assert (E : (x - 1) / bcs f = x / bcs f - 1).
  { symmetry. apply Z.div_unique with (r := bcs f - 1); lia. }
  rewrite E. lia.
Qed.

Lemma within_cluster d f x :
  vol_ok d f -> 0 < x -> ~ (x mod 512 = 0 /\ (x / 512) mod csize f = 0) -> (x - 1) / bcs f = x / bcs f.
Proof.
  intros V Hx Hn. assert (Hb := bcs_pos _ _ V). assert (Hc := csize_range _ _ V).
  assert (Hm : x mod bcs f <> 0).
  { intros Hm. apply Hn. unfold bcs in Hm. rewrite Z.mul_comm, Z.rem_mul_r in Hm by lia.
    assert (H1 := Z.mod_pos_bound x 512). assert (H2 := Z.mod_pos_bound (x / 512) (csize f)). lia. }
  symmetry. apply Z.div_unique with (r := x mod bcs f - 1).
  - assert (H1 := Z.mod_pos_bound x (bcs f)). lia.
  - assert (H1 := Z.div_mod x (bcs f)). lia.
Qed.


(** ** Finding the sector *)

Lemma sector_spec d f k :
  file_ok d f -> 0 <= k < fsize f ->
  let c := cluster_at d f (org_clust f) k in
  2 <= c < n_fatent f /\ database f <= cluster_sector f c /\
  sector_at d f (org_clust f) k = cluster_sector f c + (k / 512) mod csize f /\
  database f <= sector_at d f (org_clust f) k < database f + (n_fatent f - 2) * csize f /\
  cluster_sector f c + csize f <= 2 ^ 32 /\ 0 <= (k / 512) mod csize f < csize f.
Proof.
  intros F Hk c. assert (V := fi_vol _ _ F). assert (Hc := fi_chain _ _ F k Hk). fold c in Hc.
  assert (Hs := csize_range _ _ V). assert (Hm := Z.mod_pos_bound (k / 512) (csize f)).
  assert (He := vo_end _ _ V).
  assert (0 <= (c - 2) * csize f) by (apply Z.mul_nonneg_nonneg; lia).
  assert ((c - 2) * csize f + csize f <= (n_fatent f - 2) * csize f).
  { replace ((c - 2) * csize f + csize f) with ((c - 1) * csize f) by lia. apply Z.mul_le_mono_nonneg_r; lia. }
  unfold sector_at, cluster_sector. fold c. repeat split; lia.
Qed.

Definition at_sector (d : D) (f : FATFS) : FATFS :=
  set_dsect (sector_at d f (org_clust f) (fptr f)) (set_curr_clust (cluster_at d f (org_clust f) (fptr f)) f).

Lemma at_sector_id d f :
  curr_clust f = cluster_at d f (org_clust f) (fptr f) -> dsect f = sector_at d f (org_clust f) (fptr f) ->
  at_sector d f = f.
Proof. intros E1 E2. unfold at_sector. rewrite <- E1, <- E2. by destruct f. Qed.

Lemma seek_sector_spec (s : pff D) :
  file_ok (dev s) (fs s) -> pos_ok (dev s) (fs s) -> fptr (fs s) < fsize (fs s) ->
  exists s', seek_sector s = Ret None s' /\ same (dev s) (dev s') /\ FatFs s' = FatFs s /\
    fs s' = at_sector (dev s) (fs s).
Proof.
  intros F P Hlt. set (f := fs s) in *. assert (V := fi_vol _ _ F). assert (Hp := po_range _ _ P).
  destruct (sector_spec _ _ (fptr f) F ltac:(lia)) as (Hc & Hdb & Esec & Hsec & Hend & Hm).
  unfold seek_sector, gets. unfold bind at 1. fold f.
  assert (Hprev : 0 < fptr f -> ~ (fptr f mod 512 = 0 /\ (fptr f / 512) mod csize f = 0) ->
            curr_clust f = cluster_at (dev s) f (org_clust f) (fptr f)).
  { intros H0 Hn. rewrite (po_clust _ _ P H0). unfold cluster_at. by rewrite (within_cluster _ _ _ V H0 Hn). }
  destruct (Z.eqb_spec (fptr f mod 512) 0) as [E512|N512]; cbn [negb].
  2: { exists s. split_and!; [done..|]. fold f. symmetry. apply at_sector_id; [apply Hprev; [|tauto]|].
       2: by apply (po_sect _ _ P).
       destruct (Z.eq_dec (fptr f) 0) as [E|]; [by rewrite E in N512|lia]. }
  assert (Hcs := csize_range _ _ V).
  rewrite (csize_mask _ _ _ V) by (apply Z.div_pos; lia). rewrite u8_id by lia.
  assert (Hstep : exists s1, (if (fptr f / 512) mod csize f =? 0 then
       let* clst := (if fptr f =? 0 then ret (org_clust f) else get_fat (curr_clust f)) in
       if clst <=? 1 then ret (Some FR_DISK_ERR)
       else put_fs (set_curr_clust clst) ;;; ret None
     else ret None) s = Ret None s1 /\ same (dev s) (dev s1) /\ FatFs s1 = FatFs s /\
       fs s1 = set_curr_clust (cluster_at (dev s) f (org_clust f) (fptr f)) f).
  { destruct (Z.eqb_spec ((fptr f / 512) mod csize f) 0) as [E0|N0].
    - assert (Hg : exists d', (if fptr f =? 0 then ret (org_clust f) else get_fat (curr_clust f)) s =
                Ret (cluster_at (dev s) f (org_clust f) (fptr f)) (set_dev d' s) /\ same (dev s) d').
      { destruct (Z.eqb_spec (fptr f) 0) as [Ez|Nz].
        - exists (dev s). split; [|done]. rewrite Ez. by destruct s.
        - assert (Hlast : 2 <= curr_clust f < n_fatent f).
          { rewrite (po_clust _ _ P) by lia. apply (fi_chain _ _ F). lia. }
          destruct (get_fat_spec s (curr_clust f) (vo_fat _ _ V) Hlast) as (d' & E & S). exists d'. split; [|done].
          rewrite E, (po_clust _ _ P) by lia. unfold cluster_at.
          rewrite (boundary_prev _ _ (fptr f) V) by (assumption || lia). done. }
      destruct Hg as (d' & E & S). erewrite bind_ret by exact E.
      destruct (Z.leb_spec (cluster_at (dev s) f (org_clust f) (fptr f)) 1); [lia|].
      exists (upd (set_curr_clust (cluster_at (dev s) f (org_clust f) (fptr f))) (set_dev d' s)).
      split; [reflexivity|]. split; [done|]. split; [done|]. by rewrite fs_upd.
    - exists s. split_and!; [done..|]. fold f. rewrite <- Hprev; [by destruct f| |tauto].
      destruct (Z.eq_dec (fptr f) 0) as [E|]; [|lia]. rewrite E in N0. exfalso. by apply N0. }
  destruct Hstep as (s1 & E1 & S1 & P1 & F1). erewrite bind_ret by exact E1. unfold bind at 1. rewrite F1.
  destruct (clust2sect_in s1 (dev s) (cluster_at (dev s) f (org_clust f) (fptr f))) as (E2 & _).
  { rewrite F1. eapply geom_vol; [|exact V]. done. }
  { rewrite F1. exact Hc. }
  assert (Hcs1 : cluster_sector (fs s1) (cluster_at (dev s) f (org_clust f) (fptr f)) =
                 cluster_sector f (cluster_at (dev s) f (org_clust f) (fptr f))) by (by rewrite F1).
  rewrite Hcs1 in E2. erewrite bind_ret by exact E2. assert (Hd := vo_data _ _ V).
  destruct (Z.eqb_spec (cluster_sector f (cluster_at (dev s) f (org_clust f) (fptr f))) 0); [lia|].
  eexists (upd _ s1). split; [reflexivity|]. split; [done|]. split; [done|]. rewrite fs_upd, F1.
  unfold at_sector. by rewrite u32_id, Esec by lia.
Qed.


(** ** Reading *)

(** What reading and seeking leave alone. *)
Definition kept (f f' : FATFS) : Prop :=
  geom_eq f f' /\ org_clust f' = org_clust f /\ fsize f' = fsize f /\ flag f' = flag f.

Lemma fkept_trans f1 f2 f3 : kept f1 f2 -> kept f2 f3 -> kept f1 f3.
Proof. unfold kept, geom_eq. intros ((? & ? & ? & ? & ?) & ? & ? & ?) ((? & ? & ? & ? & ?) & ? & ? & ?). repeat split; congruence. Qed.

Lemma kept_chain d d' f f' c k : kept f f' -> same d d' -> cluster_at d' f' c k = cluster_at d f c k.
Proof.
  intros (G & _) S. unfold cluster_at, bcs. rewrite (geom_chain _ _ _ _ _ _ G S).
  destruct G as (_ & -> & _). done.
Qed.

Lemma kept_sector d d' f f' c k : kept f f' -> same d d' -> sector_at d' f' c k = sector_at d f c k.
Proof.
  intros K S. unfold sector_at, cluster_sector. rewrite (kept_chain _ _ _ _ _ _ K S).
  destruct K as ((_ & -> & _ & _ & ->) & _). done.
Qed.

Lemma kept_file d d' f f' : kept f f' -> same d d' -> file_ok d f -> file_ok d' f'.
Proof.
  intros K S [V Hs Hch]. assert (K' := K). destruct K' as (G & E1 & E2 & E3). split.
  - eapply vol_ok_same; [exact S|]. by eapply geom_vol.
  - by rewrite E2.
  - intros k Hk. rewrite E1, (kept_chain _ _ _ _ _ _ K S). destruct G as (_ & _ & -> & _). apply Hch. by rewrite <- E2.
Qed.

Lemma same_block d f c k k' :
  vol_ok d f -> 0 <= k -> 0 <= k' -> k / 512 = k' / 512 ->
  cluster_at d f c k = cluster_at d f c k' /\ sector_at d f c k = sector_at d f c k'.
Proof. intros V H1 H2 E. unfold sector_at, cluster_at. by rewrite !(div_bcs _ _ _ V), E by done. Qed.

Lemma read_sector_bytes d f c pos n :
  vol_ok d f -> 0 <= pos -> pos mod 512 + Z.of_nat n <= 512 ->
  slice d (sector_at d f c pos) (pos mod 512) n = file_slice d f c pos n.
Proof.
  intros V Hp Hn. unfold slice, file_slice. apply list_fmap_ext. intros i x Hx.
  apply lookup_seq in Hx as [-> Hi]. unfold file_byte. simpl Nat.add.
  destruct (same_block d f c (pos + Z.of_nat i) pos V) as [_ ->]; [lia|lia|zdm|].
  f_equal. zdm.
Qed.

Lemma file_slice_app d f c pos n m :
  file_slice d f c pos n ++ file_slice d f c (pos + Z.of_nat n) m = file_slice d f c pos (n + m).
Proof.
  unfold file_slice. rewrite seq_app, fmap_app. f_equal. simpl Nat.add.
  replace (seq n m) with (Nat.add n <$> seq 0 m) by (by rewrite fmap_add_seq, Nat.add_0_r).
  rewrite <- list_fmap_compose. apply list_fmap_ext.
  intros i x _. simpl. f_equal. lia.
Qed.

Lemma pos_step d f f' n :
  file_ok d f -> 0 <= fptr f -> 0 < n -> fptr f mod 512 + n <= 512 -> fptr f + n <= fsize f ->
  curr_clust f' = cluster_at d f (org_clust f) (fptr f) -> dsect f' = sector_at d f (org_clust f) (fptr f) ->
  kept f f' -> fptr f' = fptr f + n -> pos_ok d f'.
Proof.
  intros F Hp Hn Hb Hs E1 E2 K E3. assert (V := fi_vol _ _ F). assert (K' := K). destruct K' as (G & E4 & E5 & _).
  split.
  - lia.
  - intros _. rewrite E1, E3, E4, (kept_chain d d f f' _ _ K) by done.
    apply (same_block _ _ _ _ _ V); [lia|lia|zdm].
  - intros Hm. rewrite E2, E4, (kept_sector d d f f' _ _ K) by done. rewrite E3 in *.
    apply (same_block _ _ _ _ _ V); [lia|lia|zdm].
Qed.

Lemma pos_same d d' f : same d d' -> pos_ok d f -> pos_ok d' f.
Proof.
  intros S [H1 H2 H3]. assert (K : kept f f) by done. split; [done| |].
  - intros Hp. rewrite (kept_chain _ _ _ _ _ _ K S). auto.
  - intros Hp. rewrite (kept_sector _ _ _ _ _ _ K S). auto.
Qed.

Lemma read_loop_spec fuel : forall (s : pff D) btr br acc,
  file_ok (dev s) (fs s) -> pos_ok (dev s) (fs s) -> 0 <= btr <= Z.of_nat fuel ->
  fptr (fs s) + btr <= fsize (fs s) -> 0 <= br -> br + btr < 2 ^ 32 ->
  exists s', read_loop fuel btr br acc s =
      Ret (FR_OK, br + btr, acc ++ file_slice (dev s) (fs s) (org_clust (fs s)) (fptr (fs s)) (Z.to_nat btr)) s' /\
    same (dev s) (dev s') /\ FatFs s' = FatFs s /\ kept (fs s) (fs s') /\ pos_ok (dev s') (fs s') /\
    fptr (fs s') = fptr (fs s) + btr.
Proof.
  induction fuel as [|fuel IH]; intros s btr br acc F P Hb Hs Hbr Hbr2.
  - exists s. assert (E : btr = 0) by lia. rewrite E. cbn. rewrite app_nil_r, !Z.add_0_r. done.
  - cbn [read_loop]. destruct (Z.eqb_spec btr 0) as [->|Hne].
    { exists s. cbn [Z.to_nat file_slice seq fmap list_fmap]. rewrite app_nil_r, !Z.add_0_r. done. }
    assert (V := fi_vol _ _ F). assert (Hp := po_range _ _ P). assert (Hsz := fi_size _ _ F).
    destruct (seek_sector_spec s F P ltac:(lia)) as (s1 & E1 & S1 & P1 & F1).
    erewrite bind_ret by exact E1. unfold gets. unfold bind at 1. rewrite F1.
    set (f := fs s) in *. cbn [at_sector set_dsect set_curr_clust fptr dsect].
    set (rcnt := if btr <? 512 - fptr f mod 512 then btr else 512 - fptr f mod 512).
    assert (Hr : 0 < rcnt <= btr /\ fptr f mod 512 + rcnt <= 512).
    { subst rcnt. assert (Hm := Z.mod_pos_bound (fptr f) 512). destruct (Z.ltb_spec btr (512 - fptr f mod 512)); lia. }
    destruct (sector_spec _ _ (fptr f) F ltac:(lia)) as (_ & _ & _ & Hsec & _).
    destruct (readp_spec s1 (sector_at (dev s) f (org_clust f) (fptr f)) (fptr f mod 512) rcnt) as (d' & E2 & S2).
    { apply S1. apply (vo_ready _ _ V). exact Hsec. }
    { apply Z.mod_pos_bound. lia. }
    { lia. }
    { lia. }
    erewrite bind_ret by exact E2. rewrite (u32_id (fptr f + rcnt)), (u32_id (br + rcnt)) by lia.
    set (s2 := upd (set_fptr (fptr f + rcnt)) (set_dev d' s1)).
    assert (E3 : put_fs (set_fptr (fptr f + rcnt)) (set_dev d' s1) = Ret tt s2) by done.
    erewrite bind_ret by exact E3.
    assert (F2 : fs s2 = set_fptr (fptr f + rcnt) (at_sector (dev s) f)).
    { unfold s2. by rewrite fs_upd, fs_set_dev, F1. }
    assert (K2 : kept f (fs s2)) by (rewrite F2; done).
    assert (SS : same (dev s) (dev s2)) by (transitivity (dev s1); done).
    destruct (IH s2 (btr - rcnt) (br + rcnt) (acc ++ slice (dev s1) (sector_at (dev s) f (org_clust f) (fptr f)) (fptr f mod 512) (Z.to_nat rcnt)))
      as (s' & E' & S' & P' & K' & Pos' & Ep').
    + by eapply kept_file.
    + eapply pos_same; [exact SS|]. eapply (pos_step (dev s) f _ rcnt); try done; try lia; rewrite F2; done.
    + lia.
    + rewrite F2. cbn. lia.
    + lia.
    + lia.
    + exists s'. split; [|split; [by transitivity (dev s2)|split; [by rewrite P'|split; [by eapply fkept_trans|split; [done|]]]]].
      * rewrite E'. f_equal. f_equal; [f_equal; lia|]. rewrite <- app_assoc. f_equal.
        unfold slice at 1. rewrite (proj1 S1). fold (slice (dev s) (sector_at (dev s) f (org_clust f) (fptr f)) (fptr f mod 512) (Z.to_nat rcnt)).
        rewrite (read_sector_bytes _ _ _ _ _ V) by lia.
        rewrite (geom_slice (dev s) (dev s2) f (fs s2) _ _ _ (proj1 K2) SS).
        replace (Z.to_nat btr) with (Z.to_nat rcnt + Z.to_nat (btr - rcnt))%nat by lia.
        rewrite <- file_slice_app. rewrite F2. cbn [org_clust fptr set_fptr at_sector set_dsect set_curr_clust].
        by rewrite Z2Nat.id by lia.
      * rewrite Ep', F2. cbn. lia.
Qed.

Lemma pf_read_spec (s : pff D) btr :
  open_ok s -> 0 <= btr < 2 ^ 32 ->
  let n := Z.min btr (fsize (fs s) - fptr (fs s)) in
  exists s', pf_read btr s =
      Ret (FR_OK, n, file_slice (dev s) (fs s) (org_clust (fs s)) (fptr (fs s)) (Z.to_nat n)) s' /\
    open_ok s' /\ same (dev s) (dev s') /\ kept (fs s) (fs s') /\ fptr (fs s') = fptr (fs s) + n.
Proof.
  intros [Hptr Hflag F P] Hb n. assert (Hp := po_range _ _ P). assert (Hsz := fi_size _ _ F).
  unfold pf_read, gets. unfold bind at 1. destruct (Z.eqb_spec (FatFs s) 0); [done|].
  unfold bind at 1. destruct (Z.eqb_spec (Z.land (flag (fs s)) FA_OPENED) 0); [done|].
  rewrite u32_id by lia.
  assert (En : (if fsize (fs s) - fptr (fs s) <? btr then fsize (fs s) - fptr (fs s) else btr) = n).
  { subst n. destruct (Z.ltb_spec (fsize (fs s) - fptr (fs s)) btr); lia. }
  rewrite En. destruct (read_loop_spec (Z.to_nat n) s n 0 [] F P) as (s' & E & S & Pt & K & Pos & Ep); try lia.
  exists s'. split; [exact E|]. split; [|done]. assert (K' := K). destruct K' as (_ & _ & _ & Ef).
  split; [by rewrite Pt|by rewrite Ef|by eapply kept_file|done].
Qed.


(** ** Seeking *)

Lemma chain_valid (d : D) f q :
  file_ok d f -> 0 <= q -> q * bcs f < fsize f -> 2 <= chain d f (org_clust f) (Z.to_nat q) < n_fatent f.
Proof.
  intros F Hq Hlt. assert (Hb := bcs_pos _ _ (fi_vol _ _ F)). assert (0 <= q * bcs f) by (apply Z.mul_nonneg_nonneg; lia).
  assert (Hc := fi_chain _ _ F (q * bcs f) ltac:(lia)). unfold cluster_at in Hc. by rewrite Z.div_mul in Hc by lia.
Qed.

Definition at_cluster (d : D) (f : FATFS) (q : Z) : FATFS :=
  set_fptr (q * bcs f) (set_curr_clust (chain d f (org_clust f) (Z.to_nat q)) f).

Lemma lseek_loop_spec fuel : forall (s : pff D) d0 f0 q ofs,
  file_ok d0 f0 -> same d0 (dev s) -> fs s = at_cluster d0 f0 q -> 0 <= q -> 0 < ofs ->
  q * bcs f0 + ofs <= fsize f0 -> ofs / bcs f0 <= Z.of_nat fuel ->
  let q' := (q * bcs f0 + ofs - 1) / bcs f0 in
  exists s', lseek_loop fuel (bcs f0) (chain d0 f0 (org_clust f0) (Z.to_nat q)) ofs s =
      Ret (Some (chain d0 f0 (org_clust f0) (Z.to_nat q'), q * bcs f0 + ofs - q' * bcs f0)) s' /\
    same d0 (dev s') /\ FatFs s' = FatFs s /\ fs s' = at_cluster d0 f0 q'.
Proof.
  induction fuel as [|fuel IH]; intros s d0 f0 q ofs F S Ef Hq Ho Hs Hfuel q';
    assert (Hb := bcs_pos _ _ (fi_vol _ _ F)); cbn [lseek_loop].
  all: destruct (Z.leb_spec ofs (bcs f0)) as [Hle|Hgt];
    [assert (E : q' = q) by (subst q'; symmetry; apply Z.div_unique with (r := ofs - 1); lia);
     rewrite E; exists s; split; [unfold ret; do 3 f_equal; lia|done]|].
  - exfalso. assert (1 <= ofs / bcs f0) by (apply Z.div_le_lower_bound; lia). lia.
  - set (c := chain d0 f0 (org_clust f0) (Z.to_nat q)).
    assert (V := fi_vol _ _ F).
    assert (Hc := chain_valid d0 f0 q F Hq ltac:(lia)). fold c in Hc.
    assert (G : geom_eq f0 (fs s)) by (rewrite Ef; done).
    destruct (get_fat_spec s c) as (d' & Eg & Sg).
    { eapply fat_ok_same; [exact S|]. apply (vo_fat _ _ (geom_vol _ _ _ G V)). }
    { rewrite Ef. exact Hc. }
    erewrite bind_ret by exact Eg. unfold gets. unfold bind at 1. rewrite fs_set_dev.
    rewrite (geom_entry _ _ _ _ G), (fat_entry_same _ _ _ _ S).
    assert (Ec : fat_entry d0 f0 c = chain d0 f0 (org_clust f0) (Z.to_nat (q + 1))).
    { replace (Z.to_nat (q + 1)) with (Datatypes.S (Z.to_nat q)) by lia. done. }
    rewrite Ec. assert (Hq1 : (q + 1) * bcs f0 = q * bcs f0 + bcs f0) by lia.
    assert (Hc1 := chain_valid d0 f0 (q + 1) F ltac:(lia) ltac:(lia)).
    set (c1 := chain d0 f0 (org_clust f0) (Z.to_nat (q + 1))) in *.
    rewrite Ef. cbn [at_cluster n_fatent set_fptr set_curr_clust].
    destruct (Z.leb_spec c1 1); [lia|]. destruct (Z.leb_spec (n_fatent f0) c1); [lia|]. cbn [orb].
    set (s1 := upd (set_curr_clust c1) (set_dev d' s)).
    assert (E1 : put_fs (set_curr_clust c1) (set_dev d' s) = Ret tt s1) by done.
    erewrite bind_ret by exact E1.
    assert (Hsz := fi_size _ _ F).
    set (s2 := upd (set_fptr (u32 (fptr (at_cluster d0 f0 q) + bcs f0))) s1).
    assert (E2 : put_fs (set_fptr (u32 (fptr (at_cluster d0 f0 q) + bcs f0))) s1 = Ret tt s2) by done.
    erewrite bind_ret by exact E2.
    assert (F2 : fs s2 = at_cluster d0 f0 (q + 1)).
    { unfold s2, s1. rewrite !fs_upd, fs_set_dev, Ef. cbn [fptr at_cluster set_fptr]. rewrite u32_id by lia.
      rewrite <- Hq1. done. }
    assert (Hmul : 0 <= q * bcs f0) by (apply Z.mul_nonneg_nonneg; lia).
    destruct (IH s2 d0 f0 (q + 1) (ofs - bcs f0) F) as (s' & E' & S' & P' & F'); try done; try lia.
    { by transitivity (dev s). }
    { replace (ofs - bcs f0) with (ofs + (-1) * bcs f0) by lia. rewrite Z.div_add by lia. lia. }
    replace ((q + 1) * bcs f0 + (ofs - bcs f0)) with (q * bcs f0 + ofs) in E', F' by lia.
    exists s'. split; [exact E'|]. split; [done|]. split; [by rewrite P'|done].
Qed.

(** Rounding down to a cluster. *)
Lemma round_cluster d f x :
  vol_ok d f -> 0 <= x < 2 ^ 32 -> Z.land x (u32 (Z.lnot (bcs f - 1))) = x / bcs f * bcs f.
Proof.
  intros V Hx. destruct (vo_csize _ _ V) as (k & Hk & E). assert (Hb := bcs_pos _ _ V).
  assert (Eb : bcs f = 2 ^ (k + 9)) by (unfold bcs; rewrite E, Z.pow_add_r by lia; lia).
  rewrite Eb. replace (2 ^ (k + 9) - 1) with (Z.ones (k + 9)) by (rewrite Z.ones_equiv; lia).
  rewrite <- Z.shiftl_mul_pow2, <- Z.shiftr_div_pow2 by lia.
  apply Z.bits_inj'. intros n Hn. unfold u32. rewrite Z.land_spec, Z.shiftl_spec by lia.
  destruct (Z.lt_ge_cases n 32).
  - rewrite Z.mod_pow2_bits_low, Z.lnot_spec, Z.testbit_ones_nonneg by lia.
    destruct (Z.ltb_spec n (k + 9)); cbn [negb].
    + rewrite (Z.testbit_neg_r _ (n - (k + 9))) by lia. apply andb_false_r.
    + rewrite Z.shiftr_spec by lia. rewrite andb_true_r. f_equal. lia.
  - rewrite Z.mod_pow2_bits_high by lia. rewrite andb_false_r. symmetry.
    rewrite Z.shiftr_spec by lia. apply (testbit_high x 32); lia.
Qed.


(** The start of the cluster walk of [pf_lseek]: from the current cluster or
    from the first one. *)
Lemma lseek_start (s : pff D) t :
  file_ok (dev s) (fs s) -> pos_ok (dev s) (fs s) -> 0 < t <= fsize (fs s) ->
  let f := fs s in let s0 := upd (set_fptr 0) s in
  exists q s1, (if (0 <? fptr f) && ((fptr f - 1) / bcs f <=? (t - 1) / bcs f) then
       let fp := Z.land (fptr f - 1) (u32 (Z.lnot (bcs f - 1))) in
       put_fs (set_fptr fp) ;;; ret (curr_clust f, u32 (t - fp))
     else put_fs (set_curr_clust (org_clust f)) ;;; ret (org_clust f, t)) s0 =
     Ret (chain (dev s) f (org_clust f) (Z.to_nat q), t - q * bcs f) s1 /\
    dev s1 = dev s /\ FatFs s1 = FatFs s /\ fs s1 = at_cluster (dev s) f q /\ 0 <= q /\ q * bcs f < t.
Proof.
  intros F P Ht f s0. assert (V := fi_vol _ _ F). assert (Hb := bcs_pos _ _ V). fold f in V, Hb.
  assert (Hp := po_range _ _ P). assert (Hsz := fi_size _ _ F). fold f in Hp, Hsz, Ht.
  destruct ((0 <? fptr f) && ((fptr f - 1) / bcs f <=? (t - 1) / bcs f)) eqn:Hcase.
  - apply andb_prop in Hcase as [H0%Z.ltb_lt Hle%Z.leb_le].
    set (q := (fptr f - 1) / bcs f) in *.
    assert (Hq : 0 <= q) by (apply Z.div_pos; lia).
    assert (Hqt : q * bcs f < t).
    { assert (H1 := Z.mul_div_le (t - 1) (bcs f)).
      assert (q * bcs f <= (t - 1) / bcs f * bcs f) by (apply Z.mul_le_mono_nonneg_r; lia). lia. }
    assert (Hmul : 0 <= q * bcs f) by (apply Z.mul_nonneg_nonneg; lia).
    assert (Ecl : curr_clust f = chain (dev s) f (org_clust f) (Z.to_nat q)) by exact (po_clust _ _ P H0).
    cbv zeta. rewrite (round_cluster _ _ _ V) by lia. fold q.
    exists q, (upd (set_fptr (q * bcs f)) s0). split; [|split; [done|split; [done|split; [|done]]]].
    + rewrite u32_id by lia. rewrite <- Ecl. done.
    + unfold s0. rewrite !fs_upd. fold f. unfold at_cluster. rewrite <- Ecl. by destruct f.
  - exists 0, (upd (set_curr_clust (org_clust f)) s0). split; [|split; [done|split; [done|split; [|lia]]]].
    + cbn [chain Z.to_nat Z.mul]. rewrite Z.sub_0_r. done.
    + unfold s0. rewrite !fs_upd. done.
Qed.

Lemma pf_lseek_spec (s : pff D) ofs :
  open_ok s -> 0 <= ofs < 2 ^ 32 ->
  exists s', pf_lseek ofs s = Ret FR_OK s' /\ open_ok s' /\ same (dev s) (dev s') /\ kept (fs s) (fs s') /\
    fptr (fs s') = Z.min ofs (fsize (fs s)).
Proof.
  intros [Hptr Hflag F P] Ho. assert (V := fi_vol _ _ F). assert (Hb := bcs_pos _ _ V).
  assert (Hp := po_range _ _ P). assert (Hsz := fi_size _ _ F).
  unfold pf_lseek, gets. unfold bind at 1. destruct (Z.eqb_spec (FatFs s) 0); [done|].
  unfold bind at 1. destruct (Z.eqb_spec (Z.land (flag (fs s)) FA_OPENED) 0); [done|].
  set (f := fs s) in *.
  assert (Et : (if fsize f <? ofs then fsize f else ofs) = Z.min ofs (fsize f)) by (destruct (Z.ltb_spec (fsize f) ofs); lia).
  rewrite Et. set (t := Z.min ofs (fsize f)) in *. set (s0 := upd (set_fptr 0) s).
  assert (E0 : put_fs (set_fptr 0) s = Ret tt s0) by done. erewrite bind_ret by exact E0.
  assert (F0 : fs s0 = set_fptr 0 f) by (unfold s0; by rewrite fs_upd).
  destruct (Z.ltb_spec 0 t) as [Ht|Ht]; cbn [negb].
  2: { exists s0. split; [done|]. rewrite F0. split; [|split; [done|split; [done|cbn; lia]]].
       split; [done|by rewrite F0|rewrite F0; by apply (kept_file (dev s) _ f)|].
       rewrite F0. split; cbn [fptr set_fptr fsize]; [lia|lia|done]. }
  rewrite (u32_id (csize f * 512)) by (unfold bcs in Hb; lia). fold (bcs f).
  destruct (Z.eqb_spec (bcs f) 0); [lia|]. rewrite andb_false_r.
  destruct (lseek_start s t F P ltac:(fold f; subst t; lia)) as (q & s1 & E1 & D1 & P1 & F1 & Hq & Hqt). fold f in E1, F1, Hqt. fold s0 in E1.
  erewrite bind_ret by exact E1. 
  destruct (lseek_loop_spec (Z.to_nat ((t - q * bcs f) / bcs f)) s1 (dev s) f q (t - q * bcs f) F) as (s2 & E2 & S2 & P2 & F2);
    try done; try lia.
  { by rewrite D1. }
  replace (q * bcs f + (t - q * bcs f)) with t in E2, F2 by lia.
  set (q' := (t - 1) / bcs f) in *. erewrite bind_ret by exact E2.
  assert (Hq' : 0 <= q') by (apply Z.div_pos; lia).
  assert (Hqle : q' * bcs f <= t - 1) by (rewrite Z.mul_comm; apply Z.mul_div_le; lia).
  unfold bind at 1. rewrite F2. cbn [fptr at_cluster set_fptr].
  replace (q' * bcs f + (t - q' * bcs f)) with t by lia. rewrite (u32_id t) by lia.
  set (s3 := upd (set_fptr t) s2). assert (E3 : put_fs (set_fptr t) s2 = Ret tt s3) by done.
  erewrite bind_ret by exact E3. set (c := chain (dev s) f (org_clust f) (Z.to_nat q')).
  assert (F3 : fs s3 = set_fptr t (set_curr_clust c f)) by (unfold s3; rewrite fs_upd, F2; done).
  assert (Hc := chain_valid _ _ q' F Hq' ltac:(lia)). fold c in Hc.
  destruct (clust2sect_in s3 (dev s) c) as (E4 & Hdb & Hce).
  { rewrite F3. eapply geom_vol; [|exact V]. done. }
  { rewrite F3. exact Hc. }
  assert (Ecs : cluster_sector (fs s3) c = cluster_sector f c) by (by rewrite F3).
  rewrite Ecs in *. rewrite F3 in Hdb, Hce. cbn [database csize n_fatent set_fptr set_curr_clust] in Hdb, Hce.
  erewrite bind_ret by exact E4. destruct (Z.eqb_spec (cluster_sector f c) 0); [lia|].
  unfold bind at 1. rewrite F3. cbn [fptr csize set_fptr set_curr_clust].
  rewrite (csize_mask _ _ _ V) by (apply Z.div_pos; lia).
  assert (Hm := Z.mod_pos_bound (t / 512) (csize f)). assert (Hcs := csize_range _ _ V). assert (He := vo_end _ _ V).
  rewrite u32_id by lia.
  set (s4 := upd (set_dsect (cluster_sector f c + (t / 512) mod csize f)) s3).
  exists s4. split; [reflexivity|].
  assert (F4 : fs s4 = set_dsect (cluster_sector f c + (t / 512) mod csize f) (set_fptr t (set_curr_clust c f)))
    by (unfold s4; rewrite fs_upd, F3; done).
  assert (Pt : FatFs s4 = FatFs s) by (change (FatFs s4) with (FatFs s2); rewrite P2, P1; done).
  assert (K : kept f (fs s4)) by (rewrite F4; done).
  split; [|split; [exact S2|split; [exact K|rewrite F4; done]]].
  split; [by rewrite Pt|by rewrite F4|by eapply kept_file|].
  rewrite F4 in *. eapply pos_same; [exact S2|]. assert (Ec : c = cluster_at (dev s) f (org_clust f) (t - 1)) by done.
  split; cbn [fptr fsize curr_clust dsect org_clust set_dsect set_fptr set_curr_clust].
  - lia.
  - intros _. rewrite (kept_chain _ _ _ _ _ _ K) by done. done.
  - intros Hmod. rewrite (kept_sector _ _ _ _ _ _ K) by done. unfold sector_at. f_equal. f_equal. rewrite Ec.
    apply (same_block _ _ _ _ _ V); [lia|lia|zdm].
Qed.

End File.


(** ** An open file of the demo volume *)

Lemma demo_open : open_ok (demo_state (demo_fs 0 0 0)).
Proof.
  split; [done|discriminate| |].
  - change (fs (demo_state (demo_fs 0 0 0))) with (demo_fs 0 0 0). split; [apply demo_vol|change (0 <= 600 < 2 ^ 32); lia|].
    intros k Hk. change (0 <= k < 600) in Hk. unfold cluster_at. change (bcs (demo_fs 0 0 0)) with 512.
    assert (Hd : k / 512 = 0 \/ k / 512 = 1) by zdm.
    change (dev (demo_state (demo_fs 0 0 0))) with demo.
    assert (E : fat_entry demo (demo_fs 0 0 0) 2 = 4) by (vm_compute; reflexivity).
    change (n_fatent (demo_fs 0 0 0)) with 7. change (org_clust (demo_fs 0 0 0)) with 2.
    destruct Hd as [-> | ->]; [change (2 <= 2 < 7); lia|].
    change (2 <= fat_entry demo (demo_fs 0 0 0) 2 < 7). rewrite E. lia.
  - change (fs (demo_state (demo_fs 0 0 0))) with (demo_fs 0 0 0). split.
    + change (0 <= 0 <= 600). lia.
    + change (0 < 0 -> curr_clust (demo_fs 0 0 0) = cluster_at demo (demo_fs 0 0 0) 2 (0 - 1)). lia.
    + change (0 mod 512 <> 0 -> 0 = sector_at demo (demo_fs 0 0 0) 2 0). intros Hm. by destruct Hm.
Qed.

(** ** Properties *)

(** C12: [pf_read] on an open file whose cluster chain is long enough
    delivers exactly the bytes of the file from the file pointer on, as many
    as asked for or as are left, reports their number, advances the pointer
    by it and leaves an open file that can be read on; neither the file nor
    the disk changes. *)
Theorem pf_read_contents {D : Type} `{Disk D} (s : pff D) btr :
  open_ok s -> 0 <= btr < 2 ^ 32 ->
  let n := Z.min btr (fsize (fs s) - fptr (fs s)) in
  exists s', pf_read btr s =
      Ret (FR_OK, n, file_slice (dev s) (fs s) (org_clust (fs s)) (fptr (fs s)) (Z.to_nat n)) s' /\
    open_ok s' /\ same (dev s) (dev s') /\ kept (fs s) (fs s') /\ fptr (fs s') = fptr (fs s) + n.
Proof. apply pf_read_spec. Qed.

Lemma pf_read_contents_witness :
  exists s', pf_read 600 (demo_state (demo_fs 0 0 0)) =
      Ret (FR_OK, 600, file_slice demo (demo_fs 0 0 0) 2 0 600) s' /\ open_ok s' /\
    file_byte demo (demo_fs 0 0 0) 2 511 = 120 /\ file_byte demo (demo_fs 0 0 0) 2 512 = 121.
Proof.
  destruct (pf_read_contents (demo_state (demo_fs 0 0 0)) 600 demo_open ltac:(lia)) as (s' & E & O & _).
  exists s'. split; [exact E|]. split; [exact O|]. split; vm_compute; reflexivity.
Defined.

(** C13: [pf_lseek] to any offset, followed by [pf_read], delivers the bytes
    of the file from that offset (or from its end) on, whether the seek walks
    the chain from the current cluster or from the first one. *)
Theorem pf_lseek_read {D : Type} `{Disk D} (s : pff D) ofs btr :
  open_ok s -> 0 <= ofs < 2 ^ 32 -> 0 <= btr < 2 ^ 32 ->
  let pos := Z.min ofs (fsize (fs s)) in
  let n := Z.min btr (fsize (fs s) - pos) in
  exists s1 s2, pf_lseek ofs s = Ret FR_OK s1 /\ open_ok s1 /\ fptr (fs s1) = pos /\
    pf_read btr s1 = Ret (FR_OK, n, file_slice (dev s) (fs s) (org_clust (fs s)) pos (Z.to_nat n)) s2 /\
    open_ok s2 /\ fptr (fs s2) = pos + n.
Proof.
  intros O Ho Hb pos n. destruct (pf_lseek_spec s ofs O Ho) as (s1 & E1 & O1 & S1 & K1 & P1).
  destruct (pf_read_spec s1 btr O1 Hb) as (s2 & E2 & O2 & S2 & K2 & P2). destruct K1 as (G & Eo & Es & _).
  rewrite P1, Es in *. rewrite Eo in E2. rewrite (geom_slice _ _ _ _ _ _ _ G S1) in E2.
  exists s1, s2. split_and!; done.
Qed.

Lemma pf_lseek_read_witness :
  exists s1 s2 bs, pf_lseek 511 (demo_state (demo_fs 0 0 0)) = Ret FR_OK s1 /\
    pf_read 2 s1 = Ret (FR_OK, 2, bs) s2 /\ bs = [120; 121].
Proof.
  destruct (pf_lseek_read (demo_state (demo_fs 0 0 0)) 511 2 demo_open ltac:(lia) ltac:(lia)) as (s1 & s2 & E1 & _ & _ & E2 & _).
  eexists s1, s2, _. split; [exact E1|]. split; [exact E2|]. vm_compute. reflexivity.
Defined.


End PffFile.
