(* ===== verification/PffDir.v ===== *)
(** FAT volumes, part three: directories as lists of entries; searching and
    reading them, and 8.3 names (kernel/Fat/pff.c: dir_rewind, dir_next,
    dir_find, dir_read, create_name, get_fileinfo). *)

From stdpp Require Import base tactics list gmap numbers option.
From Stdlib Require Import ZArith Lia.
From S2P Require Import Prelude Pff PffSpec.

#[local] Open Scope Z_scope.

Module PffDir.
Import Prelude Pff PffSpec.
#[local] Open Scope lofi_scope.

Lemma length_blit0 bs buf : (length bs <= length buf)%nat -> length (blit 0 bs buf) = length buf.
Proof. intros Hl. unfold blit. rewrite take_0. simpl. rewrite length_app, length_drop. lia. Qed.

Lemma blit0_full bs buf : length bs = length buf -> blit 0 bs buf = bs.
Proof. intros Hl. unfold blit. rewrite take_0. simpl. rewrite drop_ge by lia. apply app_nil_r. Qed.

(** [mem_cmp] of byte strings is equality. *)
Lemma sgn8_inj a b : 0 <= a < 256 -> 0 <= b < 256 -> sgn 8 a = sgn 8 b -> a = b.
Proof.
  intros Ha Hb. unfold sgn. rewrite !Z.mod_small by lia.
  destruct (Z.ltb_spec a (2 ^ (8 - 1))), (Z.ltb_spec b (2 ^ (8 - 1))); lia.
Qed.

Lemma byte_cons c l i : byte (c :: l) (S i) = byte l i.
Proof. done. Qed.

Lemma byte_range l i : byte_list l -> 0 <= byte l i < 256.
Proof.
  intros Hl. unfold byte. destruct (l !! i) eqn:E; cbn; [|lia].
  exact (Forall_lookup_1 _ _ _ _ Hl E).
Qed.

Lemma mem_cmp_eq n : forall a b,
  byte_list a -> byte_list b -> (n <= length a)%nat -> (n <= length b)%nat ->
  mem_cmp a b n = 0 <-> take n a = take n b.
Proof.
  induction n as [|n IH]; intros a b Ha Hb La Lb; [done|].
  destruct a as [|x a]; [simpl in La; lia|]. destruct b as [|y b]; [simpl in Lb; lia|].
  assert (Hx := Forall_inv Ha). assert (Hy := Forall_inv Hb). apply Forall_inv_tail in Ha, Hb. cbv beta in Hx, Hy.
  cbn [mem_cmp take drop]. change (byte (x :: a) 0) with x. change (byte (y :: b) 0) with y. rewrite !drop_0.
  simpl in La, Lb. specialize (IH a b Ha Hb ltac:(lia) ltac:(lia)).
  destruct (Z.eqb_spec (sgn 8 x - sgn 8 y) 0) as [E|N].
  - assert (x = y) as -> by (apply sgn8_inj; lia). rewrite IH. split; [by intros ->|by intros [=]].
  - split; [done|]. intros [= -> _]. lia.
Qed.

Section Dir.
Context {D : Type} `{Disk D}.

(** ** Directory tables

    A table has [N] entries, entry [i] lies in sector [dsec i]; [dclu] is the
    cluster of the position, 0 for the fixed root of FAT12 and FAT16. *)
Record table := mkTable { tN : Z; dsec : Z -> Z; dclu : Z -> Z }.

Definition entry_at (d : D) (t : table) (i : Z) : list Z := slice d (dsec t i) (i mod 16 * 32) 32.

(** The position of [dj] in the table. *)
Definition at_pos (t : table) (dj : DIR) (i : Z) : Prop :=
  index dj = i /\ sect dj = dsec t i /\ clust dj = dclu t i /\ sect dj <> 0.

(** [dir_next] moves along the table and reports its end. *)
Record walks (f : FATFS) (d : D) (t : table) : Prop := {
  wk_N : 0 < tN t <= 65536;
  wk_ready i : 0 <= i < tN t -> ready d (dsec t i);
  wk_next (s : pff D) dj i :
    fs s = f -> same d (dev s) -> 0 <= i < tN t -> at_pos t dj i ->
    exists d' dj', same (dev s) d' /\ fn dj' = fn dj /\
      dir_next dj s = Ret (if i + 1 <? tN t then FR_OK else FR_NO_FILE, dj') (set_dev d' s) /\
      (i + 1 < tN t -> at_pos t dj' (i + 1))
}.

(** *** Searching *)

Definition matches (name e : list Z) : bool := (Z.land (byte e 11) AM_VOL =? 0) && bool_decide (take 11 e = take 11 name).

(** The first matching entry before the end mark, with its index. *)
Fixpoint find_entry (name : list Z) (es : list (list Z)) (i : Z) : option (Z * list Z) :=
  match es with
  | [] => None
  | e :: r =>
    if byte e 0 =? 0 then None
    else if matches name e then Some (i, e)
    else find_entry name r (i + 1)
  end.

Definition entries_from (d : D) (t : table) (i : Z) : list (list Z) :=
  (fun k => entry_at d t (i + Z.of_nat k)) <$> seq 0 (Z.to_nat (tN t - i)).

Lemma entries_from_cons d t i :
  i < tN t -> entries_from d t i = entry_at d t i :: entries_from d t (i + 1).
Proof.
  intros Hi. unfold entries_from. replace (Z.to_nat (tN t - i)) with (S (Z.to_nat (tN t - (i + 1)))) by lia.
  cbn [seq fmap list_fmap]. rewrite Z.add_0_r. f_equal.
  rewrite <- fmap_S_seq, <- list_fmap_compose. apply list_fmap_ext. intros k x _. simpl. f_equal. lia.
Qed.

Lemma slice_byte_list d sct ofs n : byte_list (slice d sct ofs n).
Proof. apply Forall_fmap, Forall_forall. intros i _. apply img_byte. Qed.

Lemma length_entry d t i : length (entry_at d t i) = 32%nat.
Proof. apply length_slice. Qed.

Lemma entry_same d d' t i : same d d' -> entry_at d' t i = entry_at d t i.
Proof. intros [E _]. unfold entry_at, slice. by rewrite E. Qed.

Lemma dir_find_loop_spec fuel : forall (s : pff D) d f t dj dir i,
  walks f d t -> fs s = f -> same d (dev s) -> 0 <= i < tN t -> at_pos t dj i ->
  length dir = 32%nat -> length (fn dj) = 12%nat -> byte_list (fn dj) -> tN t - i <= Z.of_nat fuel ->
  exists res dj' dir' d', dir_find_loop fuel dj dir s = Ret (res, dj', dir') (set_dev d' s) /\
    same (dev s) d' /\ fn dj' = fn dj /\
    match find_entry (fn dj) (entries_from d t i) i with
    | Some (j, e) => res = FR_OK /\ at_pos t dj' j /\ dir' = e
    | None => res = FR_NO_FILE
    end.
Proof.
  induction fuel as [|fuel IH]; intros s d f t dj dir i W Ef S Hi Hat Hdir Hfn Hbl Hfuel; [lia|].
  destruct Hat as (Ei & Es & Ec & Hs0). cbn [dir_find_loop].
  assert (Hm := Z.mod_pos_bound i 16).
  destruct (readp_spec s (dsec t i) (i mod 16 * 32) 32) as (d1 & E1 & S1).
  { apply S. apply (wk_ready _ _ _ W). lia. }
  { lia. }
  { lia. }
  { lia. }
  rewrite Es, Ei. erewrite bind_ret by exact E1. change (Z.to_nat 32) with 32%nat. cbv beta iota zeta.
  rewrite blit0_full by (by rewrite length_slice).
  fold (entry_at (dev s) t i). rewrite (entry_same _ _ _ _ S). rewrite (entries_from_cons d t i) by lia. cbn [find_entry].
  set (e := entry_at d t i). assert (He : length e = 32%nat) by apply length_entry.
  assert (Hcmp : (mem_cmp e (fn dj) 11 =? 0) = bool_decide (take 11 e = take 11 (fn dj))).
  { apply Bool.eq_iff_eq_true. rewrite Z.eqb_eq, bool_decide_eq_true.
    apply mem_cmp_eq; [apply slice_byte_list|done|lia|lia]. }
  rewrite Hcmp. fold (matches (fn dj) e).
  destruct (Z.eqb_spec (byte e 0) 0) as [Ez|Nz]; [do 4 eexists; by split|].
  destruct (matches (fn dj) e) eqn:Em; [do 4 eexists; split; [reflexivity|done]|].
  destruct (wk_next _ _ _ W (set_dev d1 s) dj i) as (d2 & dj' & S2 & Efn & E2 & Hat'); [done|by transitivity (dev s)|done|done|].
  erewrite bind_ret by exact E2. cbn [dev set_dev] in S2.
  assert (S12 : same (dev s) d2) by (by transitivity d1).
  destruct (Z.ltb_spec (i + 1) (tN t)) as [Hlt|Hge].
  - destruct (IH (set_dev d2 s) d f t dj' e (i + 1) W) as (res & dj'' & dir' & d3 & E3 & S3 & Efn' & Hres);
      try done; try lia; [by transitivity (dev s)|by apply Hat'|by rewrite Efn|by rewrite Efn|].
    exists res, dj'', dir', d3. split; [exact E3|]. split; [by transitivity d2|]. split; [congruence|].
    by rewrite Efn in Hres.
  - do 4 eexists. split; [reflexivity|]. split; [done|]. split; [done|].
    unfold entries_from. replace (Z.to_nat (tN t - (i + 1))) with 0%nat by lia. done.
Qed.

(** *** The two kinds of tables *)

(** The fixed root directory of FAT12 and FAT16. *)
Definition root_table (f : FATFS) : table :=
  mkTable (if n_rootdir f =? 0 then 16 else 16 * ((n_rootdir f + 15) / 16))
    (fun i => dirbase f + i / 16) (fun _ => 0).

Record root_ok (d : D) (f : FATFS) : Prop := {
  ro_type : fs_type f <> FS_FAT32;
  ro_n : 0 <= n_rootdir f < 2 ^ 16;
  ro_ents : 2 <= n_fatent f;
  ro_base : 0 < dirbase f /\ dirbase f + 4096 < 2 ^ 32;
  ro_ready i : 0 <= i < tN (root_table f) -> ready d (dirbase f + i / 16)
}.

Lemma root_walks d f : root_ok d f -> walks f d (root_table f).
Proof.
  intros R. assert (Hn := ro_n _ _ R). assert (Hb := ro_base _ _ R).
  assert (HN : 0 < tN (root_table f) <= 65536 /\ tN (root_table f) mod 16 = 0 /\ n_rootdir f <= tN (root_table f) < Z.max 1 (n_rootdir f) + 16).
  { unfold root_table. cbn [tN]. destruct (Z.eqb_spec (n_rootdir f) 0); zdm. }
  destruct HN as (HN1 & HN2 & HN3). split; [done|apply (ro_ready _ _ R)|].
  intros s dj i Ef S Hi (Ei & Es & Ec & Hs0). unfold dir_next, gets. unfold bind at 1. rewrite Ef, Ei, Es.
  cbn [root_table dsec dclu] in *. unfold u16.
  destruct (Z.eq_dec (i + 1) 65536) as [E64|N64].
  { rewrite E64. cbn [Z.modulo Z.div_eucl]. exists (dev s), dj. destruct (Z.ltb_spec 65536 (tN (root_table f))); [lia|].
    split; [done|split; [done|split; [by destruct s|lia]]]. }
  rewrite Z.mod_small by lia. destruct (Z.eqb_spec (i + 1) 0); [lia|].
  destruct (Z.eqb_spec (dirbase f + i / 16) 0); [zdm|]. cbn [orb].
  destruct (Z.eqb_spec ((i + 1) mod 16) 0) as [E16|N16]; cbn [negb].
  - cbn [clust set_sect]. rewrite Ec. cbn [Z.eqb]. rewrite u32_id by zdm.
    destruct (Z.leb_spec (n_rootdir f) (i + 1)).
    + exists (dev s), (set_sect (dirbase f + i / 16 + 1) dj). destruct (Z.ltb_spec (i + 1) (tN (root_table f))); [exfalso; zdm|].
      split; [done|split; [done|split; [by destruct s|lia]]].
    + exists (dev s), (set_index (i + 1) (set_sect (dirbase f + i / 16 + 1) dj)).
      destruct (Z.ltb_spec (i + 1) (tN (root_table f))); [|lia].
      split; [done|split; [done|split; [by destruct s|]]]. intros _.
      split; [done|]. cbn [sect clust set_index set_sect dsec dclu root_table]. split; [zdm|]. split; [done|zdm].
  - exists (dev s), (set_index (i + 1) dj). destruct (Z.ltb_spec (i + 1) (tN (root_table f))); [|exfalso; zdm].
    split; [done|split; [done|split; [by destruct s|]]]. intros _.
    split; [done|]. cbn [sect clust set_index dsec dclu root_table]. rewrite Es. split; [zdm|]. split; [done|zdm].
Qed.

(** A directory in a chain of [m] clusters from [c]. *)
Definition dir_table (d : D) (f : FATFS) (c : Z) (m : nat) : table :=
  let k i := chain d f c (Z.to_nat (i / 16 / csize f)) in
  mkTable (Z.min 65536 (16 * csize f * Z.of_nat m))
    (fun i => cluster_sector f (k i) + (i / 16) mod csize f) k.

Record dir_ok (d : D) (f : FATFS) (c : Z) (m : nat) : Prop := {
  do_vol : vol_ok d f;
  do_len : (0 < m)%nat;
  do_chain k : (k < m)%nat -> 2 <= chain d f c k < n_fatent f;
  do_end : n_fatent f <= chain d f c m
}.

Lemma dir_sector_ok d f c m k j :
  dir_ok d f c m -> (k < m)%nat -> 0 <= j < csize f ->
  database f <= cluster_sector f (chain d f c k) + j < database f + (n_fatent f - 2) * csize f.
Proof.
  intros R Hk Hj. assert (Hc := do_chain _ _ _ _ R k Hk). assert (Hs := csize_range _ _ (do_vol _ _ _ _ R)).
  unfold cluster_sector. set (x := chain d f c k) in *.
  assert (0 <= (x - 2) * csize f) by (apply Z.mul_nonneg_nonneg; lia).
  assert ((x - 1) * csize f <= (n_fatent f - 2) * csize f) by (apply Z.mul_le_mono_nonneg_r; lia). lia.
Qed.

(** Entry numbers and clusters. *)
Lemma dir_index d f c m i :
  dir_ok d f c m -> 0 <= i < tN (dir_table d f c m) ->
  0 <= i / 16 / csize f /\ (Z.to_nat (i / 16 / csize f) < m)%nat.
Proof.
  intros R Hi. cbn [tN dir_table] in Hi. assert (Hs := csize_range _ _ (do_vol _ _ _ _ R)).
  assert (H1 : 0 <= i / 16) by (apply Z.div_pos; lia).
  assert (H2 : i / 16 / csize f < Z.of_nat m).
  { apply Z.div_lt_upper_bound; [lia|]. apply Z.div_lt_upper_bound; lia. }
  assert (0 <= i / 16 / csize f) by (apply Z.div_pos; lia). lia.
Qed.

Lemma csize_mask1 d f x : vol_ok d f -> 0 <= x -> Z.land x (csize f - 1) = x mod csize f.
Proof.
  intros V Hx. destruct (vo_csize _ _ V) as (k & Hk & E). rewrite E.
  replace (2 ^ k - 1) with (Z.ones k) by (rewrite Z.ones_equiv; lia). apply land_ones_mod. lia.
Qed.

Lemma dir_walks d f c m : dir_ok d f c m -> walks f d (dir_table d f c m).
Proof.
  intros R. assert (V := do_vol _ _ _ _ R). assert (Hs := csize_range _ _ V). assert (Hm := do_len _ _ _ _ R).
  assert (Hd := vo_data _ _ V). assert (He := vo_end _ _ V).
  assert (HN1 : 0 < tN (dir_table d f c m) <= 65536) by (cbn [tN dir_table]; assert (0 < csize f * Z.of_nat m) by (apply Z.mul_pos_pos; lia); lia).
  split; [done| |].
  { intros i Hi. destruct (dir_index _ _ _ _ _ R Hi) as [_ Hk]. apply (vo_ready _ _ V). cbn [dsec dir_table].
    apply (dir_sector_ok _ _ _ _ _ _ R Hk). apply Z.mod_pos_bound. lia. }
  intros s dj i Ef S Hi (Ei & Es & Ec & Hs0). destruct (dir_index _ _ _ _ _ R Hi) as [Hq Hk].
  assert (Hsec := dir_sector_ok _ _ _ _ _ ((i / 16) mod csize f) R Hk ltac:(apply Z.mod_pos_bound; lia)).
  unfold dir_next, gets. unfold bind at 1. rewrite Ef, Ei. unfold u16.
  assert (HN : tN (dir_table d f c m) = Z.min 65536 (16 * csize f * Z.of_nat m)) by done.
  destruct (Z.eq_dec (i + 1) 65536) as [E64|N64].
  { rewrite E64. cbn [Z.modulo Z.div_eucl]. exists (dev s), dj. destruct (Z.ltb_spec 65536 (tN (dir_table d f c m))); [lia|].
    split; [done|split; [done|split; [by destruct s|lia]]]. }
  rewrite Z.mod_small by lia. destruct (Z.eqb_spec (i + 1) 0); [lia|].
  destruct (Z.eqb_spec (sect dj) 0); [done|]. cbn [orb].
  destruct (Z.eqb_spec ((i + 1) mod 16) 0) as [E16|N16]; cbn [negb].
  2: { assert (Eq : (i + 1) / 16 = i / 16) by zdm.
       assert (Hlt : i + 1 < tN (dir_table d f c m)).
       { assert (tN (dir_table d f c m) mod 16 = 0); [|zdm]. rewrite HN. destruct (Z.min_spec 65536 (16 * csize f * Z.of_nat m)) as [[_ ->]|[_ ->]]; [done|].
         rewrite <- Z.mul_assoc, Z.mul_comm. apply Z.mod_mul. lia. }
       exists (dev s), (set_index (i + 1) dj). destruct (Z.ltb_spec (i + 1) (tN (dir_table d f c m))); [|lia].
       split; [done|split; [done|split; [by destruct s|]]]. intros _. split; [done|].
       cbn [sect clust set_index dsec dclu dir_table] in *. rewrite Eq. done. }
  cbn [clust set_sect]. rewrite Ec. cbn [dclu dir_table].
  assert (Eq : (i + 1) / 16 = i / 16 + 1) by zdm.
  assert (E1 : i + 1 = 16 * (i / 16 + 1)) by zdm.
  assert (H16 : 0 <= i / 16) by zdm.
  assert (Hcl := do_chain _ _ _ _ R _ Hk). set (q := i / 16 / csize f) in *. set (r := i / 16) in *.
  destruct (Z.eqb_spec (chain d f c (Z.to_nat q)) 0); [lia|].
  rewrite Eq, (csize_mask1 _ _ _ V) by lia.
  assert (Hdm := Z.div_mod r (csize f) ltac:(lia)). fold q in Hdm.
  assert (Hrm := Z.mod_pos_bound r (csize f) ltac:(lia)).
  destruct (Z.eqb_spec ((r + 1) mod csize f) 0) as [Ecl|Ncl]; cbn [negb].
  - (* the next cluster *)
    assert (Hr1 : r + 1 = csize f * (q + 1)).
    { assert (r mod csize f = csize f - 1); [|lia].
      destruct (Z.lt_ge_cases (r mod csize f) (csize f - 1)); [|lia]. exfalso.
      assert ((r + 1) mod csize f = r mod csize f + 1); [|lia].
      symmetry. apply Z.mod_unique with (q := q); lia. }
    destruct (get_fat_spec s (chain d f c (Z.to_nat q))) as (d1 & Eg & Sg).
    { rewrite Ef. eapply fat_ok_same; [exact S|]. apply V. }
    { by rewrite Ef. }
    erewrite bind_ret by exact Eg. rewrite Ef, (fat_entry_same _ _ _ _ S).
    assert (Ech : fat_entry d f (chain d f c (Z.to_nat q)) = chain d f c (Z.to_nat (q + 1))).
    { replace (Z.to_nat (q + 1)) with (Datatypes.S (Z.to_nat q)) by lia. done. }
    rewrite Ech. assert (Hents := vo_ents _ _ V).
    destruct (Z.lt_ge_cases (q + 1) (Z.of_nat m)) as [Hlt|Hge].
    + assert (Hc1 := do_chain _ _ _ _ R (Z.to_nat (q + 1)) ltac:(lia)).
      set (c1 := chain d f c (Z.to_nat (q + 1))) in *.
      destruct (Z.leb_spec c1 1); [lia|]. destruct (Z.leb_spec (n_fatent f) c1); [lia|].
      destruct (clust2sect_in (set_dev d1 s) d c1) as (Ecs & _); [by rewrite fs_set_dev, Ef|by rewrite fs_set_dev, Ef|].
      rewrite fs_set_dev, Ef in Ecs. erewrite bind_ret by exact Ecs.
      assert (Hqm : csize f * (q + 2) <= csize f * Z.of_nat m) by (apply Z.mul_le_mono_nonneg_l; lia).
      assert (Hin : i + 1 < tN (dir_table d f c m)) by (rewrite HN; lia).
      destruct (Z.ltb_spec (i + 1) (tN (dir_table d f c m))); [|lia].
      exists d1, (set_index (i + 1) (set_sect (cluster_sector f c1) (set_clust c1 (set_sect (u32 (sect dj + 1)) dj)))).
      split; [done|split; [done|split; [done|]]]. intros _. split; [done|].
      cbn [sect clust set_index set_sect set_clust dsec dclu dir_table]. rewrite Eq, Hr1.
      rewrite (Z.mul_comm (csize f)), Z.div_mul, Z.mod_mul by lia. fold c1.
      assert (Hsec1 := dir_sector_ok _ _ _ _ (Z.to_nat (q + 1)) 0 R ltac:(lia) ltac:(lia)). fold c1 in Hsec1.
      split; [lia|]. split; [done|lia].
    + assert (Em : Z.to_nat (q + 1) = m) by lia. assert (Hend := do_end _ _ _ _ R). rewrite Em.
      destruct (Z.leb_spec (chain d f c m) 1); [lia|]. destruct (Z.leb_spec (n_fatent f) (chain d f c m)); [|lia].
      eexists d1, _. 
      assert (Hqm : csize f * Z.of_nat m <= csize f * (q + 1)) by (apply Z.mul_le_mono_nonneg_l; lia).
      destruct (Z.ltb_spec (i + 1) (tN (dir_table d f c m))); [lia|].
      split; [done|split; [|split; [reflexivity|lia]]]. done.
  - (* the next sector *)
    assert (Hr1 : (r + 1) / csize f = q /\ (r + 1) mod csize f = r mod csize f + 1).
    { destruct (Z.lt_ge_cases (r mod csize f) (csize f - 1)).
      - split; symmetry; [apply Z.div_unique with (r := r mod csize f + 1)|apply Z.mod_unique with (q := q)]; lia.
      - exfalso. apply Ncl. symmetry. apply Z.mod_unique with (q := q + 1); lia. }
    destruct Hr1 as [Hr1 Hr2]. assert (Hrm2 := Z.mod_pos_bound (r + 1) (csize f) ltac:(lia)).
    assert (Hqm : csize f * (q + 1) <= csize f * Z.of_nat m) by (apply Z.mul_le_mono_nonneg_l; lia).
    assert (Hin : i + 1 < tN (dir_table d f c m)) by (rewrite HN; lia).
    exists (dev s), (set_index (i + 1) (set_sect (u32 (sect dj + 1)) dj)).
    destruct (Z.ltb_spec (i + 1) (tN (dir_table d f c m))); [|lia].
    split; [done|split; [done|split; [by destruct s|]]]. intros _. split; [done|].
    cbn [sect clust set_index set_sect dsec dclu dir_table]. rewrite Eq, Es. cbn [dsec dir_table]. fold r q.
    assert (Hsec1 := dir_sector_ok _ _ _ _ _ (r mod csize f + 1) R Hk ltac:(lia)).
    rewrite Hr1, Hr2, u32_id by lia. split; [lia|]. split; [done|lia].
Qed.


(** *** [dir_rewind] and [dir_find] *)

Lemma turns_spec : Z.of_nat turns = 65536.
Proof. unfold turns. lia. Qed.

(** A starting cluster and the table it stands for. *)
Inductive opens (d : D) (f : FATFS) : Z -> table -> Prop :=
| op_root : root_ok d f -> opens d f 0 (root_table f)
| op_root32 m : fs_type f = FS_FAT32 -> dir_ok d f (dirbase f) m -> opens d f 0 (dir_table d f (dirbase f) m)
| op_dir c m : c <> 0 -> dir_ok d f c m -> opens d f c (dir_table d f c m).

Lemma opens_walks d f c t : opens d f c t -> walks f d t.
Proof. intros [R|m _ R|c' m _ R]; [by apply root_walks|by apply dir_walks|by apply dir_walks]. Qed.

Lemma dclu_0 d f c m : 1 <= csize f -> dclu (dir_table d f c m) 0 = c.
Proof.
  intros Hs. change (chain d f c (Z.to_nat (0 / 16 / csize f)) = c).
  rewrite Z.div_0_l by lia. done.
Qed.

Lemma dir_rewind_spec (s : pff D) d f t dj :
  opens d f (sclust dj) t -> fs s = f ->
  exists dj', dir_rewind dj s = Ret (FR_OK, dj') s /\ at_pos t dj' 0 /\ fn dj' = fn dj.
Proof.
  intros O Ef.
  assert (Hdir : forall c m, dir_ok d f c m -> exists sct, clust2sect c s = Ret sct s /\
            sct = dsec (dir_table d f c m) 0 /\ sct <> 0 /\ 2 <= c < n_fatent f).
  { intros c m R. assert (V := do_vol _ _ _ _ R). assert (Hc := do_chain _ _ _ _ R 0%nat (do_len _ _ _ _ R)). cbn [chain] in Hc.
    destruct (clust2sect_in s d c) as (E & Hd & _); [by rewrite Ef|by rewrite Ef|]. rewrite Ef in *.
    assert (Hs := csize_range _ _ V).
    eexists. split; [exact E|]. cbn [dsec dir_table]. rewrite Z.div_0_l, Z.mod_0_l by lia.
    change (Z.to_nat 0) with 0%nat. cbn [chain]. lia. }
  unfold dir_rewind, gets. unfold bind at 1. rewrite Ef. cbn [sclust set_index].
  destruct O as [R|m Ht R|c m Hc R].
  - assert (Hb := ro_base _ _ R). assert (Hn := ro_ents _ _ R). assert (Ht := ro_type _ _ R).
    cbn [Z.eqb]. destruct (Z.leb_spec (n_fatent f) 0); [lia|]. cbn [orb].
    destruct (Z.eqb_spec (fs_type f) FS_FAT32); [done|]. cbn [andb Z.eqb negb].
    eexists. split; [reflexivity|]. split; [|done]. split; [done|]. cbn [sect set_sect dsec root_table clust set_clust dclu].
    change (0 / 16) with 0. split; [lia|]. split; [done|lia].
  - destruct (Hdir _ _ R) as (sct & Es & Esec & Hs0 & Hc). cbn [Z.eqb].
    destruct (Z.leb_spec (n_fatent f) 0); [lia|]. cbn [orb]. rewrite Ht. cbn [andb Z.eqb FS_FAT32 Pos.eqb].
    destruct (Z.eqb_spec (dirbase f) 0); [lia|]. cbn [negb]. erewrite bind_ret by exact Es.
    eexists. split; [reflexivity|]. split; [|done]. split; [done|]. split; [done|]. split; [|done].
    assert (Hcs := csize_range _ _ (do_vol _ _ _ _ R)). rewrite dclu_0 by lia. done.
  - destruct (Hdir _ _ R) as (sct & Es & Esec & Hs0 & Hcr).
    destruct (Z.eqb_spec c 1); [lia|]. destruct (Z.leb_spec (n_fatent f) c); [lia|]. cbn [orb].
    destruct (Z.eqb_spec c 0); [done|]. cbn [andb]. destruct (Z.eqb_spec c 0); [done|]. cbn [negb].
    erewrite bind_ret by exact Es.
    eexists. split; [reflexivity|]. split; [|done]. split; [done|]. split; [done|]. split; [|done].
    assert (Hcs := csize_range _ _ (do_vol _ _ _ _ R)). rewrite dclu_0 by lia. done.
Qed.

(** The entries of a table, in order. *)
Definition entries (d : D) (t : table) : list (list Z) := entries_from d t 0.

Lemma dir_find_spec (s : pff D) t dj dir :
  opens (dev s) (fs s) (sclust dj) t -> length dir = 32%nat -> length (fn dj) = 12%nat -> byte_list (fn dj) ->
  exists res dj' dir' d', dir_find dj dir s = Ret (res, dj', dir') (set_dev d' s) /\
    same (dev s) d' /\ fn dj' = fn dj /\
    match find_entry (fn dj) (entries (dev s) t) 0 with
    | Some (j, e) => res = FR_OK /\ at_pos t dj' j /\ dir' = e
    | None => res = FR_NO_FILE
    end.
Proof.
  intros O Hd Hfn Hbl. assert (W := opens_walks _ _ _ _ O). assert (HN := wk_N _ _ _ W).
  destruct (dir_rewind_spec s _ _ t dj O eq_refl) as (dj' & E & Hat & Efn).
  unfold dir_find. erewrite bind_ret by exact E. rewrite <- Efn.
  apply (dir_find_loop_spec turns s (dev s) (fs s) t dj' dir 0 W); try done; try congruence; rewrite ?turns_spec; lia.
Qed.


(** Directories of two disks with the same contents. *)
Lemma entries_same (d d' : D) t : same d d' -> entries d' t = entries d t.
Proof. intros S. unfold entries, entries_from. apply list_fmap_ext. intros i x _. by apply entry_same. Qed.

Lemma chain_same (d d' : D) f c k : same d d' -> chain d' f c k = chain d f c k.
Proof. intros S. induction k as [|k IH]; [done|]. cbn [chain]. by rewrite IH, (fat_entry_same _ _ _ _ S). Qed.

Lemma dir_ok_same (d d' : D) f c m : same d d' -> dir_ok d f c m -> dir_ok d' f c m.
Proof.
  intros S [H1 H2 H3 H4]. split; [by eapply vol_ok_same|done|intros k; rewrite (chain_same _ _ _ _ _ S); auto|].
  by rewrite (chain_same _ _ _ _ _ S).
Qed.

Lemma root_ok_same (d d' : D) f : same d d' -> root_ok d f -> root_ok d' f.
Proof. intros S [H1 H2 H3 H4 H5]. split; try done. intros i Hi. apply S. auto. Qed.

Lemma dir_table_entries (d d' : D) f c m : same d d' -> entries d' (dir_table d' f c m) = entries d (dir_table d f c m).
Proof.
  intros S. rewrite (entries_same _ _ _ S). unfold entries, entries_from. apply list_fmap_ext. intros i x _.
  unfold entry_at. cbn [dsec dir_table]. by rewrite (chain_same _ _ _ _ _ S).
Qed.

Lemma opens_same (d d' : D) f c t :
  same d d' -> opens d f c t -> exists t', opens d' f c t' /\ entries d' t' = entries d t.
Proof.
  intros S [R|m Ht R|c' m Hc R].
  - exists (root_table f). split; [apply op_root; by eapply root_ok_same|by apply entries_same].
  - exists (dir_table d' f (dirbase f) m). split; [apply op_root32; [done|by eapply dir_ok_same]|by apply dir_table_entries].
  - exists (dir_table d' f c' m). split; [apply op_dir; [done|by eapply dir_ok_same]|by apply dir_table_entries].
Qed.

End Dir.

(** ** 8.3 names *)

(** A character of a name segment. *)
Definition good (c : Z) : Prop := 32 < c < 256 /\ c <> 46 /\ c <> 47.
Definition pad (n : nat) (l : list Z) : list Z := l ++ replicate (n - length l) 32.
Definition dotted (b x : list Z) : list Z := b ++ (match x with [] => [] | _ => 46 :: x end).

Lemma length_pad n l : (length l <= n)%nat -> length (pad n l) = n.
Proof. intros Hl. unfold pad. rewrite length_app, length_replicate. lia. Qed.

Lemma byte_drop p si c q : drop si p = c :: q -> byte p si = c /\ drop (S si) p = q.
Proof.
  intros Hd. unfold byte. assert (E : p !! si = Some c).
  { rewrite <- (Nat.add_0_r si), <- lookup_drop, Hd. done. }
  rewrite E. split; [done|]. apply (drop_S p c si) in E. congruence.
Qed.

Lemma mem_set_full l v n : (n <= length l)%nat -> mem_set l v n = replicate n (u8 v) ++ drop n l.
Proof.
  revert l. induction n as [|n IH]; intros [|c l] Hl; cbn [mem_set replicate app drop]; try done; [simpl in Hl; lia|].
  rewrite IH by (simpl in Hl; lia). done.
Qed.

(** The loop of [create_name] copies the characters of a segment that fit. *)
Lemma create_name_copy b : forall fuel p si i ni sfn q,
  Forall good b -> drop si p = b ++ q -> (i + length b <= ni)%nat -> (ni <= length sfn)%nat ->
  create_name_loop pffconf (length b + fuel) p si i ni sfn =
  create_name_loop pffconf fuel p (si + length b) (i + length b) ni (take i sfn ++ b ++ drop (i + length b) sfn).
Proof.
  induction b as [|c b IH]; intros fuel p si i ni sfn q Hg Hd Hi Hni.
  - cbn [length app Nat.add]. rewrite !Nat.add_0_r. by rewrite take_drop.
  - assert (Hc := Forall_inv Hg). apply Forall_inv_tail in Hg. destruct Hc as (Hc1 & Hc2 & Hc3).
    destruct (byte_drop p si c (b ++ q) Hd) as [Eb Ed]. cbn [length Nat.add create_name_loop] in *.
    rewrite Eb. destruct (Z.leb_spec c 32); [lia|]. destruct (Z.eqb_spec c 47); [done|]. cbn [orb].
    destruct (Z.eqb_spec c 46); [done|]. cbn [orb]. destruct (Nat.leb_spec ni i); [lia|].
    cbn [pffconf EXCVT IsDBCS1 PF_USE_LCC andb]. rewrite (IH _ _ _ _ _ _ q); [|done|done|lia|by rewrite length_insert].
    f_equal; [lia|lia|]. rewrite insert_take_drop by lia. rewrite take_app_ge by (rewrite length_take; lia).
    rewrite length_take, Nat.min_l by lia. replace (S i - i)%nat with 1%nat by lia. cbn [take].
    rewrite <- app_assoc. f_equal. cbn [app]. f_equal. rewrite take_0. cbn [app]. f_equal.
    rewrite drop_app_ge by (rewrite length_take; lia). rewrite length_take, Nat.min_l by lia.
    replace (S i + length b - i)%nat with (S (length b)) by lia. cbn [drop]. rewrite drop_drop. f_equal. lia.
Qed.

Lemma insert_last (l : list Z) t v n : length l = n -> <[n := v]> (l ++ [t]) = l ++ [v].
Proof. intros <-. rewrite insert_app_r_alt by done. by rewrite Nat.sub_diag. Qed.

Lemma drop_spaces n k t : (k <= n)%nat -> drop k (replicate n 32 ++ [t]) = replicate (n - k) 32 ++ [t].
Proof. intros Hk. rewrite drop_app_le by (rewrite length_replicate; lia). by rewrite drop_replicate. Qed.

Lemma pad_nil n k b : (length b <= n)%nat -> b ++ replicate (n + k - length b) 32 = pad n b ++ replicate k 32.
Proof. intros Hl. unfold pad. rewrite <- app_assoc, <- replicate_add. do 2 f_equal. lia. Qed.

(** [create_name] on a well-formed segment: the padded name, the flag of the
    last segment, and the rest of the path. *)
Lemma create_name_spec b x (dj : DIR) term rest :
  Forall good b -> Forall good x -> (1 <= length b <= 8)%nat -> (length x <= 3)%nat ->
  (term <= 32 \/ term = 47) -> length (fn dj) = 12%nat ->
  create_name pffconf dj (dotted b x ++ term :: rest) =
    Some (set_fn (pad 8 b ++ pad 3 x ++ [if term <=? 32 then 1 else 0]) dj, rest).
Proof.
  intros Hb Hx Lb Lx Ht Hfn. unfold create_name. rewrite mem_set_full by lia. change (u8 32) with 32.
  set (path := dotted b x ++ term :: rest).
  assert (Hstop : forall fuel si i ni sfn, drop si path = term :: rest ->
            create_name_loop pffconf (S fuel) path si i ni sfn = Some (S si, term, sfn) /\ drop (S si) path = rest).
  { intros fuel si i ni sfn Hd. destruct (byte_drop _ _ _ _ Hd) as [E Ed]. split; [|done].
    cbn [create_name_loop]. rewrite E. destruct (Z.leb_spec term 32); [done|].
    destruct (Z.eqb_spec term 47); [done|lia]. }
  assert (Etl : exists t, drop 11 (fn dj) = [t]).
  { destruct (drop 11 (fn dj)) as [|t [|u l]] eqn:E; [| |].
    - assert (length (drop 11 (fn dj)) = 1%nat) by (rewrite length_drop; lia). rewrite E in *. done.
    - by exists t.
    - assert (length (drop 11 (fn dj)) = 1%nat) by (rewrite length_drop; lia). rewrite E in *. done. }
  destruct Etl as (t & Et). rewrite Et.
  destruct x as [|x0 x].
  - assert (Ed0 : drop 0 path = b ++ (term :: rest)) by (unfold path, dotted; by rewrite app_nil_r).
    replace 16%nat with (length b + S (15 - length b))%nat by lia.
    rewrite (create_name_copy b _ path 0 0 8 _ (term :: rest) Hb Ed0) by (rewrite ?length_app, ?length_replicate; simpl; lia).
    assert (Ed1 : drop (0 + length b) path = term :: rest).
    { rewrite <- drop_drop, Ed0. apply drop_app_length. }
    destruct (Hstop (15 - length b)%nat (0 + length b)%nat (0 + length b)%nat 8%nat
      (take 0 (replicate 11 32 ++ [t]) ++ b ++ drop (0 + length b) (replicate 11 32 ++ [t])) Ed1) as [-> ->].
    do 2 f_equal. f_equal. rewrite take_0, drop_spaces by lia. cbn [app Nat.add].
    rewrite (app_assoc b), insert_last by (rewrite length_app, length_replicate; lia).
    change 11%nat with (8 + 3)%nat. rewrite pad_nil by lia. by rewrite <- app_assoc.
  - assert (Ed0 : drop 0 path = b ++ 46 :: (x0 :: x) ++ (term :: rest)) by (unfold path, dotted; by rewrite <- app_assoc).
    replace 16%nat with (length b + S (length (x0 :: x) + S (13 - length b - length x)))%nat by (simpl in *; lia).
    rewrite (create_name_copy b _ path 0 0 8 _ _ Hb Ed0) by (rewrite ?length_app, ?length_replicate; simpl; lia).
    assert (Ed1 : drop (0 + length b) path = 46 :: (x0 :: x) ++ (term :: rest)).
    { rewrite <- drop_drop, Ed0. apply drop_app_length. }
    destruct (byte_drop _ _ _ _ Ed1) as [E46 Ed2]. cbn [Nat.add] in Ed2, E46. cbn [create_name_loop Nat.add]. rewrite E46. cbn [Z.leb Z.eqb Z.compare Pos.compare Pos.compare_cont orb andb Pos.eqb Nat.eqb negb].
    rewrite take_0, drop_spaces by lia. cbn [app].
    rewrite (create_name_copy (x0 :: x) _ path (S (length b)) 8 11 _ _ Hx Ed2)
      by (rewrite ?length_app, ?length_replicate; simpl in *; lia).
    assert (Ed3 : drop (S (length b) + length (x0 :: x)) path = term :: rest).
    { rewrite <- drop_drop, Ed2. apply drop_app_length. }
    match goal with |- context [create_name_loop _ _ _ ?si ?i ?ni ?sfn] =>
      destruct (Hstop (13 - length b - length x)%nat si i ni sfn Ed3) as [-> ->] end.
    do 2 f_equal. f_equal.
    assert (E8 : b ++ replicate (11 - length b) 32 ++ [t] = pad 8 b ++ replicate 3 32 ++ [t]).
    { change 11%nat with (8 + 3)%nat. rewrite (app_assoc b), pad_nil by lia. by rewrite <- app_assoc. }
    rewrite E8. rewrite take_app_length' by (symmetry; apply length_pad; lia).
    rewrite drop_app_ge by (rewrite length_pad by lia; simpl in *; lia). rewrite length_pad by lia.
    replace (8 + length (x0 :: x) - 8)%nat with (length (x0 :: x)) by lia. rewrite drop_spaces by done.
    rewrite (app_assoc (x0 :: x)), (app_assoc (pad 8 b)), insert_last.
    + by rewrite <- app_assoc.
    + rewrite !length_app, length_pad, length_replicate by lia. simpl in *. lia.
Qed.


(** [get_fileinfo] undoes the padding. *)
Lemma copy_body_pad b n : Forall (fun c => good c /\ c <> 5) b -> copy_body (b ++ replicate n 32) = b.
Proof.
  induction b as [|c b IH]; intros Hb; [by destruct n|]. assert (Hc := Forall_inv Hb). apply Forall_inv_tail in Hb.
  destruct Hc as [(H1 & H2 & H3) H5]. cbn [app copy_body]. destruct (Z.eqb_spec c 32); [lia|].
  destruct (Z.eqb_spec c 5); [done|]. by rewrite IH.
Qed.

Lemma copy_ext_pad b n : Forall good b -> copy_ext (b ++ replicate n 32) = b.
Proof.
  induction b as [|c b IH]; intros Hb; [by destruct n|]. assert (Hc := Forall_inv Hb). apply Forall_inv_tail in Hb.
  destruct Hc as (H1 & H2 & H3). cbn [app copy_ext]. destruct (Z.eqb_spec c 32); [lia|]. by rewrite IH.
Qed.

Lemma good_not_5 b : Forall good b -> Forall (fun c => good c /\ c <> 5) b.
Proof. apply Forall_impl. intros c Hc. split; [done|]. destruct Hc. lia. Qed.

Lemma get_fileinfo_name b x dj dir fno :
  Forall good b -> Forall good x -> (1 <= length b <= 8)%nat -> (length x <= 3)%nat ->
  take 11 dir = pad 8 b ++ pad 3 x -> sect dj <> 0 -> length (fi_fname fno) = 13%nat ->
  take (length (dotted b x) + 1) (fi_fname (get_fileinfo dj dir fno)) = dotted b x ++ [0].
Proof.
  intros Hb Hx Lb Lx Hd Hs Hf. unfold get_fileinfo. destruct (Z.eqb_spec (sect dj) 0); [done|]. cbn [negb fi_fname].
  assert (E8 : take 8 dir = pad 8 b).
  { replace (take 8 dir) with (take 8 (take 11 dir)) by (by rewrite take_take). rewrite Hd.
    apply take_app_length'. symmetry. apply length_pad. lia. }
  assert (E3 : take 3 (drop 8 dir) = pad 3 x).
  { rewrite take_drop_commute. change (8 + 3)%nat with 11%nat. rewrite Hd. apply drop_app_length'.
    symmetry. apply length_pad. lia. }
  assert (Eb : byte dir 8 = byte (pad 3 x) 0).
  { rewrite <- E3. unfold byte. rewrite lookup_take_lt by lia. by rewrite lookup_drop. }
  rewrite E8, E3, Eb. unfold pad at 1. rewrite copy_body_pad by (by apply good_not_5).
  assert (En : b ++ (if negb (byte (pad 3 x) 0 =? 32) then 46 :: copy_ext (pad 3 x) else []) = dotted b x).
  { unfold dotted. f_equal. destruct x as [|c x]; [done|]. unfold pad at 1. cbn [app]. change (byte (c :: _) 0) with c.
    assert (Hc := Forall_inv Hx). destruct Hc. destruct (Z.eqb_spec c 32); [lia|]. cbn [negb]. unfold pad.
    by rewrite copy_ext_pad. }
  rewrite En. unfold blit. rewrite take_0. cbn [app]. rewrite take_app_le.
  - rewrite take_ge; [done|]. rewrite length_app. simpl. lia.
  - rewrite length_app. simpl. lia.
Qed.

(** ** The demo volume's root directory *)

Definition demo_dj (name : list Z) : DIR := mkDIR 0 name 0 0 0.
Definition a_txt : list Z := [65; 32; 32; 32; 32; 32; 32; 32; 84; 88; 84].

Lemma demo_root : root_ok demo (demo_fs 0 0 0).
Proof.
  split; [discriminate|change (0 <= 16 < 2 ^ 16); lia|change (2 <= 7); lia|change (0 < 2 /\ 2 + 4096 < 2 ^ 32); lia|].
  intros i Hi. change (0 <= i < 16) in Hi. change (0 <= 2 + i / 16 < 8). zdm.
Qed.

(** ** Properties *)

(** C16: [dir_find] on a directory whose table is readable (the fixed root of
    FAT12 and FAT16, or a cluster chain that ends properly) always returns:
    it finds the first entry whose eleven name bytes are those sought and
    that is no volume label, provided no end mark stands before it, leaves
    the directory object at it and the entry in the buffer, and answers
    "no file" otherwise. *)
Theorem dir_find_first {D : Type} `{Disk D} (s : pff D) t dj dir :
  opens (dev s) (fs s) (sclust dj) t -> length dir = 32%nat -> length (fn dj) = 12%nat -> byte_list (fn dj) ->
  exists res dj' dir' d', dir_find dj dir s = Ret (res, dj', dir') (set_dev d' s) /\
    same (dev s) d' /\ fn dj' = fn dj /\
    match find_entry (fn dj) (entries (dev s) t) 0 with
    | Some (j, e) => res = FR_OK /\ at_pos t dj' j /\ dir' = e
    | None => res = FR_NO_FILE
    end.
Proof. apply dir_find_spec. Qed.

Lemma dir_find_first_witness :
  exists res dj' dir' d', dir_find (demo_dj (a_txt ++ [1])) (replicate 32 0) (demo_state (demo_fs 0 0 0)) =
      Ret (res, dj', dir') (set_dev d' (demo_state (demo_fs 0 0 0))) /\ res = FR_OK /\ index dj' = 0.
Proof.
  destruct (dir_find_first (demo_state (demo_fs 0 0 0)) (root_table (demo_fs 0 0 0)) (demo_dj (a_txt ++ [1])) (replicate 32 0))
    as (res & dj' & dir' & d' & E & _ & _ & Hm).
  - apply op_root. apply demo_root.
  - reflexivity.
  - reflexivity.
  - unfold byte_list. cbn. repeat constructor; lia.
  - exists res, dj', dir', d'. split; [exact E|].
    assert (Hf : exists e, find_entry (a_txt ++ [1]) (entries demo (root_table (demo_fs 0 0 0))) 0 = Some (0, e)).
    { eexists. vm_compute. reflexivity. }
    destruct Hf as (e & Hf). change (fn (demo_dj (a_txt ++ [1]))) with (a_txt ++ [1]) in Hm.
    change (dev (demo_state (demo_fs 0 0 0))) with demo in Hm. rewrite Hf in Hm.
    destruct Hm as (-> & Hat & _). split; [reflexivity|]. exact (proj1 Hat).
Defined.

(** C17: The text [get_fileinfo] gives for a well-formed directory entry
    reads back: [create_name] turns it into the eleven name bytes of the
    entry, marked as the last segment, and consumes the whole path. *)
Theorem name_roundtrip b x dj dir fno dj' :
  Forall good b -> Forall good x -> (1 <= length b <= 8)%nat -> (length x <= 3)%nat ->
  take 11 dir = pad 8 b ++ pad 3 x -> sect dj <> 0 -> length (fi_fname fno) = 13%nat -> length (fn dj') = 12%nat ->
  let n := (length (dotted b x) + 1)%nat in
  take n (fi_fname (get_fileinfo dj dir fno)) = dotted b x ++ [0] /\
  create_name pffconf dj' (take n (fi_fname (get_fileinfo dj dir fno))) = Some (set_fn (take 11 dir ++ [1]) dj', []).
Proof.
  intros Hb Hx Lb Lx Hd Hs Hf Hfn n. assert (E := get_fileinfo_name b x dj dir fno Hb Hx Lb Lx Hd Hs Hf).
  fold n in E. split; [exact E|]. rewrite E, Hd.
  rewrite (create_name_spec b x dj' 0 []) by (done || lia || (left; lia)). by rewrite <- app_assoc.
Qed.

Lemma name_roundtrip_witness :
  exists fno, take 6 (fi_fname fno) = [65; 46; 84; 88; 84; 0] /\
    create_name pffconf (demo_dj (replicate 12 0)) (take 6 (fi_fname fno)) =
      Some (set_fn (a_txt ++ [1]) (demo_dj (replicate 12 0)), []).
Proof.
  exists (get_fileinfo (mkDIR 0 [] 0 0 2) (a_txt ++ replicate 21 0) (mkFILINFO 0 0 0 0 (replicate 13 0))).
  refine (name_roundtrip [65] [84; 88; 84] (mkDIR 0 [] 0 0 2) (a_txt ++ replicate 21 0)
    (mkFILINFO 0 0 0 0 (replicate 13 0)) (demo_dj (replicate 12 0)) _ _ _ _ _ _ _ _).
  - repeat constructor; lia.
  - repeat constructor; lia.
  - cbn. lia.
  - cbn. lia.
  - reflexivity.
  - discriminate.
  - reflexivity.
  - reflexivity.
Defined.


End PffDir.
