(* ===== verification/PffMount.v ===== *)
(** FAT volumes, part four: mounting a volume and opening a file
    (kernel/Fat/pff.c: check_fs, pf_mount, follow_path, pf_open,
    pf_opendir). *)

From stdpp Require Import base tactics list gmap numbers option.
From Stdlib Require Import ZArith Lia.
From S2P Require Import Prelude Pff PffSpec PffFile PffDir.

#[local] Open Scope Z_scope.

Module PffMount.
Import Prelude Pff PffSpec PffFile PffDir.
#[local] Open Scope lofi_scope.

Section Mount.
Context {D : Type} `{Disk D}.

(** ** Boot sectors *)

Definition w16 (d : D) (s o : Z) : Z := img d s o + 256 * img d s (o + 1).
Definition w32 (d : D) (s o : Z) : Z :=
  img d s o + 256 * img d s (o + 1) + 65536 * img d s (o + 2) + 16777216 * img d s (o + 3).

(** 0: the boot record of a FAT volume; 1: another boot record; 2: none. *)
Definition boot_kind (d : D) (s : Z) : Z :=
  if negb (w16 d s 510 =? 0xAA55) then 2
  else if w16 d s 54 =? 0x4146 then 0
  else if w16 d s 82 =? 0x4146 then 0 else 1.

(** Where the volume starts: at sector 0, or at the first partition. *)
Definition volume_start (d : D) : option Z :=
  if boot_kind d 0 =? 0 then Some 0
  else if (boot_kind d 0 =? 1) && negb (img d 0 450 =? 0) && (boot_kind d (w32 d 0 454) =? 0)
  then Some (w32 d 0 454) else None.

(** The layout of the volume whose BIOS parameter block is at [b], in the
    32-bit arithmetic of the code. *)
Definition b_fatsz (d : D) (b : Z) : Z :=
  u32 ((if w16 d b 22 =? 0 then w32 d b 36 else w16 d b 22) * img d b 16).
Definition b_fatbase (d : D) (b : Z) : Z := u32 (b + w16 d b 14).
Definition b_total (d : D) (b : Z) : Z := if w16 d b 19 =? 0 then w32 d b 32 else w16 d b 19.
Definition b_clusters (d : D) (b : Z) : Z :=
  u32 (u32 (b_total d b - w16 d b 14 - b_fatsz d b - w16 d b 17 / 16) / img d b 13 + 2).
Definition b_type (d : D) (b : Z) : Z :=
  let m := b_clusters d b in
  if m <? 0xFF7 then FS_FAT12 else if m <? 0xFF8 then 0 else if m <? 0xFFF7 then FS_FAT16 else FS_FAT32.
Definition b_database (d : D) (b : Z) : Z := u32 (b_fatbase d b + b_fatsz d b + w16 d b 17 / 16).

(** The object after mounting; what the file fields held stays. *)
Definition mounted (d : D) (b : Z) (f : FATFS) : FATFS :=
  mkFATFS (b_type d b) 0 (img d b 13) (w16 d b 17) (b_clusters d b) (b_fatbase d b)
    (if b_type d b =? FS_FAT32 then w32 d b 44 else u32 (b_fatbase d b + b_fatsz d b))
    (b_database d b) (fptr f) (fsize f) (org_clust f) (curr_clust f) (dsect f).

(** *** Loads from a buffer that holds part of a sector *)

Lemma byte_drop_slice (d : D) s o n k i :
  (k + i < n)%nat -> byte (drop k (slice d s o n)) i = img d s (o + Z.of_nat k + Z.of_nat i).
Proof.
  intros Hk. unfold byte. rewrite lookup_drop. fold (byte (slice d s o n) (k + i)).
  rewrite byte_slice by done. f_equal. lia.
Qed.

Lemma ld_word_slice (d : D) s o n k :
  (k + 1 < n)%nat -> ld_word (drop k (slice d s o n)) = w16 d s (o + Z.of_nat k).
Proof.
  intros Hk. rewrite ld_word_spec by (rewrite byte_drop_slice by lia; apply img_byte).
  rewrite !byte_drop_slice by lia. unfold w16. rewrite Z.add_0_r. done.
Qed.

Lemma ld_dword_slice (d : D) s o n k :
  (k + 3 < n)%nat -> ld_dword (drop k (slice d s o n)) = w32 d s (o + Z.of_nat k).
Proof.
  intros Hk. rewrite ld_dword_spec by (rewrite byte_drop_slice by lia; apply img_byte).
  rewrite !byte_drop_slice by lia. unfold w32. rewrite Z.add_0_r. done.
Qed.

Lemma ld_word_blit (d : D) s o n buf : (2 <= n)%nat -> ld_word (blit 0 (slice d s o n) buf) = w16 d s o.
Proof.
  intros Hn. assert (E : forall i, (i < n)%nat -> byte (blit 0 (slice d s o n) buf) i = img d s (o + Z.of_nat i)).
  { intros i Hi. unfold byte, blit. rewrite take_0. cbn [app]. rewrite lookup_app_l by (by rewrite length_slice).
    fold (byte (slice d s o n) i). by apply byte_slice. }
  rewrite ld_word_spec by (rewrite E by lia; apply img_byte). rewrite !E by lia. unfold w16. by rewrite Z.add_0_r.
Qed.

Lemma length_blit_slice (d : D) s o n buf : (n <= length buf)%nat -> length (blit 0 (slice d s o n) buf) = length buf.
Proof. intros Hn. apply length_blit0. by rewrite length_slice. Qed.

Lemma check_fs_spec (s : pff D) buf sct :
  ready (dev s) sct -> length buf = 36%nat ->
  exists buf' d', check_fs buf sct s = Ret (boot_kind (dev s) sct, buf') (set_dev d' s) /\
    same (dev s) d' /\ length buf' = 36%nat.
Proof.
  intros Hr Hl. unfold check_fs, boot_kind.
  destruct (readp_spec s sct 510 2) as (d1 & E1 & S1); [done|lia..|].
  erewrite bind_ret by exact E1. change (Z.to_nat 2) with 2%nat. cbv beta iota zeta.
  rewrite ld_word_blit by lia. destruct (Z.eqb_spec (w16 (dev s) sct 510) 0xAA55) as [|_]; cbn [negb].
  2: { eexists _, d1. split; [reflexivity|]. split; [done|]. by rewrite length_blit_slice by lia. }
  destruct (readp_spec (set_dev d1 s) sct 54 2) as (d2 & E2 & S2); [by apply S1|lia..|].
  erewrite bind_ret by exact E2. change (Z.to_nat 2) with 2%nat. cbv beta iota zeta.
  assert (W : forall d' o, same (dev s) d' -> w16 d' sct o = w16 (dev s) sct o) by (intros d' o [E _]; unfold w16; by rewrite E).
  cbn [dev set_dev]. rewrite ld_word_blit, (W d1 _ S1) by lia. rewrite bool_decide_eq_true_2 by done. cbn [andb].
  assert (S12 : same (dev s) d2) by (by transitivity d1).
  destruct (Z.eqb_spec (w16 (dev s) sct 54) 0x4146).
  { eexists _, d2. split; [reflexivity|]. split; [done|]. rewrite !length_blit_slice; rewrite ?length_blit_slice; lia. }
  destruct (readp_spec (set_dev d2 s) sct 82 2) as (d3 & E3 & S3); [by apply S12|lia..|].
  erewrite bind_ret by exact E3. change (Z.to_nat 2) with 2%nat. cbv beta iota zeta.
  cbn [dev set_dev]. rewrite ld_word_blit, (W d2 _ S12) by lia. rewrite bool_decide_eq_true_2 by done. cbn [andb].
  assert (S13 : same (dev s) d3) by (by transitivity d2).
  destruct (Z.eqb_spec (w16 (dev s) sct 82) 0x4146);
    (eexists _, d3; split; [reflexivity|]; split; [done|]; rewrite !length_blit_slice; rewrite ?length_blit_slice; rewrite ?length_blit_slice; lia).
Qed.


(** *** The fields of the file system object *)

Definition upd_obj (p : Z) (g : FATFS -> FATFS) (s : pff D) : pff D :=
  mkPff (FatFs s) (<[p := g (obj p s)]> (objs s)) (dev s).

Lemma put_obj_upd p g (s : pff D) : put_obj p g s = Ret tt (upd_obj p g s).
Proof. done. Qed.
Lemma obj_upd p g (s : pff D) : obj p (upd_obj p g s) = g (obj p s).
Proof. unfold obj, upd_obj. cbn [objs]. by rewrite lookup_insert_eq. Qed.

Lemma w16_range (d : D) s o : 0 <= w16 d s o < 2 ^ 16.
Proof. unfold w16. assert (H1 := img_byte d s o). assert (H2 := img_byte d s (o + 1)). lia. Qed.

Lemma mount_bpb_spec p b (s : pff D) d0 :
  p <> 0 -> same d0 (dev s) ->
  let r := mount_bpb p b (slice d0 b 13 36) s in
  if img d0 b 13 =? 0 then exists s', r = Done s'
  else exists s', r = Ret (if b_type d0 b =? 0 then FR_NO_FILESYSTEM else FR_OK) s' /\ dev s' = dev s /\
      FatFs s' = (if b_type d0 b =? 0 then FatFs s else p) /\
      (b_type d0 b <> 0 -> fs s' = mounted d0 b (obj p s)).
Proof.
  intros Hp Hs r. assert (Er : mount_bpb p b (slice d0 b 13 36) s = r) by done. clearbody r. revert Er.
  unfold mount_bpb.
  assert (E0 : byte (slice d0 b 13 36) (13 - 13) = img d0 b 13) by (rewrite byte_slice by lia; done).
  assert (E3 : byte (slice d0 b 13 36) (16 - 13) = img d0 b 16) by (rewrite byte_slice by lia; done).
  rewrite !ld_word_slice, !ld_dword_slice, E0, E3 by lia.
  change (13 + Z.of_nat (22 - 13)) with 22. change (13 + Z.of_nat (36 - 13)) with 36.
  change (13 + Z.of_nat (14 - 13)) with 14. change (13 + Z.of_nat (17 - 13)) with 17.
  change (13 + Z.of_nat (19 - 13)) with 19. change (13 + Z.of_nat (32 - 13)) with 32.
  change (13 + Z.of_nat (44 - 13)) with 44.
  fold (b_fatsz d0 b). fold (b_fatbase d0 b). fold (b_total d0 b). cbv zeta.
  erewrite bind_ret by apply put_obj_upd. erewrite bind_ret by apply put_obj_upd. erewrite bind_ret by apply put_obj_upd.
  set (s1 := upd_obj p (set_n_rootdir (w16 d0 b 17)) (upd_obj p (set_csize (img d0 b 13)) (upd_obj p (set_fatbase (b_fatbase d0 b)) s))).
  unfold gets. unfold bind at 1.
  assert (O1 : obj p s1 = set_n_rootdir (w16 d0 b 17) (set_csize (img d0 b 13) (set_fatbase (b_fatbase d0 b) (obj p s))))
    by (unfold s1; by rewrite !obj_upd).
  rewrite O1. cbn [csize n_rootdir fatbase set_n_rootdir set_csize set_fatbase].
  destruct (Z.eqb_spec (img d0 b 13) 0) as [Ez|Hne]; [intros <-; by eexists|].
  fold (b_clusters d0 b).
  erewrite bind_ret by apply put_obj_upd.
  assert (Hty : (if 0xFFF7 <=? b_clusters d0 b then FS_FAT32
        else if (0xFF8 <=? b_clusters d0 b) && (b_clusters d0 b <? 0xFFF7) then FS_FAT16
        else if b_clusters d0 b <? 0xFF7 then FS_FAT12 else 0) = b_type d0 b).
  { unfold b_type. destruct (Z.leb_spec 0xFFF7 (b_clusters d0 b)), (Z.leb_spec 0xFF8 (b_clusters d0 b)),
      (Z.ltb_spec (b_clusters d0 b) 0xFFF7), (Z.ltb_spec (b_clusters d0 b) 0xFF7), (Z.ltb_spec (b_clusters d0 b) 0xFF8);
      cbn [andb]; lia || reflexivity. }
  rewrite Hty. destruct (Z.eqb_spec (b_type d0 b) 0) as [Ez|Nz].
  { intros <-. eexists. split; [reflexivity|]. done. }
  do 4 erewrite bind_ret by apply put_obj_upd.
  set (s2 := upd_obj p (set_flag 0) _).
  intros <-. exists (set_FatFs p s2). split; [reflexivity|]. split; [done|]. split; [done|]. intros _.
  unfold fs. change (obj (FatFs (set_FatFs p s2)) (set_FatFs p s2)) with (obj p s2). unfold s2. rewrite !obj_upd, O1. done.
Qed.

Lemma pf_mount_spec p (s : pff D) :
  p <> 0 -> Z.land (disk_initialize (dev s)).1 STA_NOINIT = 0 ->
  ready (dev s) 0 ->
  (boot_kind (dev s) 0 = 1 -> img (dev s) 0 450 <> 0 -> ready (dev s) (w32 (dev s) 0 454)) ->
  let r := pf_mount p s in
  match volume_start (dev s) with
  | None => exists s', r = Ret FR_NO_FILESYSTEM s' /\ FatFs s' = 0 /\ same (dev s) (dev s')
  | Some b =>
    if img (dev s) b 13 =? 0 then exists s', r = Done s'
    else exists s', r = Ret (if b_type (dev s) b =? 0 then FR_NO_FILESYSTEM else FR_OK) s' /\
        same (dev s) (dev s') /\ FatFs s' = (if b_type (dev s) b =? 0 then 0 else p) /\
        (b_type (dev s) b <> 0 -> fs s' = mounted (dev s) b (obj p s))
  end.
Proof.
  intros Hp Hini H0 H1 r. assert (Er : pf_mount p s = r) by done. clearbody r. revert Er.
  set (d0 := dev s) in *. unfold pf_mount. unfold bind at 1. unfold modify at 1.
  unfold bind at 1. change (dev (set_FatFs 0 s)) with d0.
  assert (Hi := init_img d0). assert (Hr := init_ready d0). destruct (disk_initialize d0) as [st d1]. cbn [fst snd] in *.
  assert (S1 : same d0 d1) by done. rewrite Hini. cbn [Z.eqb negb].
  set (s1 := set_dev d1 (set_FatFs 0 s)).
  assert (K : forall d' x, same d0 d' -> boot_kind d' x = boot_kind d0 x).
  { intros d' x [E _]. unfold boot_kind, w16. by rewrite E. }
  destruct (check_fs_spec s1 (replicate 36 0) 0) as (buf & d2 & E2 & S2 & L2); [by apply S1|done|].
  change (dev s1) with d1 in E2, S2. rewrite (K _ _ S1) in E2. erewrite bind_ret by exact E2. cbv beta iota.
  assert (S12 : same d0 d2) by (by transitivity d1).
  (* the answer of the search *)
  set (search := (if boot_kind d0 0 =? 1 then _ else _)).
  assert (Hsearch : exists buf' d3, same d0 d3 /\ length buf' = 36%nat /\
    search (set_dev d2 s1) = Ret (match volume_start d0 with Some b => (0, b, buf') | None =>
       (if boot_kind d0 0 =? 1 then if img d0 0 450 =? 0 then 1 else boot_kind d0 (w32 d0 0 454) else boot_kind d0 0,
        if boot_kind d0 0 =? 1 then if img d0 0 450 =? 0 then 0 else w32 d0 0 454 else 0, buf') end) (set_dev d3 s1)).
  { unfold search, volume_start. destruct (Z.eqb_spec (boot_kind d0 0) 1) as [E1|N1].
    - rewrite E1. cbn [Z.eqb Pos.eqb andb].
      destruct (readp_spec (set_dev d2 s1) 0 446 16) as (d3 & E3 & S3); [by apply S12|lia..|].
      erewrite bind_ret by exact E3. change (Z.to_nat 16) with 16%nat. cbv beta iota zeta. cbn [dev set_dev] in *.
      assert (S13 : same d0 d3) by (by transitivity d2).
      assert (Esl : slice d2 0 446 16 = slice d0 0 446 16) by (unfold slice; by rewrite (proj1 S12)). rewrite Esl.
      assert (Hbyte : forall i, (i < 16)%nat -> byte (blit 0 (slice d0 0 446 16) buf) i = img d0 0 (446 + Z.of_nat i)).
      { intros i Hi'. unfold byte, blit. rewrite take_0. cbn [app]. rewrite lookup_app_l by (by rewrite length_slice).
        fold (byte (slice d0 0 446 16) i). by apply byte_slice. }
      assert (Hlen := length_blit_slice d0 0 446 16 buf ltac:(lia)). rewrite L2 in Hlen.
      rewrite (Hbyte 4%nat) by lia. change (446 + Z.of_nat 4) with 450.
      destruct (Z.eqb_spec (img d0 0 450) 0) as [Ez|Nz]; cbn [negb andb].
      + exists (blit 0 (slice d0 0 446 16) buf), d3. done.
      + assert (Edw : ld_dword (drop 8 (blit 0 (slice d0 0 446 16) buf)) = w32 d0 0 454).
        { assert (Hb8 : forall i, (i < 4)%nat -> byte (drop 8 (blit 0 (slice d0 0 446 16) buf)) i = img d0 0 (454 + Z.of_nat i)).
          { intros i Hi'. unfold byte. rewrite lookup_drop. fold (byte (blit 0 (slice d0 0 446 16) buf) (8 + i)).
            rewrite Hbyte by lia. f_equal. lia. }
          rewrite ld_dword_spec by (rewrite Hb8 by lia; apply img_byte). rewrite !Hb8 by lia. done. }
        rewrite Edw. destruct (check_fs_spec (set_dev d3 (set_dev d2 s1)) (blit 0 (slice d0 0 446 16) buf) (w32 d0 0 454))
          as (buf' & d4 & E4 & S4 & L4); [by apply S13, H1|done|].
        cbn [dev set_dev] in E4, S4. rewrite (K _ _ S13) in E4. erewrite bind_ret by exact E4. cbv beta iota.
        exists buf', d4. split; [by transitivity d3|]. split; [done|].
        destruct (Z.eqb_spec (boot_kind d0 (w32 d0 0 454)) 0) as [->|]; done.
    - exists buf, d2. split; [done|]. split; [done|]. cbn [andb].
      destruct (Z.eqb_spec (boot_kind d0 0) 0) as [->|]; done. }
  destruct Hsearch as (buf' & d3 & S3 & L3 & E3). erewrite bind_ret by exact E3. clear E3 search.
  destruct (volume_start d0) as [b|] eqn:Ev.
  - cbn [Z.eqb negb]. destruct (readp_spec (set_dev d3 s1) b 13 36) as (d4 & E4 & S4); [|lia..|].
    { apply S3. unfold volume_start in Ev. destruct (boot_kind d0 0 =? 0); [by injection Ev as <-|].
      destruct ((boot_kind d0 0 =? 1) && negb (img d0 0 450 =? 0) && (boot_kind d0 (w32 d0 0 454) =? 0)) eqn:Ec; [|done].
      injection Ev as <-. apply andb_prop in Ec as [[Ec1%Z.eqb_eq Ec2%negb_true_iff%Z.eqb_neq]%andb_prop _]. auto. }
    erewrite bind_ret by exact E4. change (Z.to_nat 36) with 36%nat. cbv beta iota. cbn [dev set_dev] in *.
    rewrite blit0_full by (by rewrite length_slice).
    assert (Esl : slice d3 b 13 36 = slice d0 b 13 36) by (unfold slice; by rewrite (proj1 S3)). rewrite Esl.
    assert (S4' : same d0 d4) by (by transitivity d3).
    assert (Hm := mount_bpb_spec p b (set_dev d4 (set_dev d3 s1)) d0 Hp S4').
    intros Er. cbv zeta in Hm. rewrite Er in Hm. destruct (img d0 b 13 =? 0); [exact Hm|].
    destruct Hm as (s' & E & Ed & Ef & Em); exists s'; split; [exact E|]; split; [by rewrite Ed|]; split; [exact Ef|exact Em].
  - unfold volume_start in Ev. cbv beta iota.
    set (k := if boot_kind d0 0 =? 1 then _ else _).
    assert (Hk : k = 1 \/ k = 2).
    { subst k. assert (Hk : forall x, boot_kind d0 x = 0 \/ boot_kind d0 x = 1 \/ boot_kind d0 x = 2).
      { intros x. unfold boot_kind. repeat destruct (_ =? _); cbn [negb]; auto. }
      destruct (Z.eqb_spec (boot_kind d0 0) 0); [done|]. destruct (Hk 0) as [|[E|E]]; [done| |].
      - rewrite E in *. cbn [Z.eqb Pos.eqb andb] in *. destruct (Z.eqb_spec (img d0 0 450) 0); [by left|]. cbn [negb andb] in Ev.
        destruct (Z.eqb_spec (boot_kind d0 (w32 d0 0 454)) 0); [done|]. destruct (Hk (w32 d0 0 454)) as [|[|]]; auto; done.
      - rewrite E. by right. }
    destruct (Z.eqb_spec k 3); [lia|]. destruct (Z.eqb_spec k 0); [lia|]. cbn [negb].
    intros <-. exists (set_dev d3 s1). done.
Qed.


(** ** Paths *)

(** A path as its components, and its text: components separated by slashes,
    a terminator at the end. *)
Definition comp_ok (c : list Z * list Z) : Prop :=
  Forall good c.1 /\ Forall good c.2 /\ (1 <= length c.1 <= 8)%nat /\ (length c.2 <= 3)%nat.
Definition name_of (c : list Z * list Z) : list Z := pad 8 c.1 ++ pad 3 c.2.
Fixpoint path_text (cs : list (list Z * list Z)) : list Z :=
  match cs with
  | [] => []
  | [c] => dotted c.1 c.2 ++ [0]
  | c :: r => dotted c.1 c.2 ++ 47 :: path_text r
  end.

(** First cluster of an entry. *)
Definition entry_clust (f : FATFS) (e : list Z) : Z :=
  Z.lor (if fs_type f =? FS_FAT32 then u32 (Z.shiftl (ld_word (drop 20 e)) 16) else 0) (ld_word (drop 26 e)).
Definition is_dir (e : list Z) : bool := negb (Z.land (byte e 11) AM_DIR =? 0).

(** The entry a path leads to from the directory at cluster [c]; [tab] gives
    the table of each directory. *)
Fixpoint resolve (d : D) (f : FATFS) (tab : Z -> table) (c : Z) (cs : list (list Z * list Z)) : option (list Z) :=
  match cs with
  | [] => None
  | x :: r =>
    match find_entry (name_of x) (entries d (tab c)) 0 with
    | None => None
    | Some (_, e) =>
      match r with
      | [] => Some e
      | _ => if is_dir e then resolve d f tab (entry_clust f e) r else None
      end
    end
  end.

(** The directories a path walks through can be read. *)
Fixpoint dirs_ok (d : D) (f : FATFS) (tab : Z -> table) (c : Z) (cs : list (list Z * list Z)) : Prop :=
  match cs with
  | [] => True
  | x :: r =>
    opens d f c (tab c) /\
    match find_entry (name_of x) (entries d (tab c)) 0 with
    | Some (_, e) => is_dir e = true -> dirs_ok d f tab (entry_clust f e) r
    | None => True
    end
  end.

Lemma find_entry_ext n1 n2 es i : take 11 n1 = take 11 n2 -> find_entry n1 es i = find_entry n2 es i.
Proof.
  intros E. revert i. induction es as [|e es IH]; intros i; [done|]. cbn [find_entry]. unfold matches. rewrite E.
  by rewrite IH.
Qed.

Lemma find_entry_In n es i j e : find_entry n es i = Some (j, e) -> e ∈ es /\ byte e 0 <> 0.
Proof.
  revert i. induction es as [|x es IH]; intros i; cbn [find_entry]; [done|].
  destruct (Z.eqb_spec (byte x 0) 0); [done|]. destruct (matches n x).
  - intros [= _ <-]. split; [left|done].
  - intros Hf. destruct (IH _ Hf). split; [by right|done].
Qed.

Lemma entries_length (d : D) t e : e ∈ entries d t -> length e = 32%nat.
Proof. unfold entries, entries_from. intros He. apply list_elem_of_fmap in He as (k & -> & _). apply length_entry. Qed.

Lemma good_byte l : Forall good l -> byte_list l.
Proof. apply Forall_impl. intros c [Hc _]. lia. Qed.

Lemma comp_name c (flag : Z) : comp_ok c -> 0 <= flag < 256 ->
  length (name_of c ++ [flag]) = 12%nat /\ byte_list (name_of c ++ [flag]) /\ take 11 (name_of c ++ [flag]) = take 11 (name_of c)
  /\ byte (name_of c ++ [flag]) 11 = flag.
Proof.
  intros (H1 & H2 & H3 & H4) Hflag.
  assert (L : length (name_of c) = 11%nat) by (unfold name_of; rewrite length_app, !length_pad by lia; done).
  assert (Hsp : forall n, byte_list (replicate n 32)) by (intros n; apply Forall_replicate; lia).
  split; [rewrite length_app, L; done|]. split.
  - apply byte_list_app. split; [|by repeat constructor; lia]. unfold name_of, pad.
    apply byte_list_app. split; (apply byte_list_app; split; [by apply good_byte|apply Hsp]).
  - split; [by rewrite take_app_le by lia|]. unfold byte. rewrite lookup_app_r by lia. by rewrite L.
Qed.

Lemma follow_loop_spec cs : forall fuel (s : pff D) f d dj dir tab,
  cs <> [] -> Forall comp_ok cs -> (length cs <= fuel)%nat -> same d (dev s) -> fs s = f ->
  dirs_ok d f tab (sclust dj) cs -> length dir = 32%nat -> length (fn dj) = 12%nat ->
  exists res dj' dir' d', follow_loop pffconf fuel dj dir (path_text cs) s = Ret (res, dj', dir') (set_dev d' s) /\
    same (dev s) d' /\
    match resolve d f tab (sclust dj) cs with
    | Some e => res = FR_OK /\ dir' = e
    | None => res = FR_NO_FILE
    end.
Proof.
  induction cs as [|c cs IH]; intros fuel s f d dj dir tab Hne Hok Hfuel S Ef Hd Ldir Lfn; [done|].
  destruct fuel as [|fuel]; [simpl in Hfuel; lia|]. cbn [follow_loop].
  assert (Hc := Forall_inv Hok). apply Forall_inv_tail in Hok. destruct Hd as [Hopen Hd].
  set (term := match cs with [] => 0 | _ => 47 end).
  set (rest := match cs with [] => [] | _ => path_text cs end).
  assert (Ep : path_text (c :: cs) = dotted c.1 c.2 ++ term :: rest) by (subst term rest; by destruct cs).
  assert (Hc' := Hc). destruct Hc' as (G1 & G2 & G3 & G4).
  rewrite Ep, (create_name_spec c.1 c.2 dj term rest G1 G2 G3 G4) by (subst term; destruct cs; lia || done).
  set (flag := if term <=? 32 then 1 else 0).
  rewrite (app_assoc (pad 8 c.1)). fold (name_of c).
  destruct (comp_name c flag Hc) as (N1 & N2 & N3 & N4); [subst flag; destruct (_ <=? _); lia|].
  set (dj1 := set_fn (name_of c ++ [flag]) dj).
  destruct (opens_same d (dev s) f (sclust dj) (tab (sclust dj)) S Hopen) as (t' & Ho' & Et').
  destruct (dir_find_spec s t' dj1 dir) as (res & dj' & dir' & d1 & E & S1 & Efn & Hm); try done.
  { by rewrite Ef. }
  erewrite bind_ret by exact E. cbn [fn dj1 set_fn] in Hm, Efn.
  rewrite (find_entry_ext _ _ _ _ N3), Et' in Hm.
  cbn [resolve]. destruct (find_entry (name_of c) (entries d (tab (sclust dj))) 0) as [[j e]|] eqn:Efind.
  2: { subst res. do 4 eexists. split; [reflexivity|]. done. }
  destruct Hm as (-> & Hat & ->). rewrite Efn, N4. cbn [sclust dj1 set_fn].
  destruct (find_entry_In _ _ _ _ _ Efind) as [Hin _]. apply entries_length in Hin.
  subst flag term rest. destruct cs as [|c2 cs].
  { cbn [Z.leb Z.compare Pos.compare Pos.compare_cont Z.eqb negb]. do 4 eexists. split; [reflexivity|]. done. }
  cbn [Z.leb Z.compare Pos.compare Pos.compare_cont Z.eqb negb]. unfold is_dir in *.
  destruct (Z.eqb_spec (Z.land (byte e 11) AM_DIR) 0) as [Ez|Nz]; cbn [negb] in *.
  { do 4 eexists. split; [reflexivity|]. done. }
  unfold get_clust, gets. unfold bind at 1 2. unfold ret at 1. rewrite fs_set_dev, Ef. fold (entry_clust f e).
  destruct (IH fuel (set_dev d1 s) f d (set_sclust (entry_clust f e) dj') e tab) as (res & dj'' & dir'' & d2 & E2 & S2 & Hr);
    try done; [simpl in *; lia|by transitivity (dev s)|by apply Hd|cbn [fn set_sclust]; by rewrite Efn|].
  exists res, dj'', dir'', d2. split; [exact E2|]. split; [by transitivity d1|exact Hr].
Qed.


(** ** Opening *)

(** What may stand before the first component. *)
Definition prefix (k : nat) (slash : bool) : list Z := replicate k 32 ++ (if slash then [47] else []).

Lemma skip_prefix k slash p :
  (32 < byte p 0) -> byte p 0 <> 47 ->
  (if byte (skip_spaces (prefix k slash ++ p)) 0 =? 47 then drop 1 (skip_spaces (prefix k slash ++ p))
   else skip_spaces (prefix k slash ++ p)) = p.
Proof.
  intros Hp Hs. unfold prefix. rewrite <- app_assoc.
  assert (E : skip_spaces (replicate k 32 ++ (if slash then [47] else []) ++ p) = (if slash then [47] else []) ++ p).
  { induction k as [|k IH]; [|exact IH]. destruct slash; [done|]. cbn [app replicate].
    destruct p as [|c p]; [done|]. cbn [skip_spaces]. change (byte (c :: p) 0) with c in *.
    destruct (Z.eqb_spec c 32); [lia|done]. }
  rewrite E. destruct slash; cbn [app]; [done|]. by destruct (Z.eqb_spec (byte p 0) 47).
Qed.

Lemma path_text_0 cs : cs <> [] -> Forall comp_ok cs -> good (byte (path_text cs) 0) /\ (length cs <= length (path_text cs))%nat.
Proof.
  intros Hne Hok. split.
  - destruct cs as [|c cs]; [done|]. destruct (Forall_inv Hok) as (G & _ & L & _).
    assert (E : exists q, path_text (c :: cs) = c.1 ++ q).
    { destruct cs; cbn [path_text]; unfold dotted; rewrite <- app_assoc; eauto. }
    destruct E as (q & ->). destruct (c.1) as [|x l]; [simpl in L; lia|]. exact (Forall_inv G).
  - clear Hne. induction cs as [|c cs IH]; [done|]. apply Forall_inv_tail in Hok. specialize (IH Hok).
    destruct cs; cbn [path_text] in *; rewrite length_app; simpl in *; lia.
Qed.

(** The object after opening the entry [e]. *)
Definition opened_at (c size : Z) (f : FATFS) : FATFS :=
  set_flag FA_OPENED (set_fptr 0 (set_fsize size (set_org_clust c f))).
Definition opened (e : list Z) (f : FATFS) : FATFS := opened_at (entry_clust f e) (ld_dword (drop 28 e)) f.

(** Opening looks only at the type of the volume. *)
Lemma entry_clust_type f f' e : fs_type f' = fs_type f -> entry_clust f' e = entry_clust f e.
Proof. intros E. unfold entry_clust. by rewrite E. Qed.
Lemma opened_at_twice c z f : opened_at c z f = opened_at c z (opened_at c z f).
Proof. done. Qed.
Lemma opened_at_kept c z f : kept (opened_at c z (set_flag 0 f)) (opened_at c z f).
Proof. done. Qed.
Lemma opened_at_flag c z f : opened_at c z (set_flag 0 f) = opened_at c z f.
Proof. done. Qed.
Lemma opened_twice e f : opened e f = opened e (opened e f).
Proof. unfold opened at 2. rewrite (entry_clust_type f) by done. apply opened_at_twice. Qed.
Lemma opened_kept e f : kept (opened e (set_flag 0 f)) (opened e f).
Proof. unfold opened. rewrite (entry_clust_type f (set_flag 0 f)) by done. apply opened_at_kept. Qed.

Lemma resolve_In d f tab c cs e : resolve d f tab c cs = Some e -> byte e 0 <> 0 /\ length e = 32%nat.
Proof.
  revert c. induction cs as [|x cs IH]; intros c; cbn [resolve]; [done|].
  destruct (find_entry _ _ _) as [[j e']|] eqn:Ef; [|done].
  destruct (find_entry_In _ _ _ _ _ Ef) as [Hin Hz]. apply entries_length in Hin.
  destruct cs; [by intros [= <-]|]. destruct (is_dir e'); [apply IH|done].
Qed.

Lemma set_flag_twice a b f : set_flag a (set_flag b f) = set_flag a f.
Proof. done. Qed.

Lemma pf_open_spec (s : pff D) tab k slash cs :
  FatFs s <> 0 -> cs <> [] -> Forall comp_ok cs ->
  let f := set_flag 0 (fs s) in
  dirs_ok (dev s) f tab 0 cs ->
  let r := resolve (dev s) f tab 0 cs in
  exists s', pf_open pffconf (prefix k slash ++ path_text cs) s =
      Ret (match r with Some e => if is_dir e then FR_NO_FILE else FR_OK | None => FR_NO_FILE end) s' /\
    same (dev s) (dev s') /\ FatFs s' = FatFs s /\
    fs s' = match r with Some e => if is_dir e then f else opened e (fs s) | None => f end.
Proof.
  intros Hp Hne Hok f Hd r. unfold pf_open, gets. unfold bind at 1. destruct (Z.eqb_spec (FatFs s) 0); [done|].
  erewrite bind_ret by apply put_fs_upd. set (s0 := upd (set_flag 0) s).
  assert (F0 : fs s0 = f) by (unfold s0; by rewrite fs_upd).
  destruct (path_text_0 cs Hne Hok) as [[Hg1 [Hg2 Hg3]] Hlen].
  assert (Ef : follow_path pffconf dj0 (replicate 32 0) (prefix k slash ++ path_text cs) =
               follow_loop pffconf (S (length (path_text cs))) (set_sclust 0 dj0) (replicate 32 0) (path_text cs)).
  { unfold follow_path. cbv zeta. rewrite !skip_prefix by lia. destruct (Z.ltb_spec (byte (path_text cs) 0) 32); [lia|done]. }
  rewrite Ef. destruct (follow_loop_spec cs (S (length (path_text cs))) s0 f (dev s) (set_sclust 0 dj0) (replicate 32 0) tab)
    as (res & dj' & dir' & d' & E & Sd & Hr); try done; [lia|].
  erewrite bind_ret by exact E. cbn [sclust set_sclust dj0] in Hr. fold r in Hr. change (dev s0) with (dev s) in Sd.
  assert (Fd : forall d1, fs (set_dev d1 s0) = f) by (intros d1; by rewrite fs_set_dev).
  destruct r as [e|] eqn:Er.
  2: { subst res. exists (set_dev d' s0). split; [done|]. by rewrite Fd. }
  destruct Hr as (-> & ->). destruct (resolve_In _ _ _ _ _ _ Er) as [Hz He].
  destruct (Z.eqb_spec (byte e 0) 0); [done|]. cbn [orb]. unfold is_dir.
  destruct (Z.land (byte e 11) AM_DIR =? 0) eqn:Ed; cbn [negb].
  2: { exists (set_dev d' s0). split; [done|]. by rewrite Fd. }
  unfold get_clust, gets. unfold bind at 1 2. unfold ret at 1. rewrite Fd. fold (entry_clust f e).
  do 4 erewrite bind_ret by apply put_fs_upd.
  eexists. split; [reflexivity|]. split; [done|]. split; [done|]. rewrite !fs_upd, Fd.
  unfold opened. rewrite (entry_clust_type f (fs s)) by done. apply opened_at_flag.
Qed.

Lemma opened_open_ok (s : pff D) e :
  FatFs s <> 0 -> fs s = opened e (fs s) -> file_ok (dev s) (fs s) -> open_ok s.
Proof.
  intros Hp E F. assert (E1 : fptr (fs s) = 0) by (rewrite E; done).
  split; [done|rewrite E; done|done|]. assert (Hs := fi_size _ _ F). split; [lia|lia|]. rewrite E1. done.
Qed.



End Mount.

(** ** Properties *)

(** C15: [pf_mount] finds the volume at sector 0 or in the first partition
    and fills the object from the BIOS parameter block exactly as its layout
    prescribes (FAT type from the number of clusters, bases of the table,
    the root and the data); without a boot record or with an impossible
    number of clusters it answers "no file system" and mounts nothing, and a
    parameter block with a cluster size of zero stops the machine by a
    division fault. *)
Theorem pf_mount_geometry {D : Type} `{Disk D} p (s : pff D) :
  p <> 0 -> Z.land (disk_initialize (dev s)).1 STA_NOINIT = 0 -> ready (dev s) 0 ->
  (boot_kind (dev s) 0 = 1 -> img (dev s) 0 450 <> 0 -> ready (dev s) (w32 (dev s) 0 454)) ->
  let r := pf_mount p s in
  match volume_start (dev s) with
  | None => exists s', r = Ret FR_NO_FILESYSTEM s' /\ FatFs s' = 0 /\ same (dev s) (dev s')
  | Some b =>
    if img (dev s) b 13 =? 0 then exists s', r = Done s'
    else exists s', r = Ret (if b_type (dev s) b =? 0 then FR_NO_FILESYSTEM else FR_OK) s' /\
        same (dev s) (dev s') /\ FatFs s' = (if b_type (dev s) b =? 0 then 0 else p) /\
        (b_type (dev s) b <> 0 -> fs s' = mounted (dev s) b (obj p s))
  end.
Proof. apply pf_mount_spec. Qed.

Lemma pf_mount_geometry_witness :
  exists s', pf_mount 1 (mkPff 0 ∅ demo) = Ret FR_OK s' /\ FatFs s' = 1 /\
    fs s' = mkFATFS FS_FAT12 0 1 16 7 1 2 3 0 0 0 0 0.
Proof.
  assert (Hm := pf_mount_geometry 1 (mkPff 0 ∅ demo)). specialize (Hm ltac:(lia) eq_refl).
  assert (Ev : volume_start demo = Some 0) by (vm_compute; reflexivity).
  assert (Ek : boot_kind demo 0 = 0) by (vm_compute; reflexivity).
  assert (Et : b_type demo 0 = 1) by (vm_compute; reflexivity).
  cbn [dev] in Hm. rewrite Ev, Ek, Et in Hm. destruct Hm as (s' & E & _ & Ep & Ef).
  - change (0 <= 0 < 8). lia.
  - done.
  - exists s'. split; [exact E|]. split; [exact Ep|]. rewrite Ef by done. vm_compute. reflexivity.
Defined.

(** C14: [pf_open] follows a path, component by component, through readable
    directories: when every component but the last names a directory and the
    last one a file, the file is opened at offset 0 with the size and the
    first cluster of its directory entry, and [pf_read] then delivers the
    file's bytes; in every other case the answer is "no file" and no file is
    open. *)
Theorem pf_open_read {D : Type} `{Disk D} (s : pff D) tab k slash cs btr :
  FatFs s <> 0 -> cs <> [] -> Forall comp_ok cs -> 0 <= btr < 2 ^ 32 ->
  let f := set_flag 0 (fs s) in
  dirs_ok (dev s) f tab 0 cs ->
  match resolve (dev s) f tab 0 cs with
  | Some e =>
    if is_dir e then exists s', pf_open pffconf (prefix k slash ++ path_text cs) s = Ret FR_NO_FILE s' /\ fs s' = f
    else exists s1, pf_open pffconf (prefix k slash ++ path_text cs) s = Ret FR_OK s1 /\ fs s1 = opened e (fs s) /\
      (file_ok (dev s) (opened e f) ->
        let n := Z.min btr (ld_dword (drop 28 e)) in
        exists s2, pf_read btr s1 = Ret (FR_OK, n, file_slice (dev s) f (entry_clust f e) 0 (Z.to_nat n)) s2 /\ open_ok s2)
  | None => exists s', pf_open pffconf (prefix k slash ++ path_text cs) s = Ret FR_NO_FILE s' /\ fs s' = f
  end.
Proof.
  intros Hp Hne Hok Hb f Hd. destruct (pf_open_spec s tab k slash cs Hp Hne Hok Hd) as (s1 & E & S1 & P1 & F1).
  fold f in E, F1. destruct (resolve (dev s) f tab 0 cs) as [e|]; [destruct (is_dir e)|]; eauto.
  exists s1. split; [exact E|]. split; [exact F1|]. intros Hf n.
  assert (O1 : open_ok s1).
  { apply (opened_open_ok s1 e); [by rewrite P1|rewrite F1; apply opened_twice|].
    apply (kept_file (dev s) _ (opened e f)); [rewrite F1; apply opened_kept|exact S1|exact Hf]. }
  destruct (pf_read_spec s1 btr O1 Hb) as (s2 & E2 & O2 & _). exists s2. split; [|exact O2].
  rewrite E2, F1. cbn [fsize fptr org_clust opened opened_at set_flag set_fptr set_fsize set_org_clust]. rewrite Z.sub_0_r.
  f_equal. f_equal. apply geom_slice; [done|exact S1].
Qed.

Lemma pf_open_read_witness :
  exists s1 s2 bs, pf_open pffconf [32; 47; 65; 46; 84; 88; 84; 0] (demo_state (demo_fs 0 0 0)) = Ret FR_OK s1 /\
    pf_read 2 s1 = Ret (FR_OK, 2, bs) s2 /\ bs = [104; 0].
Proof.
  pose (cs := [([65], [84; 88; 84])] : list (list Z * list Z)).
  assert (Hr : root_ok demo (set_flag 0 (demo_fs 0 0 0))) by (destruct demo_root as [R1 R2 R3 R4 R5]; constructor; [exact R1|exact R2|exact R3|exact R4|exact R5]).
  assert (Hok : Forall comp_ok cs).
  { constructor; [|by constructor]. split; [|split; [|cbn; lia]]; repeat constructor; lia. }
  assert (Hm := pf_open_read (demo_state (demo_fs 0 0 0)) (fun _ => root_table (set_flag 0 (demo_fs 0 0 0))) 1 true cs 2
    ltac:(done) ltac:(done) Hok ltac:(lia)).
  cbv zeta in Hm. destruct (resolve _ _ _ _ _) as [e|] eqn:Er in Hm.
  2: { exfalso. vm_compute in Er. discriminate Er. }
  assert (He : is_dir e = false /\ entry_clust (demo_fs 0 0 0) e = 2 /\ ld_dword (drop 28 e) = 600).
  { vm_compute in Er. injection Er as <-. vm_compute. done. }
  destruct He as (Hdir & Hc & Hz). rewrite Hdir in Hm. destruct Hm as (s1 & E1 & F1 & Hread).
  { split; [apply op_root; exact Hr|]. by destruct (find_entry _ _ _) as [[? ?]|]. }
  destruct Hread as (s2 & E2 & _).
  - assert (Hf := op_file _ demo_open).
    apply (kept_file demo _ (demo_fs 0 0 0)); [|done|exact Hf]. split; [by split_and!|]. split; [exact Hc|]. split; [exact Hz|done].
  - rewrite Hz in E2. eexists s1, s2, _. split; [exact E1|]. split; [exact E2|].
    change (entry_clust (set_flag 0 (fs (demo_state (demo_fs 0 0 0)))) e) with (entry_clust (demo_fs 0 0 0) e).
    rewrite Hc. vm_compute. reflexivity.
Defined.


End PffMount.
