(* ===== verification/CodePages.v ===== *)
(** The code pages of the Petit FatFs module (kernel/Fat/pff.c, the section
    "DBCS code ranges and SBCS extend char conversion table"): the case
    conversion tables [_EXCVT] of the single-byte pages and the first-byte
    ranges of the double-byte pages, and what [create_name] makes of names
    under them. *)

From stdpp Require Import base tactics list numbers option.
From Stdlib Require Import ZArith Lia.
From S2P Require Import Prelude Pff.

#[local] Open Scope Z_scope.

Module CodePages.
Import Prelude Pff.

(** ** Tables *)

(** U.S.. *)
Definition EXCVT_437 : list Z := [
  0x80; 0x9A; 0x45; 0x41; 0x8E; 0x41; 0x8F; 0x80; 0x45; 0x45; 0x45; 0x49; 0x49; 0x49; 0x8E; 0x8F;
  0x90; 0x92; 0x92; 0x4F; 0x99; 0x4F; 0x55; 0x55; 0x59; 0x99; 0x9A; 0x9B; 0x9C; 0x9D; 0x9E; 0x9F;
  0x41; 0x49; 0x4F; 0x55; 0xA5; 0xA5; 0xA6; 0xA7; 0xA8; 0xA9; 0xAA; 0xAB; 0xAC; 0xAD; 0xAE; 0xAF;
  0xB0; 0xB1; 0xB2; 0xB3; 0xB4; 0xB5; 0xB6; 0xB7; 0xB8; 0xB9; 0xBA; 0xBB; 0xBC; 0xBD; 0xBE; 0xBF;
  0xC0; 0xC1; 0xC2; 0xC3; 0xC4; 0xC5; 0xC6; 0xC7; 0xC8; 0xC9; 0xCA; 0xCB; 0xCC; 0xCD; 0xCE; 0xCF;
  0xD0; 0xD1; 0xD2; 0xD3; 0xD4; 0xD5; 0xD6; 0xD7; 0xD8; 0xD9; 0xDA; 0xDB; 0xDC; 0xDD; 0xDE; 0xDF;
  0xE0; 0xE1; 0xE2; 0xE3; 0xE4; 0xE5; 0xE6; 0xE7; 0xE8; 0xE9; 0xEA; 0xEB; 0xEC; 0xED; 0xEE; 0xEF;
  0xF0; 0xF1; 0xF2; 0xF3; 0xF4; 0xF5; 0xF6; 0xF7; 0xF8; 0xF9; 0xFA; 0xFB; 0xFC; 0xFD; 0xFE; 0xFF].

(** Arabic. *)
Definition EXCVT_720 : list Z := [
  0x80; 0x81; 0x82; 0x83; 0x84; 0x85; 0x86; 0x87; 0x88; 0x89; 0x8A; 0x8B; 0x8C; 0x8D; 0x8E; 0x8F;
  0x90; 0x91; 0x92; 0x93; 0x94; 0x95; 0x96; 0x97; 0x98; 0x99; 0x9A; 0x9B; 0x9C; 0x9D; 0x9E; 0x9F;
  0xA0; 0xA1; 0xA2; 0xA3; 0xA4; 0xA5; 0xA6; 0xA7; 0xA8; 0xA9; 0xAA; 0xAB; 0xAC; 0xAD; 0xAE; 0xAF;
  0xB0; 0xB1; 0xB2; 0xB3; 0xB4; 0xB5; 0xB6; 0xB7; 0xB8; 0xB9; 0xBA; 0xBB; 0xBC; 0xBD; 0xBE; 0xBF;
  0xC0; 0xC1; 0xC2; 0xC3; 0xC4; 0xC5; 0xC6; 0xC7; 0xC8; 0xC9; 0xCA; 0xCB; 0xCC; 0xCD; 0xCE; 0xCF;
  0xD0; 0xD1; 0xD2; 0xD3; 0xD4; 0xD5; 0xD6; 0xD7; 0xD8; 0xD9; 0xDA; 0xDB; 0xDC; 0xDD; 0xDE; 0xDF;
  0xE0; 0xE1; 0xE2; 0xE3; 0xE4; 0xE5; 0xE6; 0xE7; 0xE8; 0xE9; 0xEA; 0xEB; 0xEC; 0xED; 0xEE; 0xEF;
  0xF0; 0xF1; 0xF2; 0xF3; 0xF4; 0xF5; 0xF6; 0xF7; 0xF8; 0xF9; 0xFA; 0xFB; 0xFC; 0xFD; 0xFE; 0xFF].

(** Greek. *)
Definition EXCVT_737 : list Z := [
  0x80; 0x81; 0x82; 0x83; 0x84; 0x85; 0x86; 0x87; 0x88; 0x89; 0x8A; 0x8B; 0x8C; 0x8D; 0x8E; 0x8F;
  0x90; 0x92; 0x92; 0x93; 0x94; 0x95; 0x96; 0x97; 0x80; 0x81; 0x82; 0x83; 0x84; 0x85; 0x86; 0x87;
  0x88; 0x89; 0x8A; 0x8B; 0x8C; 0x8D; 0x8E; 0x8F; 0x90; 0x91; 0xAA; 0x92; 0x93; 0x94; 0x95; 0x96;
  0xB0; 0xB1; 0xB2; 0xB3; 0xB4; 0xB5; 0xB6; 0xB7; 0xB8; 0xB9; 0xBA; 0xBB; 0xBC; 0xBD; 0xBE; 0xBF;
  0xC0; 0xC1; 0xC2; 0xC3; 0xC4; 0xC5; 0xC6; 0xC7; 0xC8; 0xC9; 0xCA; 0xCB; 0xCC; 0xCD; 0xCE; 0xCF;
  0xD0; 0xD1; 0xD2; 0xD3; 0xD4; 0xD5; 0xD6; 0xD7; 0xD8; 0xD9; 0xDA; 0xDB; 0xDC; 0xDD; 0xDE; 0xDF;
  0x97; 0xEA; 0xEB; 0xEC; 0xE4; 0xED; 0xEE; 0xEF; 0xF5; 0xF0; 0xEA; 0xEB; 0xEC; 0xED; 0xEE; 0xEF;
  0xF0; 0xF1; 0xF2; 0xF3; 0xF4; 0xF5; 0xF6; 0xF7; 0xF8; 0xF9; 0xFA; 0xFB; 0xFC; 0xFD; 0xFE; 0xFF].

(** KBL. *)
Definition EXCVT_771 : list Z := [
  0x80; 0x81; 0x82; 0x83; 0x84; 0x85; 0x86; 0x87; 0x88; 0x89; 0x8A; 0x8B; 0x8C; 0x8D; 0x8E; 0x8F;
  0x90; 0x91; 0x92; 0x93; 0x94; 0x95; 0x96; 0x97; 0x98; 0x99; 0x9A; 0x9B; 0x9C; 0x9D; 0x9E; 0x9F;
  0x80; 0x81; 0x82; 0x83; 0x84; 0x85; 0x86; 0x87; 0x88; 0x89; 0x8A; 0x8B; 0x8C; 0x8D; 0x8E; 0x8F;
  0xB0; 0xB1; 0xB2; 0xB3; 0xB4; 0xB5; 0xB6; 0xB7; 0xB8; 0xB9; 0xBA; 0xBB; 0xBC; 0xBD; 0xBE; 0xBF;
  0xC0; 0xC1; 0xC2; 0xC3; 0xC4; 0xC5; 0xC6; 0xC7; 0xC8; 0xC9; 0xCA; 0xCB; 0xCC; 0xCD; 0xCE; 0xCF;
  0xD0; 0xD1; 0xD2; 0xD3; 0xD4; 0xD5; 0xD6; 0xD7; 0xD8; 0xD9; 0xDA; 0xDB; 0xDC; 0xDC; 0xDE; 0xDE;
  0x90; 0x91; 0x92; 0x93; 0x94; 0x95; 0x96; 0x97; 0x98; 0x99; 0x9A; 0x9B; 0x9C; 0x9D; 0x9E; 0x9F;
  0xF0; 0xF0; 0xF2; 0xF2; 0xF4; 0xF4; 0xF6; 0xF6; 0xF8; 0xF8; 0xFA; 0xFA; 0xFC; 0xFC; 0xFE; 0xFF].

(** Baltic. *)
Definition EXCVT_775 : list Z := [
  0x80; 0x9A; 0x91; 0xA0; 0x8E; 0x95; 0x8F; 0x80; 0xAD; 0xED; 0x8A; 0x8A; 0xA1; 0x8D; 0x8E; 0x8F;
  0x90; 0x92; 0x92; 0xE2; 0x99; 0x95; 0x96; 0x97; 0x97; 0x99; 0x9A; 0x9D; 0x9C; 0x9D; 0x9E; 0x9F;
  0xA0; 0xA1; 0xE0; 0xA3; 0xA3; 0xA5; 0xA6; 0xA7; 0xA8; 0xA9; 0xAA; 0xAB; 0xAC; 0xAD; 0xAE; 0xAF;
  0xB0; 0xB1; 0xB2; 0xB3; 0xB4; 0xB5; 0xB6; 0xB7; 0xB8; 0xB9; 0xBA; 0xBB; 0xBC; 0xBD; 0xBE; 0xBF;
  0xC0; 0xC1; 0xC2; 0xC3; 0xC4; 0xC5; 0xC6; 0xC7; 0xC8; 0xC9; 0xCA; 0xCB; 0xCC; 0xCD; 0xCE; 0xCF;
  0xB5; 0xB6; 0xB7; 0xB8; 0xBD; 0xBE; 0xC6; 0xC7; 0xA5; 0xD9; 0xDA; 0xDB; 0xDC; 0xDD; 0xDE; 0xDF;
  0xE0; 0xE1; 0xE2; 0xE3; 0xE5; 0xE5; 0xE6; 0xE3; 0xE8; 0xE8; 0xEA; 0xEA; 0xEE; 0xED; 0xEE; 0xEF;
  0xF0; 0xF1; 0xF2; 0xF3; 0xF4; 0xF5; 0xF6; 0xF7; 0xF8; 0xF9; 0xFA; 0xFB; 0xFC; 0xFD; 0xFE; 0xFF].

(** Latin 1. *)
Definition EXCVT_850 : list Z := [
  0x43; 0x55; 0x45; 0x41; 0x41; 0x41; 0x41; 0x43; 0x45; 0x45; 0x45; 0x49; 0x49; 0x49; 0x41; 0x41;
  0x45; 0x92; 0x92; 0x4F; 0x4F; 0x4F; 0x55; 0x55; 0x59; 0x4F; 0x55; 0x4F; 0x9C; 0x4F; 0x9E; 0x9F;
  0x41; 0x49; 0x4F; 0x55; 0xA5; 0xA5; 0xA6; 0xA7; 0xA8; 0xA9; 0xAA; 0xAB; 0xAC; 0xAD; 0xAE; 0xAF;
  0xB0; 0xB1; 0xB2; 0xB3; 0xB4; 0x41; 0x41; 0x41; 0xB8; 0xB9; 0xBA; 0xBB; 0xBC; 0xBD; 0xBE; 0xBF;
  0xC0; 0xC1; 0xC2; 0xC3; 0xC4; 0xC5; 0x41; 0x41; 0xC8; 0xC9; 0xCA; 0xCB; 0xCC; 0xCD; 0xCE; 0xCF;
  0xD1; 0xD1; 0x45; 0x45; 0x45; 0x49; 0x49; 0x49; 0x49; 0xD9; 0xDA; 0xDB; 0xDC; 0xDD; 0x49; 0xDF;
  0x4F; 0xE1; 0x4F; 0x4F; 0x4F; 0x4F; 0xE6; 0xE8; 0xE8; 0x55; 0x55; 0x55; 0x59; 0x59; 0xEE; 0xEF;
  0xF0; 0xF1; 0xF2; 0xF3; 0xF4; 0xF5; 0xF6; 0xF7; 0xF8; 0xF9; 0xFA; 0xFB; 0xFC; 0xFD; 0xFE; 0xFF].

(** Latin 2. *)
Definition EXCVT_852 : list Z := [
  0x80; 0x9A; 0x90; 0xB6; 0x8E; 0xDE; 0x8F; 0x80; 0x9D; 0xD3; 0x8A; 0x8A; 0xD7; 0x8D; 0x8E; 0x8F;
  0x90; 0x91; 0x91; 0xE2; 0x99; 0x95; 0x95; 0x97; 0x97; 0x99; 0x9A; 0x9B; 0x9B; 0x9D; 0x9E; 0xAC;
  0xB5; 0xD6; 0xE0; 0xE9; 0xA4; 0xA4; 0xA6; 0xA6; 0xA8; 0xA8; 0xAA; 0x8D; 0xAC; 0xB8; 0xAE; 0xAF;
  0xB0; 0xB1; 0xB2; 0xB3; 0xB4; 0xB5; 0xB6; 0xB7; 0xB8; 0xB9; 0xBA; 0xBB; 0xBC; 0xBD; 0xBD; 0xBF;
  0xC0; 0xC1; 0xC2; 0xC3; 0xC4; 0xC5; 0xC6; 0xC6; 0xC8; 0xC9; 0xCA; 0xCB; 0xCC; 0xCD; 0xCE; 0xCF;
  0xD1; 0xD1; 0xD2; 0xD3; 0xD2; 0xD5; 0xD6; 0xD7; 0xB7; 0xD9; 0xDA; 0xDB; 0xDC; 0xDD; 0xDE; 0xDF;
  0xE0; 0xE1; 0xE2; 0xE3; 0xE3; 0xD5; 0xE6; 0xE6; 0xE8; 0xE9; 0xE8; 0xEB; 0xED; 0xED; 0xDD; 0xEF;
  0xF0; 0xF1; 0xF2; 0xF3; 0xF4; 0xF5; 0xF6; 0xF7; 0xF8; 0xF9; 0xFA; 0xEB; 0xFC; 0xFC; 0xFE; 0xFF].

(** Cyrillic. *)
Definition EXCVT_855 : list Z := [
  0x81; 0x81; 0x83; 0x83; 0x85; 0x85; 0x87; 0x87; 0x89; 0x89; 0x8B; 0x8B; 0x8D; 0x8D; 0x8F; 0x8F;
  0x91; 0x91; 0x93; 0x93; 0x95; 0x95; 0x97; 0x97; 0x99; 0x99; 0x9B; 0x9B; 0x9D; 0x9D; 0x9F; 0x9F;
  0xA1; 0xA1; 0xA3; 0xA3; 0xA5; 0xA5; 0xA7; 0xA7; 0xA9; 0xA9; 0xAB; 0xAB; 0xAD; 0xAD; 0xAE; 0xAF;
  0xB0; 0xB1; 0xB2; 0xB3; 0xB4; 0xB6; 0xB6; 0xB8; 0xB8; 0xB9; 0xBA; 0xBB; 0xBC; 0xBE; 0xBE; 0xBF;
  0xC0; 0xC1; 0xC2; 0xC3; 0xC4; 0xC5; 0xC7; 0xC7; 0xC8; 0xC9; 0xCA; 0xCB; 0xCC; 0xCD; 0xCE; 0xCF;
  0xD1; 0xD1; 0xD3; 0xD3; 0xD5; 0xD5; 0xD7; 0xD7; 0xDD; 0xD9; 0xDA; 0xDB; 0xDC; 0xDD; 0xE0; 0xDF;
  0xE0; 0xE2; 0xE2; 0xE4; 0xE4; 0xE6; 0xE6; 0xE8; 0xE8; 0xEA; 0xEA; 0xEC; 0xEC; 0xEE; 0xEE; 0xEF;
  0xF0; 0xF2; 0xF2; 0xF4; 0xF4; 0xF6; 0xF6; 0xF8; 0xF8; 0xFA; 0xFA; 0xFC; 0xFC; 0xFD; 0xFE; 0xFF].

(** Turkish. *)
Definition EXCVT_857 : list Z := [
  0x80; 0x9A; 0x90; 0xB6; 0x8E; 0xB7; 0x8F; 0x80; 0xD2; 0xD3; 0xD4; 0xD8; 0xD7; 0x49; 0x8E; 0x8F;
  0x90; 0x92; 0x92; 0xE2; 0x99; 0xE3; 0xEA; 0xEB; 0x98; 0x99; 0x9A; 0x9D; 0x9C; 0x9D; 0x9E; 0x9E;
  0xB5; 0xD6; 0xE0; 0xE9; 0xA5; 0xA5; 0xA6; 0xA6; 0xA8; 0xA9; 0xAA; 0xAB; 0xAC; 0xAD; 0xAE; 0xAF;
  0xB0; 0xB1; 0xB2; 0xB3; 0xB4; 0xB5; 0xB6; 0xB7; 0xB8; 0xB9; 0xBA; 0xBB; 0xBC; 0xBD; 0xBE; 0xBF;
  0xC0; 0xC1; 0xC2; 0xC3; 0xC4; 0xC5; 0xC7; 0xC7; 0xC8; 0xC9; 0xCA; 0xCB; 0xCC; 0xCD; 0xCE; 0xCF;
  0xD0; 0xD1; 0xD2; 0xD3; 0xD4; 0x49; 0xD6; 0xD7; 0xD8; 0xD9; 0xDA; 0xDB; 0xDC; 0xDD; 0xDE; 0xDF;
  0xE0; 0xE1; 0xE2; 0xE3; 0xE5; 0xE5; 0xE6; 0xE7; 0xE8; 0xE9; 0xEA; 0xEB; 0xDE; 0xED; 0xEE; 0xEF].

(** Portuguese. *)
Definition EXCVT_860 : list Z := [
  0x80; 0x9A; 0x90; 0x8F; 0x8E; 0x91; 0x86; 0x80; 0x89; 0x89; 0x92; 0x8B; 0x8C; 0x98; 0x8E; 0x8F;
  0x90; 0x91; 0x92; 0x8C; 0x99; 0xA9; 0x96; 0x9D; 0x98; 0x99; 0x9A; 0x9B; 0x9C; 0x9D; 0x9E; 0x9F;
  0x86; 0x8B; 0x9F; 0x96; 0xA5; 0xA5; 0xA6; 0xA7; 0xA8; 0xA9; 0xAA; 0xAB; 0xAC; 0xAD; 0xAE; 0xAF;
  0xB0; 0xB1; 0xB2; 0xB3; 0xB4; 0xB5; 0xB6; 0xB7; 0xB8; 0xB9; 0xBA; 0xBB; 0xBC; 0xBD; 0xBE; 0xBF;
  0xC0; 0xC1; 0xC2; 0xC3; 0xC4; 0xC5; 0xC6; 0xC7; 0xC8; 0xC9; 0xCA; 0xCB; 0xCC; 0xCD; 0xCE; 0xCF;
  0xD0; 0xD1; 0xD2; 0xD3; 0xD4; 0xD5; 0xD6; 0xD7; 0xD8; 0xD9; 0xDA; 0xDB; 0xDC; 0xDD; 0xDE; 0xDF;
  0xE0; 0xE1; 0xE2; 0xE3; 0xE4; 0xE5; 0xE6; 0xE7; 0xE8; 0xE9; 0xEA; 0xEB; 0xEC; 0xED; 0xEE; 0xEF;
  0xF0; 0xF1; 0xF2; 0xF3; 0xF4; 0xF5; 0xF6; 0xF7; 0xF8; 0xF9; 0xFA; 0xFB; 0xFC; 0xFD; 0xFE; 0xFF].

(** Icelandic. *)
Definition EXCVT_861 : list Z := [
  0x80; 0x9A; 0x90; 0x41; 0x8E; 0x41; 0x8F; 0x80; 0x45; 0x45; 0x45; 0x8B; 0x8B; 0x8D; 0x8E; 0x8F;
  0x90; 0x92; 0x92; 0x4F; 0x99; 0x8D; 0x55; 0x97; 0x97; 0x99; 0x9A; 0x9D; 0x9C; 0x9D; 0x9E; 0x9F;
  0xA4; 0xA5; 0xA6; 0xA7; 0xA4; 0xA5; 0xA6; 0xA7; 0xA8; 0xA9; 0xAA; 0xAB; 0xAC; 0xAD; 0xAE; 0xAF;
  0xB0; 0xB1; 0xB2; 0xB3; 0xB4; 0xB5; 0xB6; 0xB7; 0xB8; 0xB9; 0xBA; 0xBB; 0xBC; 0xBD; 0xBE; 0xBF;
  0xC0; 0xC1; 0xC2; 0xC3; 0xC4; 0xC5; 0xC6; 0xC7; 0xC8; 0xC9; 0xCA; 0xCB; 0xCC; 0xCD; 0xCE; 0xCF;
  0xD0; 0xD1; 0xD2; 0xD3; 0xD4; 0xD5; 0xD6; 0xD7; 0xD8; 0xD9; 0xDA; 0xDB; 0xDC; 0xDD; 0xDE; 0xDF;
  0xE0; 0xE1; 0xE2; 0xE3; 0xE4; 0xE5; 0xE6; 0xE7; 0xE8; 0xE9; 0xEA; 0xEB; 0xEC; 0xED; 0xEE; 0xEF;
  0xF0; 0xF1; 0xF2; 0xF3; 0xF4; 0xF5; 0xF6; 0xF7; 0xF8; 0xF9; 0xFA; 0xFB; 0xFC; 0xFD; 0xFE; 0xFF].

(** Hebrew. *)
Definition EXCVT_862 : list Z := [
  0x80; 0x81; 0x82; 0x83; 0x84; 0x85; 0x86; 0x87; 0x88; 0x89; 0x8A; 0x8B; 0x8C; 0x8D; 0x8E; 0x8F;
  0x90; 0x91; 0x92; 0x93; 0x94; 0x95; 0x96; 0x97; 0x98; 0x99; 0x9A; 0x9B; 0x9C; 0x9D; 0x9E; 0x9F;
  0x41; 0x49; 0x4F; 0x55; 0xA5; 0xA5; 0xA6; 0xA7; 0xA8; 0xA9; 0xAA; 0xAB; 0xAC; 0xAD; 0xAE; 0xAF;
  0xB0; 0xB1; 0xB2; 0xB3; 0xB4; 0xB5; 0xB6; 0xB7; 0xB8; 0xB9; 0xBA; 0xBB; 0xBC; 0xBD; 0xBE; 0xBF;
  0xC0; 0xC1; 0xC2; 0xC3; 0xC4; 0xC5; 0xC6; 0xC7; 0xC8; 0xC9; 0xCA; 0xCB; 0xCC; 0xCD; 0xCE; 0xCF;
  0xD0; 0xD1; 0xD2; 0xD3; 0xD4; 0xD5; 0xD6; 0xD7; 0xD8; 0xD9; 0xDA; 0xDB; 0xDC; 0xDD; 0xDE; 0xDF;
  0xE0; 0xE1; 0xE2; 0xE3; 0xE4; 0xE5; 0xE6; 0xE7; 0xE8; 0xE9; 0xEA; 0xEB; 0xEC; 0xED; 0xEE; 0xEF;
  0xF0; 0xF1; 0xF2; 0xF3; 0xF4; 0xF5; 0xF6; 0xF7; 0xF8; 0xF9; 0xFA; 0xFB; 0xFC; 0xFD; 0xFE; 0xFF].

(** Canadian French. *)
Definition EXCVT_863 : list Z := [
  0x43; 0x55; 0x45; 0x41; 0x41; 0x41; 0x86; 0x43; 0x45; 0x45; 0x45; 0x49; 0x49; 0x8D; 0x41; 0x8F;
  0x45; 0x45; 0x45; 0x4F; 0x45; 0x49; 0x55; 0x55; 0x98; 0x4F; 0x55; 0x9B; 0x9C; 0x55; 0x55; 0x9F;
  0xA0; 0xA1; 0x4F; 0x55; 0xA4; 0xA5; 0xA6; 0xA7; 0x49; 0xA9; 0xAA; 0xAB; 0xAC; 0xAD; 0xAE; 0xAF;
  0xB0; 0xB1; 0xB2; 0xB3; 0xB4; 0xB5; 0xB6; 0xB7; 0xB8; 0xB9; 0xBA; 0xBB; 0xBC; 0xBD; 0xBE; 0xBF;
  0xC0; 0xC1; 0xC2; 0xC3; 0xC4; 0xC5; 0xC6; 0xC7; 0xC8; 0xC9; 0xCA; 0xCB; 0xCC; 0xCD; 0xCE; 0xCF;
  0xD0; 0xD1; 0xD2; 0xD3; 0xD4; 0xD5; 0xD6; 0xD7; 0xD8; 0xD9; 0xDA; 0xDB; 0xDC; 0xDD; 0xDE; 0xDF;
  0xE0; 0xE1; 0xE2; 0xE3; 0xE4; 0xE5; 0xE6; 0xE7; 0xE8; 0xE9; 0xEA; 0xEB; 0xEC; 0xED; 0xEE; 0xEF;
  0xF0; 0xF1; 0xF2; 0xF3; 0xF4; 0xF5; 0xF6; 0xF7; 0xF8; 0xF9; 0xFA; 0xFB; 0xFC; 0xFD; 0xFE; 0xFF].

(** Arabic. *)
Definition EXCVT_864 : list Z := [
  0x80; 0x9A; 0x45; 0x41; 0x8E; 0x41; 0x8F; 0x80; 0x45; 0x45; 0x45; 0x49; 0x49; 0x49; 0x8E; 0x8F;
  0x90; 0x92; 0x92; 0x4F; 0x99; 0x4F; 0x55; 0x55; 0x59; 0x99; 0x9A; 0x9B; 0x9C; 0x9D; 0x9E; 0x9F;
  0x41; 0x49; 0x4F; 0x55; 0xA5; 0xA5; 0xA6; 0xA7; 0xA8; 0xA9; 0xAA; 0xAB; 0xAC; 0xAD; 0xAE; 0xAF;
  0xB0; 0xB1; 0xB2; 0xB3; 0xB4; 0xB5; 0xB6; 0xB7; 0xB8; 0xB9; 0xBA; 0xBB; 0xBC; 0xBD; 0xBE; 0xBF;
  0xC0; 0xC1; 0xC2; 0xC3; 0xC4; 0xC5; 0xC6; 0xC7; 0xC8; 0xC9; 0xCA; 0xCB; 0xCC; 0xCD; 0xCE; 0xCF;
  0xD0; 0xD1; 0xD2; 0xD3; 0xD4; 0xD5; 0xD6; 0xD7; 0xD8; 0xD9; 0xDA; 0xDB; 0xDC; 0xDD; 0xDE; 0xDF;
  0xE0; 0xE1; 0xE2; 0xE3; 0xE4; 0xE5; 0xE6; 0xE7; 0xE8; 0xE9; 0xEA; 0xEB; 0xEC; 0xED; 0xEE; 0xEF;
  0xF0; 0xF1; 0xF2; 0xF3; 0xF4; 0xF5; 0xF6; 0xF7; 0xF8; 0xF9; 0xFA; 0xFB; 0xFC; 0xFD; 0xFE; 0xFF].

(** Nordic. *)
Definition EXCVT_865 : list Z := [
  0x80; 0x9A; 0x90; 0x41; 0x8E; 0x41; 0x8F; 0x80; 0x45; 0x45; 0x45; 0x49; 0x49; 0x49; 0x8E; 0x8F;
  0x90; 0x92; 0x92; 0x4F; 0x99; 0x4F; 0x55; 0x55; 0x59; 0x99; 0x9A; 0x9B; 0x9C; 0x9D; 0x9E; 0x9F;
  0x41; 0x49; 0x4F; 0x55; 0xA5; 0xA5; 0xA6; 0xA7; 0xA8; 0xA9; 0xAA; 0xAB; 0xAC; 0xAD; 0xAE; 0xAF;
  0xB0; 0xB1; 0xB2; 0xB3; 0xB4; 0xB5; 0xB6; 0xB7; 0xB8; 0xB9; 0xBA; 0xBB; 0xBC; 0xBD; 0xBE; 0xBF;
  0xC0; 0xC1; 0xC2; 0xC3; 0xC4; 0xC5; 0xC6; 0xC7; 0xC8; 0xC9; 0xCA; 0xCB; 0xCC; 0xCD; 0xCE; 0xCF;
  0xD0; 0xD1; 0xD2; 0xD3; 0xD4; 0xD5; 0xD6; 0xD7; 0xD8; 0xD9; 0xDA; 0xDB; 0xDC; 0xDD; 0xDE; 0xDF;
  0xE0; 0xE1; 0xE2; 0xE3; 0xE4; 0xE5; 0xE6; 0xE7; 0xE8; 0xE9; 0xEA; 0xEB; 0xEC; 0xED; 0xEE; 0xEF;
  0xF0; 0xF1; 0xF2; 0xF3; 0xF4; 0xF5; 0xF6; 0xF7; 0xF8; 0xF9; 0xFA; 0xFB; 0xFC; 0xFD; 0xFE; 0xFF].

(** Russian. *)
Definition EXCVT_866 : list Z := [
  0x80; 0x81; 0x82; 0x83; 0x84; 0x85; 0x86; 0x87; 0x88; 0x89; 0x8A; 0x8B; 0x8C; 0x8D; 0x8E; 0x8F;
  0x90; 0x91; 0x92; 0x93; 0x94; 0x95; 0x96; 0x97; 0x98; 0x99; 0x9A; 0x9B; 0x9C; 0x9D; 0x9E; 0x9F;
  0x80; 0x81; 0x82; 0x83; 0x84; 0x85; 0x86; 0x87; 0x88; 0x89; 0x8A; 0x8B; 0x8C; 0x8D; 0x8E; 0x8F;
  0xB0; 0xB1; 0xB2; 0xB3; 0xB4; 0xB5; 0xB6; 0xB7; 0xB8; 0xB9; 0xBA; 0xBB; 0xBC; 0xBD; 0xBE; 0xBF;
  0xC0; 0xC1; 0xC2; 0xC3; 0xC4; 0xC5; 0xC6; 0xC7; 0xC8; 0xC9; 0xCA; 0xCB; 0xCC; 0xCD; 0xCE; 0xCF;
  0xD0; 0xD1; 0xD2; 0xD3; 0xD4; 0xD5; 0xD6; 0xD7; 0xD8; 0xD9; 0xDA; 0xDB; 0xDC; 0xDD; 0xDE; 0xDF;
  0x90; 0x91; 0x92; 0x93; 0x94; 0x95; 0x96; 0x97; 0x98; 0x99; 0x9A; 0x9B; 0x9C; 0x9D; 0x9E; 0x9F;
  0xF0; 0xF0; 0xF2; 0xF2; 0xF4; 0xF4; 0xF6; 0xF6; 0xF8; 0xF9; 0xFA; 0xFB; 0xFC; 0xFD; 0xFE; 0xFF].

(** Greek 2. *)
Definition EXCVT_869 : list Z := [
  0x80; 0x81; 0x82; 0x83; 0x84; 0x85; 0x86; 0x87; 0x88; 0x89; 0x8A; 0x8B; 0x8C; 0x8D; 0x8E; 0x8F;
  0x90; 0x91; 0x92; 0x93; 0x94; 0x95; 0x96; 0x97; 0x98; 0x99; 0x9A; 0x86; 0x9C; 0x8D; 0x8F; 0x90;
  0x91; 0x90; 0x92; 0x95; 0xA4; 0xA5; 0xA6; 0xA7; 0xA8; 0xA9; 0xAA; 0xAB; 0xAC; 0xAD; 0xAE; 0xAF;
  0xB0; 0xB1; 0xB2; 0xB3; 0xB4; 0xB5; 0xB6; 0xB7; 0xB8; 0xB9; 0xBA; 0xBB; 0xBC; 0xBD; 0xBE; 0xBF;
  0xC0; 0xC1; 0xC2; 0xC3; 0xC4; 0xC5; 0xC6; 0xC7; 0xC8; 0xC9; 0xCA; 0xCB; 0xCC; 0xCD; 0xCE; 0xCF;
  0xD0; 0xD1; 0xD2; 0xD3; 0xD4; 0xD5; 0xA4; 0xA5; 0xA6; 0xD9; 0xDA; 0xDB; 0xDC; 0xA7; 0xA8; 0xDF;
  0xA9; 0xAA; 0xAC; 0xAD; 0xB5; 0xB6; 0xB7; 0xB8; 0xBD; 0xBE; 0xC6; 0xC7; 0xCF; 0xCF; 0xD0; 0xEF;
  0xF0; 0xF1; 0xD1; 0xD2; 0xD3; 0xF5; 0xD4; 0xF7; 0xF8; 0xF9; 0xD5; 0x96; 0x95; 0x98; 0xFE; 0xFF].

(** ** Double-byte pages: ranges of the first byte *)

Definition in_range (lo hi c : Z) : bool := (lo <=? c) && (c <=? hi).

(** Japanese Shift-JIS. *)
Definition IsDBCS1_932 (c : Z) : bool := in_range 0x81 0x9F c || in_range 0xE0 0xFC c.

(** Simplified Chinese GBK. *)
Definition IsDBCS1_936 (c : Z) : bool := in_range 0x81 0xFE c.

(** Korean. *)
Definition IsDBCS1_949 (c : Z) : bool := in_range 0x81 0xFE c.

(** Traditional Chinese Big5. *)
Definition IsDBCS1_950 (c : Z) : bool := in_range 0x81 0xFE c.

(** The configuration [PF_USE_LCC] = 1 with a code page. *)
Definition sbcs (cvt : list Z) : config := mkConfig true (Some cvt) (fun _ => false).
Definition dbcs (first : Z -> bool) : config := mkConfig true None first.

Definition PF_CODE_PAGE (page : Z) : option config :=
  match page with

  | 932 => Some (dbcs IsDBCS1_932)
  | 936 => Some (dbcs IsDBCS1_936)
  | 949 => Some (dbcs IsDBCS1_949)
  | 950 => Some (dbcs IsDBCS1_950)
  | 437 => Some (sbcs EXCVT_437)
  | 720 => Some (sbcs EXCVT_720)
  | 737 => Some (sbcs EXCVT_737)
  | 771 => Some (sbcs EXCVT_771)
  | 775 => Some (sbcs EXCVT_775)
  | 850 => Some (sbcs EXCVT_850)
  | 852 => Some (sbcs EXCVT_852)
  | 855 => Some (sbcs EXCVT_855)
  | 857 => Some (sbcs EXCVT_857)
  | 860 => Some (sbcs EXCVT_860)
  | 861 => Some (sbcs EXCVT_861)
  | 862 => Some (sbcs EXCVT_862)
  | 863 => Some (sbcs EXCVT_863)
  | 864 => Some (sbcs EXCVT_864)
  | 865 => Some (sbcs EXCVT_865)
  | 866 => Some (sbcs EXCVT_866)
  | 869 => Some (sbcs EXCVT_869)
  | _ => None
  end.

(** The single-byte pages with their tables. *)
Definition sbcs_tables : list (Z * list Z) := [
  (437, EXCVT_437);
  (720, EXCVT_720);
  (737, EXCVT_737);
  (771, EXCVT_771);
  (775, EXCVT_775);
  (850, EXCVT_850);
  (852, EXCVT_852);
  (855, EXCVT_855);
  (857, EXCVT_857);
  (860, EXCVT_860);
  (861, EXCVT_861);
  (862, EXCVT_862);
  (863, EXCVT_863);
  (864, EXCVT_864);
  (865, EXCVT_865);
  (866, EXCVT_866);
  (869, EXCVT_869)].

(** ** Conversion of a character by [create_name] *)

Definition fold (cfg : config) (c : Z) : Z :=
  let c := match EXCVT cfg with
           | Some cvt => if PF_USE_LCC cfg && (0x80 <=? c) then byte cvt (Z.to_nat (c - 0x80)) else c
           | None => c
           end in
  if PF_USE_LCC cfg && IsLower c then c - 0x20 else c.

(** Characters are folded once for all: folding again changes nothing, and
    folding neither makes nor removes a separator, a dot or a space. *)
Definition bytes : list Z := Z.of_nat <$> seq 0 256.
Definition delim (c : Z) : bool := (c <=? 32) || (c =? 47) || (c =? 46).
Definition fold_ok_at (cfg : config) (c : Z) : bool :=
  (fold cfg (fold cfg c) =? fold cfg c) && (if delim c then fold cfg c =? c else negb (delim (fold cfg c))).
Definition fold_ok (cfg : config) : bool := forallb (fold_ok_at cfg) bytes.

Lemma bytes_In c : 0 <= c < 256 -> In c bytes.
Proof.
  intros Hc. apply in_map_iff. exists (Z.to_nat c). split; [lia|]. apply in_seq. lia.
Qed.

Lemma fold_ok_spec cfg c :
  fold_ok cfg = true -> 0 <= c < 256 ->
  fold cfg (fold cfg c) = fold cfg c /\ (delim c = true -> fold cfg c = c) /\ delim (fold cfg c) = delim c.
Proof.
  intros Hf Hc. apply forallb_forall with (x := c) in Hf; [|by apply bytes_In].
  unfold fold_ok_at in Hf. apply andb_prop in Hf as [H1%Z.eqb_eq H2]. split; [done|].
  destruct (delim c) eqn:Ed; [apply Z.eqb_eq in H2; rewrite H2; auto|]. apply negb_true_iff in H2. done.
Qed.

Lemma byte_map cfg p i : fold cfg 0 = 0 -> byte (fold cfg <$> p) i = fold cfg (byte p i).
Proof. intros H0. unfold byte. rewrite list_lookup_fmap. destruct (p !! i); simpl; congruence. Qed.

Definition ending (r : nat * Z * list Z) : nat * bool * list Z := (r.1.1, r.1.2 <=? 32, r.2).

Lemma create_name_loop_fold cvt fuel : forall p si i ni sfn,
  fold_ok (sbcs cvt) = true -> byte_list p ->
  ending <$> create_name_loop (sbcs cvt) fuel (fold (sbcs cvt) <$> p) si i ni sfn =
  ending <$> create_name_loop (sbcs cvt) fuel p si i ni sfn.
Proof.
  set (cfg := sbcs cvt). induction fuel as [|fuel IH]; intros p si i ni sfn Hf Hp; [done|].
  assert (Hb : 0 <= byte p si < 256).
  { unfold byte. destruct (p !! si) as [c|] eqn:E; cbn; [exact (Forall_lookup_1 _ _ _ _ Hp E)|lia]. }
  assert (H0 : fold cfg 0 = 0) by (apply (fold_ok_spec cfg 0 Hf ltac:(lia)); done).
  destruct (fold_ok_spec cfg _ Hf Hb) as (Hi & Hd & Hd').
  cbn [create_name_loop]. rewrite byte_map by done. set (c := byte p si) in *.
  unfold delim in Hd, Hd'.
  destruct ((c <=? 32) || (c =? 47)) eqn:E1.
  { rewrite Hd by done. by rewrite E1. }
  destruct (c =? 46) eqn:E2.
  { rewrite Hd by done. rewrite E1, E2. cbn [orb]. destruct (negb (ni =? 8)%nat || negb true); [done|]. by apply IH. }
  cbn [orb] in Hd'. apply orb_false_iff in Hd' as [Hd1 Hd2]. rewrite Hd1, Hd2. cbn [orb].
  destruct (ni <=? i)%nat.
  { rewrite orb_true_r. cbn. apply orb_false_iff in E1 as [E1 _], Hd1 as [Hd1 _]. unfold ending. cbn. by rewrite E1, Hd1. }
  cbn [IsDBCS1 cfg sbcs andb EXCVT PF_USE_LCC].
  assert (Ef : forall x, fold cfg x = (let c := if 0x80 <=? x then byte cvt (Z.to_nat (x - 0x80)) else x in
                           if IsLower c then c - 0x20 else c)) by done.
  cbv zeta in Ef. rewrite <- (Ef (fold cfg c)), <- (Ef c), Hi. by apply IH.
Qed.

Definition fold_rest (cfg : config) (r : DIR * list Z) : DIR * list Z := (r.1, fold cfg <$> r.2).

(** Names are folded the same way however often: under the case
    conversion of the single-byte code pages, all but 737, 775 and 857, and
    for every path of bytes, [create_name] yields from the folded path the
    same short name, and the folded rest, as from the path itself. *)
Theorem create_name_case page cvt dj path :
  In (page, cvt) sbcs_tables -> page <> 737 -> page <> 775 -> page <> 857 -> byte_list path ->
  create_name (sbcs cvt) dj (fold (sbcs cvt) <$> path) =
  fold_rest (sbcs cvt) <$> create_name (sbcs cvt) dj path.
Proof.
  intros Hin H1 H2 H3 Hp.
  assert (Hf : fold_ok (sbcs cvt) = true).
  { cbn in Hin. repeat (destruct Hin as [[= <- <-]|Hin]; [try (by vm_compute); lia|]). destruct Hin. }
  assert (E := create_name_loop_fold cvt 16 path 0 0 8 (mem_set (fn dj) 32 11) Hf Hp). unfold create_name.
  destruct (create_name_loop _ _ path _ _ _ _) as [[[si c] sfn]|], (create_name_loop _ _ _ _ _ _ _) as [[[si' c'] sfn']|];
    cbn in *; try done. injection E as -> -> ->. unfold fold_rest. cbn. by rewrite fmap_drop.
Qed.

Lemma create_name_case_witness :
  create_name (sbcs EXCVT_437) (mkDIR 0 (replicate 12 0) 0 0 0) (fold (sbcs EXCVT_437) <$> [97; 0x81; 46; 98; 47; 99]) =
  fold_rest (sbcs EXCVT_437) <$>
    create_name (sbcs EXCVT_437) (mkDIR 0 (replicate 12 0) 0 0 0) [97; 0x81; 46; 98; 47; 99].
Proof.
  apply (create_name_case 437 EXCVT_437).
  - left. reflexivity.
  - discriminate.
  - discriminate.
  - discriminate.
  - repeat constructor; lia.
Defined.

(** The tables of the pages left out: 737 and 775 convert one character to a
    character that is converted again, and the table of 857 lacks its last
    row, so that the conversion of a character from 0xF0 on reads beyond it. *)
Lemma page_737_twice : fold (sbcs EXCVT_737) (fold (sbcs EXCVT_737) 0xA9) <> fold (sbcs EXCVT_737) 0xA9.
Proof. by vm_compute. Qed.

Lemma page_775_twice : fold (sbcs EXCVT_775) (fold (sbcs EXCVT_775) 0x82) <> fold (sbcs EXCVT_775) 0x82.
Proof. by vm_compute. Qed.

Lemma page_857_short : length EXCVT_857 = 112%nat.
Proof. done. Qed.

End CodePages.
