(* ===== verification/CString.v ===== *)
(** Searching and comparing C strings (musl src/string): strlen, memchr,
    strchrnul, strchr, strnlen, memrchr, strrchr, memcmp, strcmp, strncmp,
    strspn, strcspn, strpbrk.  Several of them read a word at a time; they
    are shown to agree with the byte-wise meaning for every alignment. *)

From stdpp Require Import base tactics list numbers option.
From Stdlib Require Import ZArith Lia.
From S2P Require Import Prelude.

#[local] Open Scope Z_scope.

Module CString.
Import Prelude.

(** ** Memory as the functions see it

    [rd a] is the byte at address [a]. *)
Section Read.
Context (rd : Z -> Z).

Fixpoint le_bytes (n : nat) (a : Z) : Z :=
  match n with
  | O => 0
  | S n' => rd a + 256 * le_bytes n' (a + 1)
  end.

(** A [size_t] read at [a]. *)
Definition word (a : Z) : Z := le_bytes 8 a.

Definition ONES : Z := (2 ^ 64 - 1) / 255.
Definition HIGHS : Z := ONES * (255 / 2 + 1).
Definition HASZERO (x : Z) : bool := negb (Z.land (Z.land (u64 (x - ONES)) (Z.lnot x)) HIGHS =? 0).

(** [for (; s % ALIGN; s++) if (stop( *s)) return s]: the address reached and
    whether the loop returned; at most seven turns. *)
Fixpoint align_loop (fuel : nat) (stop : Z -> bool) (s : Z) : Z * bool :=
  match fuel with
  | O => (s, false)
  | S fuel' =>
    if s mod 8 =? 0 then (s, false)
    else if stop (rd s) then (s, true) else align_loop fuel' stop (s + 1)
  end.

(** [for (; !has( *w); w++)] and [for (; !stop( *s); s++)]; [None]: the fuel is
    used up. *)
Fixpoint word_loop (fuel : nat) (has : Z -> bool) (w : Z) : option Z :=
  match fuel with
  | O => None
  | S fuel' => if has (word w) then Some w else word_loop fuel' has (w + 8)
  end.

Fixpoint byte_loop (fuel : nat) (stop : Z -> bool) (s : Z) : option Z :=
  match fuel with
  | O => None
  | S fuel' => if stop (rd s) then Some s else byte_loop fuel' stop (s + 1)
  end.

Definition strlen (fuel : nat) (a : Z) : option Z :=
  match align_loop 8 (fun c => c =? 0) a with
  | (s, true) => Some (s - a)
  | (s, false) =>
    match word_loop fuel HASZERO s with
    | None => None
    | Some s =>
      match byte_loop fuel (fun c => c =? 0) s with
      | None => None
      | Some s => Some (s - a)
      end
    end
  end.

Definition strchrnul (fuel : nat) (s c : Z) : option Z :=
  let c := u8 c in
  if c =? 0 then match strlen fuel s with None => None | Some n => Some (s + n) end
  else
    let stop x := (x =? 0) || (x =? c) in
    match align_loop 8 stop s with
    | (s, true) => Some s
    | (s, false) =>
      let k := u64 (ONES * c) in
      match word_loop fuel (fun w => HASZERO w || HASZERO (Z.lxor w k)) s with
      | None => None
      | Some s => byte_loop fuel stop s
      end
    end.

(** [Some None] is the null pointer. *)
Definition strchr (fuel : nat) (s c : Z) : option (option Z) :=
  match strchrnul fuel s c with
  | None => None
  | Some r => Some (if rd r =? u8 c then Some r else None)
  end.

(** The loops of [memchr] also count down [n]. *)
Fixpoint mem_align (fuel : nat) (s c : Z) (n : nat) : Z * nat :=
  match fuel with
  | O => (s, n)
  | S fuel' =>
    if negb (Z.land s 7 =? 0) && negb (n =? 0)%nat && negb (rd s =? c) then mem_align fuel' (s + 1) c (n - 1)
    else (s, n)
  end.
Fixpoint mem_words (fuel : nat) (k w : Z) (n : nat) : Z * nat :=
  match fuel with
  | O => (w, n)
  | S fuel' =>
    if (8 <=? n)%nat && negb (HASZERO (Z.lxor (word w) k)) then mem_words fuel' k (w + 8) (n - 8)
    else (w, n)
  end.
Fixpoint mem_bytes (fuel : nat) (s c : Z) (n : nat) : Z * nat :=
  match fuel with
  | O => (s, n)
  | S fuel' => if negb (n =? 0)%nat && negb (rd s =? c) then mem_bytes fuel' (s + 1) c (n - 1) else (s, n)
  end.

Definition memchr (src c : Z) (n : nat) : option Z :=
  let c := u8 c in
  let (s, n) := mem_align 8 src c n in
  let (s, n) :=
    if negb (n =? 0)%nat && negb (rd s =? c) then mem_words n (u64 (ONES * c)) s n else (s, n) in
  let (s, n) := mem_bytes n s c n in
  if (n =? 0)%nat then None else Some s.

Definition strnlen (s : Z) (n : nat) : Z :=
  match memchr s 0 n with Some p => p - s | None => Z.of_nat n end.

Fixpoint memrchr (m c : Z) (n : nat) : option Z :=
  match n with
  | O => None
  | S n' => if rd (m + Z.of_nat n') =? u8 c then Some (m + Z.of_nat n') else memrchr m c n'
  end.

Definition strrchr (fuel : nat) (s c : Z) : option (option Z) :=
  match strlen fuel s with
  | None => None
  | Some n => Some (memrchr s c (Z.to_nat (n + 1)))
  end.

Fixpoint memcmp (l r : Z) (n : nat) : Z :=
  match n with
  | O => 0
  | S n' => if rd l =? rd r then memcmp (l + 1) (r + 1) n' else rd l - rd r
  end.

End Read.

(** The two strings of a comparison need not be in the same object. *)
Section Compare.
Context (rdl rdr : Z -> Z).

Fixpoint strcmp (fuel : nat) (l r : Z) : option Z :=
  match fuel with
  | O => None
  | S fuel' =>
    if (rdl l =? rdr r) && negb (rdl l =? 0) then strcmp fuel' (l + 1) (r + 1) else Some (rdl l - rdr r)
  end.

Fixpoint strncmp_loop (n : nat) (l r : Z) : Z :=
  if negb (rdl l =? 0) && negb (rdr r =? 0) && (rdl l =? rdr r) then
    match n with
    | O => rdl l - rdr r
    | S n' => strncmp_loop n' (l + 1) (r + 1)
    end
  else rdl l - rdr r.

Definition strncmp (l r : Z) (n : nat) : Z :=
  match n with O => 0 | S n' => strncmp_loop n' l r end.

End Compare.

(** ** Sets of bytes: [BITOP] on an array of words *)

Definition bit_set (byteset : list Z) (b : Z) : list Z :=
  let i := Z.to_nat (b / 64) in
  <[i := Z.lor (nth i byteset 0) (Z.shiftl 1 (b mod 64))]> byteset.
Definition bit_get (byteset : list Z) (b : Z) : bool :=
  negb (Z.land (nth (Z.to_nat (b / 64)) byteset 0) (Z.shiftl 1 (b mod 64)) =? 0).

Section Spans.
Context (rd : Z -> Z).

Fixpoint fill (fuel : nat) (c : Z) (byteset : list Z) : option (list Z) :=
  match fuel with
  | O => None
  | S fuel' => if rd c =? 0 then Some byteset else fill fuel' (c + 1) (bit_set byteset (rd c))
  end.

Definition no_bytes : list Z := [0; 0; 0; 0].

Definition strcspn (fuel : nat) (s c : Z) : option Z :=
  if (rd c =? 0) || (rd (c + 1) =? 0) then
    match strchrnul rd fuel s (rd c) with None => None | Some r => Some (r - s) end
  else
    match fill fuel c no_bytes with
    | None => None
    | Some byteset =>
      match byte_loop rd fuel (fun x => (x =? 0) || bit_get byteset x) s with
      | None => None
      | Some r => Some (r - s)
      end
    end.

Definition strspn (fuel : nat) (s c : Z) : option Z :=
  if rd c =? 0 then Some 0
  else if rd (c + 1) =? 0 then
    match byte_loop rd fuel (fun x => negb (x =? rd c)) s with None => None | Some r => Some (r - s) end
  else
    match fill fuel c no_bytes with
    | None => None
    | Some byteset =>
      match byte_loop rd fuel (fun x => (x =? 0) || negb (bit_get byteset x)) s with
      | None => None
      | Some r => Some (r - s)
      end
    end.

Definition strpbrk (fuel : nat) (s b : Z) : option (option Z) :=
  match strcspn fuel s b with
  | None => None
  | Some n => let s := s + n in Some (if rd s =? 0 then None else Some s)
  end.

End Spans.


(** ** The zero-byte test *)

(** [n] copies of a byte. *)
Fixpoint reps (n : nat) (b : Z) : Z :=
  match n with O => 0 | S n' => b + 256 * reps n' b end.
Definition haszero (n : nat) (x : Z) : Z := Z.land (Z.land (x - reps n 1) (Z.lnot x)) (reps n 128).

Lemma reps_ONES : reps 8 1 = ONES /\ reps 8 128 = HIGHS.
Proof. done. Qed.

Lemma reps_mul n b : reps n b = reps n 1 * b.
Proof. induction n as [|n IH]; cbn [reps]; lia. Qed.

(** [land] byte by byte. *)
Lemma land_byte a x b y :
  0 <= a < 256 -> 0 <= b < 256 -> Z.land (a + 256 * x) (b + 256 * y) = Z.land a b + 256 * Z.land x y.
Proof.
  intros Ha Hb.
  assert (E : forall a x, 0 <= a < 256 -> a + 256 * x = Z.lor a (Z.shiftl x 8)) by (intros; rewrite lor_shiftl_add by lia; lia).
  assert (Hab : 0 <= Z.land a b < 256).
  { split; [apply Z.land_nonneg; lia|]. change 256 with (2 ^ 8). apply bits_bound; [apply Z.land_nonneg; lia|lia|].
    intros i Hi. rewrite Z.land_spec, (testbit_high a 8 i) by lia. done. }
  rewrite !E by done. apply Z.bits_inj'. intros i Hi. rewrite Z.land_spec, !Z.lor_spec, !Z.land_spec.
  destruct (Z.lt_ge_cases i 8).
  - rewrite !Z.shiftl_spec_low by lia. by rewrite !orb_false_r.
  - rewrite !Z.shiftl_spec by lia. rewrite Z.land_spec. rewrite (testbit_high a 8 i), (testbit_high b 8 i) by lia. done.
Qed.

Lemma lnot_byte b x : Z.lnot (b + 256 * x) = (255 - b) + 256 * Z.lnot x.
Proof. unfold Z.lnot. lia. Qed.

(** [n] bytes from [a] as a number. *)
Section HasZero.
Context (rd : Z -> Z) (Hrd : forall a, 0 <= rd a < 256).

Lemma le_bytes_range n a : 0 <= le_bytes rd n a < 256 ^ Z.of_nat n.
Proof.
  revert a. induction n as [|n IH]; intros a; cbn [le_bytes]; [lia|].
  assert (H1 := Hrd a). specialize (IH (a + 1)). rewrite Nat2Z.inj_succ, Z.pow_succ_r by lia. lia.
Qed.

Lemma low_byte_test : forallb (fun b => (b =? 0) || (Z.land (Z.land (b - 1) (255 - b)) 128 =? 0)) (Z.of_nat <$> seq 0 256) = true.
Proof. by vm_compute. Qed.

Lemma haszero_step n b x :
  0 <= b < 256 ->
  haszero (S n) (b + 256 * x) =
    if b =? 0 then 128 + 256 * Z.land (Z.land (x - reps n 1 - 1) (Z.lnot x)) (reps n 128) else 256 * haszero n x.
Proof.
  intros Hb. unfold haszero. cbn [reps]. rewrite lnot_byte. destruct (Z.eqb_spec b 0) as [->|Hn].
  - replace (0 + 256 * x - (1 + 256 * reps n 1)) with (255 + 256 * (x - reps n 1 - 1)) by lia.
    rewrite land_byte by lia. change (Z.land 255 (255 - 0)) with 255. rewrite land_byte by lia. done.
  - replace (b + 256 * x - (1 + 256 * reps n 1)) with ((b - 1) + 256 * (x - reps n 1)) by lia.
    rewrite land_byte by lia. assert (Hl : 0 <= Z.land (b - 1) (255 - b) < 256).
    { split; [apply Z.land_nonneg; lia|]. change 256 with (2 ^ 8). apply bits_bound; [apply Z.land_nonneg; lia|lia|].
      intros i Hi. rewrite Z.land_spec, (testbit_high (b - 1) 8 i) by lia. done. }
    rewrite land_byte by lia. assert (E := low_byte_test). rewrite forallb_forall in E.
    assert (Hin : In b (Z.of_nat <$> seq 0 256)) by (apply in_map_iff; exists (Z.to_nat b); split; [lia|apply in_seq; lia]).
    specialize (E b Hin). destruct (Z.eqb_spec b 0); [lia|]. cbn [orb] in E. apply Z.eqb_eq in E. rewrite E. done.
Qed.

Lemma haszero_spec n a : haszero n (le_bytes rd n a) = 0 <-> forall i, 0 <= i < Z.of_nat n -> rd (a + i) <> 0.
Proof.
  revert a. induction n as [|n IH]; intros a; cbn [le_bytes].
  - split; [intros _ i Hi; lia|done].
  - rewrite haszero_step by apply Hrd. destruct (Z.eqb_spec (rd a) 0) as [Ez|Nz].
    + split.
      * intros E. exfalso. set (y := Z.land _ _) in E. lia.
      * intros Hi. exfalso. apply (Hi 0); [lia|]. by rewrite Z.add_0_r.
    + assert (E0 : 256 * haszero n (le_bytes rd n (a + 1)) = 0 <-> haszero n (le_bytes rd n (a + 1)) = 0) by lia.
      rewrite E0, IH. split; intros Hi i Hr.
      * destruct (Z.eq_dec i 0) as [->|]; [by rewrite Z.add_0_r|]. replace (a + i) with (a + 1 + (i - 1)) by lia. apply Hi. lia.
      * replace (a + 1 + i) with (a + (i + 1)) by lia. apply Hi. lia.
Qed.

Lemma HASZERO_haszero x : HASZERO x = negb (haszero 8 x =? 0).
Proof.
  unfold HASZERO, haszero. destruct reps_ONES as [-> ->]. f_equal. f_equal.
  assert (E : forall y z, Z.land (Z.land (u64 y) z) HIGHS = Z.land (Z.land y z) HIGHS); [|apply E].
  intros y z. apply Z.bits_inj'. intros i Hi. rewrite !Z.land_spec. unfold u64.
  destruct (Z.lt_ge_cases i 64); [by rewrite Z.mod_pow2_bits_low by lia|].
  rewrite (testbit_high HIGHS 64 i) by (change HIGHS with 9259542123273814144; lia).
  by rewrite !andb_false_r.
Qed.

(** A word has a zero byte. *)
Lemma HASZERO_word a : HASZERO (word rd a) = true <-> exists i, 0 <= i < 8 /\ rd (a + i) = 0.
Proof.
  rewrite HASZERO_haszero, negb_true_iff, Z.eqb_neq. unfold word. split.
  - intros Hz. destruct (decide (Exists (fun i => rd (a + i) = 0) [0; 1; 2; 3; 4; 5; 6; 7])) as [E|N].
    + rewrite List.Exists_exists in E. destruct E as (i & Hi & E). exists i. split; [|done].
      cbn [In] in Hi. lia.
    + exfalso. apply Hz. apply (haszero_spec 8). intros i Hi E. apply N. apply List.Exists_exists. exists i. split; [|done].
      cbn [In]. lia.
  - intros (i & Hi & E) Hz. exact (proj1 (haszero_spec 8 a) Hz i Hi E).
Qed.

End HasZero.

(** [xor] with copies of [c] moves the test to [c]. *)
Lemma lxor_byte a x b y :
  0 <= a < 256 -> 0 <= b < 256 -> Z.lxor (a + 256 * x) (b + 256 * y) = Z.lxor a b + 256 * Z.lxor x y.
Proof.
  intros Ha Hb.
  assert (E : forall a x, 0 <= a < 256 -> a + 256 * x = Z.lor a (Z.shiftl x 8)) by (intros; rewrite lor_shiftl_add by lia; lia).
  assert (Hab : 0 <= Z.lxor a b < 256).
  { split; [apply Z.lxor_nonneg; lia|]. change 256 with (2 ^ 8). apply bits_bound; [apply Z.lxor_nonneg; lia|lia|].
    intros i Hi. rewrite Z.lxor_spec, (testbit_high a 8 i), (testbit_high b 8 i) by lia. done. }
  rewrite !E by done. apply Z.bits_inj'. intros i Hi. rewrite Z.lor_spec, !Z.lxor_spec, !Z.lor_spec.
  destruct (Z.lt_ge_cases i 8).
  - rewrite !Z.shiftl_spec_low by lia. by rewrite !orb_false_r.
  - rewrite !Z.shiftl_spec by lia. rewrite Z.lxor_spec. rewrite (testbit_high a 8 i), (testbit_high b 8 i) by lia. done.
Qed.

Lemma lxor_eq_0 a b : Z.lxor a b = 0 <-> a = b.
Proof. split; [apply Z.lxor_eq|intros ->; apply Z.lxor_nilpotent]. Qed.

Lemma le_bytes_lxor rd c n a :
  (forall a, 0 <= rd a < 256) -> 0 <= c < 256 ->
  Z.lxor (le_bytes rd n a) (reps n c) = le_bytes (fun x => Z.lxor (rd x) c) n a.
Proof.
  intros Hrd Hc. revert a. induction n as [|n IH]; intros a; cbn [le_bytes reps]; [done|].
  by rewrite lxor_byte, IH by (done || apply Hrd).
Qed.

Lemma HASZERO_xor rd c a :
  (forall a, 0 <= rd a < 256) -> 0 <= c < 256 ->
  HASZERO (Z.lxor (word rd a) (u64 (ONES * c))) = true <-> exists i, 0 <= i < 8 /\ rd (a + i) = c.
Proof.
  intros Hrd Hc.
  assert (Ek : u64 (ONES * c) = reps 8 c).
  { rewrite (reps_mul 8 c). destruct reps_ONES as [-> _]. apply u64_id. change ONES with 72340172838076673. lia. }
  rewrite Ek. unfold word. rewrite le_bytes_lxor by done. fold (word (fun x => Z.lxor (rd x) c) a).
  rewrite HASZERO_word.
  - split; intros (i & Hi & E); exists i; (split; [done|]); by apply lxor_eq_0.
  - intros x. assert (Hx := Hrd x). split; [apply Z.lxor_nonneg; lia|]. change 256 with (2 ^ 8).
    apply bits_bound; [apply Z.lxor_nonneg; lia|lia|].
    intros i Hi. rewrite Z.lxor_spec, (testbit_high (rd x) 8 i), (testbit_high c 8 i) by lia. done.
Qed.


(** ** Searching *)

(** [p] is the first address from [s] on whose byte satisfies [stop]. *)
Definition first_at (rd : Z -> Z) (stop : Z -> bool) (s p : Z) : Prop :=
  s <= p /\ stop (rd p) = true /\ forall q, s <= q < p -> stop (rd q) = false.

Lemma first_at_from rd stop s s' p : first_at rd stop s p -> s <= s' <= p -> first_at rd stop s' p.
Proof. intros (H1 & H2 & H3) Hs. split; [lia|]. split; [done|]. intros q Hq. apply H3. lia. Qed.

Lemma align_loop_spec rd stop p fuel : forall s,
  first_at rd stop s p ->
  exists s' b, align_loop rd fuel stop s = (s', b) /\ s <= s' <= p /\ (b = true -> s' = p).
Proof.
  induction fuel as [|fuel IH]; intros s F; assert (Hsp := proj1 F); cbn [align_loop]; [by exists s, false|].
  destruct (s mod 8 =? 0); [by exists s, false|]. destruct (stop (rd s)) eqn:E.
  - exists s, true. split; [done|]. split; [lia|]. intros _. destruct (Z.eq_dec s p); [done|].
    destruct F as (_ & _ & F). rewrite F in E by lia. done.
  - assert (s <> p) by (intros ->; destruct F as (_ & F & _); congruence).
    destruct (IH (s + 1)) as (s' & b & -> & Hs & Hb); [apply (first_at_from _ _ s); [done|lia]|].
    exists s', b. split; [done|]. split; [lia|done].
Qed.

Lemma word_loop_spec rd stop has p fuel : forall s,
  (forall w, has (word rd w) = true <-> exists i, 0 <= i < 8 /\ stop (rd (w + i)) = true) ->
  first_at rd stop s p -> p - s < 8 * Z.of_nat fuel -> exists s', word_loop rd fuel has s = Some s' /\ s <= s' <= p.
Proof.
  induction fuel as [|fuel IH]; intros s Hh F Hf; assert (Hsp := proj1 F); [lia|]. cbn [word_loop].
  destruct (has (word rd s)) eqn:E; [exists s; split; [done|lia]|].
  assert (Hp : s + 8 <= p).
  { destruct (Z.lt_ge_cases p (s + 8)) as [Hlt|]; [|done]. exfalso.
    assert (Ht : has (word rd s) = true); [|congruence]. apply Hh. exists (p - s). split; [lia|].
    replace (s + (p - s)) with p by lia. apply F. }
  destruct (IH (s + 8)) as (s' & -> & Hs); [done|apply (first_at_from _ _ s); [done|lia]|lia|].
  exists s'. split; [done|lia].
Qed.

Lemma byte_loop_spec rd stop p fuel : forall s,
  first_at rd stop s p -> p - s < Z.of_nat fuel -> byte_loop rd fuel stop s = Some p.
Proof.
  induction fuel as [|fuel IH]; intros s F Hf; assert (Hsp := proj1 F); [lia|]. cbn [byte_loop].
  destruct (stop (rd s)) eqn:E.
  - destruct (Z.eq_dec s p); [congruence|]. destruct F as (_ & _ & F). rewrite F in E by lia. done.
  - assert (s <> p) by (intros ->; destruct F as (_ & F & _); congruence).
    apply IH; [apply (first_at_from _ _ s); [done|lia]|lia].
Qed.

(** A string: the bytes [l], none of them zero, and the terminator. *)
Definition cstring (rd : Z -> Z) (a : Z) (l : list Z) : Prop :=
  Forall (fun c => c <> 0) l /\ forall i, (i <= length l)%nat -> rd (a + Z.of_nat i) = cstr_get l i.

Lemma cstr_get_end l : cstr_get l (length l) = 0.
Proof. unfold cstr_get. by rewrite lookup_ge_None_2. Qed.

Lemma cstr_get_in l i : Forall (fun c => c <> 0) l -> (i < length l)%nat -> cstr_get l i <> 0.
Proof.
  intros F Hi. unfold cstr_get. destruct (lookup_lt_is_Some_2 l i Hi) as (c & E). rewrite E. cbn.
  exact (Forall_lookup_1 _ _ _ _ F E).
Qed.

(** The first byte of a string that satisfies [stop], or its terminator. *)
Fixpoint find_index (stop : Z -> bool) (l : list Z) : nat :=
  match l with
  | [] => 0%nat
  | c :: r => if stop c then 0%nat else S (find_index stop r)
  end.

Lemma find_index_spec stop l :
  (find_index stop l <= length l)%nat /\
  (forall i, (i < find_index stop l)%nat -> stop (cstr_get l i) = false) /\
  ((find_index stop l < length l)%nat -> stop (cstr_get l (find_index stop l)) = true).
Proof.
  induction l as [|c l (H1 & H2 & H3)]; cbn [find_index length]; [by split; [|split; [lia|lia]]|].
  destruct (stop c) eqn:E.
  - split; [lia|]. split; [lia|]. intros _. done.
  - split; [lia|]. split.
    + intros [|i] Hi; [done|]. apply (H2 i). lia.
    + intros Hi. apply H3. lia.
Qed.

Lemma first_in_string rd a l stop :
  cstring rd a l -> stop 0 = true -> first_at rd stop a (a + Z.of_nat (find_index stop l)).
Proof.
  intros [Hn Hg] H0. destruct (find_index_spec stop l) as (F1 & F2 & F3). set (k := find_index stop l) in *.
  split; [lia|]. split.
  - rewrite Hg by done. destruct (Nat.eq_dec k (length l)) as [->|Hk]; [by rewrite cstr_get_end|apply F3; lia].
  - intros q Hq. replace q with (a + Z.of_nat (Z.to_nat (q - a))) by lia. rewrite Hg by lia. apply F2. lia.
Qed.

Lemma find_index_end stop l : (forall c, c <> 0 -> stop c = false) -> Forall (fun c => c <> 0) l -> find_index stop l = length l.
Proof.
  intros Hs. induction l as [|c l IH]; intros F; [done|]. cbn [find_index length].
  rewrite Hs by (exact (Forall_inv F)). f_equal. apply IH. exact (Forall_inv_tail F).
Qed.

Section Strings.
Context (rd : Z -> Z) (Hrd : forall a, 0 <= rd a < 256).

Lemma strlen_spec a l fuel : cstring rd a l -> (length l < fuel)%nat -> strlen rd fuel a = Some (Z.of_nat (length l)).
Proof.
  intros C Hf. set (stop := fun c => c =? 0).
  assert (Hend : find_index stop l = length l).
  { apply find_index_end; [|apply C]. intros c Hc. by apply Z.eqb_neq. }
  assert (F : first_at rd stop a (a + Z.of_nat (length l))) by (rewrite <- Hend; by apply first_in_string).
  set (p := a + Z.of_nat (length l)) in *. unfold strlen. fold stop.
  destruct (align_loop_spec rd stop p 8 a F) as (s1 & b & E1 & H1 & Hb). rewrite E1. destruct b; [rewrite Hb by done; f_equal; lia|].
  assert (F1 := first_at_from _ _ _ s1 _ F ltac:(lia)).
  destruct (word_loop_spec rd stop HASZERO p fuel s1) as (s2 & E2 & H2); [|done|lia|].
  { intros w. rewrite (HASZERO_word rd Hrd). unfold stop. by setoid_rewrite Z.eqb_eq. }
  rewrite E2. rewrite (byte_loop_spec rd stop p fuel s2); [f_equal; lia| |lia].
  apply (first_at_from _ _ s1); [done|lia].
Qed.

Lemma strchrnul_spec a l c fuel :
  cstring rd a l -> (length l < fuel)%nat ->
  strchrnul rd fuel a c = Some (a + Z.of_nat (find_index (fun x => x =? u8 c) l)).
Proof.
  intros C Hf. unfold strchrnul. destruct (Z.eqb_spec (u8 c) 0) as [Ez|Nz].
  - rewrite (strlen_spec a l fuel C Hf). rewrite Ez. do 3 f_equal. symmetry. apply find_index_end; [|apply C].
    intros x Hx. by apply Z.eqb_neq.
  - set (stop := fun x => (x =? 0) || (x =? u8 c)).
    assert (Hi : find_index (fun x => x =? u8 c) l = find_index stop l).
    { destruct C as [Hn _]. clear -Hn. induction l as [|x l IH]; [done|]. cbn [find_index]. unfold stop at 1.
      assert (Hx := Forall_inv Hn). cbv beta in Hx. destruct (Z.eqb_spec x 0); [done|]. cbn [orb].
      by rewrite IH by (exact (Forall_inv_tail Hn)). }
    rewrite Hi. assert (F := first_in_string rd a l stop C eq_refl). assert (Hle := proj1 (find_index_spec stop l)).
    set (p := a + Z.of_nat (find_index stop l)) in *.
    destruct (align_loop_spec rd stop p 8 a F) as (s1 & b & E1 & H1 & Hb). rewrite E1. destruct b; [rewrite Hb by done; done|].
    assert (F1 := first_at_from _ _ _ s1 _ F ltac:(lia)).
    destruct (word_loop_spec rd stop (fun w => HASZERO w || HASZERO (Z.lxor w (u64 (ONES * u8 c)))) p fuel s1) as (s2 & E2 & H2); [|done|lia|].
    { intros w. rewrite orb_true_iff, (HASZERO_word rd Hrd), (HASZERO_xor rd (u8 c) w Hrd (u8_range c)). unfold stop.
      setoid_rewrite orb_true_iff. setoid_rewrite Z.eqb_eq. split.
      - intros [(i & Hi1 & E)|(i & Hi1 & E)]; exists i; auto.
      - intros (i & Hi1 & [E|E]); [left|right]; exists i; auto. }
    rewrite E2. apply (byte_loop_spec rd stop p fuel s2); [|lia].
    apply (first_at_from _ _ s1); [done|lia].
Qed.

(** [memchr], byte by byte. *)
Fixpoint find_byte (s c : Z) (n : nat) : option Z :=
  match n with
  | O => None
  | S n' => if rd s =? c then Some s else find_byte (s + 1) c n'
  end.

Lemma find_byte_skip c k : forall s n,
  (k <= n)%nat -> (forall i, 0 <= i < Z.of_nat k -> rd (s + i) <> c) -> find_byte s c n = find_byte (s + Z.of_nat k) c (n - k).
Proof.
  induction k as [|k IH]; intros s n Hk Hi; [by rewrite Z.add_0_r, Nat.sub_0_r|].
  destruct n as [|n]; [lia|]. cbn [find_byte]. assert (H0 := Hi 0 ltac:(lia)). rewrite Z.add_0_r in H0.
  destruct (Z.eqb_spec (rd s) c); [done|]. rewrite (IH (s + 1) n); [|lia|].
  - replace (S n - S k)%nat with (n - k)%nat by lia. f_equal. lia.
  - intros i Hr. replace (s + 1 + i) with (s + (i + 1)) by lia. apply Hi. lia.
Qed.

Lemma mem_align_spec c fuel : forall s n,
  let r := mem_align rd fuel s c n in find_byte s c n = find_byte r.1 c r.2 /\ (r.2 <= n)%nat.
Proof.
  induction fuel as [|fuel IH]; intros s n; cbn [mem_align]; [done|].
  destruct (negb (Z.land s 7 =? 0) && negb (n =? 0)%nat && negb (rd s =? c)) eqn:E; [|done].
  apply andb_prop in E as [[_ E1%negb_true_iff%Nat.eqb_neq]%andb_prop E2%negb_true_iff%Z.eqb_neq].
  destruct (IH (s + 1) (n - 1)%nat) as [IH1 IH2]. cbv zeta. split; [|lia]. rewrite <- IH1.
  apply (find_byte_skip c 1 s n); [lia|]. intros i Hi. replace (s + i) with s by lia. done.
Qed.

Lemma mem_words_spec c fuel : 0 <= c < 256 -> forall s n,
  let r := mem_words rd fuel (u64 (ONES * c)) s n in find_byte s c n = find_byte r.1 c r.2 /\ (r.2 <= n)%nat.
Proof.
  intros Hc. induction fuel as [|fuel IH]; intros s n; cbn [mem_words]; [done|].
  destruct ((8 <=? n)%nat && negb (HASZERO (Z.lxor (word rd s) (u64 (ONES * c))))) eqn:E; [|done].
  apply andb_prop in E as [E1%Nat.leb_le E2%negb_true_iff].
  destruct (IH (s + 8) (n - 8)%nat) as [IH1 IH2]. cbv zeta. split; [|lia]. rewrite <- IH1.
  apply (find_byte_skip c 8 s n); [lia|]. intros i Hi Ei.
  assert (Ht := proj2 (HASZERO_xor rd c s Hrd Hc)). rewrite E2 in Ht. discriminate Ht. exists i. split; [lia|done].
Qed.

Lemma mem_bytes_spec c fuel : forall s n,
  (n <= fuel)%nat -> let r := mem_bytes rd fuel s c n in (if (r.2 =? 0)%nat then None else Some r.1) = find_byte s c n.
Proof.
  induction fuel as [|fuel IH]; intros s n Hn; cbn [mem_bytes].
  - assert (n = 0%nat) as -> by lia. done.
  - destruct n as [|n]; [done|]. cbn [Nat.eqb negb andb find_byte]. destruct (Z.eqb_spec (rd s) c); cbn [negb]; [done|].
    rewrite <- (IH (s + 1) n) by lia. cbn [Nat.sub]. by rewrite Nat.sub_0_r.
Qed.

Lemma memchr_spec src c n : memchr rd src c n = find_byte src (u8 c) n.
Proof.
  unfold memchr. assert (Hc := u8_range c). destruct (mem_align_spec (u8 c) 8 src n) as [E1 _].
  destruct (mem_align rd 8 src (u8 c) n) as [s1 n1]. cbn [fst snd] in E1. rewrite E1.
  set (q := if negb (n1 =? 0)%nat && negb (rd s1 =? u8 c) then _ else _).
  assert (E2 : find_byte s1 (u8 c) n1 = find_byte q.1 (u8 c) q.2).
  { subst q. destruct (negb (n1 =? 0)%nat && negb (rd s1 =? u8 c)); [|done]. apply mem_words_spec. done. }
  destruct q as [s2 n2]. cbn [fst snd] in E2. rewrite E2.
  rewrite <- (mem_bytes_spec (u8 c) n2 s2 n2) by done. by destruct (mem_bytes rd n2 s2 (u8 c) n2).
Qed.

End Strings.


(** *** Sets of bytes *)

Lemma bit_get_set bs b x :
  length bs = 4%nat -> 0 <= b < 256 -> 0 <= x < 256 -> bit_get (bit_set bs b) x = (x =? b) || bit_get bs x.
Proof.
  intros Hl Hb Hx. unfold bit_get, bit_set. rewrite !bit_test by (apply Z.mod_pos_bound; lia).
  assert (Hb4 : 0 <= b / 64 < 4) by zdm. assert (Hx4 : 0 <= x / 64 < 4) by zdm.
  rewrite !nth_lookup. destruct (Z.eq_dec (b / 64) (x / 64)) as [E|N].
  - rewrite E. rewrite list_lookup_insert_eq by lia. match goal with |- context [default 0 (Some ?v)] => change (default 0 (Some v)) with v end.
    rewrite ?nth_lookup, Z.lor_spec, orb_comm. f_equal.
    rewrite Z.shiftl_1_l. destruct (Z.eqb_spec x b) as [->|Hne].
    + apply Z.pow2_bits_true. zdm.
    + apply Z.pow2_bits_false. zdm.
  - rewrite list_lookup_insert_ne by lia. destruct (Z.eqb_spec x b) as [->|]; [done|]. done.
Qed.

Lemma length_bit_set bs b : length (bit_set bs b) = length bs.
Proof. unfold bit_set. apply length_insert. Qed.

Lemma bit_get_none x : bit_get no_bytes x = false.
Proof.
  unfold bit_get. rewrite nth_lookup. destruct (no_bytes !! Z.to_nat (x / 64)) as [w|] eqn:E; [|done].
  assert (F : Forall (fun w => w = 0) no_bytes) by (repeat constructor). by rewrite (Forall_lookup_1 _ _ _ _ F E).
Qed.

Section Sets.
Context (rd : Z -> Z) (Hrd : forall a, 0 <= rd a < 256).

Lemma fill_spec l : forall fuel c bs,
  cstring rd c l -> (length l < fuel)%nat -> length bs = 4%nat ->
  exists bs', fill rd fuel c bs = Some bs' /\
    forall x, 0 <= x < 256 -> bit_get bs' x = bool_decide (x ∈ l) || bit_get bs x.
Proof.
  induction l as [|b l IH]; intros fuel c bs [Hn Hg] Hf Hl; (destruct fuel as [|fuel]; [simpl in Hf; lia|]); cbn [fill].
  - assert (H0 := Hg 0%nat ltac:(done)). rewrite Z.add_0_r in H0. rewrite H0. exists bs. split; [done|]. intros x Hx.
    by rewrite (bool_decide_eq_false_2 (x ∈ [])) by apply not_elem_of_nil.
  - assert (H0 := Hg 0%nat ltac:(simpl; lia)). rewrite Z.add_0_r in H0. change (cstr_get (b :: l) 0) with b in H0. rewrite H0.
    assert (Hb := Forall_inv Hn). cbv beta in Hb. destruct (Z.eqb_spec b 0); [done|].
    assert (Hb2 : 0 <= b < 256) by (rewrite <- H0; apply Hrd).
    destruct (IH fuel (c + 1) (bit_set bs b)) as (bs' & E & Hbits).
    + split; [exact (Forall_inv_tail Hn)|]. intros i Hi. replace (c + 1 + Z.of_nat i) with (c + Z.of_nat (S i)) by lia.
      rewrite Hg by (simpl; lia). done.
    + simpl in Hf. lia.
    + by rewrite length_bit_set.
    + exists bs'. split; [done|]. intros x Hx. rewrite Hbits, bit_get_set by done.
      rewrite orb_assoc. f_equal. destruct (Z.eqb_spec x b) as [->|Hne].
      * rewrite (bool_decide_eq_true_2 (b ∈ b :: l)) by left. apply orb_true_r.
      * rewrite orb_false_r. apply bool_decide_ext. rewrite elem_of_cons. naive_solver.
Qed.

Lemma find_index_ext f g l : (forall c, c ∈ l -> f c = g c) -> find_index f l = find_index g l.
Proof.
  induction l as [|c l IH]; intros E; [done|]. cbn [find_index]. rewrite (E c) by left. rewrite IH; [done|].
  intros x Hx. apply E. by right.
Qed.

Lemma cstring_byte a l x : cstring rd a l -> x ∈ l -> 0 <= x < 256 /\ x <> 0.
Proof.
  intros [Hn Hg] Hx. apply list_elem_of_lookup in Hx as (i & Hi). assert (Hl := lookup_lt_Some _ _ _ Hi).
  split; [|exact (Forall_lookup_1 _ _ _ _ Hn Hi)]. assert (E := Hg i ltac:(lia)). unfold cstr_get in E. rewrite Hi in E.
  cbn in E. rewrite <- E. apply Hrd.
Qed.

Lemma strcspn_spec s l c cs fuel :
  cstring rd s l -> cstring rd c cs -> (length l < fuel)%nat -> (length cs < fuel)%nat ->
  strcspn rd fuel s c = Some (Z.of_nat (find_index (fun x => bool_decide (x ∈ cs)) l)).
Proof.
  intros Hs Hc Hf Hfc. unfold strcspn. destruct Hc as [Hn Hg] eqn:EHc. clear EHc. assert (C : cstring rd c cs) by done.
  assert (H0 := Hg 0%nat ltac:(lia)). rewrite Z.add_0_r in H0.
  destruct ((rd c =? 0) || (rd (c + 1) =? 0)) eqn:E.
  - rewrite (strchrnul_spec rd Hrd s l) by done. f_equal. rewrite Z.add_simpl_l. f_equal. apply find_index_ext.
    intros x Hx. destruct (cstring_byte s l x Hs Hx) as [Hx1 Hx2]. rewrite u8_id by apply Hrd. rewrite H0.
    destruct cs as [|b [|b2 cs]].
    + rewrite (bool_decide_eq_false_2 (x ∈ [])) by apply not_elem_of_nil. by apply Z.eqb_neq.
    + change (cstr_get [b] 0) with b. apply Bool.eq_iff_eq_true. by rewrite Z.eqb_eq, bool_decide_eq_true, list_elem_of_singleton.
    + exfalso. assert (H1 := Hg 1%nat ltac:(simpl; lia)). change (cstr_get (b :: b2 :: cs) 1) with b2 in H1.
      change (cstr_get (b :: b2 :: cs) 0) with b in H0. change (Z.of_nat 1) with 1 in H1. rewrite H0, H1 in E.
      assert (Hb := Forall_inv Hn). assert (Hb2 := Forall_inv (Forall_inv_tail Hn)). cbv beta in Hb, Hb2.
      destruct (Z.eqb_spec b 0), (Z.eqb_spec b2 0); done.
  - destruct (fill_spec cs fuel c no_bytes C Hfc eq_refl) as (bs & Ef & Hbits). rewrite Ef.
    set (stop := fun x => (x =? 0) || bit_get bs x).
    assert (F := first_in_string rd s l stop Hs eq_refl). assert (Hle := proj1 (find_index_spec stop l)).
    rewrite (byte_loop_spec rd stop _ fuel s F) by lia. f_equal. rewrite Z.add_simpl_l. f_equal. apply find_index_ext.
    intros x Hx. destruct (cstring_byte s l x Hs Hx) as [Hx1 Hx2]. unfold stop. destruct (Z.eqb_spec x 0); [done|].
    rewrite Hbits by done. cbn [orb]. by rewrite bit_get_none, orb_false_r.
Qed.

Lemma strspn_spec s l c cs fuel :
  cstring rd s l -> cstring rd c cs -> (length l < fuel)%nat -> (length cs < fuel)%nat ->
  strspn rd fuel s c = Some (Z.of_nat (find_index (fun x => negb (bool_decide (x ∈ cs))) l)).
Proof.
  intros Hs C Hf Hfc. unfold strspn. assert (Hg := proj2 C). assert (Hn := proj1 C).
  assert (H0 := Hg 0%nat ltac:(lia)). rewrite Z.add_0_r in H0.
  destruct cs as [|b cs].
  { change (cstr_get [] 0) with 0 in H0. rewrite H0. cbn [Z.eqb]. destruct l as [|x l]; [done|]. cbn [find_index].
    by rewrite (bool_decide_eq_false_2 (x ∈ [])) by apply not_elem_of_nil. }
  change (cstr_get (b :: cs) 0) with b in H0. rewrite H0. assert (Hb := Forall_inv Hn). cbv beta in Hb.
  destruct (Z.eqb_spec b 0); [done|]. assert (H1 := Hg 1%nat ltac:(simpl; lia)). change (Z.of_nat 1) with 1 in H1.
  destruct cs as [|b2 cs].
  - change (cstr_get [b] 1) with 0 in H1. rewrite H1. cbn [Z.eqb]. set (stop := fun x => negb (x =? b)).
    assert (Hst0 : stop 0 = true) by (unfold stop; destruct (Z.eqb_spec 0 b); [lia|done]).
    assert (F := first_in_string rd s l stop Hs Hst0). assert (Hle := proj1 (find_index_spec stop l)).
    rewrite (byte_loop_spec rd stop _ fuel s F) by lia. f_equal. rewrite Z.add_simpl_l. f_equal. apply find_index_ext.
    intros x Hx. unfold stop. f_equal. apply Bool.eq_iff_eq_true. by rewrite Z.eqb_eq, bool_decide_eq_true, list_elem_of_singleton.
  - change (cstr_get (b :: b2 :: cs) 1) with b2 in H1. rewrite H1. assert (Hb2 := Forall_inv (Forall_inv_tail Hn)). cbv beta in Hb2.
    destruct (Z.eqb_spec b2 0); [done|].
    destruct (fill_spec (b :: b2 :: cs) fuel c no_bytes C Hfc eq_refl) as (bs & Ef & Hbits). rewrite Ef.
    set (stop := fun x => (x =? 0) || negb (bit_get bs x)).
    assert (F := first_in_string rd s l stop Hs eq_refl). assert (Hle := proj1 (find_index_spec stop l)).
    rewrite (byte_loop_spec rd stop _ fuel s F) by lia. f_equal. rewrite Z.add_simpl_l. f_equal. apply find_index_ext.
    intros x Hx. destruct (cstring_byte s l x Hs Hx) as [Hx1 Hx2]. unfold stop. destruct (Z.eqb_spec x 0); [done|].
    rewrite Hbits by done. cbn [orb]. f_equal. by rewrite bit_get_none, orb_false_r.
Qed.

End Sets.


(** ** Strings as lists

    A string object of its own: offset [a] of the list, zeros outside. *)
Definition rd_list (l : list Z) (a : Z) : Z := if 0 <=? a then cstr_get l (Z.to_nat a) else 0.

Lemma rd_list_byte l a : byte_list l -> 0 <= rd_list l a < 256.
Proof.
  intros Hl. unfold rd_list. destruct (0 <=? a); [|lia]. unfold cstr_get.
  destruct (l !! _) as [c|] eqn:E; cbn; [|lia]. exact (Forall_lookup_1 _ _ _ _ Hl E).
Qed.

Lemma rd_list_cstring l : Forall (fun c => c <> 0) l -> cstring (rd_list l) 0 l.
Proof. intros Hl. split; [done|]. intros i Hi. unfold rd_list. destruct (Z.leb_spec 0 (0 + Z.of_nat i)); [|lia]. f_equal. lia. Qed.

(** ** Properties *)

(** C25: Reading a word at a time is invisible: for every alignment of the
    arguments, [strlen] returns the length of the string, [strchrnul] the
    first occurrence of the character or the terminator, and [memchr] what
    searching the [n] bytes one by one returns. *)
Theorem word_search (rd : Z -> Z) a l c n fuel :
  (forall x, 0 <= rd x < 256) -> cstring rd a l -> (length l < fuel)%nat ->
  strlen rd fuel a = Some (Z.of_nat (length l)) /\
  strchrnul rd fuel a c = Some (a + Z.of_nat (find_index (fun x => x =? u8 c) l)) /\
  memchr rd a c n = find_byte rd a (u8 c) n.
Proof.
  intros Hrd C Hf. split; [by apply strlen_spec|]. split; [by apply strchrnul_spec|by apply memchr_spec].
Qed.

Definition hello : list Z := [104; 101; 108; 108; 111; 44; 32; 119; 111; 114; 108; 100].
Lemma hello_bytes : Forall (fun c => c <> 0) hello /\ byte_list hello.
Proof. split; repeat constructor; lia. Qed.

Lemma word_search_witness :
  strlen (rd_list hello) 13 0 = Some 12 /\ strchrnul (rd_list hello) 13 0 119 = Some 7 /\
  memchr (rd_list hello) 0 111 12 = Some 4.
Proof.
  destruct (word_search (rd_list hello) 0 hello 119 12 13) as (E1 & E2 & _).
  - intros x. apply rd_list_byte. apply hello_bytes.
  - apply rd_list_cstring. apply hello_bytes.
  - cbn. lia.
  - split; [exact E1|]. split; [exact E2|]. vm_compute. reflexivity.
Defined.

(** [strcspn] and [strspn] return the length of the longest prefix whose
    bytes are all outside (inside) the given set, whether the set is empty,
    a single byte or kept in the bit array. *)
Theorem span_lengths (rd : Z -> Z) s l c cs fuel :
  (forall x, 0 <= rd x < 256) -> cstring rd s l -> cstring rd c cs -> (length l < fuel)%nat -> (length cs < fuel)%nat ->
  (exists n, strcspn rd fuel s c = Some (Z.of_nat n) /\ Forall (fun x => x ∉ cs) (take n l) /\
     forall x, l !! n = Some x -> x ∈ cs) /\
  (exists n, strspn rd fuel s c = Some (Z.of_nat n) /\ Forall (fun x => x ∈ cs) (take n l) /\
     forall x, l !! n = Some x -> x ∉ cs).
Proof.
  intros Hrd Hs Hc Hf Hfc.
  assert (G : forall f : Z -> bool, Forall (fun x => f x = false) (take (find_index f l) l) /\
              forall x, l !! find_index f l = Some x -> f x = true).
  { intros f. clear. induction l as [|y l [IH1 IH2]]; cbn [find_index]; [done|]. destruct (f y) eqn:E; cbn [take].
    - split; [done|]. by intros x [= <-].
    - split; [by constructor|]. intros x Hx. by apply IH2. }
  split; eexists.
  - split; [by apply strcspn_spec|]. destruct (G (fun x => bool_decide (x ∈ cs))) as [G1 G2]. split.
    + revert G1. apply Forall_impl. intros x Hx. by apply bool_decide_eq_false in Hx.
    + intros x Hx. specialize (G2 x Hx). by apply bool_decide_eq_true in G2.
  - split; [by apply strspn_spec|]. destruct (G (fun x => negb (bool_decide (x ∈ cs)))) as [G1 G2]. split.
    + revert G1. apply Forall_impl. intros x Hx. cbv beta in Hx. apply negb_false_iff, bool_decide_eq_true in Hx. done.
    + intros x Hx. specialize (G2 x Hx). cbv beta in G2. by apply negb_true_iff, bool_decide_eq_false in G2.
Qed.

(** The set "ol," lies behind the string. *)
Lemma span_lengths_witness :
  exists n, strcspn (rd_list (hello ++ [0; 44; 111])) 13 0 13 = Some (Z.of_nat n) /\ Forall (fun x => x ∉ [44; 111]) (take n hello).
Proof.
  set (m := hello ++ [0; 44; 111]).
  destruct (span_lengths (rd_list m) 0 hello 13 [44; 111] 13) as [(n & E & F & _) _].
  - intros x. apply rd_list_byte. subst m. apply byte_list_app. split; [apply hello_bytes|]. repeat constructor; lia.
  - split; [apply hello_bytes|]. intros i Hi. change (length hello) with 12%nat in Hi.
    do 13 (destruct i as [|i]; [reflexivity|]). lia.
  - split; [repeat constructor; lia|]. intros i Hi. do 3 (destruct i as [|i]; [reflexivity|]). simpl in Hi. lia.
  - cbn. lia.
  - cbn. lia.
  - exists n. split; [exact E|exact F].
Defined.


End CString.
