(* ===== verification/Factor.v ===== *)
(** Words, their maximal suffixes and their periods: what the two-way string
    matching of musl (src/string: strstr.c, memmem.c) rests on.  A word is
    given by its letters [x 0], ..., [x (l - 1)]. *)

From stdpp Require Import base tactics numbers.
From Stdlib Require Import ZArith Lia.
From S2P Require Import Prelude.

#[local] Open Scope Z_scope.

Module Factor.
Import Prelude.

(** A strict total order on the letters. *)
Class LetterOrder (lt : Z -> Z -> Prop) : Prop := {
  lo_irrefl a : ~ lt a a;
  lo_trans a b c : lt a b -> lt b c -> lt a c;
  lo_total a b : lt a b \/ a = b \/ lt b a
}.
#[export] Instance lt_order : LetterOrder Z.lt.
Proof. split; intros; lia. Qed.
#[export] Instance flip_order : LetterOrder (fun a b => b < a).
Proof. split; intros; lia. Qed.

Section Word.
Context (x : Z -> Z) (l : Z).

(** The suffixes at [s] and [c] have their first difference at [i]. *)
Definition agree (s c i : Z) : Prop := forall j, 0 <= j < i -> x (s + j) = x (c + j).
Definition period (c p : Z) : Prop := forall i, c <= i -> i + p < l -> x i = x (i + p).

Section Order.
Context (lt : Z -> Z -> Prop) `{LetterOrder lt}.

Definition below (s c : Z) : Prop := exists i, 0 <= i /\ s + i < l /\ c + i < l /\ agree s c i /\ lt (x (s + i)) (x (c + i)).

(** The suffix at [c] is the greatest one, a proper prefix being smaller. *)
Record maximal (c : Z) : Prop := {
  mx_range : 0 <= c < l;
  mx_left s : 0 <= s < c -> below s c;
  mx_right s : c < s < l -> agree s c (l - s) \/ below s c
}.

(** ** Computing it

    [jp + k] letters have been looked at; from [c = ip + 1] on they have the
    period [p], and the first period is greater than each of its suffixes. *)
Record scanning (c jp k p : Z) : Prop := {
  sc_c : 0 <= c;
  sc_k : 1 <= k <= p;
  sc_jp : exists q, 1 <= q /\ jp = c - 1 + p * q;
  sc_le : jp + k <= l;
  sc_left s : 0 <= s < c -> below s c;
  sc_first b : 0 < b < p -> exists j, 0 <= j /\ b + j < p /\ agree (c + b) c j /\ lt (x (c + b + j)) (x (c + j));
  sc_period i : c <= i -> i + p < jp + k -> x i = x (i + p)
}.

Lemma scanning_init : 0 < l -> scanning 0 0 1 1.
Proof. intros Hl. split; try lia. exists 1. lia. Qed.

Lemma scanning_mult c jp k p a t :
  scanning c jp k p -> 0 <= a -> 0 <= t -> c + a + p * t < jp + k -> x (c + a) = x (c + a + p * t).
Proof.
  intros Hs Ha Ht. pose proof (sc_k _ _ _ _ Hs). revert t Ht. apply (natlike_ind (fun t => c + a + p * t < jp + k -> x (c + a) = x (c + a + p * t))).
  - intros _. f_equal. lia.
  - intros t Ht IH Hb. rewrite Z.mul_succ_r in *. assert (0 <= p * t) by nia. rewrite IH by lia. rewrite (sc_period _ _ _ _ Hs) by lia. f_equal. lia.
Qed.

(** The letter that continues the period. *)
Lemma scanning_next c jp k p : scanning c jp k p -> x (c - 1 + k) = x (jp + k - p) .
Proof.
  intros Hs. destruct (sc_jp _ _ _ _ Hs) as (q & Hq & ->). pose proof (sc_k _ _ _ _ Hs).
  pose proof (scanning_mult _ _ _ _ (k - 1) (q - 1) Hs ltac:(lia) ltac:(lia) ltac:(lia)) as E.
  replace (c + (k - 1)) with (c - 1 + k) in E by lia. rewrite E. f_equal. lia.
Qed.

Lemma scanning_equal c jp k p :
  scanning c jp k p -> jp + k < l -> x (c - 1 + k) = x (jp + k) ->
  if k =? p then scanning c (jp + p) 1 p else scanning c jp (k + 1) p.
Proof.
  intros Hs Hm Hx. pose proof (scanning_next _ _ _ _ Hs) as Hn. destruct Hs as [Hc Hk (q & Hq & Hj) Hle Hl Hf Hp].
  assert (Hp' : forall i, c <= i -> i + p < jp + k + 1 -> x i = x (i + p)).
  { intros i Hi Hb. destruct (Z.eq_dec (i + p) (jp + k)) as [E|]; [|apply Hp; lia]. rewrite E. rewrite <- Hx, Hn. f_equal. lia. }
  destruct (Z.eqb_spec k p); split; try lia; try done.
  - exists (q + 1). lia.
  - intros i Hi Hb. apply Hp'; lia.
  - exists q. lia.
  - intros i Hi Hb. apply Hp'; lia.
Qed.

Lemma scanning_unfold c jp k p b :
  scanning c jp k p -> 0 <= b -> c + b < jp + k -> exists a r, b = r + p * a /\ 0 <= a /\ 0 <= r < p /\
    forall j, 0 <= j -> c + b + j < jp + k -> x (c + b + j) = x (c + r + j).
Proof.
  intros Hs Hb Hlt. pose proof (sc_k _ _ _ _ Hs). exists (b / p), (b mod p).
  pose proof (Z.div_mod b p ltac:(lia)). pose proof (Z.mod_pos_bound b p ltac:(lia)). pose proof (Z.div_pos b p ltac:(lia) ltac:(lia)).
  split; [lia|]. split; [done|]. split; [done|]. intros j Hj Hr.
  replace (c + b + j) with (c + (b mod p + j) + p * (b / p)) by lia. rewrite <- (scanning_mult c jp k p) by (done || lia). f_equal. lia.
Qed.

(** A greater letter starts a new suffix at the last, unfinished period. *)
Section Less.
Context (c jp k p : Z) (Hs : scanning c jp k p) (Hm : jp + k < l) (Hx : lt (x (c - 1 + k)) (x (jp + k))).

Lemma less_period j : 0 <= j < k - 1 -> x (jp + 1 + j) = x (c + j).
Proof.
  intros Hj. destruct (sc_jp _ _ _ _ Hs) as (q & Hq & Ej). pose proof (scanning_mult c jp k p j q Hs) as E.
  rewrite E by lia. f_equal. lia.
Qed.
Lemma less_agree s : 0 <= s < jp + 1 -> agree s c k -> below s (jp + 1).
Proof.
  intros Hr Ha. pose proof (sc_k _ _ _ _ Hs). exists (k - 1). split_and!; try lia.
  - intros j Hj. rewrite less_period by lia. apply Ha. lia.
  - rewrite Ha by lia. replace (c + (k - 1)) with (c - 1 + k) by lia. replace (jp + 1 + (k - 1)) with (jp + k) by lia. done.
Qed.
Lemma less_mismatch s i : 0 <= s < jp + 1 -> 0 <= i -> agree s c i -> lt (x (s + i)) (x (c + i)) -> below s (jp + 1).
Proof.
  intros Hr Hi Ha Hlt. pose proof (sc_k _ _ _ _ Hs). destruct (Z_lt_ge_dec i k) as [Hik|]; [|apply less_agree; [lia|intros j Hj; apply Ha; lia]].
  exists i. split_and!; try lia.
  - intros j Hj. rewrite less_period by lia. apply Ha. lia.
  - destruct (Z.eq_dec i (k - 1)) as [->|]; [|by rewrite less_period by lia].
    apply (lo_trans _ _ _ Hlt). replace (c + (k - 1)) with (c - 1 + k) by lia. replace (jp + 1 + (k - 1)) with (jp + k) by lia. done.
Qed.

Lemma scanning_less : scanning (jp + 1) (jp + 1) 1 1.
Proof.
  destruct (sc_jp _ _ _ _ Hs) as (q & Hq & Ej). pose proof (sc_k _ _ _ _ Hs) as Hk. pose proof (sc_c _ _ _ _ Hs) as Hc.
  assert (Hpq : 1 <= p * q) by nia. split; try lia; [exists 1; lia|]. intros s Hr. destruct (Z_lt_ge_dec s c) as [Hsc|Hsc].
  { destruct (sc_left _ _ _ _ Hs s ltac:(lia)) as (i & Hi & _ & _ & Ha & Hlt). by apply (less_mismatch s i). }
  destruct (scanning_unfold c jp k p (s - c) Hs) as (a & r & Er & Ha & Hrp & Hu); [lia|lia|].
  assert (Haq : a <= q - 1) by nia.
  assert (Hu' : forall j, 0 <= j -> r + j < p \/ r = 0 /\ j < k -> x (s + j) = x (c + r + j)).
  { intros j Hj Hb. rewrite <- Hu by nia. f_equal. lia. }
  destruct (Z.eq_dec r 0) as [->|Hr0].
  - apply less_agree; [lia|]. intros j Hj. rewrite Hu' by lia. f_equal. lia.
  - destruct (sc_first _ _ _ _ Hs r ltac:(lia)) as (j & Hj & Hb & Hag & Hlt).
    apply (less_mismatch s j); [lia|lia| |by rewrite Hu' by lia]. intros j' Hj'. rewrite Hu' by lia. by apply Hag.
Qed.
End Less.

(** A smaller letter makes all that was read one period. *)
Lemma scanning_greater c jp k p :
  scanning c jp k p -> jp + k < l -> lt (x (jp + k)) (x (c - 1 + k)) -> scanning c (jp + k) 1 (jp + k - (c - 1)).
Proof.
  intros Hs Hm Hx. destruct (sc_jp _ _ _ _ Hs) as (q & Hq & Ej). pose proof (sc_k _ _ _ _ Hs) as Hk. pose proof (sc_c _ _ _ _ Hs) as Hc.
  assert (Hpq : 1 <= p * q) by nia.
  split; try lia; [exists 1; lia|by apply (sc_left _ _ _ _ Hs)| ].
  intros b Hb. assert (Hlast : forall i a, 0 <= i -> 0 <= a -> c + i + p * a < jp + k -> x (c + i) = x (c + i + p * a)) by (intros; by apply (scanning_mult c jp k p)).
  pose proof (Z.div_mod b p ltac:(lia)) as Eb. pose proof (Z.mod_pos_bound b p ltac:(lia)) as Hr. pose proof (Z.div_pos b p ltac:(lia) ltac:(lia)) as Ha.
  set (a := b / p) in *. set (r := b mod p) in *. clearbody a r.
  assert (Hu : forall j, 0 <= j -> c + b + j < jp + k -> x (c + b + j) = x (c + r + j)).
  { intros j Hj Hlt. replace (c + b + j) with (c + (r + j) + p * a) by lia. rewrite <- Hlast by lia. f_equal. lia. }
  assert (Haq : a <= q) by nia.
  destruct (Z.eq_dec r 0) as [->|Hr0].
  - assert (Hpa : p * (q - a) = p * q - p * a) by lia. assert (0 <= p * (q - a)) by nia. exists (p * (q - a) + (k - 1)). split_and!; try lia.
    + intros j Hj. rewrite Hu by lia. f_equal. lia.
    + replace (c + b + (p * (q - a) + (k - 1))) with (jp + k) by lia.
      replace (c + (p * (q - a) + (k - 1))) with (c + (k - 1) + p * (q - a)) by lia. rewrite <- Hlast by nia.
      by replace (c + (k - 1)) with (c - 1 + k) by lia.
  - destruct (sc_first _ _ _ _ Hs r ltac:(lia)) as (j & Hj & Hjb & Hag & Hlt). destruct (Z_lt_ge_dec (c + b + j) (jp + k)) as [Hin|Hout].
    + exists j. split_and!; try lia; [intros j' Hj'; rewrite Hu by lia; by apply Hag|by rewrite Hu by lia].
    + assert (a = q) by nia. subst a. exists (k - 1 - r). split_and!; try lia.
      * intros j' Hj'. rewrite Hu by lia. apply Hag. lia.
      * replace (c + b + (k - 1 - r)) with (jp + k) by lia. destruct (Z.eq_dec (k - 1 - r) j) as [E|].
        -- rewrite E. apply (lo_trans _ _ _ Hx). replace (c - 1 + k) with (c + r + j) by lia. done.
        -- rewrite <- Hag by lia. by replace (c + r + (k - 1 - r)) with (c - 1 + k) by lia.
Qed.

(** ** The result *)
Lemma scanning_done c jp k p :
  scanning c jp k p -> l <= jp + k ->
  maximal c /\ period c p /\ 1 <= p <= l - c /\ (forall p', 0 < p' < p -> ~ period c p').
Proof.
  intros Hs Hm. destruct (sc_jp _ _ _ _ Hs) as (q & Hq & Ej). pose proof (sc_k _ _ _ _ Hs) as Hk. pose proof (sc_c _ _ _ _ Hs) as Hc.
  pose proof (sc_le _ _ _ _ Hs). assert (p <= p * q) by nia. assert (El : jp + k = l) by lia.
  split_and!; try lia.
  - split; [lia|apply (sc_left _ _ _ _ Hs)|]. intros s Hsr.
    destruct (scanning_unfold c jp k p (s - c) Hs) as (a & r & Er & Ha & Hrp & Hu); [lia|lia|].
    assert (Hu' : forall j, 0 <= j -> s + j < l -> x (s + j) = x (c + r + j)) by (intros j Hj Hb; rewrite <- Hu by lia; f_equal; lia).
    destruct (Z.eq_dec r 0) as [->|Hr0]; [left; intros j Hj; rewrite Hu' by lia; f_equal; lia|].
    destruct (sc_first _ _ _ _ Hs r ltac:(lia)) as (j & Hj & Hb & Hag & Hlt).
    destruct (Z_lt_ge_dec (s + j) l).
    + right. exists j. split_and!; try lia; [intros j' Hj'; rewrite Hu' by lia; by apply Hag|by rewrite Hu' by lia].
    + left. intros j' Hj'. rewrite Hu' by lia. apply Hag. lia.
  - intros i Hi Hb. apply (sc_period _ _ _ _ Hs); lia.
  - intros p' Hp' Hper. destruct (sc_first _ _ _ _ Hs p' Hp') as (j & Hj & Hb & _ & Hlt).
    rewrite (Hper (c + j)) in Hlt by lia. replace (c + j + p') with (c + p' + j) in Hlt by lia. by apply lo_irrefl in Hlt.
Qed.
End Order.

(** ** Local repetitions at a cut

    [d] letters before the cut are repeated behind it, as far as there are
    letters. *)
Definition local (c d : Z) : Prop := forall i, c <= i -> i < c + d -> i < l -> d <= i -> x i = x (i - d).

Lemma period_mult c p a i : period c p -> 0 <= p -> 0 <= a -> c <= i -> i + p * a < l -> x i = x (i + p * a).
Proof.
  intros Hp Hp0 Ha Hi. revert a Ha. apply (natlike_ind (fun a => i + p * a < l -> x i = x (i + p * a))).
  - intros _. f_equal. lia.
  - intros a Ha IH Hb. rewrite Z.mul_succ_r in *. assert (0 <= p * a) by nia. rewrite IH by lia. rewrite Hp by lia. f_equal. lia.
Qed.

(** Two first differences are at the same place. *)
Lemma first_difference s c i i' :
  0 <= i -> 0 <= i' -> agree s c i -> agree s c i' -> x (s + i) <> x (c + i) -> x (s + i') <> x (c + i') -> i = i'.
Proof.
  intros Hi Hi' Ha Ha' Hn Hn'. destruct (Z.lt_trichotomy i i') as [Hlt|[->|Hlt]]; [|done|].
  - exfalso. apply Hn, Ha'. lia.
  - exfalso. apply Hn', Ha. lia.
Qed.

Section Critical.
Context (lt : Z -> Z -> Prop) `{LetterOrder lt}.

Lemma lt_ne a b : lt a b -> a <> b.
Proof. intros Hlt ->. exact (lo_irrefl b Hlt). Qed.

(** No repetition fits to the left of a maximal suffix. *)
Lemma local_left c d : maximal lt c -> 1 <= d -> local c d -> c < d.
Proof.
  intros Hm Hd Hl. destruct (Z_lt_ge_dec c d) as [|Hc]; [done|exfalso].
  destruct (mx_left _ _ Hm (c - d) ltac:(lia)) as (i & Hi & _ & Hil & Ha & Hlt).
  destruct (Z_lt_ge_dec i d) as [Hid|Hid].
  { apply lt_ne in Hlt. apply Hlt. rewrite (Hl (c + i)) by lia. f_equal. lia. }
  assert (Hag : agree (c + d) c (i - d)).
  { intros j Hj. pose proof (Ha (d + j) ltac:(lia)) as E. replace (c - d + (d + j)) with (c + j) in E by lia. rewrite E. f_equal. lia. }
  assert (Hlt' : lt (x (c + (i - d))) (x (c + d + (i - d)))) by (replace (c + (i - d)) with (c - d + i) by lia; replace (c + d + (i - d)) with (c + i) by lia; done).
  destruct (mx_right _ _ Hm (c + d) ltac:(lia)) as [Hp|(i' & Hi' & _ & _ & Ha' & Hgt)].
  - apply lt_ne in Hlt'. apply Hlt'. symmetry. apply Hp. lia.
  - assert (Ei : i' = i - d) by (apply (first_difference (c + d) c); try done; [lia|by apply lt_ne|apply not_eq_sym; by apply lt_ne]).
    subst i'. exact (lo_irrefl _ (lo_trans _ _ _ Hlt' Hgt)).
Qed.

(** With the greatest suffix for the opposite order no shorter, a repetition
    that fits behind the cut is a period of the whole word. *)
Lemma local_period c c' d :
  maximal lt c -> maximal (fun a b => lt b a) c' -> c' <= c -> 1 <= d <= l - c -> local c d -> period 0 d.
Proof.
  intros Hm Hm' Hc Hd Hl. pose proof (local_left c d Hm ltac:(lia) Hl) as Hcd. pose proof (mx_range _ _ Hm). pose proof (mx_range _ _ Hm').
  assert (Hz : forall i, 0 <= i -> c + d + i < l -> x (c + d + i) = x (c + i)).
  { intros i0 Hi0 Hb0. destruct (mx_right _ _ Hm (c + d) ltac:(lia)) as [Hp|(i & Hi & Hil & _ & Ha & Hlt)]; [apply Hp; lia|exfalso].
    assert (Hsh : agree (c' + d) c' (c - c')).
    { intros j Hj. rewrite (Hl (c' + d + j)) by lia. f_equal. lia. }
    assert (Hag : agree (c' + d) c' (c - c' + i)).
    { intros j Hj. destruct (Z_lt_ge_dec j (c - c')); [apply Hsh; lia|]. pose proof (Ha (j - (c - c')) ltac:(lia)) as E.
      replace (c' + d + j) with (c + d + (j - (c - c'))) by lia. rewrite E. f_equal. lia. }
    assert (E1 : c' + d + (c - c' + i) = c + d + i) by lia. assert (E2 : c' + (c - c' + i) = c + i) by lia.
    destruct (mx_right _ _ Hm' (c' + d) ltac:(lia)) as [Hp|(i' & Hi' & _ & _ & Ha' & Hgt)].
    - apply lt_ne in Hlt. apply Hlt. rewrite <- E1, <- E2. apply Hp. lia.
    - assert (Ei : i' = c - c' + i).
      { apply (first_difference (c' + d) c'); try done; [lia|apply not_eq_sym; by apply lt_ne|rewrite E1, E2; by apply lt_ne]. }
      subst i'. rewrite E1, E2 in Hgt. exact (lo_irrefl _ (lo_trans _ _ _ Hlt Hgt)). }
  intros i Hi Hb. destruct (Z_lt_ge_dec i c).
  - rewrite (Hl (i + d)) by lia. f_equal. lia.
  - pose proof (Hz (i - c) ltac:(lia) ltac:(lia)) as E. replace (c + (i - c)) with i in E by lia. rewrite <- E. f_equal. lia.
Qed.

(** ... and a multiple of the least period of the maximal suffix, which is
    then a period of the whole word. *)
Lemma local_multiple c c' p d :
  maximal lt c -> maximal (fun a b => lt b a) c' -> c' <= c ->
  period c p -> 1 <= p <= l - c -> (forall p', 0 < p' < p -> ~ period c p') ->
  1 <= d <= l - c -> local c d -> period 0 p /\ exists m, 1 <= m /\ d = p * m.
Proof.
  intros Hm Hm' Hc Hp Hpr Hmin Hd Hl. pose proof (local_left c d Hm ltac:(lia) Hl) as Hcd. pose proof (mx_range _ _ Hm).
  pose proof (local_period c c' d Hm Hm' Hc Hd Hl) as Hpd.
  pose proof (Z.div_mod d p ltac:(lia)) as Ed. pose proof (Z.mod_pos_bound d p ltac:(lia)) as Hr. pose proof (Z.div_pos d p ltac:(lia) ltac:(lia)) as Ha.
  set (a := d / p) in *. set (r := d mod p) in *. clearbody a r.
  assert (r = 0).
  { destruct (Z.eq_dec r 0) as [|Hr0]; [done|exfalso].
    assert (Hlr : local c r).
    { intros i Hi Hir Hil Hri. rewrite (period_mult c p a i) by (done || lia). rewrite (Hpd (i - r)) by lia. f_equal. lia. }
    apply (Hmin r); [lia|]. pose proof (local_period c c' r Hm Hm' Hc ltac:(lia) Hlr) as Hper. intros i Hi Hb. apply Hper; lia. }
  subst r. assert (1 <= a) by nia. split; [|exists a; lia].
  assert (Hstep : forall i, c <= i -> i + (d - p) < l -> x i = x (i + (d - p))).
  { intros i Hi Hb. replace (d - p) with (p * (a - 1)) in * by lia. apply (period_mult c p); (done || lia). }
  intros i Hi Hb. destruct (Z_lt_ge_dec i c) as [Hic|]; [|apply Hp; lia].
  rewrite (Hpd i) by lia. destruct (Z_lt_ge_dec (i + p) c).
  - rewrite (Hpd (i + p)) by lia. rewrite (Hp (i + d)) by lia. f_equal. lia.
  - rewrite (Hstep (i + p)) by lia. f_equal. lia.
Qed.
End Critical.

(** A cut [c] that tells all short repetitions, with the least period [p] of
    what is behind it. *)
Record factored (c p : Z) : Prop := {
  fc_c : 0 <= c < l;
  fc_p : 1 <= p <= l - c;
  fc_left d : 1 <= d -> local c d -> c < d;
  fc_mult d : 1 <= d <= l - c -> local c d -> period 0 p /\ exists m, 1 <= m /\ d = p * m;
  fc_period : period c p
}.

(** Of the two maximal suffixes the shorter one. *)
Lemma factored_choose c1 jp1 k1 p1 c2 jp2 k2 p2 :
  scanning Z.lt c1 jp1 k1 p1 -> l <= jp1 + k1 -> scanning (fun a b => b < a) c2 jp2 k2 p2 -> l <= jp2 + k2 ->
  if c1 <? c2 then factored c2 p2 else factored c1 p1.
Proof.
  intros H1 E1 H2 E2. destruct (scanning_done _ _ _ _ _ H1 E1) as (M1 & P1 & R1 & L1). destruct (scanning_done _ _ _ _ _ H2 E2) as (M2 & P2 & R2 & L2).
  destruct (Z.ltb_spec c1 c2).
  - split; [apply M2|lia|intros d; by apply (local_left _ c2 d M2)| |done].
    intros d Hd Hl. apply (local_multiple (fun a b => b < a) c2 c1); (done || lia).
  - split; [apply M1|lia|intros d; by apply (local_left _ c1 d M1)| |done].
    intros d Hd Hl. apply (local_multiple Z.lt c1 c2); (done || lia).
Qed.

(** ** Shifting the word along a text *)
Section Match.
Context (y : Z -> Z) (c p : Z) (Hf : factored c p).

Definition match_at (d : Z) : Prop := forall i, 0 <= i < l -> y (d + i) = x i.

Lemma match_local d k : match_at d -> 1 <= d -> c <= k <= l -> c + d <= k \/ k = l -> (forall i, c <= i < k -> y i = x i) -> local c d.
Proof.
  intros Hm Hd Hk Hdk Hy i Hi Hid Hil Hdi. rewrite <- Hy by lia. rewrite <- (Hm (i - d)) by lia. f_equal. lia.
Qed.

Lemma periodic_left : period 0 p -> c < p.
Proof.
  intros Hp. apply (fc_left _ _ Hf); [apply Hf|]. intros i Hi _ Hil Hpi. rewrite (Hp (i - p)) by lia. f_equal. lia.
Qed.

(** The first difference behind the cut is at [k]. *)
Lemma shift_right k d :
  c <= k < l -> (forall i, c <= i < k -> y i = x i) -> y k <> x k -> 0 <= d < k - c + 1 -> ~ match_at d.
Proof.
  intros Hk Hy Hne Hd Hm. destruct (Z.eq_dec d 0) as [->|Hd0]; [apply Hne; rewrite <- (Hm k) by (pose proof (fc_c _ _ Hf); lia); f_equal; lia|].
  pose proof (fc_c _ _ Hf). pose proof (fc_p _ _ Hf).
  destruct (fc_mult _ _ Hf d) as (Hp & m & Hm1 & Ed); [lia|apply (match_local d k); (done || lia)|].
  apply Hne. pose proof (Hm (k - d) ltac:(lia)) as E. replace (d + (k - d)) with k in E by lia. rewrite E.
  rewrite (period_mult 0 p m (k - d)) by (done || lia). f_equal. lia.
Qed.

(** All is equal behind the cut. *)
Lemma shift_left d : (forall i, c <= i < l -> y i = x i) -> 1 <= d -> match_at d -> (period 0 p -> p <= d) /\ (~ period 0 p -> c < d /\ l - c < d).
Proof.
  intros Hy Hd Hm. pose proof (fc_c _ _ Hf). pose proof (fc_p _ _ Hf). assert (Hl : local c d) by (apply (match_local d l); (done || lia)).
  split.
  - intros Hp. destruct (Z_le_gt_dec d (l - c)); [|lia]. destruct (fc_mult _ _ Hf d ltac:(lia) Hl) as (_ & m & Hm1 & ->). nia.
  - intros Hp. split; [by apply (fc_left _ _ Hf)|]. destruct (Z_le_gt_dec d (l - c)); [|lia]. by destruct (fc_mult _ _ Hf d ltac:(lia) Hl).
Qed.
Lemma memory : period 0 p -> (forall i, c <= i < l -> y i = x i) -> forall i, 0 <= i < l - p -> y (p + i) = x i.
Proof.
  intros Hp Hy i Hi. pose proof (periodic_left Hp). rewrite Hy by lia. rewrite (Hp i) by lia. f_equal. lia.
Qed.

(** The first [l - p] letters are known, the last one is wrong. *)
Lemma shift_memory d : period 0 p -> (forall i, 0 <= i < l - p -> y i = x i) -> y (l - 1) <> x (l - 1) -> 0 <= d < l - p -> ~ match_at d.
Proof.
  intros Hp Hy Hne Hd Hm. pose proof (fc_p _ _ Hf). apply Hne.
  pose proof (Hm (l - 1 - d) ltac:(lia)) as E1. replace (d + (l - 1 - d)) with (l - 1) in E1 by lia.
  pose proof (Hm (l - 1 - p - d) ltac:(lia)) as E2. replace (d + (l - 1 - p - d)) with (l - 1 - p) in E2 by lia. rewrite Hy in E2 by lia.
  rewrite E1. replace (l - 1 - d) with (l - 1 - p - d + p) by lia. rewrite <- Hp by lia. rewrite <- E2. rewrite (Hp (l - 1 - p)) by lia. f_equal. lia.
Qed.
End Match.
End Word.
End Factor.
