(* ===== verification/Strstr.v ===== *)
(** Searching for a string in a string or in a block of memory (musl
    src/string: strstr.c, memmem.c): two-way matching with a table of shifts,
    and sliding windows in a word for needles of up to four bytes. *)

From stdpp Require Import base tactics list numbers option.
From Stdlib Require Import ZArith Lia.
From S2P Require Import Prelude CString Factor.

#[local] Open Scope Z_scope.

Module Strstr.
Import Prelude CString Factor.

Section Find.
Context (rd : Z -> Z).

(** ** Short needles

    [nw] and [hw] hold the needle and as many bytes of the text in a word;
    [push] shifts the next byte in. *)
Definition twobyte (a : Z) : Z := u16 (Z.lor (Z.shiftl (rd a) 8) (rd (a + 1))).
Definition threebyte (a : Z) : Z :=
  Z.lor (Z.lor (u32 (Z.shiftl (rd a) 24)) (Z.shiftl (rd (a + 1)) 16)) (Z.shiftl (rd (a + 2)) 8).
Definition fourbyte (a : Z) : Z :=
  Z.lor (Z.lor (Z.lor (u32 (Z.shiftl (rd a) 24)) (Z.shiftl (rd (a + 1)) 16)) (Z.shiftl (rd (a + 2)) 8)) (rd (a + 3)).
Definition push2 (hw c : Z) : Z := u16 (Z.lor (Z.shiftl hw 8) c).
Definition push3 (hw c : Z) : Z := u32 (Z.shiftl (Z.lor hw c) 8).
Definition push4 (hw c : Z) : Z := u32 (Z.lor (Z.shiftl hw 8) c).

(** [for (; *h && hw != nw; hw = push(hw, *++h)); return *h ? h-back : 0] *)
Fixpoint str_window (fuel : nat) (push : Z -> Z -> Z) (nw back h hw : Z) : option (option Z) :=
  match fuel with
  | O => None
  | S f =>
    if negb (rd h =? 0) && negb (hw =? nw) then str_window f push nw back (h + 1) (push hw (rd (h + 1)))
    else Some (if negb (rd h =? 0) then Some (h - back) else None)
  end.
Definition twobyte_strstr (fuel : nat) (h n : Z) : option (option Z) :=
  str_window fuel push2 (twobyte n) 1 (h + 1) (twobyte h).
Definition threebyte_strstr (fuel : nat) (h n : Z) : option (option Z) :=
  str_window fuel push3 (threebyte n) 2 (h + 2) (threebyte h).
Definition fourbyte_strstr (fuel : nat) (h n : Z) : option (option Z) :=
  str_window fuel push4 (fourbyte n) 3 (h + 3) (fourbyte h).

(** [for (; k; k--, hw = push(hw, *h++)) if (hw == nw) return h-back;
    return hw == nw ? h-back : 0] *)
Fixpoint mem_window (k : nat) (push : Z -> Z -> Z) (nw back h hw : Z) : option Z :=
  match k with
  | O => if hw =? nw then Some (h - back) else None
  | S k' => if hw =? nw then Some (h - back) else mem_window k' push nw back (h + 1) (push hw (rd h))
  end.
Definition twobyte_memmem (h : Z) (k : nat) (n : Z) : option Z := mem_window (k - 2) push2 (twobyte n) 2 (h + 2) (twobyte h).
Definition threebyte_memmem (h : Z) (k : nat) (n : Z) : option Z := mem_window (k - 3) push3 (threebyte n) 3 (h + 3) (threebyte h).
Definition fourbyte_memmem (h : Z) (k : nat) (n : Z) : option Z := mem_window (k - 4) push4 (fourbyte n) 4 (h + 4) (fourbyte h).

(** ** The critical factorization *)

(** Both loops for a maximal suffix; [gt] is the comparison.  [ip] starts as
    [(size_t)-1]. *)
Fixpoint max_suffix (fuel : nat) (gt : Z -> Z -> bool) (n l ip jp k p : Z) : option (Z * Z) :=
  match fuel with
  | O => None
  | S f =>
    if u64 (jp + k) <? l then
      let a := rd (n + u64 (ip + k)) in
      let b := rd (n + u64 (jp + k)) in
      if a =? b then
        if k =? p then max_suffix f gt n l ip (u64 (jp + p)) 1 p
        else max_suffix f gt n l ip jp (u64 (k + 1)) p
      else if gt a b then
        let jp := u64 (jp + k) in max_suffix f gt n l ip jp 1 (u64 (jp - ip))
      else max_suffix f gt n l jp (u64 (jp + 1)) 1 1
    else Some (ip, p)
  end.

(** [ms], [p] and [mem0]. *)
Definition factorize (fuel : nat) (n l : Z) : option (Z * Z * Z) :=
  match max_suffix fuel Z.gtb n l (u64 (-1)) 0 1 1 with
  | None => None
  | Some (ms, p0) =>
    match max_suffix fuel Z.ltb n l (u64 (-1)) 0 1 1 with
    | None => None
    | Some (ip, p) =>
      let '(ms, p) := if u64 (ms + 1) <? u64 (ip + 1) then (ip, p) else (ms, p0) in
      if negb (memcmp rd n (n + p) (Z.to_nat (u64 (ms + 1))) =? 0) then Some (ms, u64 (Z.max ms (u64 (l - ms - 1)) + 1), 0)
      else Some (ms, p, u64 (l - p))
    end
  end.

(** ** The search

    [more k] is [n[k]] in [strstr] and [k < l] in [memmem]. *)
Fixpoint right_loop (fuel : nat) (more : Z -> bool) (h n k : Z) : option Z :=
  match fuel with
  | O => None
  | S f => if more k && (rd (n + k) =? rd (h + k)) then right_loop f more h n (u64 (k + 1)) else Some k
  end.
Fixpoint left_loop (fuel : nat) (h n mem k : Z) : option Z :=
  match fuel with
  | O => None
  | S f =>
    if mem <? k then
      if rd (n + u64 (k - 1)) =? rd (h + u64 (k - 1)) then left_loop f h n mem (u64 (k - 1)) else Some k
    else Some k
  end.

Record needle := mkNeedle { nd : Z; len : Z; ms : Z; per : Z; mem0 : Z; byteset : list Z; shift : Z -> Z }.

(** One turn of the loop, once the text is known to be long enough: the place
    of the match, or the new [h] and [mem]. *)
Inductive turn := Found (h : Z) | Next (h mem : Z).
Definition compare (fuel : nat) (more : Z -> bool) (d : needle) (h mem : Z) : option turn :=
  let c := rd (h + len d - 1) in
  if bit_get (byteset d) c then
    let k := u64 (len d - shift d c) in
    if negb (k =? 0) then Some (Next (h + (if k <? mem then mem else k)) 0)
    else
      match right_loop fuel more h (nd d) (Z.max (u64 (ms d + 1)) mem) with
      | None => None
      | Some k =>
        if more k then Some (Next (h + u64 (k - ms d)) 0)
        else
          match left_loop fuel h (nd d) mem (u64 (ms d + 1)) with
          | None => None
          | Some k => if k <=? mem then Some (Found h) else Some (Next (h + per d) (mem0 d))
          end
      end
  else Some (Next (h + len d) 0).

(** [strstr]: [z] is how far the text was seen to have no terminator. *)
Definition grow (l h z : Z) : option Z :=
  if u64 (z - h) <? l then
    let g := Z.lor l 63 in
    match memchr rd z 0 (Z.to_nat g) with
    | Some z2 => if u64 (z2 - h) <? l then None else Some z2
    | None => Some (z + g)
    end
  else Some z.
Fixpoint str_search (fuel : nat) (d : needle) (h z mem : Z) : option (option Z) :=
  match fuel with
  | O => None
  | S f =>
    match grow (len d) h z with
    | None => Some None
    | Some z =>
      match compare fuel (fun k => negb (rd (nd d + k) =? 0)) d h mem with
      | None => None
      | Some (Found h) => Some (Some h)
      | Some (Next h mem) => str_search f d h z mem
      end
    end
  end.

(** [for (l=0; n[l] && h[l]; l++) BITOP(byteset, n[l], |=), shift[n[l]] = l+1;]
    What [shift] holds before is left over on the stack. *)
Fixpoint str_table (fuel : nat) (h n l : Z) (bs : list Z) (sh : Z -> Z) : option (Z * list Z * (Z -> Z)) :=
  match fuel with
  | O => None
  | S f =>
    if negb (rd (n + l) =? 0) && negb (rd (h + l) =? 0) then
      str_table f h n (l + 1) (bit_set bs (rd (n + l))) (fun c => if c =? rd (n + l) then l + 1 else sh c)
    else Some (l, bs, sh)
  end.
Definition twoway_strstr (fuel : nat) (stack : Z -> Z) (h n : Z) : option (option Z) :=
  match str_table fuel h n 0 no_bytes stack with
  | None => None
  | Some (l, bs, sh) =>
    if negb (rd (n + l) =? 0) then Some None
    else
      match factorize fuel n l with
      | None => None
      | Some (ms, p, mem0) => str_search fuel (mkNeedle n l ms p mem0 bs sh) h h 0
      end
  end.

Definition strstr (fuel : nat) (stack : Z -> Z) (h n : Z) : option (option Z) :=
  if rd n =? 0 then Some (Some h)
  else
    match strchr rd fuel h (rd n) with
    | None => None
    | Some None => Some None
    | Some (Some h) =>
      if rd (n + 1) =? 0 then Some (Some h)
      else if rd (h + 1) =? 0 then Some None
      else if rd (n + 2) =? 0 then twobyte_strstr fuel h n
      else if rd (h + 2) =? 0 then Some None
      else if rd (n + 3) =? 0 then threebyte_strstr fuel h n
      else if rd (h + 3) =? 0 then Some None
      else if rd (n + 4) =? 0 then fourbyte_strstr fuel h n
      else twoway_strstr fuel stack h n
    end.

(** [memmem] *)
Fixpoint mem_table (k : nat) (n i : Z) (bs : list Z) (sh : Z -> Z) : list Z * (Z -> Z) :=
  match k with
  | O => (bs, sh)
  | S k' => mem_table k' n (i + 1) (bit_set bs (rd (n + i))) (fun c => if c =? rd (n + i) then i + 1 else sh c)
  end.
Fixpoint mem_search (fuel : nat) (d : needle) (h z mem : Z) : option (option Z) :=
  match fuel with
  | O => None
  | S f =>
    if u64 (z - h) <? len d then Some None
    else
      match compare fuel (fun k => k <? len d) d h mem with
      | None => None
      | Some (Found h) => Some (Some h)
      | Some (Next h mem) => mem_search f d h z mem
      end
  end.
Definition twoway_memmem (fuel : nat) (stack : Z -> Z) (h z n l : Z) : option (option Z) :=
  let (bs, sh) := mem_table (Z.to_nat l) n 0 no_bytes stack in
  match factorize fuel n l with
  | None => None
  | Some (ms, p, mem0) => mem_search fuel (mkNeedle n l ms p mem0 bs sh) h z 0
  end.
Definition memmem (fuel : nat) (stack : Z -> Z) (h0 : Z) (k : nat) (n : Z) (l : nat) : option (option Z) :=
  if (l =? 0)%nat then Some (Some h0)
  else if (k <? l)%nat then Some None
  else
    match memchr rd h0 (rd n) k with
    | None => Some None
    | Some h =>
      if (l =? 1)%nat then Some (Some h)
      else
        let k := (k - Z.to_nat (h - h0))%nat in
        if (k <? l)%nat then Some None
        else if (l =? 2)%nat then Some (twobyte_memmem h k n)
        else if (l =? 3)%nat then Some (threebyte_memmem h k n)
        else if (l =? 4)%nat then Some (fourbyte_memmem h k n)
        else twoway_memmem fuel stack h (h + Z.of_nat k) n (Z.of_nat l)
    end.
End Find.


(** ** The factorization *)
Section Correct.
Context (rd : Z -> Z) (Hrd : forall a, 0 <= rd a < 256).

Lemma memcmp_zero l r n : memcmp rd l r n = 0 <-> forall i, 0 <= i < Z.of_nat n -> rd (l + i) = rd (r + i).
Proof.
  revert l r. induction n as [|n IH]; intros l r; cbn [memcmp]; [split; [lia|done]|].
  destruct (Z.eqb_spec (rd l) (rd r)) as [E|N].
  - rewrite IH. split; intros Hi i Hr.
    + destruct (Z.eq_dec i 0) as [->|]; [by rewrite !Z.add_0_r|]. replace (l + i) with (l + 1 + (i - 1)) by lia. replace (r + i) with (r + 1 + (i - 1)) by lia. apply Hi. lia.
    + replace (l + 1 + i) with (l + (i + 1)) by lia. replace (r + 1 + i) with (r + (i + 1)) by lia. apply Hi. lia.
  - split; [lia|]. intros Hi. exfalso. apply N. pose proof (Hi 0 ltac:(lia)) as E. by rewrite !Z.add_0_r in E.
Qed.

(** The first byte equal to [c]. *)
Lemma memchr_first s c k :
  0 <= c < 256 ->
  match memchr rd s c k with
  | Some q => s <= q < s + Z.of_nat k /\ rd q = c /\ forall i, s <= i < q -> rd i <> c
  | None => forall i, s <= i < s + Z.of_nat k -> rd i <> c
  end.
Proof.
  intros Hc. rewrite (memchr_spec rd Hrd), u8_id by done. revert s. induction k as [|k IH]; intros s; cbn [find_byte]; [lia|].
  destruct (Z.eqb_spec (rd s) c) as [E|N]; [split_and!; try done; lia|]. specialize (IH (s + 1)). destruct (find_byte rd (s + 1) c k) as [q|].
  - destruct IH as (Hq & E & Hi). split_and!; try done; try lia. intros i Hr. destruct (Z.eq_dec i s) as [->|]; [done|]. apply Hi. lia.
  - intros i Hr. destruct (Z.eq_dec i s) as [->|]; [done|]. apply IH. lia.
Qed.

Section Needle.
Context (n l : Z) (Hl : 0 < l < 2 ^ 62).
Definition letter (i : Z) : Z := rd (n + i).

Lemma max_suffix_spec (lt : Z -> Z -> Prop) `{LetterOrder lt} gt :
  (forall a b, gt a b = true <-> lt b a) ->
  forall fuel c jp k p, scanning letter l lt c jp k p -> 2 * l < Z.of_nat fuel + c + jp + k ->
  exists c' jp' k' p', max_suffix rd fuel gt n l (u64 (c - 1)) jp k p = Some (u64 (c' - 1), p') /\
    scanning letter l lt c' jp' k' p' /\ l <= jp' + k'.
Proof.
  intros Hgt. induction fuel as [|fuel IH]; intros c jp k p Hs Hf; pose proof (sc_le _ _ _ _ _ _ _ Hs) as Hle; pose proof (sc_c _ _ _ _ _ _ _ Hs) as Hc;
    pose proof (sc_k _ _ _ _ _ _ _ Hs) as Hk; destruct (sc_jp _ _ _ _ _ _ _ Hs) as (q & Hq & Ej); assert (Hpq : p <= p * q) by nia; [lia|].
  cbn [max_suffix]. rewrite (u64_id (jp + k)) by lia. destruct (Z.ltb_spec (jp + k) l) as [Hm|Hm]; [|by exists c, jp, k, p].
  assert (Ei : u64 (u64 (c - 1) + k) = c - 1 + k).
  { unfold u64. rewrite Zplus_mod_idemp_l. apply Z.mod_small. lia. }
  rewrite Ei. fold (letter (c - 1 + k)) (letter (jp + k)). destruct (Z.eqb_spec (letter (c - 1 + k)) (letter (jp + k))) as [E|N].
  - pose proof (scanning_equal _ _ _ _ _ _ _ Hs Hm E) as Hs'. destruct (Z.eqb_spec k p).
    + rewrite (u64_id (jp + p)) by lia. apply IH; [done|lia].
    + rewrite (u64_id (k + 1)) by lia. apply IH; [done|lia].
  - destruct (gt (letter (c - 1 + k)) (letter (jp + k))) eqn:Eg.
    + apply Hgt in Eg. pose proof (scanning_greater _ _ _ _ _ _ _ Hs Hm Eg) as Hs'.
      assert (Ep : u64 (jp + k - u64 (c - 1)) = jp + k - (c - 1)) by (unfold u64; rewrite Zminus_mod_idemp_r; apply Z.mod_small; lia).
      rewrite Ep. apply IH; [done|lia].
    + assert (Hlt : lt (letter (c - 1 + k)) (letter (jp + k))).
      { destruct (lo_total (letter (c - 1 + k)) (letter (jp + k))) as [|[|Hg]]; [done|done|]. apply Hgt in Hg. congruence. }
      pose proof (scanning_less _ _ _ _ _ _ _ Hs Hm Hlt) as Hs'. rewrite (u64_id (jp + 1)) by lia.
      replace (max_suffix rd fuel gt n l jp) with (max_suffix rd fuel gt n l (u64 (jp + 1 - 1))) by (f_equal; rewrite u64_id; lia).
      apply IH; [done|lia].
Qed.

(** What [factorize] returns. *)
Record factors (c p : Z) (r : Z * Z * Z) : Prop := {
  fs_fact : factored letter l c p;
  fs_result : (period letter l 0 p /\ r = (u64 (c - 1), p, l - p)) \/ (~ period letter l 0 p /\ 1 <= c /\ r = (u64 (c - 1), Z.max c (l - c + 1), 0))
}.
Lemma factorize_spec fuel : 2 * l <= Z.of_nat fuel -> exists c p r, factorize rd fuel n l = Some r /\ factors c p r.
Proof.
  intros Hf. unfold factorize. change (u64 (-1)) with (u64 (0 - 1)).
  assert (S0 : forall lt, scanning letter l lt 0 0 1 1) by (intros; apply scanning_init; lia).
  destruct (max_suffix_spec Z.lt Z.gtb ltac:(intros; rewrite Z.gtb_lt; lia) fuel 0 0 1 1 (S0 _) ltac:(lia)) as (c1 & j1 & k1 & p1 & E1 & Hs1 & D1). rewrite E1.
  destruct (max_suffix_spec (fun a b => b < a) Z.ltb Z.ltb_lt fuel 0 0 1 1 (S0 _) ltac:(lia)) as (c2 & j2 & k2 & p2 & E2 & Hs2 & D2). rewrite E2.
  pose proof (factored_choose _ _ _ _ _ _ _ _ _ _ Hs1 D1 Hs2 D2) as Hfc.
  assert (Hup : forall c p, factored letter l c p -> u64 (u64 (c - 1) + 1) = c).
  { intros c p Hc. pose proof (fc_c _ _ _ _ Hc). unfold u64. rewrite Zplus_mod_idemp_l. rewrite Z.mod_small; lia. }
  assert (Hu : forall c, 0 <= c < l -> u64 (u64 (c - 1) + 1) = c) by (intros c Hc; unfold u64; rewrite Zplus_mod_idemp_l, Z.mod_small; lia).
  destruct (scanning_done _ _ _ _ _ _ _ Hs1 D1) as (M1 & _). destruct (scanning_done _ _ _ _ _ _ _ Hs2 D2) as (M2 & _).
  rewrite !Hu by first [apply M1|apply M2].
  set (c := if c1 <? c2 then c2 else c1). set (p := if c1 <? c2 then p2 else p1).
  assert (Hcp : factored letter l c p) by (unfold c, p; destruct (c1 <? c2); exact Hfc).
  replace (if c1 <? c2 then (u64 (c2 - 1), p2) else (u64 (c1 - 1), p1)) with (u64 (c - 1), p) by (unfold c, p; by destruct (c1 <? c2)).
  clearbody c p. pose proof (fc_c _ _ _ _ Hcp) as Hc. pose proof (fc_p _ _ _ _ Hcp) as Hp. rewrite Hu by done.
  assert (Hper : memcmp rd n (n + p) (Z.to_nat c) = 0 <-> period letter l 0 p).
  { rewrite memcmp_zero. split; intros Hx i Hi.
    - intros Hb. destruct (Z_lt_ge_dec i c); [|apply (fc_period _ _ _ _ Hcp); lia]. unfold letter. rewrite Hx by lia. f_equal. lia.
    - rewrite <- Z.add_assoc. fold (letter i) (letter (p + i)). rewrite (Hx i) by lia. f_equal. lia. }
  exists c, p. destruct (Z.eqb_spec (memcmp rd n (n + p) (Z.to_nat c)) 0) as [E|N]; cbn [negb].
  - eexists. split; [reflexivity|]. split; [done|]. left. split; [by apply Hper|]. rewrite (u64_id (l - p)) by lia. done.
  - assert (1 <= c). { destruct (Z.eq_dec c 0) as [->|]; [|lia]. exfalso. apply N. done. }
    eexists. split; [reflexivity|]. split; [done|]. right. split; [by rewrite <- Hper|]. split; [done|].
    rewrite !(u64_id (c - 1)), (u64_id (l - _ - _)), u64_id by lia. do 2 f_equal. lia.
Qed.

(** ** One turn *)

Definition occurs (h : Z) : Prop := forall i, 0 <= i < l -> rd (h + i) = letter i.

(** The tables: the bytes of the needle, with the last place of each. *)
Definition last_at (b i : Z) : Prop := 0 <= i < l /\ letter i = b /\ forall j, i < j < l -> letter j <> b.
Record prepared (d : needle) (c p : Z) : Prop := {
  pr_nd : nd d = n;
  pr_len : len d = l;
  pr_factors : factors c p (ms d, per d, mem0 d);
  pr_absent b : 0 <= b < 256 -> bit_get (byteset d) b = false -> forall i, 0 <= i < l -> letter i <> b;
  pr_last b : 0 <= b < 256 -> bit_get (byteset d) b = true -> last_at b (shift d b - 1)
}.

(** What [mem] says of the text at [h]. *)
Definition remembers (p h mem : Z) : Prop :=
  mem = 0 \/ (period letter l 0 p /\ mem = l - p /\ forall i, 0 <= i < mem -> rd (h + i) = letter i).

Lemma right_loop_spec more h fuel : forall k,
  (forall k, 0 <= k <= l -> more k = (k <? l)) -> 0 <= k <= l -> l - k < Z.of_nat fuel ->
  exists k', right_loop rd fuel more h n k = Some k' /\ k <= k' <= l /\
    (forall i, k <= i < k' -> rd (h + i) = letter i) /\ (k' < l -> rd (h + k') <> letter k').
Proof.
  induction fuel as [|fuel IH]; intros k Hmore Hk Hf; [lia|]. cbn [right_loop]. rewrite Hmore by lia. fold (letter k).
  destruct (Z.ltb_spec k l) as [Hkl|Hkl]; cbn [andb]; [|exists k; split_and!; try done; lia].
  destruct (Z.eqb_spec (letter k) (rd (h + k))) as [E|N]; [|exists k; split_and!; try done; try lia; intros _ E; by apply N].
  rewrite u64_id by lia. destruct (IH (k + 1) Hmore ltac:(lia) ltac:(lia)) as (k' & -> & Hr & He & Hn).
  exists k'. split_and!; try done; try lia. intros i Hi. destruct (Z.eq_dec i k) as [->|]; [done|]. apply He. lia.
Qed.

Lemma left_loop_spec mem h fuel : 0 <= mem -> forall k,
  0 <= k <= l -> k < Z.of_nat fuel ->
  exists k', left_loop rd fuel h n mem k = Some k' /\ 0 <= k' <= k /\
    (forall i, k' <= i < k -> rd (h + i) = letter i) /\ (mem < k' -> rd (h + (k' - 1)) <> letter (k' - 1)).
Proof.
  intros Hmem. induction fuel as [|fuel IH]; intros k Hk Hf; [lia|]. cbn [left_loop].
  destruct (Z.ltb_spec mem k) as [Hm|Hm]; [|exists k; split_and!; try done; lia].
  rewrite (u64_id (k - 1)) by lia. fold (letter (k - 1)).
  destruct (Z.eqb_spec (letter (k - 1)) (rd (h + (k - 1)))) as [E|N]; [|exists k; split_and!; try done; try lia; intros _ E; by apply N].
  destruct (IH (k - 1) ltac:(lia) ltac:(lia)) as (k' & -> & Hr & He & Hn).
  exists k'. split_and!; try done; try lia. intros i Hi. destruct (Z.eq_dec i (k - 1)) as [->|]; [done|]. apply He. lia.
Qed.

(** A turn finds the needle at [h], or skips only places where it is not. *)
Definition skips (p h : Z) (r : turn) : Prop :=
  match r with
  | Found h' => h' = h /\ occurs h
  | Next h' mem => h < h' <= h + l /\ (forall q, h <= q < h' -> ~ occurs q) /\ remembers p h' mem
  end.

Section Turn.
Context (d : needle) (c p : Z) (Hd : prepared d c p) (h : Z).

(** The text from [h] on. *)
Let y (i : Z) : Z := rd (h + i).
Lemma occurs_match q : occurs q <-> match_at letter l y (q - h).
Proof.
  unfold occurs, match_at, y. split; intros Hm i Hi; rewrite <- Hm by done; f_equal; lia.
Qed.

Let fact : factored letter l c p := fs_fact _ _ _ (pr_factors _ _ _ Hd).

Lemma skip_by k mem : 0 < k <= l -> (forall q, 0 <= q < k -> ~ match_at letter l y q) -> remembers p (h + k) mem -> skips p h (Next (h + k) mem).
Proof.
  intros Hk Hn Hr. split_and!; try lia; [|done]. intros q Hq Ho. apply occurs_match in Ho. refine (Hn (q - h) _ Ho). lia.
Qed.

(** The last byte is not one of the needle. *)
Lemma skip_absent : bit_get (byteset d) (y (l - 1)) = false -> skips p h (Next (h + l) 0).
Proof.
  intros Eb. apply skip_by; [lia| |by left]. intros q Hq Hm. apply (pr_absent _ _ _ Hd (y (l - 1)) (Hrd _) Eb (l - 1 - q)); [lia|].
  rewrite <- Hm by lia. f_equal. lia.
Qed.

(** It is one, but not the last. *)
Lemma skip_shift mem k :
  bit_get (byteset d) (y (l - 1)) = true -> k = l - shift d (y (l - 1)) -> k <> 0 -> remembers p h mem ->
  skips p h (Next (h + (if k <? mem then mem else k)) 0).
Proof.
  intros Eb Ek Hk Hmem. destruct (pr_last _ _ _ Hd (y (l - 1)) (Hrd _) Eb) as (Hr & Ei & Hlast).
  pose proof (fc_p _ _ _ _ fact). pose proof (fc_c _ _ _ _ fact). assert (Hne : y (l - 1) <> letter (l - 1)) by (apply not_eq_sym, Hlast; lia).
  destruct (Z.ltb_spec k mem) as [Hlt|Hge]; (apply skip_by; [| |by left]).
  - destruct Hmem as [->|(_ & -> & _)]; lia.
  - destruct Hmem as [->|(Hp & -> & Hy)]; [lia|]. intros q Hq. by apply (shift_memory _ _ y c p fact q Hp Hy).
  - lia.
  - intros q Hq Hm. apply (Hlast (l - 1 - q)); [lia|]. rewrite <- Hm by lia. f_equal. lia.
Qed.

(** The halves are compared. *)
Lemma skip_right mem k :
  remembers p h mem -> Z.max c mem <= k < l -> (forall i, Z.max c mem <= i < k -> y i = letter i) -> y k <> letter k ->
  skips p h (Next (h + (k - c + 1)) 0).
Proof.
  intros Hmem Hk Hy Hne. pose proof (fc_c _ _ _ _ fact). apply skip_by; [lia| |by left].
  intros q Hq. apply (shift_right _ _ y c p fact k q); try done; try lia. intros i Hi.
  destruct (Z_lt_ge_dec i mem); [|apply Hy; lia]. destruct Hmem as [->|(_ & _ & Hm)]; [lia|]. apply Hm. lia.
Qed.

Lemma skip_left k :
  (forall i, c <= i < l -> y i = letter i) -> 0 < k <= c -> y (k - 1) <> letter (k - 1) -> skips p h (Next (h + per d) (mem0 d)).
Proof.
  intros Hy Hk Hne. pose proof (fc_c _ _ _ _ fact). pose proof (fc_p _ _ _ _ fact).
  assert (Hpos : forall q, 0 <= q -> match_at letter l y q -> 1 <= q).
  { intros q Hq Hm. destruct (Z.eq_dec q 0) as [->|]; [|lia]. exfalso. apply Hne. rewrite <- Hm by lia. f_equal. }
  pose proof (shift_left _ _ y c p fact) as Hsh.
  destruct (fs_result _ _ _ (pr_factors _ _ _ Hd)) as [[Hp E]|(Hp & Hc & E)]; injection E as _ -> ->; (apply skip_by; [lia| | ]).
  - intros q Hq Hm. destruct (Hsh q Hy (Hpos q ltac:(lia) Hm) Hm) as [Hs _]. specialize (Hs Hp). lia.
  - right. split_and!; [done|done|]. intros i Hi. rewrite <- (memory _ _ y c p fact Hp Hy) by lia. unfold y. f_equal. lia.
  - intros q Hq Hm. destruct (Hsh q Hy (Hpos q ltac:(lia) Hm) Hm) as [_ Hs]. specialize (Hs Hp). lia.
  - by left.
Qed.

Lemma compare_spec more fuel mem :
  (forall k, 0 <= k <= l -> more k = (k <? l)) -> l < Z.of_nat fuel -> remembers p h mem ->
  exists r, compare rd fuel more d h mem = Some r /\ skips p h r.
Proof.
  intros Hmore Hf Hmem. pose proof (fc_c _ _ _ _ fact) as Hc. pose proof (fc_p _ _ _ _ fact) as Hp.
  assert (Hm : 0 <= mem < l) by (destruct Hmem as [->|(_ & -> & _)]; lia).
  assert (Ems : ms d = u64 (c - 1)) by (destruct (fs_result _ _ _ (pr_factors _ _ _ Hd)) as [[_ E]|(_ & _ & E)]; by injection E).
  assert (Ec : u64 (ms d + 1) = c) by (rewrite Ems; unfold u64; rewrite Zplus_mod_idemp_l, Z.mod_small; lia).
  unfold compare. rewrite (pr_len _ _ _ Hd), (pr_nd _ _ _ Hd), Ec. replace (h + l - 1) with (h + (l - 1)) by lia. fold (y (l - 1)).
  destruct (bit_get (byteset d) (y (l - 1))) eqn:Eb; [|eexists; split; [done|by apply skip_absent]].
  destruct (pr_last _ _ _ Hd (y (l - 1)) (Hrd _) Eb) as (Hr & Ei & _). rewrite (u64_id (l - _)) by lia.
  destruct (Z.eqb_spec (l - shift d (y (l - 1))) 0) as [E0|N0]; cbn [negb]; [|eexists; split; [done|by apply skip_shift]].
  destruct (right_loop_spec more h fuel (Z.max c mem) Hmore ltac:(lia) ltac:(lia)) as (k & -> & Hk & Hy & Hne).
  rewrite Hmore by lia. destruct (Z.ltb_spec k l) as [Hkl|Hkl].
  - eexists. split; [done|]. rewrite Ems. unfold u64. rewrite Zminus_mod_idemp_r, Z.mod_small by lia.
    replace (k - (c - 1)) with (k - c + 1) by lia. apply (skip_right mem); try done; [lia|]. by apply Hne.
  - assert (Hall : forall i, c <= i < l -> y i = letter i).
    { intros i Hi. destruct (Z_lt_ge_dec i mem); [|apply Hy; lia]. destruct Hmem as [->|(_ & _ & Hq)]; [lia|]. apply Hq. lia. }
    destruct (left_loop_spec mem h fuel ltac:(lia) c ltac:(lia) ltac:(lia)) as (k' & -> & Hk' & Hy' & Hne').
    destruct (Z.leb_spec k' mem) as [Hle|Hgt]; (eexists; split; [done|]).
    + split; [done|]. intros i Hi. destruct (Z_lt_ge_dec i c); [|apply Hall; lia]. destruct (Z_lt_ge_dec i k'); [|apply Hy'; lia].
      destruct Hmem as [->|(_ & _ & Hq)]; [lia|]. apply Hq. lia.
    + apply (skip_left k' Hall); [lia|]. by apply Hne'.
Qed.
End Turn.

(** ** The search *)

(** [r] is the first place between [h] and [e] where the needle is. *)
Definition finds (h e : Z) (r : option Z) : Prop :=
  match r with
  | Some q => h <= q /\ q + l <= e /\ occurs q /\ forall q', h <= q' < q -> ~ occurs q'
  | None => forall q, h <= q -> q + l <= e -> ~ occurs q
  end.

Lemma finds_from h h' e r : h <= h' -> (forall q, h <= q < h' -> ~ occurs q) -> finds h' e r -> finds h e r.
Proof.
  intros Hh Hn. destruct r as [q|]; cbn [finds].
  - intros (Hq & He & Ho & Hf). split_and!; try done; try lia. intros q' Hq'. destruct (Z_lt_ge_dec q' h'); [apply Hn; lia|apply Hf; lia].
  - intros Hf q Hq He. destruct (Z_lt_ge_dec q h'); [apply Hn; lia|apply Hf; lia].
Qed.

Section Search.
Context (d : needle) (c p : Z) (Hd : prepared d c p).

Lemma mem_search_spec e fuel : forall h mem,
  h <= e -> e - h < 2 ^ 62 -> e - h < Z.of_nat fuel -> remembers p h mem ->
  exists r, mem_search rd fuel d h e mem = Some r /\ finds h e r.
Proof.
  induction fuel as [|fuel IH]; intros h mem He Hb Hf Hm; [lia|]. cbn [mem_search]. rewrite (pr_len _ _ _ Hd), u64_id by lia.
  destruct (Z.ltb_spec (e - h) l) as [Hlt|Hge]; [exists None; split; [done|]; cbn; lia|].
  destruct (compare_spec d c p Hd h (fun k => k <? l) (S fuel) mem (fun _ _ => eq_refl) ltac:(lia) Hm) as (r & -> & Hr).
  destruct r as [h'|h' mem']; cbn [skips] in Hr.
  - destruct Hr as [-> Ho]. exists (Some h). split; [done|]. split_and!; try done; lia.
  - destruct Hr as (Hh & Hn & Hm'). destruct (IH h' mem' ltac:(lia) ltac:(lia) ltac:(lia) Hm') as (r & E & Hr). exists r. split; [done|].
    apply (finds_from h h'); (done || lia).
Qed.

(** [grow] moves [z] to a place the text reaches, or tells that it ends too
    early. *)
Lemma grow_spec e h z :
  h <= z <= e -> e - h < 2 ^ 62 -> rd e = 0 -> (forall q, h <= q < e -> rd q <> 0) ->
  match grow rd l h z with
  | Some z' => h + l <= z' <= e
  | None => e < h + l
  end.
Proof.
  intros Hz Hb E0 Hn. unfold grow. rewrite (u64_id (z - h)) by lia. destruct (Z.ltb_spec (z - h) l); [|lia].
  assert (Hg : l <= Z.lor l 63).
  { assert (E : Z.ldiff l (Z.lor l 63) = 0) by (apply Z.bits_inj'; intros i Hi; rewrite Z.ldiff_spec, Z.lor_spec, Z.bits_0; by destruct (Z.testbit l i)).
    apply Z.sub_nocarry_ldiff in E. assert (0 <= Z.ldiff (Z.lor l 63) l) by (apply Z.ldiff_nonneg; left; apply Z.lor_nonneg; lia). lia. }
  pose proof (memchr_first z 0 (Z.to_nat (Z.lor l 63)) ltac:(lia)) as Hc. rewrite Z2Nat.id in Hc by lia.
  destruct (memchr rd z 0 _) as [z2|].
  - destruct Hc as (Hr & E & Hfirst). assert (z2 <= e) by (destruct (Z_le_gt_dec z2 e); [done|]; exfalso; by apply (Hfirst e ltac:(lia))).
    assert (z2 = e) as -> by (destruct (Z_lt_ge_dec z2 e); [exfalso; apply (Hn z2); (done || lia)|lia]).
    rewrite u64_id by lia. destruct (Z.ltb_spec (e - h) l); lia.
  - destruct (Z_lt_ge_dec e (z + Z.lor l 63)); [exfalso; by apply (Hc e ltac:(lia))|lia].
Qed.

Lemma str_search_spec e fuel : rd e = 0 -> (forall k, 0 <= k < l -> letter k <> 0) -> letter l = 0 -> forall h z mem,
  h <= z <= e -> e - h < 2 ^ 62 -> (forall q, h <= q < e -> rd q <> 0) -> e - h < Z.of_nat fuel -> remembers p h mem ->
  exists r, str_search rd fuel d h z mem = Some r /\ finds h e r.
Proof.
  intros E0 Hl0 Hl1. induction fuel as [|fuel IH]; intros h z mem Hz Hb Hn Hf Hm; [lia|]. cbn [str_search]. rewrite (pr_len _ _ _ Hd), (pr_nd _ _ _ Hd).
  pose proof (grow_spec e h z Hz Hb E0 Hn) as Hg. destruct (grow rd l h z) as [z'|]; [|exists None; split; [done|]; cbn; lia].
  assert (Hmore : forall k, 0 <= k <= l -> negb (rd (n + k) =? 0) = (k <? l)).
  { intros k Hk. fold (letter k). destruct (Z.ltb_spec k l).
    - destruct (Z.eqb_spec (letter k) 0) as [E|]; [|done]. exfalso. apply (Hl0 k); (done || lia).
    - assert (k = l) as -> by lia. by rewrite Hl1. }
  destruct (compare_spec d c p Hd h _ (S fuel) mem Hmore ltac:(lia) Hm) as (r & -> & Hr).
  destruct r as [h'|h' mem']; cbn [skips] in Hr.
  - destruct Hr as [-> Ho]. exists (Some h). split; [done|]. split_and!; try done; lia.
  - destruct Hr as (Hh & Hs & Hm').
    destruct (IH h' z' mem' ltac:(lia) ltac:(lia) ltac:(intros; apply Hn; lia) ltac:(lia) Hm') as (r & E & Hr). exists r. split; [done|].
    apply (finds_from h h'); (done || lia).
Qed.
End Search.

(** ** The tables *)

(** After [i] bytes of the needle. *)
Record tabled (i : Z) (bs : list Z) (sh : Z -> Z) : Prop := {
  tb_length : length bs = 4%nat;
  tb_absent b : 0 <= b < 256 -> bit_get bs b = false -> forall j, 0 <= j < i -> letter j <> b;
  tb_last b : 0 <= b < 256 -> bit_get bs b = true -> 0 <= sh b - 1 < i /\ letter (sh b - 1) = b /\ forall j, sh b - 1 < j < i -> letter j <> b
}.

Lemma tabled_init sh : tabled 0 no_bytes sh.
Proof. split; [done|lia|]. intros b _. by rewrite bit_get_none. Qed.

Lemma tabled_step i bs sh :
  0 <= i -> tabled i bs sh -> tabled (i + 1) (bit_set bs (letter i)) (fun b => if b =? letter i then i + 1 else sh b).
Proof.
  intros Hi Ht. pose proof (tb_length _ _ _ Ht) as Hlen. split; [by rewrite length_bit_set| |].
  - intros b Hb. rewrite bit_get_set by (done || apply Hrd). destruct (Z.eqb_spec b (letter i)) as [|N]; [done|]. cbn [orb]. intros Eb j Hj.
    destruct (Z.eq_dec j i) as [->|]; [by apply not_eq_sym|]. apply (tb_absent _ _ _ Ht b Hb Eb). lia.
  - intros b Hb. rewrite bit_get_set by (done || apply Hrd). destruct (Z.eqb_spec b (letter i)) as [->|N]; cbn [orb].
    + intros _. replace (i + 1 - 1) with i by lia. split_and!; try done; lia.
    + intros Eb. destruct (tb_last _ _ _ Ht b Hb Eb) as (Hr & E & Hj). split_and!; try done; try lia. intros j Hr'.
      destruct (Z.eq_dec j i) as [->|]; [by apply not_eq_sym|]. apply Hj. lia.
Qed.

Lemma mem_table_spec k : forall i bs sh, 0 <= i -> tabled i bs sh -> let r := mem_table rd k n i bs sh in tabled (i + Z.of_nat k) r.1 r.2.
Proof.
  induction k as [|k IH]; intros i bs sh Hi Ht; cbn [mem_table]; [by replace (i + Z.of_nat 0) with i by lia|].
  replace (i + Z.of_nat (S k)) with (i + 1 + Z.of_nat k) by lia. apply IH; [lia|]. by apply tabled_step.
Qed.

(** The first turn knows nothing. *)
Lemma tabled_prepared ms p mem0 c p' bs sh : tabled l bs sh -> factors c p' (ms, p, mem0) -> prepared (mkNeedle n l ms p mem0 bs sh) c p'.
Proof. intros Ht Hf. split; try done; cbn; [apply (tb_absent _ _ _ Ht)|apply (tb_last _ _ _ Ht)]. Qed.

Lemma twoway_memmem_spec fuel stack h z :
  h <= z -> z - h < 2 ^ 62 -> z - h < Z.of_nat fuel -> 2 * l <= Z.of_nat fuel ->
  exists r, twoway_memmem rd fuel stack h z n l = Some r /\ finds h z r.
Proof.
  intros Hz Hb Hf Hf2. unfold twoway_memmem. pose proof (mem_table_spec (Z.to_nat l) 0 no_bytes stack ltac:(lia) (tabled_init _)) as Ht.
  destruct (mem_table rd (Z.to_nat l) n 0 no_bytes stack) as [bs sh]. cbn [fst snd] in Ht. rewrite Z2Nat.id in Ht by lia.
  destruct (factorize_spec fuel Hf2) as (c & p & [[ms p'] mem0] & -> & Hfs).
  apply (mem_search_spec _ c p); try done; [by apply tabled_prepared|by left].
Qed.

Section Terminated.
Context (h e : Z) (He : h <= e < h + 2 ^ 62) (E0 : rd e = 0) (Hn : forall q, h <= q < e -> rd q <> 0).
Context (Hl0 : forall k, 0 <= k < l -> letter k <> 0) (Hl1 : letter l = 0).

Lemma str_table_spec fuel : forall i bs sh,
  0 <= i <= Z.min l (e - h) -> tabled i bs sh -> Z.min l (e - h) - i < Z.of_nat fuel ->
  exists bs' sh', str_table rd fuel h n i bs sh = Some (Z.min l (e - h), bs', sh') /\ tabled (Z.min l (e - h)) bs' sh'.
Proof.
  induction fuel as [|fuel IH]; intros i bs sh Hi Ht Hf; [lia|]. cbn [str_table]. fold (letter i).
  destruct (Z.eq_dec i (Z.min l (e - h))) as [Ei|Ni].
  - rewrite <- Ei. assert (E : negb (letter i =? 0) && negb (rd (h + i) =? 0) = false).
    { destruct (Z_le_gt_dec l (e - h)); [replace i with l by lia; by rewrite Hl1|]. replace (h + i) with e by lia. rewrite E0. by rewrite andb_false_r. }
    rewrite E. by exists bs, sh.
  - destruct (Z.eqb_spec (letter i) 0) as [E|_]; [exfalso; by apply (Hl0 i ltac:(lia))|].
    destruct (Z.eqb_spec (rd (h + i)) 0) as [E|_]; [exfalso; by apply (Hn (h + i) ltac:(lia))|]. cbn [negb andb].
    apply IH; [lia|apply tabled_step; (done || lia)|lia].
Qed.

Lemma twoway_strstr_spec fuel stack : e - h < Z.of_nat fuel -> 2 * l <= Z.of_nat fuel ->
  exists r, twoway_strstr rd fuel stack h n = Some r /\ finds h e r.
Proof.
  intros Hf Hf2. unfold twoway_strstr.
  destruct (str_table_spec fuel 0 no_bytes stack ltac:(lia) (tabled_init _) ltac:(lia)) as (bs & sh & -> & Ht).
  fold (letter (Z.min l (e - h))). destruct (Z_le_gt_dec l (e - h)) as [Hle|Hgt].
  - replace (Z.min l (e - h)) with l in * by lia. rewrite Hl1. cbn [negb Z.eqb].
    destruct (factorize_spec fuel Hf2) as (c & p & [[ms p'] mem0] & -> & Hfs).
    apply (str_search_spec _ c p); try done; [by apply tabled_prepared|lia|lia|by left].
  - destruct (Z.eqb_spec (letter (Z.min l (e - h))) 0) as [E|_]; [exfalso; refine (Hl0 _ _ E); lia|].
    exists None. split; [done|]. cbn. lia.
Qed.
End Terminated.

(** ** Windows of a word *)

(** [enc] is the word at an address. *)
Section Windows.
Context (enc : Z -> Z) (push : Z -> Z -> Z) (nw : Z).
Context (Hpush : forall a, push (enc a) (rd (a + l)) = enc (a + 1)) (Henc : forall a, enc a = nw <-> occurs a).

Lemma finds_next a e r : ~ occurs a -> finds (a + 1) e r -> finds a e r.
Proof. intros Ho. apply finds_from; [lia|]. intros q Hq. by replace q with a by lia. Qed.

Lemma str_window_spec e fuel : rd e = 0 -> forall a,
  a + l - 1 <= e -> (forall q, a <= q < e -> rd q <> 0) -> e - a < Z.of_nat fuel ->
  exists r, str_window rd fuel push nw (l - 1) (a + l - 1) (enc a) = Some r /\ finds a e r.
Proof.
  intros E0. induction fuel as [|fuel IH]; intros a He Hn Hf; [lia|]. cbn [str_window].
  destruct (Z.eq_dec (a + l - 1) e) as [Ee|Ne].
  { rewrite Ee, E0. exists None. split; [done|]. cbn. lia. }
  destruct (Z.eqb_spec (rd (a + l - 1)) 0) as [E|_]; [exfalso; apply (Hn (a + l - 1)); (done || lia)|]. cbn [negb andb].
  destruct (Z.eqb_spec (enc a) nw) as [E|N]; cbn [negb].
  - exists (Some a). split; [do 2 f_equal; lia|]. apply Henc in E. split_and!; try done; lia.
  - replace (a + l - 1 + 1) with (a + l) by lia. rewrite Hpush. destruct (IH (a + 1)) as (r & E & Hr); [lia|intros; apply Hn; lia|lia|].
    exists r. split; [rewrite <- E; f_equal; lia|]. apply finds_next; [|done]. by rewrite <- Henc.
Qed.

Lemma mem_window_spec k : forall a, finds a (a + l + Z.of_nat k) (mem_window rd k push nw l (a + l) (enc a)).
Proof.
  induction k as [|k IH]; intros a; cbn [mem_window]; (destruct (Z.eqb_spec (enc a) nw) as [E|N];
    [replace (a + l - l) with a by lia; apply Henc in E; split_and!; (done || lia)|]).
  - intros q Hq Hb. assert (q = a) as -> by lia. by rewrite <- Henc.
  - rewrite Hpush. apply finds_next; [by rewrite <- Henc|]. specialize (IH (a + 1)).
    replace (a + l + Z.of_nat (S k)) with (a + 1 + l + Z.of_nat k) by lia. by replace (a + l + 1) with (a + 1 + l) by lia.
Qed.
End Windows.
End Needle.

(** The words of the short needles. *)
Lemma lor_low a b k : 0 <= k -> 0 <= b < 2 ^ k -> Z.lor (Z.shiftl a k) b = a * 2 ^ k + b.
Proof. intros Hk Hb. rewrite Z.lor_comm, lor_shiftl_add by done. lia. Qed.
Lemma lor_mult a b k : 0 <= k -> 0 <= b < 2 ^ k -> Z.lor (a * 2 ^ k) b = a * 2 ^ k + b.
Proof. intros Hk Hb. rewrite <- lor_low by done. by rewrite Z.shiftl_mul_pow2. Qed.

Lemma twobyte_value a : twobyte rd a = rd a * 2 ^ 8 + rd (a + 1).
Proof. pose proof (Hrd a). pose proof (Hrd (a + 1)). unfold twobyte. rewrite lor_low, u16_id by lia. done. Qed.
Lemma threebyte_value a : threebyte rd a = (rd a * 2 ^ 16 + rd (a + 1) * 2 ^ 8 + rd (a + 2)) * 2 ^ 8.
Proof.
  pose proof (Hrd a). pose proof (Hrd (a + 1)). pose proof (Hrd (a + 2)). unfold threebyte.
  rewrite !Z.shiftl_mul_pow2, u32_id, lor_mult by lia.
  replace (rd a * 2 ^ 24 + rd (a + 1) * 2 ^ 16) with ((rd a * 2 ^ 8 + rd (a + 1)) * 2 ^ 16) by lia. rewrite lor_mult by lia. lia.
Qed.
Lemma fourbyte_value a : fourbyte rd a = ((rd a * 2 ^ 8 + rd (a + 1)) * 2 ^ 8 + rd (a + 2)) * 2 ^ 8 + rd (a + 3).
Proof.
  pose proof (Hrd a). pose proof (Hrd (a + 1)). pose proof (Hrd (a + 2)). pose proof (Hrd (a + 3)).
  unfold fourbyte. fold (threebyte rd a). rewrite threebyte_value, lor_mult by lia. lia.
Qed.

Lemma push2_value x y : 0 <= y < 256 -> push2 x y = (x * 2 ^ 8 + y) mod 2 ^ 16.
Proof. intros Hy. unfold push2. by rewrite lor_low by lia. Qed.
Lemma push3_value x y : 0 <= y < 256 -> push3 (x * 2 ^ 8) y = ((x * 2 ^ 8 + y) * 2 ^ 8) mod 2 ^ 32.
Proof. intros Hy. unfold push3. by rewrite lor_mult, Z.shiftl_mul_pow2 by lia. Qed.
Lemma push4_value x y : 0 <= y < 256 -> push4 x y = (x * 2 ^ 8 + y) mod 2 ^ 32.
Proof. intros Hy. unfold push4. by rewrite lor_low by lia. Qed.

Lemma mod_top x y m : 0 <= y < m -> (x * m + y) mod m = y.
Proof. intros Hy. rewrite Z.add_comm, Z.mod_add by lia. by apply Z.mod_small. Qed.

Lemma twobyte_push a : push2 (twobyte rd a) (rd (a + 2)) = twobyte rd (a + 1).
Proof.
  pose proof (Hrd a). pose proof (Hrd (a + 1)). pose proof (Hrd (a + 2)). rewrite push2_value, !twobyte_value by done.
  replace (a + 1 + 1) with (a + 2) by lia. rewrite <- (mod_top (rd a) (rd (a + 1) * 2 ^ 8 + rd (a + 2)) (2 ^ 16)) by lia. f_equal. lia.
Qed.
Lemma threebyte_push a : push3 (threebyte rd a) (rd (a + 3)) = threebyte rd (a + 1).
Proof.
  pose proof (Hrd a). pose proof (Hrd (a + 1)). pose proof (Hrd (a + 2)). pose proof (Hrd (a + 3)). rewrite !threebyte_value, push3_value by done.
  replace (a + 1 + 1) with (a + 2) by lia. replace (a + 1 + 2) with (a + 3) by lia.
  rewrite <- (mod_top (rd a) ((rd (a + 1) * 2 ^ 16 + rd (a + 2) * 2 ^ 8 + rd (a + 3)) * 2 ^ 8) (2 ^ 32)) by lia. f_equal. lia.
Qed.
Lemma fourbyte_push a : push4 (fourbyte rd a) (rd (a + 4)) = fourbyte rd (a + 1).
Proof.
  pose proof (Hrd a). pose proof (Hrd (a + 1)). pose proof (Hrd (a + 2)). pose proof (Hrd (a + 3)). pose proof (Hrd (a + 4)).
  rewrite push4_value, !fourbyte_value by done.
  replace (a + 1 + 1) with (a + 2) by lia. replace (a + 1 + 2) with (a + 3) by lia. replace (a + 1 + 3) with (a + 4) by lia.
  rewrite <- (mod_top (rd a) (((rd (a + 1) * 2 ^ 8 + rd (a + 2)) * 2 ^ 8 + rd (a + 3)) * 2 ^ 8 + rd (a + 4)) (2 ^ 32)) by lia. f_equal. lia.
Qed.

(** Digits are told apart by the number. *)
Lemma occurs_small n l a (ds : list Z) : ds = (fun i => Z.of_nat i) <$> seq 0 (Z.to_nat l) -> occurs n l a <-> Forall (fun i => rd (a + i) = rd (n + i)) ds.
Proof.
  intros ->. rewrite Forall_fmap, Forall_forall. unfold occurs, letter. split.
  - intros Ho i Hi. apply in_seq in Hi. cbn. apply Ho. lia.
  - intros Hf i Hi. specialize (Hf (Z.to_nat i)). cbn in Hf. rewrite Z2Nat.id in Hf by lia. apply Hf. apply in_seq. lia.
Qed.
Lemma twobyte_occurs n a : twobyte rd a = twobyte rd n <-> occurs n 2 a.
Proof.
  rewrite (occurs_small n 2 a [0; 1]) by done. rewrite !Forall_cons_iff, Forall_nil_iff, !Z.add_0_r, !twobyte_value.
  pose proof (Hrd a). pose proof (Hrd (a + 1)). pose proof (Hrd n). pose proof (Hrd (n + 1)). split; [intros; split_and!; (done || lia)|intros (-> & -> & _); done].
Qed.
Lemma threebyte_occurs n a : threebyte rd a = threebyte rd n <-> occurs n 3 a.
Proof.
  rewrite (occurs_small n 3 a [0; 1; 2]) by done. rewrite !Forall_cons_iff, Forall_nil_iff, !Z.add_0_r, !threebyte_value.
  pose proof (Hrd a). pose proof (Hrd (a + 1)). pose proof (Hrd (a + 2)). pose proof (Hrd n). pose proof (Hrd (n + 1)). pose proof (Hrd (n + 2)).
  split; [intros; split_and!; (done || lia)|intros (-> & -> & -> & _); done].
Qed.
Lemma fourbyte_occurs n a : fourbyte rd a = fourbyte rd n <-> occurs n 4 a.
Proof.
  rewrite (occurs_small n 4 a [0; 1; 2; 3]) by done. rewrite !Forall_cons_iff, Forall_nil_iff, !Z.add_0_r, !fourbyte_value.
  pose proof (Hrd a). pose proof (Hrd (a + 1)). pose proof (Hrd (a + 2)). pose proof (Hrd (a + 3)).
  pose proof (Hrd n). pose proof (Hrd (n + 1)). pose proof (Hrd (n + 2)). pose proof (Hrd (n + 3)).
  split; [intros; split_and!; (done || lia)|intros (-> & -> & -> & -> & _); done].
Qed.

(** ** The functions *)

Lemma cstring_zero a l i : cstring rd a l -> 0 <= i <= Z.of_nat (length l) -> (rd (a + i) =? 0) = (i =? Z.of_nat (length l)).
Proof.
  intros [Hn Hg] Hi. pose proof (Hg (Z.to_nat i) ltac:(lia)) as E. rewrite Z2Nat.id in E by lia. rewrite E.
  destruct (Z.eqb_spec i (Z.of_nat (length l))) as [->|N]; [by rewrite Nat2Z.id, cstr_get_end|].
  apply Z.eqb_neq, cstr_get_in; [done|lia].
Qed.
Lemma cstring_nonzero a l q : cstring rd a l -> a <= q < a + Z.of_nat (length l) -> rd q <> 0.
Proof.
  intros Hs Hq. pose proof (cstring_zero a l (q - a) Hs ltac:(lia)) as E. replace (a + (q - a)) with q in E by lia.
  apply Z.eqb_neq. rewrite E. lia.
Qed.

Lemma strchr_first a l c fuel :
  cstring rd a l -> (length l < fuel)%nat -> 0 < c < 256 ->
  exists r, strchr rd fuel a c = Some r /\
    match r with
    | Some q => a <= q < a + Z.of_nat (length l) /\ rd q = c /\ forall i, a <= i < q -> rd i <> c
    | None => forall i, a <= i < a + Z.of_nat (length l) -> rd i <> c
    end.
Proof.
  intros Hs Hf Hc. unfold strchr. rewrite (strchrnul_spec rd Hrd a l c fuel Hs Hf), u8_id by lia. eexists. split; [done|].
  destruct (find_index_spec (fun x => x =? c) l) as (H1 & H2 & H3). set (k := find_index _ l) in *. clearbody k. destruct Hs as [Hn Hg].
  assert (Hbefore : forall i, a <= i < a + Z.of_nat k -> rd i <> c).
  { intros i Hi. specialize (H2 (Z.to_nat (i - a)) ltac:(lia)). rewrite <- Hg in H2 by lia. apply Z.eqb_neq. rewrite <- H2. do 2 f_equal. lia. }
  destruct (Nat.eq_dec k (length l)) as [->|].
  - rewrite Hg, cstr_get_end by lia. destruct (Z.eqb_spec 0 c); [lia|]. done.
  - pose proof (H3 ltac:(lia)) as E. rewrite <- Hg in E by lia. rewrite E. apply Z.eqb_eq in E. split_and!; try done; lia.
Qed.

Lemma occurs_first n l q : 0 < l -> occurs n l q -> rd q = rd n.
Proof. intros Hl Ho. pose proof (Ho 0 ltac:(lia)) as E. unfold letter in E. by rewrite !Z.add_0_r in E. Qed.

Section Strings.
Context (h n : Z) (hay ndl : list Z) (Hh : cstring rd h hay) (Hn : cstring rd n ndl).
Context (Lh : Z.of_nat (length hay) < 2 ^ 62) (Ln : Z.of_nat (length ndl) < 2 ^ 62).
Let l : Z := Z.of_nat (length ndl).
Let e : Z := h + Z.of_nat (length hay).

Lemma needle_zero i : 0 <= i <= l -> (rd (n + i) =? 0) = (i =? l).
Proof. intros Hi. by apply cstring_zero. Qed.
Lemma text_zero q : h <= q <= e -> (rd q =? 0) = (q =? e).
Proof.
  intros Hq. replace q with (h + (q - h)) at 1 by lia. rewrite (cstring_zero h hay) by (done || unfold e in *; lia). unfold e. lia.
Qed.
Lemma short_strstr push enc back a fuel :
  (forall b, push (enc b) (rd (b + l)) = enc (b + 1)) -> (forall b, enc b = enc n <-> occurs n l b) -> back = l - 1 ->
  0 < l -> h <= a -> a + back < e -> (length hay < fuel)%nat ->
  exists r, str_window rd fuel push (enc n) back (a + back) (enc a) = Some r /\ finds n l a e r.
Proof.
  intros Hp He -> Hl Ha Hb Hf. replace (a + (l - 1)) with (a + l - 1) by lia.
  apply str_window_spec; try done; [|lia|intros q Hq; apply (cstring_nonzero h hay); [done|unfold e in *; lia]|unfold e in *; lia].
  apply Z.eqb_eq. rewrite text_zero by lia. lia.
Qed.

(** The choice of a method, once the text starts like the needle. *)
Lemma dispatch_strstr a fuel stack :
  h <= a < e -> rd a = rd n -> 0 < l -> (length hay < fuel)%nat -> (2 * length ndl <= fuel)%nat ->
  exists r, (if rd (n + 1) =? 0 then Some (Some a)
      else if rd (a + 1) =? 0 then Some None
      else if rd (n + 2) =? 0 then twobyte_strstr rd fuel a n
      else if rd (a + 2) =? 0 then Some None
      else if rd (n + 3) =? 0 then threebyte_strstr rd fuel a n
      else if rd (a + 3) =? 0 then Some None
      else if rd (n + 4) =? 0 then fourbyte_strstr rd fuel a n
      else twoway_strstr rd fuel stack a n) = Some r /\ finds n l a e r.
Proof.
  intros Ha Ea Hl Hf Hf2.
  assert (Nil : e < a + l -> exists r, Some None = Some r /\ finds n l a e r) by (intros Hb; exists None; split; [done|]; cbn; lia).
  rewrite (needle_zero 1) by lia. destruct (Z.eqb_spec 1 l) as [E|].
  { exists (Some a). split; [done|]. split_and!; try lia. intros i Hi. replace i with 0 by lia. unfold letter. by rewrite !Z.add_0_r. }
  rewrite (text_zero (a + 1)) by lia. destruct (Z.eqb_spec (a + 1) e); [apply Nil; lia|].
  rewrite (needle_zero 2) by lia. destruct (Z.eqb_spec 2 l) as [E|].
  { apply short_strstr; try done; try lia; rewrite <- E; [apply twobyte_push|apply twobyte_occurs]. }
  rewrite (text_zero (a + 2)) by lia. destruct (Z.eqb_spec (a + 2) e); [apply Nil; lia|].
  rewrite (needle_zero 3) by lia. destruct (Z.eqb_spec 3 l) as [E|].
  { apply short_strstr; try done; try lia; rewrite <- E; [apply threebyte_push|apply threebyte_occurs]. }
  rewrite (text_zero (a + 3)) by lia. destruct (Z.eqb_spec (a + 3) e); [apply Nil; lia|].
  rewrite (needle_zero 4) by lia. destruct (Z.eqb_spec 4 l) as [E|].
  { apply short_strstr; try done; try lia; rewrite <- E; [apply fourbyte_push|apply fourbyte_occurs]. }
  apply twoway_strstr_spec; try (unfold e in *; lia).
  - apply Z.eqb_eq. rewrite text_zero by lia. lia.
  - intros q Hq. apply (cstring_nonzero h hay); [done|unfold e in *; lia].
  - intros k Hk. apply Z.eqb_neq. unfold letter. rewrite needle_zero by lia. lia.
  - apply Z.eqb_eq. unfold letter. rewrite needle_zero by lia. lia.
Qed.

Lemma strstr_spec fuel stack : (length hay < fuel)%nat -> (2 * length ndl <= fuel)%nat ->
  exists r, strstr rd fuel stack h n = Some r /\ finds n l h e r.
Proof.
  intros Hf Hf2. unfold strstr. assert (Hl : 0 <= l) by lia. assert (E0 : (rd n =? 0) = (0 =? l)) by (rewrite <- needle_zero by lia; by rewrite Z.add_0_r).
  rewrite E0. destruct (Z.eqb_spec 0 l) as [E|Hl0].
  { exists (Some h). split; [done|]. split_and!; try (unfold e; lia). intros i Hi. lia. }
  assert (Hc : 0 < rd n < 256) by (pose proof (Hrd n); lia).
  destruct (strchr_first h hay (rd n) fuel Hh Hf Hc) as (r & -> & Hr). fold e in Hr. destruct r as [a|].
  - destruct Hr as (Ha & Ea & Hfirst). destruct (dispatch_strstr a fuel stack Ha Ea ltac:(lia) Hf Hf2) as (r & -> & Hr).
    exists r. split; [done|]. apply (finds_from n l h a); [lia| |done]. intros q Hq Ho. apply (Hfirst q Hq). apply (occurs_first n l); (done || lia).
  - exists None. split; [done|]. intros q Hq Hb Ho. apply (Hr q ltac:(lia)). apply (occurs_first n l); (done || lia).
Qed.
End Strings.

Section Blocks.
Context (h n : Z) (k l : nat) (Lh : Z.of_nat k < 2 ^ 62).
Let e : Z := h + Z.of_nat k.

Lemma dispatch_memmem a fuel stack :
  (2 <= l)%nat -> h <= a -> a + Z.of_nat l <= e -> (k < fuel)%nat -> (2 * l <= fuel)%nat ->
  let k := (k - Z.to_nat (a - h))%nat in
  exists r, (if (l =? 2)%nat then Some (twobyte_memmem rd a k n)
      else if (l =? 3)%nat then Some (threebyte_memmem rd a k n)
      else if (l =? 4)%nat then Some (fourbyte_memmem rd a k n)
      else twoway_memmem rd fuel stack a (a + Z.of_nat k) n (Z.of_nat l)) = Some r /\ finds n (Z.of_nat l) a e r.
Proof.
  intros Hl Ha Hb Hf Hf2 k'. assert (Ek : a + Z.of_nat k' = e) by (unfold k', e in *; lia). rewrite <- Ek in *.
  destruct (Nat.eqb_spec l 2) as [->|].
  { eexists. split; [done|]. pose proof (mem_window_spec n 2 (twobyte rd) push2 (twobyte rd n) twobyte_push (twobyte_occurs n) (k' - 2) a) as Hw.
    by replace (a + Z.of_nat k') with (a + 2 + Z.of_nat (k' - 2)) by lia. }
  destruct (Nat.eqb_spec l 3) as [->|].
  { eexists. split; [done|]. pose proof (mem_window_spec n 3 (threebyte rd) push3 (threebyte rd n) threebyte_push (threebyte_occurs n) (k' - 3) a) as Hw.
    by replace (a + Z.of_nat k') with (a + 3 + Z.of_nat (k' - 3)) by lia. }
  destruct (Nat.eqb_spec l 4) as [->|].
  { eexists. split; [done|]. pose proof (mem_window_spec n 4 (fourbyte rd) push4 (fourbyte rd n) fourbyte_push (fourbyte_occurs n) (k' - 4) a) as Hw.
    by replace (a + Z.of_nat k') with (a + 4 + Z.of_nat (k' - 4)) by lia. }
  apply twoway_memmem_spec; lia.
Qed.

Lemma memmem_spec fuel stack : (k < fuel)%nat -> (2 * l <= fuel)%nat ->
  exists r, memmem rd fuel stack h k n l = Some r /\ finds n (Z.of_nat l) h e r.
Proof.
  intros Hf Hf2. unfold memmem. destruct (Nat.eqb_spec l 0) as [->|Hl].
  { exists (Some h). split; [done|]. split_and!; try (unfold e; lia). intros i Hi. lia. }
  assert (Nil : forall a, h <= a -> e < a + Z.of_nat l -> exists r, Some None = Some r /\ finds n (Z.of_nat l) a e r) by (intros a Ha Hb; exists None; split; [done|]; cbn; lia).
  destruct (Nat.ltb_spec k l); [apply Nil; unfold e; lia|].
  pose proof (memchr_first h (rd n) k (Hrd n)) as Hc. fold e in Hc. destruct (memchr rd h (rd n) k) as [a|].
  - destruct Hc as (Ha & Ea & Hfirst).
    assert (Hskip : forall r, finds n (Z.of_nat l) a e r -> finds n (Z.of_nat l) h e r).
    { intros r. apply finds_from; [lia|]. intros q Hq Ho. apply (Hfirst q Hq). apply (occurs_first n (Z.of_nat l)); (done || lia). }
    destruct (Nat.eqb_spec l 1) as [->|].
    { exists (Some a). split; [done|]. apply Hskip. split_and!; try lia. intros i Hi. replace i with 0 by lia. unfold letter. by rewrite !Z.add_0_r. }
    cbv zeta. destruct (Nat.ltb_spec (k - Z.to_nat (a - h)) l).
    + destruct (Nil a ltac:(lia) ltac:(unfold e in *; lia)) as (r & E & Hr). exists r. auto.
    + destruct (dispatch_memmem a fuel stack ltac:(lia) ltac:(lia) ltac:(unfold e in *; lia) Hf Hf2) as (r & E & Hr). exists r. auto.
  - exists None. split; [done|]. intros q Hq Hb Ho. apply (Hc q ltac:(lia)). apply (occurs_first n (Z.of_nat l)); (done || lia).
Qed.
End Blocks.

(** ** The reference: trying each place of a list *)
Fixpoint find_sub (ndl hay : list Z) : option nat :=
  if bool_decide (ndl `prefix_of` hay) then Some 0%nat
  else match hay with [] => None | _ :: hay' => S <$> find_sub ndl hay' end.

(** The bytes [l] are at [a]. *)
Definition bytes_at (a : Z) (l : list Z) : Prop := forall i b, l !! i = Some b -> rd (a + Z.of_nat i) = b.

Lemma cstring_bytes_at a l : cstring rd a l -> bytes_at a l.
Proof.
  intros [_ Hg] i b E. rewrite Hg by (apply lookup_lt_Some in E; lia). unfold cstr_get. by rewrite E.
Qed.

Lemma bytes_at_tail a b l : bytes_at a (b :: l) -> bytes_at (a + 1) l.
Proof. intros Hb i c E. replace (a + 1 + Z.of_nat i) with (a + Z.of_nat (S i)) by lia. by apply Hb. Qed.

Lemma occurs_prefix h n hay ndl :
  bytes_at h hay -> bytes_at n ndl -> (length ndl <= length hay)%nat -> occurs n (Z.of_nat (length ndl)) h <-> ndl `prefix_of` hay.
Proof.
  intros Hh Hn Hl. split.
  - intros Ho. exists (drop (length ndl) hay). rewrite <- (take_drop (length ndl) hay) at 1. f_equal.
    apply list_eq_same_length with (n := length ndl); [done|rewrite length_take; lia|]. intros i x y Hi Ex Ey.
    rewrite lookup_take_lt in Ex by done. rewrite <- (Hh i x Ex), <- (Hn i y Ey). apply Ho. lia.
  - intros Hp i Hi. destruct (lookup_lt_is_Some_2 ndl (Z.to_nat i) ltac:(lia)) as (b & E). pose proof (prefix_lookup_Some _ _ _ _ E Hp) as E'.
    apply Hh in E'. apply Hn in E. unfold letter. rewrite Z2Nat.id in E, E' by lia. congruence.
Qed.

Lemma find_sub_finds n ndl hay : bytes_at n ndl -> forall h, bytes_at h hay ->
  finds n (Z.of_nat (length ndl)) h (h + Z.of_nat (length hay)) ((fun i => h + Z.of_nat i) <$> find_sub ndl hay).
Proof.
  intros Hn. induction hay as [|b hay IH]; intros h Hh; cbn [find_sub]; (case_bool_decide as Hp;
    [cbn; pose proof (prefix_length _ _ Hp) as Hl; cbn in Hl; rewrite Z.add_0_r; split_and!; try (cbn; lia); by apply (occurs_prefix h n _ ndl Hh Hn)|]).
  - cbn. intros q Hq Hb Ho. assert (Hl : length ndl = 0%nat) by lia. apply Hp. apply nil_length_inv in Hl as ->. done.
  - specialize (IH (h + 1) (bytes_at_tail _ _ _ Hh)). cbn [length]. replace (h + Z.of_nat (S (length hay))) with (h + 1 + Z.of_nat (length hay)) by lia.
    destruct (Nat.le_gt_cases (length ndl) (S (length hay))) as [Hl|Hl].
    + apply finds_next; [intros Ho; apply Hp; by apply (occurs_prefix h n)|]. destruct (find_sub ndl hay) as [i|]; [|done].
      cbn in *. by replace (h + Z.of_nat (S i)) with (h + 1 + Z.of_nat i) by lia.
    + destruct (find_sub ndl hay) as [i|]; cbn in *; [lia|]. intros q Hq Hb. lia.
Qed.

Lemma finds_unique n l h e r r' : finds n l h e r -> finds n l h e r' -> r = r'.
Proof.
  destruct r as [q|], r' as [q'|]; cbn; intros F F'; [|exfalso|exfalso|done].
  - destruct F as (Hq & He & Ho & Hf), F' as (Hq' & He' & Ho' & Hf'). f_equal. destruct (Z.lt_trichotomy q q') as [Hlt|[|Hlt]]; [exfalso|done|exfalso].
    + by apply (Hf' q ltac:(lia)).
    + by apply (Hf q' ltac:(lia)).
  - destruct F as (Hq & He & Ho & _). by apply (F' q).
  - destruct F' as (Hq & He & Ho & _). by apply (F q').
Qed.
End Correct.

(** ** Properties *)

(** C26: [strstr] returns the first place of the needle in the text, the one
    found by trying every place in turn, and the null pointer when there is
    none: whichever of the four methods it takes, for periodic and other
    needles, and whatever the table of shifts held before.  It returns once
    the fuel is above the length of the text and twice that of the needle. *)
Theorem strstr_finds (rd : Z -> Z) fuel stack h n hay ndl :
  (forall a, 0 <= rd a < 256) -> cstring rd h hay -> cstring rd n ndl ->
  Z.of_nat (length hay) < 2 ^ 62 -> Z.of_nat (length ndl) < 2 ^ 62 -> (length hay < fuel)%nat -> (2 * length ndl <= fuel)%nat ->
  strstr rd fuel stack h n = Some ((fun i => h + Z.of_nat i) <$> find_sub ndl hay).
Proof.
  intros Hrd Hh Hn Lh Ln Hf Hf2. destruct (strstr_spec rd Hrd h n hay ndl Hh Hn Lh Ln fuel stack Hf Hf2) as (r & -> & Hr). f_equal.
  apply (finds_unique _ _ _ _ _ _ _ Hr). apply find_sub_finds; by apply cstring_bytes_at.
Qed.

(** [memmem] returns the first place of the [l] bytes of the needle among
    the [k] bytes of the block, and the null pointer when there is none; bytes
    of value zero are bytes like the others. *)
Theorem memmem_finds (rd : Z -> Z) fuel stack h n hay ndl :
  (forall a, 0 <= rd a < 256) -> bytes_at rd h hay -> bytes_at rd n ndl ->
  Z.of_nat (length hay) < 2 ^ 62 -> (length hay < fuel)%nat -> (2 * length ndl <= fuel)%nat ->
  memmem rd fuel stack h (length hay) n (length ndl) = Some ((fun i => h + Z.of_nat i) <$> find_sub ndl hay).
Proof.
  intros Hrd Hh Hn Lh Hf Hf2. destruct (memmem_spec rd Hrd h n (length hay) (length ndl) Lh fuel stack Hf Hf2) as (r & -> & Hr). f_equal.
  apply (finds_unique _ _ _ _ _ _ _ Hr). by apply find_sub_finds.
Qed.

(** Two strings one behind the other. *)
Lemma rd_list_app l1 l2 i : rd_list (l1 ++ l2) (Z.of_nat (length l1) + Z.of_nat i) = cstr_get l2 i.
Proof.
  unfold rd_list. destruct (Z.leb_spec 0 (Z.of_nat (length l1) + Z.of_nat i)); [|lia]. unfold cstr_get. f_equal.
  rewrite lookup_app_r by lia. f_equal. lia.
Qed.
Lemma rd_list_first l1 l2 : Forall (fun c => c <> 0) l1 -> cstring (rd_list (l1 ++ 0 :: l2)) 0 l1.
Proof.
  intros Hl. split; [done|]. intros i Hi. unfold rd_list. destruct (Z.leb_spec 0 (0 + Z.of_nat i)); [|lia]. unfold cstr_get.
  replace (Z.to_nat (0 + Z.of_nat i)) with i by lia. destruct (Nat.eq_dec i (length l1)) as [->|].
  - rewrite lookup_app_r, Nat.sub_diag by lia. by rewrite (lookup_ge_None_2 l1).
  - by rewrite lookup_app_l by lia.
Qed.

(** A needle with a period, that nearly is at several places before. *)
Definition text : list Z := [97; 98; 97; 97; 98; 97; 98; 97; 98; 97; 97; 98; 97; 97; 98; 97; 98; 97].
Definition word6 : list Z := [97; 98; 97; 97; 98; 97; 97].
Definition both : list Z := text ++ 0 :: word6.

Lemma both_bytes a : 0 <= rd_list both a < 256.
Proof. apply rd_list_byte. unfold both, text, word6, byte_list. repeat constructor; lia. Qed.

Lemma strstr_finds_witness : strstr (rd_list both) 19 (fun _ => 77) 0 19 = Some (Some 7).
Proof.
  rewrite (strstr_finds (rd_list both) 19 (fun _ => 77) 0 19 text word6).
  - reflexivity.
  - apply both_bytes.
  - apply rd_list_first. repeat constructor; lia.
  - split; [repeat constructor; lia|]. intros i Hi. exact (rd_list_app (text ++ [0]) word6 i).
  - cbn. lia.
  - cbn. lia.
  - cbn. lia.
  - cbn. lia.
Defined.

Lemma memmem_finds_witness : memmem (rd_list both) 25 (fun _ => 77) 0 18 19 7 = Some (Some 7).
Proof.
  refine (memmem_finds (rd_list both) 25 (fun _ => 77) 0 19 text word6 _ _ _ _ _ _).
  - apply both_bytes.
  - apply cstring_bytes_at, rd_list_first. repeat constructor; lia.
  - apply cstring_bytes_at. split; [repeat constructor; lia|]. intros i Hi. exact (rd_list_app (text ++ [0]) word6 i).
  - cbn. lia.
  - cbn. lia.
  - cbn. lia.
Defined.
End Strstr.
