(* ===== verification/MemFns.v ===== *)
(** Copying and filling memory (musl src/string: memcpy.c, memmove.c,
    memset.c), as compiled by GCC on a little-endian machine. *)

From stdpp Require Import base tactics list gmap numbers.
From Stdlib Require Import ZArith Lia.
From S2P Require Import Prelude Mem.

#[local] Open Scope Z_scope.

Module MemFns.
Import Prelude Mem.

(** The variables of the copying loops: memory, [d], [s] and [n]. *)
Record cp := mkCp { mm : gmap Z Z; dd : Z; ss : Z; nn : Z }.

(** [*d++ = *s++] *)
Definition byte1 (c : cp) : cp := mkCp (st 1 (mm c) (dd c) (ld 1 (mm c) (ss c))) (dd c + 1) (ss c + 1) (nn c).
(** [*(u32 * )(d+o) = *(u32 * )(s+o)] *)
Definition word (o : Z) (c : cp) : cp := mkCp (st 4 (mm c) (dd c + o) (ld 4 (mm c) (ss c + o))) (dd c) (ss c) (nn c).
(** [d += k; s += k; n -= j] *)
Definition adv (k j : Z) (c : cp) : cp := mkCp (mm c) (dd c + k) (ss c + k) (nn c - j).
Definition times (k : nat) (c : cp) : cp := Nat.iter k byte1 c.

(** ** memcpy *)

(** [for (; (uintptr_t)s % 4 && n; n--) *d++ = *s++;] *)
Fixpoint align_loop (fuel : nat) (c : cp) : cp :=
  match fuel with
  | O => c
  | S f => if negb (ss c mod 4 =? 0) && negb (nn c =? 0) then align_loop f (adv 0 1 (byte1 c)) else c
  end.
Fixpoint words_loop (fuel : nat) (c : cp) : cp :=
  match fuel with
  | O => c
  | S f => if 16 <=? nn c then words_loop f (adv 16 16 (word 12 (word 8 (word 4 (word 0 c))))) else c
  end.
(** What is left when [d] is aligned as well. *)
Definition aligned_tail (c : cp) : cp :=
  let n := nn c in
  let c := if negb (Z.land n 8 =? 0) then adv 8 0 (word 4 (word 0 c)) else c in
  let c := if negb (Z.land n 4 =? 0) then adv 4 0 (word 0 c) else c in
  let c := if negb (Z.land n 2 =? 0) then times 2 c else c in
  if negb (Z.land n 1 =? 0) then byte1 c else c.

(** The loops of the three cases: [d % 4 = k], the word [w] was read before
    the last [4 - k] bytes. *)
Definition merge (k w x : Z) : Z := Z.lor (Z.shiftr w (8 * (4 - k))) (u32 (Z.shiftl x (8 * k))).
Fixpoint shift_loop (fuel : nat) (k w : Z) (c : cp) : cp :=
  match fuel with
  | O => c
  | S f =>
    if 16 + k <=? nn c then
      let m := mm c in let s := ss c in let d := dd c in
      let x := ld 4 m (s + k) in
      let m := st 4 m d (merge k w x) in
      let w := ld 4 m (s + k + 4) in
      let m := st 4 m (d + 4) (merge k x w) in
      let x := ld 4 m (s + k + 8) in
      let m := st 4 m (d + 8) (merge k w x) in
      let w := ld 4 m (s + k + 12) in
      let m := st 4 m (d + 12) (merge k x w) in
      shift_loop f k w (mkCp m (d + 16) (s + 16) (nn c - 16))
    else c
  end.
Definition shift_case (k : Z) (c : cp) : cp :=
  let w := ld 4 (mm c) (ss c) in
  let c := adv 0 (4 - k) (times (Z.to_nat (4 - k)) c) in
  shift_loop (Z.to_nat (nn c)) k w c.
Definition bytes_tail (c : cp) : cp :=
  let n := nn c in
  let c := if negb (Z.land n 16 =? 0) then times 16 c else c in
  let c := if negb (Z.land n 8 =? 0) then times 8 c else c in
  let c := if negb (Z.land n 4 =? 0) then times 4 c else c in
  let c := if negb (Z.land n 2 =? 0) then times 2 c else c in
  if negb (Z.land n 1 =? 0) then byte1 c else c.

(** The memory afterwards; the result of the function is [dest]. *)
Definition memcpy (dest src n : Z) (m : gmap Z Z) : gmap Z Z :=
  let c := align_loop (Z.to_nat n) (mkCp m dest src n) in
  if dd c mod 4 =? 0 then mm (aligned_tail (words_loop (Z.to_nat (nn c)) c))
  else
    let c := if 32 <=? nn c then shift_case (dd c mod 4) c else c in
    mm (bytes_tail c).

(** ** memmove, with words of [WS = 8] bytes *)
Fixpoint move_bytes (fuel : nat) (c : cp) : cp :=
  match fuel with
  | O => c
  | S f => if negb (nn c =? 0) then move_bytes f (adv 0 1 (byte1 c)) else c
  end.
(** [while (d % WS) { if (!n--) return dest; *d++ = *s++; }]; [true]: the
    function returns. *)
Fixpoint move_align (fuel : nat) (c : cp) : cp * bool :=
  match fuel with
  | O => (c, true)
  | S f =>
    if negb (dd c mod 8 =? 0) then
      if nn c =? 0 then (c, true) else move_align f (adv 0 1 (byte1 c))
    else (c, false)
  end.
Fixpoint move_words (fuel : nat) (c : cp) : cp :=
  match fuel with
  | O => c
  | S f =>
    if 8 <=? nn c then move_words f (adv 8 8 (mkCp (st 8 (mm c) (dd c) (ld 8 (mm c) (ss c))) (dd c) (ss c) (nn c))) else c
  end.
(** Backwards: [d] and [s] stay, [n] goes down. *)
Definition back (k : nat) (c : cp) : cp :=
  let n := nn c - Z.of_nat k in mkCp (st k (mm c) (dd c + n) (ld k (mm c) (ss c + n))) (dd c) (ss c) n.
Fixpoint back_align (fuel : nat) (c : cp) : cp * bool :=
  match fuel with
  | O => (c, true)
  | S f =>
    if negb ((dd c + nn c) mod 8 =? 0) then
      if nn c =? 0 then (c, true) else back_align f (back 1 c)
    else (c, false)
  end.
Fixpoint back_words (fuel : nat) (c : cp) : cp :=
  match fuel with O => c | S f => if 8 <=? nn c then back_words f (back 8 c) else c end.
Fixpoint back_bytes (fuel : nat) (c : cp) : cp :=
  match fuel with O => c | S f => if negb (nn c =? 0) then back_bytes f (back 1 c) else c end.

Definition memmove (dest src n : Z) (m : gmap Z Z) : gmap Z Z :=
  let d := dest in let s := src in
  let c := mkCp m d s n in
  let fuel := S (Z.to_nat n) in
  if d =? s then m
  else if u64 (u64 (s - d) - n) <=? u64 (- u64 (2 * n)) then memcpy d s n m
  else if d <? s then
    if s mod 8 =? d mod 8 then
      let '(c, returns) := move_align fuel c in
      if returns : bool then mm c else mm (move_bytes fuel (move_words fuel c))
    else mm (move_bytes fuel c)
  else
    if s mod 8 =? d mod 8 then
      let '(c, returns) := back_align fuel c in
      if returns : bool then mm c else mm (back_bytes fuel (back_words fuel c))
    else mm (back_bytes fuel c).

(** ** memset *)
Definition set1 (a c : Z) (m : gmap Z Z) : gmap Z Z := st 1 m a c.
Definition set4 (a v : Z) (m : gmap Z Z) : gmap Z Z := st 4 m a v.
Definition set8 (a v : Z) (m : gmap Z Z) : gmap Z Z := st 8 m a v.

(** [for (; n >= 32; n-=32, s+=32)] *)
Fixpoint fill_loop (fuel : nat) (s n c64 : Z) (m : gmap Z Z) : gmap Z Z :=
  match fuel with
  | O => m
  | S f =>
    if 32 <=? n then
      fill_loop f (s + 32) (n - 32) c64 (set8 (s + 24) c64 (set8 (s + 16) c64 (set8 (s + 8) c64 (set8 s c64 m))))
    else m
  end.
Definition memset_words (s n c : Z) (m : gmap Z Z) : gmap Z Z :=
  let c32 := u32 ((2 ^ 32 - 1) / 255 * u8 c) in
  let m := set4 (s + n - 4) c32 (set4 s c32 m) in
  if n <=? 8 then m
  else
    let m := set4 (s + n - 8) c32 (set4 (s + n - 12) c32 (set4 (s + 8) c32 (set4 (s + 4) c32 m))) in
    if n <=? 24 then m
    else
      let m := set4 (s + 24) c32 (set4 (s + 20) c32 (set4 (s + 16) c32 (set4 (s + 12) c32 m))) in
      let m := set4 (s + n - 16) c32 (set4 (s + n - 20) c32 (set4 (s + n - 24) c32 (set4 (s + n - 28) c32 m))) in
      let k := 24 + Z.land s 4 in
      let c64 := Z.lor c32 (Z.shiftl c32 32) in
      fill_loop (Z.to_nat n) (s + k) (n - k) c64 m.
Definition memset (dest c n : Z) (m : gmap Z Z) : gmap Z Z :=
  let s := dest in
  if n =? 0 then m
  else
    let m := set1 (s + n - 1) c (set1 s c m) in
    if n <=? 2 then m
    else
      let m := set1 (s + n - 3) c (set1 (s + n - 2) c (set1 (s + 2) c (set1 (s + 1) c m))) in
      if n <=? 6 then m
      else
        let m := set1 (s + n - 4) c (set1 (s + 3) c m) in
        if n <=? 8 then m
        else
          let k := Z.land (u64 (- s)) 3 in
          memset_words (s + k) (Z.land (n - k) (u64 (-4))) c m.


(** ** Bytes of words *)
Lemma ld_app a b m x : ld (a + b) m x = ld a m x + 256 ^ Z.of_nat a * ld b m (x + Z.of_nat a).
Proof.
  revert x. induction a as [|a IH]; intros x; [cbn; rewrite Z.add_0_r; lia|]. cbn [ld Nat.add]. rewrite IH.
  rewrite Nat2Z.inj_succ, Z.pow_succ_r by lia. replace (x + 1 + Z.of_nat a) with (x + Z.succ (Z.of_nat a)) by lia. lia.
Qed.
Lemma ld_inj n m m' a a' : ld n m a = ld n m' a' -> forall i, 0 <= i < Z.of_nat n -> ld8 m (a + i) = ld8 m' (a' + i).
Proof.
  revert a a'. induction n as [|n IH]; intros a a' E i Hi; [lia|]. cbn [ld] in E.
  pose proof (ld8_range m a). pose proof (ld8_range m' a').
  assert (E1 : ld8 m a = ld8 m' a' /\ ld n m (a + 1) = ld n m' (a' + 1)) by lia. destruct E1 as [E1 E2].
  destruct (Z.eq_dec i 0) as [->|]; [by rewrite !Z.add_0_r|].
  replace (a + i) with (a + 1 + (i - 1)) by lia. replace (a' + i) with (a' + 1 + (i - 1)) by lia. apply IH; [done|lia].
Qed.
Lemma ld_mod n m a : ld n m a mod 256 ^ Z.of_nat n = ld n m a.
Proof. apply Z.mod_small, ld_range. Qed.

(** Two words shifted together are the word between them. *)
Lemma merge_ld k m a :
  1 <= k <= 3 -> merge k (ld 4 m (a - (4 - k))) (ld 4 m (a + k)) = ld 4 m a.
Proof.
  intros Hk. set (r := Z.to_nat (4 - k)). set (q := Z.to_nat k). assert (Hr : Z.of_nat r = 4 - k) by (unfold r; lia). assert (Hq : Z.of_nat q = k) by (unfold q; lia).
  assert (Erq : forall x, ld 4 m x = ld r m x + 256 ^ (4 - k) * ld q m (x + (4 - k))).
  { intros x. rewrite <- Hr, <- ld_app. f_equal. lia. }
  assert (Eqr : forall x, ld 4 m x = ld q m x + 256 ^ k * ld r m (x + k)).
  { intros x. rewrite <- Hq at 1 2. rewrite <- ld_app. f_equal. lia. }
  assert (P1 : forall j, 0 <= j -> 256 ^ j = 2 ^ (8 * j)) by (intros j Hj; rewrite Z.pow_mul_r by lia; done).
  assert (P32 : 2 ^ 32 = 2 ^ (8 * (4 - k)) * 2 ^ (8 * k)) by (rewrite <- Z.pow_add_r by lia; f_equal; lia).
  pose proof (ld_range r m (a - (4 - k))) as R1. pose proof (ld_range q m a) as R2. pose proof (ld_range r m (a + k)) as R3.
  rewrite Hr, P1 in R1, R3 by lia. rewrite Hq, P1 in R2 by lia. unfold merge.
  assert (E1 : Z.shiftr (ld 4 m (a - (4 - k))) (8 * (4 - k)) = ld q m a).
  { rewrite Z.shiftr_div_pow2, Erq, P1 by lia. replace (a - (4 - k) + (4 - k)) with a by lia.
    rewrite (Z.mul_comm (2 ^ _)), Z.div_add by lia. rewrite Z.div_small by lia. lia. }
  assert (E2 : u32 (Z.shiftl (ld 4 m (a + k)) (8 * k)) = Z.shiftl (ld r m (a + k)) (8 * k)).
  { rewrite !Z.shiftl_mul_pow2, Erq, P1 by lia. unfold u32. rewrite P32. rewrite <- (Z.mul_mod_distr_r _ _ (2 ^ (8 * k))) || idtac.
    rewrite Zmult_mod_distr_r. f_equal. rewrite (Z.mul_comm (2 ^ _)), Z.mod_add by lia. by apply Z.mod_small. }
  rewrite E1, E2, lor_shiftl_add by lia. rewrite Eqr, P1 by lia. lia.
Qed.

(** A number is the sum of its bits: what the tails after the loops rely on. *)
Definition bit (n b : Z) : bool := negb (Z.land n b =? 0).
Definition part (n b : Z) : Z := if bit n b then b else 0.
Lemma parts32 n : 0 <= n < 32 -> part n 16 + part n 8 + part n 4 + part n 2 + part n 1 = n.
Proof.
  intros Hn. assert (E : forallb (fun i => part i 16 + part i 8 + part i 4 + part i 2 + part i 1 =? i) (seqZ 0 32) = true) by reflexivity.
  rewrite forallb_forall in E. apply Z.eqb_eq, E, list_elem_of_In, elem_of_seqZ. lia.
Qed.
Lemma parts16 n : 0 <= n < 16 -> part n 8 + part n 4 + part n 2 + part n 1 = n.
Proof.
  intros Hn. rewrite <- (parts32 n) at 5 by lia. enough (part n 16 = 0) by lia. unfold part, bit.
  assert (E : forallb (fun i => Z.land i 16 =? 0) (seqZ 0 16) = true) by reflexivity.
  rewrite forallb_forall in E. rewrite E; [done|]. apply list_elem_of_In, elem_of_seqZ. lia.
Qed.
Lemma part_nonneg n b : 0 <= b -> 0 <= part n b.
Proof. unfold part. destruct (bit n b); lia. Qed.

(** ** Copying upwards

    [copied m k]: the first [k] bytes are copied and all else is unchanged. *)
Section Forward.
Context (m0 : gmap Z Z) (d0 s0 n0 : Z) (Hpos : 0 <= n0) (Hdir : d0 <= s0 \/ s0 + n0 <= d0).

Record copied (m : gmap Z Z) (k : Z) : Prop := {
  co_in i : 0 <= i < k -> ld8 m (d0 + i) = ld8 m0 (s0 + i);
  co_out x : x < d0 \/ d0 + k <= x -> ld8 m x = ld8 m0 x
}.

Lemma copied_src n m k j : copied m k -> 0 <= k <= j -> j + Z.of_nat n <= n0 -> ld n m (s0 + j) = ld n m0 (s0 + j).
Proof. intros [_ Ho] Hk Hj. apply ld_ext. intros x Hx. apply Ho. lia. Qed.

Lemma copied_store n m k v :
  copied m k -> 0 <= k -> v mod 256 ^ Z.of_nat n = ld n m0 (s0 + k) -> copied (st n m (d0 + k) v) (k + Z.of_nat n).
Proof.
  intros [Hi Ho] Hk Hv. split.
  - intros i Hik. destruct (Z_lt_ge_dec i k) as [Hlt|Hge]; [rewrite ld8_st_out by lia; apply Hi; lia|].
    assert (E : ld n (st n m (d0 + k) v) (d0 + k) = ld n m0 (s0 + k)) by (by rewrite ld_st_eq).
    pose proof (ld_inj _ _ _ _ _ E (i - k) ltac:(lia)) as Eb. by replace (d0 + k + (i - k)) with (d0 + i) in Eb by lia; replace (s0 + k + (i - k)) with (s0 + i) in Eb by lia.
  - intros x Hx. rewrite ld8_st_out by lia. apply Ho. lia.
Qed.
Lemma copied_ld n m k : copied m k -> 0 <= k -> k + Z.of_nat n <= n0 -> copied (st n m (d0 + k) (ld n m (s0 + k))) (k + Z.of_nat n).
Proof. intros Hc Hk Hn. apply copied_store; [done|done|]. rewrite ld_mod. by apply (copied_src n m k k). Qed.

(** The copying loops at byte [k]. *)
Record at_ (c : cp) (k : Z) : Prop := {
  at_copied : copied (mm c) k;
  at_d : dd c = d0 + k;
  at_s : ss c = s0 + k;
  at_k : 0 <= k <= n0
}.

Lemma at_byte1 c k : at_ c k -> k + 1 <= n0 -> at_ (byte1 c) (k + 1).
Proof. intros [Hc Hd Hs Hk] Hn. split; cbn [byte1 mm dd ss]; [rewrite Hd, Hs; apply (copied_ld 1); [done|lia|cbn; lia]|lia..]. Qed.
Lemma at_times j c k : at_ c k -> k + Z.of_nat j <= n0 -> at_ (times j c) (k + Z.of_nat j).
Proof.
  intros Hc. induction j as [|j IH]; intros Hn; [by rewrite Z.add_0_r|]. unfold times in *. cbn [Nat.iter].
  replace (k + Z.of_nat (S j)) with (k + Z.of_nat j + 1) by lia. apply at_byte1; [apply IH; lia|lia].
Qed.
Lemma times_n j c : nn (times j c) = nn c.
Proof. unfold times. induction j as [|j IH]; [done|]. cbn [Nat.iter byte1 nn]. exact IH. Qed.

(** Words at an offset: [o] more bytes are copied already. *)
Lemma copied_word c k o : copied (mm c) (k + o) -> dd c = d0 + k -> ss c = s0 + k -> 0 <= k -> 0 <= o -> k + o + 4 <= n0 ->
  copied (mm (word o c)) (k + (o + 4)).
Proof.
  intros Hc Hd Hs Hk Ho Hn. cbn [word mm]. rewrite Hd, Hs. replace (k + (o + 4)) with (k + o + Z.of_nat 4) by lia.
  replace (d0 + k + o) with (d0 + (k + o)) by lia. replace (s0 + k + o) with (s0 + (k + o)) by lia.
  apply copied_ld; [done|lia|lia].
Qed.
Lemma at_words4 c k : at_ c k -> k + 4 <= n0 -> at_ (adv 4 0 (word 0 c)) (k + 4).
Proof. intros [Hc Hd Hs Hk] Hn. split; cbn [adv dd ss]; [apply (copied_word c k 0)|cbn [word dd ss]; lia..]; try lia. by rewrite Z.add_0_r. Qed.
Lemma at_words8 c k : at_ c k -> k + 8 <= n0 -> at_ (adv 8 0 (word 4 (word 0 c))) (k + 8).
Proof.
  intros [Hc Hd Hs Hk] Hn. split; cbn [adv dd ss]; [|cbn [word dd ss]; lia..]. apply (copied_word _ k 4); try (cbn [word dd ss]; lia).
  apply (copied_word c k 0); try lia. by rewrite Z.add_0_r.
Qed.
Lemma at_words16 c k : at_ c k -> k + 16 <= n0 -> at_ (adv 16 16 (word 12 (word 8 (word 4 (word 0 c))))) (k + 16).
Proof.
  intros [Hc Hd Hs Hk] Hn. split; cbn [adv dd ss]; [|cbn [word dd ss]; lia..].
  apply (copied_word _ k 12); try (cbn [word dd ss]; lia). apply (copied_word _ k 8); try (cbn [word dd ss]; lia).
  apply (copied_word _ k 4); try (cbn [word dd ss]; lia). apply (copied_word c k 0); try lia. by rewrite Z.add_0_r.
Qed.
Lemma at_adv0 j c k : at_ c k -> at_ (adv 0 j c) k.
Proof. intros [Hc Hd Hs Hk]. split; cbn [adv mm dd ss]; [done|lia..]. Qed.

Lemma align_loop_run fuel c k : at_ c k -> nn c = n0 - k -> exists k', at_ (align_loop fuel c) k' /\ nn (align_loop fuel c) = n0 - k'.
Proof.
  revert c k. induction fuel as [|fuel IH]; intros c k Hc Hn; [by exists k|]. cbn [align_loop].
  destruct (Z.eqb_spec (ss c mod 4) 0), (Z.eqb_spec (nn c) 0); cbn [negb andb]; try (by exists k).
  pose proof (at_k _ _ Hc). apply (IH _ (k + 1)); [apply at_adv0, at_byte1; [done|lia]|]. cbn [adv nn byte1]. lia.
Qed.
Lemma words_loop_run fuel c k : at_ c k -> nn c = n0 - k -> nn c <= Z.of_nat fuel ->
  exists k', at_ (words_loop fuel c) k' /\ nn (words_loop fuel c) = n0 - k' /\ nn (words_loop fuel c) < 16.
Proof.
  revert c k. induction fuel as [|fuel IH]; intros c k Hc Hn Hf; pose proof (at_k _ _ Hc); [exists k; cbn [words_loop]; split; [done|lia]|]. cbn [words_loop].
  destruct (Z.leb_spec 16 (nn c)); [|exists k; split; [done|lia]].
  apply (IH _ (k + 16)); [apply at_words16; [done|lia]|cbn [adv nn word]; lia..].
Qed.

Lemma shift_loop_run fuel j w c k :
  1 <= j <= 3 -> at_ c k -> nn c = n0 - k -> 4 - j <= k -> w = ld 4 m0 (s0 + k - (4 - j)) -> nn c <= Z.of_nat fuel ->
  exists k', at_ (shift_loop fuel j w c) k' /\ nn (shift_loop fuel j w c) = n0 - k' /\ nn (shift_loop fuel j w c) < 16 + j.
Proof.
  intros Hj. revert w c k. induction fuel as [|fuel IH]; intros w c k Hc Hn Hk Hw Hf; pose proof (at_k _ _ Hc); [exists k; cbn [shift_loop]; split; [done|lia]|].
  cbn [shift_loop]. destruct (Z.leb_spec (16 + j) (nn c)); [|exists k; split; [done|lia]].
  pose proof Hc as [C0 Hd Hs _]. rewrite Hd, Hs.
  assert (Hrd : forall m o, copied m (k + o) -> 0 <= o <= 12 -> ld 4 m (s0 + k + j + o) = ld 4 m0 (s0 + (k + o) + j)).
  { intros m o Hm Ho. replace (s0 + k + j + o) with (s0 + (k + j + o)) by lia. rewrite (copied_src 4 m (k + o)); [f_equal; lia|done|lia|lia]. }
  assert (Hst : forall m o v x, copied m (k + o) -> 0 <= o <= 12 -> v = ld 4 m0 (s0 + (k + o) - (4 - j)) -> x = ld 4 m0 (s0 + (k + o) + j) ->
    copied (st 4 m (d0 + k + o) (merge j v x)) (k + (o + 4))).
  { intros m o v x Hm Ho -> ->. rewrite merge_ld by lia. replace (d0 + k + o) with (d0 + (k + o)) by lia. replace (k + (o + 4)) with (k + o + Z.of_nat 4) by lia.
    apply copied_store; [done|lia|]. by rewrite ld_mod. }
  set (x1 := ld 4 (mm c) (s0 + k + j)). assert (X1 : x1 = ld 4 m0 (s0 + (k + 0) + j)) by (unfold x1; rewrite <- (Hrd (mm c) 0); [by rewrite Z.add_0_r|by rewrite Z.add_0_r|lia]).
  set (m1 := st 4 (mm c) (d0 + k) (merge j w x1)).
  assert (C1 : copied m1 (k + 4)) by (unfold m1; rewrite <- (Z.add_0_r (d0 + k)); apply (Hst _ 0); [by rewrite Z.add_0_r|lia|rewrite Z.add_0_r; done|done]).
  set (w2 := ld 4 m1 (s0 + k + j + 4)). assert (W2 : w2 = ld 4 m0 (s0 + (k + 4) + j)) by (apply Hrd; [done|lia]).
  set (m2 := st 4 m1 (d0 + k + 4) (merge j x1 w2)).
  assert (C2 : copied m2 (k + 8)) by (apply (Hst _ 4); [done|lia|rewrite X1; f_equal; lia|done]).
  set (x3 := ld 4 m2 (s0 + k + j + 8)). assert (X3 : x3 = ld 4 m0 (s0 + (k + 8) + j)) by (apply Hrd; [done|lia]).
  set (m3 := st 4 m2 (d0 + k + 8) (merge j w2 x3)).
  assert (C3 : copied m3 (k + 12)) by (apply (Hst _ 8); [done|lia|rewrite W2; f_equal; lia|done]).
  set (w4 := ld 4 m3 (s0 + k + j + 12)). assert (W4 : w4 = ld 4 m0 (s0 + (k + 12) + j)) by (apply Hrd; [done|lia]).
  set (m4 := st 4 m3 (d0 + k + 12) (merge j x3 w4)).
  assert (C4 : copied m4 (k + 16)) by (apply (Hst _ 12); [done|lia|rewrite X3; f_equal; lia|done]).
  apply (IH _ _ (k + 16)); [split; cbn [mm dd ss]; [done|lia..]|cbn [nn]; lia|lia|rewrite W4; f_equal; lia|cbn [nn]; lia].
Qed.

Lemma at_part (f : cp -> cp) n b c k :
  (forall c k, at_ c k -> k + b <= n0 -> at_ (f c) (k + b)) ->
  at_ c k -> k + part n b <= n0 -> at_ (if bit n b then f c else c) (k + part n b).
Proof. intros Hf Hc Hle. unfold part in *. destruct (bit n b); [by apply Hf|by rewrite Z.add_0_r]. Qed.

Lemma aligned_tail_run c k : at_ c k -> nn c = n0 - k -> nn c < 16 -> at_ (aligned_tail c) n0.
Proof.
  intros Hc Hn H16. pose proof (at_k _ _ Hc). pose proof (parts16 (nn c) ltac:(lia)) as Hp.
  pose proof (part_nonneg (nn c) 4 ltac:(lia)). pose proof (part_nonneg (nn c) 2 ltac:(lia)). pose proof (part_nonneg (nn c) 1 ltac:(lia)).
  assert (E : k + part (nn c) 8 + part (nn c) 4 + part (nn c) 2 + part (nn c) 1 = n0) by lia. rewrite <- E.
  apply (at_part byte1); [apply at_byte1| |lia]. apply (at_part (times 2)); [apply (at_times 2)| |lia].
  apply (at_part (fun c => adv 4 0 (word 0 c))); [apply at_words4| |lia].
  apply (at_part (fun c => adv 8 0 (word 4 (word 0 c)))); [apply at_words8|done|lia].
Qed.
Lemma bytes_tail_run c k : at_ c k -> nn c = n0 - k -> nn c < 32 -> at_ (bytes_tail c) n0.
Proof.
  intros Hc Hn H32. pose proof (at_k _ _ Hc). pose proof (parts32 (nn c) ltac:(lia)) as Hp. pose proof (part_nonneg (nn c) 8 ltac:(lia)).
  pose proof (part_nonneg (nn c) 4 ltac:(lia)). pose proof (part_nonneg (nn c) 2 ltac:(lia)). pose proof (part_nonneg (nn c) 1 ltac:(lia)).
  assert (E : k + part (nn c) 16 + part (nn c) 8 + part (nn c) 4 + part (nn c) 2 + part (nn c) 1 = n0) by lia. rewrite <- E.
  apply (at_part byte1); [apply at_byte1| |lia]. apply (at_part (times 2)); [apply (at_times 2)| |lia].
  apply (at_part (times 4)); [apply (at_times 4)| |lia]. apply (at_part (times 8)); [apply (at_times 8)| |lia].
  apply (at_part (times 16)); [apply (at_times 16)|done|lia].
Qed.

Lemma shift_case_run j c k : 1 <= j <= 3 -> at_ c k -> nn c = n0 - k -> 32 <= nn c ->
  exists k', at_ (shift_case j c) k' /\ nn (shift_case j c) = n0 - k' /\ nn (shift_case j c) < 16 + j.
Proof.
  intros Hj Hc Hn H32. unfold shift_case. set (r := Z.to_nat (4 - j)). assert (Hr : Z.of_nat r = 4 - j) by lia. pose proof (at_k _ _ Hc).
  apply (shift_loop_run _ j _ _ (k + Z.of_nat r)); [done|apply at_adv0, at_times; [done|lia]| |lia| |]; cbn [adv nn]; rewrite ?times_n; try lia.
  destruct Hc as [Hc Hd Hs _]. rewrite Hs, (copied_src 4 _ k k); [f_equal; lia|done|lia|lia].
Qed.

(** Copied upwards, the bytes arrive. *)
Lemma memcpy_copied : copied (memcpy d0 s0 n0 m0) n0.
Proof.
  assert (H0 : at_ (mkCp m0 d0 s0 n0) 0) by (split; cbn [mm dd ss]; [split; [lia|done]|lia..]). unfold memcpy.
  destruct (align_loop_run (Z.to_nat n0) _ 0 H0) as (k & Hc & Hn); [cbn [nn]; lia|]. set (c := align_loop _ _) in *.
  destruct (Z.eqb_spec (dd c mod 4) 0).
  - destruct (words_loop_run (Z.to_nat (nn c)) c k Hc Hn) as (k' & Hc' & Hn' & Hl); [lia|]. by apply at_copied, (aligned_tail_run _ k').
  - apply at_copied. destruct (Z.leb_spec 32 (nn c)) as [H32|H32]; [|by apply (bytes_tail_run _ k)].
    pose proof (Z.mod_pos_bound (dd c) 4 ltac:(lia)).
    destruct (shift_case_run (dd c mod 4) c k) as (k' & Hc' & Hn' & Hl); [lia|done|done|done|]. apply (bytes_tail_run _ k'); [done|done|lia].
Qed.

Lemma move_bytes_run fuel c k : at_ c k -> nn c = n0 - k -> nn c <= Z.of_nat fuel -> at_ (move_bytes fuel c) n0.
Proof.
  revert c k. induction fuel as [|fuel IH]; intros c k Hc Hn Hf; pose proof (at_k _ _ Hc); [cbn [move_bytes]; by replace n0 with k by lia|].
  cbn [move_bytes]. destruct (Z.eqb_spec (nn c) 0); cbn [negb]; [by replace n0 with k by lia|].
  apply (IH _ (k + 1)); [apply at_adv0, at_byte1; [done|lia]|cbn [adv nn byte1]; lia..].
Qed.
Lemma move_align_run fuel c k : at_ c k -> nn c = n0 - k -> nn c < Z.of_nat fuel ->
  exists k' r, at_ (move_align fuel c).1 k' /\ nn (move_align fuel c).1 = n0 - k' /\ (move_align fuel c).2 = r /\ (r = true -> k' = n0).
Proof.
  revert c k. induction fuel as [|fuel IH]; intros c k Hc Hn Hf; pose proof (at_k _ _ Hc); [lia|]. cbn [move_align].
  destruct (Z.eqb_spec (dd c mod 8) 0); cbn [negb]; [by exists k, false|]. destruct (Z.eqb_spec (nn c) 0); [exists k, true; repeat split; [apply Hc..|done|lia]|].
  apply (IH _ (k + 1)); [apply at_adv0, at_byte1; [done|lia]|cbn [adv nn byte1]; lia..].
Qed.
Lemma move_words_run fuel c k : at_ c k -> nn c = n0 - k -> exists k', at_ (move_words fuel c) k' /\ nn (move_words fuel c) = n0 - k'.
Proof.
  revert c k. induction fuel as [|fuel IH]; intros c k Hc Hn; [by exists k|]. cbn [move_words].
  destruct (Z.leb_spec 8 (nn c)); [|by exists k]. apply (IH _ (k + 8)); [|cbn [adv nn]; lia]. destruct Hc as [Hc Hd Hs Hk].
  split; cbn [adv mm dd ss]; [rewrite Hd, Hs; apply (copied_ld 8); [done|lia|lia]|lia..].
Qed.
End Forward.

(** ** Copying downwards

    [copied_back m k]: the bytes from [k] on are copied. *)
Section Backward.
Context (m0 : gmap Z Z) (d0 s0 n0 : Z) (Hpos : 0 <= n0) (Hdir : s0 <= d0).

Record back_at (c : cp) : Prop := {
  ba_in i : nn c <= i < n0 -> ld8 (mm c) (d0 + i) = ld8 m0 (s0 + i);
  ba_out x : x < d0 + nn c \/ d0 + n0 <= x -> ld8 (mm c) x = ld8 m0 x;
  ba_d : dd c = d0;
  ba_s : ss c = s0;
  ba_n : 0 <= nn c <= n0
}.

Lemma back_at_back k c : back_at c -> Z.of_nat k <= nn c -> back_at (back k c).
Proof.
  intros [Hi Ho Hd Hs Hn] Hk. unfold back. split; cbn [mm dd ss nn]; rewrite ?Hd, ?Hs; [| |lia..].
  - intros i Hr. destruct (Z_lt_ge_dec i (nn c)) as [Hlt|Hge]; [|rewrite ld8_st_out by lia; apply Hi; lia].
    set (a := nn c - Z.of_nat k) in *.
    assert (E : ld k (st k (mm c) (d0 + a) (ld k (mm c) (s0 + a))) (d0 + a) = ld k m0 (s0 + a))
      by (rewrite ld_st_eq, ld_mod; apply ld_ext; intros x Hx; apply Ho; lia).
    pose proof (ld_inj _ _ _ _ _ E (i - a) ltac:(lia)) as Eb.
    by replace (d0 + a + (i - a)) with (d0 + i) in Eb by lia; replace (s0 + a + (i - a)) with (s0 + i) in Eb by lia.
  - intros x Hx. rewrite ld8_st_out by lia. apply Ho. lia.
Qed.
Lemma back_bytes_run fuel c : back_at c -> nn c <= Z.of_nat fuel -> back_at (back_bytes fuel c) /\ nn (back_bytes fuel c) = 0.
Proof.
  revert c. induction fuel as [|fuel IH]; intros c Hc Hf; pose proof (ba_n _ Hc); [split; [done|cbn [back_bytes]; lia]|].
  cbn [back_bytes]. destruct (Z.eqb_spec (nn c) 0); cbn [negb]; [done|]. apply IH; [apply back_at_back; [done|lia]|cbn [back nn]; lia].
Qed.
Lemma back_words_run fuel c : back_at c -> back_at (back_words fuel c) /\ nn (back_words fuel c) <= nn c.
Proof.
  revert c. induction fuel as [|fuel IH]; intros c Hc; [done|]. cbn [back_words]. destruct (Z.leb_spec 8 (nn c)); [|done].
  destruct (IH (back 8 c)) as [H1 H2]; [apply back_at_back; [done|lia]|]. split; [done|]. cbn [back nn] in H2. lia.
Qed.
Lemma back_align_run fuel c : back_at c -> nn c < Z.of_nat fuel ->
  back_at (back_align fuel c).1 /\ nn (back_align fuel c).1 <= nn c /\ ((back_align fuel c).2 = true -> nn (back_align fuel c).1 = 0).
Proof.
  revert c. induction fuel as [|fuel IH]; intros c Hc Hf; pose proof (ba_n _ Hc); [lia|]. cbn [back_align].
  destruct (Z.eqb_spec ((dd c + nn c) mod 8) 0); cbn [negb]; [done|]. destruct (Z.eqb_spec (nn c) 0); [done|].
  destruct (IH (back 1 c)) as (H1 & H2 & H3); [apply back_at_back; [done|lia]|cbn [back nn]; lia|]. cbn [back nn] in H2. split; [done|split; [lia|done]].
Qed.
End Backward.

(** ** The functions *)

(** Memory after copying [n] bytes from [src] to [dest] at once. *)
Definition moved (dest src n : Z) (m m' : gmap Z Z) : Prop :=
  forall x, ld8 m' x = if (dest <=? x) && (x <? dest + n) then ld8 m (src + (x - dest)) else ld8 m x.

Lemma copied_moved dest src n m m' : copied m dest src m' n -> moved dest src n m m'.
Proof.
  intros [Hi Ho] x. destruct (Z.leb_spec dest x), (Z.ltb_spec x (dest + n)); cbn [andb]; try (apply Ho; lia).
  rewrite <- Hi by lia. f_equal. lia.
Qed.
Lemma back_at_moved dest src n m c : back_at m dest src n c -> nn c = 0 -> moved dest src n m (mm c).
Proof.
  intros [Hi Ho _ _ _] Hn x. destruct (Z.leb_spec dest x), (Z.ltb_spec x (dest + n)); cbn [andb]; try (apply Ho; lia).
  rewrite <- Hi by lia. f_equal. lia.
Qed.

Lemma memmove_up dest src n m : 0 <= n -> dest < src ->
  let c := mkCp m dest src n in let fuel := S (Z.to_nat n) in
  moved dest src n m (mm (move_bytes fuel c)) /\
  moved dest src n m (let '(c, returns) := move_align fuel c in if returns : bool then mm c else mm (move_bytes fuel (move_words fuel c))).
Proof.
  intros Hn Hlt c fuel. assert (Hdir : dest <= src \/ src + n <= dest) by lia.
  assert (H0 : at_ m dest src n c 0) by (split; cbn [c mm dd ss]; [split; [lia|done]|lia..]). split.
  - apply copied_moved, at_copied with n. apply (move_bytes_run m dest src n Hdir _ _ 0); [done|cbn [c nn]; lia..].
  - destruct (move_align_run m dest src n Hdir fuel c 0 H0) as (k & r & Hc & Hk & Er & Hr); [cbn [c nn]; lia..|].
    destruct (move_align fuel c) as [c' r'] eqn:E. cbn [fst snd] in *. subst r'. apply copied_moved.
    destruct r; [apply at_copied with n; rewrite <- (Hr eq_refl) at 2; done|].
    destruct (move_words_run m dest src n Hdir fuel c' k Hc Hk) as (k' & Hc' & Hk'). pose proof (at_k _ _ _ _ _ _ Hc').
    apply at_copied with n. apply (move_bytes_run m dest src n Hdir _ _ k'); [done|done|lia].
Qed.
Lemma memmove_down dest src n m : 0 <= n -> src <= dest ->
  let c := mkCp m dest src n in let fuel := S (Z.to_nat n) in
  moved dest src n m (mm (back_bytes fuel c)) /\
  moved dest src n m (let '(c, returns) := back_align fuel c in if returns : bool then mm c else mm (back_bytes fuel (back_words fuel c))).
Proof.
  intros Hn Hle c fuel. assert (H0 : back_at m dest src n c) by (split; cbn [c mm dd ss nn]; [lia|done|lia..]). split.
  - destruct (back_bytes_run m dest src n Hle fuel c H0) as [H1 H2]; [cbn [c nn]; lia|]. by apply back_at_moved.
  - destruct (back_align_run m dest src n Hle fuel c H0) as (Hc & Hk & Hr); [cbn [c nn]; lia|].
    destruct (back_align fuel c) as [c' r]. cbn [fst snd] in *. destruct r; [apply back_at_moved; [done|by apply Hr]|].
    destruct (back_words_run m dest src n Hle fuel c' Hc) as [Hc' Hk'].
    destruct (back_bytes_run m dest src n Hle fuel _ Hc') as [H1 H2]; [cbn [c nn] in Hk; lia|]. by apply back_at_moved.
Qed.

(** The test for ranges that do not overlap. *)
Lemma memmove_test d s n : d <> s -> 0 <= d -> 0 <= s -> 0 <= n < 2 ^ 63 -> d + n < 2 ^ 64 -> s + n < 2 ^ 64 ->
  u64 (u64 (s - d) - n) <= u64 (- u64 (2 * n)) -> d + n <= s \/ s + n <= d.
Proof.
  intros Hne Hd Hs Hn Hdn Hsn. unfold u64. rewrite (Z.mod_small (2 * n)) by lia.
  destruct (Z.eq_dec n 0) as [->|Hn0]; [lia|].
  assert (E : (- (2 * n)) mod 2 ^ 64 = 2 ^ 64 - 2 * n) by (rewrite <- (Z.mod_add _ 1) by lia; rewrite Z.mod_small by lia; lia). rewrite E.
  destruct (Z_lt_ge_dec d s).
  - rewrite (Z.mod_small (s - d)) by lia. destruct (Z_lt_ge_dec (s - d) n); [|lia].
    rewrite <- (Z.mod_add _ 1), Z.mod_small by lia. lia.
  - rewrite <- (Z.mod_add (s - d) 1), (Z.mod_small (s - d + _)) by lia. rewrite Z.mod_small by lia. lia.
Qed.

Lemma memcpy_moved dest src n m : 0 <= n -> dest <= src \/ src + n <= dest -> moved dest src n m (memcpy dest src n m).
Proof. intros. by apply copied_moved, memcpy_copied. Qed.

(** C27: [memmove] moves [n] bytes whether or not the two ranges overlap:
    afterwards every byte of the destination is what the source byte was
    before the call and all other memory is unchanged, through the word-wise
    and byte-wise loops in both directions and the call of [memcpy] (with
    its unrolled loops, for every alignment) alike. *)
Theorem memmove_moves dest src n m x :
  0 <= dest -> 0 <= src -> 0 <= n < 2 ^ 63 -> dest + n < 2 ^ 64 -> src + n < 2 ^ 64 ->
  ld8 (memmove dest src n m) x = if (dest <=? x) && (x <? dest + n) then ld8 m (src + (x - dest)) else ld8 m x.
Proof.
  intros Hd Hs Hn Hdn Hsn. revert x. change (moved dest src n m (memmove dest src n m)). unfold memmove. destruct (Z.eqb_spec dest src) as [->|Hne].
  { intros x. destruct (_ && _); [f_equal; lia|done]. }
  destruct (Z.leb_spec (u64 (u64 (src - dest) - n)) (u64 (- u64 (2 * n)))) as [Ht|_].
  { apply memcpy_moved; [lia|]. apply memmove_test in Ht; lia. }
  destruct (Z.ltb_spec dest src).
  - destruct (memmove_up dest src n m) as [H1 H2]; [lia|lia|]. by destruct (_ =? _).
  - destruct (memmove_down dest src n m) as [H1 H2]; [lia|lia|]. by destruct (_ =? _).
Qed.

(** ** Filling *)
Lemma land4_cases s : Z.land s 4 = 0 \/ Z.land s 4 = 4.
Proof.
  change 4 with (Z.land (Z.ones 3) 4) at 1 2. rewrite Z.land_assoc, land_ones_mod by lia.
  pose proof (Z.mod_pos_bound s (2 ^ 3) ltac:(lia)) as H. set (r := s mod 2 ^ 3) in *. clearbody r. change (2 ^ 3) with 8 in H.
  assert (E : forallb (fun i => (Z.land i 4 =? 0) || (Z.land i 4 =? 4)) (seqZ 0 8) = true) by reflexivity.
  rewrite forallb_forall in E. specialize (E r). rewrite <- list_elem_of_In, elem_of_seqZ, orb_true_iff, !Z.eqb_eq in E. apply E. lia.
Qed.
Lemma land_shiftl x y k : 0 <= k -> Z.land x (Z.shiftl y k) = Z.shiftl (Z.land (Z.shiftr x k) y) k.
Proof.
  intros Hk. apply Z.bits_inj'; intros i Hi. rewrite Z.land_spec. destruct (Z_lt_ge_dec i k).
  - rewrite !Z.shiftl_spec_low by lia. apply andb_false_r.
  - rewrite !Z.shiftl_spec, Z.land_spec, Z.shiftr_spec by lia. do 2 f_equal. lia.
Qed.
(** [n &= -4] *)
Lemma land_m4 x : 0 <= x < 2 ^ 64 -> Z.land x (u64 (-4)) = 4 * (x / 4).
Proof.
  intros Hx. change (u64 (-4)) with (Z.shiftl (Z.ones 62) 2). rewrite land_shiftl, land_ones_mod, Z.shiftl_mul_pow2, Z.shiftr_div_pow2 by lia.
  change (2 ^ 2) with 4. rewrite Z.mod_small; [lia|]. split; [apply Z.div_pos; lia|apply Z.div_lt_upper_bound; lia].
Qed.
Section Fill.
Context (m0 : gmap Z Z) (c : Z).

(** Every byte in [P] is [c], the others are as they were. *)
Definition fills (m : gmap Z Z) (P : Z -> Prop) : Prop :=
  forall x, (P x -> ld8 m x = u8 c) /\ (~ P x -> ld8 m x = ld8 m0 x).

(** The low [k] bytes of [v] are all [c]. *)
Fixpoint rep (k : nat) (v : Z) : Prop :=
  match k with O => True | S k => u8 v = u8 c /\ rep k (v / 256) end.

Lemma ld8_st_rep k m a v x : rep k v -> a <= x < a + Z.of_nat k -> ld8 (st k m a v) x = u8 c.
Proof.
  revert m a v. induction k as [|k IH]; intros m a v Hr Hx; [lia|]. destruct Hr as [Hv Hr]. cbn [st].
  destruct (Z.eq_dec x a) as [->|]; [|apply IH; [done|lia]]. rewrite ld8_st_out by lia. by rewrite ld8_st8_eq.
Qed.
Lemma fills_st k m P a v : fills m P -> rep k v -> fills (st k m a v) (fun x => P x \/ a <= x < a + Z.of_nat k).
Proof.
  intros Hf Hr x. destruct (Hf x) as [H1 H2]. destruct (decide (a <= x < a + Z.of_nat k)) as [Hx|Hx].
  - split; [intros _; by apply ld8_st_rep|tauto].
  - rewrite ld8_st_out by lia. tauto.
Qed.
Lemma fills_equiv m P Q : fills m P -> (forall x, P x <-> Q x) -> fills m Q.
Proof. intros Hf E x. specialize (Hf x). rewrite <- E. exact Hf. Qed.

Lemma rep_cons k v : rep k v -> rep (S k) (u8 c + 256 * v).
Proof.
  intros Hr. pose proof (u8_range c). split; [unfold u8 at 1; change (2 ^ 8) with 256; rewrite Z.mul_comm, Z.mod_add by lia; by apply Z.mod_small|].
  rewrite Z.mul_comm, Z.div_add, Z.div_small by lia. done.
Qed.
Definition c32 : Z := u32 ((2 ^ 32 - 1) / 255 * u8 c).
Lemma c32_eq : c32 = u8 c + 256 * (u8 c + 256 * (u8 c + 256 * (u8 c + 256 * 0))).
Proof.
  pose proof (u8_range c). unfold c32. change ((2 ^ 32 - 1) / 255) with 16843009. unfold u32. rewrite Z.mod_small by lia. lia.
Qed.
Lemma rep4 : rep 4 c32.
Proof. rewrite c32_eq. repeat apply rep_cons. done. Qed.
Lemma rep8 : rep 8 (Z.lor c32 (Z.shiftl c32 32)).
Proof.
  pose proof (u8_range c). rewrite lor_shiftl_add by (rewrite ?c32_eq; lia). rewrite c32_eq.
  match goal with |- rep _ ?v => replace v with (u8 c + 256 * (u8 c + 256 * (u8 c + 256 * (u8 c + 256 * (u8 c + 256 * (u8 c + 256 * (u8 c + 256 * (u8 c + 256 * 0)))))))) by lia end.
  repeat apply rep_cons. done.
Qed.

(** [s] and [n] are what is left up to [e]; the 28 bytes before [e] and
    those after it are filled; [n] is a multiple of 4, so that less than 32 is at most 28. *)
Lemma fill_loop_run fuel s q m a b e f g :
  fills m (fun x => a <= x < f \/ g <= x < b) -> a <= g <= e - 28 -> a <= s <= f -> f <= b -> 0 <= q -> s + 4 * q = e -> e <= b -> q <= Z.of_nat fuel ->
  fills (fill_loop fuel s (4 * q) (Z.lor c32 (Z.shiftl c32 32)) m) (fun x => a <= x < b).
Proof.
  revert s q m f. induction fuel as [|fuel IH]; intros s q m f Hf Hg Has Hfb Hn Hsn He Hfu; cbn [fill_loop].
  { apply (fills_equiv _ _ _ Hf). intros x. lia. }
  destruct (Z.leb_spec 32 (4 * q)).
  - replace (4 * q - 32) with (4 * (q - 8)) by lia. apply (IH _ _ _ (Z.max f (s + 32))); [|lia..]. unfold set8. pose proof rep8.
    eapply fills_equiv; [repeat (apply fills_st; [|done]); exact Hf|]. intros x. cbn beta. lia.
  - apply (fills_equiv _ _ _ Hf). intros x. lia.
Qed.

Ltac fill_all Hf := eapply fills_equiv; [repeat (apply fills_st; [|first [exact rep4|done]]); exact Hf|]; intros x; cbn beta; lia.

(** The aligned middle, [4 * q] bytes from [s], with what is before it and
    after it filled. *)
Lemma memset_words_run s q m a b f g :
  fills m (fun x => a <= x < f \/ g <= x < b) -> a <= s <= f -> f <= b -> a <= g <= s + 4 * q -> 1 <= q -> s + 4 * q <= b ->
  fills (memset_words s (4 * q) c m) (fun x => a <= x < b).
Proof.
  intros Hf Has Hfb Hag Hq Hb. unfold memset_words. fold c32. unfold set4.
  destruct (Z.leb_spec (4 * q) 8); [fill_all Hf|].
  match goal with |- context [if _ then ?m1 else _] =>
    assert (H1 : fills m1 (fun x => a <= x < Z.max f (s + 12) \/ Z.min g (s + 4 * q - 12) <= x < b)) by fill_all Hf; set (m1' := m1) in *; clearbody m1' end.
  destruct (Z.leb_spec (4 * q) 24); [eapply fills_equiv; [exact H1|intros x; cbn beta; lia]|].
  match goal with |- fills (fill_loop _ _ _ _ ?m1) _ =>
    assert (H2 : fills m1 (fun x => a <= x < Z.max f (s + 28) \/ Z.min g (s + 4 * q - 28) <= x < b)) by fill_all H1; set (m2' := m1) in *; clearbody m2' end.
  assert (Ek : exists k, (k = 6 \/ k = 7) /\ 24 + Z.land s 4 = 4 * k).
  { destruct (land4_cases s) as [->| ->]; [exists 6|exists 7]; lia. }
  destruct Ek as (k & Hk & ->). replace (4 * q - 4 * k) with (4 * (q - k)) by lia.
  apply (fill_loop_run _ _ _ _ _ _ (s + 4 * q) _ (Z.min g (s + 4 * q - 28)) H2); lia.
Qed.

Lemma memset_run d n : 0 <= d -> 0 <= n -> d + n < 2 ^ 64 -> fills (memset d c n m0) (fun x => d <= x < d + n).
Proof.
  intros Hd Hn Hdn. assert (Hf : fills m0 (fun _ => False)) by (intros x; tauto). unfold memset, set1.
  destruct (Z.eqb_spec n 0); [apply (fills_equiv _ _ _ Hf); intros x; cbn beta; lia|].
  destruct (Z.leb_spec n 2); [fill_all Hf|]. destruct (Z.leb_spec n 6); [fill_all Hf|].
  match goal with |- context [if _ then ?m1 else _] => assert (H1 : fills m1 (fun x => d <= x < d + Z.min n 4 \/ d + Z.max 0 (n - 4) <= x < d + n)) by fill_all Hf; set (m1' := m1) in *; clearbody m1' end.
  destruct (Z.leb_spec n 8); [apply (fills_equiv _ _ _ H1); intros x; cbn beta; lia|].
  assert (Ek : Z.land (u64 (- d)) 3 = (- d) mod 4).
  { change 3 with (Z.ones 2). rewrite land_ones_mod by lia. unfold u64. apply Z.mod_mod_divide. by exists (2 ^ 62). }
  rewrite Ek. pose proof (Z.mod_pos_bound (- d) 4 ltac:(lia)). set (k := (- d) mod 4) in *. rewrite land_m4 by lia.
  pose proof (Z.div_mod (n - k) 4 ltac:(lia)). pose proof (Z.mod_pos_bound (n - k) 4 ltac:(lia)).
  set (q := (n - k) / 4) in *. set (r := (n - k) mod 4) in *. clearbody k q r.
  apply (memset_words_run _ _ _ _ _ _ _ H1); lia.
Qed.
End Fill.

(** [memset] sets the [n] bytes from [dest] to the low byte of [c] and
    no other: the head and tail stores and the aligned loop of 32 bytes
    leave no gap and never go past the end, for every length and
    alignment. *)
Theorem memset_fills dest c n m x :
  0 <= dest -> 0 <= n -> dest + n < 2 ^ 64 ->
  ld8 (memset dest c n m) x = if (dest <=? x) && (x <? dest + n) then u8 c else ld8 m x.
Proof.
  intros Hd Hn Hdn. destruct (memset_run m c dest n Hd Hn Hdn x) as [H1 H2].
  destruct (Z.leb_spec dest x), (Z.ltb_spec x (dest + n)); cbn [andb]; [apply H1|apply H2..]; lia.
Qed.

(** [memcpy] on ranges that do not overlap. *)
Theorem memcpy_copies dest src n m x :
  0 <= n -> dest + n <= src \/ src + n <= dest ->
  ld8 (memcpy dest src n m) x = if (dest <=? x) && (x <? dest + n) then ld8 m (src + (x - dest)) else ld8 m x.
Proof. intros Hn Hd. apply memcpy_moved; lia. Qed.

(** 45 bytes of a text moved by 3, which goes down word by word. *)
Definition text (a : Z) (l : list Z) : gmap Z Z := list_to_map (zip (seqZ a (Z.of_nat (length l))) l).
Lemma memmove_moves_witness : ld8 (memmove 1003 1000 45 (text 1000 (seqZ 1 45))) 1010 = 8.
Proof. rewrite memmove_moves by lia. reflexivity. Defined.
Lemma memset_fills_witness : ld8 (memset 1001 300 70 ∅) 1065 = 44.
Proof. rewrite memset_fills by lia. reflexivity. Defined.
Lemma memcpy_copies_witness : ld8 (memcpy 2001 1000 45 (text 1000 (seqZ 1 45))) 2040 = 40.
Proof. rewrite memcpy_copies by lia. reflexivity. Defined.
End MemFns.
