(* ===== verification/StrCopy.v ===== *)
(** Copying and joining strings (musl src/string: stpcpy.c,
    strcpy.c, stpncpy.c, strncpy.c, strlcpy.c, strlcat.c, strcat.c, strncat.c,
    memccpy.c, mempcpy.c), as compiled by GCC on a little-endian machine.  A
    loop over words copies what the loop over bytes would have copied. *)

From stdpp Require Import base tactics list gmap numbers option.
From Stdlib Require Import ZArith Lia.
From S2P Require Import Prelude Mem CString MemFns.

#[local] Open Scope Z_scope.

Module StrCopy.
Import Prelude Mem.
Import CString(HASZERO, ONES, cstring).
Import MemFns(cp, mkCp, mm, dd, ss, nn, byte1, adv).

(** ** Copying *)

(** [*d = *s] without moving on, and with [n--, s++, d++]. *)
Definition put (c : cp) : cp := mkCp (st 1 (mm c) (dd c) (ld 1 (mm c) (ss c))) (dd c) (ss c) (nn c).
Definition copy1 (c : cp) : cp := adv 0 1 (byte1 c).
Definition copy8 (c : cp) : cp := adv 8 8 (mkCp (st 8 (mm c) (dd c) (ld 8 (mm c) (ss c))) (dd c) (ss c) (nn c)).
Definition byte_at (c : cp) : Z := ld 1 (mm c) (ss c).

(** The loops of [__stpcpy].  The first one: [true] if it returns. *)
Fixpoint cpy_align (fuel : nat) (c : cp) : cp * bool :=
  match fuel with
  | O => (c, false)
  | S f =>
    if negb (ss c mod 8 =? 0) then
      if byte_at c =? 0 then (put c, true) else cpy_align f (copy1 c)
    else (c, false)
  end.
Fixpoint cpy_words (fuel : nat) (c : cp) : option cp :=
  match fuel with
  | O => None
  | S f => if negb (HASZERO (ld 8 (mm c) (ss c))) then cpy_words f (copy8 c) else Some c
  end.
Fixpoint cpy_bytes (fuel : nat) (c : cp) : option cp :=
  match fuel with
  | O => None
  | S f => if byte_at c =? 0 then Some (put c) else cpy_bytes f (copy1 c)
  end.
(** The memory afterwards and the pointer returned. *)
Definition __stpcpy (fuel : nat) (d s : Z) (m : gmap Z Z) : option (gmap Z Z * Z) :=
  let c := mkCp m d s 0 in
  let start :=
    if s mod 8 =? d mod 8 then
      match cpy_align 8 c with
      | (c, true) => Some (c, true)
      | (c, false) => match cpy_words fuel c with None => None | Some c => Some (c, false) end
      end
    else Some (c, false) in
  match start with
  | None => None
  | Some (c, true) => Some (mm c, dd c)
  | Some (c, false) => match cpy_bytes fuel c with None => None | Some c => Some (mm c, dd c) end
  end.
Definition strcpy (fuel : nat) (dest src : Z) (m : gmap Z Z) : option (gmap Z Z) := fst <$> __stpcpy fuel dest src m.

(** With a length: [for (; (s & ALIGN) && n && ( *d=*s) != stop; n--, s++, d++)],
    the loop over words, and the loop over bytes. *)
Fixpoint until_align (fuel : nat) (stop : Z) (c : cp) : cp :=
  match fuel with
  | O => c
  | S f =>
    if negb (Z.land (ss c) 7 =? 0) && negb (nn c =? 0) then
      if byte_at c =? stop then put c else until_align f stop (copy1 c)
    else c
  end.
Fixpoint until_words (fuel : nat) (has : Z -> bool) (c : cp) : cp :=
  match fuel with
  | O => c
  | S f => if (8 <=? nn c) && negb (has (ld 8 (mm c) (ss c))) then until_words f has (copy8 c) else c
  end.
Fixpoint until_bytes (fuel : nat) (stop : Z) (c : cp) : cp :=
  match fuel with
  | O => c
  | S f =>
    if negb (nn c =? 0) then
      if byte_at c =? stop then put c else until_bytes f stop (copy1 c)
    else c
  end.

Definition tail_zeros (c : cp) : gmap Z Z * Z := (MemFns.memset (dd c) 0 (nn c) (mm c), dd c).
Definition __stpncpy (d s n : Z) (m : gmap Z Z) : gmap Z Z * Z :=
  let fuel := S (Z.to_nat n) in
  let c := mkCp m d s n in
  if Z.land s 7 =? Z.land d 7 then
    let c := until_align 8 0 c in
    if (nn c =? 0) || (byte_at c =? 0) then tail_zeros c else tail_zeros (until_bytes fuel 0 (until_words fuel HASZERO c))
  else tail_zeros (until_bytes fuel 0 c).
Definition strncpy (d s n : Z) (m : gmap Z Z) : gmap Z Z := fst (__stpncpy d s n m).

(** The memory afterwards and the length returned. *)
Definition strlcpy (fuel : nat) (d s n : Z) (m : gmap Z Z) : option (gmap Z Z * Z) :=
  if n =? 0 then match CString.strlen (ld8 m) fuel s with None => None | Some k => Some (m, k) end
  else
    let n := n - 1 in
    let turns := S (Z.to_nat n) in
    let c := mkCp m d s n in
    let c :=
      if Z.land s 7 =? Z.land d 7 then
        let c := until_align 8 0 c in
        if negb (nn c =? 0) && negb (byte_at c =? 0) then until_words turns HASZERO c else c
      else c in
    let c := until_bytes turns 0 c in
    let m := st 1 (mm c) (dd c) 0 in
    match CString.strlen (ld8 m) fuel (ss c) with None => None | Some k => Some (m, dd c - d + k) end.

(** The memory and the pointer behind the byte [c], if it was found. *)
Definition memccpy (dest src c n : Z) (m : gmap Z Z) : gmap Z Z * option Z :=
  let turns := S (Z.to_nat n) in
  let c := u8 c in
  let s := mkCp m dest src n in
  let finish (s : cp) := (mm s, if negb (nn s =? 0) then Some (dd s + 1) else None) in
  if Z.land src 7 =? Z.land dest 7 then
    let s := until_align 8 c s in
    if negb (Z.land (ss s) 7 =? 0) then finish s
    else
      let k := u64 (ONES * c) in
      finish (until_bytes turns c (until_words turns (fun w => HASZERO (Z.lxor w k)) s))
  else finish (until_bytes turns c s).

Definition mempcpy (dest src n : Z) (m : gmap Z Z) : gmap Z Z * Z := (MemFns.memcpy dest src n m, dest + n).

(** ** Joining *)
Definition strcat (fuel : nat) (dest src : Z) (m : gmap Z Z) : option (gmap Z Z) :=
  match CString.strlen (ld8 m) fuel dest with None => None | Some k => strcpy fuel (dest + k) src m end.

(** [while (n && *s) n--, *d++ = *s++;] *)
Fixpoint ncat_loop (fuel : nat) (c : cp) : cp :=
  match fuel with
  | O => c
  | S f => if negb (nn c =? 0) && negb (byte_at c =? 0) then ncat_loop f (copy1 c) else c
  end.
Definition strncat (fuel : nat) (d s n : Z) (m : gmap Z Z) : option (gmap Z Z) :=
  match CString.strlen (ld8 m) fuel d with
  | None => None
  | Some k => let c := ncat_loop (S (Z.to_nat n)) (mkCp m (d + k) s n) in Some (st 1 (mm c) (dd c) 0)
  end.
Definition strlcat (fuel : nat) (d s n : Z) (m : gmap Z Z) : option (gmap Z Z * Z) :=
  let l := CString.strnlen (ld8 m) d (Z.to_nat n) in
  if l =? n then match CString.strlen (ld8 m) fuel s with None => None | Some k => Some (m, l + k) end
  else match strlcpy fuel (d + l) s (n - l) m with None => None | Some (m, k) => Some (m, l + k) end.


(** ** Alignment *)
Lemma land_7 x : Z.land x 7 = x mod 8.
Proof. change 7 with (Z.ones 3). by apply land_ones_mod. Qed.
Lemma ld_word m a : ld 8 m a = CString.word (ld8 m) a.
Proof. reflexivity. Qed.

(** The words without the byte [stop]. *)
Definition detects (has : Z -> bool) (stop : Z) : Prop :=
  forall m a, has (ld 8 m a) = true <-> exists i, 0 <= i < 8 /\ ld8 m (a + i) = stop.
Lemma detects_zero : detects HASZERO 0.
Proof. intros m a. rewrite ld_word. apply CString.HASZERO_word, ld8_range. Qed.
Lemma detects_byte c : 0 <= c < 256 -> detects (fun w => HASZERO (Z.lxor w (u64 (ONES * c)))) c.
Proof. intros Hc m a. cbv beta. rewrite ld_word. by apply CString.HASZERO_xor; [apply ld8_range|]. Qed.

(** ** Copying until a byte or a length

    [e] is the place of the first byte [stop] or the length [lim], whichever
    comes first; [tot] bytes are written. *)
Section Until.
Context (m0 : gmap Z Z) (d0 s0 stop lim e : Z).
Context (He : 0 <= e <= lim) (Hbefore : forall i, 0 <= i < e -> ld8 m0 (s0 + i) <> stop) (Hat : e < lim -> ld8 m0 (s0 + e) = stop).
Definition tot : Z := Z.min (e + 1) lim.
Context (Hdir : d0 <= s0 \/ s0 + tot <= d0).

(** At byte [k]; at the end the last byte may have been stored already. *)
Record at_ (c : cp) (k : Z) : Prop := {
  at_copied : MemFns.copied m0 d0 s0 (mm c) k \/ (k = e /\ MemFns.copied m0 d0 s0 (mm c) tot);
  at_d : dd c = d0 + k;
  at_s : ss c = s0 + k;
  at_k : 0 <= k <= e
}.
Record done_ (c : cp) : Prop := { do_copied : MemFns.copied m0 d0 s0 (mm c) tot; do_d : dd c = d0 + e; do_s : ss c = s0 + e }.

Lemma at_src c k j : at_ c k -> k <= j < tot -> ld8 (mm c) (s0 + j) = ld8 m0 (s0 + j).
Proof.
  intros [Hc Hd Hs Hk] Hj. unfold tot in *. destruct Hc as [[_ Ho]|[-> [Hi Ho]]]; [apply Ho; lia|].
  destruct (Z.eq_dec d0 s0) as [<-|]; [apply Hi; unfold tot; lia|apply Ho; unfold tot; lia].
Qed.
Lemma at_byte c k : at_ c k -> k < tot -> (byte_at c =? stop) = (k =? e).
Proof.
  intros Hc Hk. pose proof (at_k _ _ Hc). unfold byte_at. rewrite ld_1, (at_s _ _ Hc), (at_src c k k) by (done || lia). unfold tot in *.
  destruct (Z.eqb_spec k e) as [->|]; [apply Z.eqb_eq, Hat; lia|apply Z.eqb_neq, Hbefore; lia].
Qed.
Lemma at_copied_lt c k : at_ c k -> k < e -> MemFns.copied m0 d0 s0 (mm c) k.
Proof. intros [[Hc|[-> _]] _ _ _]; [done|lia]. Qed.
Lemma at_done c : at_ c lim -> done_ c.
Proof. intros [Hc Hd Hs Hk]. split; [|lia..]. destruct Hc as [Hc|[_ Hc]]; [|done]. by replace tot with lim by (unfold tot; lia). Qed.

Lemma at_put c : at_ c e -> e < lim -> done_ (put c).
Proof.
  intros Hc Hl. pose proof Hc as [Hcc Hd Hs Hk]. assert (Et : tot = e + 1) by (unfold tot; lia).
  split; [|done..]. cbn [put mm]. rewrite ld_1, Hd, Hs, (at_src c e e) by (done || lia). rewrite Et.
  destruct Hcc as [Hcc|[_ [Hi Ho]]].
  - apply (MemFns.copied_store m0 d0 s0 1); [done|lia|]. cbn [Z.of_nat]. rewrite Z.mod_small, ld_1; [done|]. change (256 ^ Z.of_nat 1) with 256. apply ld8_range.
  - split.
    + intros i Hi'. destruct (Z.eq_dec i e) as [->|]; [|rewrite ld8_st_out by lia; apply Hi; lia].
      cbn [st]. rewrite ld8_st8_eq. apply u8_id, ld8_range.
    + intros x Hx. rewrite ld8_st_out by lia. apply Ho. lia.
Qed.
Lemma at_copy n c k : at_ c k -> k + Z.of_nat n <= e -> (0 < n)%nat ->
  at_ (mkCp (st n (mm c) (dd c) (ld n (mm c) (ss c))) (dd c + Z.of_nat n) (ss c + Z.of_nat n) (nn c - Z.of_nat n)) (k + Z.of_nat n).
Proof.
  intros Hc Hn Hn0. pose proof (at_copied_lt c k Hc ltac:(lia)) as Hcc. destruct Hc as [_ Hd Hs Hk]. split; cbn [mm dd ss]; [left|lia..].
  rewrite Hd, Hs. apply (MemFns.copied_ld m0 d0 s0 tot Hdir); [done|lia|unfold tot; lia].
Qed.
Lemma at_copy1 c k : at_ c k -> k < e -> at_ (copy1 c) (k + 1).
Proof.
  intros Hc Hk. destruct (at_copy 1 c k Hc) as [H1 H2 H3 H4]; [cbn; lia|lia|]. split; [exact H1|..]; cbn [copy1 adv byte1 dd ss] in *; lia.
Qed.
Lemma at_copy8 c k : at_ c k -> k + 8 <= e -> at_ (copy8 c) (k + 8).
Proof. intros Hc Hk. exact (at_copy 8 c k Hc Hk ltac:(lia)). Qed.

(** A word without [stop] ends before the place. *)
Lemma at_word has c k : detects has stop -> at_ c k -> has (ld 8 (mm c) (ss c)) = false -> e < lim \/ k + 8 <= lim -> k + 8 <= e.
Proof.
  intros Hh Hc E Hk. destruct (Z_lt_ge_dec e (k + 8)) as [Hlt|]; [|lia]. exfalso. pose proof (at_k _ _ Hc).
  assert (Hl : e < lim) by lia. enough (has (ld 8 (mm c) (ss c)) = true) by congruence. apply Hh. exists (e - k). split; [lia|].
  rewrite (at_s _ _ Hc). replace (s0 + k + (e - k)) with (s0 + e) by lia. rewrite (at_src c k e) by (done || (unfold tot; lia)). by apply Hat.
Qed.

(** *** The loops with a length *)
Lemma until_align_run fuel c k : at_ c k -> nn c = lim - k -> (- ss c) mod 8 < Z.of_nat fuel ->
  exists k', at_ (until_align fuel stop c) k' /\ nn (until_align fuel stop c) = lim - k' /\
             (ss (until_align fuel stop c) mod 8 <> 0 -> done_ (until_align fuel stop c)).
Proof.
  revert c k. induction fuel as [|fuel IH]; intros c k Hc Hn Hf; pose proof (at_k _ _ Hc); [pose proof (Z.mod_pos_bound (- ss c) 8); lia|].
  cbn [until_align]. rewrite land_7. destruct (Z.eqb_spec (ss c mod 8) 0) as [Ea|Na]; cbn [negb andb]; [by exists k|].
  destruct (Z.eqb_spec (nn c) 0); cbn [negb].
  { exists k. split; [done|]. split; [done|]. intros _. apply at_done. by replace lim with k by lia. }
  rewrite (at_byte c k) by (done || (unfold tot; lia)). destruct (Z.eqb_spec k e) as [->|Nk].
  { pose proof (at_put c Hc ltac:(lia)) as Hd. exists e. split; [|split; [done|done]]. split; [by right; split; [|apply Hd]|apply Hd..|lia]. }
  apply (IH (copy1 c) (k + 1)); [apply at_copy1; [done|lia]|cbn [copy1 adv byte1 nn]; lia|].
  cbn [copy1 adv byte1 ss]. zdm.
Qed.
Lemma until_words_run fuel has c k : detects has stop -> at_ c k -> nn c = lim - k ->
  exists k', at_ (until_words fuel has c) k' /\ nn (until_words fuel has c) = lim - k'.
Proof.
  intros Hh. revert c k. induction fuel as [|fuel IH]; intros c k Hc Hn; cbn [until_words]; [by exists k|].
  destruct (Z.leb_spec 8 (nn c)); cbn [andb]; [|by exists k]. destruct (has _) eqn:E; cbn [negb]; [by exists k|].
  assert (k + 8 <= e) by (apply (at_word has c k); done || lia).
  apply (IH (copy8 c) (k + 8)); [by apply at_copy8|cbn [copy8 adv nn]; lia].
Qed.
Lemma until_bytes_run fuel c k : at_ c k -> nn c = lim - k -> e - k < Z.of_nat fuel ->
  done_ (until_bytes fuel stop c) /\ nn (until_bytes fuel stop c) = lim - e.
Proof.
  revert c k. induction fuel as [|fuel IH]; intros c k Hc Hn Hf; pose proof (at_k _ _ Hc); [lia|]. cbn [until_bytes].
  destruct (Z.eqb_spec (nn c) 0); cbn [negb]; [split; [apply at_done; by replace lim with k by lia|lia]|].
  rewrite (at_byte c k) by (done || (unfold tot; lia)). destruct (Z.eqb_spec k e) as [->|]; [split; [apply at_put; [done|lia]|done]|].
  apply (IH (copy1 c) (k + 1)); [apply at_copy1; [done|lia]|cbn [copy1 adv byte1 nn]; lia|lia].
Qed.
Lemma at_start n : at_ (mkCp m0 d0 s0 n) 0.
Proof. split; cbn [mm dd ss]; [left; split; [lia|done]|lia..]. Qed.

(** *** The loops that only end at the byte 0 *)
Context (Hstop : stop = 0) (Hlt : e < lim).
Lemma at_byte0 c k : at_ c k -> (byte_at c =? 0) = (k =? e).
Proof. intros Hc. pose proof (at_k _ _ Hc). rewrite <- Hstop. apply at_byte; [done|unfold tot; lia]. Qed.
Lemma cpy_align_run fuel c k : at_ c k -> (- ss c) mod 8 < Z.of_nat fuel ->
  exists k', at_ (cpy_align fuel c).1 k' /\ ((cpy_align fuel c).2 = true -> done_ (cpy_align fuel c).1).
Proof.
  revert c k. induction fuel as [|fuel IH]; intros c k Hc Hf; pose proof (at_k _ _ Hc); [pose proof (Z.mod_pos_bound (- ss c) 8); lia|].
  cbn [cpy_align]. destruct (Z.eqb_spec (ss c mod 8) 0); cbn [negb]; [by exists k|]. rewrite (at_byte0 c k) by done.
  destruct (Z.eqb_spec k e) as [->|].
  { pose proof (at_put c Hc Hlt) as Hd. exists e. split; [|done]. split; [by right; split; [|apply Hd]|apply Hd..|lia]. }
  apply (IH (copy1 c) (k + 1)); [apply at_copy1; [done|lia]|]. cbn [copy1 adv byte1 ss]. zdm.
Qed.
Lemma cpy_words_run fuel c k : at_ c k -> e - k < Z.of_nat fuel -> exists c' k', cpy_words fuel c = Some c' /\ at_ c' k' /\ k <= k'.
Proof.
  revert c k. induction fuel as [|fuel IH]; intros c k Hc Hf; pose proof (at_k _ _ Hc); [lia|]. cbn [cpy_words].
  destruct (HASZERO _) eqn:E; cbn [negb]; [by exists c, k|].
  assert (k + 8 <= e) by (apply (at_word HASZERO c k); rewrite ?Hstop; [apply detects_zero|done..|lia]).
  destruct (IH (copy8 c) (k + 8)) as (c' & k' & H1 & H2 & H3); [by apply at_copy8|lia|]. exists c', k'. split; [done|split; [done|lia]].
Qed.
Lemma cpy_bytes_run fuel c k : at_ c k -> e - k < Z.of_nat fuel -> exists c', cpy_bytes fuel c = Some c' /\ done_ c'.
Proof.
  revert c k. induction fuel as [|fuel IH]; intros c k Hc Hf; pose proof (at_k _ _ Hc); [lia|]. cbn [cpy_bytes].
  rewrite (at_byte0 c k) by done. destruct (Z.eqb_spec k e) as [->|]; [eexists; split; [done|by apply at_put]|].
  apply (IH (copy1 c) (k + 1)); [apply at_copy1; [done|lia]|lia].
Qed.
End Until.

(** ** Where copying ends *)
Definition place (m : gmap Z Z) (s c n : Z) : Z :=
  match CString.find_byte (ld8 m) s c (Z.to_nat n) with Some p => p - s | None => n end.
Lemma find_byte_spec rd c n : forall s,
  match CString.find_byte rd s c n with
  | Some p => s <= p < s + Z.of_nat n /\ rd p = c /\ forall q, s <= q < p -> rd q <> c
  | None => forall q, s <= q < s + Z.of_nat n -> rd q <> c
  end.
Proof.
  induction n as [|n IH]; intros s; cbn [CString.find_byte]; [intros q; lia|].
  destruct (Z.eqb_spec (rd s) c); [split; [lia|split; [done|intros q; lia]]|]. specialize (IH (s + 1)).
  destruct (CString.find_byte rd (s + 1) c n) as [p|].
  - destruct IH as (H1 & H2 & H3). split; [lia|]. split; [done|]. intros q Hq. destruct (Z.eq_dec q s) as [->|]; [done|apply H3; lia].
  - intros q Hq. destruct (Z.eq_dec q s) as [->|]; [done|apply IH; lia].
Qed.
Lemma place_spec m s c n : 0 <= n ->
  let e := place m s c n in
  0 <= e <= n /\ (forall i, 0 <= i < e -> ld8 m (s + i) <> c) /\ (e < n -> ld8 m (s + e) = c).
Proof.
  intros Hn. unfold place. cbv zeta. pose proof (find_byte_spec (ld8 m) c (Z.to_nat n) s) as F. destruct (CString.find_byte _ _ _ _) as [p|].
  - destruct F as (H1 & H2 & H3). split; [lia|]. split; [intros i Hi; apply H3; lia|]. intros _. by replace (s + (p - s)) with p by lia.
  - split; [lia|]. split; [intros i Hi; apply F; lia|lia].
Qed.
Lemma place_unique m s c n e : 0 <= e <= n -> (forall i, 0 <= i < e -> ld8 m (s + i) <> c) -> (e < n -> ld8 m (s + e) = c) -> place m s c n = e.
Proof.
  intros He Hb Ha. destruct (place_spec m s c n ltac:(lia)) as (H1 & H2 & H3). set (p := place m s c n) in *.
  destruct (Z.lt_trichotomy p e) as [|[|]]; [|done|].
  - exfalso. apply (Hb p); [lia|]. apply H3. lia.
  - exfalso. apply (H2 e); [lia|]. apply Ha. lia.
Qed.
Lemma place_cstring m s l n : cstring (ld8 m) s l -> 0 <= n -> place m s 0 n = Z.min (Z.of_nat (length l)) n.
Proof.
  intros [Hl Hg] Hn. apply place_unique; [lia| |].
  - intros i Hi. replace i with (Z.of_nat (Z.to_nat i)) by lia. rewrite Hg by lia. apply CString.cstr_get_in; [done|lia].
  - intros Hlt. replace (Z.min _ n) with (Z.of_nat (length l)) by lia. rewrite Hg by lia. apply CString.cstr_get_end.
Qed.

(** ** The functions *)

(** [k] bytes of the source and zeros up to [n]. *)
Definition padded (d s k n : Z) (m m' : gmap Z Z) : Prop :=
  forall x, ld8 m' x = if (d <=? x) && (x <? d + k) then ld8 m (s + (x - d)) else if (d + k <=? x) && (x <? d + n) then 0 else ld8 m x.

Section Functions.
Context (m : gmap Z Z) (d s c n : Z) (Hn : 0 <= n).
Context (Hdir : d <= s \/ s + tot n (place m s c n) <= d).

Lemma place_range : 0 <= (place m s c n) <= n.
Proof. by apply place_spec. Qed.
Lemma place_before i : 0 <= i < (place m s c n) -> ld8 m (s + i) <> c.
Proof. apply place_spec; lia. Qed.
Lemma place_at : (place m s c n) < n -> ld8 m (s + (place m s c n)) = c.
Proof. apply place_spec; lia. Qed.

Lemma end_moved r : done_ m d s n (place m s c n) r -> MemFns.moved d s (tot n (place m s c n)) m (mm r).
Proof. intros []. by apply MemFns.copied_moved. Qed.

(** The three loops one after another, or the last one alone. *)
Lemma words_bytes_run has r k fuel : detects has c -> at_ m d s n (place m s c n) r k -> nn r = n - k -> n < Z.of_nat fuel ->
  let r' := until_bytes fuel c (until_words fuel has r) in done_ m d s n (place m s c n) r' /\ nn r' = n - (place m s c n).
Proof.
  intros Hh Hr Hk Hf r'. destruct (until_words_run m d s c n (place m s c n) place_range place_before place_at Hdir fuel has r k Hh Hr Hk) as (k' & Hr' & Hk').
  pose proof (StrCopy.at_k _ _ _ _ _ _ _ Hr'). pose proof place_range. apply (until_bytes_run m d s c n (place m s c n) place_range place_before place_at Hdir fuel _ k'); [done|done|lia].
Qed.
Lemma bytes_run fuel : n < Z.of_nat fuel -> let r' := until_bytes fuel c (mkCp m d s n) in done_ m d s n (place m s c n) r' /\ nn r' = n - (place m s c n).
Proof.
  intros Hf r'. pose proof place_range. apply (until_bytes_run m d s c n (place m s c n) place_range place_before place_at Hdir fuel _ 0); [by apply at_start|cbn [nn]; lia|lia].
Qed.
Lemma align_run : exists k, let r := until_align 8 c (mkCp m d s n) in
  at_ m d s n (place m s c n) r k /\ nn r = n - k /\ (ss r mod 8 <> 0 -> done_ m d s n (place m s c n) r).
Proof.
  apply (until_align_run m d s c n (place m s c n) place_range place_before place_at Hdir 8 _ 0); [by apply at_start, place_range|cbn [nn]; lia|].
  cbn [ss]. pose proof (Z.mod_pos_bound (- s) 8). lia.
Qed.

(** What [!n || !*s] says behind the first loop. *)
Lemma ends_here r k : at_ m d s n (place m s c n) r k -> nn r = n - k -> (nn r =? 0) || (byte_at r =? c) = true -> k = (place m s c n).
Proof.
  intros Hr Hk E. pose proof (StrCopy.at_k _ _ _ _ _ _ _ Hr). pose proof place_range. apply orb_prop in E as [E|E]; [lia|].
  destruct (Z.eq_dec k (place m s c n)) as [|N]; [done|]. rewrite (at_byte m d s c n (place m s c n) place_before place_at Hdir r k Hr) in E by (unfold tot; lia). lia.
Qed.

End Functions.

Lemma stpcpy_run m d s n fuel : 0 <= place m s 0 n < n -> d <= s \/ s + tot n (place m s 0 n) <= d -> place m s 0 n < Z.of_nat fuel ->
  exists m', __stpcpy fuel d s m = Some (m', d + place m s 0 n) /\ MemFns.moved d s (place m s 0 n + 1) m m'.
Proof.
  intros Hp Hdir Hf. assert (Hn : 0 <= n) by lia. destruct (place_spec m s 0 n Hn) as (He & Hb & Ha). set (e := place m s 0 n) in *.
  assert (Et : tot n e = e + 1) by (unfold tot; lia). set (c0 := mkCp m d s 0).
  assert (H0 : at_ m d s n e c0 0) by (by apply at_start).
  assert (Fin : forall r, done_ m d s n e r -> exists m', Some (mm r, dd r) = Some (m', d + e) /\ MemFns.moved d s (e + 1) m m').
  { intros r Hr. pose proof (do_copied _ _ _ _ _ _ Hr) as Hc. rewrite Et in Hc. rewrite (do_d _ _ _ _ _ _ Hr). eexists. split; [done|]. by apply MemFns.copied_moved. }
  assert (Bytes : forall r k, at_ m d s n e r k -> exists m', match cpy_bytes fuel r with None => None | Some c => Some (mm c, dd c) end = Some (m', d + e) /\ MemFns.moved d s (e + 1) m m').
  { intros r k Hr. pose proof (at_k _ _ _ _ _ _ _ Hr).
    destruct (cpy_bytes_run m d s 0 n e He Hb Ha Hdir eq_refl ltac:(lia) fuel r k Hr ltac:(lia)) as (r' & -> & Hr'). by apply Fin. }
  unfold __stpcpy. fold c0. destruct (_ =? _); [|by apply (Bytes c0 0)].
  destruct (cpy_align_run m d s 0 n e He Hb Ha Hdir eq_refl ltac:(lia) 8 c0 0 H0) as (k & Hr & Hd); [cbn [c0 ss]; pose proof (Z.mod_pos_bound (- s) 8); lia|].
  destruct (cpy_align 8 c0) as [r [|]]; cbn [fst snd] in *; [by apply Fin, Hd|]. pose proof (at_k _ _ _ _ _ _ _ Hr).
  destruct (cpy_words_run m d s 0 n e He Hb Ha Hdir eq_refl ltac:(lia) fuel r k Hr ltac:(lia)) as (r' & k' & -> & Hr' & _). by apply (Bytes r' k').
Qed.

Lemma tail_zeros_run m d s n e r : 0 <= d -> d + n < 2 ^ 64 -> 0 <= e <= n -> at_ m d s n e r e -> nn r = n - e ->
  exists m', tail_zeros r = (m', d + e) /\ padded d s e n m m'.
Proof.
  intros Hd Hdn He [Hc Ed Es _] En. unfold tail_zeros. rewrite Ed, En. eexists. split; [done|]. intros x.
  destruct (MemFns.memset_run (mm r) 0 (d + e) (n - e) ltac:(lia) ltac:(lia) ltac:(lia) x) as [H1 H2].
  assert (Hi : d <= x < d + e -> ld8 (mm r) x = ld8 m (s + (x - d))).
  { intros Hx. destruct Hc as [[Hi _]|[_ [Hi _]]]; rewrite <- (Hi (x - d)) by (unfold tot; lia); f_equal; lia. }
  assert (Ho : x < d \/ d + n <= x -> ld8 (mm r) x = ld8 m x) by (intros Hx; destruct Hc as [[_ Ho]|[_ [_ Ho]]]; apply Ho; unfold tot; lia).
  repeat zcase; cbn [andb]; first [rewrite H2 by lia; apply Hi; lia|rewrite H1 by lia; done|rewrite H2 by lia; apply Ho; lia].
Qed.
Lemma done_at m d s n e r : 0 <= e <= n -> done_ m d s n e r -> at_ m d s n e r e.
Proof. intros He [Hc Hd Hs]. split; [by right|lia..]. Qed.
Lemma stpncpy_run m d s n : 0 <= n -> 0 <= d -> d + n < 2 ^ 64 -> d <= s \/ s + tot n (place m s 0 n) <= d ->
  exists m', __stpncpy d s n m = (m', d + place m s 0 n) /\ padded d s (place m s 0 n) n m m'.
Proof.
  intros Hn Hd Hdn Hdir. destruct (place_spec m s 0 n Hn) as (He & _). unfold __stpncpy.
  assert (Fin : forall r, done_ m d s n (place m s 0 n) r /\ nn r = n - place m s 0 n -> exists m', tail_zeros r = (m', d + place m s 0 n) /\ padded d s (place m s 0 n) n m m').
  { intros r [Hr Hk]. apply tail_zeros_run; [done..| |done]. by apply done_at. }
  destruct (_ =? _); [|apply Fin, bytes_run; [done..|lia]].
  destruct (align_run m d s 0 n Hn Hdir) as (k & Hr & Hk & _). destruct (_ || _) eqn:E.
  - pose proof (ends_here m d s 0 n Hn Hdir _ _ Hr Hk E). subst k. by apply tail_zeros_run.
  - apply Fin. apply (words_bytes_run m d s 0 n Hn Hdir _ _ k); [apply detects_zero|done|done|lia].
Qed.

Lemma memccpy_run m d s c n : 0 <= n -> let e := place m s (u8 c) n in d <= s \/ s + tot n e <= d ->
  MemFns.moved d s (tot n e) m (memccpy d s c n m).1 /\ (memccpy d s c n m).2 = if e =? n then None else Some (d + e + 1).
Proof.
  intros Hn e Hdir. pose proof (place_range m s (u8 c) n Hn) as Hp. fold e in Hp.
  assert (Fin : forall r, done_ m d s n e r /\ nn r = n - e ->
    MemFns.moved d s (tot n e) m (mm r) /\ (if negb (nn r =? 0) then Some (dd r + 1) else None) = if e =? n then None else Some (d + e + 1)).
  { intros r [Hr Hk]. split; [by apply (end_moved m d s (u8 c) n)|]. rewrite Hk, (do_d _ _ _ _ _ _ Hr). by destruct (Z.eqb_spec (n - e) 0), (Z.eqb_spec e n); try lia. }
  unfold memccpy. destruct (Z.land s 7 =? _); [|apply Fin, bytes_run; [done..|lia]].
  destruct (align_run m d s (u8 c) n Hn Hdir) as (k & Hr & Hk & Hd). rewrite land_7.
  destruct (Z.eqb_spec (ss (until_align 8 (u8 c) (mkCp m d s n)) mod 8) 0) as [E|E]; cbn [negb].
  - apply Fin, (words_bytes_run m d s (u8 c) n Hn Hdir _ _ k); [apply detects_byte, u8_range|done|done|lia].
  - apply Fin. split; [by apply Hd|]. specialize (Hd E). pose proof (do_s _ _ _ _ _ _ Hd). pose proof (at_s _ _ _ _ _ _ _ Hr). rewrite Hk. unfold e. lia.
Qed.

(** ** Strings in memory

    Memory after [l] and its terminator are stored at [a]. *)
Definition put_string (a : Z) (l : list Z) (m m' : gmap Z Z) : Prop :=
  forall x, ld8 m' x = if (a <=? x) && (x <=? a + Z.of_nat (length l)) then cstr_get l (Z.to_nat (x - a)) else ld8 m x.

Lemma put_string_in a l m m' i : put_string a l m m' -> (i <= length l)%nat -> ld8 m' (a + Z.of_nat i) = cstr_get l i.
Proof.
  intros H Hi. rewrite H. destruct (Z.leb_spec a (a + Z.of_nat i)), (Z.leb_spec (a + Z.of_nat i) (a + Z.of_nat (length l))); try lia.
  cbn [andb]. f_equal. lia.
Qed.
Lemma put_string_out a l m m' x : put_string a l m m' -> x < a \/ a + Z.of_nat (length l) < x -> ld8 m' x = ld8 m x.
Proof. intros H Hx. rewrite H. destruct (Z.leb_spec a x), (Z.leb_spec x (a + Z.of_nat (length l))); try lia; done. Qed.
Lemma put_string_cstring a l m m' : Forall (fun c => c <> 0) l -> put_string a l m m' -> cstring (ld8 m') a l.
Proof. intros Hl H. split; [done|]. intros i Hi. by apply (put_string_in a l m). Qed.
Lemma cstring_frame m m' b l : cstring (ld8 m) b l -> (forall x, b <= x <= b + Z.of_nat (length l) -> ld8 m' x = ld8 m x) -> cstring (ld8 m') b l.
Proof. intros [Hl Hg] Ho. split; [done|]. intros i Hi. rewrite Ho by lia. by apply Hg. Qed.
Lemma cstr_get_app_l l1 l2 i : (i < length l1)%nat -> cstr_get (l1 ++ l2) i = cstr_get l1 i.
Proof. intros Hi. unfold cstr_get. by rewrite lookup_app_l. Qed.
Lemma cstr_get_app_r l1 l2 i : (length l1 <= i)%nat -> cstr_get (l1 ++ l2) i = cstr_get l2 (i - length l1).
Proof. intros Hi. unfold cstr_get. by rewrite lookup_app_r. Qed.
Lemma put_string_app a l1 l2 m m' : cstring (ld8 m) a l1 -> Forall (fun c => c <> 0) l2 -> put_string (a + Z.of_nat (length l1)) l2 m m' ->
  cstring (ld8 m') a (l1 ++ l2).
Proof.
  intros [H1 Hg] H2 H. split; [by apply Forall_app|]. intros i Hi. rewrite length_app in Hi. destruct (decide (i < length l1)%nat) as [Hlt|Hge].
  - rewrite cstr_get_app_l, (put_string_out _ _ _ _ _ H) by lia. apply Hg. lia.
  - rewrite cstr_get_app_r by lia. rewrite <- (put_string_in _ _ _ _ (i - length l1) H) by lia. f_equal. lia.
Qed.
Lemma cstring_drop m a l k : cstring (ld8 m) a l -> (k <= length l)%nat -> cstring (ld8 m) (a + Z.of_nat k) (drop k l).
Proof.
  intros [Hl Hg] Hk. split; [by apply Forall_drop|]. intros i Hi. rewrite length_drop in Hi.
  replace (a + Z.of_nat k + Z.of_nat i) with (a + Z.of_nat (k + i)) by lia. rewrite Hg by lia. unfold cstr_get. by rewrite lookup_drop.
Qed.
Lemma cstring_get m a l i : cstring (ld8 m) a l -> 0 <= i <= Z.of_nat (length l) -> ld8 m (a + i) = cstr_get l (Z.to_nat i).
Proof. intros [_ Hg] Hi. rewrite <- Hg by lia. f_equal. lia. Qed.

(** Copying the whole string with its terminator, and a prefix with a
    terminator stored behind it. *)
Lemma moved_string d s l m m' : cstring (ld8 m) s l -> MemFns.moved d s (Z.of_nat (length l) + 1) m m' -> put_string d l m m'.
Proof.
  intros C H x. rewrite H. destruct (Z.leb_spec d x), (Z.ltb_spec x (d + (Z.of_nat (length l) + 1))), (Z.leb_spec x (d + Z.of_nat (length l))); try lia; [|done..].
  cbn [andb]. apply cstring_get; [done|lia].
Qed.
Lemma terminated d s l k m m' : cstring (ld8 m) s l -> 0 <= k <= Z.of_nat (length l) ->
  (forall i, 0 <= i < k -> ld8 m' (d + i) = ld8 m (s + i)) -> (forall x, x < d \/ d + k < x -> ld8 m' x = ld8 m x) ->
  put_string d (take (Z.to_nat k) l) m (st 1 m' (d + k) 0).
Proof.
  intros C Hk Hi Ho x. rewrite length_take. destruct (Z.eq_dec x (d + k)) as [->|Nx].
  - cbn [st]. rewrite ld8_st8_eq. destruct (Z.leb_spec d (d + k)); [|lia]. destruct (Z.leb_spec (d + k) (d + Z.of_nat (Z.to_nat k `min` length l))); [|lia].
    cbn [andb]. unfold cstr_get. rewrite lookup_ge_None_2; [done|]. rewrite length_take. lia.
  - rewrite ld8_st_out by lia. destruct (Z.leb_spec d x), (Z.leb_spec x (d + Z.of_nat (Z.to_nat k `min` length l))); cbn [andb]; [|apply Ho; lia..].
    replace x with (d + (x - d)) at 1 by lia. rewrite Hi by lia. rewrite (cstring_get m s l) by (done || lia). unfold cstr_get.
    rewrite lookup_take_lt; [done|lia].
Qed.
Lemma done_terminated d s l n m r : let e := Z.min (Z.of_nat (length l)) n in
  0 <= n -> cstring (ld8 m) s l -> at_ m d s n e r e -> put_string d (take (Z.to_nat e) l) m (st 1 (mm r) (dd r) 0).
Proof.
  intros e Hn C [Hc Hd Hs _]. rewrite Hd. apply (terminated d s); [done|lia|..].
  - intros i Hi. destruct Hc as [[Hi' _]|[_ [Hi' _]]]; apply Hi'; [done|unfold tot; lia].
  - intros x Hx. destruct Hc as [[_ Ho]|[_ [_ Ho]]]; apply Ho; unfold tot; lia.
Qed.

(** Two objects that do not overlap. *)
Definition apart (a na b nb : Z) : Prop := a + na <= b \/ b + nb <= a.

(** [strcpy]: the string and its terminator, whatever the alignments. *)
Lemma strcpy_copies fuel d s l m : cstring (ld8 m) s l -> (length l < fuel)%nat ->
  apart d (Z.of_nat (length l) + 1) s (Z.of_nat (length l) + 1) ->
  exists m', __stpcpy fuel d s m = Some (m', d + Z.of_nat (length l)) /\ strcpy fuel d s m = Some m' /\ put_string d l m m'.
Proof.
  intros C Hf Ha. pose proof (place_cstring m s l (Z.of_nat (length l) + 1) C ltac:(lia)) as Ep.
  replace (Z.min _ _) with (Z.of_nat (length l)) in Ep by lia.
  destruct (stpcpy_run m d s (Z.of_nat (length l) + 1) fuel) as (m' & E & Hm); [lia|rewrite Ep; unfold apart, tot in *; lia|lia|].
  rewrite Ep in E, Hm. exists m'. split; [done|]. split; [unfold strcpy; by rewrite E|by apply (moved_string d s)].
Qed.

(** [strcat]. *)
Lemma strcat_joins fuel d s l1 l2 m : cstring (ld8 m) d l1 -> cstring (ld8 m) s l2 -> (length l1 < fuel)%nat -> (length l2 < fuel)%nat ->
  apart d (Z.of_nat (length (l1 ++ l2)) + 1) s (Z.of_nat (length l2) + 1) ->
  exists m', strcat fuel d s m = Some m' /\ cstring (ld8 m') d (l1 ++ l2) /\
    forall x, x < d \/ d + Z.of_nat (length (l1 ++ l2)) < x -> ld8 m' x = ld8 m x.
Proof.
  intros C1 C2 H1 H2 Ha. rewrite length_app in Ha |- *. unfold strcat. rewrite (CString.strlen_spec _ (ld8_range m) d l1) by done.
  destruct (strcpy_copies fuel (d + Z.of_nat (length l1)) s l2 m) as (m' & _ & -> & H); [done..|unfold apart in *; lia|].
  exists m'. split; [done|]. split; [apply (put_string_app d l1 l2 m); [done|apply C2|done]|].
  intros x Hx. apply (put_string_out _ _ _ _ _ H). lia.
Qed.

(** [strncat]. *)
Lemma ncat_loop_run m d s n fuel r k : let e := place m s 0 n in
  0 <= n -> d <= s \/ s + tot n e <= d -> at_ m d s n e r k -> nn r = n - k -> e - k < Z.of_nat fuel -> at_ m d s n e (ncat_loop fuel r) e.
Proof.
  intros e Hn Hdir. pose proof (place_spec m s 0 n Hn) as P. fold e in P. clearbody e. destruct P as (He & Hb & Ha).
  revert r k. induction fuel as [|fuel IH]; intros r k Hr Hk Hf; pose proof (at_k _ _ _ _ _ _ _ Hr); [lia|]. cbn [ncat_loop].
  destruct (Z.eqb_spec (nn r) 0); cbn [negb andb]; [by replace e with k at 2 by lia|].
  rewrite (at_byte m d s 0 n e Hb Ha Hdir r k Hr) by (unfold tot; lia). destruct (Z.eqb_spec k e) as [->|]; cbn [negb]; [done|].
  apply (IH (copy1 r) (k + 1)); [apply (at_copy1 m d s n e He Hdir); [done|lia]|cbn [copy1 adv byte1 nn]; lia|lia].
Qed.
Lemma strncat_joins fuel d s n l1 l2 m : cstring (ld8 m) d l1 -> cstring (ld8 m) s l2 -> 0 <= n -> (length l1 < fuel)%nat ->
  let l := take (Z.to_nat n) l2 in
  apart d (Z.of_nat (length (l1 ++ l)) + 1) s (Z.of_nat (length l2) + 1) ->
  exists m', strncat fuel d s n m = Some m' /\ cstring (ld8 m') d (l1 ++ l) /\
    forall x, x < d \/ d + Z.of_nat (length (l1 ++ l)) < x -> ld8 m' x = ld8 m x.
Proof.
  intros C1 C2 Hn H1 l Ha. assert (El : take (Z.to_nat (Z.min (Z.of_nat (length l2)) n)) l2 = l).
  { unfold l. destruct (Z_le_gt_dec n (Z.of_nat (length l2))); [by rewrite Z.min_r by lia|]. rewrite !take_ge by lia. done. }
  assert (Ell : Z.of_nat (length l) = Z.min (Z.of_nat (length l2)) n) by (unfold l; rewrite length_take; lia).
  rewrite length_app in Ha |- *. unfold strncat. rewrite (CString.strlen_spec _ (ld8_range m) d l1) by done.
  pose proof (place_cstring m s l2 n C2 Hn) as Ep. set (a := d + Z.of_nat (length l1)). eexists. split; [done|].
  assert (H : put_string a l m (st 1 (mm (ncat_loop (S (Z.to_nat n)) (mkCp m a s n))) (dd (ncat_loop (S (Z.to_nat n)) (mkCp m a s n))) 0)).
  { rewrite <- El. apply (done_terminated a s l2 n); [done|done|]. rewrite <- Ep.
    apply (ncat_loop_run m a s n _ _ 0); [done|rewrite Ep; unfold apart, tot, a in *; lia|apply at_start; lia|cbn [nn]; lia|rewrite Ep; lia]. }
  split; [apply (put_string_app d l1 l m); [done|apply Forall_take, C2|done]|].
  intros x Hx. apply (put_string_out _ _ _ _ _ H). unfold a. lia.
Qed.

(** [strlcpy] with room for [n] bytes. *)
Lemma strlcpy_copies fuel d s n l m : cstring (ld8 m) s l -> (length l < fuel)%nat -> 0 < n ->
  let k := take (Z.to_nat (n - 1)) l in
  apart d (Z.of_nat (length k) + 1) s (Z.of_nat (length l) + 1) ->
  exists m', strlcpy fuel d s n m = Some (m', Z.of_nat (length l)) /\ put_string d k m m'.
Proof.
  intros C Hf Hn k Ha. set (e := Z.min (Z.of_nat (length l)) (n - 1)).
  assert (Ek : take (Z.to_nat e) l = k).
  { unfold k, e. destruct (Z_le_gt_dec (n - 1) (Z.of_nat (length l))); [by rewrite Z.min_r by lia|]. rewrite !take_ge by lia. done. }
  assert (Ekl : Z.of_nat (length k) = e) by (unfold k, e; rewrite length_take; lia).
  pose proof (place_cstring m s l (n - 1) C ltac:(lia)) as Ep. fold e in Ep.
  assert (Hdir : d <= s \/ s + tot (n - 1) (place m s 0 (n - 1)) <= d) by (rewrite Ep; unfold apart, tot, e in *; lia).
  assert (Fin : forall r, done_ m d s (n - 1) (place m s 0 (n - 1)) r /\ nn r = n - 1 - place m s 0 (n - 1) ->
    exists m', (match CString.strlen (ld8 (st 1 (mm r) (dd r) 0)) fuel (ss r) with None => None | Some j => Some (st 1 (mm r) (dd r) 0, dd r - d + j) end)
      = Some (m', Z.of_nat (length l)) /\ put_string d k m m').
  { intros r [Hr _]. rewrite Ep in Hr.
    pose proof (done_terminated d s l (n - 1) m r ltac:(lia) C) as H. fold e in H. rewrite Ek in H.
    specialize (H (done_at m d s (n - 1) e r ltac:(unfold e; lia) Hr)). set (m' := st 1 (mm r) (dd r) 0) in *.
    assert (C' : cstring (ld8 m') (s + Z.of_nat (length k)) (drop (length k) l)).
    { apply cstring_drop; [|unfold k; rewrite length_take; lia]. apply (cstring_frame m); [done|]. intros x Hx. apply (put_string_out _ _ _ _ _ H). unfold apart in *. lia. }
    rewrite (do_s _ _ _ _ _ _ Hr), (do_d _ _ _ _ _ _ Hr), <- Ekl. rewrite (CString.strlen_spec _ (ld8_range m') _ _ fuel C') by (rewrite length_drop; lia).
    exists m'. split; [|done]. do 2 f_equal. rewrite length_drop. unfold e in *. lia. }
  unfold strlcpy. destruct (Z.eqb_spec n 0); [lia|]. destruct (Z.land s 7 =? _); [|apply Fin, bytes_run; [lia|done|lia]].
  destruct (align_run m d s 0 (n - 1) ltac:(lia) Hdir) as (j & Hr & Hj & _).
  pose proof (at_k _ _ _ _ _ _ _ Hr). destruct (_ && _).
  - apply Fin, (words_bytes_run m d s 0 (n - 1) ltac:(lia) Hdir _ _ j); [apply detects_zero|done|done|lia].
  - apply Fin. apply (until_bytes_run m d s 0 (n - 1) _ (place_range m s 0 (n - 1) ltac:(lia)) (place_before m s 0 (n - 1) ltac:(lia)) (place_at m s 0 (n - 1) ltac:(lia)) Hdir _ _ j); [done|done|lia].
Qed.

Lemma strnlen_min m a l n : cstring (ld8 m) a l -> 0 <= n -> CString.strnlen (ld8 m) a (Z.to_nat n) = Z.min (Z.of_nat (length l)) n.
Proof.
  intros C Hn. rewrite <- (place_cstring m a l n C Hn). unfold CString.strnlen, place. rewrite (CString.memchr_spec _ (ld8_range m)).
  change (u8 0) with 0. destruct (CString.find_byte _ _ _ _); [done|lia].
Qed.

(** ** Properties *)

(** C28: The copies that stop at a byte do what copying byte by byte does, for
    all alignments of the two pointers.  With [z] the place of the first zero
    byte among [n] (or [n]) and [p] that of the byte [c]: [stpncpy] stores [z]
    bytes and zeros up to [n] and returns the place behind the bytes;
    [memccpy] stores up to and with [c] and returns the place behind it, or
    the null pointer when there is none; [stpcpy] stores the string with its
    terminator and returns where that lies.  Nothing else is written. *)
Theorem copies_until d s c n m : 0 <= n -> 0 <= d -> d + n < 2 ^ 64 -> apart d n s n ->
  let z := place m s 0 n in let p := place m s (u8 c) n in
  (exists m', __stpncpy d s n m = (m', d + z) /\ padded d s z n m m') /\
  (exists m', memccpy d s c n m = (m', if p =? n then None else Some (d + p + 1)) /\ MemFns.moved d s (Z.min (p + 1) n) m m') /\
  (forall fuel, z < n -> z < Z.of_nat fuel ->
    exists m', __stpcpy fuel d s m = Some (m', d + z) /\ MemFns.moved d s (z + 1) m m').
Proof.
  intros Hn Hd Hdn Ha z p. pose proof (place_range m s 0 n Hn). unfold apart in Ha.
  split; [|split]; [apply stpncpy_run; unfold tot; lia| |intros fuel Hz Hf; apply stpcpy_run; unfold tot; lia].
  destruct (memccpy_run m d s c n Hn) as [H1 H2]; [unfold tot; lia|]. destruct (memccpy d s c n m) as [m' r]. cbn [fst snd] in *. subst r. by exists m'.
Qed.

(** The 11 bytes "hello, all!" at 1001, copied to 2009, aligned alike. *)
Definition sample : gmap Z Z := MemFns.text 1001 [104; 101; 108; 108; 111; 44; 32; 97; 108; 108; 33].
Lemma copies_until_witness :
  0 <= 16 /\ place sample 1001 0 16 = 11 /\ place sample 1001 (u8 33) 16 = 10 /\
  (exists m', __stpncpy 2009 1001 16 sample = (m', 2020) /\ padded 2009 1001 11 16 sample m') /\
  (exists m', memccpy 2009 1001 33 16 sample = (m', Some 2020) /\ MemFns.moved 2009 1001 11 sample m').
Proof.
  assert (E0 : place sample 1001 0 16 = 11) by (vm_compute; reflexivity).
  assert (E1 : place sample 1001 (u8 33) 16 = 10) by (vm_compute; reflexivity).
  split; [lia|]. split; [exact E0|]. split; [exact E1|].
  destruct (copies_until 2009 1001 33 16 sample) as (H1 & H2 & _); [lia|lia|lia|unfold apart; lia|].
  rewrite E0 in H1. rewrite E1 in H2. split; [exact H1|exact H2].
Defined.

(** C29: [strlcat] never goes past the [n] bytes it is given and says how much
    room the whole result would have needed: if the string at [d] ends within
    [n] bytes, it becomes the first [n - 1] bytes of both strings joined,
    terminated, whatever the length of [s]; only bytes from its old terminator
    on, and before [d + n], change; otherwise nothing does.  The length
    returned is that of [s] plus the part of [d] within the [n] bytes. *)
Theorem strlcat_bounded fuel d s n l1 l2 m :
  cstring (ld8 m) d l1 -> cstring (ld8 m) s l2 -> (length l2 < fuel)%nat -> 0 <= n ->
  apart d (Z.max n (Z.of_nat (length l1) + 1)) s (Z.of_nat (length l2) + 1) ->
  exists m', strlcat fuel d s n m = Some (m', Z.min (Z.of_nat (length l1)) n + Z.of_nat (length l2)) /\
    (Z.of_nat (length l1) < n -> cstring (ld8 m') d (take (Z.to_nat (n - 1)) (l1 ++ l2))) /\
    (forall x, x < d + Z.of_nat (length l1) \/ d + n <= x -> ld8 m' x = ld8 m x).
Proof.
  intros C1 C2 Hf Hn Ha. unfold strlcat. rewrite (strnlen_min m d l1) by done. destruct (Z.eqb_spec (Z.min (Z.of_nat (length l1)) n) n).
  { rewrite (CString.strlen_spec _ (ld8_range m) s l2) by done. eexists. split; [done|]. split; [lia|done]. }
  assert (Hlt : Z.of_nat (length l1) < n) by lia. rewrite Z.min_l by lia. set (a := d + Z.of_nat (length l1)).
  set (k := take (Z.to_nat (n - Z.of_nat (length l1) - 1)) l2).
  assert (Hk : Z.of_nat (length k) <= n - Z.of_nat (length l1) - 1) by (unfold k; rewrite length_take; lia).
  destruct (strlcpy_copies fuel a s (n - Z.of_nat (length l1)) l2 m C2 Hf ltac:(lia)) as (m' & -> & H); [fold k; unfold apart, a in *; lia|].
  fold k in H. exists m'. split; [done|]. split.
  - intros _. rewrite take_app_ge by lia. replace (Z.to_nat (n - 1) - length l1)%nat with (Z.to_nat (n - Z.of_nat (length l1) - 1)) by lia.
    apply (put_string_app d l1 k m); [done|apply Forall_take, C2|done].
  - intros x Hx. apply (put_string_out _ _ _ _ _ H). unfold a. lia.
Qed.

(** "hel" at 3001 gets "lo, all!" of 1004 within 9 bytes: "hello, a". *)
Lemma strlcat_bounded_witness :
  let m := <[3001 := 104]> (<[3002 := 101]> (<[3003 := 108]> sample)) in
  exists m', strlcat 20 3001 1004 9 m = Some (m', 11) /\ cstring (ld8 m') 3001 [104; 101; 108; 108; 111; 44; 32; 97].
Proof.
  intros m. destruct (strlcat_bounded 20 3001 1004 9 [104; 101; 108] [108; 111; 44; 32; 97; 108; 108; 33] m) as (m' & E & C & _).
  - split; [repeat constructor; lia|]. intros i Hi. do 4 (destruct i as [|i]; [vm_compute; reflexivity|]). cbn in Hi. lia.
  - split; [repeat constructor; lia|]. intros i Hi. do 9 (destruct i as [|i]; [vm_compute; reflexivity|]). cbn in Hi. lia.
  - cbn. lia.
  - lia.
  - unfold apart. cbn. lia.
  - exists m'. split; [exact E|]. apply C. cbn. lia.
Defined.
End StrCopy.
