(* ===== verification/StrTo.v ===== *)
(** Conversion of text to integers (musl src/internal/intscan.c, shgetc.h,
    src/stdlib/strtol.c, atoi.c, atol.c, src/ctype/isspace.c, isdigit.c):
    the scanner [__intscan] on a string, the strto* functions on top of it,
    and [atoi], [atol]. *)

From stdpp Require Import base tactics list numbers option.
From Stdlib Require Import ZArith Lia.
From S2P Require Import Prelude.

#[local] Open Scope Z_scope.

Module StrTo.
Import Prelude.

(** ** Characters *)

Definition isspace (c : Z) : bool := (c =? 32) || (u32 (c - 9) <? 5).
Definition isdigit (c : Z) : bool := u32 (c - 48) <? 10.

(** [table+1]: the value of a character as a digit, 255 for none. *)
Definition table : list Z :=
  replicate 48 255 ++ [0; 1; 2; 3; 4; 5; 6; 7; 8; 9] ++ replicate 7 255 ++
  [10; 11; 12; 13; 14; 15; 16; 17; 18; 19; 20; 21; 22; 23; 24; 25; 26; 27; 28; 29; 30; 31; 32; 33; 34; 35] ++
  replicate 6 255 ++
  [10; 11; 12; 13; 14; 15; 16; 17; 18; 19; 20; 21; 22; 23; 24; 25; 26; 27; 28; 29; 30; 31; 32; 33; 34; 35] ++
  replicate 133 255.
Definition val (c : Z) : Z := nth (Z.to_nat c) table 255.

(** ** The string as a pseudo file

    [rpos] is the offset of the next byte, [cbase] the offset from which
    [shcnt] counts. *)
Record shfile := mkSh { str : list Z; rpos : nat; cbase : nat }.

Definition sh_fromstring (s : list Z) : shfile := mkSh s 0 0.
Definition shgetc (f : shfile) : Z * shfile := (cstr_get (str f) (rpos f), mkSh (str f) (S (rpos f)) (cbase f)).
Definition shunget (f : shfile) : shfile := mkSh (str f) (rpos f - 1) (cbase f).
Definition shlim0 (f : shfile) : shfile := mkSh (str f) (rpos f) (rpos f).
Definition shcnt (f : shfile) : nat := (rpos f - cbase f)%nat.

(** [errno] after the call, if it was set. *)
Inductive errno := EINVAL | ERANGE.

Definition ULLONG_MAX : Z := 2 ^ 64 - 1.
Definition UINT_MAX : Z := 2 ^ 32 - 1.

(** ** The scanner *)

(** The loops [for (; ok; c=shgetc(f)) x = step].  Each turn reads one byte
    and no loop goes on after the terminator: as many turns as the string has
    bytes, and one more, are enough. *)
Fixpoint scan (fuel : nat) (ok : Z -> Z -> bool) (step : Z -> Z -> Z) (x c : Z) (f : shfile) : Z * Z * shfile :=
  match fuel with
  | O => (x, c, f)
  | S fuel' =>
    if ok x c then let (c', f') := shgetc f in scan fuel' ok step (step x c) c' f' else (x, c, f)
  end.

Fixpoint skip_space (fuel : nat) (f : shfile) : Z * shfile :=
  let (c, f) := shgetc f in
  match fuel with
  | O => (c, f)
  | S fuel' => if isspace c then skip_space fuel' f else (c, f)
  end.

Definition turns (f : shfile) : nat := S (length (str f)).

(** From the label [done] on. *)
Definition finish (f : shfile) (y : Z) (neg : bool) (lim : Z) (e : option errno) : Z * shfile * option errno :=
  let f := shunget f in
  let n := if neg then ULLONG_MAX else 0 in
  let r := u64 (Z.lxor y n - n) in
  if lim <=? y then
    if (Z.land lim 1 =? 0) && negb neg then (u64 (lim - 1), f, Some ERANGE)
    else if lim <? y then (lim, f, Some ERANGE)
    else (r, f, e)
  else (r, f, e).

(** From the choice of the loops on: the digits of a number in [base], the
    first of which is in [c]. *)
Definition scan_digits (f : shfile) (base c : Z) (neg : bool) (lim : Z) : Z * shfile * option errno :=
  let n := turns f in
  let too_long (r : Z * Z * shfile) :=
    let '(y, c, f) := r in
    if val c <? base then
      let '(_, _, f) := scan n (fun _ c => val c <? base) (fun x _ => x) 0 c f in
      finish f lim (if Z.land lim 1 =? 0 then neg else false) lim (Some ERANGE)
    else finish f y neg lim None in
  if base =? 10 then
    let '(x, c, f) := scan n (fun x c => isdigit c && (x <=? UINT_MAX / 10 - 1)) (fun x c => u32 (x * 10 + (c - 48))) 0 c f in
    let '(y, c, f) := scan n (fun y c => isdigit c && (y <=? ULLONG_MAX / 10) && (u64 (10 * y) <=? ULLONG_MAX - (c - 48)))
                        (fun y c => u64 (y * 10 + (c - 48))) x c f in
    if negb (isdigit c) then finish f y neg lim None else too_long (y, c, f)
  else if Z.land base (base - 1) =? 0 then
    let bs := nth (Z.to_nat (Z.land (Z.shiftr (u32 (0x17 * base)) 5) 7)) [0; 1; 2; 4; 7; 3; 6; 5] 0 in
    let '(x, c, f) := scan n (fun x c => (val c <? base) && (x <=? UINT_MAX / 32))
                        (fun x c => Z.lor (u32 (Z.shiftl x bs)) (val c)) 0 c f in
    too_long (scan n (fun y c => (val c <? base) && (y <=? Z.shiftr ULLONG_MAX bs))
                (fun y c => Z.lor (u64 (Z.shiftl y bs)) (val c)) x c f)
  else
    let '(x, c, f) := scan n (fun x c => (val c <? base) && (x <=? UINT_MAX / 36 - 1))
                        (fun x c => u32 (x * base + val c)) 0 c f in
    too_long (scan n (fun y c => (val c <? base) && (y <=? ULLONG_MAX / base) && (u64 (base * y) <=? ULLONG_MAX - val c))
                (fun y c => u64 (y * base + val c)) x c f).

Definition __intscan (f : shfile) (base : Z) (pok : bool) (lim : Z) : Z * shfile * option errno :=
  if (36 <? base) || (base =? 1) then (0, f, Some EINVAL)
  else
  let (c, f) := skip_space (turns f) f in
  let '(neg, c, f) :=
    if (c =? 43) || (c =? 45) then let neg := c =? 45 in let (c, f) := shgetc f in (neg, c, f)
    else (false, c, f) in
  if ((base =? 0) || (base =? 16)) && (c =? 48) then
    let (c, f) := shgetc f in
    if Z.lor c 32 =? 120 then
      let (c, f) := shgetc f in
      if 16 <=? val c then
        let f := shunget f in
        (0, (if pok then shunget f else shlim0 f), None)
      else scan_digits f 16 c neg lim
    else scan_digits f (if base =? 0 then 8 else base) c neg lim
  else
    let base := if base =? 0 then 10 else base in
    if base <=? val c then (0, shlim0 (shunget f), Some EINVAL)
    else scan_digits f base c neg lim.

(** ** The functions of strtol.c: value, offset of [*p], [errno]

    [base] is an [int] that [__intscan] takes as unsigned. *)
Definition strtox (s : list Z) (base lim : Z) : Z * nat * option errno :=
  let f := shlim0 (sh_fromstring s) in
  let '(y, f, e) := __intscan f (u32 base) true lim in
  (y, shcnt f, e).

Definition strtoull (s : list Z) (base : Z) := strtox s base ULLONG_MAX.
Definition strtoul (s : list Z) (base : Z) := strtox s base ULLONG_MAX.
Definition strtoll (s : list Z) (base : Z) := let '(y, p, e) := strtox s base (2 ^ 63) in (i64 y, p, e).
Definition strtol (s : list Z) (base : Z) := let '(y, p, e) := strtox s base (2 ^ 63) in (i64 y, p, e).

(** ** [atoi] and [atol]

    They accumulate the negated value, at width [w]; overflow is undefined in
    C: [None]. *)
Fixpoint ato_loop (w : Z) (fuel : nat) (s : list Z) (i : nat) (n : Z) : option Z :=
  match fuel with
  | O => None
  | S fuel' =>
    let c := cstr_get s i in
    if isdigit c then
      let m := 10 * n in
      let n' := m - (c - 48) in
      if (- 2 ^ (w - 1) <=? m) && (- 2 ^ (w - 1) <=? n') then ato_loop w fuel' s (S i) n' else None
    else Some n
  end.

Fixpoint spaces (fuel : nat) (s : list Z) (i : nat) : nat :=
  match fuel with
  | O => i
  | S fuel' => if isspace (cstr_get s i) then spaces fuel' s (S i) else i
  end.

Definition ato (w : Z) (s : list Z) : option Z :=
  let i := spaces (length s) s 0 in
  let c := cstr_get s i in
  let neg := c =? 45 in
  let i := if (c =? 45) || (c =? 43) then S i else i in
  match ato_loop w (S (length s)) s i 0 with
  | None => None
  | Some n => if neg then Some n else if - n <? 2 ^ (w - 1) then Some (- n) else None
  end.

Definition atoi (s : list Z) : option Z := ato 32 s.
Definition atol (s : list Z) : option Z := ato 64 s.


(** ** Specification *)

(** The number a text of digits denotes, [x] being the number before them. *)
Definition hval (base x : Z) (ds : list Z) : Z := fold_left (fun y c => y * base + val c) ds x.

Definition is_digit (base c : Z) : bool := val c <? base.

Lemma hval_app base x a b : hval base x (a ++ b) = hval base (hval base x a) b.
Proof. apply fold_left_app. Qed.

Definition all_bytes : list Z := Z.of_nat <$> seq 0 256.
Lemma all_bytes_In c : 0 <= c < 256 -> In c all_bytes.
Proof. intros Hc. apply in_map_iff. exists (Z.to_nat c). split; [lia|]. apply in_seq. lia. Qed.

Lemma val_nonneg c : 0 <= val c.
Proof.
  unfold val. assert (F : Forall (fun x => 0 <= x) table).
  { apply List.Forall_forall. intros x Hx. assert (E : forallb (Z.leb 0) table = true) by (vm_compute; reflexivity).
    apply forallb_forall with (x := x) in E; [lia|done]. }
  destruct (Nat.lt_ge_cases (Z.to_nat c) (length table)) as [Hl|Hl].
  - apply (proj1 (List.Forall_forall _ _) F). by apply nth_In.
  - rewrite nth_overflow by done. lia.
Qed.

Lemma digit_val c : 0 <= c < 256 -> isdigit c = is_digit 10 c /\ (isdigit c = true -> val c = c - 48).
Proof.
  intros Hc. assert (E : forallb (fun c => Bool.eqb (isdigit c) (is_digit 10 c) && (negb (isdigit c) || (val c =? c - 48))) all_bytes = true)
    by (vm_compute; reflexivity).
  apply forallb_forall with (x := c) in E; [|by apply all_bytes_In]. apply andb_prop in E as [E1%eqb_prop E2].
  split; [done|]. intros Hd. rewrite Hd in E2. cbn [negb orb] in E2. by apply Z.eqb_eq.
Qed.

Lemma digit_0 base : base <= 36 -> is_digit base 0 = false.
Proof. intros Hb. unfold is_digit. change (val 0) with 255. lia. Qed.

Lemma hval_mono base x ds : 1 <= base -> 0 <= x -> x <= hval base x ds.
Proof.
  intros Hb. revert x. induction ds as [|c ds IH]; intros x Hx; [done|]. cbn [hval fold_left]. fold (hval base (x * base + val c) ds).
  assert (Hv := val_nonneg c). assert (x <= x * base) by (assert (x * 1 <= x * base) by (apply Z.mul_le_mono_nonneg_l; lia); lia).
  specialize (IH (x * base + val c) ltac:(lia)). lia.
Qed.

Lemma cstr_drop s i : cstr_get s i = cstr_get (drop i s) 0.
Proof. unfold cstr_get. by rewrite lookup_drop, Nat.add_0_r. Qed.

Lemma drop_next (s : list Z) i c r : drop i s = c :: r -> cstr_get s i = c /\ drop (S i) s = r.
Proof.
  intros E. split; [by rewrite cstr_drop, E|].
  replace (S i) with (i + 1)%nat by lia. by rewrite <- drop_drop, E.
Qed.

Lemma cstr_byte s i : byte_list s -> 0 <= cstr_get s i < 256.
Proof.
  intros Hs. unfold cstr_get. destruct (s !! i) as [c|] eqn:E; cbn; [|lia]. exact (Forall_lookup_1 _ _ _ _ Hs E).
Qed.

(** One of the accumulating loops: it takes a prefix [d1] of the digits, and
    stops at the end of the digits or where its condition fails. *)
Lemma scan_run s b base ok step (max : Z) rest :
  1 <= base -> is_digit base (cstr_get rest 0) = false ->
  (forall x c, 0 <= c < 256 -> ok x c = true -> is_digit base c = true) ->
  (forall x c, 0 <= x -> 0 <= c < 256 -> ok x c = true -> step x c = x * base + val c /\ x * base + val c <= max) ->
  byte_list s ->
  forall ds fuel i x, drop i s = ds ++ rest -> (length ds < fuel)%nat -> 0 <= x <= max ->
  exists d1 d2, ds = d1 ++ d2 /\
    scan fuel ok step x (cstr_get s i) (mkSh s (S i) b) =
      (hval base x d1, cstr_get s (i + length d1), mkSh s (S (i + length d1)) b) /\
    hval base x d1 <= max /\ (d2 = [] \/ ok (hval base x d1) (hd 0 d2) = false).
Proof.
  intros Hb Hrest Hok Hstep Hs ds. induction ds as [|c ds IH]; intros fuel i x Hd Hf Hx.
  - exists [], []. split; [done|]. split; [|split; [cbn; lia|by left]].
    destruct fuel as [|fuel]; [simpl in Hf; lia|]. cbn [scan hval fold_left length]. rewrite Nat.add_0_r.
    assert (E : cstr_get s i = cstr_get rest 0) by (rewrite cstr_drop, Hd; done). rewrite E.
    destruct (ok x (cstr_get rest 0)) eqn:Eo; [apply Hok in Eo; [congruence|]|done].
    rewrite <- E. by apply cstr_byte.
  - destruct fuel as [|fuel]; [simpl in Hf; lia|]. destruct (drop_next s i c (ds ++ rest) Hd) as [Ec Hd'].
    assert (Hc : 0 <= c < 256).
    { assert (Hl : s !! i = Some c) by (rewrite <- (Nat.add_0_r i), <- lookup_drop, Hd; done).
      exact (Forall_lookup_1 _ _ _ _ Hs Hl). }
    cbn [scan]. rewrite Ec. destruct (ok x c) eqn:Eo.
    + destruct (Hstep x c ltac:(lia) Hc Eo) as [Es Hle]. assert (Hv := val_nonneg c).
      assert (0 <= x * base) by (apply Z.mul_nonneg_nonneg; lia).
      destruct (IH fuel (S i) (x * base + val c) Hd' ltac:(simpl in Hf; lia) ltac:(lia)) as (d1 & d2 & E & R & Hm & Hend).
      exists (c :: d1), d2. split; [by rewrite E|]. split; [|done]. unfold shgetc. cbn [str rpos cbase].
      rewrite Es, R. cbn [hval fold_left length]. f_equal; [f_equal|]; [f_equal; lia|f_equal; lia].
    + exists [], (c :: ds). split; [done|]. cbn [hval fold_left length]. rewrite Nat.add_0_r, Ec. split; [done|]. split; [lia|by right].
Qed.

(** The loop that only skips digits. *)
Lemma scan_skip s b base rest ds : forall fuel i x,
  is_digit base (cstr_get rest 0) = false -> Forall (fun c => is_digit base c = true) ds ->
  drop i s = ds ++ rest -> (length ds < fuel)%nat ->
  (scan fuel (fun _ c => val c <? base) (fun x _ => x) x (cstr_get s i) (mkSh s (S i) b)).2 = mkSh s (S (i + length ds)) b.
Proof.
  induction ds as [|c ds IH]; intros fuel i x Hr Hds Hd Hf; (destruct fuel as [|fuel]; [simpl in Hf; lia|]); cbn [scan].
  - rewrite cstr_drop, Hd. cbn [app]. unfold is_digit in Hr. rewrite Hr. cbn [length snd]. by rewrite Nat.add_0_r.
  - destruct (drop_next s i c (ds ++ rest) Hd) as [Ec Hd']. rewrite Ec.
    assert (H1 := Forall_inv Hds). apply Forall_inv_tail in Hds. unfold is_digit in H1. rewrite H1.
    unfold shgetc. cbn [str rpos cbase]. rewrite IH; [|done..|simpl in Hf; lia]. cbn [length]. f_equal. lia.
Qed.

(** What the value is clipped to, and the sign. *)
Definition limits (lim : Z) : Prop := lim = ULLONG_MAX \/ lim = 2 ^ 63.
Definition clip (lim : Z) (neg : bool) (v : Z) : Z * option errno :=
  if lim =? ULLONG_MAX then
    if lim <? v then (lim, Some ERANGE) else (u64 (if neg then - v else v), None)
  else if negb neg && (lim <=? v) then (lim - 1, Some ERANGE)
  else if lim <? v then (lim, Some ERANGE)
  else (u64 (if neg then - v else v), None).

Lemma negate y : 0 <= y < 2 ^ 64 -> u64 (Z.lxor y ULLONG_MAX - ULLONG_MAX) = u64 (- y).
Proof.
  intros Hy. replace (Z.lxor y ULLONG_MAX) with (ULLONG_MAX - y).
  - f_equal. lia.
  - change ULLONG_MAX with (Z.ones 64). rewrite Z.sub_nocarry_ldiff.
    + apply Z.bits_inj'. intros i Hi. rewrite Z.ldiff_spec, Z.lxor_spec.
      destruct (Z.lt_ge_cases i 64).
      * rewrite Z.ones_spec_low by lia. by rewrite xorb_true_r.
      * rewrite Z.ones_spec_high by lia. by rewrite (testbit_high y 64 i) by lia.
    + apply Z.bits_inj'. intros i Hi. rewrite Z.ldiff_spec, Z.bits_0.
      destruct (Z.lt_ge_cases i 64).
      * rewrite Z.ones_spec_low by lia. apply andb_false_r.
      * by rewrite (testbit_high y 64 i) by lia.
Qed.

Lemma finish_spec f y neg lim :
  limits lim -> 0 <= y < 2 ^ 64 ->
  finish f y neg lim None = ((clip lim neg y).1, shunget f, (clip lim neg y).2).
Proof.
  intros Hl Hy. unfold finish, clip.
  assert (E : u64 (Z.lxor y (if neg then ULLONG_MAX else 0) - (if neg then ULLONG_MAX else 0)) = u64 (if neg then - y else y)).
  { destruct neg; [by apply negate|]. by rewrite Z.lxor_0_r, Z.sub_0_r. }
  rewrite E. destruct Hl as [-> | ->].
  - change (Z.land ULLONG_MAX 1 =? 0) with false. rewrite Z.eqb_refl. cbn [andb].
    destruct (Z.leb_spec ULLONG_MAX y), (Z.ltb_spec ULLONG_MAX y); unfold ULLONG_MAX in *; try lia; done.
  - change (Z.land (2 ^ 63) 1 =? 0) with true. change (2 ^ 63 =? ULLONG_MAX) with false. cbn [andb].
    rewrite (u64_id (2 ^ 63 - 1)) by lia.
    destruct (Z.leb_spec (2 ^ 63) y), (Z.ltb_spec (2 ^ 63) y), neg; cbn [negb andb]; try lia; done.
Qed.

(** The result of a number that does not fit. *)
Lemma finish_over f v neg lim :
  limits lim -> ULLONG_MAX < v ->
  finish f lim (if Z.land lim 1 =? 0 then neg else false) lim (Some ERANGE) =
    ((clip lim neg v).1, shunget f, (clip lim neg v).2).
Proof.
  intros [-> | ->] Hv; unfold finish, clip.
  - change (Z.land ULLONG_MAX 1 =? 0) with false. rewrite Z.eqb_refl, Z.leb_refl, Z.ltb_irrefl. cbn [andb].
    destruct (Z.ltb_spec ULLONG_MAX v); [done|lia].
  - change (Z.land (2 ^ 63) 1 =? 0) with true. change (2 ^ 63 =? ULLONG_MAX) with false. rewrite Z.leb_refl, Z.ltb_irrefl. cbn [andb].
    unfold ULLONG_MAX in Hv. destruct (Z.leb_spec (2 ^ 63) v); [|lia]. destruct (Z.ltb_spec (2 ^ 63) v); [|lia].
    by destruct neg.
Qed.


Lemma two_loops s b base ok1 step1 ok2 step2 rest n ds i :
  1 <= base -> is_digit base (cstr_get rest 0) = false ->
  (forall x c, 0 <= c < 256 -> ok1 x c = true -> is_digit base c = true) ->
  (forall x c, 0 <= x -> 0 <= c < 256 -> ok1 x c = true -> step1 x c = x * base + val c /\ x * base + val c <= UINT_MAX) ->
  (forall x c, 0 <= c < 256 -> ok2 x c = true -> is_digit base c = true) ->
  (forall x c, 0 <= x -> 0 <= c < 256 -> ok2 x c = true -> step2 x c = x * base + val c /\ x * base + val c <= ULLONG_MAX) ->
  byte_list s -> drop i s = ds ++ rest -> (length ds < n)%nat ->
  exists d1 d2, ds = d1 ++ d2 /\
    (let '(x, c, f) := scan n ok1 step1 0 (cstr_get s i) (mkSh s (S i) b) in scan n ok2 step2 x c f) =
      (hval base 0 d1, cstr_get s (i + length d1), mkSh s (S (i + length d1)) b) /\
    0 <= hval base 0 d1 <= ULLONG_MAX /\ (d2 = [] \/ ok2 (hval base 0 d1) (hd 0 d2) = false).
Proof.
  intros Hb Hr Hok1 Hst1 Hok2 Hst2 Hs Hd Hn.
  destruct (scan_run s b base ok1 step1 UINT_MAX rest Hb Hr Hok1 Hst1 Hs ds n i 0 Hd Hn) as (d1 & d2 & E & R & Hm & _);
    [unfold UINT_MAX; lia|].
  rewrite R. assert (Hx := hval_mono base 0 d1 Hb ltac:(lia)).
  assert (Hd2 : drop (i + length d1) s = d2 ++ rest).
  { rewrite <- drop_drop, Hd, E, <- app_assoc. by rewrite drop_app_length. }
  destruct (scan_run s b base ok2 step2 ULLONG_MAX rest Hb Hr Hok2 Hst2 Hs d2 n (i + length d1) (hval base 0 d1) Hd2)
    as (d3 & d4 & E' & R' & Hm' & Hend).
  { subst ds. rewrite length_app in Hn. lia. }
  { unfold UINT_MAX, ULLONG_MAX in *. lia. }
  exists (d1 ++ d3), d4. rewrite R', hval_app, length_app, Nat.add_assoc. split; [by rewrite E, E', <- app_assoc|].
  split; [done|]. split; [|done]. split; [|done]. assert (Hy := hval_mono base (hval base 0 d1) d3 Hb ltac:(lia)). lia.
Qed.

Definition conclude (n : nat) (base : Z) (neg : bool) (lim : Z) (r : Z * Z * shfile) : Z * shfile * option errno :=
  let '(y, c, f) := r in
  if val c <? base then
    let '(_, _, f) := scan n (fun _ c => val c <? base) (fun x _ => x) 0 c f in
    finish f lim (if Z.land lim 1 =? 0 then neg else false) lim (Some ERANGE)
  else finish f y neg lim None.

Lemma conclude_spec s b base (ok2 : Z -> Z -> bool) rest n neg lim d1 d2 i :
  1 <= base -> limits lim -> is_digit base (cstr_get rest 0) = false ->
  (forall x c, 0 <= x <= ULLONG_MAX -> 0 <= c < 256 -> is_digit base c = true -> ok2 x c = false -> ULLONG_MAX < x * base + val c) ->
  byte_list s -> drop i s = (d1 ++ d2) ++ rest -> (length (d1 ++ d2) < n)%nat ->
  Forall (fun c => is_digit base c = true) (d1 ++ d2) ->
  0 <= hval base 0 d1 <= ULLONG_MAX -> (d2 = [] \/ ok2 (hval base 0 d1) (hd 0 d2) = false) ->
  conclude n base neg lim (hval base 0 d1, cstr_get s (i + length d1), mkSh s (S (i + length d1)) b) =
    let r := clip lim neg (hval base 0 (d1 ++ d2)) in (r.1, mkSh s (i + length (d1 ++ d2)) b, r.2).
Proof.
  intros Hb Hl Hr Hno Hs Hd Hn Hdig Hy Hend. unfold conclude.
  assert (Hd2 : drop (i + length d1) s = d2 ++ rest).
  { rewrite <- drop_drop, Hd, <- app_assoc. by rewrite drop_app_length. }
  destruct d2 as [|c d2].
  - rewrite cstr_drop, Hd2. cbn [app]. unfold is_digit in Hr. rewrite Hr, app_nil_r.
    rewrite finish_spec by (done || (unfold ULLONG_MAX in *; lia)). unfold shunget. cbn [str rpos cbase Nat.sub].
    by rewrite Nat.sub_0_r.
  - destruct Hend as [|Hend]; [done|]. cbn [hd] in Hend. destruct (drop_next _ _ _ _ Hd2) as [Ec _]. rewrite Ec.
    apply Forall_app in Hdig as [_ Hdig]. assert (Hc := Forall_inv Hdig). unfold is_digit in Hc. rewrite Hc.
    assert (Hcb : 0 <= c < 256).
    { assert (Hx : s !! (i + length d1)%nat = Some c) by (rewrite <- (Nat.add_0_r (i + length d1)), <- lookup_drop, Hd2; done).
      exact (Forall_lookup_1 _ _ _ _ Hs Hx). }
    assert (Hsk := scan_skip s b base rest (c :: d2) n (i + length d1) 0 Hr Hdig Hd2).
    rewrite Ec in Hsk. destruct (scan _ _ _ _ _ _) as [[u w] f]. cbn [snd] in Hsk. rewrite Hsk.
    2: { rewrite length_app in Hn. lia. }
    assert (Hov := Hno _ _ Hy Hcb Hc Hend).
    rewrite (finish_over _ (hval base 0 (d1 ++ c :: d2))); [|done|].
    + unfold shunget. cbn [str rpos cbase Nat.sub]. by rewrite Nat.sub_0_r, length_app, Nat.add_assoc.
    + rewrite hval_app. cbn [hval fold_left]. fold (hval base (hval base 0 d1 * base + val c) d2).
      assert (Hv := val_nonneg c). assert (0 <= hval base 0 d1 * base) by (apply Z.mul_nonneg_nonneg; lia).
      assert (Hm := hval_mono base (hval base 0 d1 * base + val c) d2 Hb ltac:(lia)). lia.
Qed.

(** Powers of two and their exponents. *)
Definition shift_of (base : Z) : Z :=
  nth (Z.to_nat (Z.land (Z.shiftr (u32 (0x17 * base)) 5) 7)) [0; 1; 2; 4; 7; 3; 6; 5] 0.

Lemma shift_of_spec base :
  2 <= base <= 36 -> Z.land base (base - 1) = 0 -> base = 2 ^ shift_of base /\ 1 <= shift_of base <= 5.
Proof.
  intros Hb Hp.
  assert (E : forallb (fun base => negb (Z.land base (base - 1) =? 0) ||
      ((base =? 2 ^ shift_of base) && (1 <=? shift_of base) && (shift_of base <=? 5))) (Z.of_nat <$> seq 2 35) = true)
    by (vm_compute; reflexivity).
  assert (Hin : In base (Z.of_nat <$> seq 2 35)).
  { apply in_map_iff. exists (Z.to_nat base). split; [lia|]. apply in_seq. lia. }
  apply forallb_forall with (x := base) in E; [|done]. rewrite Hp in E. cbn [Z.eqb negb orb] in E.
  apply andb_prop in E as [[E1%Z.eqb_eq E2%Z.leb_le]%andb_prop E3%Z.leb_le]. done.
Qed.

Lemma shift_or x c bs w :
  0 <= bs -> bs <= w -> 0 <= x < 2 ^ (w - bs) -> 0 <= val c < 2 ^ bs ->
  Z.lor (Z.shiftl x bs mod 2 ^ w) (val c) = x * 2 ^ bs + val c.
Proof.
  intros H1 H2 Hx Hc. rewrite Z.mod_small.
  - rewrite Z.lor_comm, lor_shiftl_add by lia. lia.
  - rewrite Z.shiftl_mul_pow2 by lia. assert (E : 2 ^ w = 2 ^ (w - bs) * 2 ^ bs) by (rewrite <- Z.pow_add_r by lia; f_equal; lia).
    rewrite E. assert (0 < 2 ^ bs) by (apply Z.pow_pos_nonneg; lia). split; [apply Z.mul_nonneg_nonneg; lia|].
    apply Z.mul_lt_mono_pos_r; lia.
Qed.


(** The three ways of accumulating a number. *)
Definition scan_decimal (n : nat) (f : shfile) (c : Z) (neg : bool) (lim : Z) : Z * shfile * option errno :=
  let '(x, c, f) := scan n (fun x c => isdigit c && (x <=? UINT_MAX / 10 - 1)) (fun x c => u32 (x * 10 + (c - 48))) 0 c f in
  let '(y, c, f) := scan n (fun y c => isdigit c && (y <=? ULLONG_MAX / 10) && (u64 (10 * y) <=? ULLONG_MAX - (c - 48)))
                      (fun y c => u64 (y * 10 + (c - 48))) x c f in
  if negb (isdigit c) then finish f y neg lim None else conclude n 10 neg lim (y, c, f).
Definition scan_shift (n : nat) (f : shfile) (base c : Z) (neg : bool) (lim : Z) : Z * shfile * option errno :=
  let bs := shift_of base in
  let '(x, c, f) := scan n (fun x c => (val c <? base) && (x <=? UINT_MAX / 32))
                      (fun x c => Z.lor (u32 (Z.shiftl x bs)) (val c)) 0 c f in
  conclude n base neg lim (scan n (fun y c => (val c <? base) && (y <=? Z.shiftr ULLONG_MAX bs))
              (fun y c => Z.lor (u64 (Z.shiftl y bs)) (val c)) x c f).
Definition scan_mult (n : nat) (f : shfile) (base c : Z) (neg : bool) (lim : Z) : Z * shfile * option errno :=
  let '(x, c, f) := scan n (fun x c => (val c <? base) && (x <=? UINT_MAX / 36 - 1))
                      (fun x c => u32 (x * base + val c)) 0 c f in
  conclude n base neg lim (scan n (fun y c => (val c <? base) && (y <=? ULLONG_MAX / base) && (u64 (base * y) <=? ULLONG_MAX - val c))
              (fun y c => u64 (y * base + val c)) x c f).

Lemma scan_digits_cases f base c neg lim :
  scan_digits f base c neg lim =
    if base =? 10 then scan_decimal (turns f) f c neg lim
    else if Z.land base (base - 1) =? 0 then scan_shift (turns f) f base c neg lim
    else scan_mult (turns f) f base c neg lim.
Proof. unfold scan_digits. destruct (Z.eqb_spec base 10) as [->|]; [done|]. by destruct (Z.land base (base - 1) =? 0). Qed.

Lemma scan_decimal_spec s b rest ds i n neg lim :
  limits lim -> is_digit 10 (cstr_get rest 0) = false -> byte_list s ->
  drop i s = ds ++ rest -> Forall (fun c => is_digit 10 c = true) ds -> (length ds < n)%nat ->
  scan_decimal n (mkSh s (S i) b) (cstr_get s i) neg lim =
    let r := clip lim neg (hval 10 0 ds) in (r.1, mkSh s (i + length ds) b, r.2).
Proof.
  intros Hl Hr Hs Hd Hdig Hn. unfold scan_decimal.
  set (ok1 := fun x c => isdigit c && (x <=? UINT_MAX / 10 - 1)).
  set (ok2 := fun y c => isdigit c && (y <=? ULLONG_MAX / 10) && (u64 (10 * y) <=? ULLONG_MAX - (c - 48))).
  destruct (two_loops s b 10 ok1 (fun x c => u32 (x * 10 + (c - 48))) ok2 (fun y c => u64 (y * 10 + (c - 48))) rest n ds i)
    as (d1 & d2 & E & R & Hy & Hend); try done.
  + intros x c Hc Hok. subst ok1. cbv beta in Hok. apply andb_prop in Hok as [Hok _]. by rewrite <- (proj1 (digit_val c Hc)).
  + intros x c Hx Hc Hok. subst ok1. cbv beta in Hok. apply andb_prop in Hok as [Hok Hle%Z.leb_le].
    destruct (digit_val c Hc) as [_ Hv]. specialize (Hv Hok). rewrite <- Hv. unfold isdigit in Hok.
    assert (val c < 10) by (destruct (digit_val c Hc) as [E _]; unfold isdigit, is_digit in E; rewrite Hok in E; lia).
    change (UINT_MAX / 10 - 1) with 429496728 in Hle. assert (Hnn := val_nonneg c).
    rewrite u32_id by lia. unfold UINT_MAX. lia.
  + intros x c Hc Hok. subst ok2. cbv beta in Hok. apply andb_prop in Hok as [[Hok _]%andb_prop _]. by rewrite <- (proj1 (digit_val c Hc)).
  + intros x c Hx Hc Hok. subst ok2. cbv beta in Hok. apply andb_prop in Hok as [[Hok Hle%Z.leb_le]%andb_prop Hle2%Z.leb_le].
    destruct (digit_val c Hc) as [_ Hv]. specialize (Hv Hok). rewrite <- Hv in *.
    change (ULLONG_MAX / 10) with 1844674407370955161 in Hle. assert (Hnn := val_nonneg c).
    rewrite u64_id in Hle2 by lia. rewrite u64_id by (unfold ULLONG_MAX in *; lia). lia.
  + destruct (scan n ok1 _ 0 (cstr_get s i) (mkSh s (S i) b)) as [[x c] f].
    change (let '(y, c0, f0) := scan n ok2 (fun y c => u64 (y * 10 + (c - 48))) x c f in
            if negb (isdigit c0) then finish f0 y neg lim None else conclude n 10 neg lim (y, c0, f0)) with
           ((fun r : Z * Z * shfile => let '(y, c0, f0) := r in
            if negb (isdigit c0) then finish f0 y neg lim None else conclude n 10 neg lim (y, c0, f0))
            (scan n ok2 (fun y c => u64 (y * 10 + (c - 48))) x c f)).
    rewrite R. cbv beta iota. subst ds.
    etrans; [|eapply (conclude_spec s b 10 ok2 rest n neg lim d1 d2 i); try done].
    * destruct (digit_val (cstr_get s (i + length d1)) (cstr_byte _ _ Hs)) as [Ed _]. unfold is_digit in Ed.
      unfold conclude. rewrite Ed. by destruct (val _ <? 10).
    * intros x0 c0 Hx0 Hc0 Hd0 Hok. subst ok2. cbv beta in Hok. destruct (digit_val c0 Hc0) as [Ed Hv]. rewrite Ed, Hd0 in *.
      specialize (Hv eq_refl). rewrite <- Hv in Hok. cbn [andb] in Hok. assert (Hnn := val_nonneg c0). unfold is_digit in Hd0.
      apply Z.ltb_lt in Hd0. apply andb_false_iff in Hok as [Hok%Z.leb_gt|Hok%Z.leb_gt].
      -- change (ULLONG_MAX / 10) with 1844674407370955161 in Hok. unfold ULLONG_MAX. lia.
      -- assert (u64 (10 * x0) <= 10 * x0) by (apply Z.mod_le; lia). lia.
Qed.

Lemma scan_shift_spec s b base rest ds i n neg lim :
  2 <= base <= 36 -> Z.land base (base - 1) = 0 ->
  limits lim -> is_digit base (cstr_get rest 0) = false -> byte_list s ->
  drop i s = ds ++ rest -> Forall (fun c => is_digit base c = true) ds -> (length ds < n)%nat ->
  scan_shift n (mkSh s (S i) b) base (cstr_get s i) neg lim =
    let r := clip lim neg (hval base 0 ds) in (r.1, mkSh s (i + length ds) b, r.2).
Proof.
  intros Hb Hp Hl Hr Hs Hd Hdig Hn. unfold scan_shift. cbv zeta.
  destruct (shift_of_spec base Hb Hp) as [Eb Hbs]. set (bs := shift_of base) in *.
  set (ok1 := fun x c => (val c <? base) && (x <=? UINT_MAX / 32)). set (ok2 := fun y c => (val c <? base) && (y <=? Z.shiftr ULLONG_MAX bs)).
  assert (Hsh : Z.shiftr ULLONG_MAX bs = 2 ^ (64 - bs) - 1).
  { rewrite Z.shiftr_div_pow2 by lia. change ULLONG_MAX with (2 ^ 64 - 1).
    assert (E : 2 ^ 64 = 2 ^ (64 - bs) * 2 ^ bs) by (rewrite <- Z.pow_add_r by lia; f_equal; lia).
    symmetry. apply (Z.div_unique _ _ _ (2 ^ bs - 1)); [|rewrite E; lia]. left. assert (0 < 2 ^ bs) by (apply Z.pow_pos_nonneg; lia). lia. }
  destruct (two_loops s b base ok1 (fun x c => Z.lor (u32 (Z.shiftl x bs)) (val c)) ok2 (fun y c => Z.lor (u64 (Z.shiftl y bs)) (val c)) rest n ds i)
    as (d1 & d2 & E & R & Hy & Hend); try done; try lia.
  + intros x c Hc Hok. subst ok1. cbv beta in Hok. by apply andb_prop in Hok as [Hok _].
  + intros x c Hx Hc Hok. subst ok1. cbv beta in Hok. apply andb_prop in Hok as [Hok%Z.ltb_lt Hle%Z.leb_le].
    change (UINT_MAX / 32) with (2 ^ 27 - 1) in Hle. assert (Hnn := val_nonneg c). rewrite Eb in *.
    assert (2 ^ 27 <= 2 ^ (32 - bs)) by (apply Z.pow_le_mono_r; lia).
    unfold u32. rewrite shift_or by lia. split; [done|].
    assert (E32 : 2 ^ 32 = 2 ^ (32 - bs) * 2 ^ bs) by (rewrite <- Z.pow_add_r by lia; f_equal; lia). unfold UINT_MAX. rewrite E32.
    assert ((x + 1) * 2 ^ bs <= 2 ^ (32 - bs) * 2 ^ bs) by (apply Z.mul_le_mono_nonneg_r; lia). lia.
  + intros x c Hc Hok. subst ok2. cbv beta in Hok. by apply andb_prop in Hok as [Hok _].
  + intros x c Hx Hc Hok. subst ok2. cbv beta in Hok. apply andb_prop in Hok as [Hok%Z.ltb_lt Hle%Z.leb_le].
    rewrite Hsh in Hle. assert (Hnn := val_nonneg c). rewrite Eb in *.
    unfold u64. rewrite shift_or by lia. split; [done|].
    assert (E64 : 2 ^ 64 = 2 ^ (64 - bs) * 2 ^ bs) by (rewrite <- Z.pow_add_r by lia; f_equal; lia). unfold ULLONG_MAX. rewrite E64.
    assert ((x + 1) * 2 ^ bs <= 2 ^ (64 - bs) * 2 ^ bs) by (apply Z.mul_le_mono_nonneg_r; lia). lia.
  + destruct (scan n ok1 _ 0 (cstr_get s i) (mkSh s (S i) b)) as [[x c] f].
    change (conclude n base neg lim (scan n ok2 (fun y c => Z.lor (u64 (Z.shiftl y bs)) (val c)) x c f) =
      (let r := clip lim neg (hval base 0 ds) in (r.1, mkSh s (i + length ds) b, r.2))).
    rewrite R. subst ds. apply (conclude_spec s b base ok2 rest); try done; [lia|].
    intros x0 c0 Hx0 Hc0 Hd0 Hok. subst ok2. cbv beta in Hok. unfold is_digit in Hd0. rewrite Hd0 in Hok. cbn [andb] in Hok.
    apply Z.leb_gt in Hok. rewrite Hsh in Hok. assert (Hnn := val_nonneg c0). rewrite Eb.
    assert (E64 : 2 ^ 64 = 2 ^ (64 - bs) * 2 ^ bs) by (rewrite <- Z.pow_add_r by lia; f_equal; lia). unfold ULLONG_MAX. rewrite E64.
    assert (2 ^ (64 - bs) * 2 ^ bs <= x0 * 2 ^ bs) by (apply Z.mul_le_mono_nonneg_r; lia). lia.
Qed.

Lemma scan_mult_spec s b base rest ds i n neg lim :
  2 <= base <= 36 ->
  limits lim -> is_digit base (cstr_get rest 0) = false -> byte_list s ->
  drop i s = ds ++ rest -> Forall (fun c => is_digit base c = true) ds -> (length ds < n)%nat ->
  scan_mult n (mkSh s (S i) b) base (cstr_get s i) neg lim =
    let r := clip lim neg (hval base 0 ds) in (r.1, mkSh s (i + length ds) b, r.2).
Proof.
  intros Hb Hl Hr Hs Hd Hdig Hn. unfold scan_mult.
  set (ok1 := fun x c => (val c <? base) && (x <=? UINT_MAX / 36 - 1)).
  set (ok2 := fun y c => (val c <? base) && (y <=? ULLONG_MAX / base) && (u64 (base * y) <=? ULLONG_MAX - val c)).
  assert (Hq : base * (ULLONG_MAX / base) <= ULLONG_MAX < base * (ULLONG_MAX / base) + base) by (assert (Hdm := Z.div_mod ULLONG_MAX base); assert (Hmb := Z.mod_pos_bound ULLONG_MAX base); lia).
  destruct (two_loops s b base ok1 (fun x c => u32 (x * base + val c)) ok2 (fun y c => u64 (y * base + val c)) rest n ds i)
    as (d1 & d2 & E & R & Hy & Hend); try done; try lia.
  + intros x c Hc Hok. subst ok1. cbv beta in Hok. by apply andb_prop in Hok as [Hok _].
  + intros x c Hx Hc Hok. subst ok1. cbv beta in Hok. apply andb_prop in Hok as [Hok%Z.ltb_lt Hle%Z.leb_le].
    change (UINT_MAX / 36 - 1) with 119304646 in Hle. assert (Hnn := val_nonneg c).
    assert (0 <= x * base) by (apply Z.mul_nonneg_nonneg; lia).
    assert (x * base <= 119304646 * 36) by (apply Z.mul_le_mono_nonneg; lia). rewrite u32_id by lia. unfold UINT_MAX. lia.
  + intros x c Hc Hok. subst ok2. cbv beta in Hok. by apply andb_prop in Hok as [[Hok _]%andb_prop _].
  + intros x c Hx Hc Hok. subst ok2. cbv beta in Hok. apply andb_prop in Hok as [[Hok%Z.ltb_lt Hle%Z.leb_le]%andb_prop Hle2%Z.leb_le].
    assert (Hnn := val_nonneg c). assert (base * x <= base * (ULLONG_MAX / base)) by (apply Z.mul_le_mono_nonneg_l; lia).
    assert (0 <= base * x) by (apply Z.mul_nonneg_nonneg; lia).
    rewrite u64_id in Hle2 by (unfold ULLONG_MAX in *; lia). rewrite u64_id by (unfold ULLONG_MAX in *; lia). lia.
  + destruct (scan n ok1 _ 0 (cstr_get s i) (mkSh s (S i) b)) as [[x c] f].
    change (conclude n base neg lim (scan n ok2 (fun y c => u64 (y * base + val c)) x c f) =
      (let r := clip lim neg (hval base 0 ds) in (r.1, mkSh s (i + length ds) b, r.2))).
    rewrite R. subst ds. apply (conclude_spec s b base ok2 rest); try done; [lia|].
    intros x0 c0 Hx0 Hc0 Hd0 Hok. subst ok2. cbv beta in Hok. unfold is_digit in Hd0. rewrite Hd0 in Hok. cbn [andb] in Hok.
    assert (Hnn := val_nonneg c0). apply andb_false_iff in Hok as [Hok%Z.leb_gt|Hok%Z.leb_gt].
    * assert (base * (ULLONG_MAX / base + 1) <= base * x0) by (apply Z.mul_le_mono_nonneg_l; lia). lia.
    * assert (u64 (base * x0) <= base * x0); [|lia]. apply Z.mod_le; [apply Z.mul_nonneg_nonneg; lia|lia].
Qed.

Lemma scan_digits_spec s b base rest ds i neg lim :
  2 <= base <= 36 -> limits lim -> is_digit base (cstr_get rest 0) = false -> byte_list s ->
  drop i s = ds ++ rest -> Forall (fun c => is_digit base c = true) ds ->
  scan_digits (mkSh s (S i) b) base (cstr_get s i) neg lim =
    let r := clip lim neg (hval base 0 ds) in (r.1, mkSh s (i + length ds) b, r.2).
Proof.
  intros Hb Hl Hr Hs Hd Hdig. rewrite scan_digits_cases. unfold turns. cbn [str].
  assert (Hn : (length ds < S (length s))%nat).
  { apply (f_equal length) in Hd. rewrite length_drop, length_app in Hd. lia. }
  destruct (Z.eqb_spec base 10) as [->|]; [by apply (scan_decimal_spec s b rest)|].
  destruct (Z.eqb_spec (Z.land base (base - 1)) 0); [by apply (scan_shift_spec s b base rest)|by apply (scan_mult_spec s b base rest)].
Qed.


(** *** Numerals *)

(** The text of a number for [base], before [rest]: the base it is read in
    and its digits.  In base 16, and in base 0, a prefix "0x" selects base
    16; in base 0 a leading zero selects base 8. *)
Inductive numeral (base : Z) (rest : list Z) : list Z -> Z -> list Z -> Prop :=
| num_plain ds : 2 <= base <= 36 -> ds <> [] -> (base = 16 -> hd 0 ds <> 48) -> numeral base rest ds base ds
| num_hex0 ds : base = 16 -> Z.lor (cstr_get (ds ++ rest) 0) 32 <> 120 -> numeral base rest (48 :: ds) 16 ds
| num_hex x ds : base = 0 \/ base = 16 -> x = 120 \/ x = 88 -> ds <> [] -> numeral base rest (48 :: x :: ds) 16 ds
| num_decimal ds : base = 0 -> ds <> [] -> hd 0 ds <> 48 -> numeral base rest ds 10 ds
| num_octal ds : base = 0 -> Z.lor (cstr_get (ds ++ rest) 0) 32 <> 120 -> numeral base rest (48 :: ds) 8 ds.

Lemma numeral_base base rest t b ds : numeral base rest t b ds -> 2 <= b <= 36.
Proof. destruct 1; lia. Qed.

Lemma skip_space_spec s b sp c r : forall fuel i,
  Forall (fun c => isspace c = true) sp -> isspace c = false -> drop i s = sp ++ c :: r -> (length sp < fuel)%nat ->
  skip_space fuel (mkSh s i b) = (c, mkSh s (S (i + length sp)) b).
Proof.
  induction sp as [|x sp IH]; intros fuel i Hsp Hc Hd Hf; (destruct fuel as [|fuel]; [simpl in Hf; lia|]); cbn [skip_space];
    unfold shgetc; cbn [str rpos cbase].
  - destruct (drop_next s i c r Hd) as [-> _]. rewrite Hc. cbn [length]. by rewrite Nat.add_0_r.
  - destruct (drop_next s i x (sp ++ c :: r) Hd) as [-> Hd']. assert (Hx := Forall_inv Hsp). apply Forall_inv_tail in Hsp.
    cbv beta in Hx. rewrite Hx. rewrite (IH fuel (S i)); [|done..|simpl in Hf; lia]. cbn [length]. do 3 f_equal. lia.
Qed.

(** The part after blanks and sign. *)
Lemma digit_not_other base c : base <= 36 -> 0 <= c < 256 -> is_digit base c = true ->
  isspace c = false /\ c <> 43 /\ c <> 45 /\ (Z.lor c 32 = 120 -> 16 < base).
Proof.
  intros Hb Hc Hd.
  assert (E : forallb (fun c => negb (val c <? 36) || (negb (isspace c) && negb (c =? 43) && negb (c =? 45) &&
    (negb (Z.lor c 32 =? 120) || (16 <=? val c)))) all_bytes = true) by (vm_compute; reflexivity).
  apply forallb_forall with (x := c) in E; [|by apply all_bytes_In]. unfold is_digit in Hd. apply Z.ltb_lt in Hd.
  destruct (Z.ltb_spec (val c) 36); [|lia]. cbn [negb orb] in E.
  apply andb_prop in E as [[[E1%negb_true_iff E2%negb_true_iff%Z.eqb_neq]%andb_prop E3%negb_true_iff%Z.eqb_neq]%andb_prop E4].
  split; [done|]. split; [done|]. split; [done|]. intros Ex. rewrite Ex in E4. cbn [negb orb Z.eqb Pos.eqb] in E4.
  apply Z.leb_le in E4. lia.
Qed.

Lemma body_spec s i base rest t b ds neg lim :
  numeral base rest t b ds -> limits lim -> is_digit b (cstr_get rest 0) = false -> byte_list s ->
  drop i s = t ++ rest -> Forall (fun c => is_digit b c = true) ds ->
  (let c := cstr_get s i in let f := mkSh s (S i) 0 in
   if ((base =? 0) || (base =? 16)) && (c =? 48) then
    let (c, f) := shgetc f in
    if Z.lor c 32 =? 120 then
      let (c, f) := shgetc f in
      if 16 <=? val c then
        let f := shunget f in
        (0, (if true then shunget f else shlim0 f), None)
      else scan_digits f 16 c neg lim
    else scan_digits f (if base =? 0 then 8 else base) c neg lim
  else
    let base := if base =? 0 then 10 else base in
    if base <=? val c then (0, shlim0 (shunget f), Some EINVAL)
    else scan_digits f base c neg lim) =
  let r := clip lim neg (hval b 0 ds) in (r.1, mkSh s (i + length t) 0, r.2).
Proof.
  intros N Hl Hr Hs Hd Hdig. assert (Hb := numeral_base _ _ _ _ _ N).
  assert (Hfirst : forall c r, ds = c :: r -> is_digit b c = true) by (intros c r ->; by apply Forall_inv in Hdig).
  assert (Hnext : forall j t', drop j s = ds ++ rest -> (i + length t = j + length ds)%nat -> t' = b ->
    scan_digits (mkSh s (S j) 0) t' (cstr_get s j) neg lim =
    let r := clip lim neg (hval b 0 ds) in (r.1, mkSh s (i + length t) 0, r.2)).
  { intros j t' Hj Hlen ->. rewrite Hlen. by apply (scan_digits_spec s 0 b rest). }
  cbv zeta. destruct N as [ds Hbb Hne H16|ds -> Hx|x ds Hbb Hx Hne|ds -> Hne H48|ds -> Hx].
  - destruct ds as [|c ds]; [done|]. destruct (drop_next s i c (ds ++ rest) Hd) as [Ec _].
    specialize (Hfirst c ds eq_refl). rewrite Ec. cbn [hd] in H16.
    destruct (Z.eqb_spec base 0) as [|Hn0]; [lia|]. cbn [orb].
    assert (E : (base =? 16) && (c =? 48) = false) by (destruct (Z.eqb_spec base 16), (Z.eqb_spec c 48); try done; exfalso; tauto).
    rewrite E. unfold is_digit in Hfirst. apply Z.ltb_lt in Hfirst. destruct (Z.leb_spec base (val c)); [lia|].
    assert (E' := Hnext i base Hd eq_refl eq_refl). rewrite Ec in E'. exact E'.
  - destruct (drop_next s i 48 (ds ++ rest) Hd) as [Ec Hd']. rewrite Ec. cbn [Z.eqb Pos.eqb orb andb].
    unfold shgetc. cbn [str rpos cbase]. rewrite (cstr_drop s (S i)), Hd'. destruct (Z.eqb_spec (Z.lor (cstr_get (ds ++ rest) 0) 32) 120); [done|].
    assert (E' := Hnext (S i) _ Hd' ltac:(cbn [length]; lia) eq_refl). rewrite (cstr_drop s (S i)), Hd' in E'. exact E'.
  - destruct (drop_next s i 48 (x :: ds ++ rest) Hd) as [Ec Hd']. destruct (drop_next s (S i) x (ds ++ rest) Hd') as [Ex Hd''].
    rewrite Ec. assert (E : (base =? 0) || (base =? 16) = true) by (destruct Hbb as [-> | ->]; done). rewrite E.
    cbn [Z.eqb Pos.eqb andb]. unfold shgetc. cbn [str rpos cbase]. rewrite Ex.
    assert (E2 : (Z.lor x 32 =? 120) = true) by (destruct Hx as [-> | ->]; done). rewrite E2.
    destruct ds as [|c ds]; [done|]. destruct (drop_next s (S (S i)) c (ds ++ rest) Hd'') as [Ec2 _]. rewrite Ec2.
    specialize (Hfirst c ds eq_refl). unfold is_digit in Hfirst. apply Z.ltb_lt in Hfirst. destruct (Z.leb_spec 16 (val c)); [lia|].
    assert (E' := Hnext (S (S i)) 16 Hd'' ltac:(cbn [length]; lia) eq_refl). rewrite Ec2 in E'. exact E'.
  - destruct ds as [|c ds]; [done|]. destruct (drop_next s i c (ds ++ rest) Hd) as [Ec _].
    specialize (Hfirst c ds eq_refl). rewrite Ec. cbn [hd] in H48. cbn [Z.eqb orb andb]. destruct (Z.eqb_spec c 48); [done|].
    unfold is_digit in Hfirst. apply Z.ltb_lt in Hfirst. destruct (Z.leb_spec 10 (val c)); [lia|].
    assert (E' := Hnext i 10 Hd eq_refl eq_refl). rewrite Ec in E'. exact E'.
  - destruct (drop_next s i 48 (ds ++ rest) Hd) as [Ec Hd']. rewrite Ec. cbn [Z.eqb Pos.eqb orb andb].
    unfold shgetc. cbn [str rpos cbase]. rewrite (cstr_drop s (S i)), Hd'. destruct (Z.eqb_spec (Z.lor (cstr_get (ds ++ rest) 0) 32) 120); [done|].
    assert (E' := Hnext (S i) _ Hd' ltac:(cbn [length]; lia) eq_refl). rewrite (cstr_drop s (S i)), Hd' in E'. exact E'.
Qed.

(** An optional sign. *)
Definition sign_text (sg : option bool) : list Z := match sg with None => [] | Some false => [43] | Some true => [45] end.
Definition sign_neg (sg : option bool) : bool := default false sg.

Lemma numeral_first base rest t b ds :
  numeral base rest t b ds -> Forall (fun c => is_digit b c = true) ds -> byte_list t ->
  exists c t', t = c :: t' /\ isspace c = false /\ c <> 43 /\ c <> 45.
Proof.
  intros N Hd Ht. assert (Hb := numeral_base _ _ _ _ _ N).
  assert (Hds : forall c r, ds = c :: r -> 0 <= c < 256 -> isspace c = false /\ c <> 43 /\ c <> 45).
  { intros c r -> Hc. destruct (digit_not_other b c ltac:(lia) Hc (Forall_inv Hd)) as (H1 & H2 & H3 & _). auto. }
  destruct N as [ds _ Hne _|ds _ _|x ds _ _ Hne|ds _ Hne _|ds _ _]; try (eexists _, _; split; [reflexivity|done]).
  - destruct ds as [|c ds]; [done|]. exists c, ds. split; [done|]. exact (Hds c ds eq_refl (Forall_inv Ht)).
  - destruct ds as [|c ds]; [done|]. exists c, ds. split; [done|]. exact (Hds c ds eq_refl (Forall_inv Ht)).
Qed.

Lemma strtox_spec sp sg t rest base b ds lim :
  numeral base rest t b ds -> limits lim -> is_digit b (cstr_get rest 0) = false ->
  byte_list (sp ++ sign_text sg ++ t ++ rest) -> Forall (fun c => isspace c = true) sp -> Forall (fun c => is_digit b c = true) ds ->
  strtox (sp ++ sign_text sg ++ t ++ rest) base lim =
    let r := clip lim (sign_neg sg) (hval b 0 ds) in (r.1, length (sp ++ sign_text sg ++ t), r.2).
Proof.
  intros N Hl Hr Hs Hsp Hd. set (s := sp ++ sign_text sg ++ t ++ rest) in *.
  assert (Ht : byte_list t) by (subst s; apply byte_list_app in Hs as [_ [_ [Ht _]%byte_list_app]%byte_list_app]; done).
  destruct (numeral_first _ _ _ _ _ N Hd Ht) as (c & t' & Et & Hc1 & Hc2 & Hc3).
  assert (Hbase : 0 <= base <= 36 /\ base <> 1) by (destruct N; lia).
  unfold strtox, __intscan. rewrite u32_id by lia. change (shlim0 (sh_fromstring s)) with (mkSh s 0 0).
  destruct (Z.ltb_spec 36 base); [lia|]. destruct (Z.eqb_spec base 1); [lia|]. cbn [orb].
  change (turns (mkSh s 0 0)) with (S (length s)).
  assert (Hlen : (length sp < S (length s))%nat) by (subst s; rewrite length_app; lia).
  set (i := (length sp + length (sign_text sg))%nat).
  assert (Hdrop : drop i s = t ++ rest).
  { subst s i. by rewrite <- drop_drop, !drop_app_length. }
  assert (Hcs : cstr_get s i = c) by (rewrite cstr_drop, Hdrop, Et; done).
  assert (Hfin : length (sp ++ sign_text sg ++ t) = (i + length t)%nat) by (subst i; rewrite !length_app; lia).
  assert (Hb := body_spec s i base rest t b ds (sign_neg sg) lim N Hl Hr Hs Hdrop Hd). cbv zeta in Hb. rewrite Hcs in Hb.
  rewrite Hfin. destruct sg as [g|].
  - set (sc := if g then 45 else 43). assert (Esg : sign_text (Some g) = [sc]) by (by destruct g).
    rewrite (skip_space_spec s 0 sp sc (t ++ rest) (S (length s)) 0); [|done|subst sc; by destruct g|subst s; by rewrite Esg|done].
    cbn [Nat.add]. assert (E1 : (sc =? 43) || (sc =? 45) = true) by (subst sc; by destruct g).
    assert (E2 : (sc =? 45) = sign_neg (Some g)) by (subst sc; by destruct g). rewrite E1, E2.
    unfold shgetc at 1. cbn [str rpos cbase].
    assert (Ei : S (length sp) = i) by (subst i; rewrite Esg; cbn [length]; lia). rewrite Ei, Hcs. cbv beta iota.
    etrans; [apply (f_equal (fun x : Z * shfile * option errno => let '(y, f, e) := x in (y, shcnt f, e)) Hb)|].
    cbv zeta beta iota. unfold shcnt. cbn [rpos cbase]. by rewrite Nat.sub_0_r.
  - rewrite (skip_space_spec s 0 sp c (t' ++ rest) (S (length s)) 0); [|done|done|subst s; rewrite Et; done|done].
    cbn [Nat.add]. destruct (Z.eqb_spec c 43); [done|]. destruct (Z.eqb_spec c 45); [done|]. cbn [orb].
    assert (Ei : length sp = i) by (subst i; cbn [sign_text length]; lia). rewrite Ei. cbv beta iota.
    etrans; [apply (f_equal (fun x : Z * shfile * option errno => let '(y, f, e) := x in (y, shcnt f, e)) Hb)|].
    cbv zeta beta iota. unfold shcnt. cbn [rpos cbase]. by rewrite Nat.sub_0_r.
Qed.


(** *** The scanner stays inside the string

    After a read, [c] is the byte before [rpos]; a further read only follows
    a byte other than the terminator. *)
Definition at_byte (s : list Z) (c : Z) (f : shfile) : Prop :=
  str f = s /\ (1 <= rpos f <= S (length s))%nat /\ c = cstr_get s (rpos f - 1).

Lemma at_byte_next s c f : at_byte s c f -> c <> 0 -> at_byte s (shgetc f).1 (shgetc f).2.
Proof.
  intros (Hs & Hr & Hc) Hnz. unfold shgetc. cbn [fst snd]. unfold at_byte. cbn [str rpos].
  assert (rpos f - 1 < length s)%nat.
  { destruct (Nat.lt_ge_cases (rpos f - 1) (length s)) as [?|Hge]; [done|].
    exfalso. apply Hnz. rewrite Hc. unfold cstr_get. by rewrite lookup_ge_None_2. }
  split_and!; [done|lia|lia|]. rewrite Hs. f_equal. lia.
Qed.

Lemma at_byte_back s c f : at_byte s c f -> str (shunget f) = s /\ (rpos (shunget f) <= length s)%nat.
Proof. intros (Hs & Hr & _). unfold shunget. cbn [str rpos]. split; [done|lia]. Qed.

Lemma scan_inside s fuel ok step x c f :
  at_byte s c f -> (forall x c, ok x c = true -> c <> 0) ->
  (forall x c, 0 <= x < 2 ^ 64 -> ok x c = true -> 0 <= step x c < 2 ^ 64) -> 0 <= x < 2 ^ 64 ->
  let '(x', c', f') := scan fuel ok step x c f in at_byte s c' f' /\ 0 <= x' < 2 ^ 64.
Proof.
  intros Hf Hok Hstep. revert x c f Hf. induction fuel as [|fuel IH]; intros x c f Hf Hx; cbn [scan]; [done|].
  destruct (ok x c) eqn:E; [|done].
  pose proof (at_byte_next s c f Hf (Hok _ _ E)) as Hn. destruct (shgetc f) as [c1 f1]. apply IH; [done|by apply Hstep].
Qed.

Lemma skip_space_inside s fuel f :
  str f = s -> (rpos f <= length s)%nat -> let '(c, f') := skip_space fuel f in at_byte s c f'.
Proof.
  revert f. induction fuel as [|fuel IH]; intros f Hs Hr; cbn [skip_space]; unfold shgetc.
  - unfold at_byte. cbn [str rpos]. rewrite Nat.sub_succ, Nat.sub_0_r, Hs. split_and!; [done|lia|lia|done].
  - destruct (isspace _) eqn:E.
    + apply IH; [done|]. cbn [rpos].
      destruct (Nat.lt_ge_cases (rpos f) (length s)) as [?|Hge]; [lia|].
      exfalso. rewrite Hs in E. unfold cstr_get in E. rewrite lookup_ge_None_2 in E by done. discriminate E.
    + unfold at_byte. cbn [str rpos]. rewrite Nat.sub_succ, Nat.sub_0_r, Hs. split_and!; [done|lia|lia|done].
Qed.

Definition inside (s : list Z) (r : Z * shfile * option errno) : Prop :=
  let '(y, f, _) := r in 0 <= y < 2 ^ 64 /\ (shcnt f <= length s)%nat.

Lemma finish_inside s c f y neg lim e : at_byte s c f -> limits lim -> inside s (finish f y neg lim e).
Proof.
  intros Hf Hl. destruct (at_byte_back s c f Hf) as [Hs Hr]. unfold finish, inside, shcnt.
  destruct (_ <=? _); [destruct (_ && _); [|destruct (_ <? _)]|]; (split; [|lia]);
    try apply u64_range; destruct Hl as [-> | ->]; unfold ULLONG_MAX; lia.
Qed.

Lemma digit_nonzero base c : base <= 36 -> (val c <? base) = true -> c <> 0.
Proof. intros Hb Hv ->. change (val 0) with 255 in Hv. lia. Qed.
Lemma isdigit_nonzero c : isdigit c = true -> c <> 0.
Proof. intros H ->. discriminate H. Qed.

Lemma val_small base c : base <= 36 -> (val c <? base) = true -> 0 <= val c < 2 ^ 6.
Proof. intros Hb Hv. pose proof (val_nonneg c). lia. Qed.

Lemma scan_digits_inside s f base c neg lim :
  at_byte s c f -> base <= 36 -> limits lim -> inside s (scan_digits f base c neg lim).
Proof.
  intros Hf Hb Hl. unfold scan_digits.
  assert (Hlong : forall n r, at_byte s (r.1.2) (r.2) -> inside s
    (let '(y, c, f) := r in
     if val c <? base then
       let '(_, _, f) := scan n (fun _ c => val c <? base) (fun x _ => x) 0 c f in
       finish f lim (if Z.land lim 1 =? 0 then neg else false) lim (Some ERANGE)
     else finish f y neg lim None)).
  { intros n [[y c1] f1] H1. cbn [fst snd] in H1. destruct (val c1 <? base); [|by eapply finish_inside].
    pose proof (scan_inside s n (fun _ c => val c <? base) (fun x _ => x) 0 c1 f1 H1
      (fun _ c => digit_nonzero base c Hb) (fun x c Hx _ => Hx) ltac:(lia)) as H2.
    destruct (scan _ _ _ _ _ _) as [[x2 c2] f2]. eapply finish_inside; [apply H2|done]. }
  assert (Hand : forall a b c', (val c' <? base) && a = b -> b = true -> c' <> 0 /\ 0 <= val c' < 2 ^ 6).
  { intros a b c' <- E. apply andb_true_iff in E as [E _]. split; [by apply (digit_nonzero base)|by apply (val_small base)]. }
  destruct (base =? 10); [|destruct (Z.land base (base - 1) =? 0)]; cbv zeta.
  - match goal with |- context [scan ?n ?ok ?st 0 c f] => pose proof (scan_inside s n ok st 0 c f Hf) as H1; destruct (scan n ok st 0 c f) as [[x c1] f1] end.
    destruct H1 as [H1 Hx]; [intros x' c' [E _]%andb_true_iff; by apply isdigit_nonzero|intros; pose proof (u32_range (x0 * 10 + (c0 - 48))); lia|lia|].
    match goal with |- context [scan ?n ?ok ?st x c1 f1] => pose proof (scan_inside s n ok st x c1 f1 H1) as H2; destruct (scan n ok st x c1 f1) as [[y c2] f2] end.
    destruct H2 as [H2 Hy]; [intros x' c' [[E _]%andb_true_iff _]%andb_true_iff; by apply isdigit_nonzero|intros; apply u64_range|done|].
    destruct (negb (isdigit c2)); [by eapply finish_inside|]. by apply (Hlong (turns f) (y, c2, f2)).
  - match goal with |- context [scan ?n ?ok ?st 0 c f] => pose proof (scan_inside s n ok st 0 c f Hf) as H1; destruct (scan n ok st 0 c f) as [[x c1] f1] end.
    destruct H1 as [H1 Hx]; [intros x' c' E; by apply (Hand _ _ _ eq_refl E)
      |intros x' c' _ E; apply lor_range; [done|pose proof (u32_range (Z.shiftl x' (shift_of base))); unfold shift_of in *; lia|pose proof (Hand _ _ _ eq_refl E); lia]|lia|].
    match goal with |- context [scan ?n ?ok ?st x c1 f1] => pose proof (scan_inside s n ok st x c1 f1 H1) as H2; apply (Hlong n (scan n ok st x c1 f1)); destruct (scan n ok st x c1 f1) as [[y c2] f2] end.
    apply H2; [intros x' c' E; by apply (Hand _ _ _ eq_refl E)
      |intros x' c' _ E; apply lor_range; [done|apply u64_range|pose proof (Hand _ _ _ eq_refl E); lia]|done].
  - match goal with |- context [scan ?n ?ok ?st 0 c f] => pose proof (scan_inside s n ok st 0 c f Hf) as H1; destruct (scan n ok st 0 c f) as [[x c1] f1] end.
    destruct H1 as [H1 Hx]; [intros x' c' E; by apply (Hand _ _ _ eq_refl E)|intros x' c' _ _; pose proof (u32_range (x' * base + val c')); lia|lia|].
    match goal with |- context [scan ?n ?ok ?st x c1 f1] => pose proof (scan_inside s n ok st x c1 f1 H1) as H2; apply (Hlong n (scan n ok st x c1 f1)); destruct (scan n ok st x c1 f1) as [[y c2] f2] end.
    apply H2; [intros x' c' E; apply andb_true_iff in E as [E _]; by apply (Hand _ _ _ eq_refl E)|intros; apply u64_range|done].
Qed.

Lemma intscan_inside s base lim : limits lim -> inside s (__intscan (sh_fromstring s) base true lim).
Proof.
  intros Hl. unfold __intscan. destruct (_ || _) eqn:Eb; [split; [lia|cbn; lia]|].
  apply orb_false_iff in Eb as [Eb _]. apply Z.ltb_ge in Eb.
  pose proof (skip_space_inside s (turns (sh_fromstring s)) (sh_fromstring s) eq_refl ltac:(cbn; lia)) as H1.
  destruct (skip_space _ _) as [c f].
  set (x := if (c =? 43) || (c =? 45) then _ else _).
  assert (H2 : at_byte s x.1.2 x.2); [|destruct x as [[neg c2] f2]; cbn [fst snd] in H2].
  { unfold x. destruct (_ || _) eqn:E; [|done]. pose proof (at_byte_next s c f H1) as Hn. destruct (shgetc f). apply Hn. intros ->. discriminate E. }
  destruct (((base =? 0) || (base =? 16)) && (c2 =? 48)) eqn:E0.
  - apply andb_true_iff in E0 as [_ E0]. apply Z.eqb_eq in E0.
    pose proof (at_byte_next s c2 f2 H2 ltac:(lia)) as H3. destruct (shgetc f2) as [c3 f3]. cbn [fst snd] in H3.
    destruct (Z.eqb_spec (Z.lor c3 32) 120) as [Ex|_]; [|apply scan_digits_inside; [done|destruct (base =? 0); lia|done]].
    assert (Hc3 : c3 <> 0) by (intros ->; discriminate Ex).
    pose proof (at_byte_next s c3 f3 H3 Hc3) as H4. destruct (shgetc f3) as [c4 f4]. cbn [fst snd] in H4.
    destruct (16 <=? val c4); [|by apply scan_digits_inside].
    destruct (at_byte_back s c4 f4 H4) as [_ Hr]. split; [lia|]. unfold shcnt. cbn. cbn in Hr. lia.
  - destruct (_ <=? val c2); [|apply scan_digits_inside; [done|destruct (base =? 0); lia|done]].
    split; [lia|]. unfold shcnt, shlim0. cbn. lia.
Qed.


(** ** Properties *)

(** C23: [strtoul] and [strtol] on blanks, an optional sign and a numeral (in
    any base from 2 to 36, or with the base 8, 10 or 16 its prefix selects)
    give the number the digits denote, negated modulo 2^64 after a minus
    sign, and point behind the digits; a number too large for the type is
    clipped to the largest (smallest) value and reported by ERANGE. *)
Theorem strto_value sp sg t rest base b ds :
  numeral base rest t b ds -> is_digit b (cstr_get rest 0) = false ->
  byte_list (sp ++ sign_text sg ++ t ++ rest) ->
  Forall (fun c => isspace c = true) sp -> Forall (fun c => is_digit b c = true) ds ->
  let s := sp ++ sign_text sg ++ t ++ rest in
  let v := hval b 0 ds in
  let neg := sign_neg sg in
  let stop := length (sp ++ sign_text sg ++ t) in
  strtoul s base = (if 2 ^ 64 <=? v then (2 ^ 64 - 1, stop, Some ERANGE) else (u64 (if neg then - v else v), stop, None)) /\
  strtol s base = (let x := if neg then - v else v in
                   if 2 ^ 63 <=? x then (2 ^ 63 - 1, stop, Some ERANGE)
                   else if x <? - 2 ^ 63 then (- 2 ^ 63, stop, Some ERANGE) else (x, stop, None)).
Proof.
  intros N Hr Hs Hsp Hd s v neg stop. assert (Hb := numeral_base _ _ _ _ _ N).
  assert (Hv : 0 <= v) by (apply (hval_mono b 0 ds); lia). unfold strtoul, strtol. subst s.
  rewrite (strtox_spec sp sg t rest base b ds ULLONG_MAX) by (done || by left).
  rewrite (strtox_spec sp sg t rest base b ds (2 ^ 63)) by (done || by right). fold v neg stop. unfold clip. split.
  - rewrite Z.eqb_refl. unfold ULLONG_MAX. destruct (Z.ltb_spec (2 ^ 64 - 1) v), (Z.leb_spec (2 ^ 64) v); try lia; done.
  - change (2 ^ 63 =? ULLONG_MAX) with false. cbv zeta.
    assert (Hi : forall x, - 2 ^ 63 <= x < 2 ^ 63 -> i64 (u64 x) = x).
    { intros x Hx. destruct (Z.lt_ge_cases x 0) as [Hn|Hp].
      - replace x with (0 - - x) by lia. destruct (Z.eq_dec x (- 2 ^ 63)) as [->|]; [by vm_compute|]. rewrite i64_sub by lia. lia.
      - rewrite u64_id by lia. apply i64_id. lia. }
    destruct neg; cbn [negb andb].
    + destruct (Z.leb_spec (2 ^ 63) (- v)); [lia|]. destruct (Z.ltb_spec (2 ^ 63) v), (Z.ltb_spec (- v) (- 2 ^ 63)); try lia; cbn [fst snd].
      * by change (i64 (2 ^ 63)) with (- 2 ^ 63).
      * by rewrite Hi by lia.
    + destruct (Z.leb_spec (2 ^ 63) v); cbn [fst snd]; [done|].
      destruct (Z.ltb_spec (2 ^ 63) v), (Z.ltb_spec v (- 2 ^ 63)); try lia; cbn [fst snd]. by rewrite Hi by lia.
Qed.

Lemma strto_value_witness :
  strtoul [32; 32; 45; 48; 120; 49; 70; 103] 0 = (2 ^ 64 - 31, 7%nat, None) /\ strtol [32; 32; 45; 48; 120; 49; 70; 103] 0 = (-31, 7%nat, None).
Proof.
  apply (strto_value [32; 32] (Some true) [48; 120; 49; 70] [103] 0 16 [49; 70]).
  - apply num_hex; [left; reflexivity|left; reflexivity|discriminate].
  - reflexivity.
  - repeat constructor; lia.
  - repeat constructor.
  - repeat constructor.
Defined.



Lemma i64_range x : - 2 ^ 63 <= i64 x < 2 ^ 63.
Proof.
  unfold i64, sgn. pose proof (Z.mod_pos_bound x (2 ^ 64) ltac:(lia)).
  destruct (Z.ltb_spec (x mod 2 ^ 64) (2 ^ (64 - 1))); lia.
Qed.

(** C24: For every string and base, [strtoul] and [strtol] return a value of
    their type and an end pointer inside the string, at most at its
    terminator. *)
Theorem strto_types s base :
  (let '(y, p, _) := strtoul s base in 0 <= y < 2 ^ 64 /\ (p <= length s)%nat) /\
  (let '(y, p, _) := strtol s base in - 2 ^ 63 <= y < 2 ^ 63 /\ (p <= length s)%nat).
Proof.
  unfold strtoul, strtol, strtox. change (shlim0 (sh_fromstring s)) with (sh_fromstring s). split.
  - pose proof (intscan_inside s (u32 base) ULLONG_MAX (or_introl eq_refl)) as H.
    by destruct (__intscan _ _ _ _) as [[y f] e].
  - pose proof (intscan_inside s (u32 base) (2 ^ 63) (or_intror eq_refl)) as H.
    destruct (__intscan _ _ _ _) as [[y f] e]. split; [apply i64_range|apply H].
Qed.


End StrTo.
