(* ===== verification/StrWords.v ===== *)
(** Taking strings apart and comparing them by other rules (musl src/string:
    strtok_r.c, strtok.c, strsep.c, strcasecmp.c, strncasecmp.c, strcasestr.c,
    strverscmp.c, swab.c; src/ctype: tolower.c, isupper.c). *)

From stdpp Require Import base tactics list gmap numbers option.
From Stdlib Require Import ZArith Lia.
From S2P Require Import Prelude Mem CString Strstr MemFns StrTo StrCopy.

#[local] Open Scope Z_scope.

Module StrWords.
Import Prelude Mem.
Import CString(cstring, find_index).
Import StrCopy(apart).

(** ** Tokens

    The null pointer is 0.  The result is the memory, the saved pointer and
    the pointer returned. *)
Definition strtok_r (fuel : nat) (s sep p : Z) (m : gmap Z Z) : option (gmap Z Z * Z * Z) :=
  let s := if s =? 0 then p else s in
  if s =? 0 then Some (m, p, 0)
  else
    match CString.strspn (ld8 m) fuel s sep with
    | None => None
    | Some k =>
      let s := s + k in
      if ld8 m s =? 0 then Some (m, 0, 0)
      else
        match CString.strcspn (ld8 m) fuel s sep with
        | None => None
        | Some k =>
          let p := s + k in
          if negb (ld8 m p =? 0) then Some (st8 m p 0, p + 1, s) else Some (m, 0, s)
        end
    end.
(** [strtok] keeps the pointer in a static variable of its own. *)
Definition strtok (fuel : nat) (s sep p : Z) (m : gmap Z Z) : option (gmap Z Z * Z * Z) :=
  if (s =? 0) && (p =? 0) then Some (m, p, 0)
  else
    let s := if s =? 0 then p else s in
    match CString.strspn (ld8 m) fuel s sep with
    | None => None
    | Some k =>
      let s := s + k in
      if ld8 m s =? 0 then Some (m, 0, 0)
      else
        match CString.strcspn (ld8 m) fuel s sep with
        | None => None
        | Some k =>
          let p := s + k in
          if negb (ld8 m p =? 0) then Some (st8 m p 0, p + 1, s) else Some (m, 0, s)
        end
    end.
Definition strsep (fuel : nat) (str sep : Z) (m : gmap Z Z) : option (gmap Z Z * Z * Z) :=
  let s := str in
  if s =? 0 then Some (m, str, 0)
  else
    match CString.strcspn (ld8 m) fuel s sep with
    | None => None
    | Some k =>
      let e := s + k in
      if negb (ld8 m e =? 0) then Some (st8 m e 0, e + 1, s) else Some (m, 0, s)
    end.

(** A string taken apart: the first call gets the string, the others the null
    pointer, until the result is null. *)
Fixpoint all_tokens (turns fuel : nat) (s sep p : Z) (m : gmap Z Z) : option (gmap Z Z * list Z) :=
  match turns with
  | O => None
  | S turns =>
    match strtok_r fuel s sep p m with
    | None => None
    | Some (m, p, t) =>
      if t =? 0 then Some (m, [])
      else match all_tokens turns fuel 0 sep p m with None => None | Some (m, ts) => Some (m, t :: ts) end
    end
  end.

(** ** Letters of either case *)
Definition isupper (c : Z) : bool := u32 (c - 65) <? 26.
Definition tolower (c : Z) : Z := if isupper c then Z.lor c 32 else c.

Section Compare.
Context (rdl rdr : Z -> Z).

Fixpoint strcasecmp (fuel : nat) (l r : Z) : option Z :=
  match fuel with
  | O => None
  | S fuel =>
    if negb (rdl l =? 0) && negb (rdr r =? 0) && ((rdl l =? rdr r) || (tolower (rdl l) =? tolower (rdr r)))
    then strcasecmp fuel (l + 1) (r + 1)
    else Some (tolower (rdl l) - tolower (rdr r))
  end.
Fixpoint ncase_loop (n : nat) (l r : Z) : Z :=
  if negb (rdl l =? 0) && negb (rdr r =? 0) && negb (n =? 0)%nat && ((rdl l =? rdr r) || (tolower (rdl l) =? tolower (rdr r)))
  then match n with O => 0 | S n => ncase_loop n (l + 1) (r + 1) end
  else tolower (rdl l) - tolower (rdr r).
Definition strncasecmp (l r : Z) (n : nat) : Z := match n with O => 0 | S n => ncase_loop n l r end.

(** The common prefix of [strverscmp]: [None] is out of fuel, [Some None]
    equal strings. *)
Fixpoint common (fuel : nat) (l r i dp : Z) (z : bool) : option (option (Z * Z * bool)) :=
  match fuel with
  | O => None
  | S fuel =>
    if rdl (l + i) =? rdr (r + i) then
      let c := rdl (l + i) in
      if c =? 0 then Some None
      else if negb (StrTo.isdigit c) then common fuel l r (i + 1) (i + 1) true
      else common fuel l r (i + 1) dp (if negb (c =? 48) then false else z)
    else Some (Some (i, dp, z))
  end.
(** [for (j=i; isdigit(l[j]); j++) if (!isdigit(r[j])) return 1;
    if (isdigit(r[j])) return -1;]: the value returned, if any. *)
Fixpoint longer (fuel : nat) (l r j : Z) : option (option Z) :=
  match fuel with
  | O => None
  | S fuel =>
    if StrTo.isdigit (rdl (l + j)) then
      if negb (StrTo.isdigit (rdr (r + j))) then Some (Some 1) else longer fuel l r (j + 1)
    else if StrTo.isdigit (rdr (r + j)) then Some (Some (-1)) else Some None
  end.
Definition strverscmp (fuel : nat) (l r : Z) : option Z :=
  match common fuel l r 0 0 true with
  | None => None
  | Some None => Some 0
  | Some (Some (i, dp, z)) =>
    if negb (rdl (l + dp) =? 48) && negb (rdr (r + dp) =? 48) then
      match longer fuel l r i with
      | None => None
      | Some (Some v) => Some v
      | Some None => Some (rdl (l + i) - rdr (r + i))
      end
    else if z && (dp <? i) && (StrTo.isdigit (rdl (l + i)) || StrTo.isdigit (rdr (r + i))) then
      Some (u8 (rdl (l + i) - 48) - u8 (rdr (r + i) - 48))
    else Some (rdl (l + i) - rdr (r + i))
  end.
End Compare.

Section Search.
Context (rd : Z -> Z).
Fixpoint case_loop (fuel : nat) (h n : Z) (l : nat) : option (option Z) :=
  match fuel with
  | O => None
  | S fuel =>
    if rd h =? 0 then Some None
    else if strncasecmp rd rd h n l =? 0 then Some (Some h) else case_loop fuel (h + 1) n l
  end.
Definition strcasestr (fuel : nat) (h n : Z) : option (option Z) :=
  match CString.strlen rd fuel n with None => None | Some l => case_loop fuel h n (Z.to_nat l) end.
End Search.

(** ** swab: two bytes at a time; [fuel] is the length *)
Fixpoint swab_loop (fuel : nat) (src dest n : Z) (m : gmap Z Z) : gmap Z Z :=
  match fuel with
  | O => m
  | S fuel =>
    if 1 <? n then
      let m := st8 m dest (ld8 m (src + 1)) in
      let m := st8 m (dest + 1) (ld8 m src) in
      swab_loop fuel (src + 2) (dest + 2) (n - 2) m
    else m
  end.
Definition swab (src dest n : Z) (m : gmap Z Z) : gmap Z Z := swab_loop (Z.to_nat n) src dest n m.

(** ** The words of a text *)
Section Words.
Context (cs : list Z).
Definition sep_in (x : Z) : bool := bool_decide (x ∈ cs).

(** [w] is the word being read. *)
Fixpoint words (w l : list Z) : list (list Z) :=
  let flush := match w with [] => [] | _ => [w] end in
  match l with
  | [] => flush
  | c :: l => if sep_in c then flush ++ words [] l else words (w ++ [c]) l
  end.

Lemma words_skip l : words [] l = words [] (drop (find_index (fun x => negb (sep_in x)) l) l).
Proof. induction l as [|c l IH]; [done|]. cbn [words find_index]. destruct (sep_in c) eqn:E; cbn [negb drop app]; [exact IH|]. cbn [words]. by rewrite E. Qed.
Lemma words_word w l : let k := find_index sep_in l in w ++ take k l <> [] ->
  words w l = (w ++ take k l) :: words [] (drop (S k) l).
Proof.
  revert w. induction l as [|c l IH]; intros w; cbn [words find_index].
  - cbn. rewrite app_nil_r. by destruct w.
  - destruct (sep_in c) eqn:E; cbn [take drop].
    + rewrite app_nil_r. by destruct w.
    + intros Hw. rewrite IH; [|by rewrite <- app_assoc]. by rewrite <- app_assoc.
Qed.
End Words.

(** ** One call *)
Section Token.
Context (fuel : nat) (sep : Z) (cs : list Z).

Lemma cut_string m a l k : cstring (ld8 m) a l -> (k < length l)%nat ->
  let m' := st8 m (a + Z.of_nat k) 0 in
  cstring (ld8 m') a (take k l) /\ cstring (ld8 m') (a + Z.of_nat k + 1) (drop (S k) l).
Proof.
  intros C Hk m'. split.
  - pose proof C as [Hl Hg]. split; [by apply Forall_take|]. intros i Hi. rewrite length_take in Hi. unfold m'.
    destruct (decide (i = k)) as [->|].
    + rewrite ld8_st8_eq. unfold cstr_get. rewrite lookup_ge_None_2; [done|]. rewrite length_take. lia.
    + rewrite ld8_st8_ne, Hg by lia. unfold cstr_get. rewrite lookup_take_lt; [done|lia].
  - replace (a + Z.of_nat k + 1) with (a + Z.of_nat (S k)) by lia. apply (StrCopy.cstring_frame m); [apply StrCopy.cstring_drop; [done|lia]|].
    intros x Hx. unfold m'. rewrite ld8_st8_ne; [done|lia].
Qed.

(** The string [l] at [a] and the separators [cs]. *)
Record parsing (m : gmap Z Z) (a : Z) (l : list Z) : Prop := {
  pa_string : cstring (ld8 m) a l;
  pa_set : cstring (ld8 m) sep cs;
  pa_apart : apart a (Z.of_nat (length l) + 1) sep (Z.of_nat (length cs) + 1);
  pa_pos : 0 < a;
  pa_fuel : (length l < fuel)%nat;
  pa_sfuel : (length cs < fuel)%nat
}.
Lemma parsing_drop m a l k : parsing m a l -> (k <= length l)%nat -> parsing m (a + Z.of_nat k) (drop k l).
Proof. intros [] Hk. split; [by apply StrCopy.cstring_drop|done|unfold apart in *; rewrite length_drop; lia|lia|rewrite length_drop; lia|done]. Qed.
Lemma parsing_cut m a l k : parsing m a l -> (k < length l)%nat -> parsing (st8 m (a + Z.of_nat k) 0) (a + Z.of_nat k + 1) (drop (S k) l).
Proof.
  intros [] Hk. split; [by apply (cut_string m a l k)|..|unfold apart in *; rewrite length_drop; lia|lia|rewrite length_drop; lia|done].
  apply (StrCopy.cstring_frame m); [done|]. intros x Hx. rewrite ld8_st8_ne; [done|]. unfold apart in *. lia.
Qed.

(** The token that starts the string. *)
Lemma token_here m a l : parsing m a l -> l <> [] ->
  let k := find_index (sep_in cs) l in
  CString.strcspn (ld8 m) fuel a sep = Some (Z.of_nat k) /\ (k <= length l)%nat /\
  ld8 m (a + Z.of_nat k) = cstr_get l k /\ (ld8 m (a + Z.of_nat k) = 0 <-> k = length l).
Proof.
  intros [C D _ _ Hf Hs] Hl k. split; [by apply CString.strcspn_spec; first [done|apply ld8_range]|].
  pose proof (proj1 (CString.find_index_spec (sep_in cs) l)) as Hk. fold k in Hk. split; [done|].
  assert (E : ld8 m (a + Z.of_nat k) = cstr_get l k) by (by apply C). split; [done|]. rewrite E. split.
  - intros E0. destruct (decide (k = length l)) as [|]; [done|]. exfalso. apply (CString.cstr_get_in l k); [apply C|lia|done].
  - intros ->. apply CString.cstr_get_end.
Qed.

(** What a call leaves: the token [w] at [t], and [rest] to go on with. *)
Record cut (m m' : gmap Z Z) (t p : Z) (w rest : list Z) : Prop := {
  cut_token : cstring (ld8 m') t w;
  cut_rest : (p = 0 /\ rest = [] /\ m' = m) \/ (p = t + Z.of_nat (length w) + 1 /\ parsing m' p rest);
  cut_frame x : x <> t + Z.of_nat (length w) -> ld8 m' x = ld8 m x
}.
Lemma cut_here m a l : parsing m a l ->
  let k := find_index (sep_in cs) l in
  cut m (if negb (ld8 m (a + Z.of_nat k) =? 0) then st8 m (a + Z.of_nat k) 0 else m) a
    (if negb (ld8 m (a + Z.of_nat k) =? 0) then a + Z.of_nat k + 1 else 0) (take k l) (drop (S k) l).
Proof.
  intros P k. pose proof (proj1 (CString.find_index_spec (sep_in cs) l)) as Hk. fold k in Hk.
  assert (E : ld8 m (a + Z.of_nat k) = cstr_get l k) by (by apply (pa_string _ _ _ P)). rewrite E.
  destruct (decide (k = length l)) as [Ek|Hlt].
  - rewrite Ek, CString.cstr_get_end. change (negb (0 =? 0)) with false. cbv iota. rewrite firstn_all, drop_ge by lia. split; [apply P|by left|done].
  - assert (N : cstr_get l k <> 0) by (apply CString.cstr_get_in; [apply (pa_string _ _ _ P)|lia]). rewrite (proj2 (Z.eqb_neq _ _) N). cbv iota.
    cbn [negb]. split; [apply cut_string; [apply P|lia]|right; rewrite length_take, Nat.min_l by lia; split; [done|apply parsing_cut; [done|lia]]|].
    rewrite length_take, Nat.min_l by lia. intros x Hx. by rewrite ld8_st8_ne.
Qed.

Lemma find_head (f : Z -> bool) l : match drop (find_index f l) l with [] => True | x :: _ => f x = true end.
Proof. induction l as [|x l IH]; [done|]. cbn [find_index]. destruct (f x) eqn:E; [exact E|exact IH]. Qed.

Lemma strtok_step s p m a l : (if s =? 0 then p else s) = a -> parsing m a l ->
  let k := find_index (fun x => negb (sep_in cs x)) l in
  match drop k l with
  | [] => strtok_r fuel s sep p m = Some (m, 0, 0) /\ words cs [] l = []
  | _ => exists m' p' w rest, strtok_r fuel s sep p m = Some (m', p', a + Z.of_nat k) /\ words cs [] l = w :: words cs [] rest /\
           cut m m' (a + Z.of_nat k) p' w rest /\ (length rest < length l)%nat /\
           (p' <> 0 -> (k + length w + S (length rest) <= length l)%nat)
  end.
Proof.
  intros Ea P k. pose proof (proj1 (CString.find_index_spec (fun x => negb (sep_in cs x)) l)) as Hk. fold k in Hk.
  assert (Ew : words cs [] l = words cs [] (drop k l)) by apply words_skip. pose proof (find_head (fun x => negb (sep_in cs x)) l) as Hh. fold k in Hh.
  unfold strtok_r. rewrite Ea. destruct (Z.eqb_spec a 0); [pose proof (pa_pos _ _ _ P); lia|].
  rewrite (CString.strspn_spec _ (ld8_range m) a l sep cs) by apply P. fold (sep_in cs). change (find_index _ l) with k.
  pose proof (parsing_drop m a l k P Hk) as P2. assert (E0 : ld8 m (a + Z.of_nat k) = cstr_get l k) by (by apply (pa_string _ _ _ P)).
  assert (E1 : cstr_get l k = cstr_get (drop k l) 0) by (unfold cstr_get; by rewrite lookup_drop, Nat.add_0_r).
  assert (El : length (drop k l) = (length l - k)%nat) by apply length_drop.
  destruct (drop k l) as [|c r] eqn:Er; [rewrite E0, E1; done|].
  assert (Nc : cstr_get (c :: r) 0 <> 0) by (apply CString.cstr_get_in; [apply (pa_string _ _ _ P2)|cbn; lia]).
  rewrite <- E1, <- E0 in Nc. rewrite (proj2 (Z.eqb_neq _ _) Nc).
  destruct (token_here m _ _ P2 ltac:(done)) as (Ec & Hj & _ & Hz). pose proof (cut_here m _ _ P2) as Hc. cbv zeta in Hc. set (j := find_index (sep_in cs) (c :: r)) in *.
  rewrite Ec. destruct (Z.eqb_spec (ld8 m (a + Z.of_nat k + Z.of_nat j)) 0) as [Ez|Nz]; cbn [negb] in *.
  all: do 4 eexists; split; [done|]; split; [|split; [exact Hc|]].
  1,3: rewrite Ew; apply (words_word cs [] (c :: r)); fold j; cbn [app]; unfold j; cbn [find_index]; cbv beta in Hh; apply negb_true_iff in Hh; by rewrite Hh.
  all: rewrite ?length_take, length_drop; cbn [length] in *; split; [lia|]; intros Hp; try done.
  rewrite Hz in Nz. fold j in Nz. lia.
Qed.
End Token.

(** ** Properties *)

Lemma all_tokens_run fuel sep cs turns : forall s p m a l,
  (if s =? 0 then p else s) = a -> parsing fuel sep cs m a l -> (length l < turns)%nat ->
  exists m' ts, all_tokens turns fuel s sep p m = Some (m', ts) /\
    Forall2 (fun t w => cstring (ld8 m') t w) ts (words cs [] l) /\
    forall x, x < a \/ a + Z.of_nat (length l) <= x -> ld8 m' x = ld8 m x.
Proof.
  induction turns as [|turns IH]; intros s p m a l Ea P Ht; [lia|]. cbn [all_tokens].
  pose proof (strtok_step fuel sep cs s p m a l Ea P) as T. cbv zeta in T. set (k := find_index (fun x => negb (sep_in cs x)) l) in *.
  destruct (drop k l) as [|c r] eqn:Er.
  { destruct T as [-> ->]. cbn [Z.eqb]. exists m, []. split; [done|]. split; [constructor|done]. }
  destruct T as (m1 & p1 & w & rest & -> & -> & [C R F] & Hlt & Hlen).
  pose proof (pa_pos _ _ _ _ _ _ P). destruct (Z.eqb_spec (a + Z.of_nat k) 0); [lia|].
  destruct R as [(-> & -> & ->)|[Ep P1]].
  - destruct turns as [|turns]; [lia|]. cbn [all_tokens]. change (strtok_r fuel 0 sep 0 m) with (Some (m, 0, 0)). cbn [Z.eqb].
    exists m, [a + Z.of_nat k]. split; [done|]. split; [constructor; [done|constructor]|done].
  - destruct (IH 0 p1 m1 p1 rest eq_refl P1 ltac:(lia)) as (m2 & ts & -> & H2 & F2). exists m2, (a + Z.of_nat k :: ts). split; [done|]. split.
    + constructor; [|done]. apply (StrCopy.cstring_frame m1); [done|]. intros x Hx. apply F2. lia.
    + intros x Hx. rewrite F2 by lia. apply F. lia.
Qed.

(** C30: Calling [strtok_r] with a string and then with the null pointer until
    it returns the null pointer yields the words of the string in order: the
    maximal runs of bytes that are not separators, each terminated in place,
    none of them empty.  The calls end after at most one turn per byte and
    one more, and only bytes of the string are overwritten. *)
Theorem strtok_r_words fuel turns s sep p l cs m :
  cstring (ld8 m) s l -> cstring (ld8 m) sep cs -> apart s (Z.of_nat (length l) + 1) sep (Z.of_nat (length cs) + 1) ->
  0 < s -> (length l < fuel)%nat -> (length cs < fuel)%nat -> (length l < turns)%nat ->
  exists m' ts, all_tokens turns fuel s sep p m = Some (m', ts) /\
    Forall2 (fun t w => cstring (ld8 m') t w) ts (words cs [] l) /\
    forall x, x < s \/ s + Z.of_nat (length l) <= x -> ld8 m' x = ld8 m x.
Proof.
  intros C D Ha Hs Hf Hg Ht. apply (all_tokens_run fuel sep cs turns); [by rewrite (proj2 (Z.eqb_neq s 0)) by lia|by split|done].
Qed.

(** "/usr//lib:x" at the separators "/:". *)
Definition path : gmap Z Z := MemFns.text 100 [47; 117; 115; 114; 47; 47; 108; 105; 98; 58; 120; 0; 47; 58].
Lemma strtok_r_words_witness :
  words [47; 58] [] [47; 117; 115; 114; 47; 47; 108; 105; 98; 58; 120] = [[117; 115; 114]; [108; 105; 98]; [120]] /\
  exists m' ts, all_tokens 12 12 100 112 0 path = Some (m', ts) /\
    Forall2 (fun t w => cstring (ld8 m') t w) ts [[117; 115; 114]; [108; 105; 98]; [120]].
Proof.
  split; [reflexivity|].
  destruct (strtok_r_words 12 12 100 112 0 [47; 117; 115; 114; 47; 47; 108; 105; 98; 58; 120] [47; 58] path) as (m' & ts & E & F & _).
  - split; [repeat constructor; lia|]. intros i Hi. do 12 (destruct i as [|i]; [vm_compute; reflexivity|]). cbn in Hi. lia.
  - split; [repeat constructor; lia|]. intros i Hi. do 3 (destruct i as [|i]; [vm_compute; reflexivity|]). cbn in Hi. lia.
  - unfold apart. cbn. lia.
  - lia.
  - cbn. lia.
  - cbn. lia.
  - cbn. lia.
  - exists m', ts. split; [exact E|exact F].
Defined.

(** [strtok] is [strtok_r] on its own pointer. *)
Theorem strtok_is_strtok_r fuel s sep p m : strtok fuel s sep p m = strtok_r fuel s sep p m.
Proof. unfold strtok, strtok_r. destruct (Z.eqb_spec s 0) as [->|]; cbn [andb]; [done|]. by rewrite (proj2 (Z.eqb_neq s 0)). Qed.

(** [strsep] cuts at every separator, so that its tokens may be empty. *)
Theorem strsep_cuts fuel a sep cs l m : parsing fuel sep cs m a l ->
  let k := find_index (sep_in cs) l in
  exists m' p', strsep fuel a sep m = Some (m', p', a) /\ cut fuel sep cs m m' a p' (take k l) (drop (S k) l).
Proof.
  intros P k. unfold strsep. destruct (Z.eqb_spec a 0); [pose proof (pa_pos _ _ _ _ _ _ P); lia|].
  rewrite (CString.strcspn_spec _ (ld8_range m) a l sep cs) by apply P. fold (sep_in cs). change (find_index _ l) with k.
  pose proof (cut_here fuel sep cs m a l P) as Hc. cbv zeta in Hc. fold k in Hc. destruct (negb _); by do 2 eexists.
Qed.

(** ** Comparing *)
Lemma tolower_zero c : tolower c = 0 <-> c = 0.
Proof. unfold tolower. destruct (isupper c) eqn:E; [|done]. split; [intros []%Z.lor_eq_0_iff; lia|intros ->; discriminate E]. Qed.

(** The condition of the loops: the next bytes agree up to case. *)
Lemma case_test a b :
  negb (a =? 0) && negb (b =? 0) && ((a =? b) || (tolower a =? tolower b)) = (tolower a =? tolower b) && negb (tolower a =? 0).
Proof.
  pose proof (tolower_zero a) as Ta. pose proof (tolower_zero b) as Tb.
  destruct (Z.eqb_spec a 0) as [->|Na]; [change (tolower 0 =? 0) with true; by rewrite andb_false_r|].
  rewrite (proj2 (Z.eqb_neq (tolower a) 0)) by tauto. cbn [negb andb]. rewrite andb_true_r.
  destruct (Z.eqb_spec b 0) as [->|Nb]; cbn [negb andb].
  - change (tolower 0) with 0 in *. symmetry. apply Z.eqb_neq. tauto.
  - destruct (Z.eqb_spec a b) as [->|]; cbn [orb]; [by rewrite Z.eqb_refl|done].
Qed.

(** [strcasecmp] and [strncasecmp] are [strcmp] and [strncmp] of the strings
    in lower case. *)
Theorem strcasecmp_lower rdl rdr fuel l r :
  strcasecmp rdl rdr fuel l r = CString.strcmp (fun a => tolower (rdl a)) (fun a => tolower (rdr a)) fuel l r.
Proof. revert l r. induction fuel as [|fuel IH]; intros l r; cbn [strcasecmp CString.strcmp]; [done|]. rewrite case_test. by destruct (_ && _). Qed.
Theorem strncasecmp_lower rdl rdr n l r :
  strncasecmp rdl rdr l r n = CString.strncmp (fun a => tolower (rdl a)) (fun a => tolower (rdr a)) l r n.
Proof.
  destruct n as [|n]; [done|]. cbn [strncasecmp CString.strncmp]. revert l r.
  induction n as [|n IH]; intros l r; cbn [ncase_loop CString.strncmp_loop Nat.eqb negb]; [rewrite andb_false_r; cbn [andb]; by destruct (_ && _)|].
  rewrite andb_true_r, case_test.
  assert (E : negb (tolower (rdl l) =? 0) && negb (tolower (rdr r) =? 0) && (tolower (rdl l) =? tolower (rdr r))
              = (tolower (rdl l) =? tolower (rdr r)) && negb (tolower (rdl l) =? 0)).
  { destruct (Z.eqb_spec (tolower (rdl l)) (tolower (rdr r))) as [->|]; [destruct (_ =? 0); done|by rewrite andb_false_r]. }
  rewrite E. clear E. destruct ((_ =? _) && _); [apply IH|done].
Qed.

Lemma cstring_tail rd a x l : cstring rd a (x :: l) -> cstring rd (a + 1) l.
Proof.
  intros [Hl Hg]. split; [exact (Forall_inv_tail Hl)|]. intros i Hi. replace (a + 1 + Z.of_nat i) with (a + Z.of_nat (S i)) by lia.
  rewrite Hg by (cbn; lia). done.
Qed.

Section CaseSearch.
Context (rd : Z -> Z).
(** Nothing differs in the length of the needle: it is a prefix. *)
Lemma strncasecmp_prefix n ndl : forall h hay k, cstring rd h hay -> cstring rd n ndl -> (length ndl = k)%nat ->
  strncasecmp rd rd h n k = 0 <-> (tolower <$> ndl) `prefix_of` (tolower <$> hay).
Proof.
  intros h hay k Hh Hn <-. destruct ndl as [|c ndl]; [split; [intros _; apply prefix_nil|done]|]. cbn [length strncasecmp].
  revert n c h hay Hh Hn. induction ndl as [|c2 ndl IH]; intros n c h hay Hh Hn.
  all: pose proof (proj2 Hn 0%nat ltac:(lia)) as En; rewrite Z.add_0_r in En; change (cstr_get _ _) with c in En.
  all: pose proof (proj2 Hh 0%nat ltac:(lia)) as Eh; rewrite Z.add_0_r in Eh; pose proof (Forall_inv (proj1 Hn)) as Nc; cbv beta in Nc; pose proof (tolower_zero c) as Tc.
  - cbn [length ncase_loop Nat.eqb negb]. rewrite andb_false_r. cbn [andb]. rewrite En, Eh. destruct hay as [|b hay].
    + change (cstr_get [] 0) with 0. change (tolower 0) with 0. cbn [fmap list_fmap]. split; [lia|]. intros H%prefix_nil_inv. done.
    + change (cstr_get (b :: hay) 0) with b. cbn [fmap list_fmap]. split; [intros E; replace (tolower c) with (tolower b) by lia; apply prefix_cons, prefix_nil|].
      intros H%prefix_cons_inv_1. lia.
  - cbn [length ncase_loop Nat.eqb negb]. rewrite andb_true_r, case_test, En, Eh. destruct hay as [|b hay].
    + change (cstr_get [] 0) with 0. change (tolower 0) with 0. rewrite andb_false_r. cbn [fmap list_fmap].
      split; [lia|]. intros H%prefix_nil_inv. done.
    + change (cstr_get (b :: hay) 0) with b. cbn [fmap list_fmap]. pose proof (Forall_inv (proj1 Hh)) as Nb. cbv beta in Nb. pose proof (tolower_zero b).
      destruct (Z.eqb_spec (tolower b) (tolower c)) as [E|N]; cbn [andb].
      * rewrite (proj2 (Z.eqb_neq (tolower b) 0)) by tauto. cbn [negb]. rewrite <- E.
        rewrite (IH (n + 1) c2 (h + 1) hay) by (eapply cstring_tail; eauto). split; [apply prefix_cons|apply prefix_cons_inv_2].
      * split; [lia|]. intros H1%prefix_cons_inv_1. congruence.
Qed.

Lemma case_loop_finds n ndl fuel : forall h hay, cstring rd h hay -> cstring rd n ndl -> (length hay < fuel)%nat ->
  (ndl <> [] \/ hay <> []) ->
  case_loop rd fuel h n (length ndl) = Some ((fun i => h + Z.of_nat i) <$> Strstr.find_sub (tolower <$> ndl) (tolower <$> hay)).
Proof.
  induction fuel as [|fuel IH]; intros h hay Hh Hn Hf Hne; [lia|]. cbn [case_loop].
  pose proof (proj2 Hh 0%nat ltac:(lia)) as Eh. rewrite Z.add_0_r in Eh. rewrite Eh. pose proof (strncasecmp_prefix n ndl h hay _ Hh Hn eq_refl) as Hp.
  destruct hay as [|b hay].
  - change (cstr_get [] 0) with 0. cbn [Z.eqb fmap list_fmap Strstr.find_sub]. rewrite bool_decide_eq_false_2; [done|].
    intros H%prefix_nil_inv. destruct Hne as [Hne|]; [|done]. by destruct ndl.
  - change (cstr_get (b :: hay) 0) with b. pose proof (Forall_inv (proj1 Hh)) as Nb. cbv beta in Nb. rewrite (proj2 (Z.eqb_neq b 0)) by done.
    cbn [fmap list_fmap Strstr.find_sub]. destruct (Z.eqb_spec (strncasecmp rd rd h n (length ndl)) 0) as [E|E].
    + rewrite bool_decide_eq_true_2 by (by apply Hp). cbn. by rewrite Z.add_0_r.
    + rewrite bool_decide_eq_false_2 by (intros H; by apply E, Hp). rewrite (IH (h + 1) hay); [|by eapply cstring_tail|done|cbn in Hf; lia|].
      * change (list_fmap Z Z tolower ndl) with (tolower <$> ndl). change (list_fmap Z Z tolower hay) with (tolower <$> hay).
        f_equal. destruct (Strstr.find_sub _ _); [cbn; f_equal; lia|done].
      * left. intros ->. apply E. done.
Qed.

(** [strcasestr] finds the first place of the needle, upper and lower case
    being the same; the null pointer for the empty text, whatever the
    needle. *)
Theorem strcasestr_finds fuel h n hay ndl : (forall a, 0 <= rd a < 256) ->
  cstring rd h hay -> cstring rd n ndl -> (length hay < fuel)%nat -> (length ndl < fuel)%nat ->
  strcasestr rd fuel h n = Some (match hay with [] => None | _ => (fun i => h + Z.of_nat i) <$> Strstr.find_sub (tolower <$> ndl) (tolower <$> hay) end).
Proof.
  intros Hrd Hh Hn Hf Hg. unfold strcasestr. rewrite (CString.strlen_spec rd Hrd n ndl fuel Hn Hg), Nat2Z.id. destruct hay as [|b hay].
  - destruct fuel as [|fuel]; [cbn in Hf; lia|]. cbn [case_loop]. pose proof (proj2 Hh 0%nat ltac:(lia)) as Eh. rewrite Z.add_0_r in Eh. by rewrite Eh.
  - apply case_loop_finds; [done..|by right].
Qed.
End CaseSearch.

(** *** strverscmp *)
Section Versions.
Context (rdl rdr : Z -> Z).

Lemma common_sym fuel : forall l r i dp z, common rdr rdl fuel r l i dp z = common rdl rdr fuel l r i dp z.
Proof.
  induction fuel as [|fuel IH]; intros l r i dp z; cbn [common]; [done|]. destruct (Z.eqb_spec (rdl (l + i)) (rdr (r + i))) as [E|N].
  - rewrite E, Z.eqb_refl. by rewrite !IH.
  - by rewrite (proj2 (Z.eqb_neq (rdr (r + i)) (rdl (l + i)))) by congruence.
Qed.
Lemma longer_sym fuel : forall l r j, longer rdr rdl fuel r l j = option_map (option_map Z.opp) (longer rdl rdr fuel l r j).
Proof.
  induction fuel as [|fuel IH]; intros l r j; cbn [longer]; [done|].
  destruct (StrTo.isdigit (rdl (l + j))), (StrTo.isdigit (rdr (r + j))); cbn [negb]; [apply IH|done..].
Qed.

Context (Hl : forall a, 0 <= rdl a < 256) (Hr : forall a, 0 <= rdr a < 256).
Context (l r : Z) (l1 l2 : list Z) (Cl : cstring rdl l l1) (Cr : cstring rdr r l2).

(** The common prefix ends: at the end of equal strings, or at bytes that differ. *)
Lemma common_run fuel : forall i dp z, (i <= length l1)%nat -> (i <= length l2)%nat -> take i l1 = take i l2 -> (length l1 - i < fuel)%nat ->
  exists res, common rdl rdr fuel l r (Z.of_nat i) dp z = Some res /\
    match res with
    | None => l1 = l2
    | Some (j, _, _) => exists k, j = Z.of_nat k /\ (k <= length l1)%nat /\ l1 <> l2 /\ rdl (l + j) <> rdr (r + j)
    end.
Proof.
  induction fuel as [|fuel IH]; intros i dp z H1 H2 E Hf; [lia|]. cbn [common]. rewrite (proj2 Cl i H1), (proj2 Cr i H2).
  assert (Neq : cstr_get l1 i <> cstr_get l2 i -> l1 <> l2) by (intros N ->; done).
  destruct (Z.eqb_spec (cstr_get l1 i) (cstr_get l2 i)) as [Eb|Nb].
  - destruct (Z.eqb_spec (cstr_get l1 i) 0) as [E0|N0].
    + eexists. split; [done|]. cbn. assert (Li : forall m, Forall (fun c => c <> 0) m -> (i <= length m)%nat -> cstr_get m i = 0 -> length m = i).
      { intros m F Hi Hz. destruct (decide (i = length m)); [done|]. exfalso. apply (CString.cstr_get_in m i); [done|lia|done]. }
      rewrite <- (firstn_all l1), <- (firstn_all l2). rewrite (Li l1), (Li l2); [done|apply Cr|done|congruence|apply Cl|done|done].
    + assert (i < length l1)%nat.
      { destruct (decide (i = length l1)) as [->|]; [by rewrite CString.cstr_get_end in N0|lia]. }
      assert (i < length l2)%nat.
      { destruct (decide (i = length l2)) as [->|]; [by rewrite Eb, CString.cstr_get_end in N0|lia]. }
      assert (Et : take (S i) l1 = take (S i) l2).
      { destruct (lookup_lt_is_Some_2 l1 i ltac:(done)) as [a Ea]. destruct (lookup_lt_is_Some_2 l2 i ltac:(done)) as [b Eb2].
        rewrite (take_S_r _ _ _ Ea), (take_S_r _ _ _ Eb2), E. unfold cstr_get in Eb. rewrite Ea, Eb2 in Eb. cbn in Eb. by rewrite Eb. }
      replace (Z.of_nat i + 1) with (Z.of_nat (S i)) by lia. destruct (negb (StrTo.isdigit _)); apply IH; done || lia.
  - eexists. split; [done|]. cbn. exists i. rewrite (proj2 Cl i H1), (proj2 Cr i H2). split_and!; [done|done|by apply Neq|done].
Qed.
Lemma longer_run fuel : forall i, (i <= length l1)%nat -> (length l1 - i < fuel)%nat ->
  exists v, longer rdl rdr fuel l r (Z.of_nat i) = Some v /\ (v = None \/ v = Some 1 \/ v = Some (-1)).
Proof.
  induction fuel as [|fuel IH]; intros i Hi Hf; [lia|]. cbn [longer]. rewrite (proj2 Cl i Hi). destruct (StrTo.isdigit (cstr_get l1 i)) eqn:E.
  - destruct (negb _); [eexists; split; [done|tauto]|]. replace (Z.of_nat i + 1) with (Z.of_nat (S i)) by lia.
    destruct (decide (i = length l1)) as [->|]; [rewrite CString.cstr_get_end in E; discriminate E|]. apply IH; lia.
  - destruct (StrTo.isdigit (rdr _)); [exists (Some (-1))|exists None]; split; [reflexivity|tauto|reflexivity|tauto].
Qed.
End Versions.
(** Swapping the arguments changes the sign. *)
Theorem strverscmp_sym rdl rdr fuel l r : strverscmp rdr rdl fuel r l = option_map Z.opp (strverscmp rdl rdr fuel l r).
Proof.
  unfold strverscmp. rewrite (common_sym rdl rdr). destruct (common _ _ _ _ _ _ _ _) as [[[[i dp] z]|]|]; [|done..].
  rewrite (andb_comm (negb (rdr _ =? 48))), (orb_comm (StrTo.isdigit (rdr _))), (longer_sym rdl rdr). destruct (_ && _).
  - destruct (longer rdl rdr fuel l r i) as [[v|]|]; cbn; [done| |done]. f_equal. lia.
  - destruct (_ && _); cbn; f_equal; lia.
Qed.
(** It returns, and 0 exactly for equal strings. *)
Theorem strverscmp_zero rdl rdr fuel l r l1 l2 :
  (forall a, 0 <= rdl a < 256) -> (forall a, 0 <= rdr a < 256) -> cstring rdl l l1 -> cstring rdr r l2 -> (length l1 < fuel)%nat ->
  exists v, strverscmp rdl rdr fuel l r = Some v /\ (v = 0 <-> l1 = l2).
Proof.
  intros Hl Hr Cl Cr Hf. unfold strverscmp. destruct (common_run rdl rdr l r l1 l2 Cl Cr fuel 0 0 true) as (res & E & R); [lia|lia|done|lia|]. change (Z.of_nat 0) with 0 in E. rewrite E. clear E.
  destruct res as [[[j dp] z]|]; [|by exists 0]. destruct R as (k & -> & Hk & Hne & Nb).
  assert (G : forall v, v <> 0 -> exists w, Some v = Some w /\ (w = 0 <-> l1 = l2)) by (intros v Hv; exists v; split; [done|tauto]).
  destruct (_ && _); [destruct (longer_run rdl rdr l r l1 Cl fuel k Hk ltac:(lia)) as (v & -> & [->|[->| ->]]); apply G; lia|].
  destruct (_ && _); apply G; [|lia]. pose proof (Hl (l + Z.of_nat k)). pose proof (Hr (r + Z.of_nat k)). unfold u8. zdm.
Qed.

(** ** swab *)
(** Every pair of bytes changes places; an odd last byte is not copied. *)
Theorem swab_swaps src dest n m x : 0 <= n -> apart src n dest n ->
  let j := x - dest in
  ld8 (swab src dest n m) x = if (0 <=? j) && (j <? 2 * (n / 2)) then ld8 m (src + (if Z.even j then j + 1 else j - 1)) else ld8 m x.
Proof.
  intros Hn. unfold swab. assert (Hf : n <= Z.of_nat (Z.to_nat n)) by lia. revert Hf. generalize (Z.to_nat n) as fuel. intros fuel. revert src dest n m Hn.
  induction fuel as [|fuel IH]; intros src dest n m Hn Hf Ha; cbn [swab_loop]; set (j := x - dest).
  { replace n with 0 by lia. change (2 * (0 / 2)) with 0. destruct (Z.leb_spec 0 j), (Z.ltb_spec j 0); try lia; done. }
  destruct (Z.ltb_spec 1 n) as [H1|H1]; [|assert (n / 2 = 0) as -> by zdm; destruct (Z.leb_spec 0 j), (Z.ltb_spec j (2 * 0)); try lia; done].
  cbv zeta. set (m1 := st8 m dest (ld8 m (src + 1))). set (m2 := st8 m1 (dest + 1) (ld8 m1 src)).
  assert (E1 : ld8 m1 src = ld8 m src) by (unfold m1; apply ld8_st8_ne; unfold apart in Ha; lia).
  assert (F : forall y, y <> dest -> y <> dest + 1 -> ld8 m2 y = ld8 m y) by (intros y Hy Hy1; unfold m2, m1; by rewrite !ld8_st8_ne by done).
  rewrite IH by (unfold apart in *; lia). cbv zeta. replace (x - (dest + 2)) with (j - 2) by (unfold j; lia).
  assert (En : n / 2 = (n - 2) / 2 + 1) by zdm. rewrite En. rewrite Z.even_sub. change (Z.even 2) with true.
  assert (Ev : Bool.eqb (Z.even j) true = Z.even j) by (by destruct (Z.even j)). rewrite Ev.
  pose proof (Z.div_pos (n - 2) 2). destruct (Z_lt_ge_dec j 0).
  { destruct (Z.leb_spec 0 (j - 2)), (Z.leb_spec 0 j); try lia. cbn [andb]. apply F; unfold j in *; lia. }
  destruct (Z.leb_spec 0 j); [|lia]. destruct (Z.ltb_spec j (2 * ((n - 2) / 2 + 1))); cbn [andb].
  - destruct (Z.leb_spec 0 (j - 2)); cbn [andb].
    + destruct (Z.ltb_spec (j - 2) (2 * ((n - 2) / 2))); [|lia]. assert (2 * ((n - 2) / 2) <= n - 2) by zdm.
      assert (Hr : 0 <= (if Z.even j then j + 1 else j - 1) < n).
      { destruct (Z.even j) eqn:Ej; [apply Z.even_spec in Ej as [i Ei]; lia|lia]. }
      replace (src + 2 + (if Z.even j then j - 2 + 1 else j - 2 - 1)) with (src + (if Z.even j then j + 1 else j - 1)) by (destruct (Z.even j); lia).
      apply F; unfold apart in Ha; lia.
    + assert (j = 0 \/ j = 1) as [Ej|Ej] by lia; rewrite Ej; cbn.
      * replace x with dest by (unfold j in Ej; lia). unfold m2. rewrite ld8_st8_ne by lia. unfold m1. rewrite ld8_st8_eq. apply u8_id, ld8_range.
      * replace x with (dest + 1) by (unfold j in Ej; lia). unfold m2. rewrite ld8_st8_eq, E1, Z.add_0_r. apply u8_id, ld8_range.
  - destruct (Z.ltb_spec (j - 2) (2 * ((n - 2) / 2))); [lia|]. rewrite andb_false_r. apply F; unfold j in *; lia.
Qed.
End StrWords.
