(* ===== verification/HashStream.v ===== *)
(** Message digests as byte streams: the scheme the three digest
    implementations of the C library share (musl src/crypt/crypt_md5.c,
    crypt_sha256.c, crypt_sha512.c: pad, *_update), and the interface [Hash]
    under which the password hashing functions use them. *)

From stdpp Require Import base tactics list numbers option.
From Stdlib Require Import ZArith Lia.
From S2P Require Import Prelude.

#[local] Open Scope Z_scope.

Module HashStream.
Import Prelude.

(** ** The interface

    [absorbed c m]: the context [c] has been initialised and then updated
    with the bytes [m]; [ready c]: it can be initialised. *)
Class Hash (C : Type) := {
  hinit : C -> C;
  hupdate : C -> list Z -> C;
  hsum : C -> C * list Z;
  digest : list Z -> list Z;
  dsize : nat;
  ready : C -> Prop;
  absorbed : C -> list Z -> Prop;
  hinit_ok c : ready c -> absorbed (hinit c) [];
  hupdate_ok c m x : absorbed c m -> absorbed (hupdate c x) (m ++ x);
  hsum_ok c m : absorbed c m -> (hsum c).2 = digest m /\ ready (hsum c).1;
  length_digest m : length (digest m) = dsize;
  digest_bytes m : byte_list (digest m);
  dsize_pos : (0 < dsize)%nat
}.

Lemma hupdates_ok {C : Type} `{Hash C} ms : forall c m,
  absorbed c m -> absorbed (fold_left hupdate ms c) (m ++ concat ms).
Proof.
  induction ms as [|x ms IH]; intros c m A; cbn [fold_left concat]; [by rewrite app_nil_r|].
  rewrite app_assoc. apply IH. by apply hupdate_ok.
Qed.

(** The digest of a message given in pieces. *)
Lemma hash_pieces {C : Type} `{Hash C} c ms :
  ready c -> (hsum (fold_left hupdate ms (hinit c))).2 = digest (concat ms).
Proof. intros Hc. apply (hsum_ok _ (concat ms)). apply (hupdates_ok ms _ []). by apply hinit_ok. Qed.

(** ** Contexts

    [len] counts the message bytes modulo 2^64, [h] is the state of the
    compression function, [buf] the block buffer. *)
Record ctx (H : Type) := mkCtx { len : Z; h : H; buf : list Z }.
Arguments mkCtx {H} _ _ _.
Arguments len {H} _.
Arguments h {H} _.
Arguments buf {H} _.

(** [bs] stored from offset [k] on. *)
Definition memcpy (k : nat) (bs b : list Z) : list Z := take k b ++ bs ++ drop (k + length bs) b.

Section Stream.
Context {H : Type}.
(** Block size, the offset from which the padding needs a further block, the
    compression function, the bytes of the length and the initial state. *)
Context (B lim : nat) (processblock : H -> list Z -> H) (enc : Z -> list Z) (h0 : H).

Fixpoint update_loop (fuel : nat) (st : H) (p : list Z) : H * list Z :=
  match fuel with
  | O => (st, p)
  | S fuel' =>
    if (B <=? length p)%nat then update_loop fuel' (processblock st (take B p)) (drop B p) else (st, p)
  end.

Definition update_tail (l : Z) (st : H) (b p : list Z) : ctx H :=
  let (st, p) := update_loop (length p) st p in mkCtx l st (memcpy 0 p b).

Definition update (s : ctx H) (p : list Z) : ctx H :=
  let r := Z.to_nat (len s mod Z.of_nat B) in
  let l := u64 (len s + Z.of_nat (length p)) in
  if (r =? 0)%nat then update_tail l (h s) (buf s) p
  else if (length p <? B - r)%nat then mkCtx l (h s) (memcpy r p (buf s))
  else
    let b := memcpy r (take (B - r) p) (buf s) in
    update_tail l (processblock (h s) b) b (drop (B - r) p).

Definition pad (s : ctx H) : ctx H :=
  let r := Z.to_nat (len s mod Z.of_nat B) in
  let b := <[r := 0x80]> (buf s) in
  let r := S r in
  let '(st, b, r) :=
    if (lim <? r)%nat then
      let b := memcpy r (replicate (B - r) 0) b in (processblock (h s) b, b, 0%nat)
    else (h s, b, r) in
  let b := memcpy r (replicate (B - 8 - r) 0) b in
  let l := u64 (len s * 8) in
  let b := memcpy (B - 8) (enc l) b in
  mkCtx l (processblock st b) b.

Definition init (s : ctx H) : ctx H := mkCtx 0 h0 (buf s).

(** ** The specification: padding and iteration over the blocks *)

Fixpoint hash_blocks (n : nat) (st : H) (m : list Z) : H :=
  match n with
  | O => st
  | S n' => hash_blocks n' (processblock st (take B m)) (drop B m)
  end.

Definition padding (n : nat) : list Z :=
  let z := Z.to_nat ((Z.of_nat lim - (Z.of_nat n + 1)) mod Z.of_nat B) in
  0x80 :: replicate z 0 ++ replicate (B - 8 - lim) 0 ++ enc (u64 (u64 (Z.of_nat n) * 8)).

Definition md_hash (m : list Z) : H :=
  let p := m ++ padding (length m) in hash_blocks (length p / B) h0 p.

(** ** Streaming *)

Context (HB : (0 < B)%nat) (HB64 : 2 ^ 64 mod Z.of_nat B = 0) (Hlim : (lim + 8 <= B)%nat)
        (Henc : forall x, length (enc x) = 8%nat).

Lemma hash_blocks_app a b st m :
  hash_blocks (a + b) st m = hash_blocks b (hash_blocks a st m) (drop (a * B) m).
Proof.
  revert st m. induction a as [|a IH]; intros st m; [by rewrite drop_0|].
  cbn [Nat.add hash_blocks Nat.mul]. by rewrite IH, drop_drop.
Qed.

Lemma hash_blocks_prefix n st m x : (n * B <= length m)%nat -> hash_blocks n st (m ++ x) = hash_blocks n st m.
Proof.
  revert st m. induction n as [|n IH]; intros st m Hn; [done|]. cbn [hash_blocks].
  rewrite take_app_le, drop_app_le by lia. apply IH. rewrite length_drop. lia.
Qed.

Lemma length_memcpy k bs b : (k + length bs <= length b)%nat -> length (memcpy k bs b) = length b.
Proof. intros Hk. unfold memcpy. rewrite !length_app, length_take, length_drop. lia. Qed.

Lemma take_memcpy k bs b : (k <= length b)%nat -> take (k + length bs) (memcpy k bs b) = take k b ++ bs.
Proof.
  intros Hk. unfold memcpy. rewrite app_assoc, take_app_le by (rewrite length_app, length_take; lia).
  apply take_ge. rewrite length_app, length_take. lia.
Qed.

Lemma take_memcpy0 n bs b : length bs = n -> take n (memcpy 0 bs b) = bs.
Proof. intros <-. apply (take_memcpy 0 bs b). lia. Qed.

Lemma memcpy_full k bs b : (k + length bs = length b)%nat -> memcpy k bs b = take k b ++ bs.
Proof. intros Hk. unfold memcpy. rewrite drop_ge by lia. by rewrite app_nil_r. Qed.

Lemma update_loop_spec fuel st p :
  (length p <= fuel)%nat ->
  update_loop fuel st p = (hash_blocks (length p / B) st p, drop (length p / B * B) p).
Proof.
  revert st p. induction fuel as [|fuel IH]; intros st p Hf.
  - destruct p; [|simpl in Hf; lia]. cbn [length]. rewrite Nat.Div0.div_0_l. cbn. by rewrite ?drop_0.
  - cbn [update_loop]. destruct (Nat.leb_spec B (length p)) as [Hl|Hl].
    + rewrite IH by (rewrite length_drop; lia).
      assert (E : (length p / B = S (length (drop B p) / B))%nat).
      { rewrite length_drop. replace (length p) with (length p - B + 1 * B)%nat at 1 by lia.
        rewrite Nat.div_add by lia. lia. }
      rewrite E. cbn [hash_blocks Nat.mul]. by rewrite drop_drop.
    + rewrite Nat.div_small by lia. cbn. by rewrite drop_0.
Qed.

(** The context after [init] and updates with the bytes [m]. *)
Record rep (s : ctx H) (m : list Z) : Prop := {
  rep_len : len s = u64 (Z.of_nat (length m));
  rep_buf : length (buf s) = B;
  rep_h : h s = hash_blocks (length m / B) h0 m;
  rep_tail : take (length m mod B) (buf s) = drop (length m / B * B) m
}.

Lemma rep_r s m : rep s m -> Z.to_nat (len s mod Z.of_nat B) = (length m mod B)%nat.
Proof.
  intros R. rewrite (rep_len _ _ R). unfold u64.
  apply Z.mod_divide in HB64; [|lia]. destruct HB64 as (k & Hk).
  rewrite Z.mod_mod_divide by (exists k; lia).
  rewrite <- Nat2Z.inj_mod. lia.
Qed.

Lemma u64_add n x : u64 (u64 (Z.of_nat n) + Z.of_nat x) = u64 (Z.of_nat (n + x)).
Proof. unfold u64. rewrite Zplus_mod_idemp_l. f_equal. lia. Qed.

Lemma length_tail (m : list Z) : length (drop (length m / B * B) m) = (length m mod B)%nat.
Proof. rewrite length_drop. assert (E := Nat.div_mod_eq (length m) B). lia. Qed.

Lemma rep_init s : length (buf s) = B -> rep (init s) [].
Proof.
  intros Hs. split; try done; cbn [length]; [by rewrite Nat.Div0.div_0_l|].
  by rewrite Nat.Div0.mod_0_l, Nat.Div0.div_0_l, drop_0.
Qed.

(** The blocks of a message whose processed part ends at [n] blocks. *)
Lemma rep_tail_build l b p m n :
  length b = B -> (n * B <= length m)%nat -> p = drop (n * B) m -> l = u64 (Z.of_nat (length m)) ->
  rep (update_tail l (hash_blocks n h0 m) b p) m.
Proof.
  intros Hb Hn -> ->. unfold update_tail. rewrite update_loop_spec by done.
  set (q := (length (drop (n * B) m) / B)%nat).
  assert (Eq : (length m / B = n + q)%nat).
  { subst q. rewrite length_drop. replace (length m) with (length m - n * B + n * B)%nat at 1 by lia.
    rewrite Nat.div_add by lia. lia. }
  assert (Et : drop (q * B) (drop (n * B) m) = drop (length m / B * B) m) by (rewrite drop_drop, Eq; f_equal; lia).
  assert (Hlt : (length m mod B < B)%nat) by (apply Nat.mod_upper_bound; lia).
  split; cbn [len h buf]; [done| | |].
  - rewrite length_memcpy; [done|]. rewrite Et, length_tail. lia.
  - rewrite Eq, hash_blocks_app. done.
  - rewrite Et, <- (length_tail m). change (length (drop (length m / B * B) m)) with (0 + length (drop (length m / B * B) m))%nat at 1.
    by rewrite take_memcpy by lia.
Qed.

Lemma update_rep s m p : rep s m -> rep (update s p) (m ++ p).
Proof.
  intros R. unfold update. rewrite (rep_r _ _ R), (rep_len _ _ R), u64_add, <- length_app.
  assert (Hdm := Nat.div_mod_eq (length m) B). assert (Hlt : (length m mod B < B)%nat) by (apply Nat.mod_upper_bound; lia).
  set (q := (length m / B)%nat) in *. set (r := (length m mod B)%nat) in *.
  assert (Hh := rep_h _ _ R). assert (Ht := rep_tail _ _ R). assert (Hb := rep_buf _ _ R). fold q r in Hh, Ht.
  rewrite Hh. destruct (Nat.eqb_spec r 0) as [Er|Nr].
  { rewrite <- (hash_blocks_prefix q h0 m p) by lia. apply rep_tail_build; [done|rewrite length_app; lia| |done].
    rewrite drop_app_ge by lia. replace (q * B - length m)%nat with 0%nat by lia. by rewrite drop_0. }
  assert (Hcat : forall k, take r (buf s) ++ take k p = drop (q * B) m ++ take k p) by (intros k; by rewrite Ht).
  destruct (Nat.ltb_spec (length p) (B - r)) as [Hs|Hl].
  - assert (Eq : (length (m ++ p) / B = q)%nat) by (rewrite length_app; symmetry; apply (Nat.div_unique _ _ q (r + length p)); lia).
    assert (Er : (length (m ++ p) mod B = r + length p)%nat) by (rewrite length_app; symmetry; apply (Nat.mod_unique _ _ q (r + length p)); lia).
    split; cbn [len h buf]; [done|rewrite length_memcpy; lia| |].
    + rewrite Eq. symmetry. apply hash_blocks_prefix. lia.
    + rewrite Eq, Er, take_memcpy, Ht, drop_app_le by lia. done.
  - assert (Hlen : length (take (B - r) p) = (B - r)%nat) by (rewrite length_take; lia).
    assert (Eb : memcpy r (take (B - r) p) (buf s) = drop (q * B) m ++ take (B - r) p).
    { rewrite memcpy_full by lia. apply Hcat. }
    assert (Est : processblock (hash_blocks q h0 m) (memcpy r (take (B - r) p) (buf s)) = hash_blocks (S q) h0 (m ++ p)).
    { replace (S q) with (q + 1)%nat by lia. rewrite hash_blocks_app, hash_blocks_prefix by lia. cbn [hash_blocks]. f_equal.
      rewrite Eb, drop_app_le by lia. rewrite take_app_ge by (rewrite length_drop; lia).
      f_equal. f_equal. rewrite length_drop. lia. }
    rewrite Est. apply rep_tail_build; [rewrite length_memcpy; lia|rewrite length_app; lia| |done].
    rewrite drop_app_ge by lia. f_equal. lia.
Qed.

(** [pad] completes the blocks of the padded message. *)
Lemma pad_spec s m : rep s m -> h (pad s) = md_hash m /\ length (buf (pad s)) = B.
Proof.
  intros R. unfold pad, md_hash. rewrite (rep_r _ _ R), (rep_len _ _ R).
  assert (Hdm := Nat.div_mod_eq (length m) B). assert (Hlt : (length m mod B < B)%nat) by (apply Nat.mod_upper_bound; lia).
  set (q := (length m / B)%nat) in *. set (r := (length m mod B)%nat) in *.
  assert (Hh := rep_h _ _ R). assert (Ht := rep_tail _ _ R). assert (Hb := rep_buf _ _ R). fold q r in Hh, Ht.
  set (e := enc (u64 (u64 (Z.of_nat (length m)) * 8))). assert (He : length e = 8%nat) by apply Henc.
  unfold padding. fold e. set (z := Z.to_nat _).
  assert (Hz : z = if (lim <? S r)%nat then (lim + B - S r)%nat else (lim - S r)%nat).
  { subst z. rewrite Hdm. destruct (Nat.ltb_spec lim (S r)).
    - replace ((Z.of_nat lim - (Z.of_nat (B * q + r) + 1)) mod Z.of_nat B) with (Z.of_nat (lim + B - S r)); [lia|].
      apply (Z.mod_unique_pos _ _ (- Z.of_nat q - 1)); lia.
    - replace ((Z.of_nat lim - (Z.of_nat (B * q + r) + 1)) mod Z.of_nat B) with (Z.of_nat (lim - S r)); [lia|].
      apply (Z.mod_unique_pos _ _ (- Z.of_nat q)); lia. }
  set (b1 := <[r := 0x80]> (buf s)). assert (Hb1 : length b1 = B) by (unfold b1; by rewrite length_insert).
  assert (E1 : take (S r) b1 = drop (q * B) m ++ [0x80]).
  { unfold b1. rewrite insert_take_drop by lia. rewrite Ht.
    rewrite take_app_ge by (rewrite length_drop; lia). rewrite length_drop.
    replace (S r - (length m - q * B))%nat with 1%nat by lia. done. }
  clearbody b1. set (p := m ++ _).
  assert (Hq : forall x, hash_blocks q h0 (m ++ x) = h s) by (intros x; rewrite hash_blocks_prefix by lia; done).
  destruct (Nat.ltb_spec lim (S r)) as [Hbig|Hsmall].
  - (* two blocks *)
    assert (Hl2 : (length p / B = q + 2)%nat).
    { subst p. rewrite !length_app. cbn [length]. rewrite !length_app, !length_replicate, He, Hz.
      symmetry. apply (Nat.div_unique _ _ _ 0); lia. }
    rewrite Hl2. set (b2 := memcpy (S r) (replicate (B - S r) 0) b1).
    assert (E2 : b2 = drop (q * B) m ++ [0x80] ++ replicate (B - S r) 0).
    { subst b2. rewrite memcpy_full by (rewrite length_replicate; lia). by rewrite E1, <- app_assoc. }
    assert (Hb2 : length b2 = B) by (rewrite E2, !length_app, length_drop, length_replicate; cbn [length]; lia).
    cbn [h buf]. split.
    + rewrite hash_blocks_app. subst p. rewrite Hq. cbn [hash_blocks]. f_equal; [f_equal|].
      * rewrite E2, drop_app_le by lia. rewrite take_app_ge by (rewrite length_drop; lia). f_equal.
        rewrite length_drop. replace (B - (length m - q * B))%nat with (S (B - S r)) by lia. cbn [take]. cbn [app]. f_equal.
        rewrite take_app_le by (rewrite length_replicate; lia). rewrite take_replicate. f_equal. lia.
      * rewrite drop_drop, drop_app_ge by lia. replace (q * B + B - length m)%nat with (S (B - S r)) by lia. cbn [drop].
        rewrite drop_app_le by (rewrite length_replicate; lia). rewrite drop_replicate, Hz.
        rewrite app_assoc, <- replicate_add. rewrite take_ge by (rewrite length_app, length_replicate; lia).
        rewrite memcpy_full by (rewrite length_memcpy; rewrite ?length_replicate; lia). rewrite take_memcpy0 by (rewrite length_replicate; lia).
        do 2 f_equal. lia.
    + rewrite length_memcpy; rewrite length_memcpy; rewrite ?length_replicate; lia.
  - assert (Hl1 : (length p / B = q + 1)%nat).
    { subst p. rewrite !length_app. cbn [length]. rewrite !length_app, !length_replicate, He, Hz.
      symmetry. apply (Nat.div_unique _ _ _ 0); lia. }
    rewrite Hl1. cbn [h buf]. split.
    + rewrite hash_blocks_app. subst p. rewrite Hq. cbn [hash_blocks]. f_equal.
      rewrite drop_app_le by lia. rewrite take_ge.
      2: { rewrite !length_app, length_drop. cbn [length]. rewrite !length_app, !length_replicate. lia. }
      rewrite memcpy_full by (rewrite length_memcpy; rewrite ?length_replicate; lia).
      replace (B - 8)%nat with (S r + length (replicate (B - 8 - S r) 0%Z))%nat at 1 by (rewrite length_replicate; lia).
      rewrite take_memcpy, E1 by lia. rewrite <- !app_assoc. cbn [app]. f_equal. f_equal.
      rewrite app_assoc, <- replicate_add. do 2 f_equal. lia.
    + rewrite length_memcpy; rewrite length_memcpy; rewrite ?length_replicate; lia.
Qed.

End Stream.

End HashStream.
