(* ===== verification/Sha256.v ===== *)
(** SHA-256 (musl src/crypt/crypt_sha256.c): the compression function,
    the digest context and its operations, as an instance of the interface
    [Hash]. *)

From stdpp Require Import base tactics list numbers option.
From Stdlib Require Import ZArith Lia.
From S2P Require Import Prelude HashStream.

#[local] Open Scope Z_scope.

Module Sha256.
Import Prelude HashStream.

(** ** The compression function *)

Definition ror (n : Z) (k : Z) : Z := Z.lor (Z.shiftr n k) (u32 (Z.shiftl n (32 - k))).
Definition Ch (x y z : Z) : Z := Z.lxor z (Z.land x (Z.lxor y z)).
Definition Maj (x y z : Z) : Z := Z.lor (Z.land x y) (Z.land z (Z.lor x y)).
Definition S0 (x : Z) : Z := Z.lxor (Z.lxor (ror x 2) (ror x 13)) (ror x 22).
Definition S1 (x : Z) : Z := Z.lxor (Z.lxor (ror x 6) (ror x 11)) (ror x 25).
Definition R0 (x : Z) : Z := Z.lxor (Z.lxor (ror x 7) (ror x 18)) (Z.shiftr x 3).
Definition R1 (x : Z) : Z := Z.lxor (Z.lxor (ror x 17) (ror x 19)) (Z.shiftr x 10).

Definition K : list Z := concat [
  [0x428a2f98; 0x71374491; 0xb5c0fbcf; 0xe9b5dba5; 0x3956c25b; 0x59f111f1; 0x923f82a4; 0xab1c5ed5];
  [0xd807aa98; 0x12835b01; 0x243185be; 0x550c7dc3; 0x72be5d74; 0x80deb1fe; 0x9bdc06a7; 0xc19bf174];
  [0xe49b69c1; 0xefbe4786; 0x0fc19dc6; 0x240ca1cc; 0x2de92c6f; 0x4a7484aa; 0x5cb0a9dc; 0x76f988da];
  [0x983e5152; 0xa831c66d; 0xb00327c8; 0xbf597fc7; 0xc6e00bf3; 0xd5a79147; 0x06ca6351; 0x14292967];
  [0x27b70a85; 0x2e1b2138; 0x4d2c6dfc; 0x53380d13; 0x650a7354; 0x766a0abb; 0x81c2c92e; 0x92722c85];
  [0xa2bfe8a1; 0xa81a664b; 0xc24b8b70; 0xc76c51a3; 0xd192e819; 0xd6990624; 0xf40e3585; 0x106aa070];
  [0x19a4c116; 0x1e376c08; 0x2748774c; 0x34b0bcb5; 0x391c0cb3; 0x4ed8aa4a; 0x5b9cca4f; 0x682e6ff3];
  [0x748f82ee; 0x78a5636f; 0x84c87814; 0x8cc70208; 0x90befffa; 0xa4506ceb; 0xbef9a3f7; 0xc67178f2]].

Definition byte_at (p : list Z) (i : nat) : Z := nth i p 0.

(** [W]: the 16 words of the block, then the expanded ones. *)
Definition load_words (p : list Z) : list Z :=
  map (fun i =>
    let w := u32 (Z.shiftl (byte_at p (4 * i)) 24) in
    let w := Z.lor w (u32 (Z.shiftl (byte_at p (4 * i + 1)) 16)) in
    let w := Z.lor w (u32 (Z.shiftl (byte_at p (4 * i + 2)) 8)) in
    Z.lor w (byte_at p (4 * i + 3))) (seq 0 16).

Fixpoint expand (n : nat) (W : list Z) : list Z :=
  match n with
  | O => W
  | S n' =>
    let i := length W in
    expand n' (W ++ [u32 (R1 (nth (i - 2) W 0) + nth (i - 7) W 0 + R0 (nth (i - 15) W 0) + nth (i - 16) W 0)])
  end.

(** The eight variables [a] to [h]. *)
Definition regs : Type := Z * Z * Z * Z * Z * Z * Z * Z.

Definition round (r : regs) (k w : Z) : regs :=
  let '(a, b, c, d, e, f, g, h) := r in
  let t1 := u32 (h + S1 e + Ch e f g + k + w) in
  let t2 := u32 (S0 a + Maj a b c) in
  (u32 (t1 + t2), a, b, c, u32 (d + t1), e, f, g).

Fixpoint rounds (r : regs) (ks ws : list Z) : regs :=
  match ks, ws with
  | k :: ks, w :: ws => rounds (round r k w) ks ws
  | _, _ => r
  end.

Definition processblock (st : regs) (p : list Z) : regs :=
  let '(a, b, c, d, e, f, g, h) := rounds st K (expand 48 (load_words p)) in
  let '(a0, b0, c0, d0, e0, f0, g0, h0) := st in
  (u32 (a0 + a), u32 (b0 + b), u32 (c0 + c), u32 (d0 + d), u32 (e0 + e), u32 (f0 + f), u32 (g0 + g), u32 (h0 + h)).

(** ** The digest context *)

Definition h0 : regs :=
  (0x6a09e667, 0xbb67ae85, 0x3c6ef372, 0xa54ff53a, 0x510e527f, 0x9b05688c, 0x1f83d9ab, 0x5be0cd19).
Definition len_bytes (l : Z) : list Z :=
  [u8 (Z.shiftr l 56); u8 (Z.shiftr l 48); u8 (Z.shiftr l 40); u8 (Z.shiftr l 32); u8 (Z.shiftr l 24); u8 (Z.shiftr l 16); u8 (Z.shiftr l 8); u8 l].
Definition word_bytes (x : Z) : list Z :=
  [u8 (Z.shiftr x 24); u8 (Z.shiftr x 16); u8 (Z.shiftr x 8); u8 x].
Definition state_bytes (st : regs) : list Z :=
  let '(a, b, c, d, e, f, g, h) := st in
  concat (map word_bytes [a; b; c; d; e; f; g; h]).

Definition sha256 : Type := ctx regs.
Definition pad : sha256 -> sha256 := HashStream.pad 64 56 processblock len_bytes.
Definition sha256_init : sha256 -> sha256 := HashStream.init h0.
Definition sha256_sum (s : sha256) : sha256 * list Z := let s := pad s in (s, state_bytes (h s)).
Definition sha256_update : sha256 -> list Z -> sha256 := HashStream.update 64 processblock.

(** FIPS 180: the digest of a message. *)
Definition SHA256 (m : list Z) : list Z := state_bytes (md_hash 64 56 processblock len_bytes h0 m).

Lemma sha256_word_bytes x : length (word_bytes x) = 4%nat /\ byte_list (word_bytes x).
Proof. split; [done|]. repeat constructor; apply u8_range. Qed.

Lemma sha256_state_bytes st : length (state_bytes st) = 32%nat /\ byte_list (state_bytes st).
Proof.
  destruct st as [[[[[[[a b] c] d] e] f] g] h']. split; [done|].
  unfold state_bytes. cbn [map concat]. repeat (apply byte_list_app; split; [apply sha256_word_bytes|]). constructor.
Qed.

#[export, program] Instance sha256_hash : Hash sha256 := {|
  hinit := sha256_init;
  hupdate := sha256_update;
  hsum := sha256_sum;
  digest := SHA256;
  dsize := 32;
  ready s := length (buf s) = 64%nat;
  absorbed s m := rep 64 processblock h0 s m
|}.
Next Obligation. intros s Hs. by apply rep_init. Qed.
Next Obligation. intros s m x R. apply (update_rep 64 56); [lia|done|lia|exact R]. Qed.
Next Obligation.
  intros s m R. destruct (pad_spec 64 56 processblock len_bytes h0 ltac:(lia) eq_refl ltac:(lia) ltac:(done) s m R) as [E L].
  split; [|exact L]. unfold sha256_sum, SHA256. cbn [snd]. f_equal. exact E.
Qed.
Next Obligation. intros m. apply sha256_state_bytes. Qed.
Next Obligation. intros m. apply sha256_state_bytes. Qed.
Next Obligation. lia. Qed.

(** ** Properties *)

(** Streaming: whatever the context held before, and however the message
    is cut into pieces, [sha256_init], [sha256_update] on the pieces in order
    and [sha256_sum] give the SHA-256 digest of the whole message as
    FIPS 180 defines it (padding with one bit, zeros and the length, then the
    compression function block by block). *)
Theorem sha256_streaming (s : sha256) ms :
  length (buf s) = 64%nat ->
  (sha256_sum (fold_left sha256_update ms (sha256_init s))).2 = SHA256 (concat ms).
Proof. exact (hash_pieces (H := sha256_hash) s ms). Qed.

(** The digest of "abc" from the standard, fed in two pieces. *)
Lemma sha256_streaming_witness :
  let s := mkCtx 0 h0 (replicate 64 0xFF) in
  (sha256_sum (sha256_update (sha256_update (sha256_init s) [97]) [98; 99])).2 =
    [0xba; 0x78; 0x16; 0xbf; 0x8f; 0x01; 0xcf; 0xea; 0x41; 0x41; 0x40; 0xde; 0x5d; 0xae; 0x22; 0x23; 0xb0; 0x03; 0x61; 0xa3; 0x96; 0x17; 0x7a; 0x9c; 0xb4; 0x10; 0xff; 0x61; 0xf2; 0x00; 0x15; 0xad].
Proof.
  intros s. assert (E := sha256_streaming s [[97]; [98; 99]] eq_refl). cbn [fold_left concat app] in E.
  rewrite E. vm_compute. reflexivity.
Defined.

End Sha256.
