(* ===== verification/Sha512.v ===== *)
(** SHA-512 (musl src/crypt/crypt_sha512.c): the compression function,
    the digest context and its operations, as an instance of the interface
    [Hash]. *)

From stdpp Require Import base tactics list numbers option.
From Stdlib Require Import ZArith Lia.
From S2P Require Import Prelude HashStream.

#[local] Open Scope Z_scope.

Module Sha512.
Import Prelude HashStream.

(** ** The compression function *)

Definition ror (n : Z) (k : Z) : Z := Z.lor (Z.shiftr n k) (u64 (Z.shiftl n (64 - k))).
Definition Ch (x y z : Z) : Z := Z.lxor z (Z.land x (Z.lxor y z)).
Definition Maj (x y z : Z) : Z := Z.lor (Z.land x y) (Z.land z (Z.lor x y)).
Definition S0 (x : Z) : Z := Z.lxor (Z.lxor (ror x 28) (ror x 34)) (ror x 39).
Definition S1 (x : Z) : Z := Z.lxor (Z.lxor (ror x 14) (ror x 18)) (ror x 41).
Definition R0 (x : Z) : Z := Z.lxor (Z.lxor (ror x 1) (ror x 8)) (Z.shiftr x 7).
Definition R1 (x : Z) : Z := Z.lxor (Z.lxor (ror x 19) (ror x 61)) (Z.shiftr x 6).

Definition K : list Z := concat [
  [0x428a2f98d728ae22; 0x7137449123ef65cd; 0xb5c0fbcfec4d3b2f; 0xe9b5dba58189dbbc];
  [0x3956c25bf348b538; 0x59f111f1b605d019; 0x923f82a4af194f9b; 0xab1c5ed5da6d8118];
  [0xd807aa98a3030242; 0x12835b0145706fbe; 0x243185be4ee4b28c; 0x550c7dc3d5ffb4e2];
  [0x72be5d74f27b896f; 0x80deb1fe3b1696b1; 0x9bdc06a725c71235; 0xc19bf174cf692694];
  [0xe49b69c19ef14ad2; 0xefbe4786384f25e3; 0x0fc19dc68b8cd5b5; 0x240ca1cc77ac9c65];
  [0x2de92c6f592b0275; 0x4a7484aa6ea6e483; 0x5cb0a9dcbd41fbd4; 0x76f988da831153b5];
  [0x983e5152ee66dfab; 0xa831c66d2db43210; 0xb00327c898fb213f; 0xbf597fc7beef0ee4];
  [0xc6e00bf33da88fc2; 0xd5a79147930aa725; 0x06ca6351e003826f; 0x142929670a0e6e70];
  [0x27b70a8546d22ffc; 0x2e1b21385c26c926; 0x4d2c6dfc5ac42aed; 0x53380d139d95b3df];
  [0x650a73548baf63de; 0x766a0abb3c77b2a8; 0x81c2c92e47edaee6; 0x92722c851482353b];
  [0xa2bfe8a14cf10364; 0xa81a664bbc423001; 0xc24b8b70d0f89791; 0xc76c51a30654be30];
  [0xd192e819d6ef5218; 0xd69906245565a910; 0xf40e35855771202a; 0x106aa07032bbd1b8];
  [0x19a4c116b8d2d0c8; 0x1e376c085141ab53; 0x2748774cdf8eeb99; 0x34b0bcb5e19b48a8];
  [0x391c0cb3c5c95a63; 0x4ed8aa4ae3418acb; 0x5b9cca4f7763e373; 0x682e6ff3d6b2b8a3];
  [0x748f82ee5defb2fc; 0x78a5636f43172f60; 0x84c87814a1f0ab72; 0x8cc702081a6439ec];
  [0x90befffa23631e28; 0xa4506cebde82bde9; 0xbef9a3f7b2c67915; 0xc67178f2e372532b];
  [0xca273eceea26619c; 0xd186b8c721c0c207; 0xeada7dd6cde0eb1e; 0xf57d4f7fee6ed178];
  [0x06f067aa72176fba; 0x0a637dc5a2c898a6; 0x113f9804bef90dae; 0x1b710b35131c471b];
  [0x28db77f523047d84; 0x32caab7b40c72493; 0x3c9ebe0a15c9bebc; 0x431d67c49c100d4c];
  [0x4cc5d4becb3e42b6; 0x597f299cfc657e2a; 0x5fcb6fab3ad6faec; 0x6c44198c4a475817]].

Definition byte_at (p : list Z) (i : nat) : Z := nth i p 0.

(** [W]: the 16 words of the block, then the expanded ones. *)
Definition load_words (p : list Z) : list Z :=
  map (fun i =>
    let w := u64 (Z.shiftl (byte_at p (8 * i)) 56) in
    let w := Z.lor w (u64 (Z.shiftl (byte_at p (8 * i + 1)) 48)) in
    let w := Z.lor w (u64 (Z.shiftl (byte_at p (8 * i + 2)) 40)) in
    let w := Z.lor w (u64 (Z.shiftl (byte_at p (8 * i + 3)) 32)) in
    let w := Z.lor w (u64 (Z.shiftl (byte_at p (8 * i + 4)) 24)) in
    let w := Z.lor w (u64 (Z.shiftl (byte_at p (8 * i + 5)) 16)) in
    let w := Z.lor w (u64 (Z.shiftl (byte_at p (8 * i + 6)) 8)) in
    Z.lor w (byte_at p (8 * i + 7))) (seq 0 16).

Fixpoint expand (n : nat) (W : list Z) : list Z :=
  match n with
  | O => W
  | S n' =>
    let i := length W in
    expand n' (W ++ [u64 (R1 (nth (i - 2) W 0) + nth (i - 7) W 0 + R0 (nth (i - 15) W 0) + nth (i - 16) W 0)])
  end.

(** The eight variables [a] to [h]. *)
Definition regs : Type := Z * Z * Z * Z * Z * Z * Z * Z.

Definition round (r : regs) (k w : Z) : regs :=
  let '(a, b, c, d, e, f, g, h) := r in
  let t1 := u64 (h + S1 e + Ch e f g + k + w) in
  let t2 := u64 (S0 a + Maj a b c) in
  (u64 (t1 + t2), a, b, c, u64 (d + t1), e, f, g).

Fixpoint rounds (r : regs) (ks ws : list Z) : regs :=
  match ks, ws with
  | k :: ks, w :: ws => rounds (round r k w) ks ws
  | _, _ => r
  end.

Definition processblock (st : regs) (p : list Z) : regs :=
  let '(a, b, c, d, e, f, g, h) := rounds st K (expand 64 (load_words p)) in
  let '(a0, b0, c0, d0, e0, f0, g0, h0) := st in
  (u64 (a0 + a), u64 (b0 + b), u64 (c0 + c), u64 (d0 + d), u64 (e0 + e), u64 (f0 + f), u64 (g0 + g), u64 (h0 + h)).

(** ** The digest context *)

Definition h0 : regs :=
  (0x6a09e667f3bcc908, 0xbb67ae8584caa73b, 0x3c6ef372fe94f82b, 0xa54ff53a5f1d36f1, 0x510e527fade682d1, 0x9b05688c2b3e6c1f, 0x1f83d9abfb41bd6b, 0x5be0cd19137e2179).
Definition len_bytes (l : Z) : list Z :=
  [u8 (Z.shiftr l 56); u8 (Z.shiftr l 48); u8 (Z.shiftr l 40); u8 (Z.shiftr l 32); u8 (Z.shiftr l 24); u8 (Z.shiftr l 16); u8 (Z.shiftr l 8); u8 l].
Definition word_bytes (x : Z) : list Z :=
  [u8 (Z.shiftr x 56); u8 (Z.shiftr x 48); u8 (Z.shiftr x 40); u8 (Z.shiftr x 32); u8 (Z.shiftr x 24); u8 (Z.shiftr x 16); u8 (Z.shiftr x 8); u8 x].
Definition state_bytes (st : regs) : list Z :=
  let '(a, b, c, d, e, f, g, h) := st in
  concat (map word_bytes [a; b; c; d; e; f; g; h]).

Definition sha512 : Type := ctx regs.
Definition pad : sha512 -> sha512 := HashStream.pad 128 112 processblock len_bytes.
Definition sha512_init : sha512 -> sha512 := HashStream.init h0.
Definition sha512_sum (s : sha512) : sha512 * list Z := let s := pad s in (s, state_bytes (h s)).
Definition sha512_update : sha512 -> list Z -> sha512 := HashStream.update 128 processblock.

(** FIPS 180: the digest of a message. *)
Definition SHA512 (m : list Z) : list Z := state_bytes (md_hash 128 112 processblock len_bytes h0 m).

Lemma sha512_word_bytes x : length (word_bytes x) = 8%nat /\ byte_list (word_bytes x).
Proof. split; [done|]. repeat constructor; apply u8_range. Qed.

Lemma sha512_state_bytes st : length (state_bytes st) = 64%nat /\ byte_list (state_bytes st).
Proof.
  destruct st as [[[[[[[a b] c] d] e] f] g] h']. split; [done|].
  unfold state_bytes. cbn [map concat]. repeat (apply byte_list_app; split; [apply sha512_word_bytes|]). constructor.
Qed.

#[export, program] Instance sha512_hash : Hash sha512 := {|
  hinit := sha512_init;
  hupdate := sha512_update;
  hsum := sha512_sum;
  digest := SHA512;
  dsize := 64;
  ready s := length (buf s) = 128%nat;
  absorbed s m := rep 128 processblock h0 s m
|}.
Next Obligation. intros s Hs. by apply rep_init. Qed.
Next Obligation. intros s m x R. apply (update_rep 128 112); [lia|done|lia|exact R]. Qed.
Next Obligation.
  intros s m R. destruct (pad_spec 128 112 processblock len_bytes h0 ltac:(lia) eq_refl ltac:(lia) ltac:(done) s m R) as [E L].
  split; [|exact L]. unfold sha512_sum, SHA512. cbn [snd]. f_equal. exact E.
Qed.
Next Obligation. intros m. apply sha512_state_bytes. Qed.
Next Obligation. intros m. apply sha512_state_bytes. Qed.
Next Obligation. lia. Qed.

(** ** Properties *)

(** Streaming: whatever the context held before, and however the message
    is cut into pieces, [sha512_init], [sha512_update] on the pieces in order
    and [sha512_sum] give the SHA-512 digest of the whole message as
    FIPS 180 defines it (padding with one bit, zeros and the length, then the
    compression function block by block). *)
Theorem sha512_streaming (s : sha512) ms :
  length (buf s) = 128%nat ->
  (sha512_sum (fold_left sha512_update ms (sha512_init s))).2 = SHA512 (concat ms).
Proof. exact (hash_pieces (H := sha512_hash) s ms). Qed.

(** The digest of "abc" from the standard, fed in two pieces. *)
Lemma sha512_streaming_witness :
  let s := mkCtx 0 h0 (replicate 128 0xFF) in
  (sha512_sum (sha512_update (sha512_update (sha512_init s) [97]) [98; 99])).2 =
    [0xdd; 0xaf; 0x35; 0xa1; 0x93; 0x61; 0x7a; 0xba; 0xcc; 0x41; 0x73; 0x49; 0xae; 0x20; 0x41; 0x31; 0x12; 0xe6; 0xfa; 0x4e; 0x89; 0xa9; 0x7e; 0xa2; 0x0a; 0x9e; 0xee; 0xe6; 0x4b; 0x55; 0xd3; 0x9a; 0x21; 0x92; 0x99; 0x2a; 0x27; 0x4f; 0xc1; 0xa8; 0x36; 0xba; 0x3c; 0x23; 0xa3; 0xfe; 0xeb; 0xbd; 0x45; 0x4d; 0x44; 0x23; 0x64; 0x3c; 0xe8; 0x0e; 0x2a; 0x9a; 0xc9; 0x4f; 0xa5; 0x4c; 0xa4; 0x9f].
Proof.
  intros s. assert (E := sha512_streaming s [[97]; [98; 99]] eq_refl). cbn [fold_left concat app] in E.
  rewrite E. vm_compute. reflexivity.
Defined.

End Sha512.
