(* ===== verification/Md5.v ===== *)
(** MD5 (musl src/crypt/crypt_md5.c): the compression function, the digest
    context and its operations, as an instance of the interface [Hash]. *)

From stdpp Require Import base tactics list numbers option.
From Stdlib Require Import ZArith Lia.
From S2P Require Import Prelude HashStream.

#[local] Open Scope Z_scope.

Module Md5.
Import Prelude HashStream.

(** ** The compression function *)

Definition rol (n : Z) (k : Z) : Z := Z.lor (u32 (Z.shiftl n k)) (Z.shiftr n (32 - k)).
Definition F (x y z : Z) : Z := Z.lxor z (Z.land x (Z.lxor y z)).
Definition G (x y z : Z) : Z := Z.lxor y (Z.land z (Z.lxor y x)).
Definition H (x y z : Z) : Z := Z.lxor (Z.lxor x y) z.
Definition I (x y z : Z) : Z := Z.lxor y (Z.lor x (u32 (Z.lnot z))).

(** The macros [FF], [GG], [HH] and [II]: the new value of their first
    argument. *)
Definition step (f : Z -> Z -> Z -> Z) (a b c d w s t : Z) : Z :=
  let a := u32 (a + (f b c d + w + t)) in u32 (rol a s + b).

Definition tab : list Z := [
  0xd76aa478; 0xe8c7b756; 0x242070db; 0xc1bdceee; 0xf57c0faf; 0x4787c62a; 0xa8304613; 0xfd469501;
  0x698098d8; 0x8b44f7af; 0xffff5bb1; 0x895cd7be; 0x6b901122; 0xfd987193; 0xa679438e; 0x49b40821;
  0xf61e2562; 0xc040b340; 0x265e5a51; 0xe9b6c7aa; 0xd62f105d; 0x02441453; 0xd8a1e681; 0xe7d3fbc8;
  0x21e1cde6; 0xc33707d6; 0xf4d50d87; 0x455a14ed; 0xa9e3e905; 0xfcefa3f8; 0x676f02d9; 0x8d2a4c8a;
  0xfffa3942; 0x8771f681; 0x6d9d6122; 0xfde5380c; 0xa4beea44; 0x4bdecfa9; 0xf6bb4b60; 0xbebfbc70;
  0x289b7ec6; 0xeaa127fa; 0xd4ef3085; 0x04881d05; 0xd9d4d039; 0xe6db99e5; 0x1fa27cf8; 0xc4ac5665;
  0xf4292244; 0x432aff97; 0xab9423a7; 0xfc93a039; 0x655b59c3; 0x8f0ccc92; 0xffeff47d; 0x85845dd1;
  0x6fa87e4f; 0xfe2ce6e0; 0xa3014314; 0x4e0811a1; 0xf7537e82; 0xbd3af235; 0x2ad7d2bb; 0xeb86d391].

Definition byte_at (p : list Z) (i : nat) : Z := nth i p 0.

Definition load_words (p : list Z) : list Z :=
  map (fun i =>
    let w := byte_at p (4 * i) in
    let w := Z.lor w (u32 (Z.shiftl (byte_at p (4 * i + 1)) 8)) in
    let w := Z.lor w (u32 (Z.shiftl (byte_at p (4 * i + 2)) 16)) in
    Z.lor w (u32 (Z.shiftl (byte_at p (4 * i + 3)) 24))) (seq 0 16).

Definition regs : Type := Z * Z * Z * Z.

(** One turn of one of the four loops: four steps from index [i] on; [idx]
    selects the message word. *)
Definition turn (f : Z -> Z -> Z -> Z) (idx : nat -> nat) (s1 s2 s3 s4 : Z) (W : list Z) (r : regs) (i : nat) : regs :=
  let '(a, b, c, d) := r in
  let w i := nth (idx i) W 0 in
  let t i := nth i tab 0 in
  let a := step f a b c d (w i) s1 (t i) in
  let d := step f d a b c (w (i + 1)%nat) s2 (t (i + 1)%nat) in
  let c := step f c d a b (w (i + 2)%nat) s3 (t (i + 2)%nat) in
  let b := step f b c d a (w (i + 3)%nat) s4 (t (i + 3)%nat) in
  (a, b, c, d).

Definition processblock (st : regs) (p : list Z) : regs :=
  let W := load_words p in
  let r := fold_left (turn F (fun i => i) 7 12 17 22 W) [0; 4; 8; 12]%nat st in
  let r := fold_left (turn G (fun i => (5 * i + 1) mod 16)%nat 5 9 14 20 W) [16; 20; 24; 28]%nat r in
  let r := fold_left (turn H (fun i => (3 * i + 5) mod 16)%nat 4 11 16 23 W) [32; 36; 40; 44]%nat r in
  let r := fold_left (turn I (fun i => (7 * i) mod 16)%nat 6 10 15 21 W) [48; 52; 56; 60]%nat r in
  let '(a, b, c, d) := r in
  let '(a0, b0, c0, d0) := st in
  (u32 (a0 + a), u32 (b0 + b), u32 (c0 + c), u32 (d0 + d)).

(** ** The digest context *)

Definition h0 : regs := (0x67452301, 0xefcdab89, 0x98badcfe, 0x10325476).
Definition len_bytes (l : Z) : list Z :=
  [u8 l; u8 (Z.shiftr l 8); u8 (Z.shiftr l 16); u8 (Z.shiftr l 24); u8 (Z.shiftr l 32); u8 (Z.shiftr l 40); u8 (Z.shiftr l 48); u8 (Z.shiftr l 56)].
Definition word_bytes (x : Z) : list Z :=
  [u8 x; u8 (Z.shiftr x 8); u8 (Z.shiftr x 16); u8 (Z.shiftr x 24)].
Definition state_bytes (st : regs) : list Z :=
  let '(a, b, c, d) := st in concat (map word_bytes [a; b; c; d]).

Definition md5 : Type := ctx regs.
Definition pad : md5 -> md5 := HashStream.pad 64 56 processblock len_bytes.
Definition md5_init : md5 -> md5 := HashStream.init h0.
Definition md5_sum (s : md5) : md5 * list Z := let s := pad s in (s, state_bytes (h s)).
Definition md5_update : md5 -> list Z -> md5 := HashStream.update 64 processblock.

(** RFC 1321: the digest of a message. *)
Definition MD5 (m : list Z) : list Z := state_bytes (md_hash 64 56 processblock len_bytes h0 m).

Lemma md5_word_bytes x : length (word_bytes x) = 4%nat /\ byte_list (word_bytes x).
Proof. split; [done|]. repeat constructor; apply u8_range. Qed.

Lemma md5_state_bytes st : length (state_bytes st) = 16%nat /\ byte_list (state_bytes st).
Proof.
  destruct st as [[[a b] c] d]. split; [done|].
  unfold state_bytes. cbn [map concat]. repeat (apply byte_list_app; split; [apply md5_word_bytes|]). constructor.
Qed.

#[export, program] Instance md5_hash : Hash md5 := {|
  hinit := md5_init;
  hupdate := md5_update;
  hsum := md5_sum;
  digest := MD5;
  dsize := 16;
  ready s := length (buf s) = 64%nat;
  absorbed s m := rep 64 processblock h0 s m
|}.
Next Obligation. intros s Hs. by apply rep_init. Qed.
Next Obligation. intros s m x R. apply (update_rep 64 56); [lia|done|lia|exact R]. Qed.
Next Obligation.
  intros s m R. destruct (pad_spec 64 56 processblock len_bytes h0 ltac:(lia) eq_refl ltac:(lia) ltac:(done) s m R) as [E L].
  split; [|exact L]. unfold md5_sum, MD5. cbn [snd]. f_equal. exact E.
Qed.
Next Obligation. intros m. apply md5_state_bytes. Qed.
Next Obligation. intros m. apply md5_state_bytes. Qed.
Next Obligation. lia. Qed.

(** ** Properties *)

(** Streaming: whatever the context held before, and however the message
    is cut into pieces, [md5_init], [md5_update] on the pieces in order and
    [md5_sum] give the MD5 digest of the whole message as RFC 1321 defines
    it. *)
Theorem md5_streaming (s : md5) ms :
  length (buf s) = 64%nat -> (md5_sum (fold_left md5_update ms (md5_init s))).2 = MD5 (concat ms).
Proof. exact (hash_pieces (H := md5_hash) s ms). Qed.

(** The digest of "abc" from the standard, fed in two pieces. *)
Lemma md5_streaming_witness :
  let s := mkCtx 0 h0 (replicate 64 0xFF) in
  (md5_sum (md5_update (md5_update (md5_init s) [97]) [98; 99])).2 =
    [0x90; 0x01; 0x50; 0x98; 0x3c; 0xd2; 0x4f; 0xb0; 0xd6; 0x96; 0x3f; 0x7d; 0x28; 0xe1; 0x7f; 0x72].
Proof.
  intros s. assert (E := md5_streaming s [[97]; [98; 99]] eq_refl). cbn [fold_left concat app] in E.
  rewrite E. vm_compute. reflexivity.
Defined.

End Md5.
