(* ===== verification/ShaCryptSpec.v ===== *)
(** What the SHA-crypt document asks for: the digest B, A, DP, DS and rounds
    over the message digest of whole strings, the text of a setting and of a
    hash.  Nothing here refers to the code. *)

From stdpp Require Import base tactics list numbers option.
From Stdlib Require Import ZArith Lia.
From S2P Require Import Prelude HashStream.

#[local] Open Scope Z_scope.

Module ShaCryptSpec.
Import Prelude HashStream.

(** ** The digest *)

Section Digest.
Context {C : Type} `{Hash C}.

(** [n] bytes of [md] repeated. *)
Fixpoint cyc (fuel n : nat) (md : list Z) : list Z :=
  match fuel with
  | O => []
  | S fuel' => if (dsize <? n)%nat then md ++ cyc fuel' (n - dsize) md else take n md
  end.

(** The bits of [i], from the lowest, as the digest or the key. *)
Fixpoint bits_text (fuel : nat) (i : Z) (md key : list Z) : list Z :=
  match fuel with
  | O => []
  | S fuel' => if 0 <? i then (if Z.odd i then md else key) ++ bits_text fuel' (i / 2) md key else []
  end.

Definition round_text (i : Z) (klen slen : nat) (md kmd smd : list Z) : list Z :=
  (if Z.odd i then cyc (S klen) klen kmd else md) ++
  (if i mod 3 =? 0 then [] else take slen smd) ++
  (if i mod 7 =? 0 then [] else cyc (S klen) klen kmd) ++
  (if Z.odd i then md else cyc (S klen) klen kmd).

Fixpoint spec_rounds (r : nat) (i : Z) (klen slen : nat) (md kmd smd : list Z) : list Z :=
  match r with
  | O => md
  | S r' => spec_rounds r' (i + 1) klen slen (digest (round_text i klen slen md kmd smd)) kmd smd
  end.

(** The design of the SHA-crypt document: B, A, DP, DS and the rounds. *)
Definition spec_digest (key salt : list Z) (r : Z) : list Z :=
  let klen := length key in
  let B := digest (key ++ salt ++ key) in
  let A := digest (key ++ salt ++ cyc (S klen) klen B ++ bits_text (S klen) (Z.of_nat klen) B key) in
  let DP := digest (concat (replicate klen key)) in
  let DS := digest (concat (replicate (Z.to_nat (16 + nth 0 A 0)) salt)) in
  spec_rounds (Z.to_nat r) 0 klen (length salt) A DP DS.

End Digest.

(** ** The setting: tag, number of rounds, salt *)

(** "rounds=" and '$' *)
Definition keyword : list Z := [114; 111; 117; 110; 100; 115; 61].
Definition dollar : Z := 36.

Definition digit (c : Z) : Prop := 48 <= c <= 57.
Definition decimal (ds : list Z) : Z := fold_left (fun n c => 10 * n + (c - 48)) ds 0.
(** [n] in decimal, without zeros in front. *)
Definition numeral (n : Z) (ds : list Z) : Prop := Forall digit ds /\ ds <> [] /\ hd 0 ds <> 48 /\ decimal ds = n.

(** [rounds_field s r shown rest]: after the tag comes [s]; it asks for [r]
    rounds, which the hash states as [shown], and [rest] follows.  Without the
    keyword there are 5000 rounds; a number below 1000 counts as 1000, and one
    above 9999999 is not allowed. *)
Inductive rounds_field : list Z -> Z -> list Z -> list Z -> Prop :=
| rounds_default s : take 7 s <> keyword -> rounds_field s 5000 [] s
| rounds_given ds shown rest :
    ds <> [] -> Forall digit ds -> decimal ds <= 9999999 -> numeral (Z.max 1000 (decimal ds)) shown ->
    rounds_field (keyword ++ ds ++ dollar :: rest) (Z.max 1000 (decimal ds)) (keyword ++ shown ++ [dollar]) rest.

(** The salt ends at '$', at the end of the string or after 16 bytes; a line
    end and ':' are not allowed in it. *)
Definition salt_byte (c : Z) : Prop := c <> 0 /\ c <> dollar /\ c <> 10 /\ c <> 58.
Definition salt_field (s salt : list Z) : Prop :=
  exists rest, s = salt ++ rest /\ Forall salt_byte salt /\ (length salt <= 16)%nat /\
    (length salt = 16%nat \/ hd 0 rest = 0 \/ hd 0 rest = dollar).

Definition setting_of (tag setting : list Z) (r : Z) (shown salt : list Z) : Prop :=
  exists s rest, setting = tag ++ s /\ rounds_field s r shown rest /\ salt_field rest salt.

(** ** The hash as text *)

(** '.', '/', the digits, the upper case and the lower case letters. *)
Definition letter (v : Z) : Z := if v <? 12 then 46 + v else if v <? 38 then 53 + v else 59 + v.
(** [n] letters for the low [6 * n] bits, from the lowest on. *)
Fixpoint letters (n : nat) (w : Z) : list Z :=
  match n with O => [] | S n => letter (w mod 64) :: letters n (w / 64) end.
(** Group [i] has three bytes, a third of the digest apart, the first one
    moving from third to third with [i]. *)
Definition group (third dir : Z) (md : list Z) (i : Z) : list Z :=
  let byte j := nth (Z.to_nat (i + third * ((j + dir * i) mod 3))) md 0 in
  letters 4 (65536 * byte 0 + 256 * byte 1 + byte 2).
Definition encode256 (md : list Z) : list Z :=
  concat (group 10 (-1) md <$> seqZ 0 10) ++ letters 3 (256 * nth 31 md 0 + nth 30 md 0).
Definition encode512 (md : list Z) : list Z :=
  concat (group 21 1 md <$> seqZ 0 21) ++ letters 2 (nth 63 md 0).

(** The hash of a key of at most 256 bytes. *)
Definition hash_text {C : Type} `{Hash C} (tag : list Z) (encode : list Z -> list Z) (key setting out : list Z) : Prop :=
  (length key <= 256)%nat /\
  exists r shown salt, setting_of tag setting r shown salt /\
    out = tag ++ shown ++ salt ++ [dollar] ++ encode (spec_digest key salt r).
End ShaCryptSpec.
