(* ===== verification/ShaCrypt.v ===== *)
(** Password hashing with SHA-256 and SHA-512 (musl src/crypt/crypt_sha256.c,
    crypt_sha512.c), written once over the interface [Hash], as the two files
    differ only in the digest, its size, the tag and the order of the output
    bytes. *)

From stdpp Require Import base tactics list numbers option.
From Stdlib Require Import ZArith Lia.
From S2P Require Import Prelude HashStream StrTo CString Sha256 Sha512 ShaCryptSpec.

#[local] Open Scope Z_scope.

Module ShaCrypt.
Import Prelude HashStream.
Import ShaCryptSpec(cyc, bits_text, round_text, spec_rounds, spec_digest).

(** ** Text *)

(** "./0123456789ABCDEFGHIJKLMNOPQRSTUVWXYZabcdefghijklmnopqrstuvwxyz" *)
Definition b64 : list Z := [
  46; 47; 48; 49; 50; 51; 52; 53; 54; 55; 56; 57; 65; 66; 67; 68; 69; 70; 71; 72; 73; 74; 75; 76; 77; 78; 79; 80; 81; 82;
  83; 84; 85; 86; 87; 88; 89; 90; 97; 98; 99; 100; 101; 102; 103; 104; 105; 106; 107; 108; 109; 110; 111; 112; 113; 114;
  115; 116; 117; 118; 119; 120; 121; 122].

Fixpoint to64 (u : Z) (n : nat) : list Z :=
  match n with
  | O => []
  | S n' => nth (Z.to_nat (u mod 64)) b64 0 :: to64 (u / 64) n'
  end.

(** The decimal digits [fmt_u] (src/stdio/vfprintf.c) writes downwards from
    the end of its buffer; 20 digits hold every 64-bit number. *)
Fixpoint fmt_u (fuel : nat) (x : Z) (s : list Z) : list Z :=
  match fuel with
  | O => s
  | S fuel' => if x =? 0 then s else fmt_u fuel' (x / 10) (48 + x mod 10 :: s)
  end.

Definition KEY_MAX : nat := 256.
Definition SALT_MAX : nat := 16.
Definition ROUNDS_DEFAULT : Z := 5000.
Definition ROUNDS_MIN : Z := 1000.
Definition ROUNDS_MAX : Z := 9999999.

(** "rounds=" and '$' *)
Definition rounds_eq : list Z := [114; 111; 117; 110; 100; 115; 61].
Definition dollar : Z := 36.

(** [sprintf(rounds, "rounds=%u$", r)], [r] not being 0. *)
Definition rounds_text (r : Z) : list Z := rounds_eq ++ fmt_u 20 r [] ++ [dollar].

Definition strncmp_at (s t : list Z) (n : nat) : Z := CString.strncmp (CString.rd_list s) (CString.rd_list t) 0 0 n.

(** The number of rounds, the text to repeat in the output, and where the
    salt starts; [None]: the setting is rejected. *)
Definition parse_rounds (salt : list Z) : option (Z * list Z * list Z) :=
  if strncmp_at salt rounds_eq 7 =? 0 then
    let salt := drop 7 salt in
    if negb (StrTo.isdigit (cstr_get salt 0)) then None
    else
      let '(u, e, _) := StrTo.strtoul salt 10 in
      if negb (cstr_get salt e =? dollar) then None
      else
        let salt := drop (S e) salt in
        if u <? ROUNDS_MIN then Some (ROUNDS_MIN, rounds_text ROUNDS_MIN, salt)
        else if ROUNDS_MAX <? u then None
        else Some (u32 u, rounds_text (u32 u), salt)
  else Some (ROUNDS_DEFAULT, [], salt).

(** The length of the salt. *)
Fixpoint salt_loop (fuel : nat) (salt : list Z) (i : nat) : option nat :=
  match fuel with
  | O => Some i
  | S fuel' =>
    let c := cstr_get salt i in
    if (c =? 0) || (c =? dollar) then Some i
    else if (c =? 10) || (c =? 58) then None
    else salt_loop fuel' salt (S i)
  end.

Section Crypt.
Context {C : Type} `{Hash C}.

(** [hashmd]: [n] bytes of the repeated digest. *)
Fixpoint hashmd (fuel : nat) (s : C) (n : nat) (md : list Z) : C :=
  match fuel with
  | O => s
  | S fuel' =>
    if (dsize <? n)%nat then hashmd fuel' (hupdate s (take dsize md)) (n - dsize) md
    else hupdate s (take n md)
  end.

(** [for (i = klen; i > 0; i >>= 1)] *)
Fixpoint bits_loop (fuel : nat) (ctx : C) (i : Z) (md key : list Z) : C :=
  match fuel with
  | O => ctx
  | S fuel' =>
    if 0 <? i then
      let ctx := if negb (Z.land i 1 =? 0) then hupdate ctx (take dsize md) else hupdate ctx key in
      bits_loop fuel' ctx (Z.shiftr i 1) md key
    else ctx
  end.

(** [for (i = 0; i < n; i++) update(&ctx, x)] *)
Fixpoint repeat_update (n : nat) (ctx : C) (x : list Z) : C :=
  match n with
  | O => ctx
  | S n' => repeat_update n' (hupdate ctx x) x
  end.

(** One round, and the [r] rounds from round [i] on. *)
Definition crypt_round (ctx : C) (i : Z) (klen slen : nat) (md kmd smd : list Z) : C * list Z :=
  let ctx := hinit ctx in
  let ctx := if negb (i mod 2 =? 0) then hashmd (S klen) ctx klen kmd else hupdate ctx (take dsize md) in
  let ctx := if negb (i mod 3 =? 0) then hupdate ctx (take slen smd) else ctx in
  let ctx := if negb (i mod 7 =? 0) then hashmd (S klen) ctx klen kmd else ctx in
  let ctx := if negb (i mod 2 =? 0) then hupdate ctx (take dsize md) else hashmd (S klen) ctx klen kmd in
  hsum ctx.

Fixpoint rounds_loop (r : nat) (i : Z) (ctx : C) (klen slen : nat) (md kmd smd : list Z) : list Z :=
  match r with
  | O => md
  | S r' =>
    let (ctx, md) := crypt_round ctx i klen slen md kmd smd in
    rounds_loop r' (i + 1) ctx klen slen md kmd smd
  end.

(** The hashing proper: from key and salt to the final digest. *)
Definition crypt_digest (ctx : C) (key salt : list Z) (r : Z) : list Z :=
  let klen := length key in
  let slen := length salt in
  let ctx := hinit ctx in
  let ctx := hupdate ctx key in
  let ctx := hupdate ctx salt in
  let ctx := hupdate ctx key in
  let (ctx, md) := hsum ctx in
  let ctx := hinit ctx in
  let ctx := hupdate ctx key in
  let ctx := hupdate ctx salt in
  let ctx := hashmd (S klen) ctx klen md in
  let ctx := bits_loop (S klen) ctx (Z.of_nat klen) md key in
  let (ctx, md) := hsum ctx in
  let ctx := hinit ctx in
  let ctx := repeat_update klen ctx key in
  let (ctx, kmd) := hsum ctx in
  let ctx := hinit ctx in
  let ctx := repeat_update (Z.to_nat (16 + nth 0 md 0)) ctx salt in
  let (ctx, smd) := hsum ctx in
  rounds_loop (Z.to_nat r) 0 ctx klen slen md kmd smd.

(** [sha256crypt] and [sha512crypt]: [tag] is "$5$" or "$6$", [emit] writes
    the digest; [None] is the null pointer. *)
Definition shacrypt (tag : list Z) (emit : list Z -> list Z) (ctx : C) (key setting : list Z) : option (list Z) :=
  let klen := Z.to_nat (CString.strnlen (CString.rd_list key) 0 (KEY_MAX + 1)) in
  if (KEY_MAX <? klen)%nat then None
  else if negb (strncmp_at setting tag 3 =? 0) then None
  else
    match parse_rounds (drop 3 setting) with
    | None => None
    | Some (r, rounds, salt) =>
      match salt_loop SALT_MAX salt 0 with
      | None => None
      | Some slen =>
        let md := crypt_digest ctx (take klen key) (take slen salt) r in
        Some (tag ++ rounds ++ take slen salt ++ [dollar] ++ emit md)
      end
    end.

End Crypt.

(** ** Output of the digest *)

Definition triple (md : list Z) (p : nat * nat * nat) : list Z :=
  let '(a, b, c) := p in
  to64 (Z.lor (Z.lor (Z.shiftl (nth a md 0) 16) (Z.shiftl (nth b md 0) 8)) (nth c md 0)) 4.

Definition perm256 : list (nat * nat * nat) := [
  (0, 10, 20); (21, 1, 11); (12, 22, 2); (3, 13, 23); (24, 4, 14); (15, 25, 5); (6, 16, 26); (27, 7, 17); (18, 28, 8);
  (9, 19, 29)]%nat.
Definition emit256 (md : list Z) : list Z :=
  concat (map (triple md) perm256) ++ to64 (Z.lor (Z.shiftl (nth 31 md 0) 8) (nth 30 md 0)) 3.

Definition perm512 : list (nat * nat * nat) := [
  (0, 21, 42); (22, 43, 1); (44, 2, 23); (3, 24, 45); (25, 46, 4); (47, 5, 26); (6, 27, 48); (28, 49, 7); (50, 8, 29);
  (9, 30, 51); (31, 52, 10); (53, 11, 32); (12, 33, 54); (34, 55, 13); (56, 14, 35); (15, 36, 57); (37, 58, 16);
  (59, 17, 38); (18, 39, 60); (40, 61, 19); (62, 20, 41)]%nat.
Definition emit512 (md : list Z) : list Z := concat (map (triple md) perm512) ++ to64 (nth 63 md 0) 2.

Definition sha256crypt (ctx : Sha256.sha256) : list Z -> list Z -> option (list Z) :=
  shacrypt (H := Sha256.sha256_hash) [36; 53; 36] emit256 ctx.
Definition sha512crypt (ctx : Sha512.sha512) : list Z -> list Z -> option (list Z) :=
  shacrypt (H := Sha512.sha512_hash) [36; 54; 36] emit512 ctx.

(** ** The self-checking entry points: on error or when the self test fails
    the result is "*". *)

(** "Xy01@#\x01\x02\x80\x7f\xff\r\n\x81\t !" *)
Definition testkey : list Z := [88; 121; 48; 49; 64; 35; 1; 2; 0x80; 0x7f; 0xff; 13; 10; 0x81; 9; 32; 33].
(** "rounds=1234$abc0123456789$" *)
Definition testsetting (tag : list Z) : list Z :=
  tag ++ [114; 111; 117; 110; 100; 115; 61; 49; 50; 51; 52; 36; 97; 98; 99; 48; 49; 50; 51; 52; 53; 54; 55; 56; 57; 36].
(** "3VfDjPt05VHFn47C/ojFZ6KRPYrOjj1lLbH.dkF3bZ6" *)
Definition testhash256 : list Z := testsetting [36; 53; 36] ++ [
  51; 86; 102; 68; 106; 80; 116; 48; 53; 86; 72; 70; 110; 52; 55; 67; 47; 111; 106; 70; 90; 54; 75; 82; 80; 89; 114; 79; 106;
  106; 49; 108; 76; 98; 72; 46; 100; 107; 70; 51; 98; 90; 54].
(** "BCpt8zLrc/RcyuXmCDOE1ALqMXB2MH6n1g891HhFj8.w7LxGv.FTkqq6Vxc/km3Y0jE0j24jY5PIv/oOu6reg1" *)
Definition testhash512 : list Z := testsetting [36; 54; 36] ++ [
  66; 67; 112; 116; 56; 122; 76; 114; 99; 47; 82; 99; 121; 117; 88; 109; 67; 68; 79; 69; 49; 65; 76; 113; 77; 88; 66; 50; 77;
  72; 54; 110; 49; 103; 56; 57; 49; 72; 104; 70; 106; 56; 46; 119; 55; 76; 120; 71; 118; 46; 70; 84; 107; 113; 113; 54; 86;
  120; 99; 47; 107; 109; 51; 89; 48; 106; 69; 48; 106; 50; 52; 106; 89; 53; 80; 73; 118; 47; 111; 79; 117; 54; 114; 101; 103; 49].

Definition checked (crypt : list Z -> list Z -> option (list Z)) (tag testhash key setting : list Z) : list Z :=
  let p := crypt key setting in
  let q := crypt testkey (testsetting tag) in
  match p with
  | Some p => if bool_decide (q = Some testhash) then p else [42]
  | None => [42]
  end.

Definition __crypt_sha256 (ctx : Sha256.sha256) : list Z -> list Z -> list Z := checked (sha256crypt ctx) [36; 53; 36] testhash256.
Definition __crypt_sha512 (ctx : Sha512.sha512) : list Z -> list Z -> list Z := checked (sha512crypt ctx) [36; 54; 36] testhash512.


(** ** The specification in terms of the digest *)

Section Spec.
Context {C : Type} `{Hash C}.

(** The whole function. *)
Definition spec_crypt (tag : list Z) (emit : list Z -> list Z) (key setting : list Z) : option (list Z) :=
  if (KEY_MAX <? length key)%nat then None
  else if bool_decide (take 3 setting = tag) then
    match parse_rounds (drop 3 setting) with
    | None => None
    | Some (r, rounds, salt) =>
      match salt_loop SALT_MAX salt 0 with
      | None => None
      | Some slen => Some (tag ++ rounds ++ take slen salt ++ [dollar] ++ emit (spec_digest key (take slen salt) r))
      end
    end
  else None.

Lemma hashmd_ok fuel : forall s m n md,
  absorbed s m -> (n < fuel)%nat -> length md = dsize -> absorbed (hashmd fuel s n md) (m ++ cyc fuel n md).
Proof.
  induction fuel as [|fuel IH]; intros s m n md A Hn Hl; [lia|]. cbn [hashmd cyc].
  destruct (Nat.ltb_spec dsize n) as [Hlt|Hge].
  - rewrite take_ge by lia. rewrite app_assoc. apply IH; [by apply hupdate_ok| |done].
    assert (Hd := dsize_pos). lia.
  - by apply hupdate_ok.
Qed.

Lemma bits_loop_ok fuel : forall s m i md key,
  absorbed s m -> length md = dsize -> absorbed (bits_loop fuel s i md key) (m ++ bits_text fuel i md key).
Proof.
  induction fuel as [|fuel IH]; intros s m i md key A Hl; cbn [bits_loop bits_text]; [by rewrite app_nil_r|].
  destruct (0 <? i); [|by rewrite app_nil_r].
  assert (Eo : negb (Z.land i 1 =? 0) = Z.odd i).
  { change 1 with (Z.ones 1). rewrite Z.land_ones by lia. change (2 ^ 1) with 2. rewrite (Zmod_odd i). by destruct (Z.odd i). }
  rewrite Eo, app_assoc. rewrite Z.shiftr_div_pow2 by lia. apply IH; [|done].
  destruct (Z.odd i); [rewrite take_ge by lia|]; by apply hupdate_ok.
Qed.

Lemma repeat_update_ok n : forall s m x, absorbed s m -> absorbed (repeat_update n s x) (m ++ concat (replicate n x)).
Proof.
  induction n as [|n IH]; intros s m x A; cbn [repeat_update replicate concat]; [by rewrite app_nil_r|].
  rewrite app_assoc. apply IH. by apply hupdate_ok.
Qed.

Lemma hsum_pair s m : absorbed s m -> exists s', hsum s = (s', digest m) /\ ready s'.
Proof. intros A. destruct (hsum_ok _ _ A) as [E R]. destruct (hsum s) as [s' md]. cbn in *. subst. by exists s'. Qed.

Lemma odd_mod i : negb (i mod 2 =? 0) = Z.odd i.
Proof. rewrite Zmod_odd. by destruct (Z.odd i). Qed.

Lemma crypt_round_ok s i klen slen md kmd smd :
  ready s -> length md = dsize -> length kmd = dsize ->
  exists s', crypt_round s i klen slen md kmd smd = (s', digest (round_text i klen slen md kmd smd)) /\ ready s'.
Proof.
  intros R Hm Hk. unfold crypt_round, round_text. apply hsum_pair. rewrite !odd_mod.
  assert (Hmd : take dsize md = md) by (apply take_ge; lia). rewrite Hmd.
  assert (A0 := hinit_ok s R).
  assert (Hopt : forall c m x, absorbed c m -> absorbed (hupdate c x) (m ++ x)) by (intros; by apply hupdate_ok).
  assert (Hrep : forall c m, absorbed c m -> absorbed (hashmd (S klen) c klen kmd) (m ++ cyc (S klen) klen kmd))
    by (intros; apply hashmd_ok; [done|lia|done]).
  set (c1 := if Z.odd i then hashmd (S klen) (hinit s) klen kmd else hupdate (hinit s) md).
  set (x1 := if Z.odd i then cyc (S klen) klen kmd else md).
  assert (A1 : absorbed c1 x1) by (subst c1 x1; destruct (Z.odd i); [by apply (Hrep _ [])|by apply (Hopt _ [])]).
  set (c2 := if negb (i mod 3 =? 0) then hupdate c1 (take slen smd) else c1).
  set (x2 := if i mod 3 =? 0 then [] else take slen smd).
  assert (A2 : absorbed c2 (x1 ++ x2)) by (subst c2 x2; destruct (i mod 3 =? 0); cbn [negb]; [by rewrite app_nil_r|by apply Hopt]).
  set (c3 := if negb (i mod 7 =? 0) then hashmd (S klen) c2 klen kmd else c2).
  set (x3 := if i mod 7 =? 0 then [] else cyc (S klen) klen kmd).
  assert (A3 : absorbed c3 ((x1 ++ x2) ++ x3)) by (subst c3 x3; destruct (i mod 7 =? 0); cbn [negb]; [by rewrite app_nil_r|by apply Hrep]).
  rewrite !app_assoc. destruct (Z.odd i); [by apply Hopt|by apply Hrep].
Qed.

Lemma rounds_loop_ok r : forall i s klen slen md kmd smd,
  ready s -> length md = dsize -> length kmd = dsize ->
  rounds_loop r i s klen slen md kmd smd = spec_rounds r i klen slen md kmd smd.
Proof.
  induction r as [|r IH]; intros i s klen slen md kmd smd R Hm Hk; cbn [rounds_loop spec_rounds]; [done|].
  destruct (crypt_round_ok s i klen slen md kmd smd R Hm Hk) as (s' & -> & R').
  apply IH; [done|apply length_digest|done].
Qed.

Lemma crypt_digest_ok s key salt r : ready s -> crypt_digest s key salt r = spec_digest key salt r.
Proof.
  intros R. unfold crypt_digest, spec_digest. set (klen := length key).
  assert (Hopt : forall c m x, absorbed c m -> absorbed (hupdate c x) (m ++ x)) by (intros; by apply hupdate_ok).
  destruct (hsum_pair (hupdate (hupdate (hupdate (hinit s) key) salt) key) (key ++ salt ++ key)) as (s1 & -> & R1).
  { rewrite app_assoc. apply Hopt, Hopt. apply (Hopt _ []). by apply hinit_ok. }
  set (B := digest (key ++ salt ++ key)). assert (HB : length B = dsize) by apply length_digest.
  set (A := digest (key ++ salt ++ cyc (S klen) klen B ++ bits_text (S klen) (Z.of_nat klen) B key)).
  destruct (hsum_pair (bits_loop (S klen) (hashmd (S klen) (hupdate (hupdate (hinit s1) key) salt) klen B) (Z.of_nat klen) B key)
    (key ++ salt ++ cyc (S klen) klen B ++ bits_text (S klen) (Z.of_nat klen) B key)) as (s2 & -> & R2).
  { rewrite !app_assoc. apply bits_loop_ok; [|done]. apply hashmd_ok; [|lia|done]. apply Hopt. apply (Hopt _ []). by apply hinit_ok. }
  fold A. destruct (hsum_pair (repeat_update klen (hinit s2) key) (concat (replicate klen key))) as (s3 & -> & R3).
  { apply (repeat_update_ok klen _ []). by apply hinit_ok. }
  destruct (hsum_pair (repeat_update (Z.to_nat (16 + nth 0 A 0)) (hinit s3) salt) (concat (replicate (Z.to_nat (16 + nth 0 A 0)) salt)))
    as (s4 & -> & R4).
  { apply (repeat_update_ok _ _ []). by apply hinit_ok. }
  apply rounds_loop_ok; [done|apply length_digest|apply length_digest].
Qed.

End Spec.


(** ** Parsing the setting *)

Lemma strncmp_loop_zero rdl rdr n : forall l r,
  (forall j, 0 <= j <= Z.of_nat n -> rdr (r + j) <> 0) ->
  CString.strncmp_loop rdl rdr n l r = 0 <-> forall j, 0 <= j <= Z.of_nat n -> rdl (l + j) = rdr (r + j).
Proof.
  induction n as [|n IH]; intros l r Hr; cbn [CString.strncmp_loop]; assert (H0 := Hr 0 ltac:(lia)); rewrite Z.add_0_r in H0.
  - assert (E : (if negb (rdl l =? 0) && negb (rdr r =? 0) && (rdl l =? rdr r) then rdl l - rdr r else rdl l - rdr r) = rdl l - rdr r)
      by (by destruct (_ && _)).
    rewrite E. split.
    + intros Hz j Hj. assert (j = 0) as -> by lia. rewrite !Z.add_0_r. lia.
    + intros Hj. specialize (Hj 0 ltac:(lia)). rewrite !Z.add_0_r in Hj. lia.
  - destruct (Z.eqb_spec (rdr r) 0); [done|]. cbn [negb]. rewrite andb_true_r.
    destruct (Z.eqb_spec (rdl l) (rdr r)) as [Eq|Nq].
    + destruct (Z.eqb_spec (rdl l) 0); [congruence|]. cbn [negb andb].
      rewrite IH by (intros j Hj; replace (r + 1 + j) with (r + (j + 1)) by lia; apply Hr; lia). split; intros Hj j Hr'.
      * destruct (Z.eq_dec j 0) as [->|]; [by rewrite !Z.add_0_r|].
        replace (l + j) with (l + 1 + (j - 1)) by lia. replace (r + j) with (r + 1 + (j - 1)) by lia. apply Hj. lia.
      * replace (l + 1 + j) with (l + (j + 1)) by lia. replace (r + 1 + j) with (r + (j + 1)) by lia. apply Hj. lia.
    + rewrite andb_false_r. split; [lia|]. intros Hj. specialize (Hj 0 ltac:(lia)). rewrite !Z.add_0_r in Hj. lia.
Qed.

Lemma strncmp_at_zero s t : t <> [] -> Forall (fun c => c <> 0) t -> strncmp_at s t (length t) = 0 <-> take (length t) s = t.
Proof.
  intros Hne Ht. unfold strncmp_at, CString.strncmp. destruct (length t) as [|n] eqn:El; [by destruct t|].
  assert (Hrd : forall j, 0 <= j <= Z.of_nat n -> CString.rd_list t (0 + j) = cstr_get t (Z.to_nat j)).
  { intros j Hj. unfold CString.rd_list. destruct (Z.leb_spec 0 (0 + j)); [done|lia]. }
  assert (Hls : forall j, 0 <= j -> CString.rd_list s (0 + j) = cstr_get s (Z.to_nat j)).
  { intros j Hj. unfold CString.rd_list. destruct (Z.leb_spec 0 (0 + j)); [done|lia]. }
  rewrite strncmp_loop_zero.
  2: { intros j Hj. rewrite Hrd by lia. apply CString.cstr_get_in; [done|lia]. }
  split.
  - intros Hj. apply list_eq. intros i. destruct (Nat.lt_ge_cases i (S n)) as [Hi|Hi].
    + rewrite lookup_take_lt by lia. specialize (Hj (Z.of_nat i) ltac:(lia)). rewrite Hrd, Hls, Nat2Z.id in Hj by lia.
      destruct (lookup_lt_is_Some_2 t i ltac:(lia)) as (c & Ec). unfold cstr_get in Hj. rewrite Ec in *. cbn in Hj.
      assert (Hc := Forall_lookup_1 _ _ _ _ Ht Ec). cbv beta in Hc. destruct (s !! i); cbn in Hj; congruence.
    + rewrite lookup_take_ge by lia. symmetry. apply lookup_ge_None_2. lia.
  - intros E j Hj. rewrite Hrd, Hls by lia. rewrite <- E. unfold cstr_get. by rewrite lookup_take_lt by lia.
Qed.

Lemma find_byte_string l n : Forall (fun c => c <> 0) l ->
  CString.find_byte (CString.rd_list l) 0 0 n = if (length l <? n)%nat then Some (Z.of_nat (length l)) else None.
Proof.
  intros Hl. assert (C := CString.rd_list_cstring l Hl). set (k := Nat.min n (length l)).
  rewrite (CString.find_byte_skip _ 0 k 0 n).
  - destruct (Nat.ltb_spec (length l) n).
    + replace (n - k)%nat with (S (n - k - 1)) by lia. cbn [CString.find_byte].
      rewrite (proj2 C k) by lia. replace k with (length l) by lia. rewrite CString.cstr_get_end. cbn [Z.eqb]. by rewrite Z.add_0_l.
    + replace (n - k)%nat with 0%nat by lia. done.
  - lia.
  - intros i Hi. replace (0 + i) with (0 + Z.of_nat (Z.to_nat i)) by lia. rewrite (proj2 C) by lia. apply CString.cstr_get_in; [done|lia].
Qed.

Lemma strnlen_list l n : Forall (fun c => c <> 0) l -> byte_list l ->
  CString.strnlen (CString.rd_list l) 0 n = Z.of_nat (Nat.min (length l) n).
Proof.
  intros Hl Hb. unfold CString.strnlen. rewrite CString.memchr_spec by (intros x; by apply CString.rd_list_byte).
  change (u8 0) with 0. rewrite find_byte_string by done. destruct (Nat.ltb_spec (length l) n); [|f_equal; lia]. lia.
Qed.

(** *** The salt *)

Definition salt_char (c : Z) : Prop := c <> 0 /\ c <> dollar /\ c <> 10 /\ c <> 58.

Lemma salt_loop_spec fuel salt : forall i k,
  salt_loop fuel salt i = Some k <->
    (i <= k <= i + fuel)%nat /\ (forall j, (i <= j < k)%nat -> salt_char (cstr_get salt j)) /\
    (k = (i + fuel)%nat \/ cstr_get salt k = 0 \/ cstr_get salt k = dollar).
Proof.
  induction fuel as [|fuel IH]; intros i k; cbn [salt_loop].
  - split.
    + intros [= ->]. split; [lia|]. split; [lia|left; lia].
    + intros (H1 & _). f_equal. lia.
  - set (c := cstr_get salt i). destruct (Z.eqb_spec c 0) as [E0|N0]; [|destruct (Z.eqb_spec c dollar) as [Ed|Nd]]; cbn [orb].
    1, 2: split; [intros [= <-]; split; [lia|]; split; [lia|right; auto]|];
      intros (H1 & H2 & _); f_equal; destruct (Nat.eq_dec i k); [done|]; exfalso; destruct (H2 i ltac:(lia)) as (Hx & Hy & _); fold c in Hx, Hy; done.
    destruct (Z.eqb_spec c 10) as [En|Nn]; [|destruct (Z.eqb_spec c 58) as [Ec|Nc]]; cbn [orb].
    1, 2: split; [done|]; intros (H1 & H2 & H3); exfalso; destruct (Nat.eq_dec i k) as [<-|];
      [destruct H3 as [|[H3|H3]]; [lia|fold c in H3|fold c in H3]; unfold dollar in *; lia|destruct (H2 i ltac:(lia)) as (_ & _ & Hx & Hy); fold c in Hx, Hy; done].
    rewrite IH. split; intros (H1 & H2 & H3).
    + split; [lia|]. split; [|destruct H3; [left; lia|by right]]. intros j Hj. destruct (Nat.eq_dec j i) as [->|]; [done|]. apply H2. lia.
    + assert (k <> i) by (intros ->; destruct H3 as [|[|]]; [lia|done|done]).
      split; [lia|]. split; [|destruct H3; [left; lia|by right]]. intros j Hj. apply H2. lia.
Qed.

Lemma salt_loop_again salt rest k :
  salt_loop SALT_MAX salt 0 = Some k -> salt_loop SALT_MAX (take k salt ++ dollar :: rest) 0 = Some k /\ (k <= length salt)%nat.
Proof.
  rewrite !salt_loop_spec. intros (H1 & H2 & H3).
  assert (Hk : (k <= length salt)%nat).
  { destruct (Nat.le_gt_cases k (length salt)) as [|Hgt]; [done|]. exfalso. destruct (H2 (length salt) ltac:(lia)) as [Hz _].
    by rewrite CString.cstr_get_end in Hz. }
  split; [|done]. split; [done|]. split.
  - intros j Hj. unfold cstr_get. rewrite lookup_app_l by (rewrite length_take; lia). rewrite lookup_take_lt by lia. by apply H2.
  - right. right. unfold cstr_get. rewrite lookup_app_r by (rewrite length_take; lia). rewrite length_take.
    by replace (k - Nat.min k (length salt))%nat with 0%nat by lia.
Qed.

(** *** The number of rounds *)

Lemma fmt_u_spec fuel : forall x s,
  0 <= x < 10 ^ Z.of_nat fuel ->
  exists ds, fmt_u fuel x s = ds ++ s /\ Forall (fun c => 48 <= c < 58) ds /\ StrTo.hval 10 0 ds = x /\ (0 < x -> ds <> [] /\ hd 0 ds <> 48).
Proof.
  induction fuel as [|fuel IH]; intros x s Hx; cbn [fmt_u].
  - exists []. split; [done|]. split; [done|]. change (10 ^ Z.of_nat 0) with 1 in Hx. split; [cbn; lia|lia].
  - destruct (Z.eqb_spec x 0) as [->|Hn]; [exists []; split; [done|split; [done|split; [done|lia]]]|].
    assert (Hq : 0 <= x / 10 < 10 ^ Z.of_nat fuel).
    { rewrite Nat2Z.inj_succ, Z.pow_succ_r in Hx by lia. split; [apply Z.div_pos; lia|apply Z.div_lt_upper_bound; lia]. }
    assert (Hm := Z.mod_pos_bound x 10 ltac:(lia)).
    destruct (IH (x / 10) (48 + x mod 10 :: s) Hq) as (ds & E & Hds & Hv & Hh).
    exists (ds ++ [48 + x mod 10]). split; [by rewrite E, <- app_assoc|]. split.
    + apply Forall_app. split; [done|]. repeat constructor; lia.
    + split; [|intros _; split; [by destruct ds|]]; cycle 1.
      { destruct (Z.eq_dec (x / 10) 0) as [E0|N0]; [|destruct ds; [by destruct (Hh ltac:(lia))|by apply Hh; lia]].
        assert (ds = []) as -> by (rewrite E0 in E; apply (f_equal length) in E; destruct ds; [done|destruct fuel; cbn in E; rewrite length_app in E; cbn in E; lia]).
        cbn [app hd]. zdm. }
      rewrite StrTo.hval_app, Hv. cbn [StrTo.hval fold_left].
      assert (Hval : StrTo.val (48 + x mod 10) = x mod 10).
      { assert (F : forallb (fun d => StrTo.val (48 + d) =? d) [0; 1; 2; 3; 4; 5; 6; 7; 8; 9] = true) by (vm_compute; reflexivity).
        apply forallb_forall with (x := x mod 10) in F; [by apply Z.eqb_eq|]. cbn [In]. lia. }
      rewrite Hval. assert (Hdm := Z.div_mod x 10 ltac:(lia)). lia.
Qed.

Lemma digit_isdigit c : 48 <= c < 58 -> StrTo.isdigit c = true.
Proof. intros Hc. unfold StrTo.isdigit. rewrite u32_id by lia. lia. Qed.

(** *** Numbers in decimal *)
Lemma digit_byte ds : Forall ShaCryptSpec.digit ds -> Forall (fun c => StrTo.is_digit 10 c = true) ds /\ byte_list ds.
Proof.
  intros Hd. split; revert Hd; apply Forall_impl; unfold ShaCryptSpec.digit; intros c Hc; [|lia].
  rewrite <- (proj1 (StrTo.digit_val c ltac:(lia))). apply digit_isdigit. lia.
Qed.
Lemma hval_digits x ds : Forall ShaCryptSpec.digit ds -> StrTo.hval 10 x ds = fold_left (fun n c => 10 * n + (c - 48)) ds x.
Proof.
  revert x. induction ds as [|c ds IH]; intros x Hd; [done|]. pose proof (Forall_inv Hd) as Hc. unfold ShaCryptSpec.digit in Hc.
  cbn [StrTo.hval fold_left]. unfold StrTo.hval in IH. rewrite (proj2 (StrTo.digit_val c ltac:(lia))) by (apply digit_isdigit; lia).
  rewrite IH by exact (Forall_inv_tail Hd). f_equal. lia.
Qed.
Lemma decimal_app ds c : ShaCryptSpec.decimal (ds ++ [c]) = 10 * ShaCryptSpec.decimal ds + (c - 48).
Proof. unfold ShaCryptSpec.decimal. by rewrite fold_left_app. Qed.
Lemma decimal_nonneg ds : Forall ShaCryptSpec.digit ds -> 0 <= ShaCryptSpec.decimal ds.
Proof.
  induction ds as [|c ds IH] using rev_ind; intros Hd; [done|]. apply Forall_app in Hd as [Hd Hc%Forall_inv]. unfold ShaCryptSpec.digit in Hc.
  rewrite decimal_app. specialize (IH Hd). lia.
Qed.
Lemma decimal_lower ds : Forall ShaCryptSpec.digit ds -> ds <> [] -> hd 0 ds <> 48 -> 10 ^ (Z.of_nat (length ds) - 1) <= ShaCryptSpec.decimal ds.
Proof.
  induction ds as [|c ds IH] using rev_ind; intros Hd _ Hh; [done|]. apply Forall_app in Hd as [Hd Hc%Forall_inv]. unfold ShaCryptSpec.digit in Hc.
  rewrite decimal_app, length_app. cbn [length]. destruct ds as [|b ds].
  - cbn [app hd length] in *. change (ShaCryptSpec.decimal []) with 0. change (10 ^ (Z.of_nat (0 + 1) - 1)) with 1. lia.
  - specialize (IH Hd ltac:(done) Hh). cbn [length] in *. replace (Z.of_nat (S (length ds) + 1) - 1) with (Z.succ (Z.of_nat (S (length ds)) - 1)) by lia.
    rewrite Z.pow_succ_r by lia. lia.
Qed.
Lemma fmt_u_digits ds : Forall ShaCryptSpec.digit ds -> (ds = [] \/ hd 0 ds <> 48) -> forall fuel s, (length ds <= fuel)%nat ->
  fmt_u fuel (ShaCryptSpec.decimal ds) s = ds ++ s.
Proof.
  induction ds as [|c ds IH] using rev_ind; intros Hd Hh fuel s Hf; [by destruct fuel|].
  rewrite length_app in Hf. cbn [length] in Hf. destruct fuel as [|fuel]; [lia|]. cbn [fmt_u].
  assert (Hp : 0 < ShaCryptSpec.decimal (ds ++ [c])).
  { destruct Hh as [Hn|Hh]; [by destruct ds|]. pose proof (decimal_lower _ Hd ltac:(by destruct ds) Hh). pose proof (Z.pow_pos_nonneg 10 (Z.of_nat (length (ds ++ [c])) - 1)).
    rewrite length_app in *. cbn [length] in *. lia. }
  apply Forall_app in Hd as [Hd Hc%Forall_inv]. unfold ShaCryptSpec.digit in Hc. rewrite (proj2 (Z.eqb_neq _ 0)) by lia. rewrite decimal_app.
  replace ((10 * ShaCryptSpec.decimal ds + (c - 48)) / 10) with (ShaCryptSpec.decimal ds) by zdm.
  replace (48 + (10 * ShaCryptSpec.decimal ds + (c - 48)) mod 10) with c by zdm.
  rewrite IH; [by rewrite <- app_assoc|done| |lia]. destruct ds as [|b ds]; [by left|]. right. by destruct Hh as [Hn|Hh].
Qed.

Lemma rounds_text_numeral r : 0 < r <= ROUNDS_MAX -> exists shown, rounds_text r = rounds_eq ++ shown ++ [dollar] /\ ShaCryptSpec.numeral r shown.
Proof.
  unfold ROUNDS_MAX. intros Hr. destruct (fmt_u_spec 20 r []) as (ds & E & Hds & Hv & Hne); [change (10 ^ Z.of_nat 20) with 100000000000000000000; lia|].
  rewrite app_nil_r in E. exists ds. unfold rounds_text. rewrite E. split; [done|].
  assert (Hd : Forall ShaCryptSpec.digit ds) by (revert Hds; apply Forall_impl; unfold ShaCryptSpec.digit; lia).
  destruct (Hne ltac:(lia)) as [Hn Hh]. split_and!; [done|done|done|]. by rewrite <- Hv, hval_digits.
Qed.
Lemma numeral_rounds_text r shown : r <= ROUNDS_MAX -> ShaCryptSpec.numeral r shown -> rounds_text r = rounds_eq ++ shown ++ [dollar].
Proof.
  unfold ROUNDS_MAX. intros Hr (Hd & Hn & Hh & <-). unfold rounds_text. rewrite fmt_u_digits; [by rewrite app_nil_r|done|by right|].
  pose proof (decimal_lower shown Hd Hn Hh) as Hlow. destruct (Nat.le_gt_cases (length shown) 20) as [|Hgt]; [done|]. exfalso.
  pose proof (Z.pow_le_mono_r 10 20 (Z.of_nat (length shown) - 1) ltac:(lia) ltac:(lia)). lia.
Qed.

Lemma parse_rounds_digits ds rest : ds <> [] -> Forall ShaCryptSpec.digit ds -> byte_list rest ->
  parse_rounds (rounds_eq ++ ds ++ dollar :: rest) =
    if 9999999 <? ShaCryptSpec.decimal ds then None
    else let r := Z.max 1000 (ShaCryptSpec.decimal ds) in Some (r, rounds_text r, rest).
Proof.
  intros Hne Hd Hb. destruct (digit_byte ds Hd) as [Hd' Hbd]. unfold parse_rounds.
  assert (Ez : strncmp_at (rounds_eq ++ ds ++ dollar :: rest) rounds_eq 7 = 0).
  { apply (strncmp_at_zero _ rounds_eq); [done|repeat constructor; lia|]. by rewrite take_app_length. }
  rewrite Ez. cbn [Z.eqb]. change 7%nat with (length rounds_eq). rewrite drop_app_length.
  assert (E0 : StrTo.isdigit (cstr_get (ds ++ dollar :: rest) 0) = true).
  { destruct ds as [|c ds]; [done|]. apply digit_isdigit. pose proof (Forall_inv Hd) as Hc. unfold ShaCryptSpec.digit in Hc. change (48 <= c < 58). lia. }
  rewrite E0. cbn [negb]. assert (Hs := StrTo.strtox_spec [] None ds (dollar :: rest) 10 10 ds StrTo.ULLONG_MAX).
  change ([] ++ StrTo.sign_text None ++ ds ++ dollar :: rest) with (ds ++ dollar :: rest) in Hs.
  unfold StrTo.strtoul. rewrite Hs; clear Hs; [|by apply StrTo.num_plain|by left|done|apply byte_list_app; split; [done|constructor; [unfold dollar; lia|done]]|done|done].
  rewrite hval_digits by done. fold (ShaCryptSpec.decimal ds).
  pose proof (decimal_nonneg ds Hd) as Hge.
  cbv zeta. cbn [fst snd app StrTo.sign_text]. assert (Ec : cstr_get (ds ++ dollar :: rest) (length ds) = dollar).
  { unfold cstr_get. rewrite lookup_app_r by done. by rewrite Nat.sub_diag. }
  unfold StrTo.sign_text. cbn [app]. rewrite Ec. cbn [negb Z.eqb dollar Pos.eqb].
  assert (Er : drop (S (length ds)) (ds ++ dollar :: rest) = rest).
  { replace (S (length ds)) with (length ds + 1)%nat by lia. by rewrite <- drop_drop, drop_app_length. }
  rewrite Er. unfold StrTo.clip. rewrite Z.eqb_refl. cbn [StrTo.sign_neg default from_option id]. unfold ROUNDS_MIN, ROUNDS_MAX.
  destruct (Z.ltb_spec 9999999 (ShaCryptSpec.decimal ds)).
  - destruct (Z.ltb_spec StrTo.ULLONG_MAX (ShaCryptSpec.decimal ds)); cbn [fst]; [done|]. unfold StrTo.ULLONG_MAX in *. rewrite u64_id by lia.
    by repeat zcase; try lia.
  - destruct (Z.ltb_spec StrTo.ULLONG_MAX (ShaCryptSpec.decimal ds)); [unfold StrTo.ULLONG_MAX in *; lia|]. cbn [fst]. rewrite u64_id by lia.
    destruct (Z.ltb_spec (ShaCryptSpec.decimal ds) 1000); [by rewrite Z.max_l by lia|]. destruct (Z.ltb_spec 9999999 (ShaCryptSpec.decimal ds)); [lia|].
    rewrite u32_id by lia. by rewrite Z.max_r by lia.
Qed.
(** Reading back the text written by [rounds_text]. *)
Lemma parse_rounds_again r rest :
  ROUNDS_MIN <= r <= ROUNDS_MAX -> byte_list rest -> parse_rounds (rounds_text r ++ rest) = Some (r, rounds_text r, rest).
Proof.
  unfold ROUNDS_MIN. intros Hr Hb. destruct (rounds_text_numeral r ltac:(lia)) as (ds & E & Hd & Hne & _ & Hv).
  unfold ROUNDS_MAX in Hr. rewrite E at 1. rewrite <- !app_assoc. cbn [app]. rewrite (parse_rounds_digits ds rest) by done. rewrite Hv.
  destruct (Z.ltb_spec 9999999 r); [lia|]. by rewrite Z.max_r by lia.
Qed.

Lemma parse_rounds_inv salt r rounds salt' :
  parse_rounds salt = Some (r, rounds, salt') ->
  (r = ROUNDS_DEFAULT /\ rounds = [] /\ salt' = salt /\ take 7 salt <> rounds_eq) \/
  (ROUNDS_MIN <= r <= ROUNDS_MAX /\ rounds = rounds_text r /\ exists k, salt' = drop k salt).
Proof.
  unfold parse_rounds. assert (Hz := strncmp_at_zero salt rounds_eq ltac:(done) ltac:(repeat constructor; lia)).
  change (length rounds_eq) with 7%nat in Hz. destruct (Z.eqb_spec (strncmp_at salt rounds_eq 7) 0) as [E|N].
  - destruct (negb (StrTo.isdigit _)); [done|]. destruct (StrTo.strtoul _ _) as [[u e] er].
    destruct (negb (cstr_get _ e =? dollar)); [done|].
    destruct (Z.ltb_spec u ROUNDS_MIN); [intros [= <- <- <-]; right; split; [by unfold ROUNDS_MIN, ROUNDS_MAX|split; [done|rewrite drop_drop; by eexists]]|].
    destruct (Z.ltb_spec ROUNDS_MAX u); [done|]. unfold ROUNDS_MIN, ROUNDS_MAX in *. rewrite u32_id by lia.
    intros [= <- <- <-]. right. split; [lia|]. split; [done|]. rewrite drop_drop. by eexists.
  - intros [= <- <- <-]. left. tauto.
Qed.


(** *** A hash as the setting *)

Lemma not_rounds_again salt k rest :
  (k <= length salt)%nat -> take 7 salt <> rounds_eq -> take 7 (take k salt ++ dollar :: rest) <> rounds_eq.
Proof.
  intros Hk Hs E. destruct (Nat.le_gt_cases 7 k) as [H7|H7].
  - apply Hs. rewrite <- E. rewrite take_app_le by (rewrite length_take; lia). rewrite take_take. f_equal. lia.
  - assert (El : take 7 (take k salt ++ dollar :: rest) !! k = Some dollar).
    { rewrite lookup_take_lt by lia. rewrite lookup_app_r by (rewrite length_take; lia). rewrite length_take.
      by replace (k - Nat.min k (length salt))%nat with 0%nat by lia. }
    rewrite E in El. assert (Hin := list_elem_of_lookup_2 _ _ _ El). unfold rounds_eq, dollar in Hin.
    rewrite !elem_of_cons, elem_of_nil in Hin. lia.
Qed.

Lemma shacrypt_spec {C : Type} `{Hash C} tag emit (ctx : C) key setting :
  ready ctx -> length tag = 3%nat -> Forall (fun c => c <> 0) tag -> Forall (fun c => c <> 0) key -> byte_list key ->
  shacrypt tag emit ctx key setting = spec_crypt tag emit key setting.
Proof.
  intros R Lt Ht Hk Hkb. unfold shacrypt, spec_crypt. rewrite strnlen_list by done. rewrite Nat2Z.id.
  assert (E : (KEY_MAX <? Nat.min (length key) (KEY_MAX + 1))%nat = (KEY_MAX <? length key)%nat).
  { destruct (Nat.ltb_spec KEY_MAX (length key)), (Nat.ltb_spec KEY_MAX (Nat.min (length key) (KEY_MAX + 1))); lia || done. }
  rewrite E. destruct (Nat.ltb_spec KEY_MAX (length key)) as [|Hle]; [done|].
  assert (Hz := strncmp_at_zero setting tag ltac:(by destruct tag) Ht). rewrite Lt in Hz.
  destruct (Z.eqb_spec (strncmp_at setting tag 3) 0) as [E0|N0]; cbn [negb].
  - rewrite bool_decide_eq_true_2 by tauto. destruct (parse_rounds (drop 3 setting)) as [[[r rounds] salt]|]; [|done].
    destruct (salt_loop SALT_MAX salt 0) as [slen|]; [|done]. rewrite (take_ge key) by lia. by rewrite crypt_digest_ok.
  - rewrite bool_decide_eq_false_2 by tauto. done.
Qed.

Lemma shacrypt_again {C : Type} `{Hash C} tag emit (ctx ctx' : C) key setting out :
  ready ctx -> ready ctx' -> length tag = 3%nat -> Forall (fun c => c <> 0) tag ->
  (forall md, byte_list (emit md)) ->
  Forall (fun c => c <> 0) key -> byte_list key -> byte_list setting ->
  shacrypt tag emit ctx key setting = Some out -> shacrypt tag emit ctx' key out = Some out.
Proof.
  intros R R' Lt Ht He Hk Hkb Hsb. rewrite !shacrypt_spec by done. unfold spec_crypt.
  destruct (KEY_MAX <? length key)%nat; [done|]. case_bool_decide as Etag; [|done].
  destruct (parse_rounds (drop 3 setting)) as [[[r rounds] salt]|] eqn:Ep; [|done].
  destruct (salt_loop SALT_MAX salt 0) as [slen|] eqn:Es; [|done].
  set (md := spec_digest key (take slen salt) r). intros [= <-].
  assert (E3 : take 3 (tag ++ rounds ++ take slen salt ++ dollar :: emit md) = tag /\
               drop 3 (tag ++ rounds ++ take slen salt ++ dollar :: emit md) = rounds ++ take slen salt ++ dollar :: emit md).
  { rewrite <- Lt. by rewrite take_app_length, drop_app_length. }
  destruct E3 as [E3 D3]. cbn [app]. rewrite E3, D3, bool_decide_eq_true_2 by done.
  destruct (salt_loop_again salt (emit md) slen Es) as [Es' Hle].
  assert (Ep' : parse_rounds (rounds ++ take slen salt ++ dollar :: emit md) = Some (r, rounds, take slen salt ++ dollar :: emit md)).
  { destruct (parse_rounds_inv _ _ _ _ Ep) as [(-> & -> & -> & Hn)|(Hr & -> & k & ->)].
    - unfold parse_rounds. cbn [app]. assert (Hz := strncmp_at_zero (take slen (drop 3 setting) ++ dollar :: emit md) rounds_eq ltac:(done) ltac:(repeat constructor; lia)).
      change (length rounds_eq) with 7%nat in Hz. destruct (Z.eqb_spec (strncmp_at (take slen (drop 3 setting) ++ dollar :: emit md) rounds_eq 7) 0) as [E|N]; [|done].
      exfalso. apply (not_rounds_again _ _ (emit md) Hle Hn). by apply Hz.
    - apply parse_rounds_again; [done|]. apply byte_list_app. split; [apply byte_list_take, byte_list_drop, byte_list_drop; done|].
      constructor; [unfold dollar; lia|apply He]. }
  rewrite Ep', Es'. rewrite take_app_le by (rewrite length_take; lia). rewrite (take_ge (take slen salt)) by (rewrite length_take; lia). done.
Qed.

(** *** The text of the digest *)

Lemma b64_ok : Forall (fun c => 46 <= c < 123) b64 /\ length b64 = 64%nat /\ NoDup b64.
Proof. split; [repeat constructor; lia|]. split; [done|]. apply (bool_decide_unpack _). by vm_compute. Qed.

Lemma b64_char u : exists c, nth (Z.to_nat (u mod 64)) b64 0 = c /\ 46 <= c < 123.
Proof.
  destruct b64_ok as (F & L & _). eexists. split; [done|]. rewrite nth_lookup.
  destruct (lookup_lt_is_Some_2 b64 (Z.to_nat (u mod 64))) as (c & E); [rewrite L; zdm|]. rewrite E. exact (Forall_lookup_1 _ _ _ _ F E).
Qed.

Lemma to64_ok n : forall u, length (to64 u n) = n /\ Forall (fun c => 46 <= c < 123) (to64 u n).
Proof.
  induction n as [|n IH]; intros u; cbn [to64 length]; [done|]. destruct (IH (u / 64)) as [-> F]. split; [done|].
  constructor; [|done]. destruct (b64_char u) as (c & -> & Hc). done.
Qed.

Lemma to64_inj n : forall u v, 0 <= u < 64 ^ Z.of_nat n -> 0 <= v < 64 ^ Z.of_nat n -> to64 u n = to64 v n -> u = v.
Proof.
  induction n as [|n IH]; intros u v Hu Hv E.
  - change (64 ^ Z.of_nat 0) with 1 in *. lia.
  - rewrite Nat2Z.inj_succ, Z.pow_succ_r in Hu, Hv by lia. cbn [to64] in E.
    assert (E0 := f_equal (hd 0) E). assert (E1 := f_equal tail E). cbn [hd tail] in E0, E1. clear E.
    assert (Hq : u / 64 = v / 64).
    { apply IH; [| |exact E1]; (split; [apply Z.div_pos; lia|apply Z.div_lt_upper_bound; lia]). }
    assert (Hm : u mod 64 = v mod 64).
    { destruct b64_ok as (_ & L & ND). rewrite !nth_lookup in E0.
      destruct (lookup_lt_is_Some_2 b64 (Z.to_nat (u mod 64))) as (c & Ec); [rewrite L; zdm|].
      destruct (lookup_lt_is_Some_2 b64 (Z.to_nat (v mod 64))) as (d & Edd); [rewrite L; zdm|].
      rewrite Ec, Edd in E0. cbn in E0. subst d. assert (En := NoDup_lookup _ _ _ _ ND Ec Edd). zdm. }
    assert (Hdu := Z.div_mod u 64 ltac:(lia)). assert (Hdv := Z.div_mod v 64 ltac:(lia)). lia.
Qed.

Lemma pack3 a b c : 0 <= a < 256 -> 0 <= b < 256 -> 0 <= c < 256 ->
  Z.lor (Z.lor (Z.shiftl a 16) (Z.shiftl b 8)) c = a * 65536 + b * 256 + c.
Proof.
  intros Ha Hb Hc. rewrite (Z.lor_comm (Z.shiftl a 16)), Z.lor_comm.
  assert (E : Z.lor (Z.shiftl b 8) (Z.shiftl a 16) = Z.shiftl (b + a * 256) 8).
  { change 16 with (8 + 8). rewrite <- Z.shiftl_shiftl by lia. rewrite <- Z.shiftl_lor. f_equal. by rewrite lor_shiftl_add by lia. }
  rewrite E, lor_shiftl_add by lia. lia.
Qed.

Lemma nth_byte md i : byte_list md -> 0 <= nth i md 0 < 256.
Proof. intros Hm. rewrite nth_lookup. destruct (md !! i) as [c|] eqn:E; cbn; [exact (Forall_lookup_1 _ _ _ _ Hm E)|lia]. Qed.

Lemma length_triple md p : length (triple md p) = 4%nat.
Proof. destruct p as [[a b] c]. apply to64_ok. Qed.

Lemma triples_inj md md' l :
  byte_list md -> byte_list md' -> concat (map (triple md) l) = concat (map (triple md') l) ->
  Forall (fun p => nth p.1.1 md 0 = nth p.1.1 md' 0 /\ nth p.1.2 md 0 = nth p.1.2 md' 0 /\ nth p.2 md 0 = nth p.2 md' 0) l.
Proof.
  intros Hm Hm'. induction l as [|[[a b] c] l IH]; intros E; [done|]. cbn [map concat] in E.
  apply app_inj_1 in E as [E1 E2]; [|by rewrite !length_triple]. constructor; [|by apply IH].
  cbn [fst snd]. unfold triple in E1. assert (Ha := nth_byte md a Hm). assert (Hb := nth_byte md b Hm). assert (Hc := nth_byte md c Hm).
  assert (Ha' := nth_byte md' a Hm'). assert (Hb' := nth_byte md' b Hm'). assert (Hc' := nth_byte md' c Hm').
  rewrite !pack3 in E1 by done. apply to64_inj in E1; [lia|change (64 ^ Z.of_nat 4) with 16777216; lia|change (64 ^ Z.of_nat 4) with 16777216; lia].
Qed.

Lemma emit_bytes md l tl : Forall (fun c => 46 <= c < 123) tl -> byte_list (concat (map (triple md) l) ++ tl).
Proof.
  intros Ht. apply byte_list_app. split; [|revert Ht; apply Forall_impl; lia].
  induction l as [|[[a b] c] l IH]; [constructor|]. cbn [map concat]. apply byte_list_app. split; [|done].
  unfold triple. set (u := Z.lor _ _). assert (F := proj2 (to64_ok 4 u)). revert F. apply Forall_impl. lia.
Qed.

Lemma emit256_bytes md : byte_list (emit256 md).
Proof. unfold emit256. apply (emit_bytes md perm256). exact (proj2 (to64_ok 3 _)). Qed.
Lemma emit512_bytes md : byte_list (emit512 md).
Proof. unfold emit512. apply (emit_bytes md perm512). exact (proj2 (to64_ok 2 _)). Qed.

Lemma nth_list_eq (md md' : list Z) n :
  length md = n -> length md' = n -> (forall i, (i < n)%nat -> nth i md 0 = nth i md' 0) -> md = md'.
Proof. intros L L' Hn. apply (List.nth_ext _ _ 0 0); [lia|]. intros i Hi. apply Hn. lia. Qed.

(** The positions of the output permutation. *)
Definition positions (l : list (nat * nat * nat)) : list nat := concat (map (fun p => [p.1.1; p.1.2; p.2]) l).

Lemma covered (md md' : list Z) l i :
  Forall (fun p : nat * nat * nat => nth p.1.1 md 0 = nth p.1.1 md' 0 /\ nth p.1.2 md 0 = nth p.1.2 md' 0 /\ nth p.2 md 0 = nth p.2 md' 0) l ->
  In i (positions l) -> nth i md 0 = nth i md' 0.
Proof.
  intros F. induction l as [|[[a b] c] l IH]; intros Hi; [done|]. assert (Hp := Forall_inv F). cbn [fst snd] in Hp.
  unfold positions in Hi. cbn [map concat fst snd] in Hi. apply in_app_or in Hi as [Hi|Hi].
  - cbn [In] in Hi. destruct Hp as (E1 & E2 & E3). by destruct Hi as [<-|[<-|[<-|[]]]].
  - apply IH; [exact (Forall_inv_tail F)|done].
Qed.

Lemma emit256_inj md md' :
  byte_list md -> byte_list md' -> length md = 32%nat -> length md' = 32%nat -> emit256 md = emit256 md' -> md = md'.
Proof.
  intros Hm Hm' L L' E. apply app_inj_2 in E as [E1 E2]; [|by rewrite !(fun u => proj1 (to64_ok 3 u))].
  assert (F := triples_inj md md' perm256 Hm Hm' E1). apply (nth_list_eq _ _ 32 L L'). intros i Hi.
  assert (B : forall k, 0 <= nth k md 0 < 256 /\ 0 <= nth k md' 0 < 256) by (intros k; split; by apply nth_byte).
  assert (H30 := B 30%nat). assert (H31 := B 31%nat).
  rewrite !(Z.lor_comm (Z.shiftl _ 8)), !lor_shiftl_add in E2 by (lia || done).
  apply to64_inj in E2; [|change (64 ^ Z.of_nat 3) with 262144; lia|change (64 ^ Z.of_nat 3) with 262144; lia].
  assert (Hcov : forallb (fun i => (i =? 30)%nat || (i =? 31)%nat || existsb (Nat.eqb i) (positions perm256)) (seq 0 32) = true)
    by (vm_compute; reflexivity).
  apply forallb_forall with (x := i) in Hcov; [|apply in_seq; lia].
  apply orb_prop in Hcov as [[->%Nat.eqb_eq| ->%Nat.eqb_eq]%orb_prop|Hcov]; [lia|lia|].
  apply existsb_exists in Hcov as (j & Hj & ->%Nat.eqb_eq). by apply (covered _ _ perm256).
Qed.

Lemma emit512_inj md md' :
  byte_list md -> byte_list md' -> length md = 64%nat -> length md' = 64%nat -> emit512 md = emit512 md' -> md = md'.
Proof.
  intros Hm Hm' L L' E. apply app_inj_2 in E as [E1 E2]; [|by rewrite !(fun u => proj1 (to64_ok 2 u))].
  assert (F := triples_inj md md' perm512 Hm Hm' E1). apply (nth_list_eq _ _ 64 L L'). intros i Hi.
  assert (H63 := nth_byte md 63 Hm). assert (H63' := nth_byte md' 63 Hm').
  apply to64_inj in E2; [|change (64 ^ Z.of_nat 2) with 4096; lia|change (64 ^ Z.of_nat 2) with 4096; lia].
  assert (Hcov : forallb (fun i => (i =? 63)%nat || existsb (Nat.eqb i) (positions perm512)) (seq 0 64) = true)
    by (vm_compute; reflexivity).
  apply forallb_forall with (x := i) in Hcov; [|apply in_seq; lia].
  apply orb_prop in Hcov as [->%Nat.eqb_eq|Hcov]; [done|].
  apply existsb_exists in Hcov as (j & Hj & ->%Nat.eqb_eq). by apply (covered _ _ perm512).
Qed.


Lemma spec_digest_ok {C : Type} `{Hash C} key salt r :
  byte_list (spec_digest key salt r) /\ length (spec_digest key salt r) = dsize.
Proof.
  unfold spec_digest. set (A := digest _). generalize 0 at 2 4. revert A.
  assert (G : forall n i A klen slen kmd smd, byte_list A /\ length A = dsize ->
    byte_list (spec_rounds n i klen slen A kmd smd) /\ length (spec_rounds n i klen slen A kmd smd) = dsize).
  { induction n as [|n IH]; intros i A klen slen kmd smd HA; [done|]. cbn [spec_rounds]. apply IH.
    split; [apply digest_bytes|apply length_digest]. }
  intros A z. apply G. split; [apply digest_bytes|apply length_digest].
Qed.

(** ** The code meets the specification *)

Lemma take_drop_keyword s : take 7 s = rounds_eq -> s = rounds_eq ++ drop 7 s.
Proof. intros E. by rewrite <- E, take_drop. Qed.

(** The digits in front of a text. *)
Lemma digits_split t : byte_list t -> StrTo.isdigit (cstr_get t 0) = true ->
  exists ds rest, t = ds ++ rest /\ ds <> [] /\ Forall ShaCryptSpec.digit ds /\ StrTo.isdigit (cstr_get rest 0) = false.
Proof.
  assert (D : forall c, 0 <= c < 256 -> StrTo.isdigit c = true -> ShaCryptSpec.digit c).
  { intros c Hc Hd. unfold StrTo.isdigit, ShaCryptSpec.digit in *. apply Z.ltb_lt in Hd. unfold u32 in Hd. zdm. }
  induction t as [|c t IH]; intros Hb H0; [discriminate H0|]. apply byte_list_cons in Hb as [Hc Hb].
  change (cstr_get (c :: t) 0) with c in H0. destruct (StrTo.isdigit (cstr_get t 0)) eqn:E.
  - destruct (IH Hb eq_refl) as (ds & rest & -> & Hn & Hd & Hr). exists (c :: ds), rest. split_and!; [done|done| |done]. constructor; [by apply D|done].
  - exists [c], t. split_and!; [done|done| |done]. repeat constructor; by apply D.
Qed.

Lemma parse_rounds_field s r shown rest : byte_list s ->
  parse_rounds s = Some (r, shown, rest) <-> ShaCryptSpec.rounds_field s r shown rest.
Proof.
  intros Hb. assert (Hz := strncmp_at_zero s rounds_eq ltac:(done) ltac:(repeat constructor; lia)). change (length rounds_eq) with 7%nat in Hz. split.
  - intros E. destruct (decide (take 7 s = rounds_eq)) as [E7|N7].
    + pose proof (take_drop_keyword s E7) as Es. set (t := drop 7 s) in *. rewrite Es in Hb. apply byte_list_app in Hb as [_ Hb].
      pose proof E as E'. unfold parse_rounds in E'. rewrite (proj2 Hz E7) in E'. cbn [Z.eqb] in E'. fold t in E'.
      destruct (StrTo.isdigit (cstr_get t 0)) eqn:E0; [|discriminate E']. cbn [negb] in E'.
      destruct (digits_split t Hb E0) as (ds & tail & Et & Hn & Hd & Ht). destruct (digit_byte ds Hd) as [Hd' _].
      assert (Hr : StrTo.is_digit 10 (cstr_get tail 0) = false).
      { rewrite <- (proj1 (StrTo.digit_val (cstr_get tail 0) ltac:(rewrite Et in Hb; apply byte_list_app in Hb as [_ Hb']; by apply StrTo.cstr_byte))). done. }
      assert (Hs := StrTo.strtox_spec [] None ds tail 10 10 ds StrTo.ULLONG_MAX (StrTo.num_plain 10 tail ds ltac:(lia) Hn ltac:(lia)) (or_introl eq_refl) Hr).
      change ([] ++ StrTo.sign_text None ++ ds ++ tail) with (ds ++ tail) in Hs. rewrite <- Et in Hs. specialize (Hs Hb (Forall_nil_2 _) Hd').
      unfold StrTo.strtoul in E'. rewrite Hs in E'. cbv zeta in E'. cbn [fst snd app] in E'. change (length (StrTo.sign_text None ++ ds)) with (length ds) in E'.
      destruct tail as [|c tail].
      { assert (Ec : cstr_get t (length ds) = 0) by (rewrite Et, app_nil_r; apply CString.cstr_get_end). rewrite Ec in E'. discriminate E'. }
      assert (Ec : cstr_get t (length ds) = c) by (rewrite Et; unfold cstr_get; rewrite lookup_app_r by done; by rewrite Nat.sub_diag).
      rewrite Ec in E'. destruct (Z.eqb_spec c dollar) as [Edol|]; [clear E'|discriminate E']. clear Ec. subst c.
      rewrite Et in Hb. apply byte_list_app in Hb as [_ [_ Hb]%byte_list_cons]. rewrite Es, Et in E |- *. rewrite parse_rounds_digits in E by done.
      destruct (Z.ltb_spec 9999999 (ShaCryptSpec.decimal ds)) as [|Hle]; [discriminate E|]. cbv zeta in E. injection E as <- <- <-.
      destruct (rounds_text_numeral (Z.max 1000 (ShaCryptSpec.decimal ds))) as (txt & -> & Hnum); [unfold ROUNDS_MAX; lia|]. by apply ShaCryptSpec.rounds_given.
    + unfold parse_rounds in E. destruct (Z.eqb_spec (strncmp_at s rounds_eq 7) 0); [tauto|]. injection E as <- <- <-. by apply ShaCryptSpec.rounds_default.
  - clear Hz. intros F. revert Hb. destruct F as [s N7|ds shown rest Hn Hd Hle Hnum]; intros Hb.
    + unfold parse_rounds. destruct (Z.eqb_spec (strncmp_at s rounds_eq 7) 0) as [E|]; [|done].
      exfalso. apply N7. by apply (strncmp_at_zero s rounds_eq ltac:(done) ltac:(repeat constructor; lia)) in E.
    + apply byte_list_app in Hb as [_ [_ [_ Hb]%byte_list_cons]%byte_list_app]. change ShaCryptSpec.keyword with rounds_eq. change ShaCryptSpec.dollar with dollar.
      rewrite parse_rounds_digits by done. destruct (Z.ltb_spec 9999999 (ShaCryptSpec.decimal ds)); [lia|]. cbv zeta.
      by rewrite (numeral_rounds_text _ shown) by (unfold ROUNDS_MAX; first [done|lia]).
Qed.

(** *** The salt *)
Lemma salt_loop_field s salt : ShaCryptSpec.salt_field s salt <-> exists k, salt_loop SALT_MAX s 0 = Some k /\ salt = take k s.
Proof.
  split.
  - intros (rest & -> & F & L & E). exists (length salt). rewrite take_app_length. split; [|done]. apply salt_loop_spec. split; [unfold SALT_MAX; lia|]. split.
    + intros j Hj. unfold cstr_get. rewrite lookup_app_l by lia. destruct (lookup_lt_is_Some_2 salt j ltac:(lia)) as [c Ec]. rewrite Ec. exact (Forall_lookup_1 _ _ _ _ F Ec).
    + assert (Er : cstr_get (salt ++ rest) (length salt) = hd 0 rest).
      { unfold cstr_get. rewrite lookup_app_r by done. rewrite Nat.sub_diag. by destruct rest. }
      rewrite Er. destruct E as [E|E]; [left; unfold SALT_MAX; lia|by right].
  - intros (k & E & ->). assert (Hk := proj2 (salt_loop_again s [] k E)). apply salt_loop_spec in E as (H1 & H2 & H3).
    exists (drop k s). split; [by rewrite take_drop|]. rewrite length_take. unfold SALT_MAX in *. split; [|split; [lia|]].
    + apply Forall_lookup_2. intros j c Ec. apply lookup_take_Some in Ec as [Ec Hj]. specialize (H2 j ltac:(lia)). unfold cstr_get in H2. rewrite Ec in H2. exact H2.
    + assert (Er : cstr_get s k = hd 0 (drop k s)).
      { unfold cstr_get. rewrite <- (Nat.add_0_r k) at 1. rewrite <- lookup_drop. by destruct (drop k s). }
      rewrite <- Er. destruct H3 as [H3|H3]; [left; lia|by right].
Qed.

(** *** The text of the digest *)
Lemma b64_letter v : 0 <= v < 64 -> nth (Z.to_nat v) b64 0 = ShaCryptSpec.letter v.
Proof.
  intros Hv. assert (E : forallb (fun v => nth (Z.to_nat v) b64 0 =? ShaCryptSpec.letter v) (seqZ 0 64) = true) by (vm_compute; reflexivity).
  rewrite forallb_forall in E. apply Z.eqb_eq, E, list_elem_of_In, elem_of_seqZ. lia.
Qed.
Lemma to64_letters n u : to64 u n = ShaCryptSpec.letters n u.
Proof. revert u. induction n as [|n IH]; intros u; cbn [to64 ShaCryptSpec.letters]; [done|]. rewrite IH, b64_letter; [done|zdm]. Qed.
Lemma triple_letters md a b c : byte_list md -> triple md (a, b, c) = ShaCryptSpec.letters 4 (65536 * nth a md 0 + 256 * nth b md 0 + nth c md 0).
Proof. intros Hm. unfold triple. rewrite pack3 by (by apply nth_byte). rewrite to64_letters. f_equal. lia. Qed.
(** The table of positions is the rule. *)
Definition positions_by (third dir i : Z) : nat * nat * nat :=
  let p j := Z.to_nat (i + third * ((j + dir * i) mod 3)) in (p 0, p 1, p 2).
Lemma triples_encode md third dir n : byte_list md -> map (triple md) (positions_by third dir <$> seqZ 0 n) = ShaCryptSpec.group third dir md <$> seqZ 0 n.
Proof. intros Hm. rewrite <- list_fmap_compose. apply map_ext. intros i. cbn [compose]. unfold positions_by, ShaCryptSpec.group. by rewrite triple_letters. Qed.
Lemma emit256_encode md : byte_list md -> emit256 md = ShaCryptSpec.encode256 md.
Proof.
  intros Hm. unfold emit256, ShaCryptSpec.encode256. rewrite <- triples_encode by done. change (positions_by 10 (-1) <$> seqZ 0 10) with perm256.
  rewrite to64_letters. do 2 f_equal. rewrite Z.lor_comm, lor_shiftl_add by (lia || by apply nth_byte). lia.
Qed.
Lemma emit512_encode md : byte_list md -> emit512 md = ShaCryptSpec.encode512 md.
Proof. intros Hm. unfold emit512, ShaCryptSpec.encode512. rewrite <- triples_encode by done. change (positions_by 21 1 <$> seqZ 0 21) with perm512. by rewrite to64_letters. Qed.

(** *** The whole function *)
Section Text.
Context {C : Type} `{Hash C} (tag : list Z) (emit encode : list Z -> list Z).
Context (Lt : length tag = 3%nat) (Ht : Forall (fun c => c <> 0) tag) (Hencode : forall md, byte_list md -> emit md = encode md).

Lemma setting_of_parsed setting r shown salt : byte_list setting ->
  ShaCryptSpec.setting_of tag setting r shown salt <->
    take 3 setting = tag /\ exists rest k, parse_rounds (drop 3 setting) = Some (r, shown, rest) /\ salt_loop SALT_MAX rest 0 = Some k /\ salt = take k rest.
Proof.
  intros Hb. split.
  - intros (s & rest & -> & Hr & Hs). rewrite <- Lt, take_app_length, drop_app_length. split; [done|]. apply salt_loop_field in Hs as (k & E & ->).
    exists rest, k. split; [|done]. apply parse_rounds_field; [|done]. by apply byte_list_app in Hb as [_ Hb].
  - intros (E3 & rest & k & Ep & Es & ->). exists (drop 3 setting), rest. split; [by rewrite <- E3, take_drop|].
    split; [apply parse_rounds_field; [by apply byte_list_drop|done]|]. apply salt_loop_field. by exists k.
Qed.
Lemma setting_of_unique setting r shown salt r' shown' salt' : byte_list setting ->
  ShaCryptSpec.setting_of tag setting r shown salt -> ShaCryptSpec.setting_of tag setting r' shown' salt' -> r = r' /\ shown = shown' /\ salt = salt'.
Proof.
  intros Hb (_ & rest & k & E1 & E2 & ->)%setting_of_parsed (_ & rest' & k' & E1' & E2' & ->)%setting_of_parsed; [|done..].
  rewrite E1' in E1. injection E1 as -> -> ->. rewrite E2' in E2. by injection E2 as ->.
Qed.

Lemma shacrypt_text (ctx : C) key setting out : ready ctx -> Forall (fun c => c <> 0) key -> byte_list key -> byte_list setting ->
  shacrypt tag emit ctx key setting = Some out <-> ShaCryptSpec.hash_text tag encode key setting out.
Proof.
  intros R Hk Hkb Hb. rewrite shacrypt_spec by done. unfold spec_crypt, ShaCryptSpec.hash_text. split.
  - destruct (Nat.ltb_spec KEY_MAX (length key)); [done|]. case_bool_decide as E3; [|done].
    destruct (parse_rounds (drop 3 setting)) as [[[r shown] rest]|] eqn:Ep; [|done]. destruct (salt_loop SALT_MAX rest 0) as [k|] eqn:Es; [|done].
    intros [= <-]. split; [done|]. exists r, shown, (take k rest). split; [apply setting_of_parsed; [done|]; split; [done|]; by exists rest, k|].
    by rewrite Hencode by apply spec_digest_ok.
  - intros (Hl & r & shown & salt & (E3 & rest & k & Ep & Es & ->)%setting_of_parsed & ->); [|done].
    destruct (Nat.ltb_spec KEY_MAX (length key)); [unfold KEY_MAX in *; lia|]. rewrite bool_decide_eq_true_2, Ep, Es by done.
    by rewrite Hencode by apply spec_digest_ok.
Qed.

Lemma hash_text_digest key key' setting r shown salt out :
  (forall md md', byte_list md -> byte_list md' -> length md = dsize -> length md' = dsize -> emit md = emit md' -> md = md') ->
  byte_list setting -> ShaCryptSpec.setting_of tag setting r shown salt ->
  ShaCryptSpec.hash_text tag encode key setting out -> ShaCryptSpec.hash_text tag encode key' setting out ->
  spec_digest key salt r = spec_digest key' salt r.
Proof.
  intros Hinj Hb Hs (_ & r1 & sh1 & sa1 & Hs1 & ->) (_ & r2 & sh2 & sa2 & Hs2 & E).
  destruct (setting_of_unique _ _ _ _ _ _ _ Hb Hs Hs1) as (<- & <- & <-). destruct (setting_of_unique _ _ _ _ _ _ _ Hb Hs Hs2) as (<- & <- & <-).
  do 4 apply app_inv_head in E. destruct (spec_digest_ok key salt r), (spec_digest_ok key' salt r).
  apply Hinj; try done. by rewrite !Hencode by done.
Qed.
End Text.

(** ** Properties *)

Definition tag256 : list Z := [36; 53; 36].
Definition tag512 : list Z := [36; 54; 36].
Lemma tags_ok : Forall (fun c => c <> 0) tag256 /\ Forall (fun c => c <> 0) tag512.
Proof. split; repeat constructor; lia. Qed.


Definition ctx256 : Sha256.sha256 := mkCtx 0 Sha256.h0 (replicate 64 0).
Definition ctx512 : Sha512.sha512 := mkCtx 0 Sha512.h0 (replicate 128 0).
Lemma testkey_ok : Forall (fun c => c <> 0) testkey /\ byte_list testkey.
Proof. split; repeat constructor; lia. Qed.

(** A setting with another tag, and one that asks for 1007 rounds, "$6$rounds=01007$a". *)
Definition rounds1007 : list Z := tag512 ++ rounds_eq ++ [48; 49; 48; 48; 55] ++ dollar :: [97].
Lemma rounds1007_bytes : byte_list rounds1007.
Proof. unfold rounds1007, tag512, rounds_eq, dollar. cbn [app]. repeat (constructor; [lia|]). constructor. Qed.
Lemma rounds1007_setting : ShaCryptSpec.setting_of tag512 rounds1007 1007 (rounds_eq ++ [49; 48; 48; 55] ++ [dollar]) [97].
Proof.
  exists (rounds_eq ++ [48; 49; 48; 48; 55] ++ dollar :: [97]), [97]. split; [done|]. split.
  - apply (ShaCryptSpec.rounds_given [48; 49; 48; 48; 55] [49; 48; 48; 55] [97]); [done|repeat constructor; unfold ShaCryptSpec.digit; lia|vm_compute; discriminate|].
    split; [repeat constructor; unfold ShaCryptSpec.digit; lia|]. split; [done|]. split; [done|]. reflexivity.
  - exists []. split; [done|]. split; [by repeat constructor|]. split; [cbn; lia|]. right. by left.
Qed.

(** C19: A hash serves as the setting of its own check: whatever the setting
    was (with or without the number of rounds, with a salt of any length,
    clipped or not), hashing the key again with the returned text as the
    setting returns the same text. *)
Theorem sha_crypt_verifies (c c' : Sha256.sha256) (d d' : Sha512.sha512) key setting :
  length (buf c) = 64%nat -> length (buf c') = 64%nat -> length (buf d) = 128%nat -> length (buf d') = 128%nat ->
  Forall (fun x => x <> 0) key -> byte_list key -> byte_list setting ->
  (forall out, sha256crypt c key setting = Some out -> sha256crypt c' key out = Some out) /\
  (forall out, sha512crypt d key setting = Some out -> sha512crypt d' key out = Some out).
Proof.
  intros R1 R1' R2 R2' Hk Hkb Hs. destruct tags_ok as [T1 T2]. split; intros out.
  - apply (shacrypt_again (H := Sha256.sha256_hash)); try done. apply emit256_bytes.
  - apply (shacrypt_again (H := Sha512.sha512_hash)); try done. apply emit512_bytes.
Qed.

Lemma sha_crypt_verifies_witness :
  exists out, sha256crypt ctx256 testkey (testsetting tag256) = Some out /\ sha256crypt ctx256 testkey out = Some out.
Proof.
  destruct (sha_crypt_verifies ctx256 ctx256 ctx512 ctx512 testkey (testsetting tag256)) as [V _].
  - reflexivity.
  - reflexivity.
  - reflexivity.
  - reflexivity.
  - apply testkey_ok.
  - apply testkey_ok.
  - repeat constructor; lia.
  - assert (E : sha256crypt ctx256 testkey (testsetting tag256) =
        spec_crypt (H := Sha256.sha256_hash) tag256 emit256 testkey (testsetting tag256)).
    { apply (shacrypt_spec (H := Sha256.sha256_hash)); try reflexivity; try apply testkey_ok. apply tags_ok. }
    unfold spec_crypt in E.
    assert (P : parse_rounds (drop 3 (testsetting tag256)) =
      Some (1234, rounds_text 1234, [97; 98; 99; 48; 49; 50; 51; 52; 53; 54; 55; 56; 57; 36])) by (vm_compute; reflexivity).
    assert (S : salt_loop SALT_MAX [97; 98; 99; 48; 49; 50; 51; 52; 53; 54; 55; 56; 57; 36] 0 = Some 13%nat) by (vm_compute; reflexivity).
    rewrite P, S in E. eexists. split; [exact E|]. apply V. exact E.
Defined.


End ShaCrypt.
