(* ===== verification/Md5Crypt.v ===== *)
(** Password hashing with MD5 (musl src/crypt/crypt_md5.c: md5crypt,
    __crypt_md5), over the interface [Hash]. *)

From stdpp Require Import base tactics list numbers option.
From Stdlib Require Import ZArith Lia.
From S2P Require Import Prelude HashStream CString Md5 ShaCrypt.

#[local] Open Scope Z_scope.

Module Md5Crypt.
Import Prelude HashStream.
Import ShaCrypt(to64, dollar, triple, strncmp_at, positions).

Definition KEY_MAX : nat := Z.to_nat 30000.
Definition SALT_MAX : nat := 8.

(** [for (i = 0; i < SALT_MAX && salt[i] && salt[i] != '$'; i++)] *)
Fixpoint salt_loop (fuel : nat) (salt : list Z) (i : nat) : nat :=
  match fuel with
  | O => i
  | S fuel' =>
    let c := cstr_get salt i in
    if (c =? 0) || (c =? dollar) then i else salt_loop fuel' salt (S i)
  end.

Section Crypt.
Context {C : Type} `{Hash C}.

(** [for (i = klen; i > sizeof md; i -= sizeof md)] and the update after it. *)
Fixpoint repeat_md (fuel : nat) (s : C) (n : nat) (md : list Z) : C :=
  match fuel with
  | O => s
  | S fuel' =>
    if (16 <? n)%nat then repeat_md fuel' (hupdate s (take 16 md)) (n - 16) md else hupdate s (take n md)
  end.

(** [for (i = klen; i; i >>= 1)]: the byte [md[0]], now 0, or the first byte
    of the key. *)
Fixpoint bits_loop (fuel : nat) (ctx : C) (i : Z) (md key : list Z) : C :=
  match fuel with
  | O => ctx
  | S fuel' =>
    if negb (i =? 0) then
      let ctx := if negb (Z.land i 1 =? 0) then hupdate ctx (take 1 md) else hupdate ctx (take 1 key) in
      bits_loop fuel' ctx (Z.shiftr i 1) md key
    else ctx
  end.

Definition crypt_round (ctx : C) (i : Z) (key salt md : list Z) : C * list Z :=
  let ctx := hinit ctx in
  let ctx := if negb (i mod 2 =? 0) then hupdate ctx key else hupdate ctx (take 16 md) in
  let ctx := if negb (i mod 3 =? 0) then hupdate ctx salt else ctx in
  let ctx := if negb (i mod 7 =? 0) then hupdate ctx key else ctx in
  let ctx := if negb (i mod 2 =? 0) then hupdate ctx (take 16 md) else hupdate ctx key in
  hsum ctx.

Fixpoint rounds_loop (r : nat) (i : Z) (ctx : C) (key salt md : list Z) : list Z :=
  match r with
  | O => md
  | S r' =>
    let (ctx, md) := crypt_round ctx i key salt md in
    rounds_loop r' (i + 1) ctx key salt md
  end.

Definition crypt_digest (ctx : C) (key salt setting : list Z) : list Z :=
  let klen := length key in
  let ctx := hinit ctx in
  let ctx := hupdate ctx key in
  let ctx := hupdate ctx salt in
  let ctx := hupdate ctx key in
  let (ctx, md) := hsum ctx in
  let ctx := hinit ctx in
  let ctx := hupdate ctx key in
  let ctx := hupdate ctx (take (3 + length salt) setting) in
  let ctx := repeat_md (S klen) ctx klen md in
  let md := <[0%nat := 0]> md in
  let ctx := bits_loop (S klen) ctx (Z.of_nat klen) md key in
  let (ctx, md) := hsum ctx in
  rounds_loop 1000 0 ctx key salt md.

Definition md5crypt_with (emit : list Z -> list Z) (ctx : C) (key setting : list Z) : option (list Z) :=
  let klen := Z.to_nat (CString.strnlen (CString.rd_list key) 0 (KEY_MAX + 1)) in
  if (KEY_MAX <? klen)%nat then None
  else if negb (strncmp_at setting [36; 49; 36] 3 =? 0) then None
  else
    let salt := drop 3 setting in
    let slen := salt_loop SALT_MAX salt 0 in
    let md := crypt_digest ctx (take klen key) (take slen salt) setting in
    Some (take (3 + slen) setting ++ [dollar] ++ emit md).

End Crypt.

Definition perm : list (nat * nat * nat) := [(0, 6, 12); (1, 7, 13); (2, 8, 14); (3, 9, 15); (4, 10, 5)]%nat.
Definition emit (md : list Z) : list Z := concat (map (triple md) perm) ++ to64 (nth 11 md 0) 2.

Definition md5crypt (ctx : Md5.md5) : list Z -> list Z -> option (list Z) :=
  md5crypt_with (H := Md5.md5_hash) emit ctx.

(** "$1$abcd0123$" and "$1$abcd0123$9Qcg8DyviekV3tDGMZynJ1" *)
Definition testsetting : list Z := [36; 49; 36; 97; 98; 99; 100; 48; 49; 50; 51; 36].
Definition testhash : list Z := testsetting ++
  [57; 81; 99; 103; 56; 68; 121; 118; 105; 101; 107; 86; 51; 116; 68; 71; 77; 90; 121; 110; 74; 49].

Definition __crypt_md5 (ctx : Md5.md5) (key setting : list Z) : list Z :=
  let p := md5crypt ctx key setting in
  let q := md5crypt ctx ShaCrypt.testkey testsetting in
  match p with
  | Some p => if bool_decide (q = Some testhash) then p else [42]
  | None => [42]
  end.

(** [__crypt_r] (src/crypt/crypt_r.c): the choice of the function; the
    functions are arguments. *)
Definition __crypt_r (md5 blowfish sha256 sha512 des : list Z -> list Z -> list Z) (key salt : list Z) : list Z :=
  let c := cstr_get salt in
  if (c 0%nat =? 36) && negb (c 1%nat =? 0) && negb (c 2%nat =? 0) then
    if (c 1%nat =? 49) && (c 2%nat =? 36) then md5 key salt
    else if (c 1%nat =? 50) && (c 3%nat =? 36) then blowfish key salt
    else if (c 1%nat =? 53) && (c 2%nat =? 36) then sha256 key salt
    else if (c 1%nat =? 54) && (c 2%nat =? 36) then sha512 key salt
    else des key salt
  else des key salt.


(** ** The specification in terms of the digest *)

Section Spec.
Context {C : Type} `{Hash C} (H16 : dsize = 16%nat).

Fixpoint cyc (fuel n : nat) (md : list Z) : list Z :=
  match fuel with
  | O => []
  | S fuel' => if (16 <? n)%nat then md ++ cyc fuel' (n - 16) md else take n md
  end.

(** The bits of [i], from the lowest, as a zero byte or the first byte of
    the key. *)
Fixpoint bits_text (fuel : nat) (i : Z) (key : list Z) : list Z :=
  match fuel with
  | O => []
  | S fuel' => if i =? 0 then [] else (if Z.odd i then [0] else take 1 key) ++ bits_text fuel' (i / 2) key
  end.

Definition round_text (i : Z) (key salt md : list Z) : list Z :=
  (if Z.odd i then key else md) ++ (if i mod 3 =? 0 then [] else salt) ++ (if i mod 7 =? 0 then [] else key) ++
  (if Z.odd i then md else key).

Fixpoint spec_rounds (r : nat) (i : Z) (key salt md : list Z) : list Z :=
  match r with
  | O => md
  | S r' => spec_rounds r' (i + 1) key salt (digest (round_text i key salt md))
  end.

(** [pre] is the part of the setting that is hashed and repeated: tag and
    salt. *)
Definition spec_digest (key salt pre : list Z) : list Z :=
  let klen := length key in
  let B := digest (key ++ salt ++ key) in
  spec_rounds 1000 0 key salt (digest (key ++ pre ++ cyc (S klen) klen B ++ bits_text (S klen) (Z.of_nat klen) key)).

Definition spec_crypt (emit : list Z -> list Z) (key setting : list Z) : option (list Z) :=
  if (KEY_MAX <? length key)%nat then None
  else if bool_decide (take 3 setting = [36; 49; 36]) then
    let slen := salt_loop SALT_MAX (drop 3 setting) 0 in
    let pre := take (3 + slen) setting in
    Some (pre ++ [dollar] ++ emit (spec_digest key (take slen (drop 3 setting)) pre))
  else None.

Lemma repeat_md_ok fuel : forall s m n md,
  absorbed s m -> (n < fuel)%nat -> length md = 16%nat -> absorbed (repeat_md fuel s n md) (m ++ cyc fuel n md).
Proof.
  induction fuel as [|fuel IH]; intros s m n md A Hn Hl; [lia|]. cbn [repeat_md cyc].
  destruct (Nat.ltb_spec 16 n) as [Hlt|Hge]; [|by apply hupdate_ok].
  rewrite take_ge by lia. rewrite app_assoc. apply IH; [by apply hupdate_ok|lia|done].
Qed.

Lemma bits_md_ok fuel : forall s m i md key,
  absorbed s m -> take 1 md = [0] -> absorbed (bits_loop fuel s i md key) (m ++ bits_text fuel i key).
Proof.
  induction fuel as [|fuel IH]; intros s m i md key A Hl; cbn [bits_loop bits_text]; [by rewrite app_nil_r|].
  destruct (i =? 0); cbn [negb]; [by rewrite app_nil_r|].
  assert (Eo : negb (Z.land i 1 =? 0) = Z.odd i).
  { change 1 with (Z.ones 1). rewrite Z.land_ones by lia. change (2 ^ 1) with 2. apply ShaCrypt.odd_mod. }
  rewrite Eo, Hl, app_assoc. rewrite Z.shiftr_div_pow2 by lia. apply IH; [|done].
  destruct (Z.odd i); by apply hupdate_ok.
Qed.

Lemma md_round_ok s i key salt md :
  ready s -> length md = 16%nat ->
  exists s', crypt_round s i key salt md = (s', digest (round_text i key salt md)) /\ ready s'.
Proof.
  intros R Hm. unfold crypt_round, round_text. apply ShaCrypt.hsum_pair. rewrite !ShaCrypt.odd_mod.
  assert (Hmd : take 16 md = md) by (apply take_ge; lia). rewrite Hmd. assert (A0 := hinit_ok s R).
  assert (Hopt : forall (b : bool) c m x, absorbed c m -> absorbed (if negb b then hupdate c x else c) (m ++ (if b then [] else x))).
  { intros b c m x A. destruct b; cbn [negb]; [by rewrite app_nil_r|by apply hupdate_ok]. }
  assert (Hsel : forall (b : bool) c m x y, absorbed c m -> absorbed (if b then hupdate c x else hupdate c y) (m ++ (if b then x else y))).
  { intros b c m x y A. destruct b; by apply hupdate_ok. }
  rewrite !app_assoc. apply Hsel, Hopt, Hopt. by apply (Hsel _ _ []).
Qed.

Lemma md_rounds_ok r : forall i s key salt md,
  ready s -> length md = 16%nat -> rounds_loop r i s key salt md = spec_rounds r i key salt md.
Proof.
  induction r as [|r IH]; intros i s key salt md R Hm; cbn [rounds_loop spec_rounds]; [done|].
  destruct (md_round_ok s i key salt md R Hm) as (s' & -> & R'). apply IH; [done|]. by rewrite length_digest.
Qed.

Lemma md_digest_ok s key salt setting :
  ready s -> crypt_digest s key salt setting = spec_digest key salt (take (3 + length salt) setting).
Proof.
  intros R. unfold crypt_digest, spec_digest. set (klen := length key). set (pre := take (3 + length salt) setting).
  destruct (ShaCrypt.hsum_pair (hupdate (hupdate (hupdate (hinit s) key) salt) key) (key ++ salt ++ key)) as (s1 & -> & R1).
  { rewrite app_assoc. apply hupdate_ok, hupdate_ok. apply (hupdate_ok _ []). by apply hinit_ok. }
  set (B := digest (key ++ salt ++ key)). assert (HB : length B = 16%nat) by (unfold B; by rewrite length_digest).
  assert (Hz : take 1 (<[0%nat := 0]> B) = [0]) by (by destruct B).
  destruct (ShaCrypt.hsum_pair (bits_loop (S klen) (repeat_md (S klen) (hupdate (hupdate (hinit s1) key) pre) klen B) (Z.of_nat klen) (<[0%nat := 0]> B) key)
    (key ++ pre ++ cyc (S klen) klen B ++ bits_text (S klen) (Z.of_nat klen) key)) as (s2 & -> & R2).
  { rewrite !app_assoc. apply bits_md_ok; [|done]. apply repeat_md_ok; [|lia|done]. apply hupdate_ok.
    apply (hupdate_ok _ []). by apply hinit_ok. }
  apply md_rounds_ok; [done|]. by rewrite length_digest.
Qed.

(** *** The salt *)

Lemma md_salt_spec fuel salt : forall i k,
  salt_loop fuel salt i = k <->
    (i <= k <= i + fuel)%nat /\ (forall j, (i <= j < k)%nat -> cstr_get salt j <> 0 /\ cstr_get salt j <> dollar) /\
    (k = (i + fuel)%nat \/ cstr_get salt k = 0 \/ cstr_get salt k = dollar).
Proof.
  induction fuel as [|fuel IH]; intros i k; cbn [salt_loop].
  - split; [intros <-; split; [lia|]; split; [lia|left; lia]|lia].
  - set (c := cstr_get salt i). destruct (Z.eqb_spec c 0) as [E0|N0]; [|destruct (Z.eqb_spec c dollar) as [Ed|Nd]]; cbn [orb].
    1, 2: split; [intros <-; split; [lia|]; split; [lia|right; auto]|];
      intros (H1 & H2 & _); destruct (Nat.eq_dec i k); [done|]; exfalso; destruct (H2 i ltac:(lia)) as (Hx & Hy); fold c in Hx, Hy; done.
    rewrite IH. split; intros (H1 & H2 & H3).
    + split; [lia|]. split; [|destruct H3; [left; lia|by right]]. intros j Hj. destruct (Nat.eq_dec j i) as [->|]; [done|]. apply H2. lia.
    + assert (k <> i) by (intros ->; destruct H3 as [|[|]]; [lia|done|done]).
      split; [lia|]. split; [|destruct H3; [left; lia|by right]]. intros j Hj. apply H2. lia.
Qed.

Lemma md5crypt_spec emit (ctx : C) key setting :
  ready ctx -> Forall (fun c => c <> 0) key -> byte_list key ->
  md5crypt_with emit ctx key setting = spec_crypt emit key setting.
Proof.
  intros R Hk Hkb. unfold md5crypt_with, spec_crypt. rewrite ShaCrypt.strnlen_list by done. rewrite Nat2Z.id.
  assert (E : (KEY_MAX <? Nat.min (length key) (KEY_MAX + 1))%nat = (KEY_MAX <? length key)%nat).
  { destruct (Nat.ltb_spec KEY_MAX (length key)), (Nat.ltb_spec KEY_MAX (Nat.min (length key) (KEY_MAX + 1))); lia || done. }
  rewrite E. destruct (Nat.ltb_spec KEY_MAX (length key)) as [|Hle]; [done|].
  assert (Hz := ShaCrypt.strncmp_at_zero setting [36; 49; 36] ltac:(done) ltac:(repeat constructor; lia)).
  change (length [36; 49; 36]) with 3%nat in Hz.
  destruct (Z.eqb_spec (strncmp_at setting [36; 49; 36] 3) 0) as [E0|N0]; cbn [negb]; [|by rewrite bool_decide_eq_false_2 by tauto].
  rewrite bool_decide_eq_true_2 by tauto. rewrite (take_ge key) by lia.
  assert (Hs : (salt_loop SALT_MAX (drop 3 setting) 0 <= length (drop 3 setting))%nat).
  { destruct (proj1 (md_salt_spec SALT_MAX (drop 3 setting) 0 _) eq_refl) as (_ & H2 & _). set (k := salt_loop _ _ _) in *.
    destruct (Nat.le_gt_cases k (length (drop 3 setting))) as [|Hgt]; [done|]. exfalso.
    destruct (H2 (length (drop 3 setting)) ltac:(lia)) as [Hzero _]. by rewrite CString.cstr_get_end in Hzero. }
  rewrite md_digest_ok by done. rewrite length_take, Nat.min_l by done. done.
Qed.

Lemma md5crypt_again emit (ctx ctx' : C) key setting out :
  ready ctx -> ready ctx' -> Forall (fun c => c <> 0) key -> byte_list key ->
  md5crypt_with emit ctx key setting = Some out -> md5crypt_with emit ctx' key out = Some out.
Proof.
  intros R R' Hk Hkb. rewrite !md5crypt_spec by done. unfold spec_crypt.
  destruct (KEY_MAX <? length key)%nat; [done|]. case_bool_decide as Etag; [|done].
  set (salt := drop 3 setting). set (slen := salt_loop SALT_MAX salt 0). intros Hout. apply (inj Some) in Hout.
  destruct (proj1 (md_salt_spec SALT_MAX salt 0 slen) eq_refl) as (H1 & H2 & H3).
  assert (Hle : (slen <= length salt)%nat).
  { destruct (Nat.le_gt_cases slen (length salt)) as [|Hgt]; [done|]. exfalso.
    destruct (H2 (length salt) ltac:(lia)) as [Hzero _]. by rewrite CString.cstr_get_end in Hzero. }
  assert (Epre : take (3 + slen) setting = [36; 49; 36] ++ take slen salt).
  { rewrite <- Etag. unfold salt. rewrite take_drop_commute. rewrite <- (take_drop 3 (take (3 + slen) setting)) at 1.
    rewrite take_take. by rewrite Nat.min_l by lia. }
  set (md := spec_digest key (take slen salt) (take (3 + slen) setting)).
  fold md in Hout.
  assert (Eout : out = [36; 49; 36] ++ take slen salt ++ dollar :: emit md) by (rewrite <- Hout, Epre, <- app_assoc; done).
  assert (Edrop : drop 3 out = take slen salt ++ dollar :: emit md) by (by rewrite Eout).
  assert (Elen : length (take slen salt) = slen) by (rewrite length_take; lia).
  rewrite bool_decide_eq_true_2 by (by rewrite Eout).
  assert (Es : salt_loop SALT_MAX (drop 3 out) 0 = slen).
  { apply md_salt_spec. split; [done|]. rewrite Edrop. split.
    - intros j Hj. unfold cstr_get. rewrite lookup_app_l by lia. rewrite lookup_take_lt by lia. by apply H2.
    - right. right. unfold cstr_get. rewrite lookup_app_r by lia. by rewrite Elen, Nat.sub_diag. }
  rewrite Es, Edrop. rewrite take_app_le by lia. rewrite (take_ge (take slen salt)) by lia.
  assert (Et : take (3 + slen) out = take (3 + slen) setting).
  { rewrite Eout, Epre. rewrite app_assoc, take_app_le by (rewrite length_app, Elen; done). apply take_ge. rewrite length_app, Elen. done. }
  rewrite Et. fold md. rewrite Eout, Epre, <- app_assoc. done.
Qed.

End Spec.

(** ** Properties *)




End Md5Crypt.
