(* ===== verification/DesTables.v ===== *)
(** The constant tables of musl src/crypt/crypt_des.c.  Each row of a [mask]
    table gives, for a few bits of its input, the bits they contribute to the
    permuted word; [psbox] joins the substitution boxes with the permutation
    behind them. *)

From Stdlib Require Import ZArith List.
Import ListNotations.

#[local] Open Scope Z_scope.

Module DesTables.

Definition key_shifts : list Z := [1; 1; 2; 2; 2; 2; 2; 2; 1; 2; 2; 2; 2; 2; 2; 1].

Definition psbox : list (list Z) := [
   [0x00808200; 0x00000000; 0x00008000; 0x00808202; 0x00808002; 0x00008202; 0x00000002; 0x00008000;
    0x00000200; 0x00808200; 0x00808202; 0x00000200; 0x00800202; 0x00808002; 0x00800000; 0x00000002;
    0x00000202; 0x00800200; 0x00800200; 0x00008200; 0x00008200; 0x00808000; 0x00808000; 0x00800202;
    0x00008002; 0x00800002; 0x00800002; 0x00008002; 0x00000000; 0x00000202; 0x00008202; 0x00800000;
    0x00008000; 0x00808202; 0x00000002; 0x00808000; 0x00808200; 0x00800000; 0x00800000; 0x00000200;
    0x00808002; 0x00008000; 0x00008200; 0x00800002; 0x00000200; 0x00000002; 0x00800202; 0x00008202;
    0x00808202; 0x00008002; 0x00808000; 0x00800202; 0x00800002; 0x00000202; 0x00008202; 0x00808200;
    0x00000202; 0x00800200; 0x00800200; 0x00000000; 0x00008002; 0x00008200; 0x00000000; 0x00808002];
   [0x40084010; 0x40004000; 0x00004000; 0x00084010; 0x00080000; 0x00000010; 0x40080010; 0x40004010;
    0x40000010; 0x40084010; 0x40084000; 0x40000000; 0x40004000; 0x00080000; 0x00000010; 0x40080010;
    0x00084000; 0x00080010; 0x40004010; 0x00000000; 0x40000000; 0x00004000; 0x00084010; 0x40080000;
    0x00080010; 0x40000010; 0x00000000; 0x00084000; 0x00004010; 0x40084000; 0x40080000; 0x00004010;
    0x00000000; 0x00084010; 0x40080010; 0x00080000; 0x40004010; 0x40080000; 0x40084000; 0x00004000;
    0x40080000; 0x40004000; 0x00000010; 0x40084010; 0x00084010; 0x00000010; 0x00004000; 0x40000000;
    0x00004010; 0x40084000; 0x00080000; 0x40000010; 0x00080010; 0x40004010; 0x40000010; 0x00080010;
    0x00084000; 0x00000000; 0x40004000; 0x00004010; 0x40000000; 0x40080010; 0x40084010; 0x00084000];
   [0x00000104; 0x04010100; 0x00000000; 0x04010004; 0x04000100; 0x00000000; 0x00010104; 0x04000100;
    0x00010004; 0x04000004; 0x04000004; 0x00010000; 0x04010104; 0x00010004; 0x04010000; 0x00000104;
    0x04000000; 0x00000004; 0x04010100; 0x00000100; 0x00010100; 0x04010000; 0x04010004; 0x00010104;
    0x04000104; 0x00010100; 0x00010000; 0x04000104; 0x00000004; 0x04010104; 0x00000100; 0x04000000;
    0x04010100; 0x04000000; 0x00010004; 0x00000104; 0x00010000; 0x04010100; 0x04000100; 0x00000000;
    0x00000100; 0x00010004; 0x04010104; 0x04000100; 0x04000004; 0x00000100; 0x00000000; 0x04010004;
    0x04000104; 0x00010000; 0x04000000; 0x04010104; 0x00000004; 0x00010104; 0x00010100; 0x04000004;
    0x04010000; 0x04000104; 0x00000104; 0x04010000; 0x00010104; 0x00000004; 0x04010004; 0x00010100];
   [0x80401000; 0x80001040; 0x80001040; 0x00000040; 0x00401040; 0x80400040; 0x80400000; 0x80001000;
    0x00000000; 0x00401000; 0x00401000; 0x80401040; 0x80000040; 0x00000000; 0x00400040; 0x80400000;
    0x80000000; 0x00001000; 0x00400000; 0x80401000; 0x00000040; 0x00400000; 0x80001000; 0x00001040;
    0x80400040; 0x80000000; 0x00001040; 0x00400040; 0x00001000; 0x00401040; 0x80401040; 0x80000040;
    0x00400040; 0x80400000; 0x00401000; 0x80401040; 0x80000040; 0x00000000; 0x00000000; 0x00401000;
    0x00001040; 0x00400040; 0x80400040; 0x80000000; 0x80401000; 0x80001040; 0x80001040; 0x00000040;
    0x80401040; 0x80000040; 0x80000000; 0x00001000; 0x80400000; 0x80001000; 0x00401040; 0x80400040;
    0x80001000; 0x00001040; 0x00400000; 0x80401000; 0x00000040; 0x00400000; 0x00001000; 0x00401040];
   [0x00000080; 0x01040080; 0x01040000; 0x21000080; 0x00040000; 0x00000080; 0x20000000; 0x01040000;
    0x20040080; 0x00040000; 0x01000080; 0x20040080; 0x21000080; 0x21040000; 0x00040080; 0x20000000;
    0x01000000; 0x20040000; 0x20040000; 0x00000000; 0x20000080; 0x21040080; 0x21040080; 0x01000080;
    0x21040000; 0x20000080; 0x00000000; 0x21000000; 0x01040080; 0x01000000; 0x21000000; 0x00040080;
    0x00040000; 0x21000080; 0x00000080; 0x01000000; 0x20000000; 0x01040000; 0x21000080; 0x20040080;
    0x01000080; 0x20000000; 0x21040000; 0x01040080; 0x20040080; 0x00000080; 0x01000000; 0x21040000;
    0x21040080; 0x00040080; 0x21000000; 0x21040080; 0x01040000; 0x00000000; 0x20040000; 0x21000000;
    0x00040080; 0x01000080; 0x20000080; 0x00040000; 0x00000000; 0x20040000; 0x01040080; 0x20000080];
   [0x10000008; 0x10200000; 0x00002000; 0x10202008; 0x10200000; 0x00000008; 0x10202008; 0x00200000;
    0x10002000; 0x00202008; 0x00200000; 0x10000008; 0x00200008; 0x10002000; 0x10000000; 0x00002008;
    0x00000000; 0x00200008; 0x10002008; 0x00002000; 0x00202000; 0x10002008; 0x00000008; 0x10200008;
    0x10200008; 0x00000000; 0x00202008; 0x10202000; 0x00002008; 0x00202000; 0x10202000; 0x10000000;
    0x10002000; 0x00000008; 0x10200008; 0x00202000; 0x10202008; 0x00200000; 0x00002008; 0x10000008;
    0x00200000; 0x10002000; 0x10000000; 0x00002008; 0x10000008; 0x10202008; 0x00202000; 0x10200000;
    0x00202008; 0x10202000; 0x00000000; 0x10200008; 0x00000008; 0x00002000; 0x10200000; 0x00202008;
    0x00002000; 0x00200008; 0x10002008; 0x00000000; 0x10202000; 0x10000000; 0x00200008; 0x10002008];
   [0x00100000; 0x02100001; 0x02000401; 0x00000000; 0x00000400; 0x02000401; 0x00100401; 0x02100400;
    0x02100401; 0x00100000; 0x00000000; 0x02000001; 0x00000001; 0x02000000; 0x02100001; 0x00000401;
    0x02000400; 0x00100401; 0x00100001; 0x02000400; 0x02000001; 0x02100000; 0x02100400; 0x00100001;
    0x02100000; 0x00000400; 0x00000401; 0x02100401; 0x00100400; 0x00000001; 0x02000000; 0x00100400;
    0x02000000; 0x00100400; 0x00100000; 0x02000401; 0x02000401; 0x02100001; 0x02100001; 0x00000001;
    0x00100001; 0x02000000; 0x02000400; 0x00100000; 0x02100400; 0x00000401; 0x00100401; 0x02100400;
    0x00000401; 0x02000001; 0x02100401; 0x02100000; 0x00100400; 0x00000000; 0x00000001; 0x02100401;
    0x00000000; 0x00100401; 0x02100000; 0x00000400; 0x02000001; 0x02000400; 0x00000400; 0x00100001];
   [0x08000820; 0x00000800; 0x00020000; 0x08020820; 0x08000000; 0x08000820; 0x00000020; 0x08000000;
    0x00020020; 0x08020000; 0x08020820; 0x00020800; 0x08020800; 0x00020820; 0x00000800; 0x00000020;
    0x08020000; 0x08000020; 0x08000800; 0x00000820; 0x00020800; 0x00020020; 0x08020020; 0x08020800;
    0x00000820; 0x00000000; 0x00000000; 0x08020020; 0x08000020; 0x08000800; 0x00020820; 0x00020000;
    0x00020820; 0x00020000; 0x08020800; 0x00000800; 0x00000020; 0x08020020; 0x00000800; 0x00020820;
    0x08000800; 0x00000020; 0x08000020; 0x08020000; 0x08020020; 0x08000000; 0x00020000; 0x08000820;
    0x00000000; 0x08020820; 0x00020020; 0x08000020; 0x08020000; 0x08000800; 0x08000820; 0x00000000;
    0x08020820; 0x00020800; 0x00020800; 0x00000820; 0x00000820; 0x00020020; 0x08000000; 0x08020800]
].

Definition ip_maskl : list (list Z) := [
   [0x00000000; 0x00010000; 0x00000000; 0x00010000; 0x01000000; 0x01010000; 0x01000000; 0x01010000;
    0x00000000; 0x00010000; 0x00000000; 0x00010000; 0x01000000; 0x01010000; 0x01000000; 0x01010000];
   [0x00000000; 0x00000001; 0x00000000; 0x00000001; 0x00000100; 0x00000101; 0x00000100; 0x00000101;
    0x00000000; 0x00000001; 0x00000000; 0x00000001; 0x00000100; 0x00000101; 0x00000100; 0x00000101];
   [0x00000000; 0x00020000; 0x00000000; 0x00020000; 0x02000000; 0x02020000; 0x02000000; 0x02020000;
    0x00000000; 0x00020000; 0x00000000; 0x00020000; 0x02000000; 0x02020000; 0x02000000; 0x02020000];
   [0x00000000; 0x00000002; 0x00000000; 0x00000002; 0x00000200; 0x00000202; 0x00000200; 0x00000202;
    0x00000000; 0x00000002; 0x00000000; 0x00000002; 0x00000200; 0x00000202; 0x00000200; 0x00000202];
   [0x00000000; 0x00040000; 0x00000000; 0x00040000; 0x04000000; 0x04040000; 0x04000000; 0x04040000;
    0x00000000; 0x00040000; 0x00000000; 0x00040000; 0x04000000; 0x04040000; 0x04000000; 0x04040000];
   [0x00000000; 0x00000004; 0x00000000; 0x00000004; 0x00000400; 0x00000404; 0x00000400; 0x00000404;
    0x00000000; 0x00000004; 0x00000000; 0x00000004; 0x00000400; 0x00000404; 0x00000400; 0x00000404];
   [0x00000000; 0x00080000; 0x00000000; 0x00080000; 0x08000000; 0x08080000; 0x08000000; 0x08080000;
    0x00000000; 0x00080000; 0x00000000; 0x00080000; 0x08000000; 0x08080000; 0x08000000; 0x08080000];
   [0x00000000; 0x00000008; 0x00000000; 0x00000008; 0x00000800; 0x00000808; 0x00000800; 0x00000808;
    0x00000000; 0x00000008; 0x00000000; 0x00000008; 0x00000800; 0x00000808; 0x00000800; 0x00000808];
   [0x00000000; 0x00100000; 0x00000000; 0x00100000; 0x10000000; 0x10100000; 0x10000000; 0x10100000;
    0x00000000; 0x00100000; 0x00000000; 0x00100000; 0x10000000; 0x10100000; 0x10000000; 0x10100000];
   [0x00000000; 0x00000010; 0x00000000; 0x00000010; 0x00001000; 0x00001010; 0x00001000; 0x00001010;
    0x00000000; 0x00000010; 0x00000000; 0x00000010; 0x00001000; 0x00001010; 0x00001000; 0x00001010];
   [0x00000000; 0x00200000; 0x00000000; 0x00200000; 0x20000000; 0x20200000; 0x20000000; 0x20200000;
    0x00000000; 0x00200000; 0x00000000; 0x00200000; 0x20000000; 0x20200000; 0x20000000; 0x20200000];
   [0x00000000; 0x00000020; 0x00000000; 0x00000020; 0x00002000; 0x00002020; 0x00002000; 0x00002020;
    0x00000000; 0x00000020; 0x00000000; 0x00000020; 0x00002000; 0x00002020; 0x00002000; 0x00002020];
   [0x00000000; 0x00400000; 0x00000000; 0x00400000; 0x40000000; 0x40400000; 0x40000000; 0x40400000;
    0x00000000; 0x00400000; 0x00000000; 0x00400000; 0x40000000; 0x40400000; 0x40000000; 0x40400000];
   [0x00000000; 0x00000040; 0x00000000; 0x00000040; 0x00004000; 0x00004040; 0x00004000; 0x00004040;
    0x00000000; 0x00000040; 0x00000000; 0x00000040; 0x00004000; 0x00004040; 0x00004000; 0x00004040];
   [0x00000000; 0x00800000; 0x00000000; 0x00800000; 0x80000000; 0x80800000; 0x80000000; 0x80800000;
    0x00000000; 0x00800000; 0x00000000; 0x00800000; 0x80000000; 0x80800000; 0x80000000; 0x80800000];
   [0x00000000; 0x00000080; 0x00000000; 0x00000080; 0x00008000; 0x00008080; 0x00008000; 0x00008080;
    0x00000000; 0x00000080; 0x00000000; 0x00000080; 0x00008000; 0x00008080; 0x00008000; 0x00008080]
].

Definition ip_maskr : list (list Z) := [
   [0x00000000; 0x00000000; 0x00010000; 0x00010000; 0x00000000; 0x00000000; 0x00010000; 0x00010000;
    0x01000000; 0x01000000; 0x01010000; 0x01010000; 0x01000000; 0x01000000; 0x01010000; 0x01010000];
   [0x00000000; 0x00000000; 0x00000001; 0x00000001; 0x00000000; 0x00000000; 0x00000001; 0x00000001;
    0x00000100; 0x00000100; 0x00000101; 0x00000101; 0x00000100; 0x00000100; 0x00000101; 0x00000101];
   [0x00000000; 0x00000000; 0x00020000; 0x00020000; 0x00000000; 0x00000000; 0x00020000; 0x00020000;
    0x02000000; 0x02000000; 0x02020000; 0x02020000; 0x02000000; 0x02000000; 0x02020000; 0x02020000];
   [0x00000000; 0x00000000; 0x00000002; 0x00000002; 0x00000000; 0x00000000; 0x00000002; 0x00000002;
    0x00000200; 0x00000200; 0x00000202; 0x00000202; 0x00000200; 0x00000200; 0x00000202; 0x00000202];
   [0x00000000; 0x00000000; 0x00040000; 0x00040000; 0x00000000; 0x00000000; 0x00040000; 0x00040000;
    0x04000000; 0x04000000; 0x04040000; 0x04040000; 0x04000000; 0x04000000; 0x04040000; 0x04040000];
   [0x00000000; 0x00000000; 0x00000004; 0x00000004; 0x00000000; 0x00000000; 0x00000004; 0x00000004;
    0x00000400; 0x00000400; 0x00000404; 0x00000404; 0x00000400; 0x00000400; 0x00000404; 0x00000404];
   [0x00000000; 0x00000000; 0x00080000; 0x00080000; 0x00000000; 0x00000000; 0x00080000; 0x00080000;
    0x08000000; 0x08000000; 0x08080000; 0x08080000; 0x08000000; 0x08000000; 0x08080000; 0x08080000];
   [0x00000000; 0x00000000; 0x00000008; 0x00000008; 0x00000000; 0x00000000; 0x00000008; 0x00000008;
    0x00000800; 0x00000800; 0x00000808; 0x00000808; 0x00000800; 0x00000800; 0x00000808; 0x00000808];
   [0x00000000; 0x00000000; 0x00100000; 0x00100000; 0x00000000; 0x00000000; 0x00100000; 0x00100000;
    0x10000000; 0x10000000; 0x10100000; 0x10100000; 0x10000000; 0x10000000; 0x10100000; 0x10100000];
   [0x00000000; 0x00000000; 0x00000010; 0x00000010; 0x00000000; 0x00000000; 0x00000010; 0x00000010;
    0x00001000; 0x00001000; 0x00001010; 0x00001010; 0x00001000; 0x00001000; 0x00001010; 0x00001010];
   [0x00000000; 0x00000000; 0x00200000; 0x00200000; 0x00000000; 0x00000000; 0x00200000; 0x00200000;
    0x20000000; 0x20000000; 0x20200000; 0x20200000; 0x20000000; 0x20000000; 0x20200000; 0x20200000];
   [0x00000000; 0x00000000; 0x00000020; 0x00000020; 0x00000000; 0x00000000; 0x00000020; 0x00000020;
    0x00002000; 0x00002000; 0x00002020; 0x00002020; 0x00002000; 0x00002000; 0x00002020; 0x00002020];
   [0x00000000; 0x00000000; 0x00400000; 0x00400000; 0x00000000; 0x00000000; 0x00400000; 0x00400000;
    0x40000000; 0x40000000; 0x40400000; 0x40400000; 0x40000000; 0x40000000; 0x40400000; 0x40400000];
   [0x00000000; 0x00000000; 0x00000040; 0x00000040; 0x00000000; 0x00000000; 0x00000040; 0x00000040;
    0x00004000; 0x00004000; 0x00004040; 0x00004040; 0x00004000; 0x00004000; 0x00004040; 0x00004040];
   [0x00000000; 0x00000000; 0x00800000; 0x00800000; 0x00000000; 0x00000000; 0x00800000; 0x00800000;
    0x80000000; 0x80000000; 0x80800000; 0x80800000; 0x80000000; 0x80000000; 0x80800000; 0x80800000];
   [0x00000000; 0x00000000; 0x00000080; 0x00000080; 0x00000000; 0x00000000; 0x00000080; 0x00000080;
    0x00008000; 0x00008000; 0x00008080; 0x00008080; 0x00008000; 0x00008000; 0x00008080; 0x00008080]
].

Definition fp_maskl : list (list Z) := [
   [0x00000000; 0x40000000; 0x00400000; 0x40400000; 0x00004000; 0x40004000; 0x00404000; 0x40404000;
    0x00000040; 0x40000040; 0x00400040; 0x40400040; 0x00004040; 0x40004040; 0x00404040; 0x40404040];
   [0x00000000; 0x10000000; 0x00100000; 0x10100000; 0x00001000; 0x10001000; 0x00101000; 0x10101000;
    0x00000010; 0x10000010; 0x00100010; 0x10100010; 0x00001010; 0x10001010; 0x00101010; 0x10101010];
   [0x00000000; 0x04000000; 0x00040000; 0x04040000; 0x00000400; 0x04000400; 0x00040400; 0x04040400;
    0x00000004; 0x04000004; 0x00040004; 0x04040004; 0x00000404; 0x04000404; 0x00040404; 0x04040404];
   [0x00000000; 0x01000000; 0x00010000; 0x01010000; 0x00000100; 0x01000100; 0x00010100; 0x01010100;
    0x00000001; 0x01000001; 0x00010001; 0x01010001; 0x00000101; 0x01000101; 0x00010101; 0x01010101];
   [0x00000000; 0x80000000; 0x00800000; 0x80800000; 0x00008000; 0x80008000; 0x00808000; 0x80808000;
    0x00000080; 0x80000080; 0x00800080; 0x80800080; 0x00008080; 0x80008080; 0x00808080; 0x80808080];
   [0x00000000; 0x20000000; 0x00200000; 0x20200000; 0x00002000; 0x20002000; 0x00202000; 0x20202000;
    0x00000020; 0x20000020; 0x00200020; 0x20200020; 0x00002020; 0x20002020; 0x00202020; 0x20202020];
   [0x00000000; 0x08000000; 0x00080000; 0x08080000; 0x00000800; 0x08000800; 0x00080800; 0x08080800;
    0x00000008; 0x08000008; 0x00080008; 0x08080008; 0x00000808; 0x08000808; 0x00080808; 0x08080808];
   [0x00000000; 0x02000000; 0x00020000; 0x02020000; 0x00000200; 0x02000200; 0x00020200; 0x02020200;
    0x00000002; 0x02000002; 0x00020002; 0x02020002; 0x00000202; 0x02000202; 0x00020202; 0x02020202]
].

Definition fp_maskr : list (list Z) := [
   [0x00000000; 0x40000000; 0x00400000; 0x40400000; 0x00004000; 0x40004000; 0x00404000; 0x40404000;
    0x00000040; 0x40000040; 0x00400040; 0x40400040; 0x00004040; 0x40004040; 0x00404040; 0x40404040];
   [0x00000000; 0x10000000; 0x00100000; 0x10100000; 0x00001000; 0x10001000; 0x00101000; 0x10101000;
    0x00000010; 0x10000010; 0x00100010; 0x10100010; 0x00001010; 0x10001010; 0x00101010; 0x10101010];
   [0x00000000; 0x04000000; 0x00040000; 0x04040000; 0x00000400; 0x04000400; 0x00040400; 0x04040400;
    0x00000004; 0x04000004; 0x00040004; 0x04040004; 0x00000404; 0x04000404; 0x00040404; 0x04040404];
   [0x00000000; 0x01000000; 0x00010000; 0x01010000; 0x00000100; 0x01000100; 0x00010100; 0x01010100;
    0x00000001; 0x01000001; 0x00010001; 0x01010001; 0x00000101; 0x01000101; 0x00010101; 0x01010101];
   [0x00000000; 0x80000000; 0x00800000; 0x80800000; 0x00008000; 0x80008000; 0x00808000; 0x80808000;
    0x00000080; 0x80000080; 0x00800080; 0x80800080; 0x00008080; 0x80008080; 0x00808080; 0x80808080];
   [0x00000000; 0x20000000; 0x00200000; 0x20200000; 0x00002000; 0x20002000; 0x00202000; 0x20202000;
    0x00000020; 0x20000020; 0x00200020; 0x20200020; 0x00002020; 0x20002020; 0x00202020; 0x20202020];
   [0x00000000; 0x08000000; 0x00080000; 0x08080000; 0x00000800; 0x08000800; 0x00080800; 0x08080800;
    0x00000008; 0x08000008; 0x00080008; 0x08080008; 0x00000808; 0x08000808; 0x00080808; 0x08080808];
   [0x00000000; 0x02000000; 0x00020000; 0x02020000; 0x00000200; 0x02000200; 0x00020200; 0x02020200;
    0x00000002; 0x02000002; 0x00020002; 0x02020002; 0x00000202; 0x02000202; 0x00020202; 0x02020202]
].

Definition key_perm_maskl : list (list Z) := [
   [0x00000000; 0x00000000; 0x00000010; 0x00000010; 0x00001000; 0x00001000; 0x00001010; 0x00001010;
    0x00100000; 0x00100000; 0x00100010; 0x00100010; 0x00101000; 0x00101000; 0x00101010; 0x00101010];
   [0x00000000; 0x00000000; 0x00000020; 0x00000020; 0x00002000; 0x00002000; 0x00002020; 0x00002020;
    0x00200000; 0x00200000; 0x00200020; 0x00200020; 0x00202000; 0x00202000; 0x00202020; 0x00202020];
   [0x00000000; 0x00000000; 0x00000040; 0x00000040; 0x00004000; 0x00004000; 0x00004040; 0x00004040;
    0x00400000; 0x00400000; 0x00400040; 0x00400040; 0x00404000; 0x00404000; 0x00404040; 0x00404040];
   [0x00000000; 0x00000000; 0x00000080; 0x00000080; 0x00008000; 0x00008000; 0x00008080; 0x00008080;
    0x00800000; 0x00800000; 0x00800080; 0x00800080; 0x00808000; 0x00808000; 0x00808080; 0x00808080];
   [0x00000000; 0x00000001; 0x00000100; 0x00000101; 0x00010000; 0x00010001; 0x00010100; 0x00010101;
    0x01000000; 0x01000001; 0x01000100; 0x01000101; 0x01010000; 0x01010001; 0x01010100; 0x01010101];
   [0x00000000; 0x00000002; 0x00000200; 0x00000202; 0x00020000; 0x00020002; 0x00020200; 0x00020202;
    0x02000000; 0x02000002; 0x02000200; 0x02000202; 0x02020000; 0x02020002; 0x02020200; 0x02020202];
   [0x00000000; 0x00000004; 0x00000400; 0x00000404; 0x00040000; 0x00040004; 0x00040400; 0x00040404;
    0x04000000; 0x04000004; 0x04000400; 0x04000404; 0x04040000; 0x04040004; 0x04040400; 0x04040404];
   [0x00000000; 0x00000008; 0x00000800; 0x00000808; 0x00080000; 0x00080008; 0x00080800; 0x00080808;
    0x08000000; 0x08000008; 0x08000800; 0x08000808; 0x08080000; 0x08080008; 0x08080800; 0x08080808]
].

Definition key_perm_maskr : list (list Z) := [
   [0x00000000; 0x00000001; 0x00000000; 0x00000001; 0x00000000; 0x00000001; 0x00000000; 0x00000001;
    0x00000000; 0x00000001; 0x00000000; 0x00000001; 0x00000000; 0x00000001; 0x00000000; 0x00000001];
   [0x00000000; 0x00000000; 0x00100000; 0x00100000; 0x00001000; 0x00001000; 0x00101000; 0x00101000;
    0x00000010; 0x00000010; 0x00100010; 0x00100010; 0x00001010; 0x00001010; 0x00101010; 0x00101010];
   [0x00000000; 0x00000002; 0x00000000; 0x00000002; 0x00000000; 0x00000002; 0x00000000; 0x00000002;
    0x00000000; 0x00000002; 0x00000000; 0x00000002; 0x00000000; 0x00000002; 0x00000000; 0x00000002];
   [0x00000000; 0x00000000; 0x00200000; 0x00200000; 0x00002000; 0x00002000; 0x00202000; 0x00202000;
    0x00000020; 0x00000020; 0x00200020; 0x00200020; 0x00002020; 0x00002020; 0x00202020; 0x00202020];
   [0x00000000; 0x00000004; 0x00000000; 0x00000004; 0x00000000; 0x00000004; 0x00000000; 0x00000004;
    0x00000000; 0x00000004; 0x00000000; 0x00000004; 0x00000000; 0x00000004; 0x00000000; 0x00000004];
   [0x00000000; 0x00000000; 0x00400000; 0x00400000; 0x00004000; 0x00004000; 0x00404000; 0x00404000;
    0x00000040; 0x00000040; 0x00400040; 0x00400040; 0x00004040; 0x00004040; 0x00404040; 0x00404040];
   [0x00000000; 0x00000008; 0x00000000; 0x00000008; 0x00000000; 0x00000008; 0x00000000; 0x00000008;
    0x00000000; 0x00000008; 0x00000000; 0x00000008; 0x00000000; 0x00000008; 0x00000000; 0x00000008];
   [0x00000000; 0x00000000; 0x00800000; 0x00800000; 0x00008000; 0x00008000; 0x00808000; 0x00808000;
    0x00000080; 0x00000080; 0x00800080; 0x00800080; 0x00008080; 0x00008080; 0x00808080; 0x00808080];
   [0x00000000; 0x00000000; 0x01000000; 0x01000000; 0x00010000; 0x00010000; 0x01010000; 0x01010000;
    0x00000100; 0x00000100; 0x01000100; 0x01000100; 0x00010100; 0x00010100; 0x01010100; 0x01010100];
   [0x00000000; 0x00000000; 0x02000000; 0x02000000; 0x00020000; 0x00020000; 0x02020000; 0x02020000;
    0x00000200; 0x00000200; 0x02000200; 0x02000200; 0x00020200; 0x00020200; 0x02020200; 0x02020200];
   [0x00000000; 0x00000000; 0x04000000; 0x04000000; 0x00040000; 0x00040000; 0x04040000; 0x04040000;
    0x00000400; 0x00000400; 0x04000400; 0x04000400; 0x00040400; 0x00040400; 0x04040400; 0x04040400];
   [0x00000000; 0x00000000; 0x08000000; 0x08000000; 0x00080000; 0x00080000; 0x08080000; 0x08080000;
    0x00000800; 0x00000800; 0x08000800; 0x08000800; 0x00080800; 0x00080800; 0x08080800; 0x08080800]
].

Definition comp_maskl0 : list (list Z) := [
   [0x00000000; 0x00020000; 0x00000001; 0x00020001; 0x00080000; 0x000a0000; 0x00080001; 0x000a0001];
   [0x00000000; 0x00001000; 0x00000000; 0x00001000; 0x00000040; 0x00001040; 0x00000040; 0x00001040];
   [0x00000000; 0x00400000; 0x00000020; 0x00400020; 0x00008000; 0x00408000; 0x00008020; 0x00408020];
   [0x00000000; 0x00100000; 0x00000800; 0x00100800; 0x00000000; 0x00100000; 0x00000800; 0x00100800]
].

Definition comp_maskr0 : list (list Z) := [
   [0x00000000; 0x00200000; 0x00020000; 0x00220000; 0x00000002; 0x00200002; 0x00020002; 0x00220002];
   [0x00000000; 0x00000000; 0x00100000; 0x00100000; 0x00000004; 0x00000004; 0x00100004; 0x00100004];
   [0x00000000; 0x00004000; 0x00000800; 0x00004800; 0x00000000; 0x00004000; 0x00000800; 0x00004800];
   [0x00000000; 0x00400000; 0x00008000; 0x00408000; 0x00000008; 0x00400008; 0x00008008; 0x00408008]
].

Definition comp_maskl1 : list (list Z) := [
   [0x00000000; 0x00000010; 0x00004000; 0x00004010; 0x00040000; 0x00040010; 0x00044000; 0x00044010;
    0x00000100; 0x00000110; 0x00004100; 0x00004110; 0x00040100; 0x00040110; 0x00044100; 0x00044110];
   [0x00000000; 0x00800000; 0x00000002; 0x00800002; 0x00000200; 0x00800200; 0x00000202; 0x00800202;
    0x00200000; 0x00a00000; 0x00200002; 0x00a00002; 0x00200200; 0x00a00200; 0x00200202; 0x00a00202];
   [0x00000000; 0x00002000; 0x00000004; 0x00002004; 0x00000400; 0x00002400; 0x00000404; 0x00002404;
    0x00000000; 0x00002000; 0x00000004; 0x00002004; 0x00000400; 0x00002400; 0x00000404; 0x00002404];
   [0x00000000; 0x00010000; 0x00000008; 0x00010008; 0x00000080; 0x00010080; 0x00000088; 0x00010088;
    0x00000000; 0x00010000; 0x00000008; 0x00010008; 0x00000080; 0x00010080; 0x00000088; 0x00010088]
].

Definition comp_maskr1 : list (list Z) := [
   [0x00000000; 0x00000000; 0x00000080; 0x00000080; 0x00002000; 0x00002000; 0x00002080; 0x00002080;
    0x00000001; 0x00000001; 0x00000081; 0x00000081; 0x00002001; 0x00002001; 0x00002081; 0x00002081];
   [0x00000000; 0x00000010; 0x00800000; 0x00800010; 0x00010000; 0x00010010; 0x00810000; 0x00810010;
    0x00000200; 0x00000210; 0x00800200; 0x00800210; 0x00010200; 0x00010210; 0x00810200; 0x00810210];
   [0x00000000; 0x00000400; 0x00001000; 0x00001400; 0x00080000; 0x00080400; 0x00081000; 0x00081400;
    0x00000020; 0x00000420; 0x00001020; 0x00001420; 0x00080020; 0x00080420; 0x00081020; 0x00081420];
   [0x00000000; 0x00000100; 0x00040000; 0x00040100; 0x00000000; 0x00000100; 0x00040000; 0x00040100;
    0x00000040; 0x00000140; 0x00040040; 0x00040140; 0x00000040; 0x00000140; 0x00040040; 0x00040140]
].

(** ./0123456789ABCDEFGHIJKLMNOPQRSTUVWXYZabcdefghijklmnopqrstuvwxyz *)
Definition ascii64 : list Z := [
  46; 47; 48; 49; 50; 51; 52; 53; 54; 55; 56; 57; 65; 66; 67; 68;
  69; 70; 71; 72; 73; 74; 75; 76; 77; 78; 79; 80; 81; 82; 83; 84;
  85; 86; 87; 88; 89; 90; 97; 98; 99; 100; 101; 102; 103; 104; 105; 106;
  107; 108; 109; 110; 111; 112; 113; 114; 115; 116; 117; 118; 119; 120; 121; 122].

End DesTables.
