(* ===== verification/DesSpec.v ===== *)
(** The Data Encryption Standard as published (FIPS 46-3), on lists of bits,
    the first bit first: what musl src/crypt/crypt_des.c and encrypt.c are
    measured against.  The salt of crypt(3), which exchanges bits between the
    halves of the expanded block, is an argument. *)

From stdpp Require Import base tactics list numbers.
From Stdlib Require Import ZArith Lia.
From S2P Require Import Prelude.

#[local] Open Scope nat_scope.

Module DesSpec.

(** ** Permutations

    The tables of the standard number the bits from 1. *)
Definition permute (t : list nat) (x : list bool) : list bool := (fun i => nth (i - 1) x false) <$> t.

Definition IP : list nat :=
  [58; 50; 42; 34; 26; 18; 10; 2; 60; 52; 44; 36; 28; 20; 12; 4;
   62; 54; 46; 38; 30; 22; 14; 6; 64; 56; 48; 40; 32; 24; 16; 8;
   57; 49; 41; 33; 25; 17; 9; 1; 59; 51; 43; 35; 27; 19; 11; 3;
   61; 53; 45; 37; 29; 21; 13; 5; 63; 55; 47; 39; 31; 23; 15; 7].
Definition FP : list nat :=
  [40; 8; 48; 16; 56; 24; 64; 32; 39; 7; 47; 15; 55; 23; 63; 31;
   38; 6; 46; 14; 54; 22; 62; 30; 37; 5; 45; 13; 53; 21; 61; 29;
   36; 4; 44; 12; 52; 20; 60; 28; 35; 3; 43; 11; 51; 19; 59; 27;
   34; 2; 42; 10; 50; 18; 58; 26; 33; 1; 41; 9; 49; 17; 57; 25].
Definition E : list nat :=
  [32; 1; 2; 3; 4; 5; 4; 5; 6; 7; 8; 9; 8; 9; 10; 11; 12; 13; 12; 13; 14; 15; 16; 17;
   16; 17; 18; 19; 20; 21; 20; 21; 22; 23; 24; 25; 24; 25; 26; 27; 28; 29; 28; 29; 30; 31; 32; 1].
Definition P : list nat :=
  [16; 7; 20; 21; 29; 12; 28; 17; 1; 15; 23; 26; 5; 18; 31; 10;
   2; 8; 24; 14; 32; 27; 3; 9; 19; 13; 30; 6; 22; 11; 4; 25].
Definition PC1 : list nat :=
  [57; 49; 41; 33; 25; 17; 9; 1; 58; 50; 42; 34; 26; 18; 10; 2; 59; 51; 43; 35; 27; 19; 11; 3; 60; 52; 44; 36;
   63; 55; 47; 39; 31; 23; 15; 7; 62; 54; 46; 38; 30; 22; 14; 6; 61; 53; 45; 37; 29; 21; 13; 5; 28; 20; 12; 4].
Definition PC2 : list nat :=
  [14; 17; 11; 24; 1; 5; 3; 28; 15; 6; 21; 10; 23; 19; 12; 4; 26; 8; 16; 7; 27; 20; 13; 2;
   41; 52; 31; 37; 47; 55; 30; 40; 51; 45; 33; 48; 44; 49; 39; 56; 34; 53; 46; 42; 50; 36; 29; 32].

(** ** Substitution boxes: four rows of sixteen *)
Definition S_boxes : list (list Z) := [
   [14; 4; 13; 1; 2; 15; 11; 8; 3; 10; 6; 12; 5; 9; 0; 7;
    0; 15; 7; 4; 14; 2; 13; 1; 10; 6; 12; 11; 9; 5; 3; 8;
    4; 1; 14; 8; 13; 6; 2; 11; 15; 12; 9; 7; 3; 10; 5; 0;
    15; 12; 8; 2; 4; 9; 1; 7; 5; 11; 3; 14; 10; 0; 6; 13];
   [15; 1; 8; 14; 6; 11; 3; 4; 9; 7; 2; 13; 12; 0; 5; 10;
    3; 13; 4; 7; 15; 2; 8; 14; 12; 0; 1; 10; 6; 9; 11; 5;
    0; 14; 7; 11; 10; 4; 13; 1; 5; 8; 12; 6; 9; 3; 2; 15;
    13; 8; 10; 1; 3; 15; 4; 2; 11; 6; 7; 12; 0; 5; 14; 9];
   [10; 0; 9; 14; 6; 3; 15; 5; 1; 13; 12; 7; 11; 4; 2; 8;
    13; 7; 0; 9; 3; 4; 6; 10; 2; 8; 5; 14; 12; 11; 15; 1;
    13; 6; 4; 9; 8; 15; 3; 0; 11; 1; 2; 12; 5; 10; 14; 7;
    1; 10; 13; 0; 6; 9; 8; 7; 4; 15; 14; 3; 11; 5; 2; 12];
   [7; 13; 14; 3; 0; 6; 9; 10; 1; 2; 8; 5; 11; 12; 4; 15;
    13; 8; 11; 5; 6; 15; 0; 3; 4; 7; 2; 12; 1; 10; 14; 9;
    10; 6; 9; 0; 12; 11; 7; 13; 15; 1; 3; 14; 5; 2; 8; 4;
    3; 15; 0; 6; 10; 1; 13; 8; 9; 4; 5; 11; 12; 7; 2; 14];
   [2; 12; 4; 1; 7; 10; 11; 6; 8; 5; 3; 15; 13; 0; 14; 9;
    14; 11; 2; 12; 4; 7; 13; 1; 5; 0; 15; 10; 3; 9; 8; 6;
    4; 2; 1; 11; 10; 13; 7; 8; 15; 9; 12; 5; 6; 3; 0; 14;
    11; 8; 12; 7; 1; 14; 2; 13; 6; 15; 0; 9; 10; 4; 5; 3];
   [12; 1; 10; 15; 9; 2; 6; 8; 0; 13; 3; 4; 14; 7; 5; 11;
    10; 15; 4; 2; 7; 12; 9; 5; 6; 1; 13; 14; 0; 11; 3; 8;
    9; 14; 15; 5; 2; 8; 12; 3; 7; 0; 4; 10; 1; 13; 11; 6;
    4; 3; 2; 12; 9; 5; 15; 10; 11; 14; 1; 7; 6; 0; 8; 13];
   [4; 11; 2; 14; 15; 0; 8; 13; 3; 12; 9; 7; 5; 10; 6; 1;
    13; 0; 11; 7; 4; 9; 1; 10; 14; 3; 5; 12; 2; 15; 8; 6;
    1; 4; 11; 13; 12; 3; 7; 14; 10; 15; 6; 8; 0; 5; 9; 2;
    6; 11; 13; 8; 1; 4; 10; 7; 9; 5; 0; 15; 14; 2; 3; 12];
   [13; 2; 8; 4; 6; 15; 11; 1; 10; 9; 3; 14; 5; 0; 12; 7;
    1; 15; 13; 8; 10; 3; 7; 4; 12; 5; 6; 11; 0; 14; 9; 2;
    7; 11; 4; 1; 9; 12; 14; 2; 0; 6; 10; 13; 15; 3; 5; 8;
    2; 1; 14; 7; 4; 10; 8; 13; 15; 12; 9; 0; 3; 5; 6; 11]
]%Z.

(** The [n] low bits of a number, the highest first, and back. *)
Definition word_bits (n : nat) (w : Z) : list bool := (fun i => Z.testbit w (Z.of_nat (n - 1 - i))) <$> seq 0 n.
Definition bits_value (x : list bool) : Z := fold_left (fun a (b : bool) => 2 * a + (if b then 1 else 0))%Z x 0%Z.

(** Bits 1 and 6 choose the row, the others the column. *)
Definition S_box (s : list Z) (b : list bool) : list bool :=
  let row := bits_value [nth 0 b false; nth 5 b false] in
  let column := bits_value (take 4 (drop 1 b)) in
  word_bits 4 (nth (Z.to_nat (16 * row + column)) s 0%Z).

Definition xor_bits : list bool -> list bool -> list bool := zip_with xorb.
Definition six (i : nat) (x : list bool) : list bool := take 6 (drop (6 * i) x).
Definition substitute (x : list bool) : list bool := concat ((fun i => S_box (nth i S_boxes []) (six i x)) <$> seq 0 8).

(** Where the salt has a 1, the two halves exchange their bits. *)
Definition choose (salt x y : list bool) : list bool := zip_with (fun (s : bool) '(a, b) => if s then b else a) salt (zip x y).
Definition salted (salt x : list bool) : list bool :=
  choose salt (take 24 x) (drop 24 x) ++ choose salt (drop 24 x) (take 24 x).

Definition f (salt k r : list bool) : list bool := permute P (substitute (xor_bits (salted salt (permute E r)) k)).

(** ** The cipher *)
Definition round (salt : list bool) (b : list bool * list bool) (k : list bool) : list bool * list bool :=
  (b.2, xor_bits b.1 (f salt k b.2)).
Definition halves (x : list bool) : list bool * list bool := (take 32 x, drop 32 x).
Definition rounds (salt : list bool) (keys : list (list bool)) (b : list bool * list bool) : list bool * list bool :=
  let '(l, r) := fold_left (round salt) keys b in (r, l).
Definition des (salt : list bool) (keys : list (list bool)) (x : list bool) : list bool :=
  let '(l, r) := rounds salt keys (halves (permute IP x)) in permute FP (l ++ r).

(** The keys of the rounds. *)
Definition rotate (s : nat) (x : list bool) : list bool := drop s x ++ take s x.
Definition shifts : list nat := [1; 1; 2; 2; 2; 2; 2; 2; 1; 2; 2; 2; 2; 2; 2; 1].
Fixpoint schedule (ss : list nat) (c d : list bool) : list (list bool) :=
  match ss with
  | [] => []
  | s :: ss' => let c := rotate s c in let d := rotate s d in permute PC2 (c ++ d) :: schedule ss' c d
  end.
Definition key_schedule (key : list bool) : list (list bool) :=
  let x := permute PC1 key in schedule shifts (take 28 x) (drop 28 x).

Definition no_salt : list bool := repeat false 24.

(** The example worked through in many texts. *)
Example des_example :
  bits_value (des no_salt (key_schedule (word_bits 64 0x133457799BBCDFF1)) (word_bits 64 0x0123456789ABCDEF)) = 0x85E813540F0AB405%Z.
Proof. vm_compute. reflexivity. Qed.
(** ** Lengths *)
#[local] Arguments permute : simpl never.
#[local] Arguments rounds : simpl never.
Lemma length_permute t x : length (permute t x) = length t.
Proof. apply length_fmap. Qed.
Lemma length_word_bits n w : length (word_bits n w) = n.
Proof. unfold word_bits. by rewrite length_fmap, length_seq. Qed.
Lemma length_f salt k r : length (f salt k r) = 32.
Proof. apply length_permute. Qed.
Lemma length_xor x y n : length x = n -> length y = n -> length (xor_bits x y) = n.
Proof. intros Hx Hy. unfold xor_bits. rewrite length_zip_with. lia. Qed.

(** ** Permutations undo each other *)

(** Permuting twice is one permutation. *)
Lemma permute_permute s t x :
  Forall (fun i => 1 <= i <= length t) s -> permute s (permute t x) = permute ((fun i => nth (i - 1) t 0) <$> s) x.
Proof.
  intros Hs. unfold permute at 1 3. rewrite <- list_fmap_compose. apply list_fmap_ext. intros k i Hi. cbn.
  apply (Forall_lookup_1 _ _ _ _ Hs) in Hi. unfold permute. destruct (lookup_lt_is_Some_2 t (i - 1) ltac:(lia)) as (j & Ej).
  rewrite nth_lookup, list_lookup_fmap, Ej. cbn. by rewrite (nth_lookup_Some _ _ 0 _ Ej).
Qed.
Lemma permute_id n x : length x = n -> permute (seq 1 n) x = x.
Proof.
  intros Hx. apply list_eq_same_length with (n := n); [done|by rewrite length_permute, length_seq|]. intros i a b Hi Ha Hb.
  unfold permute in Ha. rewrite list_lookup_fmap, lookup_seq_lt in Ha by done. cbn in Ha. injection Ha as <-.
  replace (i - 0) with i by lia. by apply nth_lookup_Some.
Qed.

(** [FP] is the inverse of [IP]. *)
Lemma IP_FP x : length x = 64 -> permute IP (permute FP x) = x.
Proof. intros Hx. rewrite permute_permute; [exact (permute_id 64 x Hx)|]. apply (bool_decide_unpack _). vm_compute. exact I. Qed.
Lemma FP_IP x : length x = 64 -> permute FP (permute IP x) = x.
Proof. intros Hx. rewrite permute_permute; [exact (permute_id 64 x Hx)|]. apply (bool_decide_unpack _). vm_compute. exact I. Qed.

(** ** Deciphering: the same with the keys in the opposite order *)
Lemma xor_cancel x y n : length x = n -> length y = n -> xor_bits (xor_bits x y) y = x.
Proof.
  revert x y. induction n as [|n IH]; intros [|a x] [|b y] Hx Hy; try done. cbn. f_equal; [by destruct a, b|]. apply IH; cbn in *; lia.
Qed.

Definition block (b : list bool * list bool) : Prop := length b.1 = 32 /\ length b.2 = 32.
Lemma round_block salt b k : block b -> block (round salt b k).
Proof. intros [Hl Hr]. split; cbn; [done|]. apply length_xor; [done|apply length_f]. Qed.
Lemma fold_block salt keys b : block b -> block (fold_left (round salt) keys b).
Proof. revert b. induction keys as [|k keys IH]; intros b Hb; [done|]. cbn. by apply IH, round_block. Qed.
Lemma rounds_block salt keys b : block b -> block (rounds salt keys b).
Proof. intros Hb. pose proof (fold_block salt keys b Hb) as [Hl Hr]. unfold rounds. by destruct (fold_left _ _ _). Qed.
Lemma halves_block x : length x = 64 -> block (halves x).
Proof. intros Hx. split; cbn; [rewrite length_take|rewrite length_drop]; lia. Qed.
Lemma halves_app b : block b -> halves (b.1 ++ b.2) = b.
Proof. intros [Hl Hr]. unfold halves. rewrite <- Hl. rewrite take_app_length, drop_app_length. by destruct b. Qed.

Lemma rounds_undo salt keys b : block b -> rounds salt (rev keys) (rounds salt keys b) = b.
Proof.
  revert b. induction keys as [|k keys IH]; intros b Hb; [by destruct b|].
  assert (E : rounds salt (k :: keys) b = rounds salt keys (round salt b k)) by done. rewrite E. clear E. cbn [rev]. unfold rounds at 1. rewrite fold_left_app.
  specialize (IH (round salt b k) (round_block salt b k Hb)). unfold rounds at 1 in IH.
  destruct (fold_left (round salt) (rev keys) (rounds salt keys (round salt b k))) as [l r]. injection IH as -> ->.
  cbn. f_equal. destruct Hb. destruct b as [bl br]. cbn in *. by rewrite (xor_cancel _ _ 32); [|done|apply length_f].
Qed.

Lemma des_rounds salt keys x : length x = 64 -> exists b, block b /\ halves (permute IP x) = b /\ des salt keys x = permute FP ((rounds salt keys b).1 ++ (rounds salt keys b).2).
Proof.
  intros Hx. exists (halves (permute IP x)). split; [apply halves_block; apply length_permute|]. split; [done|]. unfold des. by destruct (rounds _ _ _).
Qed.
Lemma length_des salt keys x : length (des salt keys x) = 64.
Proof. unfold des. destruct (rounds _ _ _). apply length_permute. Qed.

Theorem des_undo salt keys x : length x = 64 -> des salt (rev keys) (des salt keys x) = x.
Proof.
  intros Hx. destruct (des_rounds salt keys x Hx) as (b & Hb & Eb & ->). unfold des.
  pose proof (rounds_block salt keys b Hb) as Hc. rewrite IP_FP by (rewrite length_app; destruct Hc; lia).
  rewrite halves_app, rounds_undo by done. destruct b as [l r]. unfold halves in Eb. injection Eb as <- <-.
  change (permute FP (take 32 (permute IP x) ++ drop 32 (permute IP x)) = x). rewrite take_drop. by apply FP_IP.
Qed.

(** Between two encipherments the permutations cancel. *)
Lemma des_iter salt keys n x :
  length x = 64 ->
  Nat.iter n (des salt keys) x = permute FP (let b := Nat.iter n (rounds salt keys) (halves (permute IP x)) in b.1 ++ b.2) /\
  block (Nat.iter n (rounds salt keys) (halves (permute IP x))).
Proof.
  intros Hx. induction n as [|n [IH Hb]].
  - cbn. split; [|apply halves_block; apply length_permute]. rewrite take_drop. by rewrite FP_IP.
  - rewrite !Nat.iter_succ, IH. split; [|by apply rounds_block]. unfold des. cbv zeta. rewrite IP_FP by (rewrite length_app; destruct Hb; lia).
    rewrite halves_app by done. by destruct (rounds salt keys _).
Qed.

(** ** Keys *)
Lemma rotate_rotate a b x : a + b <= length x -> rotate a (rotate b x) = rotate (a + b) x.
Proof.
  intros Hab. unfold rotate. rewrite drop_app_le, take_app_le by (rewrite length_drop; lia). rewrite drop_drop, <- app_assoc. f_equal; [f_equal; lia|].
  rewrite (Nat.add_comm a b). rewrite <- (take_drop b (take (b + a) x)). f_equal.
  - rewrite take_take. f_equal. lia.
  - rewrite skipn_firstn_comm. f_equal. lia.
Qed.
End DesSpec.
