(* ===== verification/Des.v ===== *)
(** The Data Encryption Standard as musl computes it (src/crypt/crypt_des.c:
    setup_salt, __des_setkey, __do_des, des_cipher; encrypt.c: setkey,
    encrypt): words of 32 bits and tables that permute a few bits at a time.
    The theorems say that it is the cipher of DesSpec. *)

From stdpp Require Import base tactics list numbers.
From Stdlib Require Import ZArith Lia.
From S2P Require Import Prelude DesTables DesSpec.

#[local] Open Scope Z_scope.

Module Des.
Import Prelude DesTables.

(** ** Operations *)

(** [table[i][v]] *)
Definition row (t : list (list Z)) (i : nat) (v : Z) : Z := nth (Z.to_nat v) (nth i t []) 0.
(** [(w >> s) & 0xf], [& 7], [& 0x3f] *)
Definition nibble (w s : Z) : Z := Z.land (Z.shiftr w s) 0xf.
Definition three (w s : Z) : Z := Z.land (Z.shiftr w s) 7.
Definition sixbits (w s : Z) : Z := Z.land (Z.shiftr w s) 0x3f.
(** [(uint32_t)b[3] | ((uint32_t)b[2] << 8) | ...] *)
Definition be32 (b : list Z) (i : nat) : Z :=
  Z.lor (Z.lor (Z.lor (nth (i + 3) b 0) (Z.shiftl (nth (i + 2) b 0) 8)) (Z.shiftl (nth (i + 1) b 0) 16)) (Z.shiftl (nth i b 0) 24).

Definition salt_step (salt : Z) (s : Z * Z * Z) : Z * Z * Z :=
  let '(saltbits, saltbit, obit) := s in
  (if negb (Z.land salt saltbit =? 0) then Z.lor saltbits obit else saltbits, u32 (Z.shiftl saltbit 1), Z.shiftr obit 1).
Definition setup_salt (salt : Z) : Z :=
  let '(saltbits, _, _) := Nat.iter 24 (salt_step salt) (0, 1, 0x800000) in saltbits.

Record expanded_key := mkKey { ek_l : list Z; ek_r : list Z }.

(** The two halves of the permuted key. *)
Definition key_perm (rawkey0 rawkey1 : Z) : Z * Z :=
  let '(k0, k1, _) :=
    fold_left (fun '(k0, k1, ibit) i =>
      let j := (2 * i)%nat in
      let k0 := Z.lor k0 (Z.lor (row key_perm_maskl i (nibble rawkey0 ibit)) (row key_perm_maskl (i + 4) (nibble rawkey1 ibit))) in
      let k1 := Z.lor k1 (row key_perm_maskr j (nibble rawkey0 ibit)) in
      let ibit := ibit - 4 in
      let k1 := Z.lor k1 (Z.lor (row key_perm_maskr (j + 1) (nibble rawkey0 ibit)) (row key_perm_maskr (i + 8) (nibble rawkey1 ibit))) in
      (k0, k1, ibit - 4)) (seq 0 4) (0, 0, 28) in
  (k0, k1).
Definition compress (t0 t1 : Z) : Z * Z :=
  let '(kl, kr, _) :=
    fold_left (fun '(kl, kr, ibit) i =>
      let kl := Z.lor kl (row comp_maskl0 i (three t0 ibit)) in
      let kr := Z.lor kr (row comp_maskr0 i (three t1 ibit)) in
      let ibit := ibit - 4 in
      let kl := Z.lor kl (row comp_maskl1 i (nibble t0 ibit)) in
      let kr := Z.lor kr (row comp_maskr1 i (nibble t1 ibit)) in
      (kl, kr, ibit - 3)) (seq 0 4) (0, 0, 25) in
  (kl, kr).
Definition turned (k shifts : Z) : Z := Z.lor (u32 (Z.shiftl k shifts)) (Z.shiftr k (28 - shifts)).
(** The rounds of [__des_setkey]: [ekey->l[round]] and [ekey->r[round]]. *)
Fixpoint round_keys (ss : list Z) (shifts k0 k1 : Z) : list (Z * Z) :=
  match ss with
  | [] => []
  | s :: ss' => let shifts := shifts + s in compress (turned k0 shifts) (turned k1 shifts) :: round_keys ss' shifts k0 k1
  end.
Definition __des_setkey (key : list Z) : expanded_key :=
  let (k0, k1) := key_perm (be32 key 0) (be32 key 4) in
  let ks := round_keys key_shifts 0 k0 k1 in
  mkKey (fst <$> ks) (snd <$> ks).

Definition initial (l_in r_in : Z) : Z * Z :=
  let '(l, r, _) :=
    fold_left (fun '(l, r, ibit) i =>
      (Z.lor l (Z.lor (row ip_maskl i (nibble l_in ibit)) (row ip_maskl (i + 8) (nibble r_in ibit))),
       Z.lor r (Z.lor (row ip_maskr i (nibble l_in ibit)) (row ip_maskr (i + 8) (nibble r_in ibit))), ibit - 4)) (seq 0 8) (0, 0, 28) in
  (l, r).
Definition final (l r : Z) : Z * Z :=
  let '(lo, ro, _) :=
    fold_left (fun '(lo, ro, ibit) i =>
      let ro := Z.lor ro (Z.lor (row fp_maskr i (nibble l ibit)) (row fp_maskr (i + 4) (nibble r ibit))) in
      let ibit := ibit - 4 in
      let lo := Z.lor lo (Z.lor (row fp_maskl i (nibble l ibit)) (row fp_maskl (i + 4) (nibble r ibit))) in
      (lo, ro, ibit - 4)) (seq 0 4) (0, 0, 28) in
  (lo, ro).

Definition expand_l (r : Z) : Z :=
  Z.lor (Z.lor (Z.lor (Z.lor (Z.shiftl (Z.land r 0x00000001) 23) (Z.shiftr (Z.land r 0xf8000000) 9))
    (Z.shiftr (Z.land r 0x1f800000) 11)) (Z.shiftr (Z.land r 0x01f80000) 13)) (Z.shiftr (Z.land r 0x001f8000) 15).
Definition expand_r (r : Z) : Z :=
  Z.lor (Z.lor (Z.lor (Z.lor (Z.shiftl (Z.land r 0x0001f800) 7) (Z.shiftl (Z.land r 0x00001f80) 5))
    (Z.shiftl (Z.land r 0x000001f8) 3)) (Z.shiftl (Z.land r 0x0000001f) 1)) (Z.shiftr (Z.land r 0x80000000) 31).
Definition lookup_s (r48l r48r : Z) : Z :=
  Z.lor (Z.lor (Z.lor (Z.lor (Z.lor (Z.lor (Z.lor (row psbox 0 (Z.shiftr r48l 18)) (row psbox 1 (sixbits r48l 12)))
    (row psbox 2 (sixbits r48l 6))) (row psbox 3 (Z.land r48l 0x3f))) (row psbox 4 (Z.shiftr r48r 18)))
    (row psbox 5 (sixbits r48r 12))) (row psbox 6 (sixbits r48r 6))) (row psbox 7 (Z.land r48r 0x3f)).

(** A turn of [while (round--)]: [l], [r] and [f]. *)
Definition des_round (saltbits : Z) (s : Z * Z * Z) (k : Z * Z) : Z * Z * Z :=
  let '(l, r, _) := s in
  let r48l := expand_l r in
  let r48r := expand_r r in
  let f := Z.land (Z.lxor r48l r48r) saltbits in
  let r48l := Z.lxor r48l (Z.lxor f k.1) in
  let r48r := Z.lxor r48r (Z.lxor f k.2) in
  let f := Z.lxor (lookup_s r48l r48r) l in
  (r, f, f).
Fixpoint count_loop (count : nat) (saltbits : Z) (ekey : expanded_key) (l r : Z) : Z * Z :=
  match count with
  | O => (l, r)
  | S count' =>
    let '(l, _, f) := fold_left (des_round saltbits) (zip (ek_l ekey) (ek_r ekey)) (l, r, 0) in
    count_loop count' saltbits ekey f l
  end.
Definition __do_des (l_in r_in : Z) (count : nat) (saltbits : Z) (ekey : expanded_key) : Z * Z :=
  let (l, r) := if negb (Z.lor l_in r_in =? 0) then initial l_in r_in else (0, 0) in
  let (l, r) := count_loop count saltbits ekey l r in
  final l r.

(** [out[0] = w >> 24; out[1] = w >> 16; ...] *)
Definition bytes32 (w : Z) : list Z := [u8 (Z.shiftr w 24); u8 (Z.shiftr w 16); u8 (Z.shiftr w 8); u8 w].
Definition des_cipher (input : list Z) (count : nat) (saltbits : Z) (ekey : expanded_key) : list Z :=
  let (l_out, r_out) := __do_des (be32 input 0) (be32 input 4) count saltbits ekey in
  bytes32 l_out ++ bytes32 r_out.

(** *** setkey, encrypt *)

(** [n] characters, each a bit, the highest first. *)
Definition gather_bits (n : nat) (b : list Z) (i : nat) : Z :=
  fold_left (fun a k => Z.lor a (Z.shiftl (Z.land (nth (i + k) b 0) 1) (Z.of_nat (n - 1 - k)))) (seq 0 n) 0.
Definition setkey (key : list Z) : expanded_key := __des_setkey ((fun i => gather_bits 8 key (8 * i)) <$> seq 0 8).
Definition spread_bits (w : Z) : list Z := (fun k => Z.land (Z.shiftr w (Z.of_nat (31 - k))) 1) <$> seq 0 32.
(** Decryption takes the key's arrays backwards. *)
Definition encrypt (__encrypt_key : expanded_key) (block : list Z) (edflag : Z) : list Z :=
  let b0 := gather_bits 32 block 0 in
  let b1 := gather_bits 32 block 32 in
  let key :=
    if negb (edflag =? 0)
    then mkKey ((fun i => nth (15 - i) (ek_l __encrypt_key) 0) <$> seq 0 16) ((fun i => nth (15 - i) (ek_r __encrypt_key) 0) <$> seq 0 16)
    else __encrypt_key in
  let (b0, b1) := __do_des b0 b1 1 0 key in
  spread_bits b0 ++ spread_bits b1.


(** ** Words put together from masks

    [scatter ms x]: each bit [q] of the input that is set contributes its mask. *)
Fixpoint scatter (ms : list (nat * Z)) (x : nat -> bool) : Z :=
  match ms with
  | [] => 0
  | (q, m) :: ms' => Z.lor (if x q then m else 0) (scatter ms' x)
  end.

Lemma scatter_app a b x : scatter (a ++ b) x = Z.lor (scatter a x) (scatter b x).
Proof. induction a as [|[q m] a IH]; [done|]. cbn. by rewrite IH, Z.lor_assoc. Qed.
Lemma scatter_testbit ms x j : Z.testbit (scatter ms x) j = existsb (fun '(q, m) => x q && Z.testbit m j) ms.
Proof.
  induction ms as [|[q m] ms IH]; [by rewrite Z.bits_0|]. cbn. rewrite Z.lor_spec, IH. f_equal. destruct (x q); [done|by rewrite Z.bits_0].
Qed.

(** The bits that go to place [j]. *)
Definition sources (ms : list (nat * Z)) (j : Z) : list nat := (List.filter (fun p => Z.testbit p.2 j) ms).*1.
Lemma scatter_source ms x j q : sources ms j = [q] -> Z.testbit (scatter ms x) j = x q.
Proof.
  rewrite scatter_testbit. revert q. unfold sources. induction ms as [|[q' m] ms IH]; intros q; [done|]. cbn.
  destruct (Z.testbit m j); cbn.
  - intros [= -> E]. rewrite andb_true_r. assert (N : existsb (fun '(q, m) => x q && Z.testbit m j) ms = false).
    { apply fmap_nil_inv in E. clear -E. induction ms as [|[q' m] ms IH]; [done|]. cbn in *. destruct (Z.testbit m j); [done|]. by rewrite andb_false_r, IH. }
    by rewrite N, orb_false_r.
  - intros E. rewrite andb_false_r. cbn. by apply IH.
Qed.

(** The masks permute a word of [k] bits by [t]. *)
Definition permutes (ms : list (nat * Z)) (k : nat) (t : list nat) : bool :=
  forallb (fun i => bool_decide (sources ms (Z.of_nat (length t - 1 - i)) = [(k - nth i t 0)%nat] /\ 1 <= nth i t 0 <= k)%nat) (seq 0 (length t)).
Lemma scatter_permute ms t X x :
  permutes ms (length X) t = true -> (forall q, (q < length X)%nat -> x q = nth (length X - 1 - q) X false) ->
  DesSpec.word_bits (length t) (scatter ms x) = DesSpec.permute t X.
Proof.
  intros Hp Hx. unfold permutes in Hp. rewrite forallb_forall in Hp.
  apply list_eq_same_length with (n := length t); [apply DesSpec.length_permute|apply DesSpec.length_word_bits|]. intros i a b Hi Ha Hb.
  unfold DesSpec.word_bits in Ha. unfold DesSpec.permute in Hb. rewrite list_lookup_fmap, lookup_seq_lt in Ha by done. cbn in Ha. injection Ha as <-.
  destruct (lookup_lt_is_Some_2 t i Hi) as (j & Ej). rewrite list_lookup_fmap, Ej in Hb. cbn in Hb. injection Hb as <-.
  specialize (Hp i ltac:(apply in_seq; lia)). apply bool_decide_eq_true in Hp. rewrite (nth_lookup_Some _ _ 0%nat _ Ej) in Hp. destruct Hp as [Hs Hr].
  rewrite (scatter_source _ _ _ _ Hs), Hx by lia. f_equal. lia.
Qed.

Definition masks_below (n : Z) (ms : list (nat * Z)) : bool := forallb (fun p => (0 <=? p.2) && (p.2 <? 2 ^ n)) ms.
Lemma scatter_range n ms x : 0 <= n -> masks_below n ms = true -> 0 <= scatter ms x < 2 ^ n.
Proof.
  intros Hn. assert (0 < 2 ^ n) by lia. induction ms as [|[q m] ms IH]; cbn; [lia|]. rewrite !andb_true_iff, Z.leb_le, Z.ltb_lt. intros [Hm Hms].
  apply lor_range; [done|destruct (x q); lia|by apply IH].
Qed.

(** A row of a table, looked up with [k] bits from [s] on, is such a word. *)
Definition row_masks (k : nat) (r : list Z) (q0 : nat) : list (nat * Z) := (fun b => ((q0 + b)%nat, nth (2 ^ b) r 0)) <$> seq 0 k.
Definition row_ok (k : nat) (r : list Z) : bool :=
  forallb (fun v => nth v r 0 =? scatter (row_masks k r 0) (fun b => Z.testbit (Z.of_nat v) (Z.of_nat b))) (seq 0 (2 ^ k)).

Lemma row_scatter k r w s x q0 :
  row_ok k r = true -> 0 <= s -> (forall b, (b < k)%nat -> Z.testbit w (s + Z.of_nat b) = x (q0 + b)%nat) ->
  nth (Z.to_nat (Z.land (Z.shiftr w s) (Z.ones (Z.of_nat k)))) r 0 = scatter (row_masks k r q0) x.
Proof.
  intros Hr Hs Hx. set (v := Z.land (Z.shiftr w s) (Z.ones (Z.of_nat k))).
  assert (Hv : 0 <= v < 2 ^ Z.of_nat k) by (unfold v; rewrite Z.land_ones by lia; apply Z.mod_pos_bound; lia).
  unfold row_ok in Hr. rewrite forallb_forall in Hr. specialize (Hr (Z.to_nat v)). rewrite Z2Nat.id in Hr by lia.
  assert (Hin : In (Z.to_nat v) (seq 0 (2 ^ k))).
  { apply in_seq. pose proof (Nat2Z.inj_pow 2 k) as E. change (Z.of_nat 2) with 2 in E. lia. }
  apply Hr, Z.eqb_eq in Hin. rewrite Hin. clear Hin Hr.
  assert (G : forall l, (forall b, b ∈ l -> (b < k)%nat) ->
    scatter ((fun b => ((0 + b)%nat, nth (2 ^ b) r 0)) <$> l) (fun b => Z.testbit v (Z.of_nat b)) = scatter ((fun b => ((q0 + b)%nat, nth (2 ^ b) r 0)) <$> l) x).
  { induction l as [|b l IH]; intros Hl; [done|]. rewrite !fmap_cons. cbn [scatter]. rewrite IH by (intros; apply Hl; by right). f_equal.
    change (0 + b)%nat with b. assert (Hb : (b < k)%nat) by (apply Hl; left). unfold v. rewrite Z.land_spec, Z.shiftr_spec, Z.ones_spec_low, andb_true_r by lia.
    by rewrite (Z.add_comm (Z.of_nat b)), Hx. }
  apply G. intros b Hb. apply list_elem_of_In, in_seq in Hb. lia.
Qed.

(** Two words of [n] bits as one. *)
Definition pair_bits (n : nat) (l r : Z) (q : nat) : bool :=
  if (q <? n)%nat then Z.testbit r (Z.of_nat q) else Z.testbit l (Z.of_nat (q - n)).
Definition two_words (n : nat) (l r : Z) : list bool := DesSpec.word_bits n l ++ DesSpec.word_bits n r.
Lemma length_two_words n l r : length (two_words n l r) = (n + n)%nat.
Proof. unfold two_words. by rewrite length_app, !DesSpec.length_word_bits. Qed.
Lemma nth_word_bits n w i : (i < n)%nat -> nth i (DesSpec.word_bits n w) false = Z.testbit w (Z.of_nat (n - 1 - i)).
Proof. intros Hi. apply nth_lookup_Some. unfold DesSpec.word_bits. by rewrite list_lookup_fmap, lookup_seq_lt. Qed.
Lemma pair_bits_nth n l r q : (q < length (two_words n l r))%nat -> pair_bits n l r q = nth (length (two_words n l r) - 1 - q) (two_words n l r) false.
Proof.
  rewrite length_two_words. intros Hq. unfold pair_bits, two_words. destruct (Nat.ltb_spec q n).
  - rewrite app_nth2 by (rewrite DesSpec.length_word_bits; lia). rewrite DesSpec.length_word_bits, nth_word_bits by lia. do 2 f_equal. lia.
  - rewrite app_nth1 by (rewrite DesSpec.length_word_bits; lia). rewrite nth_word_bits by lia. do 2 f_equal. lia.
Qed.

(** A row indexed by bits of the left or of the right word. *)
Lemma left_row k n r l rr s :
  row_ok k r = true -> 0 <= s ->
  nth (Z.to_nat (Z.land (Z.shiftr l s) (Z.ones (Z.of_nat k)))) r 0 = scatter (row_masks k r (n + Z.to_nat s)) (pair_bits n l rr).
Proof.
  intros Hr Hs. apply row_scatter; [done|done|]. intros b Hb. unfold pair_bits. destruct (Nat.ltb_spec (n + Z.to_nat s + b) n); [lia|]. f_equal. lia.
Qed.
Lemma right_row k n r l rr s :
  row_ok k r = true -> 0 <= s -> (Z.to_nat s + k <= n)%nat ->
  nth (Z.to_nat (Z.land (Z.shiftr rr s) (Z.ones (Z.of_nat k)))) r 0 = scatter (row_masks k r (Z.to_nat s)) (pair_bits n l rr).
Proof.
  intros Hr Hs Hn. apply row_scatter; [done|done|]. intros b Hb. unfold pair_bits. destruct (Nat.ltb_spec (Z.to_nat s + b) n); [|lia]. f_equal. lia.
Qed.

#[local] Arguments row : simpl never.
#[local] Arguments two_words : simpl never.
#[local] Arguments nibble : simpl never.
#[local] Arguments three : simpl never.
#[local] Arguments Z.lor : simpl never.

(** Turns the look-ups of a loop that was run into one [scatter]. *)
Ltac one_row n l r k x t i w s :=
  change x with (nth (Z.to_nat (Z.land (Z.shiftr w s) (Z.ones (Z.of_nat k)))) (nth i t []) 0);
  first [unify w l; rewrite (left_row k n (nth i t []) l r s) by (vm_compute; done || lia)
        |unify w r; rewrite (right_row k n (nth i t []) l r s) by (vm_compute; done || lia)].
Ltac all_rows n l r :=
  rewrite !Z.lor_0_l;
  repeat match goal with
  | |- context [row ?t ?i (nibble ?w ?s)] => one_row n l r 4%nat (row t i (nibble w s)) t i w s
  | |- context [row ?t ?i (three ?w ?s)] => one_row n l r 3%nat (row t i (three w s)) t i w s
  end;
  rewrite <- !scatter_app.

(** The two halves of what a pass over tables computes. *)
Record passes (n : nat) (x : list bool) (t : list nat) (k : nat) (o : Z * Z) : Prop := {
  ps_left : 0 <= o.1 < 2 ^ Z.of_nat k;
  ps_right : 0 <= o.2 < 2 ^ Z.of_nat k;
  ps_bits : two_words k o.1 o.2 = DesSpec.permute t x
}.
Lemma passes_intro n l r t k ml mr :
  permutes ml (n + n) (take k t) && permutes mr (n + n) (drop k t) && masks_below (Z.of_nat k) ml && masks_below (Z.of_nat k) mr && (length t =? k + k)%nat = true ->
  passes n (two_words n l r) t k (scatter ml (pair_bits n l r), scatter mr (pair_bits n l r)).
Proof.
  rewrite !andb_true_iff, Nat.eqb_eq. intros [[[[Hl Hr] Bl] Br] Ht].
  assert (P : forall ms s, length s = k -> permutes ms (n + n) s = true -> DesSpec.word_bits k (scatter ms (pair_bits n l r)) = DesSpec.permute s (two_words n l r)).
  { intros ms s <- Hp. apply scatter_permute; [by rewrite length_two_words|apply pair_bits_nth]. }
  split; [apply scatter_range; (done || lia)|apply scatter_range; (done || lia)|]. unfold two_words at 1. cbn.
  rewrite (P ml (take k t)), (P mr (drop k t)) by (done || (rewrite ?length_take, ?length_drop; lia)).
  unfold DesSpec.permute. by rewrite <- fmap_app, take_drop.
Qed.

Lemma initial_spec l r : passes 32 (two_words 32 l r) DesSpec.IP 32 (initial l r).
Proof. unfold initial. cbn. all_rows 32%nat l r. apply passes_intro. vm_compute. done. Qed.
Lemma final_spec l r : passes 32 (two_words 32 l r) DesSpec.FP 32 (final l r).
Proof. unfold final. cbn. all_rows 32%nat l r. apply passes_intro. vm_compute. done. Qed.
Lemma key_perm_spec l r : passes 32 (two_words 32 l r) DesSpec.PC1 28 (key_perm l r).
Proof. unfold key_perm. cbn. all_rows 32%nat l r. apply passes_intro. vm_compute. done. Qed.
Lemma compress_spec l r : passes 28 (two_words 28 l r) DesSpec.PC2 24 (compress l r).
Proof. unfold compress. cbn. all_rows 28%nat l r. apply passes_intro. vm_compute. done. Qed.

(** ** The expansion *)

Definition bits_of (m : Z) : list nat := List.filter (fun q => Z.testbit m (Z.of_nat q)) (seq 0 32).
Definition bit_masks (s : Z) (l : list nat) : list (nat * Z) := map (fun q => (q, 2 ^ (Z.of_nat q + s))) l.
Lemma in_bits_of m q : 0 <= m < 2 ^ 32 -> In q (bits_of m) <-> Z.testbit m (Z.of_nat q) = true.
Proof.
  intros Hm. unfold bits_of. rewrite filter_In, in_seq. split; [by intros [_ H]|]. intros H. split; [|done]. split; [lia|].
  destruct (Nat.lt_ge_cases q 32); [done|]. rewrite (testbit_high m 32) in H by lia. done.
Qed.
Lemma mask_scatter r m s l :
  (forall q, In q l <-> Z.testbit m (Z.of_nat q) = true) -> Z.shiftl (Z.land r m) s = scatter (bit_masks s l) (fun q => Z.testbit r (Z.of_nat q)).
Proof.
  intros Hl. apply Z.bits_inj'. intros j Hj. rewrite Z.shiftl_spec, Z.land_spec, scatter_testbit by done. apply eq_true_iff_eq. rewrite andb_true_iff, existsb_exists.
  split.
  - intros [Hr Hb]. destruct (Z_lt_ge_dec (j - s) 0); [by rewrite Z.testbit_neg_r in Hb by lia|].
    exists (Z.to_nat (j - s), 2 ^ (Z.of_nat (Z.to_nat (j - s)) + s)). rewrite Z2Nat.id by lia. split.
    + unfold bit_masks. apply in_map_iff. exists (Z.to_nat (j - s)). rewrite Z2Nat.id by lia. split; [done|]. apply Hl. by rewrite Z2Nat.id by lia.
    + rewrite Hr. replace (j - s + s) with j by lia. rewrite andb_true_l. by rewrite Z.pow2_bits_true.
  - intros ([q w] & Hin & Hb). unfold bit_masks in Hin. apply in_map_iff in Hin as (q' & E & Hin). injection E as -> <-. apply Hl in Hin.
    apply andb_true_iff in Hb as [Hr Hb]. destruct (Z_lt_ge_dec (Z.of_nat q + s) 0) as [Hn|Hn].
    + rewrite Z.pow_neg_r, Z.bits_0 in Hb by lia. done.
    + rewrite Z.pow2_bits_eqb in Hb by lia. apply Z.eqb_eq in Hb. replace (j - s) with (Z.of_nat q) by lia. done.
Qed.
Lemma shift_scatter r m s : 0 <= m < 2 ^ 32 -> Z.shiftl (Z.land r m) s = scatter (bit_masks s (bits_of m)) (fun q => Z.testbit r (Z.of_nat q)).
Proof. intros Hm. apply mask_scatter. intros q. by apply in_bits_of. Qed.

Lemma expand_spec r :
  0 <= expand_l r < 2 ^ 24 /\ 0 <= expand_r r < 2 ^ 24 /\ two_words 24 (expand_l r) (expand_r r) = DesSpec.permute DesSpec.E (DesSpec.word_bits 32 r).
Proof.
  assert (G : exists ml mr, expand_l r = scatter ml (fun q => Z.testbit r (Z.of_nat q)) /\ expand_r r = scatter mr (fun q => Z.testbit r (Z.of_nat q)) /\
    permutes ml 32 (take 24 DesSpec.E) && permutes mr 32 (drop 24 DesSpec.E) && masks_below 24 ml && masks_below 24 mr = true).
  { do 2 eexists. split_and!.
    - unfold expand_l, Z.shiftr. rewrite !shift_scatter by done. rewrite <- !scatter_app. reflexivity.
    - unfold expand_r, Z.shiftr. rewrite !shift_scatter by done. rewrite <- !scatter_app. reflexivity.
    - vm_compute. done. }
  destruct G as (ml & mr & -> & -> & G). rewrite !andb_true_iff in G. destruct G as [[[Hl Hr] Bl] Br].
  split; [by apply scatter_range|]. split; [by apply scatter_range|].
  assert (P : forall ms t, length t = 24%nat -> permutes ms 32 t = true ->
    DesSpec.word_bits 24 (scatter ms (fun q => Z.testbit r (Z.of_nat q))) = DesSpec.permute t (DesSpec.word_bits 32 r)).
  { intros ms t <- Hp. apply scatter_permute; rewrite DesSpec.length_word_bits; [done|]. intros q Hq. rewrite nth_word_bits by lia. f_equal. lia. }
  unfold two_words. rewrite (P ml (take 24 DesSpec.E)), (P mr (drop 24 DesSpec.E)) by done. reflexivity.
Qed.

(** ** The substitution *)

Definition box_ok (i v : nat) : bool :=
  forallb (fun j => let p := (nth j DesSpec.P 0 - 1)%nat in
    Bool.eqb (Z.testbit (row psbox i (Z.of_nat v)) (31 - Z.of_nat j))
      ((p / 4 =? i)%nat && nth (p mod 4) (DesSpec.S_box (nth i DesSpec.S_boxes []) (DesSpec.word_bits 6 (Z.of_nat v))) false))
  (seq 0 32) && (0 <=? row psbox i (Z.of_nat v)) && (row psbox i (Z.of_nat v) <? 2 ^ 32).
Lemma psbox_checked : forallb (fun i => forallb (box_ok i) (seq 0 64)) (seq 0 8) = true.
Proof. vm_compute. reflexivity. Qed.
Lemma forallb_seq (p : nat -> bool) n i : forallb p (seq 0 n) = true -> (i < n)%nat -> p i = true.
Proof. rewrite forallb_forall. intros H Hi. apply H, in_seq. lia. Qed.
Lemma box_checked i v : (i < 8)%nat -> 0 <= v < 64 -> box_ok i (Z.to_nat v) = true.
Proof. intros Hi Hv. pose proof (forallb_seq _ _ i psbox_checked Hi) as H. apply (forallb_seq _ _ _ H). lia. Qed.
Lemma psbox_bit i v j :
  (i < 8)%nat -> 0 <= v < 64 -> (j < 32)%nat -> let p := (nth j DesSpec.P 0 - 1)%nat in
  Z.testbit (row psbox i v) (31 - Z.of_nat j) = (p / 4 =? i)%nat && nth (p mod 4) (DesSpec.S_box (nth i DesSpec.S_boxes []) (DesSpec.word_bits 6 v)) false.
Proof.
  intros Hi Hv Hj. pose proof (box_checked i v Hi Hv) as H. unfold box_ok in H. rewrite Z2Nat.id, !andb_true_iff in H by lia.
  destruct H as [[H _] _]. apply eqb_prop. exact (forallb_seq _ _ j H Hj).
Qed.
Lemma psbox_range i v : (i < 8)%nat -> 0 <= v < 64 -> 0 <= row psbox i v < 2 ^ 32.
Proof.
  intros Hi Hv. pose proof (box_checked i v Hi Hv) as H. unfold box_ok in H. rewrite Z2Nat.id, !andb_true_iff, Z.leb_le, Z.ltb_lt in H by lia. lia.
Qed.

(** The index of box [i]. *)
Definition box_index (a b : Z) (i : nat) : Z := if (i <? 4)%nat then sixbits a (18 - 6 * Z.of_nat i) else sixbits b (18 - 6 * (Z.of_nat i - 4)).
Lemma sixbits_range w s : 0 <= sixbits w s < 64.
Proof. unfold sixbits. change 0x3f with (Z.ones 6). rewrite Z.land_ones by lia. apply Z.mod_pos_bound. lia. Qed.
Lemma box_index_range a b i : 0 <= box_index a b i < 64.
Proof. unfold box_index. destruct (i <? 4)%nat; apply sixbits_range. Qed.
Lemma lookup_s_boxes a b :
  0 <= a < 2 ^ 24 -> 0 <= b < 2 ^ 24 -> lookup_s a b = foldr Z.lor 0 ((fun i => row psbox i (box_index a b i)) <$> seq 0 8).
Proof.
  intros Ha Hb. unfold lookup_s.
  assert (T : forall w, 0 <= w < 2 ^ 24 -> Z.shiftr w 18 = sixbits w 18).
  { intros w Hw. unfold sixbits. change 0x3f with (Z.ones 6). rewrite Z.land_ones, Z.shiftr_div_pow2 by lia.
    rewrite Z.mod_small; [done|]. split; [apply Z.div_pos; lia|apply Z.div_lt_upper_bound; lia]. }
  assert (T0 : forall w, Z.land w 0x3f = sixbits w 0) by (intros w; unfold sixbits; by rewrite Z.shiftr_0_r).
  rewrite !T, !T0 by done. cbn. rewrite Z.lor_0_r, !Z.lor_assoc. reflexivity.
Qed.
Lemma sixbits_bit w s k : 0 <= s -> 0 <= k < 6 -> Z.testbit (sixbits w s) k = Z.testbit w (k + s).
Proof.
  intros Hs Hk. unfold sixbits. change 0x3f with (Z.ones 6). by rewrite Z.land_spec, Z.shiftr_spec, Z.ones_spec_low, andb_true_r by lia.
Qed.
Lemma six_index a b i : (i < 8)%nat -> DesSpec.six i (two_words 24 a b) = DesSpec.word_bits 6 (box_index a b i).
Proof.
  intros Hi. do 8 (destruct i as [|i]; [unfold box_index, DesSpec.word_bits; cbn; rewrite !sixbits_bit by lia; reflexivity|]). lia.
Qed.
Lemma nth_concat (g : nat -> list bool) n : (forall i, length (g i) = 4%nat) -> forall s p, (p < 4 * n)%nat ->
  nth p (concat (g <$> seq s n)) false = nth (p mod 4) (g (s + p / 4)%nat) false.
Proof.
  intros Hg. induction n as [|n IH]; intros s p Hp; [lia|]. cbn [seq]. rewrite fmap_cons. cbn [concat]. destruct (Nat.lt_ge_cases p 4).
  - rewrite app_nth1 by (rewrite Hg; lia). rewrite Nat.mod_small, Nat.div_small by lia. f_equal. f_equal. lia.
  - rewrite app_nth2, Hg, IH by (rewrite ?Hg; lia). replace p with (p - 4 + 1 * 4)%nat at 3 4 by lia. rewrite Nat.Div0.mod_add, Nat.div_add by lia.
    f_equal. f_equal. lia.
Qed.
Lemma foldr_lor_bit {A} (g : A -> Z) l j : Z.testbit (foldr Z.lor 0 (g <$> l)) j = existsb (fun i => Z.testbit (g i) j) l.
Proof. induction l as [|x l IH]; [by rewrite Z.bits_0|]. cbn. by rewrite Z.lor_spec, IH. Qed.
Lemma existsb_one (h : nat -> bool) p n : (p < n)%nat -> existsb (fun i => (p =? i)%nat && h i) (seq 0 n) = h p.
Proof.
  intros Hp. apply eq_true_iff_eq. rewrite existsb_exists. split.
  - intros (i & _ & H). apply andb_true_iff in H as [E H]. apply Nat.eqb_eq in E. by subst.
  - intros H. exists p. split; [apply in_seq; lia|]. by rewrite Nat.eqb_refl.
Qed.
Lemma existsb_ext_in {A} (g h : A -> bool) l : (forall x, In x l -> g x = h x) -> existsb g l = existsb h l.
Proof. induction l as [|x l IH]; intros H; [done|]. cbn. rewrite (H x) by (by left). f_equal. apply IH. intros y Hy. apply H. by right. Qed.

Lemma P_range j : (j < 32)%nat -> (1 <= nth j DesSpec.P 0 <= 32)%nat.
Proof.
  intros Hj. assert (H : forallb (fun j => (1 <=? nth j DesSpec.P 0)%nat && (nth j DesSpec.P 0 <=? 32)%nat) (seq 0 32) = true) by (vm_compute; done).
  pose proof (forallb_seq _ _ j H Hj) as E. cbv beta in E. rewrite andb_true_iff, !Nat.leb_le in E. done.
Qed.

Lemma lookup_s_spec a b :
  0 <= a < 2 ^ 24 -> 0 <= b < 2 ^ 24 ->
  0 <= lookup_s a b < 2 ^ 32 /\ DesSpec.word_bits 32 (lookup_s a b) = DesSpec.permute DesSpec.P (DesSpec.substitute (two_words 24 a b)).
Proof.
  intros Ha Hb. rewrite lookup_s_boxes by done. split.
  - assert (H : Forall (fun i => i < 8)%nat (seq 0 8)) by (by repeat constructor). induction H as [|i l Hi _ IH]; [done|]. cbn.
    apply lor_range; [done|apply psbox_range; [done|apply box_index_range]|done].
  - apply list_eq_same_length with (n := 32%nat); [apply DesSpec.length_permute|apply DesSpec.length_word_bits|]. intros j x y Hj Hx Hy.
    apply (nth_lookup_Some _ _ false) in Hx, Hy. rewrite nth_word_bits in Hx by done. rewrite foldr_lor_bit in Hx. subst x y.
    set (p := (nth j DesSpec.P 0 - 1)%nat). pose proof (P_range j Hj) as Hp.
    assert (Hp4 : (p / 4 < 8)%nat) by (apply Nat.Div0.div_lt_upper_bound; lia).
    rewrite (existsb_ext_in _ (fun i => (p / 4 =? i)%nat && nth (p mod 4) (DesSpec.S_box (nth i DesSpec.S_boxes []) (DesSpec.word_bits 6 (box_index a b i))) false)).
    + rewrite (existsb_one (fun i => nth (p mod 4) (DesSpec.S_box (nth i DesSpec.S_boxes []) (DesSpec.word_bits 6 (box_index a b i))) false)) by done.
      rewrite <- six_index by done. unfold DesSpec.permute. destruct (lookup_lt_is_Some_2 DesSpec.P j Hj) as (v & Ev).
      assert (Ep : p = (v - 1)%nat) by (unfold p; by rewrite (nth_lookup_Some _ _ 0%nat _ Ev)).
      symmetry. rewrite (nth_lookup_Some _ _ _ (nth (v - 1) (DesSpec.substitute (two_words 24 a b)) false)) by (by rewrite list_lookup_fmap, Ev).
      rewrite <- Ep. unfold DesSpec.substitute. rewrite nth_concat; [done| |lia]. intros i. apply DesSpec.length_word_bits.
    + intros i Hi. apply in_seq in Hi. replace (Z.of_nat (32 - 1 - j)) with (31 - Z.of_nat j) by lia. exact (psbox_bit i _ j ltac:(lia) (box_index_range _ _ _) Hj).
Qed.

(** ** A round *)

Lemma zip_with_fmap_same {A B C D} (h : B -> C -> D) (g1 : A -> B) (g2 : A -> C) l : zip_with h (g1 <$> l) (g2 <$> l) = (fun i => h (g1 i) (g2 i)) <$> l.
Proof. induction l as [|x l IH]; [done|]. rewrite !fmap_cons. cbn. by rewrite IH. Qed.

Lemma word_bits_lxor n v w : DesSpec.xor_bits (DesSpec.word_bits n v) (DesSpec.word_bits n w) = DesSpec.word_bits n (Z.lxor v w).
Proof. unfold DesSpec.xor_bits, DesSpec.word_bits. rewrite zip_with_fmap_same. apply list_fmap_ext. intros. by rewrite Z.lxor_spec. Qed.
Lemma xor_bits_app x1 y1 x2 y2 : length x1 = length y1 -> DesSpec.xor_bits (x1 ++ x2) (y1 ++ y2) = DesSpec.xor_bits x1 y1 ++ DesSpec.xor_bits x2 y2.
Proof. intros Hl. unfold DesSpec.xor_bits. by rewrite zip_with_app. Qed.

(** The salt exchanges bits: [f = (a ^ b) & salt; a ^= f; b ^= f]. *)
Lemma choose_bits n salt v w :
  DesSpec.choose (DesSpec.word_bits n salt) (DesSpec.word_bits n v) (DesSpec.word_bits n w) = DesSpec.word_bits n (Z.lxor v (Z.land (Z.lxor v w) salt)).
Proof.
  unfold DesSpec.choose, DesSpec.word_bits. rewrite !zip_with_fmap_same. apply list_fmap_ext. intros k i _. rewrite Z.lxor_spec, Z.land_spec, Z.lxor_spec.
  by destruct (Z.testbit v _), (Z.testbit w _), (Z.testbit salt _).
Qed.
Lemma salted_bits n salt v w : n = 24%nat ->
  DesSpec.salted (DesSpec.word_bits n salt) (two_words n v w) =
  two_words n (Z.lxor v (Z.land (Z.lxor v w) salt)) (Z.lxor w (Z.land (Z.lxor v w) salt)).
Proof.
  intros ->. unfold DesSpec.salted, two_words.
  rewrite take_app_length', drop_app_length' by (by rewrite DesSpec.length_word_bits).
  rewrite !choose_bits. by rewrite (Z.lxor_comm w v).
Qed.

Definition words (s : Z * Z) : list bool * list bool := (DesSpec.word_bits 32 s.1, DesSpec.word_bits 32 s.2).
Definition word32 (w : Z) : Prop := 0 <= w < 2 ^ 32.
Definition good_key (k : Z * Z) : Prop := 0 <= k.1 < 2 ^ 24 /\ 0 <= k.2 < 2 ^ 24.
Definition key_bits (k : Z * Z) : list bool := two_words 24 k.1 k.2.

Lemma des_round_spec salt l r f k :
  word32 l -> word32 r -> good_key k ->
  exists r', des_round salt (l, r, f) k = (r, r', r') /\ word32 r' /\ words (r, r') = DesSpec.round (DesSpec.word_bits 24 salt) (words (l, r)) (key_bits k).
Proof.
  intros Hl Hr [Hk1 Hk2]. destruct (expand_spec r) as (H1 & H2 & He). cbn [des_round]. cbv zeta. eexists. split; [reflexivity|].
  set (v := expand_l r) in *. set (w := expand_r r) in *. clearbody v w. set (g := Z.land (Z.lxor v w) salt).
  assert (Hg : 0 <= g < 2 ^ 24) by (apply land_range; [done|by apply lxor_range]).
  destruct (lookup_s_spec (Z.lxor v (Z.lxor g k.1)) (Z.lxor w (Z.lxor g k.2))) as [Hs Hb]; [by repeat apply lxor_range..|].
  split; [by apply lxor_range|]. unfold DesSpec.round, words. cbn [fst snd]. f_equal. rewrite (Z.lxor_comm _ l), <- word_bits_lxor, Hb. unfold DesSpec.f.
  rewrite <- He, salted_bits by done. fold g. unfold key_bits. unfold two_words at 2 3. rewrite xor_bits_app by (by rewrite !DesSpec.length_word_bits).
  by rewrite !word_bits_lxor, !Z.lxor_assoc.
Qed.

(** Runs of two step functions that stay related. *)
Lemma fold_left_related {A B K L} (R : A -> B -> Prop) (good : K -> Prop) (step : A -> K -> A) (step' : B -> L -> B) (g : K -> L) :
  (forall a b k, R a b -> good k -> R (step a k) (step' b (g k))) ->
  forall ks, Forall good ks -> forall a b, R a b -> R (fold_left step ks a) (fold_left step' (g <$> ks) b).
Proof. intros Hs ks. induction 1 as [|k ks Hk _ IH]; intros a b Hab; [done|]. rewrite fmap_cons. cbn [fold_left]. by apply IH, Hs. Qed.

Lemma fold_left_cons {A B} (h : A -> B -> A) x l a : fold_left h (x :: l) a = fold_left h l (h a x).
Proof. reflexivity. Qed.

(** After a round [f] is [r]. *)
Definition state_ok (s : Z * Z * Z) (b : list bool * list bool) : Prop := word32 s.1.1 /\ word32 s.1.2 /\ s.2 = s.1.2 /\ b = words s.1.
Lemma des_round_ok salt l r f k : word32 l -> word32 r -> good_key k ->
  state_ok (des_round salt (l, r, f) k) (DesSpec.round (DesSpec.word_bits 24 salt) (words (l, r)) (key_bits k)).
Proof.
  intros Hl Hr Hk. destruct (des_round_spec salt l r f k Hl Hr Hk) as (r' & E & Hr' & Ew). rewrite E. split; [exact Hr|]. split; [exact Hr'|]. split; [reflexivity|]. exact (eq_sym Ew).
Qed.
Lemma fold_rounds_spec salt k ks l r f : Forall good_key (k :: ks) -> word32 l -> word32 r ->
  state_ok (fold_left (des_round salt) (k :: ks) (l, r, f)) (fold_left (DesSpec.round (DesSpec.word_bits 24 salt)) (key_bits <$> k :: ks) (words (l, r))).
Proof.
  intros Hk Hl Hr. rewrite fmap_cons, !fold_left_cons. apply (fold_left_related state_ok good_key).
  - intros [[l' r'] f'] b k' (Hl' & Hr' & _ & ->) Hk'. by apply des_round_ok.
  - exact (Forall_inv_tail Hk).
  - apply des_round_ok; try done. exact (Forall_inv Hk).
Qed.

(** ** The cipher *)

Record good_ekey (ekey : expanded_key) : Prop := {
  gk_l : length (ek_l ekey) = 16%nat;
  gk_r : length (ek_r ekey) = 16%nat;
  gk_words : Forall good_key (zip (ek_l ekey) (ek_r ekey))
}.
Definition ekey_bits (ekey : expanded_key) : list (list bool) := key_bits <$> zip (ek_l ekey) (ek_r ekey).

Lemma count_loop_spec count salt ekey : good_ekey ekey -> forall l r, word32 l -> word32 r ->
  let o := count_loop count salt ekey l r in
  word32 o.1 /\ word32 o.2 /\ words o = Nat.iter count (DesSpec.rounds (DesSpec.word_bits 24 salt) (ekey_bits ekey)) (words (l, r)).
Proof.
  intros Hk. destruct (zip (ek_l ekey) (ek_r ekey)) as [|k ks] eqn:Ez.
  { exfalso. apply (f_equal length) in Ez. rewrite length_zip_with, (gk_l _ Hk), (gk_r _ Hk) in Ez. done. }
  pose proof (gk_words _ Hk) as Hg. induction count as [|count IH]; intros l r Hl Hr; [done|]. rewrite Nat.iter_succ_r. cbn [count_loop]. unfold ekey_bits in *. rewrite Ez in *.
  pose proof (fold_rounds_spec salt k ks l r 0 Hg Hl Hr) as Hf. unfold DesSpec.rounds at 2.
  destruct (fold_left (des_round salt) (k :: ks) (l, r, 0)) as [[l' r'] f']. destruct Hf as (Hl' & Hr' & Ef & ->). cbn in Ef. subst f'. by apply IH.
Qed.

Lemma initial_zero : initial 0 0 = (0, 0).
Proof. vm_compute. reflexivity. Qed.

Theorem do_des_spec l r count salt ekey : good_ekey ekey ->
  let o := __do_des l r count salt ekey in
  word32 o.1 /\ word32 o.2 /\ two_words 32 o.1 o.2 = Nat.iter count (DesSpec.des (DesSpec.word_bits 24 salt) (ekey_bits ekey)) (two_words 32 l r).
Proof.
  intros Hk. unfold __do_des. cbv zeta.
  assert (E : (if negb (Z.lor l r =? 0) then initial l r else (0, 0)) = initial l r).
  { destruct (Z.eqb_spec (Z.lor l r) 0) as [E|]; [|done]. apply Z.lor_eq_0_iff in E as [-> ->]. cbn [negb]. by rewrite initial_zero. }
  rewrite E. clear E. pose proof (initial_spec l r) as Hi. destruct (initial l r) as [l1 r1]. destruct Hi as [Hl1 Hr1 Hb]. cbn [fst snd] in *.
  pose proof (count_loop_spec count salt ekey Hk l1 r1 Hl1 Hr1) as Hc. destruct (count_loop count salt ekey l1 r1) as [l2 r2]. destruct Hc as (_ & _ & Hw).
  destruct (final_spec l2 r2) as [Hf1 Hf2 Hf]. split; [done|]. split; [done|]. rewrite Hf.
  destruct (DesSpec.des_iter (DesSpec.word_bits 24 salt) (ekey_bits ekey) count (two_words 32 l r) (length_two_words _ _ _)) as [-> _]. rewrite <- Hb.
  assert (Eh : DesSpec.halves (two_words 32 l1 r1) = words (l1, r1)) by (apply (DesSpec.halves_app (words (l1, r1))); split; apply DesSpec.length_word_bits).
  rewrite Eh, <- Hw. reflexivity.
Qed.

(** ** The keys of the rounds *)

Lemma word_bits_eq n w x : length x = n -> (forall i, (i < n)%nat -> nth i x false = Z.testbit w (Z.of_nat (n - 1 - i))) -> DesSpec.word_bits n w = x.
Proof.
  intros Hx H. apply list_eq_same_length with (n := n); [done|apply DesSpec.length_word_bits|]. intros i a b Hi Ha Hb.
  apply (nth_lookup_Some _ _ false) in Ha, Hb. rewrite nth_word_bits in Ha by done. rewrite H in Hb by done. congruence.
Qed.

Lemma turned_spec k s : 0 <= k < 2 ^ 28 -> 0 <= s <= 28 -> DesSpec.word_bits 28 (turned k s) = DesSpec.rotate (Z.to_nat s) (DesSpec.word_bits 28 k).
Proof.
  intros Hk Hs. unfold DesSpec.rotate. apply word_bits_eq.
  { rewrite length_app, length_drop, length_take, DesSpec.length_word_bits. lia. }
  intros i Hi. set (q := Z.of_nat (28 - 1 - i)). unfold turned. rewrite Z.lor_spec, Z.shiftr_spec by lia. unfold u32. rewrite Z.mod_pow2_bits_low, Z.shiftl_spec by lia.
  destruct (Nat.lt_ge_cases i (28 - Z.to_nat s)) as [Hlt|Hge].
  - rewrite app_nth1 by (rewrite length_drop, DesSpec.length_word_bits; lia). rewrite nth_lookup, lookup_drop, <- nth_lookup, nth_word_bits by lia.
    rewrite (testbit_high k 28 (q + (28 - s))) by lia. rewrite orb_false_r. f_equal. lia.
  - rewrite app_nth2 by (rewrite length_drop, DesSpec.length_word_bits; lia). rewrite length_drop, DesSpec.length_word_bits.
    rewrite (Z.testbit_neg_r k (q - s)) by lia. cbn [orb].
    rewrite nth_lookup, lookup_take_lt, <- nth_lookup by lia. rewrite nth_word_bits by lia. f_equal. lia.
Qed.

Lemma two_words_app n l r : two_words n l r = DesSpec.word_bits n l ++ DesSpec.word_bits n r.
Proof. reflexivity. Qed.

Lemma round_keys_spec k0 k1 ss : 0 <= k0 < 2 ^ 28 -> 0 <= k1 < 2 ^ 28 -> Forall (Z.le 0) ss -> forall sh,
  0 <= sh -> sh + foldr Z.add 0 ss <= 28 ->
  Forall good_key (round_keys ss sh k0 k1) /\ length (round_keys ss sh k0 k1) = length ss /\
  key_bits <$> round_keys ss sh k0 k1 =
    DesSpec.schedule (Z.to_nat <$> ss) (DesSpec.rotate (Z.to_nat sh) (DesSpec.word_bits 28 k0)) (DesSpec.rotate (Z.to_nat sh) (DesSpec.word_bits 28 k1)).
Proof.
  intros H0 H1. induction 1 as [|s ss Hs Hss IH]; intros sh Hsh Hb; [done|]. cbn [foldr] in Hb.
  assert (Hpos : 0 <= foldr Z.add 0 ss) by (clear -Hss; induction Hss as [|x l Hx _ IH]; [done|]; cbn; lia).
  cbn [round_keys]. cbv zeta. rewrite !fmap_cons. cbn [DesSpec.schedule length]. cbv zeta.
  rewrite !DesSpec.rotate_rotate by (rewrite DesSpec.length_word_bits; lia). replace (Z.to_nat s + Z.to_nat sh)%nat with (Z.to_nat (sh + s)) by lia.
  destruct (IH (sh + s)) as (Hg & Hl & ->); [lia|lia|]. rewrite <- !turned_spec by lia.
  destruct (compress_spec (turned k0 (sh + s)) (turned k1 (sh + s))) as [Hc0 Hc1 Hc]. split; [constructor; [by split|done]|]. split; [by rewrite Hl|].
  f_equal. exact Hc.
Qed.

(** Bytes and words. *)
Definition bytes_bits (b : list Z) : list bool := concat (DesSpec.word_bits 8 <$> b).
Lemma word_bits_split m n w : DesSpec.word_bits (m + n) w = DesSpec.word_bits m (Z.shiftr w (Z.of_nat n)) ++ DesSpec.word_bits n w.
Proof.
  apply word_bits_eq; [by rewrite length_app, !DesSpec.length_word_bits|]. intros i Hi. destruct (Nat.lt_ge_cases i m).
  - rewrite app_nth1 by (rewrite DesSpec.length_word_bits; lia). rewrite nth_word_bits, Z.shiftr_spec by lia. f_equal. lia.
  - rewrite app_nth2 by (rewrite DesSpec.length_word_bits; lia). rewrite DesSpec.length_word_bits, nth_word_bits by lia. f_equal. lia.
Qed.
Lemma word_bits_join m n lo hi : 0 <= lo < 2 ^ Z.of_nat n -> DesSpec.word_bits (m + n) (Z.lor lo (Z.shiftl hi (Z.of_nat n))) = DesSpec.word_bits m hi ++ DesSpec.word_bits n lo.
Proof.
  intros Hlo. rewrite word_bits_split. f_equal; apply word_bits_eq; rewrite ?DesSpec.length_word_bits; try done; intros i Hi; rewrite nth_word_bits by done.
  - rewrite Z.shiftr_spec, Z.lor_spec, Z.shiftl_spec, (testbit_high lo (Z.of_nat n)) by lia. cbn [orb]. f_equal. lia.
  - rewrite Z.lor_spec, Z.shiftl_spec by lia. rewrite (Z.testbit_neg_r hi) by lia. by rewrite orb_false_r.
Qed.
Lemma shiftl_range a n k : 0 <= a < 2 ^ n -> 0 <= n -> 0 <= k -> 0 <= Z.shiftl a k < 2 ^ (n + k).
Proof. intros Ha Hn Hk. rewrite Z.shiftl_mul_pow2, Z.pow_add_r by done. nia. Qed.
Lemma be32_bits b i : byte_list b -> DesSpec.word_bits 32 (be32 b i) = bytes_bits ((fun k => nth (i + k) b 0) <$> seq 0 4).
Proof.
  intros Hb. assert (Hn : forall k, 0 <= nth k b 0 < 2 ^ 8).
  { intros k. rewrite nth_lookup. destruct (b !! k) as [c|] eqn:Ek; cbn; [|lia]. exact (Forall_lookup_1 _ _ _ _ Hb Ek). }
  unfold be32. cbn [seq]. rewrite !fmap_cons. unfold bytes_bits. rewrite Nat.add_0_r. cbn [fmap list_fmap concat].
  set (c0 := nth i b 0). set (c1 := nth (i + 1) b 0). set (c2 := nth (i + 2) b 0). set (c3 := nth (i + 3) b 0).
  assert (R2 : 0 <= Z.lor c3 (Z.shiftl c2 8) < 2 ^ 16) by (apply lor_range; [done|pose proof (Hn (i + 3)%nat); lia|exact (shiftl_range c2 8 8 (Hn _) ltac:(done) ltac:(done))]).
  assert (R3 : 0 <= Z.lor (Z.lor c3 (Z.shiftl c2 8)) (Z.shiftl c1 16) < 2 ^ 24) by (apply lor_range; [done|lia|exact (shiftl_range c1 8 16 (Hn _) ltac:(done) ltac:(done))]).
  rewrite (word_bits_join 8 24) by done. f_equal. rewrite (word_bits_join 8 16) by done. f_equal. rewrite (word_bits_join 8 8) by apply Hn. by rewrite app_nil_r.
Qed.
Lemma bytes32_bits w : bytes_bits (bytes32 w) = DesSpec.word_bits 32 w.
Proof.
  assert (U : forall x, DesSpec.word_bits 8 (u8 x) = DesSpec.word_bits 8 x).
  { intros x. apply word_bits_eq; [apply DesSpec.length_word_bits|]. intros i Hi. unfold u8. by rewrite nth_word_bits, Z.mod_pow2_bits_low by lia. }
  unfold bytes_bits, bytes32. rewrite !fmap_cons. cbn [fmap list_fmap concat]. rewrite !U, app_nil_r.
  pose proof (word_bits_split 8 24 w) as E32. pose proof (word_bits_split 8 16 w) as E24. pose proof (word_bits_split 8 8 w) as E16.
  cbn [Nat.add] in *. by rewrite E32, E24, E16.
Qed.
Lemma block_bits b : byte_list b -> length b = 8%nat -> two_words 32 (be32 b 0) (be32 b 4) = bytes_bits b.
Proof.
  intros Hb Hl. rewrite two_words_app, !be32_bits by done. do 8 (destruct b as [|? b]; [done|]). destruct b; [|done].
  unfold bytes_bits. rewrite <- concat_app. reflexivity.
Qed.
Lemma bytes_bits_app a b : bytes_bits (a ++ b) = bytes_bits a ++ bytes_bits b.
Proof. unfold bytes_bits. by rewrite fmap_app, concat_app. Qed.

Lemma des_setkey_spec key : byte_list key -> length key = 8%nat ->
  good_ekey (__des_setkey key) /\ ekey_bits (__des_setkey key) = DesSpec.key_schedule (bytes_bits key).
Proof.
  intros Hb Hl. unfold __des_setkey. pose proof (key_perm_spec (be32 key 0) (be32 key 4)) as Hp. rewrite block_bits in Hp by done.
  destruct (key_perm (be32 key 0) (be32 key 4)) as [k0 k1]. destruct Hp as [H0 H1 Hp]. cbn [fst snd] in *.
  destruct (round_keys_spec k0 k1 key_shifts H0 H1 ltac:(by repeat constructor) 0 ltac:(done) ltac:(vm_compute; done)) as (Hg & Hn & Hk).
  set (ks := round_keys key_shifts 0 k0 k1) in *. clearbody ks.
  assert (Ez : zip ks.*1 ks.*2 = ks) by apply zip_fst_snd. split.
  - split; cbn [ek_l ek_r]; [by rewrite length_fmap, Hn|by rewrite length_fmap, Hn|by rewrite Ez].
  - unfold ekey_bits. cbn [ek_l ek_r]. rewrite Ez, Hk. unfold DesSpec.key_schedule. rewrite <- Hp.
    rewrite two_words_app. unfold DesSpec.rotate. rewrite take_app_length', drop_app_length' by (by rewrite DesSpec.length_word_bits).
    cbn [Z.to_nat drop take]. rewrite !app_nil_r. reflexivity.
Qed.

(** ** Salts and bits as characters *)

(** Decides the comparisons that follow from the context. *)
Ltac decide_leb := repeat match goal with
  | |- context [?a <=? ?b] => first [rewrite (proj2 (Z.leb_le a b)) by lia | rewrite (proj2 (Z.leb_gt a b)) by lia]
  | |- context [?a <? ?b] => first [rewrite (proj2 (Z.ltb_lt a b)) by lia | rewrite (proj2 (Z.ltb_ge a b)) by lia]
  end.

Lemma leb_shift n m j : j <> n - Z.succ m -> (n - Z.succ m <=? j) = (n - m <=? j).
Proof. intros Hj. destruct (Z.leb_spec (n - m) j); [rewrite Z.leb_le|rewrite Z.leb_gt]; lia. Qed.

Lemma setup_salt_loop salt m : (m <= 24)%nat ->
  exists sb, Nat.iter m (salt_step salt) (0, 1, 0x800000) = (sb, 2 ^ Z.of_nat m, Z.shiftr 0x800000 (Z.of_nat m)) /\
    forall j, 0 <= j -> Z.testbit sb j = (24 - Z.of_nat m <=? j) && (j <? 24) && Z.testbit salt (23 - j).
Proof.
  induction m as [|m IH]; intros Hm.
  - exists 0. split; [done|]. intros j Hj. rewrite Z.bits_0. destruct (Z.leb_spec (24 - Z.of_nat 0) j), (Z.ltb_spec j 24); (done || lia).
  - destruct IH as (sb & E & Hb); [lia|]. rewrite Nat.iter_succ, E. cbn [salt_step]. eexists. split.
    + f_equal; [|rewrite Z.shiftr_shiftr by lia; f_equal; lia]. f_equal. rewrite Z.shiftl_mul_pow2 by lia. change (2 ^ 1) with 2.
      assert (Hp : 2 ^ Z.of_nat m <= 2 ^ 23) by (apply Z.pow_le_mono_r; lia). assert (0 < 2 ^ Z.of_nat m) by lia.
      rewrite u32_id, Nat2Z.inj_succ, Z.pow_succ_r by lia. lia.
    + rewrite Nat2Z.inj_succ. intros j Hj. assert (Eo : Z.shiftr 0x800000 (Z.of_nat m) = 2 ^ (23 - Z.of_nat m)) by (change 0x800000 with (2 ^ 23); rewrite Z.shiftr_div_pow2, Z.pow_sub_r by lia; done).
      assert (Es : negb (Z.land salt (2 ^ Z.of_nat m) =? 0) = Z.testbit salt (Z.of_nat m)) by (rewrite <- Z.shiftl_1_l; by rewrite bit_test by lia).
      rewrite Es, Eo. destruct (Z.eq_dec j (23 - Z.of_nat m)) as [->|Hne].
      * replace (23 - (23 - Z.of_nat m)) with (Z.of_nat m) by lia. decide_leb. cbn [andb].
        assert (Ez : Z.testbit sb (23 - Z.of_nat m) = false) by (rewrite Hb by lia; by decide_leb).
        destruct (Z.testbit salt (Z.of_nat m)); [|done]. by rewrite Z.lor_spec, Ez, Z.pow2_bits_true by lia.
      * rewrite leb_shift by lia. rewrite <- Hb by done.
        destruct (Z.testbit salt (Z.of_nat m)); [|done]. by rewrite Z.lor_spec, Z.pow2_bits_false, orb_false_r by lia.
Qed.

(** The bits of the salt in the opposite order. *)
Definition salt_bits (salt : Z) : list bool := (fun i => Z.testbit salt (Z.of_nat i)) <$> seq 0 24.
Lemma setup_salt_spec salt : DesSpec.word_bits 24 (setup_salt salt) = salt_bits salt.
Proof.
  apply word_bits_eq; [unfold salt_bits; by rewrite length_fmap, length_seq|]. intros i Hi. unfold setup_salt.
  destruct (setup_salt_loop salt 24 ltac:(lia)) as (sb & -> & Hb). rewrite Hb by lia. unfold salt_bits.
  rewrite (nth_lookup_Some _ _ _ (Z.testbit salt (Z.of_nat i))) by (by rewrite list_lookup_fmap, lookup_seq_lt).
  decide_leb. cbn [andb]. f_equal. lia.
Qed.

Definition char_bits (b : list Z) : list bool := Z.odd <$> b.
Lemma bit0_testbit c s j : 0 <= s -> 0 <= j -> Z.testbit (Z.shiftl (Z.land c 1) s) j = (j =? s) && Z.odd c.
Proof.
  intros Hs Hj. rewrite Z.shiftl_spec, Z.land_spec by done. destruct (Z.eqb_spec j s) as [->|Hne].
  - rewrite Z.sub_diag, <- Z.bit0_odd. by rewrite andb_true_r.
  - destruct (Z_lt_ge_dec (j - s) 0); [by rewrite !Z.testbit_neg_r by lia|]. rewrite (testbit_high 1 1 (j - s)) by lia. by rewrite andb_false_r.
Qed.
Lemma gather_loop n b i m : (m <= n)%nat ->
  let w := fold_left (fun a k => Z.lor a (Z.shiftl (Z.land (nth (i + k) b 0) 1) (Z.of_nat (n - 1 - k)))) (seq 0 m) 0 in
  0 <= w /\ forall j, 0 <= j -> Z.testbit w j = (Z.of_nat n - Z.of_nat m <=? j) && (j <? Z.of_nat n) && Z.odd (nth (i + (n - 1 - Z.to_nat j)) b 0).
Proof.
  induction m as [|m IH]; intros Hm; cbv zeta.
  - split; [done|]. intros j Hj. cbn [seq fold_left]. rewrite Z.bits_0. destruct (Z.leb_spec (Z.of_nat n - Z.of_nat 0) j), (Z.ltb_spec j (Z.of_nat n)); (done || lia).
  - destruct IH as [Hw Hb]; [lia|]. rewrite seq_S, fold_left_app. cbn [fold_left]. rewrite Nat.add_0_l. set (w := fold_left _ _ _) in *. split.
    + apply Z.lor_nonneg. split; [done|]. apply Z.shiftl_nonneg, Z.land_nonneg. lia.
    + rewrite Nat2Z.inj_succ. intros j Hj. rewrite Z.lor_spec, Hb, bit0_testbit by lia. destruct (Z.eqb_spec j (Z.of_nat (n - 1 - m))) as [->|Hne].
      * decide_leb. cbn [andb orb]. do 2 f_equal. lia.
      * rewrite andb_false_l, orb_false_r. rewrite leb_shift by lia. done.
Qed.
Lemma gather_spec n b i : (i + n <= length b)%nat ->
  0 <= gather_bits n b i < 2 ^ Z.of_nat n /\ DesSpec.word_bits n (gather_bits n b i) = take n (drop i (char_bits b)).
Proof.
  intros Hi. destruct (gather_loop n b i n (Nat.le_refl n)) as [Hw Hb]. fold (gather_bits n b i) in Hw, Hb. split.
  - split; [done|]. apply bits_bound; [done|lia|]. intros j Hj. rewrite Hb by lia. destruct (Z.ltb_spec j (Z.of_nat n)); [lia|]. by rewrite andb_false_r.
  - apply word_bits_eq; [unfold char_bits; rewrite length_take, length_drop, length_fmap; lia|]. intros k Hk. rewrite Hb by lia.
    decide_leb. cbn [andb].
    replace (n - 1 - Z.to_nat (Z.of_nat (n - 1 - k)))%nat with k by lia. unfold char_bits.
    destruct (lookup_lt_is_Some_2 b (i + k) ltac:(lia)) as (c & Ec). rewrite (nth_lookup_Some _ _ 0 _ Ec). apply nth_lookup_Some.
    by rewrite lookup_take_lt, lookup_drop, list_lookup_fmap, Ec by done.
Qed.
Lemma spread_spec w : spread_bits w = Z.b2z <$> DesSpec.word_bits 32 w.
Proof.
  unfold spread_bits, DesSpec.word_bits. rewrite <- list_fmap_compose. apply list_fmap_ext. intros k i _. cbn.
  rewrite (Z.land_ones _ 1), Z.shiftr_div_pow2 by lia. by rewrite <- Z.testbit_spec' by lia.
Qed.
Lemma odd_spread x : char_bits (Z.b2z <$> x) = x.
Proof. unfold char_bits. rewrite <- list_fmap_compose. rewrite <- (list_fmap_id x) at 2. apply list_fmap_ext. by intros i [] _. Qed.
(** ** setkey, encrypt *)

Lemma concat_chunks k m (b : list bool) : length b = (k * m)%nat -> concat ((fun i => take k (drop (k * i) b)) <$> seq 0 m) = b.
Proof.
  intros Hl. assert (G : forall m s, concat ((fun i => take k (drop (k * i) b)) <$> seq s m) = take (k * m) (drop (k * s) b)).
  { clear. induction m as [|m IH]; intros s; [by rewrite Nat.mul_0_r|]. cbn [seq]. rewrite fmap_cons. cbn [concat]. rewrite IH.
    replace (k * S s)%nat with (k * s + k)%nat by lia. rewrite <- drop_drop. replace (k * S m)%nat with (k + k * m)%nat by lia. apply take_take_drop. }
  rewrite G, Nat.mul_0_r, drop_0. apply take_ge. lia.
Qed.

Lemma setkey_spec key : length key = 64%nat -> good_ekey (setkey key) /\ ekey_bits (setkey key) = DesSpec.key_schedule (char_bits key).
Proof.
  intros Hl. unfold setkey. set (b := (fun i => gather_bits 8 key (8 * i)) <$> seq 0 8).
  assert (Hg : forall i, (i < 8)%nat -> 0 <= gather_bits 8 key (8 * i) < 256 /\ DesSpec.word_bits 8 (gather_bits 8 key (8 * i)) = take 8 (drop (8 * i) (char_bits key))).
  { intros i Hi. apply gather_spec. lia. }
  assert (Hb : byte_list b) by (unfold b, byte_list; apply Forall_fmap, Forall_seq; intros i Hi; apply Hg; lia).
  destruct (des_setkey_spec b Hb) as [Hk Ek]; [unfold b; by rewrite length_fmap, length_seq|]. split; [done|]. rewrite Ek. f_equal.
  unfold bytes_bits, b. rewrite <- list_fmap_compose. etransitivity; [|apply (concat_chunks 8 8 (char_bits key)); unfold char_bits; by rewrite length_fmap, Hl].
  f_equal. apply list_fmap_ext. intros k i Hi. apply lookup_seq in Hi. cbn [compose]. apply Hg. lia.
Qed.

Lemma rev_nth_16 (x : list Z) : length x = 16%nat -> (fun i => nth (15 - i) x 0) <$> seq 0 16 = rev x.
Proof. intros Hl. do 16 (destruct x as [|? x]; [done|]). by destruct x. Qed.
Lemma zip_rev {A B} (x : list A) (y : list B) : length x = length y -> zip (rev x) (rev y) = rev (zip x y).
Proof.
  revert y. induction x as [|a x IH]; intros [|b y] Hl; try done. cbn in *. rewrite <- IH by lia.
  rewrite zip_with_app by (rewrite !length_rev; lia). done.
Qed.
Lemma zero_salt : DesSpec.word_bits 24 0 = DesSpec.no_salt.
Proof. reflexivity. Qed.

Lemma encrypt_spec ekey block edflag : good_ekey ekey -> length block = 64%nat ->
  encrypt ekey block edflag = Z.b2z <$> DesSpec.des DesSpec.no_salt (if negb (edflag =? 0) then rev (ekey_bits ekey) else ekey_bits ekey) (char_bits block).
Proof.
  intros Hk Hl. unfold encrypt. cbv zeta. set (k := if negb (edflag =? 0) then _ else _).
  assert (Ek : good_ekey k /\ ekey_bits k = if negb (edflag =? 0) then rev (ekey_bits ekey) else ekey_bits ekey).
  { unfold k. destruct (negb (edflag =? 0)); [|done]. destruct Hk as [H1 H2 H3]. rewrite !rev_nth_16 by done. split.
    - split; cbn [ek_l ek_r]; [by rewrite length_rev|by rewrite length_rev|]. rewrite zip_rev by congruence. by apply Forall_rev.
    - unfold ekey_bits. cbn [ek_l ek_r]. rewrite zip_rev by congruence. apply map_rev. }
  clearbody k. destruct Ek as [Hg <-]. destruct (gather_spec 32 block 0) as [_ E0]; [lia|]. destruct (gather_spec 32 block 32) as [_ E1]; [lia|].
  pose proof (do_des_spec (gather_bits 32 block 0) (gather_bits 32 block 32) 1 0 k Hg) as Hd. cbv zeta in Hd.
  destruct (__do_des _ _ _ _ _) as [o0 o1]. destruct Hd as (_ & _ & Hd). cbn [fst snd] in Hd.
  rewrite !spread_spec, <- fmap_app, <- two_words_app, Hd, Nat.iter_succ, zero_salt. cbn [Nat.iter nat_rect]. do 2 f_equal. rewrite two_words_app, E0, E1, drop_0.
  rewrite (take_ge (drop 32 _)) by (unfold char_bits; rewrite length_drop, length_fmap; lia). apply take_drop.
Qed.

(** [des_cipher] with any bits of salt. *)
Lemma des_cipher_bits key input count salt :
  byte_list key -> length key = 8%nat -> byte_list input -> length input = 8%nat ->
  bytes_bits (des_cipher input count salt (__des_setkey key)) =
    Nat.iter count (DesSpec.des (DesSpec.word_bits 24 salt) (DesSpec.key_schedule (bytes_bits key))) (bytes_bits input) /\
  byte_list (des_cipher input count salt (__des_setkey key)) /\ length (des_cipher input count salt (__des_setkey key)) = 8%nat.
Proof.
  intros Hk Hkl Hi Hil. destruct (des_setkey_spec key Hk Hkl) as [Hg <-]. unfold des_cipher.
  pose proof (do_des_spec (be32 input 0) (be32 input 4) count salt (__des_setkey key) Hg) as Hd. cbv zeta in Hd.
  destruct (__do_des _ _ _ _ _) as [l r]. destruct Hd as (_ & _ & Hd). rewrite bytes_bits_app, !bytes32_bits, <- two_words_app.
  cbn [fst snd] in Hd. rewrite Hd, block_bits by done. split; [done|]. split; [|done]. unfold bytes32, byte_list. repeat constructor; apply u8_range.
Qed.

(** ** Properties *)

(** C21: The tables compute the cipher of the standard (FIPS 46-3), with the
    salt of crypt(3) in its expansion: for each key and block of eight bytes,
    [des_cipher] with the key that [__des_setkey] expands is [count] times the
    cipher of the specification, which is written in bits, with the permutations
    and substitution boxes as published. *)
Theorem des_cipher_standard key input count salt :
  byte_list key -> length key = 8%nat -> byte_list input -> length input = 8%nat ->
  bytes_bits (des_cipher input count (setup_salt salt) (__des_setkey key)) =
  Nat.iter count (DesSpec.des (salt_bits salt) (DesSpec.key_schedule (bytes_bits key))) (bytes_bits input).
Proof.
  intros Hk Hkl Hi Hil. rewrite <- setup_salt_spec. by apply des_cipher_bits.
Qed.

Lemma des_cipher_standard_witness :
  bytes_bits (des_cipher [0x01; 0x23; 0x45; 0x67; 0x89; 0xAB; 0xCD; 0xEF] 1 (setup_salt 0) (__des_setkey [0x13; 0x34; 0x57; 0x79; 0x9B; 0xBC; 0xDF; 0xF1])) =
  DesSpec.word_bits 64 0x85E813540F0AB405.
Proof.
  rewrite (des_cipher_standard [0x13; 0x34; 0x57; 0x79; 0x9B; 0xBC; 0xDF; 0xF1] [0x01; 0x23; 0x45; 0x67; 0x89; 0xAB; 0xCD; 0xEF] 1 0).
  - vm_compute. reflexivity.
  - repeat constructor; lia.
  - reflexivity.
  - repeat constructor; lia.
  - reflexivity.
Defined.

(** [encrypt] with the flag undoes [encrypt] without it, for every key
    given to [setkey] and every block of 64 characters, of each of which the
    lowest bit counts. *)
Theorem encrypt_decrypt key block edflag :
  length key = 64%nat -> length block = 64%nat -> edflag <> 0 ->
  encrypt (setkey key) (encrypt (setkey key) block 0) edflag = (fun c => Z.land c 1) <$> block.
Proof.
  intros Hk Hb Hf. destruct (setkey_spec key Hk) as [Hg _]. set (ek := setkey key) in *. clearbody ek.
  rewrite (encrypt_spec ek block 0) by done. rewrite encrypt_spec; [|done|by rewrite length_fmap, DesSpec.length_des].
  rewrite odd_spread. destruct (Z.eqb_spec edflag 0); [done|]. cbn [negb Z.eqb]. rewrite DesSpec.des_undo by (unfold char_bits; by rewrite length_fmap).
  unfold char_bits. rewrite <- list_fmap_compose. apply list_fmap_ext. intros i c _. cbn. rewrite (Z.land_ones _ 1) by lia. by rewrite Zmod_odd; destruct (Z.odd c).
Qed.

Lemma encrypt_decrypt_witness :
  let key := repeat 49 20 ++ repeat 48 44 in let block := repeat 48 31 ++ repeat 49 33 in
  encrypt (setkey key) (encrypt (setkey key) block 0) 1 = repeat 0 31 ++ repeat 1 33.
Proof. exact (encrypt_decrypt (repeat 49 20 ++ repeat 48 44) (repeat 48 31 ++ repeat 49 33) 1 eq_refl eq_refl ltac:(lia)). Defined.
End Des.
