(* ===== verification/DesCrypt.v ===== *)
(** Password hashing with DES (musl src/crypt/crypt_des.c: ascii_to_bin,
    _crypt_extended_r_uut, __crypt_des): the traditional form with two
    characters of salt and the extended one with a count. *)

From stdpp Require Import base tactics list numbers option.
From Stdlib Require Import ZArith Lia.
From S2P Require Import Prelude CString DesTables DesSpec Des.

#[local] Open Scope Z_scope.

Module DesCrypt.
Import Prelude DesTables Des.

(** ** Operations *)

Definition ascii_to_bin (ch : Z) : Z :=
  let sch := if ch <? 0x80 then ch else - (0x100 - ch) in
  let retval := sch - 46 in
  let retval := if 65 <=? sch then (if 97 <=? sch then sch - (97 - 38) else sch - (65 - 12)) else retval in
  Z.land retval 0x3f.
Definition ascii_is_unsafe (ch : Z) : bool := (ch =? 0) || (ch =? 10) || (ch =? 58).

(** [*q++ = *key << 1; if ( *key) key++;]: the buffer and the rest of the key. *)
Fixpoint fill_key (n : nat) (key : list Z) : list Z * list Z :=
  match n with
  | O => ([], key)
  | S n' => let (buf, rest) := fill_key n' (tail key) in (u8 (Z.shiftl (cstr_get key 0) 1) :: buf, rest)
  end.
(** [while (q <= &keybuf[sizeof(keybuf) - 1] && *key) *q++ ^= *key++ << 1;] *)
Fixpoint xor_key (buf key : list Z) : list Z * list Z :=
  match buf, key with
  | b :: buf', c :: key' => let (r, rest) := xor_key buf' key' in (u8 (Z.lxor b (Z.shiftl c 1)) :: r, rest)
  | _, _ => (buf, key)
  end.
(** [while ( *key)]; [None]: the fuel is used up. *)
Fixpoint key_loop (fuel : nat) (key keybuf : list Z) (ekey : expanded_key) : option expanded_key :=
  match key with
  | [] => Some ekey
  | _ :: _ =>
    match fuel with
    | O => None
    | S fuel' =>
      let keybuf := des_cipher keybuf 1 0 ekey in
      let (keybuf, key) := xor_key keybuf key in
      key_loop fuel' key keybuf (__des_setkey keybuf)
    end
  end.

(** Four characters of six bits each; [None]: not one of the 64. *)
Fixpoint value_loop (k : nat) (setting : list Z) (i : nat) (shift acc : Z) : option Z :=
  match k with
  | O => Some acc
  | S k' =>
    let value := ascii_to_bin (cstr_get setting i) in
    if negb (nth (Z.to_nat value) ascii64 0 =? cstr_get setting i) then None
    else value_loop k' setting (S i) (shift + 6) (Z.lor acc (Z.shiftl value shift))
  end.

(** [ascii64[(l >> s) & 0x3f]] *)
Definition digit (l s : Z) : Z := nth (Z.to_nat (sixbits l s)) ascii64 0.
Definition encode (r0 r1 : Z) : list Z :=
  let l := Z.shiftr r0 8 in
  let first := [digit l 18; digit l 12; digit l 6; digit l 0] in
  let l := Z.lor (u32 (Z.shiftl r0 16)) (Z.land (Z.shiftr r1 16) 0xffff) in
  let second := [digit l 18; digit l 12; digit l 6; digit l 0] in
  let l := u32 (Z.shiftl r1 2) in
  first ++ second ++ [digit l 12; digit l 6; digit l 0].

(** [Some None] is the null pointer. *)
Definition _crypt_extended_r_uut (fuel : nat) (key setting : list Z) : option (option (list Z)) :=
  let (keybuf, rest) := fill_key 8 key in
  let ekey := __des_setkey keybuf in
  let finish (prefix : list Z) (count salt : Z) (ekey : expanded_key) :=
    let (r0, r1) := __do_des 0 0 (Z.to_nat count) (setup_salt salt) ekey in Some (Some (prefix ++ encode r0 r1)) in
  if cstr_get setting 0 =? 95 then
    match value_loop 4 setting 1 0 0 with
    | None => Some None
    | Some count =>
      if count =? 0 then Some None
      else
        match value_loop 4 setting 5 0 0 with
        | None => Some None
        | Some salt =>
          match key_loop fuel rest keybuf ekey with
          | None => None
          | Some ekey => finish (take 9 setting) count salt ekey
          end
        end
    end
  else if ascii_is_unsafe (cstr_get setting 0) || ascii_is_unsafe (cstr_get setting 1) then Some None
  else
    let salt := Z.lor (Z.shiftl (ascii_to_bin (cstr_get setting 1)) 6) (ascii_to_bin (cstr_get setting 0)) in
    finish [cstr_get setting 0; cstr_get setting 1] 25 salt ekey.

(** "\x80\xff\x80\x01 \x7f\x81\x80\x80\x0d\x0a\xff\x7f \x81 test" *)
Definition test_key : list Z :=
  [0x80; 0xff; 0x80; 0x01; 32; 0x7f; 0x81; 0x80; 0x80; 0x0d; 0x0a; 0xff; 0x7f; 32; 0x81; 32; 116; 101; 115; 116].
(** "_0.../9Zz" and what follows in "_0.../9ZzX7iSJNd21sU" *)
Definition test_setting_new : list Z := [95; 48; 46; 46; 46; 47; 57; 90; 122].
Definition test_hash_new : list Z := test_setting_new ++ [88; 55; 105; 83; 74; 78; 100; 50; 49; 115; 85].
(** "\x80x" and what follows in "\x80x22/wK52ZKGA" *)
Definition test_setting_old : list Z := [0x80; 120].
Definition test_hash_old : list Z := test_setting_old ++ [50; 50; 47; 119; 75; 53; 50; 90; 75; 71; 65].

Definition __crypt_des (fuel : nat) (key setting : list Z) : option (list Z) :=
  let '(test_setting, test_hash) :=
    if negb (cstr_get setting 0 =? 95) then (test_setting_old, test_hash_old) else (test_setting_new, test_hash_new) in
  match _crypt_extended_r_uut fuel key setting with
  | None => None
  | Some retval =>
    let p := _crypt_extended_r_uut (length test_key) test_key test_setting in
    match retval with
    | Some r =>
      if bool_decide (p = Some (Some test_hash)) then Some r else Some (if cstr_get setting 0 =? 42 then [120] else [42])
    | None => Some (if cstr_get setting 0 =? 42 then [120] else [42])
    end
  end.


(** ** The key *)

(** Eight characters, the top bit of each dropped, with zeros behind the end. *)
Definition chunk (key : list Z) : list Z := (fun i => u8 (Z.shiftl (cstr_get key i) 1)) <$> seq 0 8.
Lemma cstr_get_tail key i : cstr_get (tail key) i = cstr_get key (S i).
Proof. by destruct key. Qed.
Lemma fill_key_spec n key : fill_key n key = ((fun i => u8 (Z.shiftl (cstr_get key i) 1)) <$> seq 0 n, drop n key).
Proof.
  revert key. induction n as [|n IH]; intros key; [done|]. cbn [fill_key]. rewrite IH. cbn [seq]. rewrite fmap_cons, <- fmap_S_seq, <- list_fmap_compose. f_equal; [|destruct key; cbn; [by rewrite drop_nil|done]].
  f_equal. apply list_fmap_ext. intros k i _. cbn [compose]. by rewrite cstr_get_tail.
Qed.
Lemma chunk_bytes key : byte_list (chunk key) /\ length (chunk key) = 8%nat.
Proof. split; [|done]. unfold chunk, byte_list. apply Forall_fmap, Forall_seq. intros i _. apply u8_range. Qed.

Lemma xor_key_rest buf key : (xor_key buf key).2 = drop (length buf) key /\ length (xor_key buf key).1 = length buf.
Proof.
  revert key. induction buf as [|b buf IH]; intros [|c key]; try done. cbn [xor_key]. specialize (IH key). destruct (xor_key buf key) as [r rest]. cbn in *.
  destruct IH as [-> ->]. done.
Qed.
Lemma word_bits_u8 v : DesSpec.word_bits 8 (u8 v) = DesSpec.word_bits 8 v.
Proof. apply word_bits_eq; [apply DesSpec.length_word_bits|]. intros i Hi. unfold u8. by rewrite nth_word_bits, Z.mod_pow2_bits_low by lia. Qed.
Lemma xor_bits_zero n x : length x = n -> DesSpec.xor_bits x (repeat false n) = x.
Proof. revert n. induction x as [|b x IH]; intros [|n] Hn; try done. cbn. rewrite xorb_false_r. f_equal. apply IH. cbn in Hn. lia. Qed.
Lemma xor_key_bits buf key : byte_list buf ->
  byte_list (xor_key buf key).1 /\
  bytes_bits (xor_key buf key).1 = DesSpec.xor_bits (bytes_bits buf) (bytes_bits ((fun i => u8 (Z.shiftl (cstr_get key i) 1)) <$> seq 0 (length buf))).
Proof.
  revert key. induction buf as [|b buf IH]; intros key Hb; [done|]. apply byte_list_cons in Hb as [Hb Hbuf].
  assert (Ek : (fun i => u8 (Z.shiftl (cstr_get key i) 1)) <$> seq 0 (length (b :: buf)) =
    u8 (Z.shiftl (cstr_get key 0) 1) :: ((fun i => u8 (Z.shiftl (cstr_get (tail key) i) 1)) <$> seq 0 (length buf))).
  { cbn [length seq]. rewrite fmap_cons, <- fmap_S_seq, <- list_fmap_compose. f_equal. apply list_fmap_ext. intros k i _. cbn [compose]. by rewrite cstr_get_tail. }
  rewrite Ek. assert (Ec : forall v r, bytes_bits (v :: r) = DesSpec.word_bits 8 v ++ bytes_bits r) by done.
  rewrite !Ec, xor_bits_app, word_bits_u8, word_bits_lxor by (by rewrite !DesSpec.length_word_bits). specialize (IH (tail key) Hbuf). destruct key as [|c key]; cbn [xor_key tail] in *.
  - assert (Ex : xor_key buf [] = (buf, [])) by (by destruct buf). rewrite Ex in IH. cbn [fst] in *. destruct IH as [_ IH]. rewrite <- IH. split; [by apply byte_list_cons|]. rewrite Ec. f_equal.
    cbn [cstr_get lookup list_lookup default option_rect]. by rewrite Z.lxor_0_r.
  - destruct (xor_key buf key) as [r rest]. cbn [fst] in *. destruct IH as [Hr IH]. split; [apply byte_list_cons; split; [apply u8_range|done]|]. by rewrite Ec, word_bits_u8, IH.
Qed.

(** The key of the extended form: each further chunk is added to the key
    enciphered with itself. *)
Fixpoint chained (j : nat) (key : list Z) : list bool :=
  match j with
  | O => bytes_bits (chunk key)
  | S j' => let k := chained j' key in DesSpec.xor_bits (DesSpec.des DesSpec.no_salt (DesSpec.key_schedule k) k) (bytes_bits (chunk (drop (8 * j) key)))
  end.

Lemma chained_succ j key : chained (S j) key =
  DesSpec.xor_bits (DesSpec.des DesSpec.no_salt (DesSpec.key_schedule (chained j key)) (chained j key)) (bytes_bits (chunk (drop (8 * S j) key))).
Proof. reflexivity. Qed.
Lemma key_loop_spec key fuel : forall j keybuf,
  byte_list keybuf -> length keybuf = 8%nat -> bytes_bits keybuf = chained j key -> (length (drop (8 * S j) key) <= fuel)%nat -> (j = 0 \/ 8 * j < length key)%nat ->
  exists ekey, key_loop fuel (drop (8 * S j) key) keybuf (__des_setkey keybuf) = Some ekey /\ good_ekey ekey /\
    ekey_bits ekey = DesSpec.key_schedule (chained ((length key - 1) / 8) key).
Proof.
  induction fuel as [|fuel IH]; intros j keybuf Hb Hl Hj Hf Hk; destruct (drop (8 * S j) key) as [|c rest] eqn:Ed.
  1, 3: assert (Hlen : length (drop (8 * S j) key) = 0%nat) by (by rewrite Ed); rewrite length_drop in Hlen;
    destruct (des_setkey_spec keybuf Hb Hl) as [Hg Hs]; exists (__des_setkey keybuf); split; [done|]; split; [done|]; rewrite Hs, Hj; do 2 f_equal; symmetry;
    destruct (Nat.eq_dec j 0) as [->|]; [apply Nat.div_small; lia|symmetry; apply (Nat.div_unique _ _ _ (length key - 1 - 8 * j)); lia].
  { cbn in Hf. lia. }
  cbn [key_loop]. rewrite <- Ed. destruct (des_cipher_bits keybuf keybuf 1 0 Hb Hl Hb Hl) as (Hd & Hdb & Hdl). rewrite zero_salt, Hj in Hd.
  set (d := des_cipher keybuf 1 0 (__des_setkey keybuf)) in *. clearbody d. destruct (xor_key_rest d (drop (8 * S j) key)) as [Hr Hxl]. destruct (xor_key_bits d (drop (8 * S j) key) Hdb) as [Hxb Hx].
  destruct (xor_key d (drop (8 * S j) key)) as [buf rest']. cbn [fst snd] in *. rewrite Hr, Hdl, drop_drop. rewrite Hdl in Hx, Hxl.
  replace (8 * S j + 8)%nat with (8 * S (S j))%nat by lia. apply (IH (S j) buf); [done|done| | |].
  - rewrite Hx, Hd, Nat.iter_succ, chained_succ. cbn [Nat.iter nat_rect]. unfold chunk. done.
  - apply (f_equal length) in Ed. rewrite !length_drop in *. cbn in Ed, Hf. lia.
  - right. apply (f_equal length) in Ed. rewrite length_drop in Ed. cbn [length] in Ed. lia.
Qed.

(** ** Characters of six bits *)

Definition digits64 (v : Z) : list Z := (fun i => nth (Z.to_nat (sixbits v (6 * Z.of_nat i))) ascii64 0) <$> seq 0 4.
Lemma ascii64_checked : forallb (fun v => let c := nth v ascii64 0 in (ascii_to_bin c =? Z.of_nat v) && negb (ascii_is_unsafe c) && negb (c =? 95) && (0 <? c) && (c <? 128)) (seq 0 64) = true.
Proof. vm_compute. reflexivity. Qed.
Lemma ascii_to_bin_digit v : 0 <= v < 64 -> ascii_to_bin (nth (Z.to_nat v) ascii64 0) = v.
Proof.
  intros Hv. pose proof (forallb_seq _ _ (Z.to_nat v) ascii64_checked ltac:(lia)) as H. cbv zeta in H. rewrite !andb_true_iff, Z.eqb_eq in H. lia.
Qed.
Lemma ascii_to_bin_range c : 0 <= ascii_to_bin c < 64.
Proof. unfold ascii_to_bin. set (r := if 65 <=? _ then _ else _). change 0x3f with (Z.ones 6). rewrite Z.land_ones by lia. apply Z.mod_pos_bound. lia. Qed.
Lemma digit_positive v : 0 <= v < 64 -> 0 < nth (Z.to_nat v) ascii64 0.
Proof.
  intros Hv. pose proof (forallb_seq _ _ (Z.to_nat v) ascii64_checked ltac:(lia)) as H. cbv zeta in H. rewrite !andb_true_iff, Z.ltb_lt in H. lia.
Qed.

Lemma sixbits_div v s : 0 <= s -> sixbits v s = (v / 2 ^ s) mod 64.
Proof. intros Hs. unfold sixbits. change 0x3f with (Z.ones 6). by rewrite Z.land_ones, Z.shiftr_div_pow2 by lia. Qed.
Lemma lor4 a b c d : 0 <= a < 64 -> 0 <= b < 64 -> 0 <= c < 64 -> 0 <= d < 64 ->
  Z.lor (Z.lor (Z.lor (Z.lor 0 (Z.shiftl a 0)) (Z.shiftl b 6)) (Z.shiftl c 12)) (Z.shiftl d 18) = a + 64 * b + 4096 * c + 262144 * d.
Proof.
  intros Ha Hb Hc Hd. rewrite Z.lor_0_l, Z.shiftl_0_r. rewrite (lor_shiftl_add a b 6) by lia. rewrite (lor_shiftl_add _ c 12) by lia. rewrite lor_shiftl_add by lia. lia.
Qed.
Lemma value_loop_unfold setting i :
  value_loop 4 setting i 0 0 =
    if forallb (fun k => nth (Z.to_nat (ascii_to_bin (cstr_get setting (i + k)))) ascii64 0 =? cstr_get setting (i + k)) (seq 0 4)
    then Some (ascii_to_bin (cstr_get setting i) + 64 * ascii_to_bin (cstr_get setting (i + 1)) + 4096 * ascii_to_bin (cstr_get setting (i + 2)) + 262144 * ascii_to_bin (cstr_get setting (i + 3)))
    else None.
Proof.
  rewrite <- lor4 by apply ascii_to_bin_range. cbn [value_loop seq forallb]. cbv zeta. rewrite Nat.add_0_r.
  replace (i + 1)%nat with (S i) by lia. replace (i + 2)%nat with (S (S i)) by lia. replace (i + 3)%nat with (S (S (S i))) by lia.
  do 4 (destruct (Z.eqb _ _); cbn [negb andb]; [|done]). reflexivity.
Qed.

(** Reading four characters undoes writing them. *)
Lemma value_loop_digits setting i v : 0 <= v < 2 ^ 24 -> take 4 (drop i setting) = digits64 v -> value_loop 4 setting i 0 0 = Some v.
Proof.
  intros Hv Hd. assert (Hc : forall k, (k < 4)%nat -> cstr_get setting (i + k) = nth (Z.to_nat (sixbits v (6 * Z.of_nat k))) ascii64 0).
  { intros k Hk. unfold cstr_get. rewrite <- lookup_drop, <- (lookup_take_lt _ 4) by done. rewrite Hd. unfold digits64. by rewrite list_lookup_fmap, lookup_seq_lt. }
  assert (Hb : forall k, (k < 4)%nat -> ascii_to_bin (cstr_get setting (i + k)) = sixbits v (6 * Z.of_nat k)).
  { intros k Hk. rewrite Hc by done. apply ascii_to_bin_digit, sixbits_range. }
  rewrite value_loop_unfold. pose proof (Hb 0%nat ltac:(lia)) as B0. rewrite Nat.add_0_r in B0. rewrite B0, !Hb by lia. cbn [seq forallb]. rewrite !Hb, !Hc, !Z.eqb_refl by lia. cbn [andb].
  f_equal. rewrite !sixbits_div by lia. cbn [Z.of_nat Z.mul]. Z.div_mod_to_equations. lia.
Qed.
Lemma value_loop_some setting i v : value_loop 4 setting i 0 0 = Some v -> 0 <= v < 2 ^ 24 /\ take 4 (drop i setting) = digits64 v.
Proof.
  rewrite value_loop_unfold. destruct (forallb _ _) eqn:Ef; [|done]. rewrite forallb_forall in Ef. intros [= Ev].
  assert (Hc : forall k, (k < 4)%nat -> setting !! (i + k)%nat = Some (nth (Z.to_nat (ascii_to_bin (cstr_get setting (i + k)))) ascii64 0)).
  { intros k Hk. specialize (Ef k ltac:(apply in_seq; lia)). apply Z.eqb_eq in Ef. rewrite Ef. pose proof (digit_positive _ (ascii_to_bin_range (cstr_get setting (i + k)))) as Hp.
    rewrite Ef in Hp. unfold cstr_get in *. destruct (setting !! (i + k)%nat); [done|]. cbn in Hp. lia. }
  pose proof (ascii_to_bin_range (cstr_get setting i)) as R0. pose proof (ascii_to_bin_range (cstr_get setting (i + 1))) as R1.
  pose proof (ascii_to_bin_range (cstr_get setting (i + 2))) as R2. pose proof (ascii_to_bin_range (cstr_get setting (i + 3))) as R3.
  split; [lia|]. pose proof (Hc 0%nat ltac:(lia)) as C0. rewrite Nat.add_0_r in C0. rewrite (drop_S _ _ _ C0).
  pose proof (Hc 1%nat ltac:(lia)) as C1. replace (i + 1)%nat with (S i) in * by lia. rewrite (drop_S _ _ _ C1).
  pose proof (Hc 2%nat ltac:(lia)) as C2. replace (i + 2)%nat with (S (S i)) in * by lia. rewrite (drop_S _ _ _ C2).
  pose proof (Hc 3%nat ltac:(lia)) as C3. replace (i + 3)%nat with (S (S (S i))) in * by lia. rewrite (drop_S _ _ _ C3).
  cbn [take]. rewrite take_0. unfold digits64. cbn [seq]. rewrite !fmap_cons. cbn [fmap list_fmap]. rewrite !sixbits_div by lia. cbn [Z.of_nat Z.mul].
  repeat f_equal; Z.div_mod_to_equations; lia.
Qed.

(** ** The text of a hash: 64 bits and two zeros, six at a time *)
Definition text (x : list bool) : list Z :=
  (fun i => nth (Z.to_nat (DesSpec.bits_value (DesSpec.six i (x ++ [false; false])))) ascii64 0) <$> seq 0 11.

Lemma bits_value_six v : 0 <= v < 64 -> DesSpec.bits_value (DesSpec.word_bits 6 v) = v.
Proof.
  intros Hv. assert (H : forallb (fun v => DesSpec.bits_value (DesSpec.word_bits 6 (Z.of_nat v)) =? Z.of_nat v) (seq 0 64) = true) by (vm_compute; done).
  pose proof (forallb_seq _ _ (Z.to_nat v) H ltac:(lia)) as E. cbv beta in E. rewrite Z2Nat.id in E by lia. by apply Z.eqb_eq.
Qed.
Lemma digit_bits l s x : DesSpec.word_bits 6 (sixbits l s) = x -> digit l s = nth (Z.to_nat (DesSpec.bits_value x)) ascii64 0.
Proof. intros <-. unfold digit. by rewrite bits_value_six by apply sixbits_range. Qed.

Section Encode.
Context (r0 r1 : Z).
Lemma word_top_bit q : 0 <= q -> Z.testbit (Z.shiftr r0 8) q = Z.testbit r0 (q + 8).
Proof. intros Hq. by rewrite Z.shiftr_spec. Qed.
Lemma word_mid_bit q : 0 <= q < 24 -> Z.testbit (Z.lor (u32 (Z.shiftl r0 16)) (Z.land (Z.shiftr r1 16) 0xffff)) q = if q <? 16 then Z.testbit r1 (q + 16) else Z.testbit r0 (q - 16).
Proof.
  intros Hq. unfold u32. rewrite Z.lor_spec, Z.mod_pow2_bits_low, Z.shiftl_spec, Z.land_spec, Z.shiftr_spec by lia. change 0xffff with (Z.ones 16).
  destruct (Z.ltb_spec q 16); [rewrite Z.ones_spec_low, (Z.testbit_neg_r r0), andb_true_r by lia; done|]. rewrite Z.ones_spec_high by lia. by rewrite andb_false_r, orb_false_r.
Qed.
Lemma word_low_bit q : 0 <= q < 32 -> Z.testbit (u32 (Z.shiftl r1 2)) q = if q <? 2 then false else Z.testbit r1 (q - 2).
Proof.
  intros Hq. unfold u32. rewrite Z.mod_pow2_bits_low, Z.shiftl_spec by lia. destruct (Z.ltb_spec q 2); [by rewrite Z.testbit_neg_r by lia|done].
Qed.

Lemma encode_spec : encode r0 r1 = text (two_words 32 r0 r1).
Proof.
  unfold encode, text. cbv zeta. cbn [seq]. rewrite !fmap_cons. cbn [fmap list_fmap app].
  repeat (match goal with |- _ :: _ = _ :: _ => f_equal end; [apply digit_bits; unfold DesSpec.six, two_words, DesSpec.word_bits; cbn [seq fmap list_fmap app Nat.mul Nat.add Nat.sub take drop Z.of_nat Pos.of_succ_nat Pos.succ];
    rewrite !sixbits_bit by lia; rewrite ?word_top_bit, ?word_mid_bit, ?word_low_bit by lia; reflexivity|..]).
Qed.
End Encode.

(** ** What the functions compute *)
Definition zeros : list bool := repeat false 64.
Definition hash (count : nat) (salt : Z) (k : list bool) : list Z := text (Nat.iter count (DesSpec.des (salt_bits salt) (DesSpec.key_schedule k)) zeros).
Lemma finish_hash prefix count salt ekey k : good_ekey ekey -> ekey_bits ekey = DesSpec.key_schedule k ->
  (let (r0, r1) := __do_des 0 0 (Z.to_nat count) (setup_salt salt) ekey in Some (Some (prefix ++ encode r0 r1))) = Some (Some (prefix ++ hash (Z.to_nat count) salt k)).
Proof.
  intros Hg Ek. pose proof (do_des_spec 0 0 (Z.to_nat count) (setup_salt salt) ekey Hg) as Hd. cbv zeta in Hd. destruct (__do_des _ _ _ _ _) as [r0 r1]. cbn [fst snd] in Hd.
  destruct Hd as (H0 & H1 & Hd). rewrite encode_spec, Hd, setup_salt_spec, Ek by done. reflexivity.
Qed.
Lemma first_key key : good_ekey (__des_setkey (chunk key)) /\ ekey_bits (__des_setkey (chunk key)) = DesSpec.key_schedule (bytes_bits (chunk key)).
Proof. apply des_setkey_spec; apply chunk_bytes. Qed.
Lemma uut_traditional fuel key setting :
  cstr_get setting 0 <> 95 -> ascii_is_unsafe (cstr_get setting 0) = false -> ascii_is_unsafe (cstr_get setting 1) = false ->
  _crypt_extended_r_uut fuel key setting = Some (Some ([cstr_get setting 0; cstr_get setting 1] ++
    hash 25 (ascii_to_bin (cstr_get setting 0) + 64 * ascii_to_bin (cstr_get setting 1)) (bytes_bits (chunk key)))).
Proof.
  intros H95 U0 U1. unfold _crypt_extended_r_uut. rewrite fill_key_spec. fold (chunk key). cbv zeta. destruct (Z.eqb_spec (cstr_get setting 0) 95); [done|]. rewrite U0, U1. cbn [orb].
  destruct (first_key key) as [Hg Ek]. rewrite (finish_hash _ _ _ _ _ Hg Ek).
  rewrite Z.lor_comm, lor_shiftl_add by (lia || apply ascii_to_bin_range). by rewrite (Z.mul_comm 64).
Qed.
Lemma uut_extended fuel key setting count salt : (length key <= fuel)%nat ->
  cstr_get setting 0 = 95 -> value_loop 4 setting 1 0 0 = Some count -> count <> 0 -> value_loop 4 setting 5 0 0 = Some salt ->
  _crypt_extended_r_uut fuel key setting = Some (Some (take 9 setting ++ hash (Z.to_nat count) salt (chained ((length key - 1) / 8) key))).
Proof.
  intros Hf H95 Hc Hc0 Hs. unfold _crypt_extended_r_uut. rewrite fill_key_spec. fold (chunk key). cbv zeta. rewrite H95, Hc, Hs. cbn [Z.eqb Pos.eqb].
  destruct (Z.eqb_spec count 0); [done|]. destruct (chunk_bytes key) as [Hb Hl].
  destruct (key_loop_spec key fuel 0 (chunk key) Hb Hl eq_refl ltac:(rewrite length_drop; lia) (or_introl eq_refl)) as (ekey & E & Hg & Ek).
  change (8 * 1)%nat with 8%nat in E. rewrite E. by apply finish_hash.
Qed.

(** Which settings are taken. *)
Lemma uut_cases fuel key setting : (length key <= fuel)%nat ->
  _crypt_extended_r_uut fuel key setting = Some None \/
  (cstr_get setting 0 <> 95 /\ ascii_is_unsafe (cstr_get setting 0) = false /\ ascii_is_unsafe (cstr_get setting 1) = false) \/
  (cstr_get setting 0 = 95 /\ exists count salt, value_loop 4 setting 1 0 0 = Some count /\ count <> 0 /\ value_loop 4 setting 5 0 0 = Some salt).
Proof.
  intros Hf. destruct (Z.eq_dec (cstr_get setting 0) 95) as [E95|N95].
  - destruct (value_loop 4 setting 1 0 0) as [count|] eqn:Ec.
    + destruct (Z.eq_dec count 0) as [->|Hc0].
      * left. unfold _crypt_extended_r_uut. rewrite fill_key_spec. cbv zeta. by rewrite E95, Ec.
      * destruct (value_loop 4 setting 5 0 0) as [salt|] eqn:Es; [right; right; split; [done|]; by exists count, salt|]. left. unfold _crypt_extended_r_uut. rewrite fill_key_spec. cbv zeta. rewrite E95, Ec, Es.
        cbn [Z.eqb Pos.eqb]. by destruct (count =? 0).
    + left. unfold _crypt_extended_r_uut. rewrite fill_key_spec. cbv zeta. by rewrite E95, Ec.
  - destruct (ascii_is_unsafe (cstr_get setting 0) || ascii_is_unsafe (cstr_get setting 1)) eqn:Eu.
    + left. unfold _crypt_extended_r_uut. rewrite fill_key_spec. cbv zeta. destruct (Z.eqb_spec (cstr_get setting 0) 95); [done|]. by rewrite Eu.
    + right. left. by apply orb_false_iff in Eu.
Qed.

(** A hash begins like its setting. *)
Lemma cstr_get_prefix m setting rest i : (i < m)%nat -> (m <= length setting)%nat -> cstr_get (take m setting ++ rest) i = cstr_get setting i.
Proof. intros Hi Hm. unfold cstr_get. rewrite lookup_app_l by (rewrite length_take; lia). by rewrite lookup_take_lt. Qed.
Lemma cstr_get_length l i : cstr_get l i <> 0 -> (i < length l)%nat.
Proof. intros H. destruct (Nat.lt_ge_cases i (length l)); [done|]. exfalso. apply H. unfold cstr_get. by rewrite lookup_ge_None_2. Qed.

Lemma self_tests :
  _crypt_extended_r_uut (length test_key) test_key test_setting_old = Some (Some test_hash_old) /\
  _crypt_extended_r_uut (length test_key) test_key test_setting_new = Some (Some test_hash_new).
Proof. vm_compute. done. Qed.
Definition failure (setting : list Z) : list Z := if cstr_get setting 0 =? 42 then [120] else [42].
Lemma crypt_des_uut fuel key setting :
  __crypt_des fuel key setting = (fun r => default (failure setting) r) <$> _crypt_extended_r_uut fuel key setting.
Proof.
  unfold __crypt_des. destruct self_tests as [To Tn]. destruct (negb _).
  - rewrite To. destruct (_crypt_extended_r_uut fuel key setting) as [[r|]|]; [by rewrite bool_decide_true|done|done].
  - rewrite Tn. destruct (_crypt_extended_r_uut fuel key setting) as [[r|]|]; [by rewrite bool_decide_true|done|done].
Qed.

(** ** Properties *)

(** C22: The traditional form hashes with 25 encipherments of a block of zeros,
    the extended form with as many as its setting says; the key is the first
    eight characters, or all of them chained; the text is the salt and the 64
    bits, six at a time.  [hash] is written with the cipher of the standard. *)
Theorem crypt_des_design fuel key : (length key <= fuel)%nat ->
  (forall s0 s1 rest, s0 <> 95 -> ascii_is_unsafe s0 = false -> ascii_is_unsafe s1 = false ->
    _crypt_extended_r_uut fuel key (s0 :: s1 :: rest) =
      Some (Some (s0 :: s1 :: hash 25 (ascii_to_bin s0 + 64 * ascii_to_bin s1) (bytes_bits (chunk key))))) /\
  (forall count salt rest, 0 < count < 2 ^ 24 -> 0 <= salt < 2 ^ 24 ->
    _crypt_extended_r_uut fuel key (95 :: digits64 count ++ digits64 salt ++ rest) =
      Some (Some (95 :: digits64 count ++ digits64 salt ++ hash (Z.to_nat count) salt (chained ((length key - 1) / 8) key)))).
Proof.
  intros Hf. split.
  - intros s0 s1 rest H95 U0 U1. by apply uut_traditional.
  - intros count salt rest Hc Hs. rewrite (uut_extended fuel key _ count salt); [reflexivity|done|done|apply value_loop_digits; [lia|reflexivity]|lia|apply value_loop_digits; [lia|reflexivity]].
Qed.

(** The key "test" with the salt "ab" gives "abgOeLfPimXQo". *)
Lemma crypt_des_design_witness :
  _crypt_extended_r_uut 4 [116; 101; 115; 116] [97; 98] = Some (Some [97; 98; 103; 79; 101; 76; 102; 80; 105; 109; 88; 81; 111]).
Proof.
  rewrite (proj1 (crypt_des_design 4 [116; 101; 115; 116] ltac:(cbn; lia)) 97 98 []).
  - vm_compute. reflexivity.
  - lia.
  - reflexivity.
  - reflexivity.
Defined.

(** A hash is a setting for itself: hashing any other key with the hash
    gives what hashing it with the original setting gives, so that a password
    is verified by comparing.  A setting that is refused gives a text that is
    no hash and begins differently, and the fuel of one turn per character of
    the key is enough in every case. *)
Theorem crypt_des_verifies fuel key setting : (length key <= fuel)%nat ->
  exists h, __crypt_des fuel key setting = Some h /\
    ((forall key', (length key' <= fuel)%nat -> __crypt_des fuel key' h = __crypt_des fuel key' setting) \/
     h = failure setting /\ cstr_get h 0 <> cstr_get setting 0).
Proof.
  intros Hf. rewrite crypt_des_uut. destruct (uut_cases fuel key setting Hf) as [E|[(H95 & U0 & U1)|(H95 & count & salt & Hc & Hc0 & Hs)]].
  - rewrite E. eexists. split; [done|]. right. split; [done|]. cbn. unfold failure. destruct (Z.eqb_spec (cstr_get setting 0) 42) as [->|]; [done|]. by apply not_eq_sym.
  - rewrite uut_traditional by done. eexists. split; [done|]. left. intros key' Hk. rewrite !crypt_des_uut. cbn [default id]. by rewrite !uut_traditional.
  - rewrite (uut_extended _ _ _ count salt) by done. eexists. split; [done|]. left. intros key' Hk. rewrite !crypt_des_uut. cbn [default id].
    destruct (value_loop_some _ _ _ Hs) as [_ Ht]. apply (f_equal length) in Ht. rewrite length_take, length_drop in Ht. change (length (digits64 salt)) with 4%nat in Ht.
    set (rest := hash _ _ _). clearbody rest.
    assert (Hg : forall i, (i < 9)%nat -> cstr_get (take 9 setting ++ rest) i = cstr_get setting i) by (intros; apply cstr_get_prefix; lia).
    assert (Hv : forall i, (i < 6)%nat -> value_loop 4 (take 9 setting ++ rest) i 0 0 = value_loop 4 setting i 0 0).
    { intros i Hi. rewrite !value_loop_unfold. cbn [seq forallb]. by rewrite !Hg by lia. }
    rewrite (uut_extended fuel key' setting count salt) by done.
    rewrite (uut_extended fuel key' _ count salt Hk) by (rewrite ?Hg, ?Hv by lia; done). rewrite take_app_length' by (rewrite length_take; lia). done.
Qed.
Lemma crypt_des_verifies_witness :
  exists h, __crypt_des 4 [116; 101; 115; 116] [97; 98] = Some h /\
    ((forall key', (length key' <= 4)%nat -> __crypt_des 4 key' h = __crypt_des 4 key' [97; 98]) \/
     h = failure [97; 98] /\ cstr_get h 0 <> cstr_get [97; 98] 0).
Proof. apply (crypt_des_verifies 4 [116; 101; 115; 116] [97; 98]). cbn. lia. Defined.
End DesCrypt.
