(* ===== verification/Calendar.v ===== *)
(** Seconds and calendar dates (musl src/time: __secs_to_tm, __tm_to_secs,
    __year_to_secs, __month_to_secs, gmtime_r, timegm), against the
    proleptic Gregorian calendar. *)

From stdpp Require Import base tactics list numbers option.
From Stdlib Require Import ZArith Lia.
From S2P Require Import Prelude.

#[local] Open Scope Z_scope.

Module Calendar.
Import Prelude.

(** ** Data *)

Record tm := mkTm {
  tm_sec : Z; tm_min : Z; tm_hour : Z; tm_mday : Z; tm_mon : Z; tm_year : Z; tm_wday : Z; tm_yday : Z
}.

Definition INT_MAX : Z := 2 ^ 31 - 1.
Definition INT_MIN : Z := - 2 ^ 31.
Definition LEAPOCH : Z := 946684800 + 86400 * (31 + 29).
Definition DAYS_PER_400Y : Z := 365 * 400 + 97.
Definition DAYS_PER_100Y : Z := 365 * 100 + 24.
Definition DAYS_PER_4Y : Z := 365 * 4 + 1.

(** ** From seconds to a date

    C's division and remainder round towards zero: [Z.quot] and [Z.rem].  A
    [long long] stored in an [int] is reduced with [i32]; the sums of [int]s
    stay far from its bounds. *)
Definition days_in_month : list Z := [31; 30; 31; 30; 31; 31; 30; 31; 30; 31; 31; 29].

(** [for (months=0; days_in_month[months] <= remdays; months++)]; [None]:
    the table is exceeded. *)
Fixpoint months_loop (table : list Z) (months remdays : Z) : option (Z * Z) :=
  match table with
  | [] => None
  | d :: table' => if d <=? remdays then months_loop table' (months + 1) (remdays - d) else Some (months, remdays)
  end.

Definition __secs_to_tm (t : Z) : option tm :=
  if (t <? INT_MIN * 31622400) || (INT_MAX * 31622400 <? t) then None
  else
  let secs := t - LEAPOCH in
  let days := Z.quot secs 86400 in
  let remsecs := i32 (Z.rem secs 86400) in
  let '(remsecs, days) := if remsecs <? 0 then (remsecs + 86400, days - 1) else (remsecs, days) in
  let wday := i32 (Z.rem (3 + days) 7) in
  let wday := if wday <? 0 then wday + 7 else wday in
  let qc_cycles := i32 (Z.quot days DAYS_PER_400Y) in
  let remdays := i32 (Z.rem days DAYS_PER_400Y) in
  let '(remdays, qc_cycles) := if remdays <? 0 then (remdays + DAYS_PER_400Y, qc_cycles - 1) else (remdays, qc_cycles) in
  let c_cycles := Z.quot remdays DAYS_PER_100Y in
  let c_cycles := if c_cycles =? 4 then c_cycles - 1 else c_cycles in
  let remdays := remdays - c_cycles * DAYS_PER_100Y in
  let q_cycles := Z.quot remdays DAYS_PER_4Y in
  let q_cycles := if q_cycles =? 25 then q_cycles - 1 else q_cycles in
  let remdays := remdays - q_cycles * DAYS_PER_4Y in
  let remyears := Z.quot remdays 365 in
  let remyears := if remyears =? 4 then remyears - 1 else remyears in
  let remdays := remdays - remyears * 365 in
  let leap := if (remyears =? 0) && (negb (q_cycles =? 0) || (c_cycles =? 0)) then 1 else 0 in
  let yday := remdays + 31 + 28 + leap in
  let yday := if 365 + leap <=? yday then yday - (365 + leap) else yday in
  let years := remyears + 4 * q_cycles + 100 * c_cycles + 400 * qc_cycles in
  match months_loop days_in_month 0 remdays with
  | None => None
  | Some (months, remdays) =>
    let '(months, years) := if 10 <=? months then (months - 12, years + 1) else (months, years) in
    if (INT_MAX <? years + 100) || (years + 100 <? INT_MIN) then None
    else Some (mkTm (Z.rem remsecs 60) (Z.rem (Z.quot remsecs 60) 60) (Z.quot remsecs 3600)
                 (remdays + 1) (months + 2) (years + 100) wday yday)
  end.

(** ** From a date to seconds *)

(** The seconds at the start of the year and [*is_leap]. *)
Definition __year_to_secs (year : Z) : Z * Z :=
  if u64 (year - 2) <=? 136 then
    let y := i32 year in
    let leaps := Z.shiftr (y - 68) 2 in
    let '(leaps, is_leap) := if Z.land (y - 68) 3 =? 0 then (leaps - 1, 1) else (leaps, 0) in
    (31536000 * (y - 70) + 86400 * leaps, is_leap)
  else
    let cycles := i32 (Z.quot (year - 100) 400) in
    let rem := i32 (Z.rem (year - 100) 400) in
    let '(cycles, rem) := if rem <? 0 then (cycles - 1, rem + 400) else (cycles, rem) in
    let '(centuries, leaps, is_leap) :=
      if rem =? 0 then (0, 0, 1)
      else
        let '(centuries, rem) :=
          if 200 <=? rem then if 300 <=? rem then (3, rem - 300) else (2, rem - 200)
          else if 100 <=? rem then (1, rem - 100) else (0, rem) in
        if rem =? 0 then (centuries, 0, 0)
        else (centuries, rem / 4, if rem mod 4 =? 0 then 1 else 0) in
    let leaps := leaps + (97 * cycles + 24 * centuries - is_leap) in
    ((year - 100) * 31536000 + leaps * 86400 + 946684800 + 86400, is_leap).

Definition secs_through_month : list Z := [
  0; 31 * 86400; 59 * 86400; 90 * 86400; 120 * 86400; 151 * 86400; 181 * 86400; 212 * 86400; 243 * 86400; 273 * 86400;
  304 * 86400; 334 * 86400].

Definition __month_to_secs (month is_leap : Z) : Z :=
  let t := nth (Z.to_nat month) secs_through_month 0 in
  if negb (is_leap =? 0) && (2 <=? month) then t + 86400 else t.

Definition __tm_to_secs (x : tm) : Z :=
  let year := tm_year x in
  let month := tm_mon x in
  let '(year, month) :=
    if (12 <=? month) || (month <? 0) then
      let adj := Z.quot month 12 in
      let month := Z.rem month 12 in
      let '(adj, month) := if month <? 0 then (adj - 1, month + 12) else (adj, month) in
      (year + adj, month)
    else (year, month) in
  let '(t, is_leap) := __year_to_secs year in
  let t := t + __month_to_secs month is_leap in
  let t := t + 86400 * (tm_mday x - 1) in
  let t := t + 3600 * tm_hour x in
  let t := t + 60 * tm_min x in
  t + tm_sec x.

(** [gmtime_r] and [timegm]; [None]: [EOVERFLOW]. *)
Definition gmtime_r (t : Z) : option tm := __secs_to_tm t.
Definition timegm (x : tm) : option (Z * tm) :=
  let t := __tm_to_secs x in
  match __secs_to_tm t with
  | None => None
  | Some new => Some (t, new)
  end.

(** ** The Gregorian calendar

    Years count from 1900, months from 0, days from 1 January 1970. *)

Definition leap_year (y : Z) : bool :=
  ((1900 + y) mod 4 =? 0) && (negb ((1900 + y) mod 100 =? 0) || ((1900 + y) mod 400 =? 0)).

(** Leap years up to and including the year [n] of the common era. *)
Definition leaps_to (n : Z) : Z := n / 4 - n / 100 + n / 400.
(** The day number of 1 January. *)
Definition jan1 (y : Z) : Z := 365 * (y - 70) + leaps_to (1899 + y) - leaps_to 1969.

Definition month_length (y m : Z) : Z :=
  match m with
  | 1 => if leap_year y then 29 else 28
  | 3 | 5 | 8 | 10 => 30
  | _ => 31
  end.
(** Days of the year before the month. *)
Definition month_start (y m : Z) : Z :=
  nth (Z.to_nat m) [0; 31; 59; 90; 120; 151; 181; 212; 243; 273; 304; 334] 0 + (if leap_year y && (2 <=? m) then 1 else 0).

Definition date_ok (x : tm) : Prop :=
  0 <= tm_sec x < 60 /\ 0 <= tm_min x < 60 /\ 0 <= tm_hour x < 24 /\
  0 <= tm_mon x < 12 /\ 1 <= tm_mday x <= month_length (tm_year x) (tm_mon x).

Definition day_number (x : tm) : Z := jan1 (tm_year x) + month_start (tm_year x) (tm_mon x) + (tm_mday x - 1).

(** ** Lemmas *)

Lemma i32_id x : - 2 ^ 31 <= x < 2 ^ 31 -> i32 x = x.
Proof.
  intros H. unfold i32, sgn. destruct (Z_lt_le_dec x 0).
  - replace (x mod 2 ^ 32) with (x + 2 ^ 32) by (apply (Z.mod_unique_pos _ _ (-1)); lia).
    destruct (Z.ltb_spec (x + 2 ^ 32) (2 ^ (32 - 1))); lia.
  - rewrite Z.mod_small by lia. destruct (Z.ltb_spec x (2 ^ (32 - 1))); lia.
Qed.

(** The source's fix-up of a division rounded towards zero is the floor
    division. *)
Lemma floor_fix {A} (a d : Z) (k : Z -> Z -> A) :
  0 < d ->
  (if Z.rem a d <? 0 then k (Z.rem a d + d) (Z.quot a d - 1) else k (Z.rem a d) (Z.quot a d)) = k (a mod d) (a / d).
Proof.
  intros Hd. pose proof (Z.quot_rem' a d) as Hq. pose proof (Z.rem_bound_abs a d ltac:(lia)).
  pose proof (Z.div_mod a d ltac:(lia)). pose proof (Z.mod_pos_bound a d Hd).
  destruct (Z.ltb_spec (Z.rem a d) 0).
  - assert (a / d = Z.quot a d - 1) by nia. f_equal; nia.
  - assert (a / d = Z.quot a d) by nia. f_equal; nia.
Qed.

Lemma floor_fix_mod a d : 0 < d -> (if Z.rem a d <? 0 then Z.rem a d + d else Z.rem a d) = a mod d.
Proof. apply (floor_fix a d (fun r _ => r)). Qed.

Lemma floor_fix_pair a d : 0 < d ->
  (if Z.rem a d <? 0 then (Z.rem a d + d, Z.quot a d - 1) else (Z.rem a d, Z.quot a d)) = (a mod d, a / d).
Proof. apply (floor_fix a d pair). Qed.

Lemma floor_fix_swap a d : 0 < d ->
  (if Z.rem a d <? 0 then (Z.quot a d - 1, Z.rem a d + d) else (Z.quot a d, Z.rem a d)) = (a / d, a mod d).
Proof. apply (floor_fix a d (fun r q => (q, r))). Qed.

Lemma rem_small_i32 a d : 0 < d < 2 ^ 31 -> i32 (Z.rem a d) = Z.rem a d.
Proof. intros H. apply i32_id. pose proof (Z.rem_bound_abs a d ltac:(lia)). lia. Qed.

(** A quotient that may come out one too large, at the end of the last
    period. *)
Lemma capped_quot r n k :
  0 < n -> 0 < k -> 0 <= r <= k * n ->
  exists q, (if Z.quot r n =? k then Z.quot r n - 1 else Z.quot r n) = q /\
    0 <= q < k /\ 0 <= r - q * n <= n /\ (r - q * n = n -> q = k - 1).
Proof.
  intros Hn Hk Hr. eexists. split; [done|]. rewrite Z.quot_div_nonneg by lia.
  pose proof (Z.div_mod r n ltac:(lia)). pose proof (Z.mod_pos_bound r n ltac:(lia)).
  destruct (Z.eqb_spec (r / n) k); nia.
Qed.

Lemma leap_period y k : leap_year (y + 400 * k) = leap_year y.
Proof.
  unfold leap_year.
  assert ((1900 + (y + 400 * k)) mod 4 = (1900 + y) mod 4) as -> by zdm.
  assert ((1900 + (y + 400 * k)) mod 100 = (1900 + y) mod 100) as -> by zdm.
  assert ((1900 + (y + 400 * k)) mod 400 = (1900 + y) mod 400) as -> by zdm. done.
Qed.

Lemma leaps_to_period n k : leaps_to (n + 400 * k) = leaps_to n + 97 * k.
Proof. unfold leaps_to. zdm. Qed.

Lemma jan1_next y : jan1 (y + 1) = jan1 y + 365 + (if leap_year y then 1 else 0).
Proof.
  unfold jan1, leaps_to, leap_year.
  destruct (Z.eqb_spec ((1900 + y) mod 4) 0), (Z.eqb_spec ((1900 + y) mod 100) 0), (Z.eqb_spec ((1900 + y) mod 400) 0);
    cbn [andb orb negb]; zdm.
Qed.

Lemma jan1_period y k : jan1 (y + 400 * k) = jan1 y + DAYS_PER_400Y * k.
Proof.
  unfold jan1, DAYS_PER_400Y. replace (1899 + (y + 400 * k)) with (1899 + y + 400 * k) by lia.
  rewrite leaps_to_period. lia.
Qed.

(** The years of one cycle, from 2000: what the second branch of
    [__year_to_secs] computes for each. *)
Definition year_in_cycle (rem : Z) : Z * Z * Z :=
  if rem =? 0 then (0, 0, 1)
  else
    let '(centuries, rem) :=
      if 200 <=? rem then if 300 <=? rem then (3, rem - 300) else (2, rem - 200)
      else if 100 <=? rem then (1, rem - 100) else (0, rem) in
    if rem =? 0 then (centuries, 0, 0)
    else (centuries, rem / 4, if rem mod 4 =? 0 then 1 else 0).

Lemma year_in_cycle_spec r :
  0 <= r < 400 ->
  let '(centuries, leaps, is_leap) := year_in_cycle r in
  is_leap = (if leap_year (100 + r) then 1 else 0) /\
  leaps + 24 * centuries - is_leap + 1 = leaps_to (1999 + r) - leaps_to 1999.
Proof.
  intros Hr. unfold year_in_cycle, leap_year, leaps_to.
  repeat (zcase; try lia; cbn [andb orb negb]); zdm.
Qed.

Lemma year_to_secs_window y :
  2 <= y <= 138 -> __year_to_secs y = (86400 * jan1 y, if leap_year y then 1 else 0).
Proof.
  intros Hy. unfold __year_to_secs. rewrite u64_id by lia. rewrite i32_id by lia.
  destruct (Z.leb_spec (y - 2) 136); [|lia].
  rewrite Z.shiftr_div_pow2 by lia. change 3 with (Z.ones 2). rewrite Z.land_ones by lia.
  unfold leap_year, jan1, leaps_to. change (2 ^ 2) with 4.
  destruct (Z.eqb_spec ((y - 68) mod 4) 0), (Z.eqb_spec ((1900 + y) mod 4) 0),
    (Z.eqb_spec ((1900 + y) mod 100) 0), (Z.eqb_spec ((1900 + y) mod 400) 0); cbn [andb orb negb];
    try (exfalso; zdm); f_equal; zdm.
Qed.

Lemma year_to_secs_spec y :
  - 2 ^ 38 <= y <= 2 ^ 38 ->
  __year_to_secs y = (86400 * jan1 y, if leap_year y then 1 else 0).
Proof.
  intros Hy. destruct (decide (2 <= y <= 138)) as [Hw|Hw]; [by apply year_to_secs_window|].
  unfold __year_to_secs. destruct (Z.leb_spec (u64 (y - 2)) 136) as [Hu|_]; [unfold u64 in Hu; zdm|].
  rewrite rem_small_i32 by lia.
  rewrite i32_id by (Z.to_euclidean_division_equations; lia).
  rewrite floor_fix_swap by lia.
  change (if (y - 100) mod 400 =? 0 then (0, 0, 1) else _) with (year_in_cycle ((y - 100) mod 400)).
  pose proof (year_in_cycle_spec ((y - 100) mod 400) ltac:(apply Z.mod_pos_bound; lia)) as Hc.
  destruct (year_in_cycle _) as [[centuries leaps] is_leap]. destruct Hc as [Hl Hs].
  assert (Hy' : y = 100 + (y - 100) mod 400 + 400 * ((y - 100) / 400)) by zdm.
  assert (leap_year y = leap_year (100 + (y - 100) mod 400)) as -> by (rewrite Hy' at 1; apply leap_period).
  assert (jan1 y = jan1 (100 + (y - 100) mod 400) + DAYS_PER_400Y * ((y - 100) / 400)) as ->
    by (rewrite Hy' at 1; apply jan1_period).
  f_equal; [|done]. unfold jan1, DAYS_PER_400Y. rewrite (Z.add_assoc 1899 100).
  change (1899 + 100) with 1999. change (leaps_to 1969) with 477. change (leaps_to 1999) with 484 in Hs. lia.
Qed.

(** ** Seconds to date *)

Ltac fold_numerals :=
  repeat match goal with
  | |- context [Z.add 0 (Zpos ?p)] => change (Z.add 0 (Zpos p)) with (Zpos p)
  | |- context [Z.add (Zpos ?p) (Zpos ?q)] => let v := eval vm_compute in (Zpos p + Zpos q) in change (Z.add (Zpos p) (Zpos q)) with v
  | |- context [Z.sub (Zpos ?p) (Zpos ?q)] => let v := eval vm_compute in (Zpos p - Zpos q) in change (Z.sub (Zpos p) (Zpos q)) with v
  | |- context [Z.to_nat 0] => change (Z.to_nat 0) with O
  | |- context [Z.to_nat (Zpos ?p)] => let v := eval vm_compute in (Z.to_nat (Zpos p)) in change (Z.to_nat (Zpos p)) with v
  | |- context [Z.add (Zneg ?p) (Zpos ?q)] => let v := eval vm_compute in (Zneg p + Zpos q) in change (Z.add (Zneg p) (Zpos q)) with v
  end.

(** The date of the day [remdays] (from 1 March) of the year [y] (from
    1900), as the loop over the months and its fix-up give it. *)
Lemma months_loop_spec y r :
  0 <= r < 365 + (if leap_year (y + 1) then 1 else 0) ->
  exists months remdays, months_loop days_in_month 0 r = Some (months, remdays) /\
    let m := if 10 <=? months then months - 12 + 2 else months + 2 in
    let y' := if 10 <=? months then y + 1 else y in
    (10 <=? months) = (306 <=? r) /\ 0 <= m < 12 /\ 0 <= remdays < month_length y' m /\
    jan1 y' + month_start y' m + remdays = jan1 y + 59 + (if leap_year y then 1 else 0) + r.
Proof.
  intros Hr. unfold days_in_month, months_loop.
  destruct (Z.leb_spec 306 r);
  repeat (match goal with |- context [?a <=? ?b] => destruct (Z.leb_spec a b); [|eexists _, _; split; [reflexivity|]] end);
    try (exfalso; destruct (leap_year (y + 1)); lia); fold_numerals; cbv zeta;
    (split; [first [reflexivity|exfalso; lia]|]); cbn [Z.leb Z.compare Pos.compare Pos.compare_cont];
    fold_numerals; rewrite ?jan1_next; unfold month_start, month_length; fold_numerals;
    cbn [Z.leb Z.compare Pos.compare Pos.compare_cont nth Z.to_nat];
    rewrite ?andb_true_r, ?andb_false_r; destruct (leap_year y), (leap_year (y + 1)); lia.
Qed.

(** The year that starts on 1 March, from its place in the cycles. *)
Lemma march_year qc c q ry :
  0 <= c < 4 -> 0 <= q < 25 -> 0 <= ry < 4 ->
  let y := ry + 4 * q + 100 * c + 400 * qc + 100 in
  leap_year y = ((ry =? 0) && (negb (q =? 0) || (c =? 0))) /\
  leap_year (y + 1) = ((ry =? 3) && (negb (q =? 24) || (c =? 3))) /\
  jan1 y + 59 + (if leap_year y then 1 else 0) =
    11017 + DAYS_PER_400Y * qc + DAYS_PER_100Y * c + DAYS_PER_4Y * q + 365 * ry.
Proof.
  intros Hc Hq Hr. cbv zeta.
  replace (ry + 4 * q + 100 * c + 400 * qc + 100) with (100 + (ry + 4 * q + 100 * c) + 400 * qc) by lia.
  replace (100 + (ry + 4 * q + 100 * c) + 400 * qc + 1) with (101 + (ry + 4 * q + 100 * c) + 400 * qc) by lia.
  rewrite !leap_period, jan1_period.
  assert (H1 : leap_year (100 + (ry + 4 * q + 100 * c)) = ((ry =? 0) && (negb (q =? 0) || (c =? 0)))).
  { unfold leap_year. repeat (zcase; cbn [andb orb negb]; try done); exfalso; zdm. }
  split; [done|]. split.
  { unfold leap_year. repeat (zcase; cbn [andb orb negb]; try done); exfalso; zdm. }
  rewrite H1. unfold jan1, leaps_to, DAYS_PER_400Y, DAYS_PER_100Y, DAYS_PER_4Y.
  assert (ry = 0 \/ ry <> 0) as [->|] by lia.
  - destruct (Z.eqb_spec q 0), (Z.eqb_spec c 0); cbn [andb orb negb Z.eqb]; zdm.
  - destruct (Z.eqb_spec ry 0); [done|]. cbn [andb]. zdm.
Qed.

(** The time of day, from its seconds. *)
Lemma clock_fields s :
  0 <= s < 86400 ->
  0 <= Z.rem s 60 < 60 /\ 0 <= Z.rem (Z.quot s 60) 60 < 60 /\ 0 <= Z.quot s 3600 < 24 /\
  3600 * Z.quot s 3600 + 60 * Z.rem (Z.quot s 60) 60 + Z.rem s 60 = s.
Proof. intros H. split_and!; Z.to_euclidean_division_equations; lia. Qed.

(** The date of the second [t]: its day is [t / 86400], its time [t mod
    86400]. *)
Definition date_of (t : Z) (x : tm) : Prop :=
  date_ok x /\ day_number x = t / 86400 /\
  3600 * tm_hour x + 60 * tm_min x + tm_sec x = t mod 86400 /\
  tm_wday x = (4 + t / 86400) mod 7 /\ tm_yday x = t / 86400 - jan1 (tm_year x).

Lemma secs_to_tm_spec t :
  INT_MIN * 31622400 <= t <= INT_MAX * 31622400 ->
  exists x, date_of t x /\ - 2 ^ 33 <= tm_year x <= 2 ^ 33 /\
    __secs_to_tm t = if (INT_MAX <? tm_year x) || (tm_year x <? INT_MIN) then None else Some x.
Proof.
  intros Ht. unfold __secs_to_tm.
  destruct (Z.ltb_spec t (INT_MIN * 31622400)); [lia|].
  destruct (Z.ltb_spec (INT_MAX * 31622400) t); [lia|]. cbn [orb].
  rewrite rem_small_i32 by lia. rewrite floor_fix_pair by lia.
  set (s := (t - LEAPOCH) mod 86400). set (days := (t - LEAPOCH) / 86400).
  assert (Hd : days = t / 86400 - 11017) by (unfold days, LEAPOCH; zdm).
  assert (Hs : s = t mod 86400) by (unfold s, LEAPOCH; zdm).
  assert (Hdb : - 2 ^ 40 <= days <= 2 ^ 40) by (unfold INT_MIN, INT_MAX in *; zdm).
  clearbody s days.
  rewrite (rem_small_i32 (3 + days) 7), floor_fix_mod by lia.
  rewrite rem_small_i32 by (unfold DAYS_PER_400Y; lia).
  rewrite i32_id by (unfold DAYS_PER_400Y; Z.to_euclidean_division_equations; lia).
  rewrite floor_fix_pair by (unfold DAYS_PER_400Y; lia).
  assert (Hr : 0 <= days mod DAYS_PER_400Y < DAYS_PER_400Y) by (apply Z.mod_pos_bound; unfold DAYS_PER_400Y; lia).
  assert (Hq : days = DAYS_PER_400Y * (days / DAYS_PER_400Y) + days mod DAYS_PER_400Y)
    by (apply Z.div_mod; unfold DAYS_PER_400Y; lia).
  set (r := days mod DAYS_PER_400Y) in *. set (qc := days / DAYS_PER_400Y) in *. clearbody r qc.
  cbv zeta.
  destruct (capped_quot r DAYS_PER_100Y 4) as (c & -> & Hc); [done..|unfold DAYS_PER_400Y, DAYS_PER_100Y in *; lia|].
  remember (r - c * DAYS_PER_100Y) as r1 eqn:E1.
  destruct (capped_quot r1 DAYS_PER_4Y 25) as (q & -> & Hqq); [done..|unfold DAYS_PER_4Y, DAYS_PER_100Y in *; lia|].
  remember (r1 - q * DAYS_PER_4Y) as r2 eqn:E2.
  destruct (capped_quot r2 365 4) as (ry & -> & Hry); [done..|unfold DAYS_PER_4Y, DAYS_PER_100Y in *; lia|].
  remember (r2 - ry * 365) as r3 eqn:E3.
  assert (Hr3 : days = DAYS_PER_400Y * qc + DAYS_PER_100Y * c + DAYS_PER_4Y * q + 365 * ry + r3) by lia.
  assert (Hlast : r3 = 365 -> ry = 3 /\ (q = 24 -> c = 3)). {
    unfold DAYS_PER_4Y, DAYS_PER_100Y, DAYS_PER_400Y in *. lia. }
  destruct (march_year qc c q ry) as (Hl1 & Hl2 & Hj); [lia..|].
  set (Y := ry + 4 * q + 100 * c + 400 * qc) in *.
  assert (HY : - 2 ^ 32 <= Y <= 2 ^ 32) by (unfold Y, DAYS_PER_4Y, DAYS_PER_100Y, DAYS_PER_400Y in *; lia).
  rewrite <- Hl1. clearbody Y.
  assert (Hr3' : 0 <= r3 < 365 + (if leap_year (Y + 100 + 1) then 1 else 0)).
  { rewrite Hl2. destruct (Z.eqb_spec ry 3), (Z.eqb_spec q 24), (Z.eqb_spec c 3); cbn [andb orb negb]; lia. }
  destruct (months_loop_spec (Y + 100) r3 Hr3') as (months & rd & Hm & Hspec). rewrite Hm.
  cbv zeta in Hspec. destruct Hspec as (H306 & Hm12 & Hrd & Hday).
  assert (Hdy : t / 86400 = jan1 (Y + 100) + 59 + (if leap_year (Y + 100) then 1 else 0) + r3) by lia.
  pose proof (jan1_next (Y + 100)) as Hn.
  rewrite Hs. pose proof (Z.mod_pos_bound t 86400 ltac:(lia)) as Htm.
  assert (Hw : (3 + days) mod 7 = (4 + t / 86400) mod 7) by (rewrite Hd; zdm).
  rewrite Hw. rewrite H306 in *.
  replace (365 + (if leap_year (Y + 100) then 1 else 0) <=? r3 + 31 + 28 + (if leap_year (Y + 100) then 1 else 0))
    with (306 <=? r3) by (destruct (Z.leb_spec 306 r3); symmetry; [apply Z.leb_le|apply Z.leb_gt]; lia).
  destruct (clock_fields _ Htm) as (Hs1 & Hs2 & Hs3 & Hs4).
  destruct (306 <=? r3);
    (eexists (mkTm (Z.rem (t mod 86400) 60) (Z.rem (Z.quot (t mod 86400) 60) 60) (Z.quot (t mod 86400) 3600) (rd + 1) _ _
       ((4 + t / 86400) mod 7) _); split; [|split; [|cbn [tm_year]; reflexivity]]);
    cbn [tm_year]; [|lia| |lia]; unfold date_of, date_ok, day_number;
    cbn [tm_sec tm_min tm_hour tm_mday tm_mon tm_year tm_wday tm_yday];
    rewrite ?(Z.add_shuffle0 Y 1 100); split_and!; first [reflexivity|lia].
Qed.

(** *** Reading a date *)

Definition year_ok (y : Z) : Prop := INT_MIN <= y <= INT_MAX.

Lemma month_to_secs_spec y m :
  0 <= m < 12 ->
  __month_to_secs m (if leap_year y then 1 else 0) = 86400 * month_start y m.
Proof.
  intros Hm. unfold __month_to_secs, month_start.
  assert (m = 0 \/ m = 1 \/ m = 2 \/ m = 3 \/ m = 4 \/ m = 5 \/ m = 6 \/ m = 7 \/ m = 8 \/ m = 9 \/ m = 10 \/ m = 11)
    as Hc by lia.
  destruct (leap_year y); repeat (destruct Hc as [->|Hc]; [reflexivity|]); subst; reflexivity.
Qed.

(** Any month, negative or past the end of the year, is counted from the
    year it belongs to. *)
Lemma tm_to_secs_spec x :
  year_ok (tm_year x) -> INT_MIN <= tm_mon x <= INT_MAX ->
  let y := tm_year x + tm_mon x / 12 in
  __tm_to_secs x =
    86400 * (jan1 y + month_start y (tm_mon x mod 12) + (tm_mday x - 1)) + 3600 * tm_hour x + 60 * tm_min x + tm_sec x.
Proof.
  intros Hy Hm y. unfold year_ok, INT_MIN, INT_MAX in *. unfold __tm_to_secs. cbv beta zeta delta [y]. fold y.
  assert (Hb : - 2 ^ 38 <= y <= 2 ^ 38) by (unfold y; zdm).
  assert (Hr : 0 <= tm_mon x mod 12 < 12) by (apply Z.mod_pos_bound; lia).
  destruct ((12 <=? tm_mon x) || (tm_mon x <? 0)) eqn:E.
  - rewrite floor_fix_swap by lia. fold y. rewrite year_to_secs_spec by done.
    rewrite month_to_secs_spec by done. lia.
  - apply orb_false_iff in E as [E1 E2]. apply Z.leb_gt in E1. apply Z.ltb_ge in E2.
    assert (tm_mon x / 12 = 0) as E3 by zdm. assert (tm_mon x mod 12 = tm_mon x) as E4 by zdm.
    unfold y in *. rewrite E3, E4, Z.add_0_r in *. rewrite year_to_secs_spec by done.
    rewrite month_to_secs_spec by lia. lia.
Qed.

Lemma tm_to_secs_ok x :
  year_ok (tm_year x) -> 0 <= tm_mon x < 12 ->
  __tm_to_secs x = 86400 * day_number x + 3600 * tm_hour x + 60 * tm_min x + tm_sec x.
Proof.
  intros Hy Hm. rewrite tm_to_secs_spec by (try done; unfold INT_MIN, INT_MAX; lia). cbv zeta. unfold day_number.
  rewrite Z.div_small, Z.mod_small, Z.add_0_r by lia. lia.
Qed.

Lemma jan1_mono y z : y <= z -> jan1 y <= jan1 z.
Proof. intros H. unfold jan1, leaps_to. zdm. Qed.

Lemma months_cases m : 0 <= m < 12 -> In m [0; 1; 2; 3; 4; 5; 6; 7; 8; 9; 10; 11].
Proof. intros H. cbn. lia. Qed.

Lemma month_start_next y m m' :
  0 <= m -> m < m' < 12 -> month_start y m + month_length y m <= month_start y m'.
Proof.
  intros Hm Hlt. unfold month_start, month_length.
  pose proof (months_cases m ltac:(lia)) as Hc. pose proof (months_cases m' ltac:(lia)) as Hc'. cbn in Hc, Hc'.
  repeat (destruct Hc as [<-|Hc]; [repeat (destruct Hc' as [<-|Hc']; [first [exfalso; lia|destruct (leap_year y); apply Z.leb_le; reflexivity]|]); done|]). done.
Qed.

Lemma month_start_last y m :
  0 <= m < 12 -> 0 <= month_start y m /\ month_start y m + month_length y m <= 365 + (if leap_year y then 1 else 0).
Proof.
  intros Hm. unfold month_start, month_length. pose proof (months_cases m Hm) as Hc. cbn in Hc.
  repeat (destruct Hc as [<-|Hc]; [destruct (leap_year y); split; apply Z.leb_le; reflexivity|]). done.
Qed.

(** A day has one date. *)
Lemma day_number_inj x x' :
  date_ok x -> date_ok x' -> day_number x = day_number x' ->
  tm_year x = tm_year x' /\ tm_mon x = tm_mon x' /\ tm_mday x = tm_mday x'.
Proof.
  unfold date_ok, day_number. intros (_ & _ & _ & Hm & Hd) (_ & _ & _ & Hm' & Hd') E.
  pose proof (month_start_last (tm_year x) _ Hm). pose proof (month_start_last (tm_year x') _ Hm').
  pose proof (jan1_next (tm_year x)). pose proof (jan1_next (tm_year x')).
  assert (Ey : tm_year x = tm_year x').
  { destruct (Z.lt_trichotomy (tm_year x) (tm_year x')) as [Hlt|[He|Hlt]]; [|done|];
      [pose proof (jan1_mono (tm_year x + 1) (tm_year x'))|pose proof (jan1_mono (tm_year x' + 1) (tm_year x))]; lia. }
  split; [done|]. rewrite <- Ey in *.
  assert (Em : tm_mon x = tm_mon x').
  { destruct (Z.lt_trichotomy (tm_mon x) (tm_mon x')) as [Hlt|[He|Hlt]]; [|done|];
      [pose proof (month_start_next (tm_year x) (tm_mon x) (tm_mon x'))
      |pose proof (month_start_next (tm_year x) (tm_mon x') (tm_mon x))]; lia. }
  rewrite Em in *. split; [done|lia].
Qed.

(** The seconds whose year is an [int]. *)
Definition in_range (t : Z) : Prop := 86400 * jan1 INT_MIN <= t < 86400 * jan1 (INT_MAX + 1).

Lemma year_in_range t x : date_of t x -> (year_ok (tm_year x) <-> in_range t).
Proof.
  intros ((Hs & Hmi & Hh & Hm & Hd) & Hday & Hclock & _). unfold year_ok, in_range. unfold day_number in Hday.
  pose proof (month_start_last (tm_year x) _ Hm). pose proof (jan1_next (tm_year x)).
  pose proof (Z.div_mod t 86400 ltac:(lia)).
  assert (Hin : 86400 * jan1 (tm_year x) <= t < 86400 * jan1 (tm_year x + 1)) by lia.
  split; intros Hy.
  - pose proof (jan1_mono INT_MIN (tm_year x)). pose proof (jan1_mono (tm_year x + 1) (INT_MAX + 1)). lia.
  - split.
    + destruct (Z_le_gt_dec INT_MIN (tm_year x)); [done|]. pose proof (jan1_mono (tm_year x + 1) INT_MIN). lia.
    + destruct (Z_le_gt_dec (tm_year x) INT_MAX); [done|]. pose proof (jan1_mono (INT_MAX + 1) (tm_year x)). lia.
Qed.

Lemma tm_to_secs_date t x : year_ok (tm_year x) -> date_of t x -> __tm_to_secs x = t.
Proof.
  intros Hy ((_ & _ & _ & Hm & _) & Hday & Hclock & _). rewrite tm_to_secs_ok by done.
  pose proof (Z.div_mod t 86400 ltac:(lia)). lia.
Qed.

Lemma secs_to_tm_some t :
  in_range t -> exists x, __secs_to_tm t = Some x /\ date_of t x /\ year_ok (tm_year x).
Proof.
  intros Hr. destruct (secs_to_tm_spec t) as (x & Hx & _ & E).
  { unfold in_range in Hr. change (jan1 INT_MIN) with (-784352321872) in Hr.
    change (jan1 (INT_MAX + 1)) with 784352270737 in Hr. unfold INT_MIN, INT_MAX. lia. }
  exists x. apply (year_in_range t x Hx) in Hr as Hy. split; [|done].
  rewrite E. unfold year_ok in Hy.
  destruct (Z.ltb_spec INT_MAX (tm_year x)), (Z.ltb_spec (tm_year x) INT_MIN); try lia. done.
Qed.

Lemma secs_to_tm_none t : ~ in_range t -> __secs_to_tm t = None.
Proof.
  intros Hr. destruct (Z_lt_le_dec t (INT_MIN * 31622400)) as [Hl|Hl].
  { unfold __secs_to_tm. apply Z.ltb_lt in Hl. by rewrite Hl. }
  destruct (Z_lt_le_dec (INT_MAX * 31622400) t) as [Hh|Hh].
  { unfold __secs_to_tm. apply Z.ltb_lt in Hh. rewrite Hh. by rewrite orb_true_r. }
  destruct (secs_to_tm_spec t) as (x & Hx & _ & ->); [lia|].
  rewrite <- (year_in_range t x Hx) in Hr. unfold year_ok in Hr.
  destruct (Z.ltb_spec INT_MAX (tm_year x)), (Z.ltb_spec (tm_year x) INT_MIN); try done. lia.
Qed.

(** ** Properties *)

(** C31: [gmtime_r] gives every second of the years that fit an [int] its
    Gregorian date, a valid one with its day of the week and of the year,
    from which [__tm_to_secs] computes the same second again; outside those
    years, and only there, it fails with [EOVERFLOW]. *)
Theorem gmtime_round_trip t :
  match gmtime_r t with
  | Some x => in_range t /\ date_of t x /\ __tm_to_secs x = t
  | None => ~ in_range t
  end.
Proof.
  unfold gmtime_r.
  assert (Hdec : in_range t \/ ~ in_range t) by (unfold in_range; lia).
  destruct Hdec as [Hr|Hr].
  - destruct (secs_to_tm_some t Hr) as (x & -> & Hx & Hy). split; [done|]. split; [done|]. by apply tm_to_secs_date.
  - by rewrite secs_to_tm_none.
Qed.

(** [timegm] counts an arbitrary month, day and time from the Gregorian
    date and replaces the argument by the date of that second; a valid date
    keeps its fields and gets its day of the week and of the year. *)
Theorem timegm_normalises x :
  year_ok (tm_year x) -> INT_MIN <= tm_mon x <= INT_MAX ->
  let y := tm_year x + tm_mon x / 12 in
  let t := 86400 * (jan1 y + month_start y (tm_mon x mod 12) + (tm_mday x - 1)) + 3600 * tm_hour x + 60 * tm_min x + tm_sec x in
  (in_range t -> exists x', timegm x = Some (t, x') /\ date_of t x') /\
  (~ in_range t -> timegm x = None) /\
  (date_ok x -> timegm x =
    Some (t, mkTm (tm_sec x) (tm_min x) (tm_hour x) (tm_mday x) (tm_mon x) (tm_year x)
               ((4 + day_number x) mod 7) (day_number x - jan1 (tm_year x)))).
Proof.
  intros Hy Hm y t. unfold timegm. rewrite (tm_to_secs_spec x Hy Hm). fold y. fold t.
  split; [|split].
  - intros Hr. destruct (secs_to_tm_some t Hr) as (x' & -> & Hx & _). eauto.
  - intros Hr. by rewrite secs_to_tm_none.
  - intros Hok. pose proof Hok as (Hs & Hmi & Hh & Hm12 & Hd).
    assert (Et : t = 86400 * day_number x + 3600 * tm_hour x + 60 * tm_min x + tm_sec x).
    { unfold t, y, day_number. rewrite Z.div_small, Z.mod_small, Z.add_0_r by lia. lia. }
    assert (Ed : t / 86400 = day_number x) by zdm.
    set (x1 := mkTm _ _ _ _ _ _ _ _).
    assert (Hx1 : date_of t x1).
    { unfold x1, date_of, day_number at 1; cbn [tm_sec tm_min tm_hour tm_mday tm_mon tm_year tm_wday tm_yday].
      rewrite Ed. split_and!; try done. zdm. }
    destruct (secs_to_tm_some t) as (x' & -> & Hx' & _); [by apply (year_in_range t x1 Hx1)|].
    do 2 f_equal. destruct Hx' as ((Hs' & Hmi' & Hh' & Hrest) & Hday' & Hclock' & Hw' & Hyd').
    destruct Hx1 as (Hok1 & Hday1 & Hclock1 & Hw1 & Hyd1).
    destruct (day_number_inj x' x1) as (E1 & E2 & E3); [done|done|congruence|].
    assert (tm_hour x' = tm_hour x1 /\ tm_min x' = tm_min x1 /\ tm_sec x' = tm_sec x1) as (E4 & E5 & E6)
      by (unfold x1 in *; cbn in *; lia).
    destruct x'; cbn in *; unfold x1; cbn in *; congruence.
Qed.

Lemma timegm_normalises_witness :
  (exists x', timegm (mkTm 0 0 0 1 (-1) 0 0 0) = Some (-2211667200, x') /\ date_of (-2211667200) x') /\
  timegm (mkTm 8 14 3 19 0 138 0 0) = Some (2147483648, mkTm 8 14 3 19 0 138 2 18).
Proof.
  split.
  - apply (timegm_normalises (mkTm 0 0 0 1 (-1) 0 0 0)); done.
  - apply (timegm_normalises (mkTm 8 14 3 19 0 138 0 0)); [done|done|]. repeat split; done.
Defined.

End Calendar.
