(* ===== verification/Avl.v ===== *)
(** The binary search trees of the C library (musl src/search: tsearch,
    tfind, tdelete, twalk, tdestroy): AVL trees, with the array of the slots
    from the root to a node as a path. *)

From stdpp Require Import base tactics list numbers option sorting sets.
From Stdlib Require Import ZArith Lia.
From S2P Require Import Prelude.

#[local] Open Scope Z_scope.

Module Avl.
Import Prelude.

Section Tree.
Context {K : Type}.

(** ** Data

    A node lies at an address [p]; [Null] is the null pointer.  A tree owns
    its nodes: every node is the child of one node, or the root. *)
Inductive tree : Type :=
| Null
| Node (p : Z) (key : K) (h : Z) (a0 a1 : tree).

(** An entry of the array [a]: the slot [&n->a[dir]] of a node [n] on the
    way down, with the rest of the node. *)
Record slot : Type := mkSlot { n_p : Z; n_key : K; n_h : Z; n_dir : bool; n_other : tree }.

(** The bound of the array: the bits of a pointer, times 3 / 2. *)
Definition MAXH : nat := 96.

Definition height (n : tree) : Z := match n with Null => 0 | Node _ _ h _ _ => h end.

(** A node with the child [x] at [dir] and [y] at [!dir]. *)
Definition node_at (p : Z) (key : K) (h : Z) (dir : bool) (x y : tree) : tree :=
  if dir then Node p key h y x else Node p key h x y.
Definition child (dir : bool) (a0 a1 : tree) : tree := if dir then a1 else a0.

(** Returns [*p] and the difference of the heights; [None]: a null pointer
    is followed. *)
Definition rot (x : tree) (dir : bool) : option (tree * Z) :=
  match x with
  | Null => None
  | Node xp xk hx x0 x1 =>
    match child dir x0 x1 with
    | Null => None
    | Node yp yk yh y0 y1 =>
      let A := child (negb dir) x0 x1 in
      let z := child (negb dir) y0 y1 in
      let D := child dir y0 y1 in
      let hz := height z in
      if height D <? hz then
        match z with
        | Null => None
        | Node zp zk zh z0 z1 =>
          let x := node_at xp xk hz dir (child (negb dir) z0 z1) A in
          let y := node_at yp yk hz dir D (child dir z0 z1) in
          Some (node_at zp zk (hz + 1) dir y x, hz + 1 - hx)
        end
      else
        let x := node_at xp xk (hz + 1) dir z A in
        Some (node_at yp yk (hz + 2) dir D x, hz + 2 - hx)
    end
  end.

(** [h0 - h1 + 1u < 3u] *)
Definition __tsearch_balance (n : tree) : option (tree * Z) :=
  match n with
  | Null => None
  | Node p key old n0 n1 =>
    let h0 := height n0 in
    let h1 := height n1 in
    if u32 (h0 - h1 + 1) <? 3 then
      let h := if h0 <? h1 then h1 + 1 else h0 + 1 in
      Some (Node p key h n0 n1, h - old)
    else rot n (h0 <? h1)
  end.

(** Storing a subtree through a slot, and through all slots up to the root. *)
Definition plug (s : slot) (t : tree) : tree := node_at (n_p s) (n_key s) (n_h s) (n_dir s) t (n_other s).
Fixpoint plug_all (a : list slot) (t : tree) : tree :=
  match a with [] => t | s :: a' => plug_all a' (plug s t) end.

(** [*a[--i] = t; while (i && __tsearch_balance(a[--i]));] *)
Fixpoint rebalance (a : list slot) (t : tree) : option tree :=
  match a with
  | [] => Some t
  | s :: a' =>
    match __tsearch_balance (plug s t) with
    | None => None
    | Some (t', d) => if d =? 0 then Some (plug_all a' t') else rebalance a' t'
    end
  end.

Context (cmp : K -> K -> Z).

(** The way down from the root: [room] is the number of entries the array
    has left. *)
Inductive descent : Type :=
| Missing (a : list slot)
| Found (a : list slot) (p : Z) (k : K) (h : Z) (a0 a1 : tree)
| ArrayFull.

Fixpoint descend (room : nat) (key : K) (n : tree) (a : list slot) {struct n} : descent :=
  match n with
  | Null => Missing a
  | Node p k h a0 a1 =>
    let c := cmp key k in
    if c =? 0 then Found a p k h a0 a1
    else
      match room with
      | O => ArrayFull
      | S room' =>
        if 0 <? c then descend room' key a1 (mkSlot p k h true a0 :: a)
        else descend room' key a0 (mkSlot p k h false a1 :: a)
      end
  end.

(** ** The functions

    [rootp] is [None] for a null pointer; [new] is what [malloc] returns,
    [None] for no memory.  The result is the returned pointer with the tree,
    or [None] where the code would follow a null pointer or leave the array. *)
Definition tsearch (key : K) (rootp : option tree) (new : option Z) : option (Z * option tree) :=
  match rootp with
  | None => Some (0, None)
  | Some root =>
    match descend (MAXH - 1)%nat key root [] with
    | ArrayFull => None
    | Found _ p _ _ _ _ => Some (p, Some root)
    | Missing a =>
      match new with
      | None => Some (0, Some root)
      | Some r =>
        match rebalance a (Node r key 1 Null Null) with
        | None => None
        | Some root' => Some (r, Some root')
        end
      end
    end
  end.

Fixpoint tfind_loop (key : K) (n : tree) : Z :=
  match n with
  | Null => 0
  | Node p k _ a0 a1 =>
    let c := cmp key k in
    if c =? 0 then p else tfind_loop key (if 0 <? c then a1 else a0)
  end.
Definition tfind (key : K) (rootp : option tree) : Z :=
  match rootp with None => 0 | Some root => tfind_loop key root end.

(** [while (n->a[1])]: the address, key and left child of the last node, and
    the slots on the way to it. *)
Fixpoint rightmost (room : nat) (p : Z) (k : K) (h : Z) (a0 a1 : tree) (a : list slot) : option (Z * K * tree * list slot) :=
  match a1 with
  | Null => Some (p, k, a0, a)
  | Node p1 k1 h1 b0 b1 =>
    match room with
    | O => None
    | S room' => rightmost room' p1 k1 h1 b0 b1 (mkSlot p k h true a0 :: a)
    end
  end.

(** Returns the parent, the tree and the address that was freed. *)
Definition tdelete (key : K) (rootp : option tree) : option (Z * option tree * option Z) :=
  match rootp with
  | None => Some (0, None, None)
  | Some root =>
    match descend (MAXH + 1 - 2)%nat key root [] with
    | ArrayFull => None
    | Missing _ => Some (0, Some root, None)
    | Found a p k h a0 a1 =>
      let parent := match a with [] => p | s :: _ => n_p s end in
      match a0 with
      | Node p0 k0 h0 b0 b1 =>
        match (MAXH + 1 - 2 - length a)%nat with
        | O => None
        | S room =>
          match rightmost room p0 k0 h0 b0 b1 [] with
          | None => None
          | Some (freed, key', child, a') =>
            match rebalance (a' ++ mkSlot p key' h false a1 :: a) child with
            | None => None
            | Some root' => Some (parent, Some root', Some freed)
            end
          end
        end
      | Null =>
        match rebalance a a1 with
        | None => None
        | Some root' => Some (parent, Some root', Some p)
        end
      end
    end
  end.

Inductive VISIT := preorder | postorder | endorder | leaf.

(** The calls of [action]. *)
Fixpoint walk (r : tree) (d : Z) : list (Z * VISIT * Z) :=
  match r with
  | Null => []
  | Node p _ h a0 a1 =>
    if h =? 1 then [(p, leaf, d)]
    else (p, preorder, d) :: walk a0 (d + 1) ++ (p, postorder, d) :: walk a1 (d + 1) ++ [(p, endorder, d)]
  end.
Definition twalk (root : tree) : list (Z * VISIT * Z) := walk root 0.

(** The keys [freekey] is called with and the nodes that are freed. *)
Fixpoint tdestroy (r : tree) : list (K * Z) :=
  match r with
  | Null => []
  | Node p k _ a0 a1 => tdestroy a0 ++ tdestroy a1 ++ [(k, p)]
  end.

End Tree.

Arguments tree : clear implicits.
Arguments slot : clear implicits.


(** ** Meaning *)

#[local] Ltac app_eq := rewrite ?app_nil_r, <- ?app_assoc; cbn [app]; rewrite ?app_nil_r, <- ?app_assoc; reflexivity.

Section Spec.
Context {K : Type}.
Implicit Types t : tree K.

(** The nodes in order, with their keys. *)
Fixpoint nodes t : list (Z * K) :=
  match t with Null => [] | Node p k _ a0 a1 => nodes a0 ++ (p, k) :: nodes a1 end.

(** Every node stores its height, and the heights of its children differ by
    one at most. *)
Fixpoint avl t : Prop :=
  match t with
  | Null => True
  | Node _ _ h a0 a1 => avl a0 /\ avl a1 /\ -1 <= height a0 - height a1 <= 1 /\ h = 1 + Z.max (height a0) (height a1)
  end.

Lemma avl_height t : avl t -> 0 <= height t /\ (height t = 0 -> t = Null).
Proof.
  induction t as [|p k h a0 IH0 a1 IH1]; cbn; [by split; [lia|]|]. intros (H0 & H1 & Hd & ->).
  destruct (IH0 H0), (IH1 H1). split; [lia|]. intros ?; exfalso; lia.
Qed.

(** *** Rotation and balance *)

Lemma nodes_node_at p (k : K) h dir x y :
  nodes (node_at p k h dir x y) = if dir : bool then nodes y ++ (p, k) :: nodes x else nodes x ++ (p, k) :: nodes y.
Proof. by destruct dir. Qed.
Lemma avl_node_at p (k : K) h dir x y :
  avl (node_at p k h dir x y) <-> avl x /\ avl y /\ -1 <= height x - height y <= 1 /\ h = 1 + Z.max (height x) (height y).
Proof. destruct dir; cbn; split; intros (? & ? & ? & ?); split_and!; (done || lia). Qed.
Lemma height_node_at p (k : K) h dir x y : height (node_at p k h dir x y) = h.
Proof. by destruct dir. Qed.

Lemma node_split p (k : K) h dir x0 x1 : Node p k h x0 x1 = node_at p k h dir (child dir x0 x1) (child (negb dir) x0 x1).
Proof. by destruct dir. Qed.

Lemma rot_node p (k : K) h dir yp yk yh D z y :
  rot (node_at p k h dir (node_at yp yk yh dir D z) y) dir =
  if height D <? height z then
    match z with
    | Null => None
    | Node zp zk zh z0 z1 =>
      Some (node_at zp zk (height z + 1) dir (node_at yp yk (height z) dir D (child dir z0 z1))
              (node_at p k (height z) dir (child (negb dir) z0 z1) y), height z + 1 - h)
    end
  else Some (node_at yp yk (height z + 2) dir D (node_at p k (height z + 1) dir z y), height z + 2 - h).
Proof. by destruct dir. Qed.

(** A node whose deeper side [x], at [dir], is two higher than the other. *)
Lemma rot_spec p (k : K) h dir x y :
  avl x -> avl y -> height x = height y + 2 ->
  exists t', rot (node_at p k h dir x y) dir = Some (t', height t' - h) /\ avl t' /\
    nodes t' = nodes (node_at p k h dir x y) /\ height x <= height t' <= height x + 1.
Proof.
  intros Hx Hy Hh. destruct (avl_height y Hy) as [Hy0 _].
  destruct x as [|yp yk yh y0 y1]; [cbn in Hh; lia|].
  revert Hx Hh. rewrite (node_split yp yk yh dir y0 y1).
  generalize (child dir y0 y1) (child (negb dir) y0 y1). intros D z Hx Hh.
  apply avl_node_at in Hx as (HD & Hz & Hd & Hyh). rewrite rot_node. rewrite height_node_at in *.
  destruct (Z.ltb_spec (height D) (height z)) as [Hlt|Hge].
  - destruct z as [|zp zk zh z0 z1]; [destruct (avl_height D HD); cbn in Hlt; lia|]. cbn [height] in *.
    destruct Hz as (Hz0 & Hz1 & Hzd & Hzh).
    eexists. split; [rewrite height_node_at; reflexivity|]. rewrite !avl_node_at, !height_node_at, !nodes_node_at. cbn [nodes].
    split; [|split]; [| |lia].
    + pose proof (avl_height z0 Hz0) as [? _]. pose proof (avl_height z1 Hz1) as [? _].
      destruct dir; cbn [child negb]; split_and!; (done || lia).
    + destruct dir; cbn [child negb]; rewrite ?nodes_node_at; cbn [nodes]; app_eq.
  - eexists. split; [rewrite height_node_at; reflexivity|]. rewrite !avl_node_at, !height_node_at, !nodes_node_at.
    split; [|split]; [| |lia].
    + split_and!; (done || lia).
    + destruct dir; rewrite ?nodes_node_at; app_eq.
Qed.

Lemma balance_spec p (k : K) old a0 a1 :
  avl a0 -> avl a1 -> -2 <= height a0 - height a1 <= 2 ->
  exists t', __tsearch_balance (Node p k old a0 a1) = Some (t', height t' - old) /\ avl t' /\
    nodes t' = nodes a0 ++ (p, k) :: nodes a1 /\
    if decide (-1 <= height a0 - height a1 <= 1) then height t' = 1 + Z.max (height a0) (height a1)
    else Z.max (height a0) (height a1) <= height t' <= Z.max (height a0) (height a1) + 1.
Proof.
  intros H0 H1 Hd. cbn [__tsearch_balance].
  destruct (decide (-1 <= height a0 - height a1 <= 1)) as [Hok|Hbad].
  - rewrite u32_id by lia. destruct (Z.ltb_spec (height a0 - height a1 + 1) 3); [|lia].
    exists (Node p k (if height a0 <? height a1 then height a1 + 1 else height a0 + 1) a0 a1). split; [reflexivity|].
    cbn [avl nodes height]. destruct (Z.ltb_spec (height a0) (height a1)); split_and!; (done || lia).
  - destruct (Z.ltb_spec (u32 (height a0 - height a1 + 1)) 3) as [Hlt|_]; [unfold u32 in Hlt; zdm|].
    destruct (Z.ltb_spec (height a0) (height a1)).
    + destruct (rot_spec p k old true a1 a0) as (t' & E & Ha & Hn & Hh); [done|done|lia|].
      exists t'. split; [exact E|]. split_and!; (done || lia).
    + destruct (rot_spec p k old false a0 a1) as (t' & E & Ha & Hn & Hh); [done|done|lia|].
      exists t'. split; [exact E|]. split_and!; (done || lia).
Qed.

(** *** Slots *)

Fixpoint before (a : list (slot K)) : list (Z * K) :=
  match a with
  | [] => []
  | s :: a' => before a' ++ (if n_dir s then nodes (n_other s) ++ [(n_p s, n_key s)] else [])
  end.
Fixpoint after (a : list (slot K)) : list (Z * K) :=
  match a with
  | [] => []
  | s :: a' => (if n_dir s then [] else (n_p s, n_key s) :: nodes (n_other s)) ++ after a'
  end.

Lemma nodes_plug s t :
  nodes (plug s t) = (if n_dir s then nodes (n_other s) ++ [(n_p s, n_key s)] else []) ++ nodes t ++
                     (if n_dir s then [] else (n_p s, n_key s) :: nodes (n_other s)).
Proof.
  unfold plug. rewrite nodes_node_at. destruct (n_dir s); [by rewrite <- app_assoc, app_nil_r|done].
Qed.

Lemma nodes_plug_all a t : nodes (plug_all a t) = before a ++ nodes t ++ after a.
Proof.
  revert t. induction a as [|s a IH]; intros t; cbn [plug_all before after]; [by rewrite app_nil_r|].
  rewrite IH, nodes_plug. by rewrite <- !app_assoc.
Qed.

(** The slots of an AVL tree, with a subtree of height [h] below. *)
Fixpoint fits (a : list (slot K)) (h : Z) : Prop :=
  match a with
  | [] => True
  | s :: a' => avl (n_other s) /\ -1 <= h - height (n_other s) <= 1 /\
      n_h s = 1 + Z.max h (height (n_other s)) /\ fits a' (n_h s)
  end.

Lemma plug_avl s a t : avl t -> fits (s :: a) (height t) -> avl (plug s t) /\ fits a (height (plug s t)).
Proof.
  intros Ht (Ho & Hd & Hh & Hf). unfold plug. rewrite avl_node_at, height_node_at. split; [|done]. split_and!; (done || lia).
Qed.

Lemma plug_all_avl a t : avl t -> fits a (height t) -> avl (plug_all a t).
Proof.
  revert t. induction a as [|s a IH]; intros t Ht Hf; [done|]. cbn [plug_all].
  destruct (plug_avl s a t Ht Hf). by apply IH.
Qed.

(** Replacing the subtree by one whose height differs by one at most. *)
Lemma rebalance_spec a h t :
  fits a h -> avl t -> h - 1 <= height t <= h + 1 ->
  exists t', rebalance a t = Some t' /\ avl t' /\ nodes t' = before a ++ nodes t ++ after a.
Proof.
  revert h t. induction a as [|s a IH]; intros h t Hf Ht Hh; cbn [rebalance before after].
  { exists t. by rewrite app_nil_r. }
  destruct Hf as (Ho & Hd & Hsh & Hf).
  assert (Hb : exists t', __tsearch_balance (plug s t) = Some (t', height t' - n_h s) /\ avl t' /\
    nodes t' = nodes (plug s t) /\ n_h s - 1 <= height t' <= n_h s + 1).
  { unfold plug, node_at. destruct (n_dir s).
    - destruct (balance_spec (n_p s) (n_key s) (n_h s) (n_other s) t) as (t' & E & Ha & Hn & Hr); [done|done|lia|].
      exists t'. split; [done|]. split; [done|]. split; [done|]. destruct (decide _); lia.
    - destruct (balance_spec (n_p s) (n_key s) (n_h s) t (n_other s)) as (t' & E & Ha & Hn & Hr); [done|done|lia|].
      exists t'. split; [done|]. split; [done|]. split; [done|]. destruct (decide _); lia. }
  destruct Hb as (t1 & -> & Ha1 & Hn1 & Hh1).
  assert (En : before a ++ nodes t1 ++ after a =
    (before a ++ (if n_dir s then nodes (n_other s) ++ [(n_p s, n_key s)] else [])) ++ nodes t ++
    (if n_dir s then [] else (n_p s, n_key s) :: nodes (n_other s)) ++ after a)
    by (rewrite Hn1, nodes_plug; by rewrite <- !app_assoc).
  destruct (Z.eqb_spec (height t1 - n_h s) 0) as [Hz|Hz].
  - exists (plug_all a t1). split; [done|]. split.
    + apply plug_all_avl; [done|]. by replace (height t1) with (n_h s) by lia.
    + by rewrite nodes_plug_all.
  - destruct (IH (n_h s) t1 Hf Ha1 Hh1) as (t' & E & Ha' & Hn'). exists t'. rewrite E. split; [done|]. split; [done|].
    by rewrite Hn'.
Qed.

(** *** The height of a tree of n nodes *)

(** The least number of nodes of a tree of height [h] and of height [h+1]. *)
Fixpoint least (h : nat) : Z * Z :=
  match h with O => (0, 1) | S h' => let (x, y) := least h' in (y, x + y + 1) end.

Lemma least_mono h : 0 <= (least h).1 < (least h).2.
Proof. induction h as [|h IH]; cbn; [lia|]. destruct (least h) as [x y]. cbn in *. lia. Qed.

Lemma least_le n m : (n <= m)%nat -> (least n).1 <= (least m).1.
Proof.
  induction 1 as [|m Hle IH]; [lia|]. pose proof (least_mono m). cbn [least]. destruct (least m) as [x y]. cbn in *. lia.
Qed.

Lemma avl_size t : avl t -> (least (Z.to_nat (height t))).1 <= Z.of_nat (length (nodes t)).
Proof.
  induction t as [|p k h a0 IH0 a1 IH1]; cbn [avl nodes height]; [by intros _; cbn|]. intros (H0 & H1 & Hd & ->).
  specialize (IH0 H0). specialize (IH1 H1). destruct (avl_height a0 H0) as [P0 _], (avl_height a1 H1) as [P1 _].
  rewrite length_app. cbn [length]. set (m := Z.max (height a0) (height a1)) in *.
  assert (Hm : 0 <= m) by lia.
  assert (Hs : (least (Z.to_nat (1 + m))).1 <= (least (Z.to_nat m)).1 + (least (Z.to_nat (m - 1))).1 + 1).
  { replace (Z.to_nat (1 + m)) with (S (Z.to_nat m)) by lia. destruct (Z.to_nat m) as [|j] eqn:Ej; [replace (Z.to_nat (m - 1)) with O by lia; by cbn|].
    replace (Z.to_nat (m - 1)) with j by lia. cbn [least]. destruct (least j) as [x y]. cbn. lia. }
  assert (Hor : (height a0 = m /\ m - 1 <= height a1) \/ (height a1 = m /\ m - 1 <= height a0)) by lia.
  destruct Hor as [[E Hge]|[E Hge]].
  - rewrite E in IH0. pose proof (least_le (Z.to_nat (m - 1)) (Z.to_nat (height a1)) ltac:(lia)). lia.
  - rewrite E in IH1. pose proof (least_le (Z.to_nat (m - 1)) (Z.to_nat (height a0)) ltac:(lia)). lia.
Qed.

(** Fewer than 2^64 nodes make a tree of height 92 at most. *)
Lemma avl_height_bound t : avl t -> Z.of_nat (length (nodes t)) < 2 ^ 64 -> height t <= 92.
Proof.
  intros Ht Hn. destruct (Z_le_gt_dec (height t) 92) as [?|Hgt]; [done|].
  pose proof (avl_size t Ht) as Hs. pose proof (least_le 93 (Z.to_nat (height t)) ltac:(lia)) as Hl.
  assert (Hc : 2 ^ 64 <= (least 93).1) by (apply Z.leb_le; vm_compute; reflexivity). lia.
Qed.


(** *** The way down *)

Lemma before_app (a b : list (slot K)) : before (a ++ b) = before b ++ before a.
Proof. induction a as [|s a IH]; cbn [app before]; [by rewrite app_nil_r|]. rewrite IH. app_eq. Qed.
Lemma after_app (a b : list (slot K)) : after (a ++ b) = after a ++ after b.
Proof. induction a as [|s a IH]; cbn [app after]; [done|]. rewrite IH. app_eq. Qed.

(** [while (n->a[1])] ends at the last node of the subtree. *)
Lemma rightmost_spec room p (k : K) h a0 a1 a :
  avl (Node p k h a0 a1) -> h <= Z.of_nat room + 1 ->
  exists q k' c b, rightmost room p k h a0 a1 a = Some (q, k', c, b ++ a) /\ avl c /\ after b = [] /\
    nodes (Node p k h a0 a1) = before b ++ nodes c ++ [(q, k')] /\
    (forall rest, fits rest h -> fits (b ++ rest) (1 + height c)).
Proof.
  revert room p k h a0 a. induction a1 as [|p1 k1 h1 b0 _ b1 IH]; intros room p k h a0 a Ha Hr.
  - exists p, k, a0, []. destruct Ha as (H0 & _ & Hd & Hh). cbn in Hh, Hd. destruct (avl_height a0 H0).
    destruct room; (split; [reflexivity|]; split; [done|]; split; [done|]; split; [done|]); cbn [app]; intros rest Hf;
      by replace (1 + height a0) with h by lia.
  - destruct Ha as (H0 & H1 & Hd & Hh). destruct (avl_height a0 H0) as [? _]. destruct (avl_height _ H1) as [? HN].
    cbn [height] in *. destruct room as [|room]; [exfalso; assert (h1 = 0) as E0 by lia; by specialize (HN E0)|].
    destruct (IH room p1 k1 h1 b0 (mkSlot p k h true a0 :: a) H1 ltac:(lia)) as (q & k' & c & b & E & Hc & Hb & Hn & Hf).
    exists q, k', c, (b ++ [mkSlot p k h true a0]). rewrite <- app_assoc. split; [exact E|]. split; [done|].
    rewrite after_app, before_app, Hb. cbn [before after n_dir n_other n_p n_key app]. split; [done|]. split.
    + cbn [nodes] in *. rewrite Hn. app_eq.
    + intros rest Hrest. rewrite <- app_assoc. apply Hf. cbn. split_and!; (done || lia).
Qed.

End Spec.

(** *** Comparison functions

    What the functions require of [cmp]: the sign is that of an order in
    which different keys may be equal. *)
Class Comparison {K} (cmp : K -> K -> Z) : Prop := {
  cmp_anti : forall x y, 0 < cmp x y <-> cmp y x < 0;
  cmp_trans : forall x y z, cmp x y < 0 -> cmp y z < 0 -> cmp x z < 0;
  cmp_same : forall x y z, cmp x y = 0 -> cmp y z < 0 -> cmp x z < 0 }.

Section Order.
Context {K : Type} (cmp : K -> K -> Z) {Hcmp : Comparison cmp}.
Implicit Types (l : list (Z * K)) (t : tree K).

Definition lt_node (x y : Z * K) : Prop := cmp x.2 y.2 < 0.
Definition sorted l : Prop := StronglySorted lt_node l.

(** The abstract tree: a sorted list of nodes. *)
Definition lookup_node (key : K) l : option (Z * K) := List.find (fun x => cmp key x.2 =? 0) l.
Fixpoint insert_node (x : Z * K) l : list (Z * K) :=
  match l with [] => [x] | y :: l' => if 0 <? cmp x.2 y.2 then y :: insert_node x l' else x :: l end.

(** [B] lies before [key], [A] after it. *)
Definition gap (key : K) (B A : list (Z * K)) : Prop :=
  Forall (fun x => 0 < cmp key x.2) B /\ Forall (fun x => cmp key x.2 < 0) A.

Lemma lookup_gap key B l A : gap key B A -> lookup_node key (B ++ l ++ A) = lookup_node key l.
Proof.
  intros [HB HA]. unfold lookup_node. induction HB as [|x B Hx _ IH]; cbn [app List.find].
  - induction l as [|y l IH]; cbn [app List.find]; [|by rewrite IH].
    induction HA as [|x A Hx _ IH]; cbn [List.find]; [done|]. destruct (Z.eqb_spec (cmp key x.2) 0); [lia|done].
  - destruct (Z.eqb_spec (cmp key x.2) 0); [lia|done].
Qed.

Lemma insert_gap r key B A : gap key B A -> insert_node (r, key) (B ++ A) = B ++ (r, key) :: A.
Proof.
  intros [HB HA]. induction HB as [|x B Hx _ IH]; cbn [app insert_node].
  - destruct HA as [|x A Hx _]; [done|]. cbn [insert_node snd]. destruct (Z.ltb_spec 0 (cmp key x.2)); [lia|done].
  - cbn [snd]. destruct (Z.ltb_spec 0 (cmp key x.2)); [by rewrite IH|lia].
Qed.

Lemma cmp_refl (k : K) : cmp k k = 0.
Proof. pose proof (cmp_anti k k). lia. Qed.

Lemma cmp_trans_gt (x y z : K) : 0 < cmp x y -> 0 < cmp y z -> 0 < cmp x z.
Proof. rewrite !cmp_anti. intros. by apply cmp_trans with y. Qed.

Lemma cmp_same_gt (x y z : K) : cmp x y = 0 -> cmp z y < 0 -> 0 < cmp x z.
Proof.
  intros He Hl. destruct (Z.lt_trichotomy (cmp x z) 0) as [H|[H|H]]; [| |done].
  - pose proof (cmp_trans x z y H Hl). lia.
  - pose proof (cmp_same x z y H Hl). lia.
Qed.

Lemma sorted_around B p k A :
  sorted (B ++ (p, k) :: A) <->
  sorted (B ++ A) /\ Forall (fun x => cmp x.2 k < 0) B /\ Forall (fun x => cmp k x.2 < 0) A.
Proof.
  unfold sorted. rewrite !StronglySorted_app, StronglySorted_cons, !Forall_forall. unfold lt_node. cbn [snd]. split.
  - intros (H & HB & HA & Hs). split_and!; [|done|done| |done].
    + intros x1 x2 H1 H2. apply H; [done|]. by right.
    + intros x Hx. apply (H x (p, k) Hx). left.
  - intros ((H & HB & Hs) & H1 & H2). split_and!; [|done|done|done].
    intros x1 x2 Hx1 Hx2. apply elem_of_cons in Hx2 as [->|Hx2]; [by apply H1|by apply H].
Qed.

(** What lies around an element of a sorted list lies around its key. *)
Lemma sorted_gap key B p k A : sorted (B ++ (p, k) :: A) -> cmp key k = 0 -> gap key B A.
Proof.
  intros (_ & HB & HA)%sorted_around He. split; (eapply Forall_impl; [eassumption|]); intros x; cbn.
  - by apply cmp_same_gt.
  - by apply cmp_same.
Qed.

Lemma gap_sorted r key B A : sorted (B ++ A) -> gap key B A -> sorted (B ++ (r, key) :: A).
Proof.
  intros Hs [HB HA]. apply sorted_around. split; [done|]. split; [|done].
  eapply Forall_impl; [exact HB|]. intros x. cbn. by rewrite cmp_anti.
Qed.

Lemma gap_right key B p k l A A' :
  sorted ((B ++ l) ++ (p, k) :: A) -> gap key B A' -> 0 < cmp key k -> gap key (B ++ l ++ [(p, k)]) A'.
Proof.
  intros (_ & HB & _)%sorted_around [Hg HA] Hc. split; [|done].
  apply Forall_app in HB as [_ Hl]. rewrite !Forall_app, Forall_singleton. split_and!; [done| |done].
  eapply Forall_impl; [exact Hl|]. intros x. cbn. rewrite <- cmp_anti. by apply cmp_trans_gt.
Qed.

Lemma gap_left key B B' p k A A' :
  sorted (B ++ (p, k) :: A) -> gap key B' A' -> cmp key k < 0 -> gap key B' ((p, k) :: A).
Proof.
  intros (_ & _ & HA)%sorted_around [Hg _] Hc. split; [done|].
  constructor; [done|]. eapply Forall_impl; [exact HA|]. intros x. cbn. by apply cmp_trans.
Qed.

(** The loop from the root to the key, or to the slot it belongs in. *)
Lemma descend_spec room key n a :
  avl n -> fits a (height n) -> height n <= Z.of_nat room ->
  sorted (before a ++ nodes n ++ after a) -> gap key (before a) (after a) ->
  match descend cmp room key n a with
  | Missing a' => before a' ++ after a' = before a ++ nodes n ++ after a /\ fits a' 0 /\ gap key (before a') (after a')
  | Found a' p k h a0 a1 =>
    cmp key k = 0 /\ avl (Node p k h a0 a1) /\ fits a' h /\ Z.of_nat (length a') + h <= Z.of_nat (length a) + height n /\
    before a' ++ nodes (Node p k h a0 a1) ++ after a' = before a ++ nodes n ++ after a
  | ArrayFull => False
  end.
Proof.
  revert room a. induction n as [|p k h a0 IH0 a1 IH1]; intros room a Ha Hf Hr Hs Hg; cbn [descend]; [by split_and!|].
  destruct (Z.eqb_spec (cmp key k) 0) as [He|He]; [split_and!; (done || lia)|].
  pose proof Ha as (H0 & H1 & Hd & Hh). destruct (avl_height a0 H0) as [P0 _], (avl_height a1 H1) as [P1 _].
  cbn [height nodes] in *. destruct room as [|room]; [lia|].
  assert (Er : before a ++ (nodes a0 ++ (p, k) :: nodes a1) ++ after a =
    before (mkSlot p k h true a0 :: a) ++ nodes a1 ++ after (mkSlot p k h true a0 :: a)) by (cbn; app_eq).
  assert (El : before a ++ (nodes a0 ++ (p, k) :: nodes a1) ++ after a =
    before (mkSlot p k h false a1 :: a) ++ nodes a0 ++ after (mkSlot p k h false a1 :: a)) by (cbn; app_eq).
  destruct (Z.ltb_spec 0 (cmp key k)) as [Hc|Hc].
  - assert (Hg1 : gap key (before (mkSlot p k h true a0 :: a)) (after (mkSlot p k h true a0 :: a))).
    { apply gap_right with (nodes a1 ++ after a); [|done|done]. revert Hs. rewrite <- !app_assoc. done. }
    rewrite Er in *. specialize (IH1 room (mkSlot p k h true a0 :: a) H1 ltac:(cbn; split_and!; (done || lia)) ltac:(lia) Hs Hg1).
    destruct (descend cmp room key a1 _); [done| |done]. destruct IH1 as (? & ? & ? & ? & ?). cbn [length] in *.
    split_and!; (done || lia).
  - assert (Hg0 : gap key (before (mkSlot p k h false a1 :: a)) (after (mkSlot p k h false a1 :: a))).
    { cbn. rewrite app_nil_r. apply gap_left with (before a ++ nodes a0) (after a); [|done|lia]. revert Hs. rewrite <- !app_assoc. done. }
    rewrite El in *. specialize (IH0 room (mkSlot p k h false a1 :: a) H0 ltac:(cbn; split_and!; (done || lia)) ltac:(lia) Hs Hg0).
    destruct (descend cmp room key a0 _); [done| |done]. destruct IH0 as (? & ? & ? & ? & ?). cbn [length] in *.
    split_and!; (done || lia).
Qed.

Lemma lookup_found key p k B A : cmp key k = 0 -> sorted (B ++ (p, k) :: A) -> lookup_node key (B ++ (p, k) :: A) = Some (p, k).
Proof.
  intros He Hs. pose proof (sorted_gap key B p k A Hs He) as Hg.
  pose proof (lookup_gap key B [(p, k)] A Hg) as E. cbn [app] in E. rewrite E. unfold lookup_node. cbn. by rewrite He.
Qed.

Lemma lookup_missing key B A : gap key B A -> lookup_node key (B ++ A) = None.
Proof. intros Hg. exact (lookup_gap key B [] A Hg). Qed.

(** A tree the functions build: balanced, sorted, and small enough for the
    address space. *)
Definition wf t : Prop := avl t /\ sorted (nodes t) /\ Z.of_nat (length (nodes t)) < 2 ^ 64.

(** [descend] from the root of such a tree, in the array of [tsearch] or [tdelete]. *)
Lemma descend_root key t :
  wf t ->
  match descend cmp 95 key t [] with
  | Missing a => nodes t = before a ++ after a /\ fits a 0 /\ gap key (before a) (after a) /\ lookup_node key (nodes t) = None
  | Found a p k h a0 a1 =>
    cmp key k = 0 /\ avl (Node p k h a0 a1) /\ fits a h /\ Z.of_nat (length a) + h <= 92 /\
    nodes t = before a ++ nodes (Node p k h a0 a1) ++ after a /\ lookup_node key (nodes t) = Some (p, k)
  | ArrayFull => False
  end.
Proof.
  intros (Ha & Hs & Hn). pose proof (avl_height_bound t Ha Hn) as Hh.
  pose proof (descend_spec 95 key t [] Ha I ltac:(lia)) as H. cbn [before after app] in H. rewrite app_nil_r in H.
  specialize (H Hs ltac:(split; constructor)).
  destruct (descend cmp 95 key t []) as [a|a p k h a0 a1|]; [| |done].
  - destruct H as (E & Hf & Hg). rewrite <- E. do 3 (split; [done|]). by apply lookup_missing.
  - destruct H as (He & Hn' & Hf & Hl & E). cbn [length] in Hl. split_and!; [done|done|done|lia|done|].
    rewrite <- E in *. cbn [nodes] in *. rewrite <- app_assoc in *. cbn [app] in *. rewrite app_assoc in *. by apply lookup_found.
Qed.

(** Deleting the node [p] or the node before it. *)
Lemma sorted_delete B p k A : sorted (B ++ (p, k) :: A) -> sorted (B ++ A).
Proof. by intros [? _]%sorted_around. Qed.

Lemma sorted_move B q k' p k A : sorted (B ++ (q, k') :: (p, k) :: A) -> sorted (B ++ (p, k') :: A).
Proof.
  intros (Hs & HB & HA)%sorted_around. apply sorted_around. split; [by apply sorted_delete in Hs|]. split; [done|].
  by apply Forall_cons in HA as [_ ?].
Qed.

Lemma parent_in p (k : K) h a0 a1 a :
  match a with [] => p | s :: _ => n_p s end ∈ (before a ++ nodes (Node p k h a0 a1) ++ after a).*1.
Proof.
  rewrite !fmap_app. destruct a as [|s a]; cbn [before after nodes].
  - rewrite fmap_app, fmap_cons. set_solver.
  - destruct (n_dir s); rewrite ?fmap_app, ?fmap_cons; set_solver.
Qed.

(** C32: [tsearch] keeps a tree balanced and in order, and returns the node
    of the key: the old one, with the tree unchanged, or the new one, which
    then stands at the key's place among the nodes.  Without memory it
    returns a null pointer and leaves the tree.  The array of slots is large
    enough for every tree that fits the address space. *)
Theorem tsearch_inserts key t new :
  wf t ->
  match lookup_node key (nodes t), new with
  | Some (p, _), _ => tsearch cmp key (Some t) new = Some (p, Some t)
  | None, None => tsearch cmp key (Some t) new = Some (0, Some t)
  | None, Some r => exists t', tsearch cmp key (Some t) new = Some (r, Some t') /\
      avl t' /\ sorted (nodes t') /\ nodes t' = insert_node (r, key) (nodes t)
  end.
Proof.
  intros Hwf. pose proof (descend_root key t Hwf) as H. unfold tsearch. change (MAXH - 1)%nat with 95%nat.
  destruct (descend cmp 95 key t []) as [a|a p k h a0 a1|]; [|by destruct H as (_ & _ & _ & _ & _ & ->)|done].
  destruct H as (En & Hf & Hg & ->). destruct new as [r|]; [|done].
  destruct (rebalance_spec a 0 (Node r key 1 Null Null)) as (t' & -> & Ha' & Hn'); [done|cbn; split_and!; (done || lia)|cbn; lia|].
  exists t'. split; [done|]. split; [done|]. destruct Hwf as (_ & Hs & _). rewrite Hn', En in *. cbn [nodes app] in *.
  split; [by apply gap_sorted|]. by rewrite insert_gap.
Qed.


(** [tfind] is the search through the nodes in order. *)
Lemma tfind_loop_spec key t : sorted (nodes t) -> tfind_loop cmp key t = from_option fst 0 (lookup_node key (nodes t)).
Proof.
  induction t as [|p k h a0 IH0 a1 IH1]; [done|]. cbn [tfind_loop nodes]. intros Hs.
  destruct (Z.eqb_spec (cmp key k) 0) as [He|He]; [by rewrite lookup_found|].
  pose proof Hs as (_ & S0 & S1)%StronglySorted_app. apply StronglySorted_cons in S1 as [_ S1].
  destruct (Z.ltb_spec 0 (cmp key k)).
  - rewrite IH1 by done. change ((p, k) :: nodes a1) with ([(p, k)] ++ nodes a1). rewrite app_assoc.
    rewrite <- (app_nil_r (nodes a1)) at 2. rewrite lookup_gap; [done|].
    apply (gap_right key [] p k (nodes a0) (nodes a1) []); [done|by split|done].
  - rewrite IH0 by done. rewrite <- (lookup_gap key [] (nodes a0) ((p, k) :: nodes a1)); [done|].
    apply (gap_left key (nodes a0) [] p k (nodes a1) []); [done|by split|lia].
Qed.

(** After an insertion, the node is found and every other answer is as before. *)
Lemma lookup_insert_eq r key l : sorted l -> lookup_node key l = None -> lookup_node key (insert_node (r, key) l) = Some (r, key).
Proof.
  unfold lookup_node. induction l as [|x l IH]; cbn [insert_node List.find snd]; intros Hs Hl.
  - by rewrite cmp_refl.
  - destruct (Z.eqb_spec (cmp key x.2) 0) as [|Hx]; [done|]. apply StronglySorted_cons in Hs as [_ Hs].
    destruct (Z.ltb_spec 0 (cmp key x.2)); cbn [List.find snd].
    + destruct (Z.eqb_spec (cmp key x.2) 0); [done|]. by apply IH.
    + by rewrite cmp_refl.
Qed.

Lemma lookup_insert_ne r key key' l : cmp key' key <> 0 -> lookup_node key' (insert_node (r, key) l) = lookup_node key' l.
Proof.
  unfold lookup_node. intros Hne. induction l as [|x l IH]; cbn [insert_node List.find snd].
  - by destruct (Z.eqb_spec (cmp key' key) 0).
  - destruct (Z.ltb_spec 0 (cmp key x.2)); cbn [List.find snd]; [by rewrite IH|].
    by destruct (Z.eqb_spec (cmp key' key) 0).
Qed.

(** The visits of [walk] as [postorder] or [leaf] are the nodes in order. *)
Definition in_order (v : Z * VISIT * Z) : bool := match v.1.2 with postorder | leaf => true | _ => false end.

Lemma twalk_in_order t d : avl t -> (List.filter in_order (walk t d)).*1.*1 = (nodes t).*1.
Proof.
  revert d. induction t as [|p k h a0 IH0 a1 IH1]; intros d; [done|]. intros (H0 & H1 & Hd & Hh). cbn [walk nodes].
  destruct (avl_height a0 H0) as [P0 N0], (avl_height a1 H1) as [P1 N1].
  destruct (Z.eqb_spec h 1) as [E|E].
  - rewrite N0, N1 by lia. done.
  - cbn [List.filter in_order fst snd]. rewrite List.filter_app. cbn [List.filter in_order fst snd]. rewrite List.filter_app. cbn [List.filter in_order fst snd].
    rewrite app_nil_r, !fmap_app, !fmap_cons, IH0, IH1 by done. done.
Qed.

(** Every node is freed once, with its key. *)
Lemma tdestroy_frees t : (prod_swap <$> tdestroy t) ≡ₚ nodes t.
Proof.
  induction t as [|p k h a0 IH0 a1 IH1]; [done|]. cbn [tdestroy nodes].
  rewrite !fmap_app, IH0, IH1. cbn. by rewrite <- Permutation_cons_append.
Qed.
End Order.

#[export] Instance sub_comparison : Comparison Z.sub.
Proof. split; intros; lia. Qed.

Module Example.
Definition two : tree Z := Node 1 10 2 Null (Node 2 20 1 Null Null).
Definition four : tree Z := Node 2 20 3 (Node 1 10 1 Null Null) (Node 4 40 2 (Node 3 30 1 Null Null) Null).

Lemma wf_two : wf Z.sub two.
Proof. split; [cbn; lia|]. split; [|by cbn]. repeat constructor. Qed.
Lemma wf_four : wf Z.sub four.
Proof. split; [cbn; lia|]. split; [|by cbn]. repeat constructor. Qed.
End Example.

Lemma tsearch_inserts_witness :
  wf Z.sub Example.two /\
  exists t', tsearch Z.sub 30 (Some Example.two) (Some 3) = Some (3, Some t') /\ avl t' /\ nodes t' = [(1, 10); (2, 20); (3, 30)].
Proof.
  split; [exact Example.wf_two|].
  destruct (tsearch_inserts Z.sub 30 Example.two (Some 3) Example.wf_two) as (t' & E & Ha & _ & Hn). by exists t'.
Defined.

End Avl.
