(* ===== verification/Qsort.v ===== *)
(** Sorting and searching an array (musl src/stdlib/qsort.c, qsort_nr.c,
    bsearch.c): smoothsort on bytes in memory, with the heaps of Leonardo
    sizes it builds, and binary search. *)

From stdpp Require Import base tactics list gmap numbers option sorting.
From Stdlib Require Import ZArith Lia.
From S2P Require Import Prelude Mem.

#[local] Open Scope Z_scope.

Module Qsort.
Import Prelude Mem.
#[local] Open Scope lofi_scope.

(** What the C standard leaves undefined has no outcome. *)
Definition undefined {S A} : M S A := fun _ => NoFuel.

(** ** Blocks of bytes *)
Fixpoint bytes (n : nat) (m : gmap Z Z) (a : Z) : list Z :=
  match n with O => [] | S n' => ld8 m a :: bytes n' m (a + 1) end.
Fixpoint put (m : gmap Z Z) (a : Z) (bs : list Z) : gmap Z Z :=
  match bs with [] => m | b :: bs' => put (st8 m a b) (a + 1) bs' end.

(** ** cycle

    [ar[0]], ..., [ar[n-1]] are the objects to rotate; [tmp] is a buffer of
    256 bytes, which takes the place of [ar[n]]. *)
Fixpoint copy_loop (l : nat) (tmp ar : list Z) (m : gmap Z Z) : gmap Z Z :=
  match ar with
  | [] => m
  | [a] => put m a (take l tmp)
  | a :: (b :: _) as ar' => copy_loop l tmp ar' (put m a (bytes l m b))
  end.
Fixpoint cycle_loop (fuel : nat) (width : Z) (ar : list Z) : M (gmap Z Z) unit :=
  match fuel with
  | O => fun _ => NoFuel
  | S f =>
    if width =? 0 then ret tt
    else
      let l := if 256 <? width then 256 else width in
      modify (fun m => copy_loop (Z.to_nat l) (bytes (Z.to_nat l) m (hd 0 ar)) ar m) ;;;
      cycle_loop f (width - l) (map (fun a => a + l) ar)
  end.
(** The arrays of pointers have 14 * sizeof(size_t) + 1 places. *)
Definition AR_SIZE : nat := 113.
Definition cycle (width : Z) (ar : list Z) : M (gmap Z Z) unit :=
  if (length ar <? 2)%nat then ret tt
  else if (AR_SIZE <=? length ar)%nat then undefined
  else cycle_loop (S (Z.to_nat width)) width ar.
(** [ar[i++] = p] *)
Definition push (ar : list Z) (p : Z) : M (gmap Z Z) (list Z) :=
  if (length ar <? AR_SIZE)%nat then ret (ar ++ [p]) else undefined.

(** ** The bit vector [p] *)
Section Code.
(** [a_ctz_l], an instruction of the processor. *)
Context (ntz : Z -> Z).

Definition pntz (p : Z * Z) : Z :=
  let r := ntz (u64 (p.1 - 1)) in
  if negb (r =? 0) then r
  else
    let r := 64 + ntz p.2 in
    if negb (r =? 64) then r else 0.

Definition shl (p : Z * Z) (n : Z) : Z * Z :=
  let '(p0, p1, n) := if 64 <=? n then (0, p.1, n - 64) else (p.1, p.2, n) in
  let p1 := u64 (Z.shiftl p1 n) in
  let p1 := Z.lor p1 (Z.shiftr p0 (64 - n)) in
  (u64 (Z.shiftl p0 n), p1).

Definition shr (p : Z * Z) (n : Z) : Z * Z :=
  let '(p0, p1, n) := if 64 <=? n then (p.2, 0, n - 64) else (p.1, p.2, n) in
  let p0 := Z.shiftr p0 n in
  let p0 := Z.lor p0 (u64 (Z.shiftl p1 (64 - n))) in
  (p0, Z.shiftr p1 n).

(** ** sift and trinkle

    [cmp] compares two objects by their bytes. *)
Context (cmp : list Z -> list Z -> Z) (width : Z) (lp : list Z).

Definition compare (a b : Z) : M (gmap Z Z) Z :=
  gets (fun m => cmp (bytes (Z.to_nat width) m a) (bytes (Z.to_nat width) m b)).
(** [lp[i]] *)
Definition lp_at (i : Z) : M (gmap Z Z) Z :=
  if i <? 0 then undefined else match lp !! Z.to_nat i with Some x => ret x | None => undefined end.
Definition ar0 (ar : list Z) : Z := hd 0 ar.

Fixpoint sift_loop (fuel : nat) (head pshift : Z) (ar : list Z) : M (gmap Z Z) (list Z) :=
  match fuel with
  | O => fun _ => NoFuel
  | S f =>
    if 1 <? pshift then
      let rt := head - width in
      let* l := lp_at (pshift - 2) in
      let lf := head - width - l in
      let* c1 := compare (ar0 ar) lf in
      let* c2 := compare (ar0 ar) rt in
      if (0 <=? c1) && (0 <=? c2) then ret ar
      else
        let* c := compare lf rt in
        if 0 <=? c then
          let* ar := push ar lf in
          sift_loop f lf (pshift - 1) ar
        else
          let* ar := push ar rt in
          sift_loop f rt (pshift - 2) ar
    else ret ar
  end.
Definition sift (head pshift : Z) : M (gmap Z Z) unit :=
  let* ar := sift_loop (S (Z.to_nat pshift)) head pshift [head] in
  cycle width ar.

(** The result is [ar], [head], [pshift] and [trusty]. *)
Fixpoint trinkle_loop (fuel : nat) (head : Z) (p : Z * Z) (pshift : Z) (trusty : bool) (ar : list Z)
  : M (gmap Z Z) (list Z * Z * Z * bool) :=
  match fuel with
  | O => fun _ => NoFuel
  | S f =>
    if negb (p.1 =? 1) || negb (p.2 =? 0) then
      let* l := lp_at pshift in
      let stepson := head - l in
      let* c := compare stepson (ar0 ar) in
      if c <=? 0 then ret (ar, head, pshift, trusty)
      else
        let* stop :=
          (if negb trusty && (1 <? pshift) then
             let rt := head - width in
             let* l := lp_at (pshift - 2) in
             let lf := head - width - l in
             let* c1 := compare rt stepson in
             let* c2 := compare lf stepson in
             ret ((0 <=? c1) || (0 <=? c2))
           else ret false) in
        if stop : bool then ret (ar, head, pshift, trusty)
        else
          let* ar := push ar stepson in
          let trail := pntz p in
          trinkle_loop f stepson (shr p trail) (pshift + trail) false ar
    else ret (ar, head, pshift, trusty)
  end.
Definition trinkle (head : Z) (pp : Z * Z) (pshift : Z) (trusty : bool) : M (gmap Z Z) unit :=
  let* r := trinkle_loop 129 head pp pshift trusty [head] in
  let '(ar, head, pshift, trusty) := r in
  if trusty : bool then ret tt
  else cycle width ar ;;; sift head pshift.

(** ** The two loops of [__qsort_r] *)
Fixpoint build_loop (fuel : nat) (head high : Z) (p : Z * Z) (pshift : Z) : M (gmap Z Z) (Z * (Z * Z) * Z) :=
  match fuel with
  | O => fun _ => NoFuel
  | S f =>
    if head <? high then
      if Z.land p.1 3 =? 3 then
        sift head pshift ;;;
        let p := shr p 2 in
        build_loop f (head + width) high (Z.lor p.1 1, p.2) (pshift + 2)
      else
        let* l := lp_at (pshift - 1) in
        (if high - head <=? l then trinkle head p pshift false else sift head pshift) ;;;
        let '(p, pshift) := if pshift =? 1 then (shl p 1, 0) else (shl p (pshift - 1), 1) in
        build_loop f (head + width) high (Z.lor p.1 1, p.2) pshift
    else ret (head, p, pshift)
  end.

Fixpoint pop_loop (fuel : nat) (head : Z) (p : Z * Z) (pshift : Z) : M (gmap Z Z) unit :=
  match fuel with
  | O => fun _ => NoFuel
  | S f =>
    if negb (pshift =? 1) || negb (p.1 =? 1) || negb (p.2 =? 0) then
      if pshift <=? 1 then
        let trail := pntz p in
        pop_loop f (head - width) (shr p trail) (pshift + trail)
      else
        let p := shl p 2 in
        let pshift := pshift - 2 in
        let p := shr (Z.lxor p.1 7, p.2) 1 in
        let* l := lp_at pshift in
        trinkle (head - l - width) p (pshift + 1) true ;;;
        let p := shl p 1 in
        let p := (Z.lor p.1 1, p.2) in
        trinkle (head - width) p pshift true ;;;
        pop_loop f (head - width) p pshift
    else ret tt
  end.

End Code.

(** [for(lp[0]=lp[1]=width, i=2; (lp[i]=lp[i-2]+lp[i-1]+width) < size; i++);]
    with places up to 12 * sizeof(size_t). *)
Fixpoint lp_loop (fuel : nat) (width size : Z) (lp : list Z) (x y : Z) : M (gmap Z Z) (list Z) :=
  match fuel with
  | O => undefined
  | S f =>
    let z := u64 (u64 (x + y) + width) in
    if z <? size then lp_loop f width size (lp ++ [z]) y z else ret (lp ++ [z])
  end.

Definition __qsort_r (ntz : Z -> Z) (base nel width : Z) (cmp : list Z -> list Z -> Z) : M (gmap Z Z) unit :=
  let size := u64 (width * nel) in
  if size =? 0 then ret tt
  else
    let high := base + size - width in
    let* lp := lp_loop 94 width size [width; width] width width in
    let* r := build_loop ntz cmp width lp (S (Z.to_nat nel)) base high (1, 0) 1 in
    let '(head, p, pshift) := r in
    trinkle ntz cmp width lp head p pshift false ;;;
    pop_loop ntz cmp width lp (S (Z.to_nat nel)) head p pshift.

(** The wrapper of qsort_nr.c hands the comparison function on. *)
Definition qsort (ntz : Z -> Z) (base nel width : Z) (cmp : list Z -> list Z -> Z) : M (gmap Z Z) unit :=
  __qsort_r ntz base nel width cmp.

(** ** bsearch

    [cmp] is the comparison of the key with an object. *)
Fixpoint bsearch_loop (fuel : nat) (cmp : list Z -> Z) (base nel width : Z) : M (gmap Z Z) (option Z) :=
  match fuel with
  | O => fun _ => NoFuel
  | S f =>
    if 0 <? nel then
      let try := base + width * (nel / 2) in
      let* sign := gets (fun m => cmp (bytes (Z.to_nat width) m try)) in
      if sign <? 0 then bsearch_loop f cmp base (nel / 2) width
      else if 0 <? sign then bsearch_loop f cmp (try + width) (nel - (nel / 2 + 1)) width
      else ret (Some try)
    else ret None
  end.
Definition bsearch (cmp : list Z -> Z) (base nel width : Z) : M (gmap Z Z) (option Z) :=
  bsearch_loop (S (Z.to_nat nel)) cmp base nel width.

(** ** Rotation

    [place f ks x]: every index of [ks] gets the value of the next one, the
    last one gets [x]. *)
Section Place.
Context {A : Type}.
Fixpoint place (f : Z -> A) (ks : list Z) (x : A) (k : Z) : A :=
  match ks with
  | [] => f k
  | p :: ks' => if k =? p then match ks' with [] => x | q :: _ => f q end else place f ks' x k
  end.

Lemma place_out f ks x k : k ∉ ks -> place f ks x k = f k.
Proof.
  induction ks as [|p ks IH]; intros Hk; [done|]. cbn [place]. apply not_elem_of_cons in Hk as [Hne Hk].
  destruct (Z.eqb_spec k p); [done|]. by apply IH.
Qed.
Lemma place_hd f p ks x : place f (p :: ks) x p = match ks with [] => x | q :: _ => f q end.
Proof. cbn [place]. by rewrite Z.eqb_refl. Qed.
Lemma place_tl f p ks x k : k <> p -> place f (p :: ks) x k = place f ks x k.
Proof. intros Hk. cbn [place]. by destruct (Z.eqb_spec k p). Qed.

Lemma place_ext f g ks x k : (forall i, i ∈ ks \/ i = k -> f i = g i) -> place f ks x k = place g ks x k.
Proof.
  induction ks as [|p ks IH]; intros He; cbn [place]; [apply He; by right|]. destruct (k =? p).
  - destruct ks as [|q ks]; [done|]. apply He. left. right. left.
  - apply IH. intros i [Hi| ->]; apply He; [left; by right|by right].
Qed.

(** Where the values come from. *)
Lemma place_from f ks x k : k ∈ ks -> place f ks x k = x \/ exists j, j ∈ ks /\ place f ks x k = f j.
Proof.
  induction ks as [|p ks IH]; intros Hk; [by apply not_elem_of_nil in Hk|]. cbn [place]. destruct (Z.eqb_spec k p).
  - destruct ks as [|q ks]; [by left|]. right. exists q. split; [right; left|done].
  - destruct IH as [E|(j & Hj & E)]; [by apply elem_of_cons in Hk as [?|?]|by left|]. right. exists j. split; [by right|done].
Qed.

(** One changed value. *)
Lemma update_perm (f g : Z -> A) p l :
  NoDup l -> p ∈ l -> (forall k, k ∈ l -> k <> p -> f k = g k) -> map f l ++ [g p] ≡ₚ f p :: map g l.
Proof.
  induction l as [|q l IH]; intros Hn Hp He; [by apply not_elem_of_nil in Hp|]. apply NoDup_cons in Hn as [Hq Hn].
  cbn [map]. destruct (decide (q = p)) as [->|Hne].
  - assert (map f l = map g l) as ->.
    { apply map_ext_in. intros k Hk%list_elem_of_In. apply He; [by right|]. by intros ->. }
    rewrite <- app_comm_cons. apply perm_skip. symmetry. apply Permutation_cons_append.
  - rewrite (He q) by (left || done). rewrite <- app_comm_cons. rewrite IH; [apply perm_swap|done| |].
    + by apply elem_of_cons in Hp as [->|?].
    + intros k Hk. apply He. by right.
Qed.

Lemma place_perm (f : Z -> A) ks x p l :
  NoDup l -> NoDup (p :: ks) -> (forall k, k ∈ p :: ks -> k ∈ l) ->
  map (place f (p :: ks) x) l ++ [f p] ≡ₚ x :: map f l.
Proof.
  intros Hl. revert p. induction ks as [|q ks IH]; intros p Hn Hin.
  - rewrite <- (place_hd f p [] x) at 2. apply update_perm; [done|apply Hin; left|]. intros k _ Hk. by rewrite place_tl.
  - apply NoDup_cons in Hn as [Hp Hn].
    assert (H1 := update_perm (place f (p :: q :: ks) x) (place f (q :: ks) x) p l Hl (Hin p ltac:(left))).
    rewrite (place_out f (q :: ks) x p Hp), place_hd in H1.
    rewrite H1 by (intros k _ Hk; by apply place_tl). rewrite Permutation_cons_append. apply IH; [done|].
    intros k Hk. apply Hin. by right.
Qed.

(** Rotating permutes. *)
Lemma rotate_perm (f : Z -> A) ks p l :
  NoDup l -> NoDup (p :: ks) -> (forall k, k ∈ p :: ks -> k ∈ l) -> map (place f (p :: ks) (f p)) l ≡ₚ map f l.
Proof. intros Hl Hn Hin. assert (H := place_perm f ks (f p) p l Hl Hn Hin). rewrite <- Permutation_cons_append in H. by apply Permutation_cons_inv in H. Qed.
End Place.

Lemma place_map {A} (g : Z -> Z) (f : Z -> A) ks x k :
  (forall i j, g i = g j -> i = j) -> place f (map g ks) x (g k) = place (fun i => f (g i)) ks x k.
Proof.
  intros Hg. induction ks as [|p ks IH]; [done|]. cbn [place map].
  destruct (Z.eqb_spec (g k) (g p)) as [E|E], (Z.eqb_spec k p) as [E'|E']; [by destruct ks|by apply Hg in E|by rewrite E' in E|done].
Qed.
Lemma place_fun {A B} (h : A -> B) (f : Z -> A) ks x k : h (place f ks x k) = place (fun i => h (f i)) ks (h x) k.
Proof. induction ks as [|p ks IH]; [done|]. cbn [place]. destruct (k =? p); [by destruct ks|done]. Qed.

(** ** Leonardo numbers *)
Fixpoint leonardo (k : nat) : Z * Z :=
  match k with O => (1, 1) | S k' => let '(x, y) := leonardo k' in (y, x + y + 1) end.
Definition L (k : nat) : Z := (leonardo k).1.
Lemma L_SS k : L (S (S k)) = L k + L (S k) + 1.
Proof. unfold L. cbn [leonardo]. by destruct (leonardo k). Qed.
#[local] Arguments L : simpl never.

Lemma L_pos k : 1 <= L k /\ 1 <= L (S k).
Proof. induction k as [|k [IH1 IH2]]; [by vm_compute|]. split; [done|]. rewrite L_SS. lia. Qed.
Lemma L_ge1 k : 1 <= L k.
Proof. apply L_pos. Qed.
Lemma L_S k : L k <= L (S k).
Proof. destruct k as [|k]; [by vm_compute|]. rewrite (L_SS k). pose proof (L_ge1 k). lia. Qed.
Lemma L_mono j k : (j <= k)%nat -> L j <= L k.
Proof. induction 1 as [|k _ IH]; [lia|]. pose proof (L_S k). lia. Qed.

(** ** Heaps and forests

    The heap of order [k] with its root at [r] holds the indices from
    [r - L k + 1] to [r]. *)
Section Abstract.
Context {E : Type} (cmp : E -> E -> Z).
Definition le (x y : E) : Prop := cmp x y <= 0.
(** What the C standard asks of the comparison function. *)
Record consistent : Prop := {
  cmp_opp x y : 0 <= cmp x y <-> cmp y x <= 0;
  cmp_trans x y z : cmp x y <= 0 -> cmp y z <= 0 -> cmp x z <= 0
}.
Context (Hc : consistent).

Lemma le_trans x y z : le x y -> le y z -> le x z.
Proof. apply Hc. Qed.
Lemma ge_le x y : 0 <= cmp x y -> le y x.
Proof. apply Hc. Qed.
Lemma le_total x y : le x y \/ le y x.
Proof. unfold le. destruct (Z.le_ge_cases (cmp x y) 0); [by left|right]. by apply Hc. Qed.
Lemma le_refl x : le x x.
Proof. by destruct (le_total x x). Qed.
Lemma lt_le x y : ~ 0 <= cmp x y -> le x y.
Proof. unfold le. lia. Qed.
Lemma gt_le x y : ~ cmp x y <= 0 -> le y x.
Proof. intros H. apply ge_le. lia. Qed.

Fixpoint heap (a : Z -> E) (r : Z) (k : nat) : Prop :=
  match k with
  | S (S k' as k1) =>
    le (a (r - 1)) (a r) /\ le (a (r - 1 - L k')) (a r) /\ heap a (r - 1) k' /\ heap a (r - 1 - L k') k1
  | _ => True
  end.
Lemma heap_SS a r k : heap a r (S (S k)) =
  (le (a (r - 1)) (a r) /\ le (a (r - 1 - L k)) (a r) /\ heap a (r - 1) k /\ heap a (r - 1 - L k) (S k)).
Proof. done. Qed.
(** All but the root. *)
Definition kids (a : Z -> E) (r : Z) (k : nat) : Prop :=
  match k with S (S k' as k1) => heap a (r - 1) k' /\ heap a (r - 1 - L k') k1 | _ => True end.
(** The children are at most [y]. *)
Definition kids_le (a : Z -> E) (r : Z) (k : nat) (y : E) : Prop :=
  match k with S (S k') => le (a (r - 1)) y /\ le (a (r - 1 - L k')) y | _ => True end.

Lemma heap_kids a r k : heap a r k <-> kids a r k /\ kids_le a r k (a r).
Proof. destruct k as [|[|k]]; [done..|]. rewrite heap_SS. unfold kids, kids_le. tauto. Qed.

Lemma order_ind (P : nat -> Prop) : P 0%nat -> P 1%nat -> (forall k, P k -> P (S k) -> P (S (S k))) -> forall k, P k.
Proof. intros H0 H1 Hs k. assert (P k /\ P (S k)) as [? _]; [|done]. induction k as [|k [IH1 IH2]]; auto. Qed.

Lemma heap_ext a b r k : (forall i, r - L k < i <= r -> a i = b i) -> heap a r k -> heap b r k.
Proof.
  revert r. induction k as [| |k IH IH1] using order_ind; intros r He; [done..|].
  rewrite L_SS in He. pose proof (L_ge1 k). pose proof (L_ge1 (S k)). rewrite !heap_SS.
  rewrite !He by lia. intros (? & ? & H1 & H2). split; [done|]. split; [done|].
  split; [apply IH; [intros; apply He; lia|done]|]. apply (IH1 (r - 1 - L k)); [intros; apply He; lia|done].
Qed.
Lemma kids_ext a b r k : (forall i, r - L k < i < r -> a i = b i) -> kids a r k -> kids b r k.
Proof.
  destruct k as [|[|k]]; [done..|]. rewrite L_SS. intros He [H1 H2]. pose proof (L_ge1 k). pose proof (L_ge1 (S k)).
  split; [apply (heap_ext a); [|exact H1]|apply (heap_ext a); [|exact H2]]; intros; apply He; lia.
Qed.
Lemma kids_le_ext a b r k y : (forall i, r - L k < i < r -> a i = b i) -> kids_le a r k y -> kids_le b r k y.
Proof.
  destruct k as [|[|k]]; [done..|]. rewrite L_SS. intros He. pose proof (L_ge1 k). pose proof (L_ge1 (S k)). cbn [kids_le].
  by rewrite !He by lia.
Qed.
Lemma kids_le_trans a r k y z : kids_le a r k y -> le y z -> kids_le a r k z.
Proof. destruct k as [|[|k]]; [done..|]. intros [? ?] ?. split; eapply le_trans; done. Qed.

Lemma heap_max a r k : heap a r k -> forall i, r - L k < i <= r -> le (a i) (a r).
Proof.
  revert r. induction k as [| |k IH IH1] using order_ind; intros r Hh i Hi.
  - change (L 0) with 1 in Hi. replace i with r by lia. apply le_refl.
  - change (L 1) with 1 in Hi. replace i with r by lia. apply le_refl.
  - rewrite L_SS in Hi. rewrite heap_SS in Hh. destruct Hh as (H1 & H2 & H3 & H4).
    destruct (Z.eq_dec i r) as [->|]; [apply le_refl|]. destruct (Z_lt_ge_dec (r - 1 - L k) i).
    + eapply le_trans; [apply (IH _ H3); lia|done].
    + eapply le_trans; [apply (IH1 _ H4); lia|done].
Qed.

(** The path of [sift] from the root [r], without the root; [x] sinks. *)
Fixpoint spath (a : Z -> E) (x : E) (r : Z) (k : nat) : list Z :=
  match k with
  | S (S k' as k1) =>
    let rt := r - 1 in
    let lf := r - 1 - L k' in
    if (0 <=? cmp x (a lf)) && (0 <=? cmp x (a rt)) then []
    else if 0 <=? cmp (a lf) (a rt) then lf :: spath a x lf k1 else rt :: spath a x rt k'
  | _ => []
  end.
Lemma spath_SS a x r k : spath a x r (S (S k)) =
  if (0 <=? cmp x (a (r - 1 - L k))) && (0 <=? cmp x (a (r - 1))) then []
  else if 0 <=? cmp (a (r - 1 - L k)) (a (r - 1)) then (r - 1 - L k) :: spath a x (r - 1 - L k) (S k) else (r - 1) :: spath a x (r - 1) k.
Proof. done. Qed.

Lemma spath_range a x r k q : q ∈ spath a x r k -> r - L k < q < r.
Proof.
  revert r. induction k as [| |k IH IH1] using order_ind; intros r; [by intros ?%not_elem_of_nil..|].
  rewrite spath_SS, L_SS. pose proof (L_ge1 k). pose proof (L_ge1 (S k)). destruct (_ && _); [by intros ?%not_elem_of_nil|].
  destruct (0 <=? _); intros [->|Hq]%elem_of_cons; try lia; [specialize (IH1 _ Hq)|specialize (IH _ Hq)]; lia.
Qed.
Lemma spath_length a x r k : (length (spath a x r k) <= k)%nat.
Proof.
  revert r. induction k as [| |k IH IH1] using order_ind; intros r; [cbn; lia..|].
  rewrite spath_SS. destruct (_ && _); [cbn; lia|]. destruct (0 <=? _); cbn [length]; [specialize (IH1 (r - 1 - L k))|specialize (IH (r - 1))]; lia.
Qed.
Lemma spath_NoDup a x r k : NoDup (r :: spath a x r k).
Proof.
  revert r. induction k as [| |k IH IH1] using order_ind; intros r; [apply NoDup_singleton..|].
  apply NoDup_cons. split; [intros ?%spath_range; lia|]. rewrite spath_SS. destruct (_ && _); [apply NoDup_nil_2|].
  destruct (0 <=? _); [apply IH1|apply IH].
Qed.
Lemma spath_ext a b x r k : (forall i, r - L k < i < r -> a i = b i) -> spath a x r k = spath b x r k.
Proof.
  revert r. induction k as [| |k IH IH1] using order_ind; intros r; [done..|].
  rewrite L_SS. intros He. pose proof (L_ge1 k). pose proof (L_ge1 (S k)). rewrite !spath_SS. rewrite !He by lia.
  destruct (_ && _); [done|]. destruct (0 <=? _); f_equal; [apply IH1|apply IH]; intros; apply He; lia.
Qed.

(** After [sift] the heap is one: [x] sank below the larger children. *)
Definition sifted (a : Z -> E) (x : E) (r : Z) (k : nat) : Z -> E := place a (r :: spath a x r k) x.

Lemma sifted_out a x r k i : i <= r - L k \/ r < i -> sifted a x r k i = a i.
Proof.
  intros Hi. pose proof (L_ge1 k). apply place_out. intros [->|Hq%spath_range]%elem_of_cons; lia.
Qed.
Lemma sifted_from a x r k i : r - L k < i <= r -> sifted a x r k i = x \/ exists j, r - L k < j < r /\ sifted a x r k i = a j.
Proof.
  intros Hi. unfold sifted. cbn [place]. destruct (Z.eqb_spec i r) as [->|Hne].
  - destruct (spath a x r k) as [|q ps] eqn:Ep; [by left|right]. exists q. split; [|done].
    apply (spath_range a x r k). rewrite Ep. left.
  - destruct (decide (i ∈ spath a x r k)) as [Hin|Hout]; [|right; exists i; split; [lia|by apply place_out]].
    destruct (place_from a _ x i Hin) as [->|(j & Hj & ->)]; [by left|right]. exists j. split; [by apply spath_range in Hj|done].
Qed.

(** [x] is not above both children: it is not above the larger one. *)
Lemma below_larger x y z : ~ (0 <= cmp x y /\ 0 <= cmp x z) -> le z y -> le x y.
Proof.
  intros Hn Hzy. destruct (le_total x y) as [|Hyx]; [done|]. destruct Hn. split; apply Hc; [done|by eapply le_trans].
Qed.
(** What sinks into a heap whose root bounds it leaves the bound. *)
Lemma sifted_root_le a x c k : heap a c k -> le x (a c) -> le (sifted a x c k c) (a c).
Proof.
  intros Hh Hx. pose proof (L_ge1 k). destruct (sifted_from a x c k c) as [->|(j & Hj & ->)]; [lia|done|]. apply (heap_max a c k Hh). lia.
Qed.

Lemma sift_heap a x r k : kids a r k -> heap (sifted a x r k) r k /\ le x (sifted a x r k r) /\ kids_le a r k (sifted a x r k r).
Proof.
  revert r. induction k as [| |k IH IH1] using order_ind; intros r Hk.
  1, 2: unfold sifted; rewrite place_hd; split; [done|split; [apply le_refl|done]].
  destruct Hk as [Hr Hl]. pose proof (L_ge1 k). pose proof (L_ge1 (S k)).
  unfold sifted. rewrite spath_SS. set (lf := r - 1 - L k). set (rt := r - 1).
  destruct ((0 <=? cmp x (a lf)) && (0 <=? cmp x (a rt))) eqn:E0.
  { apply andb_true_iff in E0 as [E1%Z.leb_le%ge_le E2%Z.leb_le%ge_le]. rewrite place_hd.
    split; [|split; [apply le_refl|done]]. apply heap_kids. rewrite place_hd.
    assert (He : forall i, r - L (S (S k)) < i < r -> a i = place a [r] x i) by (intros i Hi; by rewrite place_tl by lia).
    split; [by apply (kids_ext a)|by apply (kids_le_ext a)]. }
  assert (Hn : ~ (0 <= cmp x (a lf) /\ 0 <= cmp x (a rt))) by (apply andb_false_iff in E0; rewrite !Z.leb_gt in E0; lia).
  assert (Hdown : forall c kc, r - L (S (S k)) <= c - L kc -> c < r -> heap a c kc -> heap (sifted a x c kc) c kc -> le x (a c) ->
    let b := place a (r :: c :: spath a x c kc) x in
    b r = a c /\ heap b c kc /\ le (b c) (a c) /\ forall i, i <= c - L kc \/ c < i < r -> b i = a i).
  { intros c kc Hc1 Hc2 Hh Hs Hx b. assert (Hb : forall i, i <> r -> b i = sifted a x c kc i) by (intros i Hi; unfold b; by rewrite place_tl).
    split; [apply place_hd|]. split; [apply (heap_ext (sifted a x c kc)); [intros i Hi; symmetry; apply Hb; lia|done]|].
    rewrite Hb by lia. split; [by apply sifted_root_le|]. intros i Hi. pose proof (L_ge1 kc). rewrite Hb by lia. apply sifted_out. lia. }
  rewrite L_SS in Hdown. destruct (0 <=? cmp (a lf) (a rt)) eqn:E3.
  - apply Z.leb_le, ge_le in E3. assert (Hx := below_larger _ _ _ Hn E3).
    destruct (IH1 lf (proj1 (proj1 (heap_kids _ _ _) Hl))) as (I1 & _).
    destruct (Hdown lf (S k)) as (-> & D2 & D3 & D4); [unfold lf; lia|unfold lf; lia|done|done|done|].
    split; [|split; [done|split; [done|apply le_refl]]]. rewrite heap_SS. fold lf. fold rt. rewrite place_hd. rewrite (D4 rt) by (unfold rt, lf; lia).
    split; [done|]. split; [done|]. split; [|done]. apply (heap_ext a); [|done]. intros i Hi. symmetry. apply D4. unfold rt, lf in *. lia.
  - apply Z.leb_gt in E3. assert (Hx : le x (a rt)) by (apply (below_larger _ _ (a lf)); [tauto|apply lt_le; lia]).
    destruct (IH rt (proj1 (proj1 (heap_kids _ _ _) Hr))) as (I1 & _).
    destruct (Hdown rt k) as (-> & D2 & D3 & D4); [unfold rt; lia|unfold rt; lia|done|done|done|].
    assert (Ho : le (a lf) (a rt)) by (apply lt_le; lia).
    split; [|split; [done|split; [apply le_refl|done]]]. rewrite heap_SS. fold lf. fold rt. rewrite place_hd. rewrite (D4 lf) by (unfold rt, lf; lia).
    split; [done|]. split; [done|]. split; [done|]. apply (heap_ext a); [|done]. intros i Hi. symmetry. apply D4. unfold rt, lf in *. lia.
Qed.

(** A forest: heaps from right to left, the roots in order. *)
Fixpoint forest (a : Z -> E) (r : Z) (ks : list nat) : Prop :=
  match ks with
  | [] => r = -1
  | k :: ks' => heap a r k /\ match ks' with [] => True | _ => le (a (r - L k)) (a r) end /\ forest a (r - L k) ks'
  end.

Lemma forest_ge a r ks : forest a r ks -> -1 <= r /\ (ks <> [] -> 0 <= r).
Proof.
  revert r. induction ks as [|k ks IH]; intros r; cbn [forest]; [intros ->; by split|].
  intros (_ & _ & Hf). apply IH in Hf as [? _]. pose proof (L_ge1 k). split; [lia|intros _; lia].
Qed.
Lemma forest_ext a b r ks : (forall i, 0 <= i <= r -> a i = b i) -> forest a r ks -> forest b r ks.
Proof.
  revert r. induction ks as [|k ks IH]; intros r He; [done|]. cbn [forest]. intros (H1 & H2 & H3).
  pose proof (L_ge1 k). destruct (forest_ge _ _ _ H3) as [Hge Hge'].
  split; [apply (heap_ext a); [intros; apply He; lia|done]|]. split; [|apply IH; [intros; apply He; lia|done]].
  destruct ks; [done|]. specialize (Hge' ltac:(done)). by rewrite <- !He by lia.
Qed.
Lemma forest_max a r ks i : forest a r ks -> 0 <= i <= r -> le (a i) (a r).
Proof.
  revert r. induction ks as [|k ks IH]; intros r; cbn [forest]; [lia|]. intros (H1 & H2 & H3) Hi.
  destruct (Z_lt_ge_dec (r - L k) i); [apply (heap_max a r k H1); lia|].
  destruct ks as [|k' ks]; [cbn in H3; lia|]. eapply le_trans; [apply IH; [done|lia]|done].
Qed.

(** The way of [trinkle]: the roots passed, where it ends, and [trusty]. *)
Definition tstop (a : Z -> E) (x : E) (r : Z) (k : nat) (trusty : bool) : bool :=
  let s := r - L k in
  (cmp (a s) x <=? 0) ||
  match k with
  | S (S k') => negb trusty && ((0 <=? cmp (a (r - 1)) (a s)) || (0 <=? cmp (a (r - 1 - L k')) (a s)))
  | _ => false
  end.
Fixpoint tpath (a : Z -> E) (x : E) (r : Z) (k : nat) (ks : list nat) (trusty : bool) : list Z * Z * nat * bool :=
  match ks with
  | [] => ([], r, k, trusty)
  | k' :: ks' =>
    if tstop a x r k trusty then ([], r, k, trusty)
    else let '(ps, rf, kf, t) := tpath a x (r - L k) k' ks' false in (r - L k :: ps, rf, kf, t)
  end.
Definition trinkled (a : Z -> E) (x : E) (r : Z) (k : nat) (ks : list nat) (trusty : bool) : Z -> E :=
  let '(ps, rf, kf, t) := tpath a x r k ks trusty in
  let b := place a (r :: ps) x in
  if t : bool then b else sifted b x rf kf.

Lemma tpath_range a x r k ks t ps rf kf t' :
  tpath a x r k ks t = (ps, rf, kf, t') -> (forall q, q ∈ ps -> rf <= q < r) /\ rf <= r /\ NoDup (r :: ps).
Proof.
  revert r k t ps. induction ks as [|k' ks IH]; intros r k t ps; cbn [tpath].
  { intros [= <- <- <- <-]. split; [by intros q ?%not_elem_of_nil|]. split; [lia|apply NoDup_singleton]. }
  destruct (tstop a x r k t).
  { intros [= <- <- <- <-]. split; [by intros q ?%not_elem_of_nil|]. split; [lia|apply NoDup_singleton]. }
  destruct (tpath a x (r - L k) k' ks false) as [[[ps' rf'] kf'] t''] eqn:Et. intros [= <- <- <- <-].
  destruct (IH _ _ _ _ Et) as (H1 & H2 & H3). pose proof (L_ge1 k).
  split; [intros q [->|Hq]%elem_of_cons; [lia|specialize (H1 q Hq); lia]|]. split; [lia|].
  apply NoDup_cons. split; [|done]. intros [?|Hq%H1]%elem_of_cons; lia.
Qed.
Lemma tpath_false a x r k ks : (tpath a x r k ks false).2 = false.
Proof.
  revert r k. induction ks as [|k' ks IH]; intros r k; cbn [tpath]; [done|]. destruct (tstop a x r k false); [done|].
  specialize (IH (r - L k) k'). destruct (tpath a x (r - L k) k' ks false) as [[[? ?] ?] ?]. done.
Qed.

Lemma sifted_ext a b x r k i : (forall j, r - L k < j < r -> a j = b j) -> (i < r -> a i = b i) -> (r < i -> a i = b i) -> sifted a x r k i = sifted b x r k i.
Proof.
  intros He H1 H2. unfold sifted. rewrite (spath_ext a b) by done. cbn [place]. destruct (Z.eqb_spec i r).
  - destruct (spath b x r k) as [|q ps] eqn:Ep; [done|]. apply He. apply (spath_range b x r k). rewrite Ep. left.
  - apply place_ext. intros j [Hj%spath_range| ->]; [by apply He|]. destruct (Z_lt_ge_dec i r); [auto|]. apply H2. lia.
Qed.

Lemma trinkled_stop a x r k ks t i :
  match ks with [] => True | _ => tstop a x r k t = true end ->
  trinkled a x r k ks t i = (if t then place a [r] x else sifted a x r k) i.
Proof.
  intros Hs. unfold trinkled. assert (tpath a x r k ks t = ([], r, k, t)) as ->.
  { destruct ks; [done|]. cbn [tpath]. by rewrite Hs. }
  destruct t; [done|]. apply sifted_ext; intros; rewrite place_tl by lia; done.
Qed.
Lemma trinkled_step a x r k k' ks t i :
  tstop a x r k t = false ->
  trinkled a x r k (k' :: ks) t i = if i =? r then a (r - L k) else trinkled a x (r - L k) k' ks false i.
Proof.
  intros Hs. unfold trinkled. cbn [tpath]. rewrite Hs. pose proof (tpath_false a x (r - L k) k' ks) as Hf. pose proof (L_ge1 k).
  destruct (tpath a x (r - L k) k' ks false) as [[[ps rf] kf] t'] eqn:Et. cbn in Hf. subst t'.
  destruct (tpath_range _ _ _ _ _ _ _ _ _ _ Et) as (H1 & H2 & _). destruct (Z.eqb_spec i r) as [->|Hne].
  - rewrite sifted_out by lia. apply place_hd.
  - apply sifted_ext; intros; rewrite place_tl by lia; done.
Qed.

(** The heap [trinkle] stops at. *)
Lemma stop_forest a x r k ks (t : bool) R :
  kids a r k -> (t = true -> kids_le a r k x) -> forest a (r - L k) ks ->
  match ks with [] => True | _ => tstop a x r k t = true end ->
  (forall i, R i = (if t then place a [r] x else sifted a x r k) i) ->
  forest R r (k :: ks) /\ (forall i, i <= r - L k \/ r < i -> R i = a i) /\
  (forall i, r - L k < i <= r -> R i = x \/ exists j, r - L k < j < r /\ R i = a j).
Proof.
  intros Hk Ht Hf Hs HR. pose proof (L_ge1 k).
  assert (Hout : forall i, i <= r - L k \/ r < i -> R i = a i).
  { intros i Hi. rewrite HR. destruct t; [by rewrite place_tl by lia|by apply sifted_out]. }
  assert (Hheap : heap R r k /\ le x (R r) /\ (t = false -> kids_le a r k (R r))).
  { destruct t.
    - assert (He : forall i, r - L k < i < r -> a i = R i) by (intros i Hi; rewrite HR; by rewrite place_tl by lia).
      assert (R r = x) as Hr by (rewrite HR; apply place_hd). rewrite heap_kids, Hr. split; [|split; [apply le_refl|done]].
      split; [by apply (kids_ext a)|apply (kids_le_ext a); auto].
    - destruct (sift_heap a x r k Hk) as (H1 & H2 & H3). rewrite HR. split; [|done]. by apply (heap_ext (sifted a x r k)). }
  destruct Hheap as (H1 & H2 & H3). split; [|split; [exact Hout|]].
  - cbn [forest]. split; [done|]. split; [|apply (forest_ext a); [intros i Hi; symmetry; apply Hout; lia|done]].
    destruct ks as [|k' ks]; [done|]. rewrite Hout by lia. unfold tstop in Hs. apply orb_true_iff in Hs as [Hs%Z.leb_le|Hs].
    { by eapply le_trans. }
    destruct k as [|[|k]]; [done..|]. apply andb_true_iff in Hs as [Hs1%negb_true_iff Hs2]. destruct (H3 Hs1) as [H4 H5].
    apply orb_true_iff in Hs2 as [Hs2%Z.leb_le%ge_le|Hs2%Z.leb_le%ge_le]; by eapply le_trans.
  - intros i Hi. rewrite HR. destruct t; [|by apply sifted_from]. destruct (Z.eq_dec i r) as [->|]; [left; apply place_hd|].
    right. exists i. split; [lia|]. by rewrite place_tl.
Qed.

(** When it goes on, the heap it leaves takes the root of the next one. *)
Lemma step_bound a x r k t :
  tstop a x r k t = false -> (t = true -> kids_le a r k x) -> le x (a (r - L k)) /\ kids_le a r k (a (r - L k)).
Proof.
  unfold tstop. intros [H1%Z.leb_gt H2]%orb_false_iff Ht. assert (Hx : le x (a (r - L k))) by (apply gt_le; lia). split; [done|].
  destruct t; [eapply kids_le_trans; eauto|]. destruct k as [|[|k]]; [done..|]. cbn [negb andb] in H2.
  apply orb_false_iff in H2 as [H2%Z.leb_gt H3%Z.leb_gt]. split; apply lt_le; lia.
Qed.

Lemma trinkle_forest a x r k ks t :
  kids a r k -> (t = true -> kids_le a r k x) -> forest a (r - L k) ks ->
  forest (trinkled a x r k ks t) r (k :: ks) /\ (forall i, r < i -> trinkled a x r k ks t i = a i) /\
  (forall i, 0 <= i <= r -> trinkled a x r k ks t i = x \/ exists j, 0 <= j < r /\ trinkled a x r k ks t i = a j).
Proof.
  revert r k t. induction ks as [|k' ks IH]; intros r k t Hk Ht Hf; pose proof (L_ge1 k); destruct (forest_ge _ _ _ Hf) as [Hge Hge'].
  - destruct (stop_forest a x r k [] t (trinkled a x r k [] t) Hk Ht Hf I) as (H1 & H2 & H3); [intros i; by apply trinkled_stop|].
    split; [done|]. split; [intros i Hi; apply H2; lia|]. intros i Hi. cbn in Hf.
    destruct (H3 i) as [?|(j & ? & ?)]; [lia|by left|right; exists j; split; [lia|done]].
  - specialize (Hge' ltac:(done)). destruct (tstop a x r k t) eqn:Es.
    + destruct (stop_forest a x r k (k' :: ks) t (trinkled a x r k (k' :: ks) t) Hk Ht Hf Es) as (H1 & H2 & H3); [intros i; by apply trinkled_stop|].
      split; [done|]. split; [intros i Hi; apply H2; lia|]. intros i Hi. destruct (Z_lt_ge_dec (r - L k) i).
      * destruct (H3 i) as [?|(j & ? & ?)]; [lia|by left|right; exists j; split; [lia|done]].
      * right. exists i. split; [lia|]. apply H2. lia.
    + destruct (step_bound _ _ _ _ _ Es Ht) as [Hx Hkl]. pose proof Hf as (Hh & Hr & Hf').
      destruct (IH (r - L k) k' false) as (I1 & I2 & I3); [by apply heap_kids in Hh as [? _]|done|done|].
      set (R' := trinkled a x (r - L k) k' ks false) in *.
      assert (HR : forall i, trinkled a x r k (k' :: ks) t i = if i =? r then a (r - L k) else R' i) by (intros i; by apply trinkled_step).
      set (R := trinkled a x r k (k' :: ks) t) in *.
      assert (HRr : R r = a (r - L k)) by (rewrite HR; by rewrite Z.eqb_refl).
      assert (HRn : forall i, i <> r -> R i = R' i) by (intros i Hi; rewrite HR; by destruct (Z.eqb_spec i r)).
      assert (He : forall i, r - L k < i < r -> a i = R i) by (intros i Hi; rewrite HRn by lia; symmetry; apply I2; lia).
      split; [|split].
      * split; [apply heap_kids; rewrite HRr; split; [by apply (kids_ext a)|by apply (kids_le_ext a)]|]. split.
        -- rewrite HRr, HRn by lia. destruct (I3 (r - L k)) as [->|(j & Hj & ->)]; [lia|done|]. apply (forest_max a _ _ j Hf). lia.
        -- apply (forest_ext R'); [intros i Hi; symmetry; apply HRn; lia|done].
      * intros i Hi. rewrite HRn by lia. apply I2. lia.
      * intros i Hi. destruct (Z.eq_dec i r) as [->|]; [right; exists (r - L k); split; [lia|done]|].
        rewrite HRn by done. destruct (Z_lt_ge_dec (r - L k) i); [right; exists i; split; [lia|apply I2; lia]|].
        destruct (I3 i) as [?|(j & ? & ?)]; [lia|by left|right; exists j; split; [lia|done]].
Qed.

(** *** Permutations *)
Lemma place_last (f : Z -> E) ks x q : NoDup ks -> last ks = Some q -> place f ks x q = x.
Proof.
  induction ks as [|p ks IH]; intros Hn Hl; [done|]. apply NoDup_cons in Hn as [Hp Hn]. destruct ks as [|p' ks].
  - cbn in Hl. injection Hl as ->. apply place_hd.
  - rewrite last_cons_cons in Hl. rewrite place_tl; [by apply IH|]. intros ->. apply Hp. by apply last_Some_elem_of.
Qed.
Lemma tpath_last a x r k ks t ps rf kf t' : tpath a x r k ks t = (ps, rf, kf, t') -> last (r :: ps) = Some rf.
Proof.
  revert r k t ps. induction ks as [|k' ks IH]; intros r k t ps; cbn [tpath]; [by intros [= <- <- <- <-]|].
  destruct (tstop a x r k t); [by intros [= <- <- <- <-]|].
  destruct (tpath a x (r - L k) k' ks false) as [[[ps' rf'] kf'] t''] eqn:Et. intros [= <- <- <- <-].
  rewrite last_cons_cons. by apply IH in Et.
Qed.
Lemma tpath_ge a x r k ks t ps rf kf t' :
  forest a (r - L k) ks -> tpath a x r k ks t = (ps, rf, kf, t') -> -1 <= rf - L kf.
Proof.
  revert r k t ps. induction ks as [|k' ks IH]; intros r k t ps Hf; destruct (forest_ge _ _ _ Hf) as [Hge _]; cbn [tpath]; [by intros [= <- <- <- <-]|].
  destruct (tstop a x r k t); [by intros [= <- <- <- <-]|].
  destruct (tpath a x (r - L k) k' ks false) as [[[ps' rf'] kf'] t''] eqn:Et. intros [= <- <- <- <-].
  apply (IH _ _ _ _ (proj2 (proj2 Hf)) Et).
Qed.

Lemma sifted_perm a r k n : -1 <= r - L k -> r < n -> map (sifted a (a r) r k) (seqZ 0 n) ≡ₚ map a (seqZ 0 n).
Proof.
  intros H1 H2. pose proof (L_ge1 k). apply rotate_perm; [apply NoDup_seqZ|apply spath_NoDup|].
  intros q [->|Hq%spath_range]%elem_of_cons; apply elem_of_seqZ; lia.
Qed.
Lemma trinkled_perm a r k ks t n :
  forest a (r - L k) ks -> r < n -> map (trinkled a (a r) r k ks t) (seqZ 0 n) ≡ₚ map a (seqZ 0 n).
Proof.
  intros Hf Hn. unfold trinkled. destruct (tpath a (a r) r k ks t) as [[[ps rf] kf] t'] eqn:Et.
  destruct (tpath_range _ _ _ _ _ _ _ _ _ _ Et) as (H1 & H2 & H3). pose proof (tpath_ge _ _ _ _ _ _ _ _ _ _ Hf Et).
  pose proof (L_ge1 kf). assert (Hp : map (place a (r :: ps) (a r)) (seqZ 0 n) ≡ₚ map a (seqZ 0 n)).
  { apply rotate_perm; [apply NoDup_seqZ|done|]. intros q [->|Hq%H1]%elem_of_cons; apply elem_of_seqZ; lia. }
  destruct t'; [done|]. etrans; [|exact Hp].
  pose proof (sifted_perm (place a (r :: ps) (a r)) rf kf n ltac:(lia) ltac:(lia)) as Hs.
  by rewrite (place_last a (r :: ps) (a r) rf H3 (tpath_last _ _ _ _ _ _ _ _ _ _ Et)) in Hs.
Qed.
End Abstract.

(** ** Blocks of memory *)
Lemma ld8_put_out m a bs x : x < a \/ a + Z.of_nat (length bs) <= x -> ld8 (put m a bs) x = ld8 m x.
Proof.
  revert m a. induction bs as [|b bs IH]; intros m a Hx; [done|]. cbn [put length] in *. rewrite IH by lia. apply ld8_st8_ne. lia.
Qed.
Lemma ld8_put_in m a bs i b : bs !! i = Some b -> ld8 (put m a bs) (a + Z.of_nat i) = u8 b.
Proof.
  revert m a i. induction bs as [|c bs IH]; intros m a i Hi; [done|]. cbn [put]. destruct i as [|i]; cbn in Hi.
  - injection Hi as ->. rewrite Z.add_0_r, ld8_put_out by lia. apply ld8_st8_eq.
  - replace (a + Z.of_nat (S i)) with (a + 1 + Z.of_nat i) by lia. by apply IH.
Qed.
Lemma length_bytes n m a : length (bytes n m a) = n.
Proof. revert a. induction n as [|n IH]; intros a; [done|]. cbn [bytes length]. by rewrite IH. Qed.
Lemma bytes_lookup n m a i : (i < n)%nat -> bytes n m a !! i = Some (ld8 m (a + Z.of_nat i)).
Proof.
  revert a i. induction n as [|n IH]; intros a i Hi; [lia|]. cbn [bytes]. destruct i as [|i]; cbn; [by rewrite Z.add_0_r|].
  rewrite IH by lia. do 2 f_equal. lia.
Qed.
Lemma bytes_ext n m m' a a' : (forall i, 0 <= i < Z.of_nat n -> ld8 m (a + i) = ld8 m' (a' + i)) -> bytes n m a = bytes n m' a'.
Proof.
  intros He. apply list_eq_same_length with n; rewrite ?length_bytes; try done.
  intros i x y Hi. rewrite !bytes_lookup by done. intros [= <-] [= <-]. apply He. lia.
Qed.

(** Blocks of [l] bytes that do not overlap. *)
Definition apart (l : Z) (ar : list Z) : Prop := NoDup ar /\ forall a b, a ∈ ar -> b ∈ ar -> a <> b -> a + l <= b \/ b + l <= a.
Definition outside (l : Z) (ar : list Z) (x : Z) : Prop := forall a, a ∈ ar -> x < a \/ a + l <= x.

Lemma apart_cons l a ar : apart l (a :: ar) -> apart l ar /\ a ∉ ar.
Proof. intros [Hn H]. apply NoDup_cons in Hn as [? ?]. split; [|done]. split; [done|]. intros b c Hb Hc'. apply H; by right. Qed.
Lemma apart_le l l' ar : apart l ar -> l' <= l -> apart l' ar.
Proof. intros [Hn H] Hl. split; [done|]. intros a b Ha Hb Hne. specialize (H a b Ha Hb Hne). lia. Qed.

Lemma copy_blocks l tmp ar m :
  apart (Z.of_nat l) ar -> length tmp = l -> Forall (fun b => 0 <= b < 256) tmp ->
  (forall a j, a ∈ ar -> (j < l)%nat -> ld8 (copy_loop l tmp ar m) (a + Z.of_nat j) = place (fun a => ld8 m (a + Z.of_nat j)) ar (tmp !!! j) a) /\
  (forall x, outside (Z.of_nat l) ar x -> ld8 (copy_loop l tmp ar m) x = ld8 m x).
Proof.
  intros Hap Hl Ht. revert m. induction ar as [|a ar IH]; intros m; [split; [by intros a j ?%not_elem_of_nil|done]|].
  destruct ar as [|b ar].
  - cbn [copy_loop]. rewrite take_ge by lia. split.
    + intros a' j ->%list_elem_of_singleton Hj. rewrite place_hd. destruct (lookup_lt_is_Some_2 tmp j) as [x Hx]; [lia|].
      rewrite (ld8_put_in _ _ _ _ _ Hx), (list_lookup_total_correct _ _ _ Hx). apply u8_id. by apply (Forall_lookup_1 _ _ _ _ Ht Hx).
    + intros x Hx. apply ld8_put_out. rewrite Hl. apply Hx. left.
  - change (copy_loop l tmp (a :: b :: ar) m) with (copy_loop l tmp (b :: ar) (put m a (bytes l m b))).
    destruct (apart_cons _ _ _ Hap) as [Hap' Ha]. set (m1 := put m a (bytes l m b)).
    assert (Hm1 : forall x, x < a \/ a + Z.of_nat l <= x -> ld8 m1 x = ld8 m x) by (intros x Hx; apply ld8_put_out; by rewrite length_bytes).
    destruct (IH Hap' m1) as [I1 I2]. destruct Hap as [_ Hap].
    assert (Hblk : forall c i, c ∈ b :: ar -> 0 <= i < Z.of_nat l -> c + i < a \/ a + Z.of_nat l <= c + i).
    { intros c i Hc' Hi. destruct (Hap a c) as [?|?]; [left|by right|intros <-; by apply Ha|right; lia|left; lia]. }
    split.
    + intros c j [->|Hc']%elem_of_cons Hj.
      * rewrite place_hd, I2.
        -- unfold m1. erewrite ld8_put_in by (by apply bytes_lookup). apply u8_id, ld8_range.
        -- intros c Hc'. destruct (Hap a c) as [?|?]; [left|by right|intros <-; by apply Ha|left; lia|right; lia].
      * rewrite I1 by done. rewrite (place_tl _ a) by (intros ->; by apply Ha). apply place_ext.
        intros i [Hi| ->]; apply Hm1; apply Hblk; done || lia.
    + intros x Hx. rewrite I2 by (intros c Hc'; apply Hx; by right). apply Hm1. apply Hx. left.
Qed.

Lemma apart_shift l d ar : apart (l + d) ar -> 0 <= d -> apart l (map (fun a => a + d) ar).
Proof.
  intros [Hn H] Hd. split; [apply NoDup_fmap_2_strong; [intros; lia|done]|].
  intros a b (x & -> & Hx)%list_elem_of_fmap (y & -> & Hy)%list_elem_of_fmap Hne. destruct (H x y Hx Hy ltac:(lia)); lia.
Qed.

Lemma cycle_loop_spec fuel w p ar m :
  0 <= w < Z.of_nat fuel -> apart w (p :: ar) ->
  exists m', cycle_loop fuel w (p :: ar) m = Ret tt m' /\
    (forall a j, a ∈ p :: ar -> 0 <= j < w -> ld8 m' (a + j) = place (fun a => ld8 m (a + j)) (p :: ar) (ld8 m (p + j)) a) /\
    (forall x, outside w (p :: ar) x -> ld8 m' x = ld8 m x).
Proof.
  revert w p ar m. induction fuel as [|fuel IH]; intros w p ar m Hw Hap; [lia|]. cbn [cycle_loop].
  destruct (Z.eqb_spec w 0) as [->|Hw0]; [exists m; split; [done|]; split; [lia|done]|].
  set (l := if 256 <? w then 256 else w). assert (Hl : 0 < l <= w) by (unfold l; destruct (Z.ltb_spec 256 w); lia).
  unfold bind at 1, modify at 1. cbn [hd]. set (tmp := bytes (Z.to_nat l) m p).
  destruct (copy_blocks (Z.to_nat l) tmp (p :: ar) m) as [C1 C2].
  { apply (apart_le w); [done|lia]. } { apply length_bytes. }
  { apply Forall_lookup_2. intros i b Hb. pose proof (lookup_lt_Some _ _ _ Hb) as Hlt. unfold tmp in Hb, Hlt.
    rewrite length_bytes in Hlt. rewrite bytes_lookup in Hb by done. injection Hb as <-. apply ld8_range. }
  set (m1 := copy_loop (Z.to_nat l) tmp (p :: ar) m) in *.
  destruct (IH (w - l) (p + l) (map (fun a => a + l) ar) m1) as (m' & E & I1 & I2); [lia|apply (apart_shift _ _ (p :: ar)); [|lia]; by replace (w - l + l) with w by lia|].
  assert (Hlo : forall a j, a ∈ p :: ar -> 0 <= j < l -> outside (w - l) (map (fun a => a + l) (p :: ar)) (a + j)).
  { intros a j Ha Hj b (c & -> & Hc')%list_elem_of_fmap. destruct (decide (a = c)) as [->|Hne]; [lia|]. destruct (proj2 Hap a c Ha Hc' Hne); lia. }
  assert (Hhi : forall a j, a ∈ p :: ar -> l <= j < w -> ld8 m1 (a + j) = ld8 m (a + j)).
  { intros a j Ha Hj. apply C2. intros b Hb. destruct (decide (a = b)) as [->|Hne]; [lia|]. destruct (proj2 Hap a b Ha Hb Hne); lia. }
  exists m'. split; [exact E|]. split.
  - intros a j Ha Hj. destruct (Z_lt_ge_dec j l) as [Hjl|Hjl].
    + rewrite I2 by exact (Hlo a j Ha ltac:(lia)). replace j with (Z.of_nat (Z.to_nat j)) at 1 by lia. rewrite C1 by (done || lia).
      assert (tmp !!! Z.to_nat j = ld8 m (p + j)) as ->.
      { apply list_lookup_total_correct. unfold tmp. rewrite bytes_lookup by lia. do 2 f_equal. lia. }
      rewrite Z2Nat.id by lia. done.
    + replace (a + j) with (a + l + (j - l)) by lia. rewrite I1; [|exact (list_elem_of_fmap_2 (fun a => a + l) (p :: ar) a Ha)|lia].
      change (p + l :: map (fun a => a + l) ar) with (map (fun a => a + l) (p :: ar)).
      rewrite (place_map (fun a => a + l)) by (intros; lia). replace (p + l + (j - l)) with (p + j) by lia. rewrite Hhi by (left || lia).
      apply place_ext. intros i Hi. replace (i + l + (j - l)) with (i + j) by lia. apply Hhi; [by destruct Hi as [Hi| ->]|lia].
  - intros x Hx. rewrite I2. 2: { intros b (c & -> & Hc')%(list_elem_of_fmap (fun a => a + l) (p :: ar)). specialize (Hx c Hc'). lia. }
    apply C2. intros b Hb. specialize (Hx b Hb). lia.
Qed.

(** ** The array *)
Section Array.
Context (base w : Z) (Hw : 0 < w).
Definition adr (k : Z) : Z := base + k * w.
Definition el (m : gmap Z Z) (k : Z) : list Z := bytes (Z.to_nat w) m (adr k).

Lemma adr_inj i j : adr i = adr j -> i = j.
Proof. unfold adr. intros H. apply (Z.mul_cancel_r i j w); lia. Qed.
Lemma adr_apart ks : NoDup ks -> apart w (map adr ks).
Proof.
  intros Hn. split; [apply NoDup_fmap_2; [intros i j; apply adr_inj|done]|].
  intros a b (i & -> & Hi)%list_elem_of_fmap (j & -> & Hj)%list_elem_of_fmap Hne. assert (i <> j) by (by intros ->). unfold adr. nia.
Qed.

Lemma cycle_el p ks m :
  NoDup (p :: ks) -> (length (p :: ks) < AR_SIZE)%nat ->
  exists m', cycle w (map adr (p :: ks)) m = Ret tt m' /\ (forall k, el m' k = place (el m) (p :: ks) (el m p) k) /\
    (forall x, outside w (map adr (p :: ks)) x -> ld8 m' x = ld8 m x).
Proof.
  intros Hn Hlen. unfold cycle. rewrite length_map. destruct (Nat.ltb_spec (length (p :: ks)) 2) as [H1|H1].
  { destruct ks as [|q ks]; [|cbn in H1; lia]. exists m. split; [done|]. split; [|done]. intros k. cbn [place]. by destruct (Z.eqb_spec k p) as [->|]. }
  destruct (Nat.leb_spec AR_SIZE (length (p :: ks))); [lia|].
  destruct (cycle_loop_spec (S (Z.to_nat w)) w (adr p) (map adr ks) m) as (m' & E & C1 & C2); [lia|by apply (adr_apart (p :: ks))|].
  exists m'. split; [exact E|]. split; [|exact C2]. intros k. destruct (decide (k ∈ p :: ks)) as [Hk|Hk].
  - apply list_eq_same_length with (Z.to_nat w).
    + destruct (place_from (el m) (p :: ks) (el m p) k Hk) as [->|(j & _ & ->)]; apply length_bytes.
    + apply length_bytes.
    + intros i x y Hi. unfold el at 1. rewrite bytes_lookup by done. intros [= <-] Hy.
      pose proof (place_fun (fun l => default 0 (l !! i)) (el m) (p :: ks) (el m p) k) as Hh. cbv beta in Hh. rewrite Hy in Hh. change (default 0 (Some y)) with y in Hh.
      assert (Hd : forall q, default 0 (el m q !! i) = ld8 m (adr q + Z.of_nat i)) by (intros q; unfold el; by rewrite bytes_lookup).
      rewrite Hh, Hd, (place_ext _ (fun q => ld8 m (adr q + Z.of_nat i))) by (intros q _; apply Hd).
      rewrite C1; [|exact (list_elem_of_fmap_2 adr (p :: ks) k Hk)|lia]. apply (place_map adr (fun a => ld8 m (a + Z.of_nat i)) (p :: ks)). exact adr_inj.
  - rewrite place_out by done. apply bytes_ext. intros i Hi. apply C2. intros a (q & -> & Hq)%(list_elem_of_fmap adr (p :: ks)).
    assert (q <> k) by (by intros ->). unfold adr. nia.
Qed.

(** *** The code on the array *)
Ltac fold_el m :=
  repeat match goal with |- context [bytes (Z.to_nat w) m (adr ?q)] => change (bytes (Z.to_nat w) m (adr q)) with (el m q) end.
Context (ntz : Z -> Z) (Hntz : forall n y, 0 <= n -> Z.odd y = true -> 0 < 2 ^ n * y < 2 ^ 64 -> ntz (2 ^ n * y) = n).
Context (cmp : list Z -> list Z -> Z) (nel : Z) (Hnel : nel <= 2 ^ 44).
Context (lp : list Z) (Hlp : forall k, L k <= nel -> lp !! k = Some (L k * w)).

Lemma order_small k : L k <= nel -> (k < 64)%nat.
Proof.
  intros Hk. destruct (Nat.lt_ge_cases k 64) as [?|Hge]; [done|]. pose proof (L_mono 64 k Hge).
  assert (2 ^ 44 < L 64) by (vm_compute; reflexivity). lia.
Qed.
Lemma lp_at_ok k m : L k <= nel -> lp_at lp (Z.of_nat k) m = Ret (L k * w) m.
Proof. intros Hk. unfold lp_at. destruct (Z.ltb_spec (Z.of_nat k) 0); [lia|]. by rewrite Nat2Z.id, (Hlp k Hk). Qed.

(** The memory [m'] holds the array [f] and is that of [m] around it. *)
Definition holds (m m' : gmap Z Z) (f : Z -> list Z) : Prop :=
  (forall k, el m' k = f k) /\ (forall x, x < base \/ base + nel * w <= x -> ld8 m' x = ld8 m x).

Lemma cycle_run p ks m :
  NoDup (p :: ks) -> (length ks < 112)%nat -> (forall k, k ∈ p :: ks -> 0 <= k < nel) ->
  exists m', cycle w (map adr (p :: ks)) m = Ret tt m' /\ holds m m' (place (el m) (p :: ks) (el m p)).
Proof.
  intros Hn Hlen Hin. destruct (cycle_el p ks m Hn) as (m' & E & H1 & H2); [unfold AR_SIZE; cbn [length]; lia|].
  exists m'. split; [done|]. split; [done|]. intros x Hx. apply H2.
  intros a (q & -> & Hq)%(list_elem_of_fmap adr (p :: ks)). specialize (Hin q Hq). unfold adr. nia.
Qed.

Lemma sift_loop_run fuel r k ar m x :
  (k < fuel)%nat -> bytes (Z.to_nat w) m (ar0 ar) = x -> ar <> [] -> (length ar + k <= 112)%nat -> L k <= nel ->
  sift_loop cmp w lp fuel (adr r) (Z.of_nat k) ar m = Ret (ar ++ map adr (spath cmp (el m) x r k)) m.
Proof.
  revert r k ar. induction fuel as [|fuel IH]; intros r k ar Hf Hx Har Hlen Hk; [lia|]. cbn [sift_loop].
  destruct k as [|[|k]]; [by rewrite app_nil_r..|]. destruct (Z.ltb_spec 1 (Z.of_nat (S (S k)))); [|lia].
  pose proof (L_ge1 k). pose proof (L_ge1 (S k)). rewrite L_SS in Hk.
  replace (Z.of_nat (S (S k)) - 2) with (Z.of_nat k) by lia. rewrite (bind_ret _ _ _ _ _ (lp_at_ok k m ltac:(lia))).
  unfold compare, bind, gets. cbv beta iota.
  replace (adr r - w) with (adr (r - 1)) by (unfold adr; lia). replace (adr (r - 1) - L k * w) with (adr (r - 1 - L k)) by (unfold adr; lia).
  rewrite Hx. fold_el m. rewrite spath_SS.
  destruct ((0 <=? cmp x (el m (r - 1 - L k))) && (0 <=? cmp x (el m (r - 1)))); [by rewrite app_nil_r|].
  assert (Hpush : forall q, push ar q m = Ret (ar ++ [q]) m).
  { intros q. unfold push. destruct (Nat.ltb_spec (length ar) AR_SIZE); [done|unfold AR_SIZE in *; lia]. }
  assert (Hx' : forall q, bytes (Z.to_nat w) m (ar0 (ar ++ [q])) = x) by (intros q; rewrite <- Hx; by destruct ar).
  cbv beta. fold_el m. destruct (0 <=? cmp (el m (r - 1 - L k)) (el m (r - 1))); cbv beta; rewrite Hpush.
  - replace (Z.of_nat (S (S k)) - 1) with (Z.of_nat (S k)) by lia.
    rewrite IH; [cbn [map]; by rewrite <- app_assoc|lia|apply Hx'|by destruct ar|rewrite length_app; cbn [length]; lia|lia].
  - rewrite IH; [cbn [map]; by rewrite <- app_assoc|lia|apply Hx'|by destruct ar|rewrite length_app; cbn [length]; lia|lia].
Qed.

Lemma sift_run r k m : -1 <= r - L k -> r < nel ->
  exists m', sift cmp w lp (adr r) (Z.of_nat k) m = Ret tt m' /\ holds m m' (sifted cmp (el m) (el m r) r k).
Proof.
  intros H0 H1. pose proof (L_ge1 k). assert (Hk : (k < 64)%nat) by (apply order_small; lia).
  pose proof (spath_length cmp (el m) (el m r) r k). unfold sift. rewrite Nat2Z.id.
  rewrite (bind_ret _ _ _ _ _ (sift_loop_run (S k) r k [adr r] m (el m r) ltac:(lia) eq_refl ltac:(done) ltac:(cbn [length]; lia) ltac:(lia))).
  apply (cycle_run r); [apply spath_NoDup|lia|]. intros q [->|Hq%spath_range]%elem_of_cons; lia.
Qed.

(** *** The bit vector and the orders of the forest *)
Inductive rep : Z -> nat -> list nat -> Prop :=
| rep_one k : rep 1 k []
| rep_cons p k k' ks : (k < k')%nat -> rep p k' ks -> rep (1 + 2 ^ (Z.of_nat k' - Z.of_nat k) * p) k (k' :: ks).

Lemma rep_odd p k ks : rep p k ks -> Z.odd p = true /\ 1 <= p.
Proof.
  induction 1 as [|p k k' ks Hk _ [IH1 IH2]]; [done|]. rewrite (Z.add_comm 1), Z.odd_add, Z.odd_mul, Z.odd_pow by lia. split; [done|]. nia.
Qed.
Lemma rep_bound p k ks : rep p k ks -> Forall (fun k => L k <= nel) (k :: ks) -> p < 2 ^ (64 - Z.of_nat k).
Proof.
  induction 1 as [k|p k k' ks Hk Hr IH]; intros HF; apply Forall_cons in HF as [H1%order_small HF].
  - apply Z.pow_gt_1; lia.
  - specialize (IH HF). apply Forall_cons in HF as [H2%order_small _].
    replace (64 - Z.of_nat k) with ((Z.of_nat k' - Z.of_nat k) + (64 - Z.of_nat k')) by lia. rewrite Z.pow_add_r by lia.
    assert (2 ^ 1 <= 2 ^ (Z.of_nat k' - Z.of_nat k)) by (apply Z.pow_le_mono_r; lia). nia.
Qed.
Lemma rep_lt p k ks : rep p k ks -> Forall (fun k => L k <= nel) (k :: ks) -> p < 2 ^ 64.
Proof.
  intros H1 H2. pose proof (rep_bound _ _ _ H1 H2). assert (2 ^ (64 - Z.of_nat k) <= 2 ^ 64) by (apply Z.pow_le_mono_r; lia). lia.
Qed.

Lemma shr_lo p n : 0 < n < 64 -> shr (p, 0) n = (p / 2 ^ n, 0).
Proof.
  intros Hn. unfold shr. cbn [fst snd]. destruct (Z.leb_spec 64 n); [lia|]. rewrite Z.shiftl_0_l. change (u64 0) with 0.
  by rewrite Z.lor_0_r, Z.shiftr_0_l, Z.shiftr_div_pow2 by lia.
Qed.
Lemma shl_lo p n : 0 < n < 64 -> 0 <= p -> 2 ^ n * p < 2 ^ 64 -> shl (p, 0) n = (2 ^ n * p, 0).
Proof.
  intros Hn Hp Hlt. unfold shl. cbn [fst snd]. destruct (Z.leb_spec 64 n); [lia|]. rewrite Z.shiftl_0_l. change (u64 0) with 0.
  assert (0 < 2 ^ n) by (apply Z.pow_pos_nonneg; lia).
  rewrite Z.lor_0_l, Z.shiftl_mul_pow2 by lia. rewrite u64_id by nia. f_equal; [lia|]. rewrite Z.shiftr_div_pow2 by lia. apply Z.div_small. split; [lia|].
  apply (Z.mul_lt_mono_pos_l (2 ^ n)); [lia|]. rewrite <- Z.pow_add_r by lia. by replace (n + (64 - n)) with 64 by lia.
Qed.

Lemma pntz_rep p k k' ks :
  rep p k (k' :: ks) -> Forall (fun k => L k <= nel) (k :: k' :: ks) ->
  pntz ntz (p, 0) = Z.of_nat k' - Z.of_nat k /\ exists p', shr (p, 0) (Z.of_nat k' - Z.of_nat k) = (p', 0) /\ rep p' k' ks.
Proof.
  intros Hr HF. pose proof (rep_lt _ _ _ Hr HF) as Hlt. inversion Hr as [|p' ? ? ? Hk Hr' E1 E2 E3]; subst.
  destruct (rep_odd _ _ _ Hr') as [Ho Hp']. set (d := Z.of_nat k' - Z.of_nat k) in *.
  apply Forall_cons in HF as [_ HF]. apply Forall_cons in HF as [Hk'%order_small _].
  assert (2 ^ 1 <= 2 ^ d) by (apply Z.pow_le_mono_r; lia). split.
  - unfold pntz. cbn [fst snd]. rewrite u64_id by nia. replace (1 + 2 ^ d * p' - 1) with (2 ^ d * p') by lia. rewrite Hntz by (done || nia || lia).
    destruct (Z.eqb_spec d 0); [lia|done].
  - exists p'. split; [|done]. rewrite shr_lo by lia. f_equal. rewrite (Z.mul_comm (2 ^ d)), Z.div_add by lia. rewrite Z.div_small by lia. lia.
Qed.

Definition orders_ok (ks : list nat) : Prop := Forall (fun k => L k <= nel) ks.

Lemma tpath_length a x r k ks t ps rf kf t' :
  tpath cmp a x r k ks t = (ps, rf, kf, t') -> (length ps <= length ks)%nat /\ kf ∈ k :: ks /\ (t' = true -> ps = []).
Proof.
  revert r k t ps. induction ks as [|k' ks IH]; intros r k t ps; cbn [tpath].
  { intros [= <- <- <- <-]. split; [cbn; lia|]. split; [left|done]. }
  destruct (tstop cmp a x r k t).
  { intros [= <- <- <- <-]. split; [cbn; lia|]. split; [left|done]. }
  pose proof (tpath_false cmp a x (r - L k) k' ks) as Hf.
  destruct (tpath cmp a x (r - L k) k' ks false) as [[[ps' rf'] kf'] t''] eqn:Et. cbn in Hf. subst t''. intros [= <- <- <- <-].
  destruct (IH _ _ _ _ Et) as (H1 & H2 & _). split; [cbn [length]; lia|]. split; [by right|done].
Qed.

Lemma trinkle_loop_run fuel r p k ks t ar m x ps rf kf t' :
  (length ks < fuel)%nat -> rep p k ks -> orders_ok (k :: ks) ->
  bytes (Z.to_nat w) m (ar0 ar) = x -> ar <> [] -> (length ar + length ks <= 112)%nat ->
  tpath cmp (el m) x r k ks t = (ps, rf, kf, t') ->
  trinkle_loop ntz cmp w lp fuel (adr r) (p, 0) (Z.of_nat k) t ar m = Ret (ar ++ map adr ps, adr rf, Z.of_nat kf, t') m.
Proof.
  revert r p k ks t ar ps. induction fuel as [|fuel IH]; intros r p k ks t ar ps Hf Hr Ho Hx Har Hlen Hp; [lia|]. cbn [trinkle_loop].
  destruct ks as [|k' ks].
  { inversion Hr; subst. cbn [fst snd]. change (negb (1 =? 1) || negb (0 =? 0)) with false. cbv iota. cbn [tpath] in Hp. injection Hp as <- <- <- <-.
    by rewrite app_nil_r. }
  assert (Hp1 : negb ((p, 0).1 =? 1) || negb ((p, 0).2 =? 0) = true).
  { inversion Hr as [|p' ? ? ? Hk Hr']; subst. destruct (rep_odd _ _ _ Hr') as [_ ?]. cbn [fst].
    assert (0 < 2 ^ (Z.of_nat k' - Z.of_nat k)) by (apply Z.pow_pos_nonneg; lia). destruct (Z.eqb_spec (1 + 2 ^ (Z.of_nat k' - Z.of_nat k) * p') 1); [nia|done]. }
  rewrite Hp1. pose proof Ho as [Hk _]%Forall_cons. pose proof (L_ge1 k).
  rewrite (bind_ret _ _ _ _ _ (lp_at_ok k m Hk)). unfold compare at 1, bind at 1, gets at 1.
  replace (adr r - L k * w) with (adr (r - L k)) by (unfold adr; lia). rewrite Hx. fold_el m.
  cbn [tpath] in Hp. unfold tstop in Hp.
  destruct (cmp (el m (r - L k)) x <=? 0); [cbn [orb] in Hp; injection Hp as <- <- <- <-; by rewrite app_nil_r|]. cbn [orb] in Hp.
  set (stop := match k with S (S k'0) => _ | _ => false end) in Hp.
  erewrite (bind_ret _ _ _ stop m).
  2: { unfold stop. destruct k as [|[|k]]; [by destruct t..|]. rewrite L_SS in Hk. pose proof (L_ge1 (S k)).
       destruct (Z.ltb_spec 1 (Z.of_nat (S (S k)))); [|lia]. destruct t; [done|]. cbn [negb andb].
       replace (Z.of_nat (S (S k)) - 2) with (Z.of_nat k) by lia. rewrite (bind_ret _ _ _ _ _ (lp_at_ok k m ltac:(lia))).
       unfold compare, bind, gets. cbv beta iota. replace (adr r - w) with (adr (r - 1)) by (unfold adr; lia).
       replace (adr (r - 1) - L k * w) with (adr (r - 1 - L k)) by (unfold adr; lia). fold_el m. done. }
  destruct stop; [injection Hp as <- <- <- <-; by rewrite app_nil_r|].
  destruct (tpath cmp (el m) x (r - L k) k' ks false) as [[[ps' rf'] kf'] t''] eqn:Et. injection Hp as <- <- <- <-.
  assert (Hpush : push ar (adr (r - L k)) m = Ret (ar ++ [adr (r - L k)]) m).
  { unfold push. destruct (Nat.ltb_spec (length ar) AR_SIZE); [done|unfold AR_SIZE in *; lia]. }
  rewrite (bind_ret _ _ _ _ _ Hpush). destruct (pntz_rep p k k' ks Hr Ho) as (-> & p' & -> & Hr').
  replace (Z.of_nat k + (Z.of_nat k' - Z.of_nat k)) with (Z.of_nat k') by lia.
  rewrite (IH (r - L k) p' k' ks false _ ps'); [cbn [map]; by rewrite <- app_assoc|cbn in Hf; lia|done|by apply Forall_cons in Ho as [_ ?]| |by destruct ar|rewrite length_app; cbn [length] in *; lia|done].
  rewrite <- Hx. by destruct ar.
Qed.

(** A strictly increasing list of orders below 64 is short. *)
Lemma rep_length p k ks : rep p k ks -> orders_ok (k :: ks) -> (length ks + k < 64)%nat.
Proof.
  induction 1 as [k|p k k' ks Hk Hr IH]; intros HF.
  - apply Forall_cons in HF as [?%order_small _]. cbn. lia.
  - apply Forall_cons in HF as [_ HF]. specialize (IH HF). cbn [length]. lia.
Qed.

Lemma holds_trans m m1 m2 f g : holds m m1 f -> holds m1 m2 g -> holds m m2 g.
Proof. intros [_ H1] [H2 H3]. split; [done|]. intros x Hx. rewrite H3 by done. by apply H1. Qed.
Lemma holds_ext m m' f g : holds m m' f -> (forall k, f k = g k) -> holds m m' g.
Proof. intros [H1 H2] He. split; [|done]. intros k. by rewrite <- He. Qed.

Lemma trinkle_run r p k ks t m :
  rep p k ks -> orders_ok (k :: ks) -> forest cmp (el m) (r - L k) ks -> r < nel ->
  exists m', trinkle ntz cmp w lp (adr r) (p, 0) (Z.of_nat k) t m = Ret tt m' /\ holds m m' (trinkled cmp (el m) (el m r) r k ks t).
Proof.
  intros Hr Ho Hf Hn. pose proof (rep_length _ _ _ Hr Ho) as Hlen. unfold trinkle, trinkled.
  destruct (tpath cmp (el m) (el m r) r k ks t) as [[[ps rf] kf] t'] eqn:Et.
  rewrite (bind_ret _ _ _ _ _ (trinkle_loop_run 129 r p k ks t [adr r] m (el m r) ps rf kf t' ltac:(lia) Hr Ho eq_refl ltac:(done) ltac:(cbn [length]; lia) Et)).
  destruct (tpath_length _ _ _ _ _ _ _ _ _ _ Et) as (Hl & Hkf & Ht').
  destruct (tpath_range _ _ _ _ _ _ _ _ _ _ _ Et) as (H1 & H2 & H3). pose proof (tpath_ge _ _ _ _ _ _ _ _ _ _ _ Hf Et) as Hge.
  pose proof (L_ge1 kf). destruct t'.
  { rewrite (Ht' eq_refl). exists m. split; [done|]. split; [|done]. intros q. cbn [place]. by destruct (Z.eqb_spec q r) as [->|]. }
  destruct (cycle_run r ps m H3) as (m1 & E1 & Hm1); [lia|intros q [->|Hq%H1]%elem_of_cons; lia|].
  change ([adr r] ++ map adr ps) with (map adr (r :: ps)). rewrite (bind_ret _ _ _ _ _ E1).
  destruct (sift_run rf kf m1) as (m2 & E2 & Hm2); [done|lia|]. exists m2. split; [done|].
  apply (holds_trans m m1 m2 _ _ Hm1). apply (holds_ext _ _ _ _ Hm2). intros q.
  rewrite (proj1 Hm1 rf), (place_last (el m) (r :: ps) (el m r) rf H3 (tpath_last _ _ _ _ _ _ _ _ _ _ _ Et)).
  apply sifted_ext; intros; apply Hm1.
Qed.

(** *** What the loops keep *)
Context (Hc : consistent cmp).

Record evolves (m m' : gmap Z Z) : Prop := {
  ev_perm : map (el m') (seqZ 0 nel) ≡ₚ map (el m) (seqZ 0 nel);
  ev_out x : x < base \/ base + nel * w <= x -> ld8 m' x = ld8 m x
}.
Lemma evolves_refl m : evolves m m.
Proof. by split. Qed.
Lemma evolves_trans m1 m2 m3 : evolves m1 m2 -> evolves m2 m3 -> evolves m1 m3.
Proof. intros [P1 O1] [P2 O2]. split; [by etrans|]. intros x Hx. rewrite O2 by done. by apply O1. Qed.
Lemma evolves_holds m m' f : holds m m' f -> map f (seqZ 0 nel) ≡ₚ map (el m) (seqZ 0 nel) -> evolves m m'.
Proof. intros [H1 H2] Hp. split; [|done]. rewrite <- Hp. apply reflexive_eq, map_ext. done. Qed.

Lemma sift_ok r k m :
  kids cmp (el m) r k -> -1 <= r - L k -> r < nel ->
  exists m', sift cmp w lp (adr r) (Z.of_nat k) m = Ret tt m' /\ evolves m m' /\ heap cmp (el m') r k /\
    (forall i, i <= r - L k \/ r < i -> el m' i = el m i).
Proof.
  intros Hk H0 H1. destruct (sift_run r k m H0 H1) as (m' & E & Hm). exists m'. split; [done|].
  split; [apply (evolves_holds _ _ _ Hm); by apply sifted_perm|]. destruct Hm as [Hm _]. split.
  - apply (heap_ext cmp (sifted cmp (el m) (el m r) r k)); [intros i _; by rewrite Hm|]. by apply sift_heap.
  - intros i Hi. rewrite Hm. by apply sifted_out.
Qed.

Lemma trinkle_ok r p k ks t m :
  rep p k ks -> orders_ok (k :: ks) -> kids cmp (el m) r k -> (t = true -> heap cmp (el m) r k) -> forest cmp (el m) (r - L k) ks -> r < nel ->
  exists m', trinkle ntz cmp w lp (adr r) (p, 0) (Z.of_nat k) t m = Ret tt m' /\ evolves m m' /\ forest cmp (el m') r (k :: ks) /\
    (forall i, r < i -> el m' i = el m i) /\ (forall i, 0 <= i <= r -> exists j, 0 <= j <= r /\ el m' i = el m j).
Proof.
  intros Hr Ho Hk Ht Hf Hn. destruct (trinkle_run r p k ks t m Hr Ho Hf Hn) as (m' & E & Hm). exists m'. split; [done|].
  destruct (trinkle_forest cmp Hc (el m) (el m r) r k ks t Hk) as (F1 & F2 & F3); [intros Htt; apply heap_kids; auto|done|].
  split; [apply (evolves_holds _ _ _ Hm); by apply trinkled_perm|]. destruct Hm as [Hm _]. split; [|split].
  - apply (forest_ext cmp (trinkled cmp (el m) (el m r) r k ks t)); [intros i _; by rewrite Hm|done].
  - intros i Hi. rewrite Hm. by apply F2.
  - intros i Hi. destruct (F3 i Hi) as [E'|(j & Hj & E')]; [exists r|exists j]; (split; [lia|]); by rewrite Hm.
Qed.

(** A heap that no longer grows is in order with the one before it. *)
Fixpoint loose (a : Z -> list Z) (r : Z) (ks : list nat) : Prop :=
  match ks with
  | [] => r = -1
  | k :: ks' => heap cmp a r k /\
      (nel - 1 - r <= L (pred k) -> match ks' with [] => True | _ => le cmp (a (r - L k)) (a r) end) /\ loose a (r - L k) ks'
  end.
Fixpoint spaced (k : nat) (ks : list nat) : Prop :=
  match ks with [] => True | k' :: ks' => (k + 2 <= k')%nat /\ spaced k' ks' end.

Lemma loose_ge a r ks : loose a r ks -> -1 <= r /\ (ks <> [] -> 0 <= r) /\ (r < nel -> orders_ok ks).
Proof.
  revert r. induction ks as [|k ks IH]; intros r; cbn [loose]; [intros ->; split; [lia|split; [done|by constructor]]|].
  intros (_ & _ & Hf). apply IH in Hf as (? & _ & Ho). pose proof (L_ge1 k). split; [lia|]. split; [intros _; lia|].
  intros Hr. constructor; [lia|apply Ho; lia].
Qed.
Lemma loose_ext a b r ks : (forall i, 0 <= i <= r -> a i = b i) -> loose a r ks -> loose b r ks.
Proof.
  revert r. induction ks as [|k ks IH]; intros r He; [done|]. cbn [loose]. intros (H1 & H2 & H3).
  pose proof (L_ge1 k). destruct (loose_ge _ _ _ H3) as (Hge & Hge' & _).
  split; [apply (heap_ext cmp a); [intros; apply He; lia|done]|]. split; [|apply IH; [intros; apply He; lia|done]].
  destruct ks; [done|]. specialize (Hge' ltac:(done)). by rewrite <- !He by lia.
Qed.
Lemma forest_loose a r ks : forest cmp a r ks -> loose a r ks.
Proof. revert r. induction ks as [|k ks IH]; intros r; [done|]. intros (H1 & H2 & H3). split; [done|]. split; [done|]. by apply IH. Qed.
Lemma loose_forest a r k ks : (1 <= k)%nat -> spaced k ks -> nel - 1 - r <= L (pred k) -> loose a r (k :: ks) -> forest cmp a r (k :: ks).
Proof.
  revert r k. induction ks as [|k' ks IH]; intros r k Hk Hs Hn (H1 & H2 & H3); (split; [done|]; split; [by apply H2|]); [done|].
  destruct Hs as [Hs1 Hs2]. apply IH; [lia|done| |done]. destruct k as [|k]; [lia|]. cbn [pred] in Hn.
  pose proof (L_mono (S (S k)) (pred k') ltac:(lia)). rewrite L_SS in *. lia.
Qed.

(** *** The bit vector in the loops *)
Lemma land3_rep p k ks : rep p k ks -> (Z.land p 3 =? 3) = match ks with [] => false | k' :: _ => (k' =? S k)%nat end.
Proof.
  intros Hr. change 3 with (Z.ones 2) at 1. rewrite Z.land_ones by lia. inversion Hr as [|p' ? k' ks' Hk Hr']; subst; [done|].
  destruct (rep_odd _ _ _ Hr') as [Ho _]. apply Z.odd_spec in Ho as [q ->]. destruct (Nat.eqb_spec k' (S k)) as [->|Hne].
  - replace (Z.of_nat (S k) - Z.of_nat k) with 1 by lia. apply Z.eqb_eq. zdm.
  - replace (Z.of_nat k' - Z.of_nat k) with (2 + (Z.of_nat k' - Z.of_nat k - 2)) by lia. rewrite Z.pow_add_r by lia.
    apply Z.eqb_neq. set (u := 2 ^ (Z.of_nat k' - Z.of_nat k - 2)). replace (1 + 2 ^ 2 * u * (2 * q + 1)) with (1 + (u * (2 * q + 1)) * 4) by lia.
    change (2 ^ 2) with 4. rewrite Z.mod_add by lia. done.
Qed.
Lemma lor_1_even x : Z.lor (2 * x) 1 = 2 * x + 1.
Proof. by destruct x as [|[|?|]|[|?|]]. Qed.

Lemma shl_rep p k k' ks : rep p k ks -> orders_ok (k :: ks) -> (k' < k)%nat ->
  exists q, shl (p, 0) (Z.of_nat k - Z.of_nat k') = (q, 0) /\ rep (Z.lor q 1) k' (k :: ks).
Proof.
  intros Hr Ho Hk. pose proof (rep_bound _ _ _ Hr Ho) as Hb. destruct (rep_odd _ _ _ Hr) as [_ Hp].
  apply Forall_cons in Ho as [?%order_small _]. set (d := Z.of_nat k - Z.of_nat k') in *. assert (Hd : 1 <= d < 64) by (unfold d; lia).
  assert (Hlt : 2 ^ d * p < 2 ^ 64).
  { assert (2 ^ d * 2 ^ (64 - Z.of_nat k) <= 2 ^ 64) by (rewrite <- Z.pow_add_r by lia; apply Z.pow_le_mono_r; lia).
    assert (0 < 2 ^ d) by (apply Z.pow_pos_nonneg; lia). nia. }
  exists (2 ^ d * p). split.
  - apply shl_lo; lia.
  - assert (2 ^ d * p = 2 * (2 ^ (d - 1) * p)) as Ed.
    { replace d with (1 + (d - 1)) at 1 by lia. rewrite Z.pow_add_r by lia. lia. }
    rewrite Ed, lor_1_even, <- Ed, Z.add_comm. by apply rep_cons.
Qed.

Lemma merge_rep p k ks : rep p k (S k :: ks) -> spaced (S k) ks ->
  exists q, shr (p, 0) 2 = (q, 0) /\ rep (Z.lor q 1) (S (S k)) ks.
Proof.
  intros Hr Hs. rewrite shr_lo by lia. eexists. split; [reflexivity|]. inversion Hr as [|p1 ? ? ? _ Hr1]; subst.
  replace (Z.of_nat (S k) - Z.of_nat k) with 1 by lia. inversion Hr1 as [|p2 ? k2 ks2 Hk2 Hr2]; subst; [apply rep_one|].
  destruct Hs as [Hs _]. set (d := Z.of_nat k2 - Z.of_nat (S (S k)) - 1).
  replace (Z.of_nat k2 - Z.of_nat (S k)) with (1 + (1 + d)) by (unfold d; lia). rewrite !Z.pow_add_r by (unfold d; lia).
  replace (1 + 2 ^ 1 * (1 + 2 ^ 1 * (2 ^ 1 * 2 ^ d) * p2)) with (3 + (2 * (2 ^ d * p2)) * 2 ^ 2) by lia.
  rewrite Z.div_add by lia. change (3 / 2 ^ 2) with 0. rewrite Z.add_0_l, lor_1_even.
  replace (2 * (2 ^ d * p2) + 1) with (1 + 2 ^ (Z.of_nat k2 - Z.of_nat (S (S k))) * p2); [by apply rep_cons; [lia|]|].
  replace (Z.of_nat k2 - Z.of_nat (S (S k))) with (1 + d) by (unfold d; lia). rewrite Z.pow_add_r by (unfold d; lia). lia.
Qed.

Lemma lxor_7 q : 0 <= q -> Z.lxor (8 * q + 4) 7 = 8 * q + 3.
Proof. intros Hq. by destruct q as [|q|q]. Qed.

Lemma split_rep p k ks : rep p (S (S k)) ks -> orders_ok (S (S k) :: ks) ->
  exists q, shr (Z.lxor (shl (p, 0) 2).1 7, (shl (p, 0) 2).2) 1 = (q, 0) /\ rep q (S k) ks.
Proof.
  intros Hr Ho. pose proof (rep_bound _ _ _ Hr Ho) as Hb. destruct (rep_odd _ _ _ Hr) as [Hod Hp]. apply Z.odd_spec in Hod as [h Hh].
  assert (2 ^ (64 - Z.of_nat (S (S k))) <= 2 ^ 62) by (apply Z.pow_le_mono_r; lia).
  rewrite shl_lo by lia. cbn [fst snd]. replace (2 ^ 2 * p) with (8 * h + 4) by lia. rewrite lxor_7 by lia. rewrite shr_lo by lia.
  replace ((8 * h + 3) / 2 ^ 1) with (1 + 2 * (p - 1)) by zdm. eexists. split; [reflexivity|]. clear h Hh Hb.
  inversion Hr as [|p' ? k' ks' Hk Hr']; subst; [apply rep_one|].
  replace (1 + 2 * (1 + 2 ^ (Z.of_nat k' - Z.of_nat (S (S k))) * p' - 1)) with (1 + 2 ^ (Z.of_nat k' - Z.of_nat (S k)) * p'); [apply rep_cons; [lia|done]|].
  replace (Z.of_nat k' - Z.of_nat (S k)) with (1 + (Z.of_nat k' - Z.of_nat (S (S k)))) by lia. rewrite Z.pow_add_r by lia. lia.
Qed.

(** *** The first loop *)
Record building (m : gmap Z Z) (h p : Z) (k : nat) (ks : list nat) : Prop := {
  bu_rep : rep p k ks;
  bu_kids : kids cmp (el m) h k;
  bu_loose : loose (el m) (h - L k) ks;
  bu_spaced : match ks with [] => True | k1 :: ks1 => spaced k1 ks1 end;
  bu_zero : k = 0%nat -> exists ks1, ks = 1%nat :: ks1;
  bu_last : h < nel
}.
Lemma building_orders m h p k ks : building m h p k ks -> orders_ok (k :: ks).
Proof.
  intros [_ _ Hl _ _ Hn]. destruct (loose_ge _ _ _ Hl) as (Hge & _ & Ho). pose proof (L_ge1 k). constructor; [lia|]. apply Ho. lia.
Qed.
(** The heaps before the current one, when that one is large enough. *)
Lemma building_forest m h p k ks :
  building m h p k ks -> nel - 1 - h + L k <= match ks with [] => nel | k1 :: _ => L (pred k1) end -> forest cmp (el m) (h - L k) ks.
Proof.
  intros [Hr _ Hl Hs _ _] Hn. destruct ks as [|k1 ks]; [done|]. apply loose_forest; [|done|lia|done].
  inversion Hr; subst. lia.
Qed.

(** The last two heaps and the next element become one heap. *)
Lemma merge_step m h p k ks :
  building m h p k (S k :: ks) -> h < nel - 1 ->
  exists m1 q, sift cmp w lp (adr h) (Z.of_nat k) m = Ret tt m1 /\ shr (p, 0) 2 = (q, 0) /\ evolves m m1 /\
    building m1 (h + 1) (Z.lor q 1) (S (S k)) ks.
Proof.
  intros [Hr Hk Hl Hs _ Hn] Hh. destruct (loose_ge _ _ _ Hl) as (Hge & _ & _).
  destruct (sift_ok h k m Hk Hge Hn) as (m1 & E1 & Hev & Hheap & Hout). destruct (merge_rep _ _ _ Hr Hs) as (q & Eq & Hr').
  exists m1, q. split; [done|]. split; [done|]. split; [done|].
  apply (loose_ext _ (el m1)) in Hl; [|intros i Hi; symmetry; apply Hout; lia]. destruct Hl as (Hl1 & _ & Hl2).
  split; [done| | |by destruct ks; [|destruct Hs]|done|lia].
  - replace (h - L k) with (h + 1 - 1 - L k) in Hl1 by lia. replace h with (h + 1 - 1) in Hheap by lia. exact (conj Hheap Hl1).
  - rewrite L_SS. by replace (h + 1 - (L k + L (S k) + 1)) with (h - L k - L (S k)) by lia.
Qed.

(** The last heap is completed; [fin]: it stays as it is. *)
Lemma settle_step m h p k ks :
  building m h p k ks -> (1 <= k)%nat -> spaced k ks ->
  exists m1, (if adr (nel - 1) - adr h <=? L (pred k) * w then trinkle ntz cmp w lp (adr h) (p, 0) (Z.of_nat k) false
              else sift cmp w lp (adr h) (Z.of_nat k)) m = Ret tt m1 /\ evolves m m1 /\ loose (el m1) h (k :: ks).
Proof.
  intros Hb Hk0 Hsp. pose proof (building_orders _ _ _ _ _ Hb) as Ho. pose proof Hb as [Hr Hk Hl _ _ Hn]. destruct (loose_ge _ _ _ Hl) as (Hge & _ & _).
  destruct (Z.leb_spec (adr (nel - 1) - adr h) (L (pred k) * w)) as [Hfin|Hfin].
  - assert (Hfin' : nel - 1 - h <= L (pred k)) by (unfold adr in Hfin; nia).
    destruct (trinkle_ok h p k ks false m Hr Ho Hk) as (m1 & E1 & Hev & Hfo & _); [done| |done|].
    { apply (building_forest _ _ _ _ _ Hb). pose proof (L_ge1 k). destruct ks as [|k1 ks]; [lia|]. destruct Hsp as [Hsp _]. destruct k as [|k]; [lia|]. cbn [pred] in *.
      pose proof (L_mono (S (S k)) (pred k1) ltac:(lia)) as HL. rewrite L_SS in HL. lia. }
    exists m1. split; [done|]. split; [done|]. by apply forest_loose.
  - destruct (sift_ok h k m Hk Hge Hn) as (m1 & E1 & Hev & Hheap & Hout). exists m1. split; [done|]. split; [done|].
    split; [done|]. split; [intros ?; unfold adr in Hfin; nia|]. apply (loose_ext (el m)); [|done]. intros i Hi. symmetry. apply Hout. lia.
Qed.

(** A new heap of one element. *)
Lemma grow_step m m1 h p k ks :
  building m h p k ks -> spaced k ks -> (1 <= k)%nat -> loose (el m1) h (k :: ks) -> h < nel - 1 ->
  exists q k', (if Z.of_nat k =? 1 then (shl (p, 0) 1, 0) else (shl (p, 0) (Z.of_nat k - 1), 1)) = ((q, 0), Z.of_nat k') /\
    building m1 (h + 1) (Z.lor q 1) k' (k :: ks).
Proof.
  intros Hb Hsp Hk0 Hl1 Hh. set (k' := if (k =? 1)%nat then 0%nat else 1%nat).
  assert (Hk' : (k' < k)%nat) by (unfold k'; destruct (Nat.eqb_spec k 1); lia).
  destruct (shl_rep p k k' ks (bu_rep _ _ _ _ _ Hb) (building_orders _ _ _ _ _ Hb) Hk') as (q & Hq & Hr').
  exists q, k'. split.
  { rewrite <- Hq. unfold k'. destruct (Nat.eqb_spec k 1) as [E'|E'], (Z.eqb_spec (Z.of_nat k) 1); try lia; do 2 f_equal; lia. }
  assert (L k' = 1) as HL by (unfold k'; by destruct (k =? 1)%nat).
  split; [done|unfold k'; by destruct (k =? 1)%nat|by rewrite HL; replace (h + 1 - 1) with h by lia|done| |lia].
  unfold k'. destruct (Nat.eqb_spec k 1) as [->|]; [intros _; by exists ks|done].
Qed.

Lemma build_loop_run fuel m h p k ks :
  building m h p k ks -> nel - 1 - h < Z.of_nat fuel ->
  exists m' p' k' ks', build_loop ntz cmp w lp fuel (adr h) (adr (nel - 1)) (p, 0) (Z.of_nat k) m =
      Ret (adr (nel - 1), (p', 0), Z.of_nat k') m' /\ evolves m m' /\ building m' (nel - 1) p' k' ks'.
Proof.
  revert m h p k ks. induction fuel as [|fuel IH]; intros m h p k ks Hb Hf; [pose proof (bu_last _ _ _ _ _ Hb); lia|]. cbn [build_loop].
  pose proof Hb as [Hr _ Hl Hs Hz Hn]. destruct (loose_ge _ _ _ Hl) as (Hge & _ & _). pose proof (L_ge1 k).
  destruct (Z.ltb_spec (adr h) (adr (nel - 1))) as [Hlt|Hge'].
  2: { assert (h = nel - 1) as -> by (unfold adr in Hge'; nia). exists m, p, k, ks. split; [done|]. split; [apply evolves_refl|done]. }
  assert (Hh : h < nel - 1) by (unfold adr in Hlt; nia). cbn [fst]. rewrite (land3_rep _ _ _ Hr).
  replace (adr h + w) with (adr (h + 1)) by (unfold adr; lia).
  assert (Hgo : forall m1 p1 k1 ks1, evolves m m1 -> building m1 (h + 1) p1 k1 ks1 ->
    exists m' p' k' ks', build_loop ntz cmp w lp fuel (adr (h + 1)) (adr (nel - 1)) (p1, 0) (Z.of_nat k1) m1 =
      Ret (adr (nel - 1), (p', 0), Z.of_nat k') m' /\ evolves m m' /\ building m' (nel - 1) p' k' ks').
  { intros m1 p1 k1 ks1 Hev Hb1. destruct (IH m1 (h + 1) p1 k1 ks1 Hb1 ltac:(lia)) as (m' & p' & k' & ks' & E & Hev' & Hb').
    exists m', p', k', ks'. split; [exact E|]. split; [by eapply evolves_trans|done]. }
  destruct (match ks with [] => false | k' :: _ => (k' =? S k)%nat end) eqn:E3.
  - destruct ks as [|k1 ks]; [done|]. apply Nat.eqb_eq in E3 as ->. destruct (merge_step _ _ _ _ _ Hb Hh) as (m1 & q & E1 & -> & Hev & Hb1).
    rewrite (bind_ret _ _ _ _ _ E1). cbn [fst snd]. replace (Z.of_nat k + 2) with (Z.of_nat (S (S k))) by lia. by apply (Hgo m1 _ _ ks).
  - assert (Hk0 : (1 <= k)%nat) by (destruct k; [destruct (Hz eq_refl) as [? ->]; done|lia]).
    assert (Hsp : spaced k ks).
    { destruct ks as [|k1 ks]; [done|]. apply Nat.eqb_neq in E3. inversion Hr; subst. split; [lia|done]. }
    assert (Hp : L (pred k) <= nel) by (pose proof (L_mono (pred k) k ltac:(lia)); lia).
    replace (lp_at lp (Z.of_nat k - 1)) with (lp_at lp (Z.of_nat (pred k))) by (f_equal; lia).
    rewrite (bind_ret _ _ _ _ _ (lp_at_ok _ m Hp)).
    destruct (settle_step _ _ _ _ _ Hb Hk0 Hsp) as (m1 & E1 & Hev & Hl1). rewrite (bind_ret _ _ _ _ _ E1).
    destruct (grow_step _ _ _ _ _ _ Hb Hsp Hk0 Hl1 Hh) as (q & k' & -> & Hb1). by apply (Hgo m1 _ _ (k :: ks)).
Qed.

(** *** The second loop *)
Definition sorted_from (a : Z -> list Z) (h : Z) : Prop := forall i j, 0 <= i < j -> h < j < nel -> le cmp (a i) (a j).
Record popping (m : gmap Z Z) (h p : Z) (k : nat) (ks : list nat) : Prop := {
  po_rep : rep p k ks;
  po_forest : forest cmp (el m) h (k :: ks);
  po_sorted : sorted_from (el m) h;
  po_zero : k = 0%nat -> ks <> [];
  po_last : h < nel
}.
Lemma popping_orders m h p k ks : popping m h p k ks -> orders_ok (k :: ks).
Proof. intros [_ Hf _ _ Hn]. by apply (loose_ge (el m) h); [apply forest_loose|]. Qed.

(** The root of the last heap is the largest. *)
Lemma sorted_root a h ks : forest cmp a h ks -> sorted_from a h -> sorted_from a (h - 1).
Proof.
  intros Hf Hs i j Hi Hj. destruct (Z.eq_dec j h) as [->|]; [|apply Hs; lia]. apply (forest_max cmp Hc a h ks i Hf). lia.
Qed.
Lemma sorted_keep a b h :
  sorted_from a (h - 1) -> (forall i, h <= i -> b i = a i) -> (forall i, 0 <= i < h -> exists j, 0 <= j < h /\ b i = a j) -> sorted_from b (h - 1).
Proof.
  intros Hs H1 H2 i j Hi Hj. rewrite (H1 j) by lia. destruct (Z_lt_ge_dec i h) as [Hlt|Hge]; [|rewrite (H1 i) by lia; by apply Hs].
  destruct (H2 i) as (i' & Hi' & ->); [lia|]. apply Hs; lia.
Qed.

(** A heap of one element is dropped. *)
Lemma drop_step m h p k k' ks :
  popping m h p k (k' :: ks) -> L k = 1 ->
  exists q, pntz ntz (p, 0) = Z.of_nat k' - Z.of_nat k /\ shr (p, 0) (Z.of_nat k' - Z.of_nat k) = (q, 0) /\ popping m (h - 1) q k' ks.
Proof.
  intros Hp HL. destruct (pntz_rep _ _ _ _ (po_rep _ _ _ _ _ Hp) (popping_orders _ _ _ _ _ Hp)) as (H1 & q & H2 & H3).
  pose proof Hp as [Hr Hf Hs _ Hn]. exists q. split; [done|]. split; [done|]. split; [done| |by eapply sorted_root| |lia].
  - destruct Hf as (_ & _ & Hf). by rewrite HL in Hf.
  - inversion Hr; subst. lia.
Qed.

(** A larger heap is split in two. *)
Lemma split_step m h p k ks :
  popping m h p (S (S k)) ks ->
  exists q q' m1 m2, shr (Z.lxor (shl (p, 0) 2).1 7, (shl (p, 0) 2).2) 1 = (q, 0) /\
    trinkle ntz cmp w lp (adr (h - 1 - L k)) (q, 0) (Z.of_nat (S k)) true m = Ret tt m1 /\
    shl (q, 0) 1 = (q', 0) /\
    trinkle ntz cmp w lp (adr (h - 1)) (Z.lor q' 1, 0) (Z.of_nat k) true m1 = Ret tt m2 /\
    evolves m m2 /\ popping m2 (h - 1) (Z.lor q' 1) k (S k :: ks).
Proof.
  intros Hp. pose proof (popping_orders _ _ _ _ _ Hp) as Ho. pose proof Hp as [Hr Hf Hs _ Hn].
  destruct (split_rep _ _ _ Hr Ho) as (q & Eq & Hq). pose proof (sorted_root _ _ _ Hf Hs) as Hs'.
  pose proof Hf as (Hh & _ & Hf'). rewrite heap_SS in Hh. destruct Hh as (_ & _ & Hh1 & Hh2). pose proof (L_ge1 k). pose proof (L_ge1 (S k)).
  rewrite L_SS in Hf'. replace (h - (L k + L (S k) + 1)) with (h - 1 - L k - L (S k)) in Hf' by lia. destruct (forest_ge _ _ _ _ Hf') as [Hge _].
  assert (Ho1 : orders_ok (S k :: ks)) by (apply Forall_cons in Ho as [HL Ho]; rewrite L_SS in HL; constructor; [lia|done]).
  destruct (trinkle_ok (h - 1 - L k) q (S k) ks true m Hq Ho1) as (m1 & E1 & V1 & F1 & O1 & G1); [by apply heap_kids in Hh2 as [? _]|done|done|lia|].
  destruct (shl_rep q (S k) k ks Hq Ho1 ltac:(lia)) as (q' & Eq' & Hq').
  assert (Ho2 : orders_ok (k :: S k :: ks)) by (constructor; [lia|done]).
  assert (Hh1' : heap cmp (el m1) (h - 1) k) by (apply (heap_ext cmp (el m)); [intros i Hi; symmetry; apply O1; lia|done]).
  destruct (trinkle_ok (h - 1) (Z.lor q' 1) k (S k :: ks) true m1 Hq' Ho2) as (m2 & E2 & V2 & F2 & O2 & G2); [by apply heap_kids in Hh1' as [? _]|done|done|lia|].
  exists q, q', m1, m2. split; [done|]. split; [done|]. split; [by replace 1 with (Z.of_nat (S k) - Z.of_nat k) by lia|]. split; [done|].
  split; [by eapply evolves_trans|]. split; [done|done| |done|lia]. apply (sorted_keep (el m)); [done|intros i Hi; rewrite O2 by lia; apply O1; lia|].
  intros i Hi. destruct (G2 i) as (j & Hj & ->); [lia|]. destruct (Z_lt_ge_dec (h - 1 - L k) j); [exists j; split; [lia|apply O1; lia]|].
  destruct (G1 j) as (j' & Hj' & ->); [lia|]. exists j'. split; [lia|done].
Qed.

Lemma pop_loop_run fuel m h p k ks :
  popping m h p k ks -> h < Z.of_nat fuel ->
  exists m', pop_loop ntz cmp w lp fuel (adr h) (p, 0) (Z.of_nat k) m = Ret tt m' /\ evolves m m' /\ sorted_from (el m') 0.
Proof.
  revert m h p k ks. induction fuel as [|fuel IH]; intros m h p k ks Hp Hf; [destruct (forest_ge _ _ _ _ (po_forest _ _ _ _ _ Hp)) as [_ Hge]; specialize (Hge ltac:(done)); lia|].
  cbn [pop_loop fst snd]. destruct (negb (Z.of_nat k =? 1) || negb (p =? 1) || negb (0 =? 0)) eqn:Ec.
  2: { change (negb (0 =? 0)) with false in Ec. rewrite orb_false_r in Ec. apply orb_false_iff in Ec as [E1%negb_false_iff%Z.eqb_eq E2%negb_false_iff%Z.eqb_eq].
       exists m. split; [done|]. split; [apply evolves_refl|]. pose proof Hp as [Hr Hfo Hs _ _].
       inversion Hr as [|p' ? k' ks' Hk Hr' Ep]; subst.
       - assert (k = 1%nat) as -> by lia. destruct Hfo as (_ & _ & Hfo). cbn in Hfo. change (L 1) with 1 in Hfo. by replace h with 0 in Hs by lia.
       - destruct (rep_odd _ _ _ Hr') as [_ ?]. assert (0 < 2 ^ (Z.of_nat k' - Z.of_nat k)) by (apply Z.pow_pos_nonneg; lia). nia. }
  replace (adr h - w) with (adr (h - 1)) by (unfold adr; lia).
  destruct k as [|[|k]].
  1, 2: destruct ks as [|k' ks];
    [try (by destruct (po_zero _ _ _ _ _ Hp)); pose proof (po_rep _ _ _ _ _ Hp) as Hr; inversion Hr; subst; discriminate Ec|].
  1, 2: destruct (drop_step _ _ _ _ _ _ Hp eq_refl) as (q & -> & -> & Hp');
    match goal with |- context [?a <=? 1] => destruct (Z.leb_spec a 1); [|lia] end;
    match goal with |- context [pop_loop _ _ _ _ _ _ (q, 0) ?x] => replace x with (Z.of_nat k') by lia end; by apply (IH m (h - 1) q k' ks Hp'); lia.
  destruct (Z.leb_spec (Z.of_nat (S (S k))) 1); [lia|].
  destruct (split_step _ _ _ _ _ Hp) as (q & q' & m1 & m2 & -> & E1 & E2 & E3 & Hev & Hp').
  pose proof (popping_orders _ _ _ _ _ Hp') as [Hk _]%Forall_cons. replace (Z.of_nat (S (S k)) - 2) with (Z.of_nat k) by lia.
  rewrite (bind_ret _ _ _ _ _ (lp_at_ok k m Hk)). replace (adr h - L k * w - w) with (adr (h - 1 - L k)) by (unfold adr; lia).
  replace (Z.of_nat k + 1) with (Z.of_nat (S k)) by lia. rewrite (bind_ret _ _ _ _ _ E1), E2. cbn [fst snd]. rewrite (bind_ret _ _ _ _ _ E3).
  destruct (IH m2 (h - 1) _ k (S k :: ks) Hp' ltac:(lia)) as (m' & E & Hev' & Hs). exists m'. split; [exact E|]. split; [by eapply evolves_trans|done].
Qed.

Lemma sort_run m : 0 < nel ->
  exists m', (let* r := build_loop ntz cmp w lp (S (Z.to_nat nel)) base (adr (nel - 1)) (1, 0) 1 in
    let '(head, p, pshift) := r in
    trinkle ntz cmp w lp head p pshift false ;;; pop_loop ntz cmp w lp (S (Z.to_nat nel)) head p pshift) m = Ret tt m' /\
    evolves m m' /\ sorted_from (el m') 0.
Proof.
  intros Hn. destruct (build_loop_run (S (Z.to_nat nel)) m 0 1 1 []) as (m1 & p & k & ks & E1 & V1 & Hb).
  { split; [apply rep_one|done|done|done|done|done]. } { lia. }
  replace (adr 0) with base in E1 by (unfold adr; lia). rewrite (bind_ret _ _ _ _ _ E1).
  pose proof Hb as [Hr Hk Hl _ Hz _]. pose proof (building_orders _ _ _ _ _ Hb) as Ho. pose proof (L_ge1 k).
  destruct (trinkle_ok (nel - 1) p k ks false m1 Hr Ho Hk) as (m2 & E2 & V2 & F2 & _); [done| |lia|].
  { apply (building_forest _ _ _ _ _ Hb). destruct (loose_ge _ _ _ Hl) as (? & _ & _). destruct ks as [|k1 ks]; [lia|]. inversion Hr; subst.
    pose proof (L_mono k (pred k1) ltac:(lia)). lia. }
  rewrite (bind_ret _ _ _ _ _ E2). destruct (pop_loop_run (S (Z.to_nat nel)) m2 (nel - 1) p k ks) as (m3 & E3 & V3 & S3); [|lia|].
  { split; [done|done|intros i j Hi Hj; lia| |lia]. intros E0. destruct (Hz E0) as [? ->]. done. }
  exists m3. split; [exact E3|]. split; [|done]. eapply evolves_trans; [done|]. by eapply evolves_trans.
Qed.
End Array.

Lemma map_sorted {A} (R : A -> A -> Prop) (a : Z -> A) s n :
  StronglySorted R (map a (seqZ s n)) <-> forall i j, s <= i < j -> j < s + n -> R (a i) (a j).
Proof.
  remember (Z.to_nat n) as l eqn:El. revert s n El. induction l as [|l IH]; intros s n El.
  - rewrite seqZ_nil by lia. split; [lia|constructor].
  - rewrite seqZ_cons by lia. cbn [map]. split.
    + intros [H1 H2]%StronglySorted_inv i j Hi Hj. rewrite (IH (Z.succ s) (Z.pred n) ltac:(lia)) in H1. destruct (Z.eq_dec i s) as [->|]; [|apply H1; lia].
      rewrite Forall_fmap, Forall_seqZ in H2. apply H2. lia.
    + intros H. constructor; [apply (IH (Z.succ s) (Z.pred n)); [lia|]; intros i j Hi Hj; apply H; lia|].
      apply Forall_fmap, Forall_seqZ. intros k Hk. apply H; lia.
Qed.

(** ** The Leonardo numbers of [__qsort_r] *)
Definition leo (w : Z) (n : nat) : list Z := map (fun k => L k * w) (seq 0 n).

Lemma lp_loop_run fuel w size i m :
  0 < w <= size -> size <= 2 ^ 62 -> L (S i) * w <= size -> (S (S i) + fuel = 96)%nat ->
  exists n, lp_loop fuel w size (leo w (S (S i))) (L i * w) (L (S i) * w) m = Ret (leo w (S (S n))) m /\ (1 <= n)%nat /\ size <= L (S n) * w.
Proof.
  intros Hw Hs. revert i. induction fuel as [|fuel IH]; intros i Hi Hf.
  - assert (i = 94%nat) as -> by lia. assert (HL : 2 ^ 62 < L 95) by (vm_compute; reflexivity).
    assert (L 95 * 1 <= L 95 * w) by (apply Z.mul_le_mono_nonneg_l; lia). lia.
  - cbn [lp_loop]. pose proof (L_ge1 i). pose proof (L_S i).
    assert (Hz : u64 (u64 (L i * w + L (S i) * w) + w) = L (S (S i)) * w).
    { assert (0 <= L i * w <= L (S i) * w) by nia. rewrite L_SS. rewrite (u64_id (L i * w + L (S i) * w)) by lia. rewrite u64_id by lia. lia. }
    rewrite Hz. assert (El : leo w (S (S i)) ++ [L (S (S i)) * w] = leo w (S (S (S i)))) by (unfold leo; by rewrite (seq_S (S (S i)) 0), map_app).
    rewrite El. destruct (Z.ltb_spec (L (S (S i)) * w) size) as [Hlt|Hge].
    + apply IH; lia.
    + exists (S i). split; [done|]. split; [lia|done].
Qed.

Lemma leo_lookup w n k nel : 0 < w -> (1 <= n)%nat -> nel * w <= L (S n) * w -> L k <= nel -> leo w (S (S n)) !! k = Some (L k * w).
Proof.
  intros Hw Hn Hs Hk. unfold leo. rewrite list_lookup_fmap. destruct (Nat.lt_ge_cases k (S (S n))) as [Hlt|Hge].
  - by rewrite lookup_seq_lt.
  - pose proof (L_mono (S (S n)) k Hge) as HL. rewrite L_SS in HL. pose proof (L_ge1 n). nia.
Qed.

(** The objects of an array. *)
Definition elements (base width nel : Z) (m : gmap Z Z) : list (list Z) := map (el base width m) (seqZ 0 nel).
(** What the instruction behind [a_ctz_l] does; the result for 0 is left open. *)
Definition counts_zeros (ntz : Z -> Z) : Prop :=
  forall n y, 0 <= n -> Z.odd y = true -> 0 < 2 ^ n * y < 2 ^ 64 -> ntz (2 ^ n * y) = n.

Lemma qsort_run ntz cmp base nel width m :
  counts_zeros ntz -> consistent cmp -> 0 < width -> 0 <= nel <= 2 ^ 44 -> width * nel <= 2 ^ 62 ->
  exists m', qsort ntz base nel width cmp m = Ret tt m' /\ elements base width nel m' ≡ₚ elements base width nel m /\
    StronglySorted (le cmp) (elements base width nel m') /\ forall x, x < base \/ base + nel * width <= x -> ld8 m' x = ld8 m x.
Proof.
  intros Hz Hc Hw Hn Hs. unfold qsort, __qsort_r. rewrite u64_id by nia.
  destruct (Z.eqb_spec (width * nel) 0) as [H0|H0].
  { exists m. split; [done|]. split; [done|]. split; [|done]. assert (nel = 0) as -> by nia. constructor. }
  assert (Hpos : 1 <= nel) by (destruct (Z.eq_dec nel 0) as [->|]; lia). assert (width * 1 <= width * nel) by (apply Z.mul_le_mono_nonneg_l; lia).
  destruct (lp_loop_run 94 width (width * nel) 0 m) as (n & E & Hn1 & Hn2); [lia|done|change (L 1) with 1; lia|done|].
  change (L 0 * width) with (1 * width) in E. change (L 1 * width) with (1 * width) in E. rewrite !Z.mul_1_l in E.
  change (leo width 2) with [L 0 * width; L 1 * width] in E. change (L 0) with 1 in E. change (L 1) with 1 in E. rewrite !Z.mul_1_l in E.
  rewrite (bind_ret _ _ _ _ _ E).
  destruct (sort_run base width Hw ntz Hz cmp nel ltac:(lia) (leo width (S (S n)))) with (m := m) as (m' & E' & [V1 V2] & Hso); [|done|lia|].
  { intros k Hk. apply (leo_lookup width n k nel); [done|done|lia|done]. }
  exists m'. split.
  - replace (base + width * nel - width) with (adr base width (nel - 1)) by (unfold adr; lia). exact E'.
  - split; [done|]. split; [|done]. apply map_sorted. intros i j Hi Hj. apply Hso; lia.
Qed.

(** ** bsearch *)
Section Bsearch.
Context (base w : Z) (Hw : 0 < w) (cmp : list Z -> Z) (m : gmap Z Z) (nel : Z).
Let e := el base w m.
(** The objects that the key is above, then the equal ones, then the rest. *)
Context (H1 : forall i j, 0 <= i < j -> j < nel -> cmp (e i) < 0 -> cmp (e j) < 0).
Context (H2 : forall i j, 0 <= i < j -> j < nel -> 0 < cmp (e j) -> 0 < cmp (e i)).

Lemma bsearch_loop_run fuel lo n :
  n < Z.of_nat fuel -> 0 <= n -> 0 <= lo -> lo + n <= nel ->
  (forall k, 0 <= k < nel -> cmp (e k) = 0 -> lo <= k < lo + n) ->
  exists r, bsearch_loop fuel cmp (adr base w lo) n w m = Ret r m /\
    match r with
    | Some a => exists k, 0 <= k < nel /\ a = adr base w k /\ cmp (e k) = 0
    | None => forall k, 0 <= k < nel -> cmp (e k) <> 0
    end.
Proof.
  revert lo n. induction fuel as [|fuel IH]; intros lo n Hf Hn Hlo Hhi Hin; [lia|]. cbn [bsearch_loop].
  destruct (Z.ltb_spec 0 n) as [Hpos|Hpos].
  2: { exists None. split; [done|]. intros k Hk Hz. specialize (Hin k Hk Hz). lia. }
  set (c := n / 2). assert (Hc : 0 <= c < n) by (unfold c; zdm).
  replace (adr base w lo + w * c) with (adr base w (lo + c)) by (unfold adr; lia). unfold bind, gets.
  change (bytes (Z.to_nat w) m (adr base w (lo + c))) with (e (lo + c)).
  destruct (Z.ltb_spec (cmp (e (lo + c))) 0) as [Hlt|Hge]; [|destruct (Z.ltb_spec 0 (cmp (e (lo + c)))) as [Hgt|Hle]].
  - apply IH; [lia|lia|lia|lia|]. intros k Hk Hz. specialize (Hin k Hk Hz).
    destruct (Z_lt_ge_dec k (lo + c)); [lia|]. destruct (Z.eq_dec k (lo + c)) as [->|]; [lia|]. specialize (H1 (lo + c) k ltac:(lia) ltac:(lia) Hlt). lia.
  - replace (adr base w (lo + c) + w) with (adr base w (lo + c + 1)) by (unfold adr; lia).
    apply IH; [lia|lia|lia|lia|]. intros k Hk Hz. specialize (Hin k Hk Hz).
    destruct (Z_lt_ge_dec k (lo + c)); [specialize (H2 k (lo + c) ltac:(lia) ltac:(lia) Hgt); lia|]. destruct (Z.eq_dec k (lo + c)) as [->|]; lia.
  - exists (Some (adr base w (lo + c))). split; [done|]. exists (lo + c). split; [lia|]. split; [done|lia].
Qed.
End Bsearch.

Lemma sorted_search cmp (a : Z -> list Z) key nel :
  consistent cmp -> StronglySorted (le cmp) (map a (seqZ 0 nel)) ->
  (forall i j, 0 <= i < j -> j < nel -> cmp key (a i) < 0 -> cmp key (a j) < 0) /\
  (forall i j, 0 <= i < j -> j < nel -> 0 < cmp key (a j) -> 0 < cmp key (a i)).
Proof.
  intros Hc Hs. rewrite map_sorted in Hs. split; intros i j Hi Hj Hk; specialize (Hs i j Hi Hj).
  - destruct (Z_lt_ge_dec (cmp key (a j)) 0) as [|Hge]; [done|]. pose proof (ge_le cmp Hc key (a j) ltac:(lia)) as Hl.
    pose proof (le_trans cmp Hc _ _ _ Hs Hl) as Hl'. apply (cmp_opp cmp Hc) in Hl'. lia.
  - destruct (Z_lt_ge_dec 0 (cmp key (a i))) as [|Hge]; [done|]. pose proof (le_trans cmp Hc key (a i) (a j) ltac:(unfold le; lia) Hs). unfold le in *. lia.
Qed.

(** ** Properties *)

(** C34: [qsort] sorts: with a comparison that is consistent in the sense of
    the C standard it returns, the objects of the array are then in order
    and the same as before, and no byte outside the array is changed.  Its
    arrays of pointers and of Leonardo numbers are never left.  Arrays have up
    to 2^44 elements; for an even larger forest [pntz] would rely on the
    value of a bit scan of 0. *)
Theorem qsort_sorts (ntz : Z -> Z) (cmp : list Z -> list Z -> Z) base nel width (m : gmap Z Z) :
  counts_zeros ntz -> consistent cmp -> 0 < width -> 0 <= nel <= 2 ^ 44 -> width * nel <= 2 ^ 62 ->
  exists m', qsort ntz base nel width cmp m = Ret tt m' /\ elements base width nel m' ≡ₚ elements base width nel m /\
    StronglySorted (le cmp) (elements base width nel m') /\ forall x, x < base \/ base + nel * width <= x -> ld8 m' x = ld8 m x.
Proof. apply qsort_run. Qed.

(** [bsearch] on a sorted array finds an object that compares equal to the
    key when there is one, and returns a null pointer when there is none. *)
Theorem bsearch_finds (cmp : list Z -> list Z -> Z) key base nel width (m : gmap Z Z) :
  consistent cmp -> 0 < width -> 0 <= nel -> StronglySorted (le cmp) (elements base width nel m) ->
  exists r, bsearch (cmp key) base nel width m = Ret r m /\
    match r with
    | Some a => exists k, 0 <= k < nel /\ a = base + k * width /\ cmp key (bytes (Z.to_nat width) m a) = 0
    | None => forall x, x ∈ elements base width nel m -> cmp key x <> 0
    end.
Proof.
  intros Hc Hw Hn Hs. destruct (sorted_search cmp _ key nel Hc Hs) as [H1 H2].
  destruct (bsearch_loop_run base width (cmp key) m nel H1 H2 (S (Z.to_nat nel)) 0 nel) as (r & E & Hr); [lia|lia|lia|lia|lia|].
  exists r. split; [by unfold adr in E; rewrite Z.mul_0_l, Z.add_0_r in E|]. destruct r as [a|].
  - destruct Hr as (k & Hk & -> & Ez). by exists k.
  - intros x (k & -> & Hk%elem_of_seqZ)%list_elem_of_fmap. apply Hr. lia.
Qed.

(** A count of trailing zeros and the order of the first byte. *)
Fixpoint ctz_loop (n : nat) (x : Z) : Z :=
  match n with O => 0 | S n' => if Z.odd x then 0 else 1 + ctz_loop n' (x / 2) end.
Definition ctz (x : Z) : Z := ctz_loop 64 x.
Definition first_byte (a b : list Z) : Z := hd 0 a - hd 0 b.

Lemma ctz_loop_spec n k y : (k < n)%nat -> Z.odd y = true -> ctz_loop n (2 ^ Z.of_nat k * y) = Z.of_nat k.
Proof.
  intros Hk Hy. revert k Hk. induction n as [|n IH]; intros k Hk; [lia|]. cbn [ctz_loop]. destruct k as [|k].
  - rewrite Z.mul_1_l, Hy. done.
  - replace (2 ^ Z.of_nat (S k) * y) with (2 * (2 ^ Z.of_nat k * y)) by (rewrite Nat2Z.inj_succ, Z.pow_succ_r by lia; lia).
    rewrite Z.odd_mul. cbn [Z.odd andb]. rewrite (Z.mul_comm 2), Z.div_mul by lia. rewrite IH by lia. lia.
Qed.
Lemma ctz_counts : counts_zeros ctz.
Proof.
  intros n y Hn Hy Hb. assert (0 < 2 ^ n) by (apply Z.pow_pos_nonneg; lia).
  assert (2 ^ n * 1 <= 2 ^ n * y) by (apply Z.mul_le_mono_nonneg_l; nia).
  assert (n < 64) by (apply (Z.pow_lt_mono_r_iff 2); lia).
  unfold ctz. rewrite <- (Z2Nat.id n) by lia. apply ctz_loop_spec; [lia|done].
Qed.
Lemma first_byte_consistent : consistent first_byte.
Proof. split; unfold first_byte; lia. Qed.

Definition some_array : gmap Z Z := put ∅ 100 [9; 0; 3; 1; 7; 2; 200; 3; 3; 4].

Lemma qsort_sorts_witness :
  exists m', qsort ctz 100 5 2 first_byte some_array = Ret tt m' /\
    elements 100 2 5 m' ≡ₚ elements 100 2 5 some_array /\ StronglySorted (le first_byte) (elements 100 2 5 m').
Proof.
  destruct (qsort_sorts ctz first_byte 100 5 2 some_array) as (m' & E & Hp & Hs & _).
  - exact ctz_counts.
  - exact first_byte_consistent.
  - lia.
  - lia.
  - lia.
  - exists m'. split; [exact E|]. split; [exact Hp|exact Hs].
Defined.

Definition sorted_array : gmap Z Z := put ∅ 100 [3; 1; 3; 4; 7; 2; 9; 0; 200; 3].

Lemma bsearch_finds_witness :
  exists r, bsearch (first_byte [7]) 100 5 2 sorted_array = Ret r sorted_array /\ r <> None.
Proof.
  destruct (bsearch_finds first_byte [7] 100 5 2 sorted_array) as (r & E & Hr).
  - exact first_byte_consistent.
  - lia.
  - lia.
  - assert (elements 100 2 5 sorted_array = [[3; 1]; [3; 4]; [7; 2]; [9; 0]; [200; 3]]) as -> by (vm_compute; reflexivity).
    repeat constructor; unfold le, first_byte; cbn; lia.
  - exists r. split; [exact E|]. vm_compute in E. injection E as <-. discriminate.
Defined.

End Qsort.
