(* ===== verification/Search.v ===== *)
(** Tables and lists of musl src/search: the hash table (hsearch.c), linear
    search (lsearch.c) and doubly linked lists (insque.c). *)

From stdpp Require Import base tactics list gmap numbers option sorting.
From Stdlib Require Import ZArith Lia.
From S2P Require Import Prelude Mem Qsort.

#[local] Open Scope Z_scope.

(** ** The hash table *)
Module Hsearch.
Import Prelude.

(** A key is the string it points to. *)
Record ENTRY := mkENTRY { key : list Z; data : Z }.
Inductive ACTION : Set := FIND | ENTER.

(** The array [entries]; a place whose key is a null pointer is [None], and a
    null pointer in place of the array is the empty list. *)
Record __tab := mkTab { entries : list (option ENTRY); mask : Z; used : Z }.

Definition MINSIZE : Z := 8.
Definition MAXSIZE : Z := (2 ^ 64 - 1) / 2 + 1.

Definition keyhash (k : list Z) : Z := foldl (fun h c => u64 (31 * h + c)) 0 k.

(** [entries + (i & mask)] *)
Definition place_of (i mask : Z) : nat := Z.to_nat (Z.land i mask).

(** [for (i=hash,j=1; ; i+=j++)] until [stop] holds; [None]: out of fuel. *)
Fixpoint probe_loop (fuel : nat) (stop : option ENTRY -> bool) (es : list (option ENTRY)) (mask i j : Z) : option nat :=
  match fuel with
  | O => None
  | S f =>
    let e := place_of i mask in
    if stop (default None (es !! e)) then Some e else probe_loop f stop es mask (u64 (i + j)) (u64 (j + 1))
  end.

(** [!e->key || strcmp(e->key, key) == 0] *)
Definition free_or (k : list Z) (e : option ENTRY) : bool :=
  match e with None => true | Some e => bool_decide (key e = k) end.
Definition free (e : option ENTRY) : bool := match e with None => true | Some _ => false end.

(** There are as many places to try as the table has. *)
Definition lookup (k : list Z) (hash : Z) (t : __tab) : option nat :=
  probe_loop (length (entries t)) (free_or k) (entries t) (mask t) hash 1.

(** [for (newsize = MINSIZE; newsize < nel; newsize *= 2);] *)
Fixpoint newsize_loop (fuel : nat) (nel newsize : Z) : option Z :=
  match fuel with
  | O => None
  | S f => if newsize <? nel then newsize_loop f nel (u64 (newsize * 2)) else Some newsize
  end.

(** [for (e = oldtab; e < oldend; e++) if (e->key) ...] *)
Fixpoint rehash_loop (old : list (option ENTRY)) (mask : Z) (es : list (option ENTRY)) : option (list (option ENTRY)) :=
  match old with
  | [] => Some es
  | None :: old' => rehash_loop old' mask es
  | Some e :: old' =>
    match probe_loop (length es) free es mask (keyhash (key e)) 1 with
    | Some newe => rehash_loop old' mask (<[newe := Some e]> es)
    | None => None
    end
  end.

(** [ok]: whether [calloc] succeeds.  The result is the answer and the table. *)
Definition resize (ok : bool) (nel : Z) (t : __tab) : option (Z * __tab) :=
  let nel := if MAXSIZE <? nel then MAXSIZE else nel in
  match newsize_loop 64 nel MINSIZE with
  | None => None
  | Some newsize =>
    if negb ok then Some (0, t)
    else
      let es := replicate (Z.to_nat newsize) None in
      match entries t with
      | [] => Some (1, mkTab es (newsize - 1) (used t))
      | old =>
        match rehash_loop old (newsize - 1) es with
        | Some es => Some (1, mkTab es (newsize - 1) (used t))
        | None => None
        end
      end
  end.

(** [htab->__tab], a null pointer before [hcreate] and after [hdestroy];
    [ok1] and [ok2] are the answers to the two allocations. *)
Definition __hcreate_r (ok1 ok2 : bool) (nel : Z) : option (Z * option __tab) :=
  if negb ok1 then Some (0, None)
  else
    match resize ok2 nel (mkTab [] 0 0) with
    | None => None
    | Some (r, t) => Some (r, if r =? 0 then None else Some t)
    end.
Definition __hdestroy_r (htab : option __tab) : option __tab := None.

(** The result is the answer, [*retval] and the table. *)
Definition __hsearch_r (ok : bool) (item : ENTRY) (action : ACTION) (t : __tab) : option (Z * option nat * __tab) :=
  let hash := keyhash (key item) in
  match lookup (key item) hash t with
  | None => None
  | Some e =>
    match default None (entries t !! e) with
    | Some _ => Some (1, Some e, t)
    | None =>
      match action with
      | FIND => Some (0, None, t)
      | ENTER =>
        let t := mkTab (<[e := Some item]> (entries t)) (mask t) (u64 (used t + 1)) in
        if mask t - mask t / 4 <? used t then
          match resize ok (u64 (2 * used t)) t with
          | None => None
          | Some (r, t') =>
            if r =? 0 then
              Some (0, None, mkTab (<[e := None]> (entries t')) (mask t') (used t' - 1))
            else
              match lookup (key item) hash t' with
              | None => None
              | Some e => Some (1, Some e, t')
              end
          end
        else Some (1, Some e, t)
      end
    end
  end.

(** *** Probing

    The [t]-th place tried for a hash value, in a table of [2 ^ n] places. *)
Section Probe.
Context (n : Z) (Hn : 0 <= n <= 63).
Definition tri (t : Z) : Z := t * (t + 1) / 2.
Definition probe (h t : Z) : nat := Z.to_nat ((h + tri t) mod 2 ^ n).

Lemma tri_double t : 2 * tri t = t * (t + 1).
Proof.
  unfold tri. assert (E : (t * (t + 1)) mod 2 = 0) by (rewrite Zmod_even; by rewrite Z.even_mul, Z.even_add; destruct (Z.even t)). zdm.
Qed.
Lemma tri_S t : tri (t + 1) = tri t + (t + 1).
Proof. pose proof (tri_double t). pose proof (tri_double (t + 1)). lia. Qed.

(** An odd factor does not help to divide by a power of 2. *)
Lemma pow2_odd_divide k a b : Z.odd b = true -> (2 ^ Z.of_nat k | a * b) -> (2 ^ Z.of_nat k | a).
Proof.
  intros Hb. revert a. induction k as [|k IH]; intros a [q Hq]; [exists a; lia|].
  rewrite Nat2Z.inj_succ, Z.pow_succ_r in * by lia.
  assert (Ha : Z.even a = true).
  { assert (He : Z.even (a * b) = true) by (rewrite Hq, !Z.even_mul; apply orb_true_r).
    assert (Eb : Z.even b = false) by (by rewrite <- Z.negb_odd, Hb). by rewrite Z.even_mul, Eb, orb_false_r in He. }
  apply Z.even_spec in Ha as [c ->]. destruct (IH c) as [r ->]; [exists q; lia|]. exists r. lia.
Qed.

Lemma probe_inj h t u : 0 <= t < u -> u < 2 ^ n -> probe h t <> probe h u.
Proof.
  intros Ht Hu E. assert (Hpos : 0 < 2 ^ n) by (apply Z.pow_pos_nonneg; lia). unfold probe in E.
  assert (E' : (h + tri t) mod 2 ^ n = (h + tri u) mod 2 ^ n).
  { pose proof (Z.mod_pos_bound (h + tri t) (2 ^ n) Hpos). pose proof (Z.mod_pos_bound (h + tri u) (2 ^ n) Hpos). lia. }
  assert (Hd : (2 ^ Z.of_nat (Z.to_nat (n + 1)) | (u - t) * (u + t + 1))).
  { rewrite Z2Nat.id by lia. rewrite Z.add_1_r, Z.pow_succ_r by lia. pose proof (tri_double t). pose proof (tri_double u).
    pose proof (Z.div_mod (h + tri t) (2 ^ n) ltac:(lia)). pose proof (Z.div_mod (h + tri u) (2 ^ n) ltac:(lia)).
    exists ((h + tri u) / 2 ^ n - (h + tri t) / 2 ^ n). nia. }
  assert (E2 : 2 ^ Z.of_nat (Z.to_nat (n + 1)) = 2 * 2 ^ n) by (rewrite Z2Nat.id by lia; rewrite Z.add_1_r, Z.pow_succ_r by lia; done).
  destruct (Z.odd (u - t)) eqn:Eo.
  - rewrite Z.mul_comm in Hd. apply pow2_odd_divide in Hd; [|done]. rewrite E2 in Hd. apply Z.divide_pos_le in Hd; lia.
  - apply pow2_odd_divide in Hd; [rewrite E2 in Hd; apply Z.divide_pos_le in Hd; lia|].
    replace (u + t + 1) with (u - t + (2 * t + 1)) by lia. rewrite Z.odd_add, Eo, Z.odd_add, Z.odd_mul. done.
Qed.

Lemma probe_range h t : (probe h t < Z.to_nat (2 ^ n))%nat.
Proof.
  assert (Hpos : 0 < 2 ^ n) by (apply Z.pow_pos_nonneg; lia). unfold probe. pose proof (Z.mod_pos_bound (h + tri t) (2 ^ n) Hpos). lia.
Qed.

(** Every place is tried. *)
Lemma probe_all h s : (s < Z.to_nat (2 ^ n))%nat -> exists t, 0 <= t < 2 ^ n /\ probe h t = s.
Proof.
  intros Hs. assert (Hin : incl (seq 0 (Z.to_nat (2 ^ n))) (map (probe h) (seqZ 0 (2 ^ n)))).
  { apply NoDup_length_incl.
    - apply NoDup_ListNoDup. apply NoDup_fmap_2_strong; [|apply NoDup_seqZ].
      intros t u Ht%elem_of_seqZ Hu%elem_of_seqZ E. destruct (Z.lt_total t u) as [Hlt|[?|Hlt]]; [|done|].
      + by apply (probe_inj h t u) in E; [|lia..].
      + symmetry in E. by apply (probe_inj h u t) in E; [|lia..].
    - by rewrite length_map, length_seqZ, length_seq.
    - intros x (t & <- & _)%in_map_iff. apply in_seq. pose proof (probe_range h t). lia. }
  destruct (proj1 (in_map_iff _ _ _) (Hin s ltac:(apply in_seq; lia))) as (t & E & Ht). exists t. split; [|done].
  apply list_elem_of_In, elem_of_seqZ in Ht. lia.
Qed.

Lemma place_of_probe h t : place_of (u64 (h + tri t)) (2 ^ n - 1) = probe h t.
Proof.
  unfold place_of, probe, u64. replace (2 ^ n - 1) with (Z.ones n) by (rewrite Z.ones_equiv; lia). rewrite Z.land_ones by lia.
  f_equal. apply Z.mod_mod_divide. exists (2 ^ (64 - n)). rewrite <- Z.pow_add_r by lia. f_equal. lia.
Qed.

Lemma probe_loop_run fuel stop es h t :
  0 <= t -> t + Z.of_nat fuel < 2 ^ 64 ->
  (exists u, t <= u < t + Z.of_nat fuel /\ stop (default None (es !! probe h u)) = true) ->
  exists u, t <= u < t + Z.of_nat fuel /\ probe_loop fuel stop es (2 ^ n - 1) (u64 (h + tri t)) (t + 1) = Some (probe h u) /\
    stop (default None (es !! probe h u)) = true /\ forall v, t <= v < u -> stop (default None (es !! probe h v)) = false.
Proof.
  revert t. induction fuel as [|fuel IH]; intros t Ht Hf (u & Hu & Hs); [lia|]. cbn [probe_loop]. rewrite place_of_probe.
  destruct (stop (default None (es !! probe h t))) eqn:E.
  - exists t. split; [lia|]. split; [done|]. split; [done|]. lia.
  - assert (u <> t) by (intros ->; congruence).
    replace (u64 (u64 (h + tri t) + (t + 1))) with (u64 (h + tri (t + 1))).
    2: { unfold u64. rewrite Z.add_mod_idemp_l by lia. rewrite tri_S. f_equal. lia. }
    rewrite (u64_id (t + 1 + 1)) by lia. destruct (IH (t + 1)) as (v & Hv & Ev & Sv & Nv); [lia|lia|by exists u; split; [lia|]|].
    exists v. split; [lia|]. split; [done|]. split; [done|]. intros x Hx. destruct (Z.eq_dec x t) as [->|]; [done|]. apply Nv. lia.
Qed.
End Probe.

(** *** Tables *)
Definition size_of (n : Z) : nat := Z.to_nat (2 ^ n).

(** The place [s] is where the search for [k] ends, or would end. *)
Definition reaches (n : Z) (es : list (option ENTRY)) (k : list Z) (s : nat) : Prop :=
  exists t, 0 <= t < 2 ^ n /\ probe n (keyhash k) t = s /\
    forall u, 0 <= u < t -> exists e, es !! probe n (keyhash k) u = Some (Some e) /\ key e <> k.
Definition chained (n : Z) (es : list (option ENTRY)) : Prop :=
  length es = size_of n /\ forall s e, es !! s = Some (Some e) -> reaches n es (key e) s.
Definition has (es : list (option ENTRY)) (e : ENTRY) : Prop := exists s, es !! s = Some (Some e).
Definition absent (es : list (option ENTRY)) (k : list Z) : Prop := forall e, has es e -> key e <> k.
Definition count (es : list (option ENTRY)) : Z := Z.of_nat (length (omap id es)).

Lemma keyhash_range k : 0 <= keyhash k < 2 ^ 64.
Proof.
  assert (H : forall h, 0 <= h < 2 ^ 64 -> 0 <= foldl (fun h c => u64 (31 * h + c)) h k < 2 ^ 64); [|apply H; lia].
  induction k as [|c k IH]; intros h Hh; [done|]. cbn [foldl]. apply IH, u64_range.
Qed.

Lemma chained_key n es s s' e e' : chained n es -> es !! s = Some (Some e) -> es !! s' = Some (Some e') -> key e = key e' -> s = s'.
Proof.
  intros [_ Hc] H1 H2 Ek. destruct (Hc _ _ H1) as (t & Ht & Et & Ft), (Hc _ _ H2) as (u & Hu & Eu & Fu).
  rewrite Ek in *. destruct (Z.lt_total t u) as [Hlt|[->|Hlt]]; [|congruence|].
  - destruct (Fu t ltac:(lia)) as (x & Ex & Nx). rewrite Et in Ex. congruence.
  - destruct (Ft u ltac:(lia)) as (x & Ex & Nx). rewrite Eu in Ex. congruence.
Qed.

(** A free place that is reached: the key is nowhere. *)
Lemma reaches_free n es k s : chained n es -> reaches n es k s -> es !! s = Some None -> absent es k.
Proof.
  intros [_ Hc] (t & Ht & Et & Ft) Hs e [s' He] <-. destruct (Hc _ _ He) as (u & Hu & Eu & Fu).
  destruct (Z.lt_total t u) as [Hlt|[->|Hlt]].
  - destruct (Fu t ltac:(lia)) as (x & Ex & _). rewrite Et in Ex. congruence.
  - congruence.
  - destruct (Ft u ltac:(lia)) as (x & Ex & Nx). rewrite Eu in Ex. congruence.
Qed.

Lemma reaches_insert n es k s s' e : es !! s' = Some None -> reaches n es k s -> reaches n (<[s' := Some e]> es) k s.
Proof.
  intros Hs (t & Ht & Et & Ft). exists t. split; [done|]. split; [done|]. intros u Hu. destruct (Ft u Hu) as (x & Ex & Nx).
  exists x. split; [|done]. rewrite list_lookup_insert_ne; [done|]. intros ->. congruence.
Qed.
Lemma chained_insert n es s e : chained n es -> es !! s = Some None -> reaches n es (key e) s -> chained n (<[s := Some e]> es).
Proof.
  intros Hc Hs Hr. split; [rewrite length_insert; apply Hc|]. intros s' e' He. destruct (decide (s' = s)) as [->|Hne].
  - rewrite list_lookup_insert_eq in He by (by apply lookup_lt_Some in Hs). injection He as <-. by apply reaches_insert.
  - rewrite list_lookup_insert_ne in He by done. apply reaches_insert; [done|]. by apply Hc.
Qed.
Lemma has_insert es s e e' : es !! s = Some None -> has (<[s := Some e]> es) e' <-> has es e' \/ e' = e.
Proof.
  intros Hs. split.
  - intros [s' He]. destruct (decide (s' = s)) as [->|Hne].
    + rewrite list_lookup_insert_eq in He by (by apply lookup_lt_Some in Hs). injection He as <-. by right.
    + rewrite list_lookup_insert_ne in He by done. left. by exists s'.
  - intros [[s' He]| ->].
    + exists s'. rewrite list_lookup_insert_ne; [done|]. intros ->. congruence.
    + exists s. apply list_lookup_insert_eq. by apply lookup_lt_Some in Hs.
Qed.
Lemma count_insert es s e : es !! s = Some None -> count (<[s := Some e]> es) = count es + 1.
Proof.
  intros Hs. pose proof (lookup_lt_Some _ _ _ Hs). rewrite insert_take_drop by done. rewrite <- (take_drop_middle _ _ _ Hs) at 3.
  unfold count. rewrite !omap_app. cbn. rewrite !length_app. cbn. lia.
Qed.
Lemma count_has es e : has es e <-> e ∈ omap id es.
Proof.
  unfold has. rewrite list_elem_of_omap. split.
  - intros [s Hs]. exists (Some e). split; [by eapply list_elem_of_lookup_2|done].
  - intros (x & Hx & [= ->]). by apply list_elem_of_lookup_1 in Hx.
Qed.
(** A table that is not full has a free place. *)
Lemma free_place es : count es < Z.of_nat (length es) -> exists s, es !! s = Some None.
Proof.
  induction es as [|[e|] es IH]; unfold count in *; cbn; [lia| |intros _; by exists 0%nat].
  intros Hlt. destruct IH as [s Hs]; [lia|]. by exists (S s).
Qed.


(** Probing with either test, in a table that is not full. *)
Lemma probe_free n es k (stop : option ENTRY -> bool) :
  0 <= n <= 60 -> length es = size_of n -> count es < 2 ^ n -> stop None = true ->
  (forall e, has es e -> stop (Some e) = false -> key e <> k) ->
  exists s, probe_loop (length es) stop es (2 ^ n - 1) (keyhash k) 1 = Some s /\ reaches n es k s /\ stop (default None (es !! s)) = true /\ (s < length es)%nat.
Proof.
  intros Hn Hl Hc Hs Hk. assert (Hpos : 0 < 2 ^ n) by (apply Z.pow_pos_nonneg; lia).
  assert (Hlz : Z.of_nat (length es) = 2 ^ n) by (rewrite Hl; unfold size_of; lia).
  assert (2 ^ n <= 2 ^ 60) by (apply Z.pow_le_mono_r; lia).
  destruct (free_place es) as [f Hf]; [lia|]. destruct (probe_all n ltac:(lia) (keyhash k) f) as (u & Hu & Eu).
  { apply lookup_lt_Some in Hf. by rewrite Hl in Hf. }
  destruct (probe_loop_run n ltac:(lia) (length es) stop es (keyhash k) 0) as (t & Ht & E & St & Nt); [lia|lia| |].
  { exists u. split; [lia|]. by rewrite Eu, Hf. }
  change (tri 0) with 0 in E. rewrite Z.add_0_r, (u64_id (keyhash k)) in E by apply keyhash_range.
  assert (Hr : (probe n (keyhash k) t < length es)%nat) by (rewrite Hl; apply probe_range; lia).
  exists (probe n (keyhash k) t). split; [exact E|]. split; [|done]. exists t. split; [lia|]. split; [done|].
  intros v Hv. specialize (Nt v ltac:(lia)). assert (Hrv : (probe n (keyhash k) v < length es)%nat) by (rewrite Hl; apply probe_range; lia).
  destruct (lookup_lt_is_Some_2 es _ Hrv) as [[e|] Ee]; rewrite Ee in Nt; cbn in Nt; [|congruence]. exists e. split; [done|]. apply Hk; [by eexists|done].
Qed.

Record table (t : __tab) (n : Z) : Prop := {
  tb_size : 3 <= n <= 60;
  tb_mask : mask t = 2 ^ n - 1;
  tb_chained : chained n (entries t);
  tb_used : used t = count (entries t);
  tb_load : used t <= mask t - mask t / 4
}.

Lemma load_lt n : 3 <= n -> 2 ^ n - 1 - (2 ^ n - 1) / 4 < 2 ^ n - 1.
Proof. intros Hn. assert (2 ^ 3 <= 2 ^ n) by (apply Z.pow_le_mono_r; lia). zdm. Qed.

Lemma lookup_run n t k :
  3 <= n <= 60 -> mask t = 2 ^ n - 1 -> chained n (entries t) -> count (entries t) < 2 ^ n ->
  exists s, lookup k (keyhash k) t = Some s /\ reaches n (entries t) k s /\
    match entries t !! s with Some None => absent (entries t) k | Some (Some e) => key e = k | None => False end.
Proof.
  intros Hn Hm Hch Hc. destruct (probe_free n (entries t) k (free_or k)) as (s & E & Hr & Hs & Hlt); [lia|apply Hch|done|done| |].
  { intros e _ He. cbn in He. by apply bool_decide_eq_false in He. }
  exists s. unfold lookup. rewrite Hm. split; [done|]. split; [done|]. destruct (lookup_lt_is_Some_2 _ _ Hlt) as [[e|] Ee]; rewrite Ee in *; cbn in Hs.
  - by apply bool_decide_eq_true in Hs.
  - by apply (reaches_free n _ _ s).
Qed.

(** *** resize *)
Lemma newsize_run fuel nel k : 0 <= k -> nel <= 2 ^ 60 -> nel <= 2 ^ (k + Z.of_nat fuel - 1) -> (0 < fuel)%nat ->
  exists n, newsize_loop fuel nel (2 ^ k) = Some (2 ^ n) /\ k <= n <= Z.max k 60 /\ nel <= 2 ^ n.
Proof.
  revert k. induction fuel as [|fuel IH]; intros k Hk H60 Hn Hpos; [lia|]. cbn [newsize_loop]. destruct (Z.ltb_spec (2 ^ k) nel) as [Hlt|Hge].
  - assert (k < 60) by (apply (Z.pow_lt_mono_r_iff 2); lia).
    assert (E : u64 (2 ^ k * 2) = 2 ^ (k + 1)).
    { rewrite Z.pow_add_r by lia. apply u64_id. split; [nia|]. assert (2 ^ (k + 1) < 2 ^ 64) by (apply Z.pow_lt_mono_r; lia). rewrite Z.pow_add_r in * by lia. lia. }
    rewrite E. destruct fuel as [|fuel]; [replace (k + Z.of_nat 1 - 1) with k in Hn by lia; lia|].
    destruct (IH (k + 1)) as (n & -> & Hn1 & Hn2); [lia|done|by replace (k + 1 + Z.of_nat (S fuel) - 1) with (k + Z.of_nat (S (S fuel)) - 1) by lia|lia|].
    exists n. split; [done|]. split; [lia|done].
  - exists k. split; [done|]. split; [lia|done].
Qed.

Lemma rehash_run n old es :
  3 <= n <= 60 -> chained n es -> count es + count old < 2 ^ n ->
  NoDup (map key (omap id old)) -> (forall e, has old e -> absent es (key e)) ->
  exists es', rehash_loop old (2 ^ n - 1) es = Some es' /\ chained n es' /\ count es' = count es + count old /\
    forall e, has es' e <-> has es e \/ has old e.
Proof.
  intros Hn. revert es. induction old as [|[e|] old IH]; intros es Hch Hc Hnd Hab; cbn [rehash_loop].
  - exists es. split; [done|]. split; [done|]. split; [unfold count; cbn; lia|]. intros e. rewrite (count_has [] e). cbn. set_solver.
  - assert (Hcc : count (Some e :: old) = count old + 1) by (unfold count; cbn; lia). cbn in Hnd. apply NoDup_cons in Hnd as [Hk Hnd].
    destruct (probe_free n es (key e) free) as (s & -> & Hr & Hs & Hlt); [lia|apply Hch| |done| |].
    { unfold count in *. cbn in *. lia. }
    { intros x Hx _. apply (Hab e); [apply count_has; left|done]. }
    assert (He : es !! s = Some None) by (destruct (lookup_lt_is_Some_2 _ _ Hlt) as [[x|] Ex]; rewrite Ex in *; done).
    destruct (IH (<[s := Some e]> es)) as (es' & E & H1 & H2 & H3); [by apply chained_insert|rewrite count_insert by done; lia|done| |].
    + intros x Hx y [Hy| ->]%has_insert; [|intros E|done].
      * apply (Hab x); [|done]. rewrite count_has in *. by right.
      * apply Hk. rewrite E. apply list_elem_of_fmap_2. by apply count_has.
    + exists es'. split; [done|]. split; [done|]. split; [rewrite H2, count_insert by done; lia|].
      intros x. rewrite H3, has_insert by done. rewrite (count_has (Some e :: old)), (count_has old). cbn. rewrite elem_of_cons. tauto.
  - destruct (IH es) as (es' & E & H1 & H2 & H3); [done|unfold count in *; cbn in *; lia|done| |].
    + intros x Hx. apply Hab. rewrite count_has in *. exact Hx.
    + exists es'. split; [done|]. split; [done|]. split; [done|]. intros x. rewrite H3. by rewrite (count_has (None :: old)), (count_has old).
Qed.

Lemma chained_NoDup n es : chained n es -> NoDup (map key (omap id es)).
Proof.
  intros Hch. assert (Hk : forall s s' e e', es !! s = Some (Some e) -> es !! s' = Some (Some e') -> key e = key e' -> s = s') by (intros *; by apply (chained_key n)).
  clear Hch. induction es as [|[e|] es IH]; cbn; [apply NoDup_nil_2| |].
  - apply NoDup_cons. split.
    + intros (x & Ex & [s Hs]%count_has)%list_elem_of_fmap. pose proof (Hk 0%nat (S s) e x eq_refl Hs Ex). lia.
    + apply IH. intros s s' x x' H1 H2 E. pose proof (Hk (S s) (S s') x x' H1 H2 E). lia.
  - apply IH. intros s s' x x' H1 H2 E. pose proof (Hk (S s) (S s') x x' H1 H2 E). lia.
Qed.

Lemma chained_empty n : chained n (replicate (size_of n) None).
Proof. split; [apply length_replicate|]. intros s e He. by apply lookup_replicate in He as [? _]. Qed.
Lemma count_empty l : count (replicate l None) = 0.
Proof. unfold count. induction l as [|l IH]; [done|]. cbn. exact IH. Qed.
Lemma has_empty l e : ~ has (replicate l None) e.
Proof. intros [s Hs]. by apply lookup_replicate in Hs as [? _]. Qed.

Lemma half_load n c : 3 <= n -> 2 * c <= 2 ^ n -> c <= 2 ^ n - 1 - (2 ^ n - 1) / 4.
Proof. intros Hn Hc. assert (2 ^ 3 <= 2 ^ n) by (apply Z.pow_le_mono_r; lia). zdm. Qed.

Lemma resize_run t n0 nel :
  chained n0 (entries t) -> entries t <> [] -> used t = count (entries t) -> 2 * used t <= nel <= 2 ^ 60 -> 0 < used t ->
  exists t' n, resize true nel t = Some (1, t') /\ table t' n /\ forall e, has (entries t') e <-> has (entries t) e.
Proof.
  intros Hch Hne Hu Hnel Hpos. unfold resize. assert (E : (MAXSIZE <? nel) = false) by (apply Z.ltb_ge; change MAXSIZE with (2 ^ 63); lia).
  rewrite E. destruct (newsize_run 64 nel 3) as (n & En & Hn1 & Hn2); [lia|lia|lia|lia|]. change (2 ^ 3) with MINSIZE in En. rewrite En. cbn [negb].
  assert (Hn : 3 <= n <= 60) by lia.
  destruct (rehash_run n (entries t) (replicate (size_of n) None) Hn (chained_empty n)) as (es & Er & H1 & H2 & H3).
  { rewrite count_empty. lia. } { by apply (chained_NoDup n0). } { intros e _ x Hx. by apply has_empty in Hx. }
  change (Z.to_nat (2 ^ n)) with (size_of n). destruct (entries t) as [|x old] eqn:Eo; [done|]. rewrite Er.
  eexists _, n. split; [reflexivity|]. rewrite count_empty in H2. split; [|intros e; cbn [entries]; rewrite H3; pose proof (has_empty (size_of n) e); tauto].
  split; cbn [entries mask used]; [done|done|done|lia|]. apply half_load; lia.
Qed.

(** What the table holds. *)
Definition represents (t : __tab) (f : gmap (list Z) Z) : Prop := forall k d, f !! k = Some d <-> has (entries t) (mkENTRY k d).

Lemma represents_absent t f k : represents t f -> absent (entries t) k <-> f !! k = None.
Proof.
  intros Hr. split.
  - intros Ha. destruct (f !! k) as [d|] eqn:E; [|done]. apply Hr in E. by destruct (Ha _ E).
  - intros E [k' d] He <-. apply Hr in He. cbn in E. congruence.
Qed.

(** A new entry. *)
Lemma enter_run t n f item s :
  table t n -> represents t f -> absent (entries t) (key item) -> reaches n (entries t) (key item) s -> entries t !! s = Some None ->
  let t1 := mkTab (<[s := Some item]> (entries t)) (mask t) (u64 (used t + 1)) in
  chained n (entries t1) /\ used t1 = count (entries t1) /\ used t1 = used t + 1 /\ 0 <= used t /\
  represents t1 (<[key item := data item]> f) /\ entries t1 !! s = Some (Some item).
Proof.
  intros [Hn Hm Hch Hu Hl] Hr Ha Hre Hs t1. assert (H0 : 0 <= used t) by (rewrite Hu; unfold count; lia).
  assert (2 ^ n <= 2 ^ 60) by (apply Z.pow_le_mono_r; lia). pose proof (load_lt n ltac:(lia)). rewrite Hm in Hl.
  assert (Hu1 : used t1 = used t + 1) by (apply u64_id; lia). split; [by apply chained_insert|].
  split; [rewrite Hu1; cbn [t1 entries]; rewrite count_insert by done; lia|]. split; [done|]. split; [done|]. split.
  - intros k d. cbn [t1 entries]. rewrite has_insert by done. rewrite lookup_insert_Some, (Hr k d). split.
    + intros [[<- <-]|[Hne Hh]]; [right; by destruct item|by left].
    + intros [Hh|<-]; [right; split; [|done]|by left]. intros E. by apply (Ha _ Hh).
  - cbn [t1 entries]. apply list_lookup_insert_eq. by apply lookup_lt_Some in Hs.
Qed.

Lemma __hsearch_r_run ok item action t n f :
  table t n -> represents t f -> used t < 2 ^ 58 ->
  exists r e t', __hsearch_r ok item action t = Some (r, e, t') /\
    match f !! key item, action with
    | Some d, _ => r = 1 /\ t' = t /\ exists s, e = Some s /\ entries t !! s = Some (Some (mkENTRY (key item) d))
    | None, FIND => r = 0 /\ e = None /\ t' = t
    | None, ENTER =>
      if ok || (used t + 1 <=? mask t - mask t / 4) then
        r = 1 /\ (exists s, e = Some s /\ entries t' !! s = Some (Some item)) /\
        (exists n', table t' n') /\ represents t' (<[key item := data item]> f)
      else r = 0 /\ e = None /\ t' = t
    end.
Proof.
  intros Ht Hr Hu. pose proof Ht as [Hn Hm Hch Huc Hl]. assert (2 ^ n <= 2 ^ 60) by (apply Z.pow_le_mono_r; lia).
  assert (Hcnt : count (entries t) < 2 ^ n) by (pose proof (load_lt n ltac:(lia)); rewrite Hm in Hl; lia).
  destruct (lookup_run n t (key item) Hn Hm Hch Hcnt) as (s & El & Hre & Hs). unfold __hsearch_r. rewrite El.
  destruct (entries t !! s) as [[e|]|] eqn:Es; [|clear El|done].
  { assert (f !! key item = Some (data e)) as -> by (apply Hr; exists s; rewrite <- Hs; by destruct e).
    exists 1, (Some s), t. split; [done|]. split; [done|]. split; [done|]. exists s. split; [done|]. rewrite Es, <- Hs. by destruct e. }
  pose proof Hs as Hnone. rewrite (represents_absent t f _ Hr) in Hnone. rewrite Hnone. cbn [default].
  destruct action; [by exists 0, None, t|].
  destruct (enter_run t n f item s Ht Hr Hs Hre Es) as (C1 & C2 & C3 & C4 & C5 & C6).
  set (t1 := mkTab (<[s := Some item]> (entries t)) (mask t) (u64 (used t + 1))) in *. change (mask t1) with (mask t). rewrite C3.
  destruct (Z.leb_spec (used t + 1) (mask t - mask t / 4)) as [Hle|Hgt].
  - destruct (Z.ltb_spec (mask t - mask t / 4) (used t + 1)); [lia|]. rewrite orb_true_r. exists 1, (Some s), t1.
    split; [done|]. split; [done|]. split; [by exists s|]. split; [|done]. exists n. by split; [| | |lia|change (mask t1) with (mask t); lia].
  - destruct (Z.ltb_spec (mask t - mask t / 4) (used t + 1)); [|lia]. rewrite orb_false_r.
    rewrite u64_id by lia. destruct ok.
    + destruct (resize_run t1 n (2 * (used t + 1)) C1) as (t' & n' & -> & Ht' & Hh); [|done|lia|lia|].
      { intros E. by rewrite E in C6. }
      cbn [Z.eqb]. assert (Hr' : represents t' (<[key item := data item]> f)) by (intros k d; rewrite Hh; apply C5).
      pose proof Ht' as [Hn' Hm' Hch' Huc' Hl']. destruct (lookup_run n' t' (key item) Hn' Hm' Hch') as (s' & -> & _ & Hs').
      { pose proof (load_lt n' ltac:(lia)). rewrite Hm' in Hl'. lia. }
      exists 1, (Some s'), t'. split; [done|]. split; [done|]. split; [|split; [by exists n'|done]]. exists s'. split; [done|].
      destruct (entries t' !! s') as [[e|]|] eqn:Es'; [|exfalso|done].
      * assert (<[key item := data item]> f !! key item = Some (data e)) as He by (apply Hr'; exists s'; rewrite <- Hs'; by destruct e).
        rewrite lookup_insert_eq in He. injection He as Hd. do 2 f_equal. destruct e, item; cbn in *; congruence.
      * apply (represents_absent t' _ _ Hr') in Hs'. by rewrite lookup_insert_eq in Hs'.
    + unfold resize. rewrite (proj2 (Z.ltb_ge _ _)) by (change MAXSIZE with (2 ^ 63); lia).
      destruct (newsize_run 64 (2 * (used t + 1)) 3) as (n' & En & _); [lia|lia|lia|lia|]. change (2 ^ 3) with MINSIZE in En. rewrite En. cbn [negb Z.eqb].
      exists 0, None, t. split; [|done]. do 2 f_equal. unfold t1 in *. clear t1. destruct t as [es mk us]. cbn [entries mask used] in *. f_equal; [|lia].
      rewrite list_insert_insert_eq. by apply list_insert_id.
Qed.

Lemma __hcreate_r_run nel :
  0 <= nel <= 2 ^ 60 -> exists t n, __hcreate_r true true nel = Some (1, Some t) /\ table t n /\ represents t ∅ /\ nel <= 2 ^ n.
Proof.
  intros Hnel. unfold __hcreate_r, resize. cbn [negb]. rewrite (proj2 (Z.ltb_ge _ _)) by (change MAXSIZE with (2 ^ 63); lia).
  destruct (newsize_run 64 nel 3) as (n & En & Hn1 & Hn2); [lia|lia|lia|lia|]. change (2 ^ 3) with MINSIZE in En. rewrite En. cbn [entries Z.eqb].
  eexists _, n. split; [reflexivity|]. split; [|split; [|done]].
  - split; cbn [entries mask used]; [lia|done|apply chained_empty|by rewrite count_empty|]. apply half_load; [lia|]. assert (0 < 2 ^ n) by (apply Z.pow_pos_nonneg; lia). lia.
  - intros k d. rewrite lookup_empty. cbn [entries]. split; [done|]. by intros ?%has_empty.
Qed.

(** *** Properties *)

(** C35: The hash table refines a finite map: [hsearch] always ends, finds the
    entry of a key that is in the map, says so when it is not, and enters a
    new key otherwise, moving to a larger table when it gets full; when there
    is no memory for that, the table is left as it was.  Probing by
    triangular numbers reaches every place of a table of [2 ^ n]. *)
Theorem hsearch_refines_map ok item action t n f :
  table t n -> represents t f -> used t < 2 ^ 58 ->
  exists r e t', __hsearch_r ok item action t = Some (r, e, t') /\
    match f !! key item, action with
    | Some d, _ => r = 1 /\ t' = t /\ exists s, e = Some s /\ entries t !! s = Some (Some (mkENTRY (key item) d))
    | None, FIND => r = 0 /\ e = None /\ t' = t
    | None, ENTER =>
      if ok || (used t + 1 <=? mask t - mask t / 4) then
        r = 1 /\ (exists s, e = Some s /\ entries t' !! s = Some (Some item)) /\
        (exists n', table t' n') /\ represents t' (<[key item := data item]> f)
      else r = 0 /\ e = None /\ t' = t
    end.
Proof. apply __hsearch_r_run. Qed.

(** [hcreate] makes an empty table of at least the size asked for. *)
Theorem hcreate_empty nel :
  0 <= nel <= 2 ^ 60 -> exists t n, __hcreate_r true true nel = Some (1, Some t) /\ table t n /\ represents t ∅ /\ nel <= 2 ^ n.
Proof. apply __hcreate_r_run. Qed.

Lemma hsearch_refines_map_witness :
  exists t r e t', __hcreate_r true true 0 = Some (1, Some t) /\
    __hsearch_r true (mkENTRY [97; 98] 5) ENTER t = Some (r, e, t') /\ r = 1 /\ represents t' {[ [97; 98] := 5 ]}.
Proof.
  destruct (__hcreate_r_run 0) as (t & n & E & Ht & Hr & _); [lia|].
  assert (Hu : used t = 0) by (vm_compute in E; injection E as <-; reflexivity).
  destruct (hsearch_refines_map true (mkENTRY [97; 98] 5) ENTER t n ∅) as (r & e & t' & E' & H).
  - exact Ht.
  - exact Hr.
  - rewrite Hu. lia.
  - rewrite lookup_empty in H. cbn [orb] in H. destruct H as (H1 & _ & _ & H2).
    exists t, r, e, t'. split; [exact E|]. split; [exact E'|]. split; [exact H1|exact H2].
Defined.

End Hsearch.

(** ** Linear search and linked lists *)
Module Lists.
Import Prelude Mem Qsort.
#[local] Open Scope lofi_scope.

(** [for (i = 0; i < n; i++) if (compar(key, p[i]) == 0) return p[i];] *)
Fixpoint find_loop (n : nat) (compar : list Z -> list Z -> Z) (key base width i : Z) : M (gmap Z Z) (option Z) :=
  match n with
  | O => ret None
  | S n' =>
    let p := base + i * width in
    let* c := gets (fun m => compar (bytes (Z.to_nat width) m key) (bytes (Z.to_nat width) m p)) in
    if c =? 0 then ret (Some p) else find_loop n' compar key base width (i + 1)
  end.
Definition lfind (compar : list Z -> list Z -> Z) (key base n width : Z) : M (gmap Z Z) (option Z) :=
  find_loop (Z.to_nat n) compar key base width 0.
(** The result is the pointer and the new [*nelp]. *)
Definition lsearch (compar : list Z -> list Z -> Z) (key base n width : Z) : M (gmap Z Z) (Z * Z) :=
  let* r := find_loop (Z.to_nat n) compar key base width 0 in
  match r with
  | Some p => ret (p, n)
  | None =>
    let p := base + n * width in
    modify (fun m => put m p (bytes (Z.to_nat width) m key)) ;;;
    ret (p, n + 1)
  end.

(** [struct node]: [next] at 0, [prev] at 8. *)
Definition next (m : gmap Z Z) (a : Z) : Z := ld 8 m a.
Definition prev (m : gmap Z Z) (a : Z) : Z := ld 8 m (a + 8).
Definition set_next (a v : Z) (m : gmap Z Z) : gmap Z Z := st 8 m a v.
Definition set_prev (a v : Z) (m : gmap Z Z) : gmap Z Z := st 8 m (a + 8) v.

Definition insque (e p : Z) (m : gmap Z Z) : gmap Z Z :=
  if p =? 0 then set_next e 0 (set_prev e 0 m)
  else
    let m := set_next e (next m p) m in
    let m := set_prev e p m in
    let m := set_next p e m in
    if negb (next m e =? 0) then set_prev (next m e) e m else m.
Definition remque (e : Z) (m : gmap Z Z) : gmap Z Z :=
  let m := if negb (next m e =? 0) then set_prev (next m e) (prev m e) m else m in
  if negb (prev m e =? 0) then set_next (prev m e) (next m e) m else m.

(** *** Linear search *)
Lemma find_loop_run n compar key base w i m :
  0 < w -> 0 <= i ->
  exists r, find_loop n compar key base w i m = Ret r m /\
    match r with
    | Some p => exists k, i <= k < i + Z.of_nat n /\ p = base + k * w /\ compar (bytes (Z.to_nat w) m key) (el base w m k) = 0 /\
        forall j, i <= j < k -> compar (bytes (Z.to_nat w) m key) (el base w m j) <> 0
    | None => forall j, i <= j < i + Z.of_nat n -> compar (bytes (Z.to_nat w) m key) (el base w m j) <> 0
    end.
Proof.
  intros Hw. revert i. induction n as [|n IH]; intros i Hi; cbn [find_loop]; [exists None; split; [done|lia]|].
  unfold bind, gets. change (bytes (Z.to_nat w) m (base + i * w)) with (el base w m i).
  destruct (Z.eqb_spec (compar (bytes (Z.to_nat w) m key) (el base w m i)) 0) as [E|E].
  - exists (Some (base + i * w)). split; [done|]. exists i. split; [lia|]. split; [done|]. split; [done|lia].
  - destruct (IH (i + 1)) as (r & -> & Hr); [lia|]. exists r. split; [done|]. destruct r as [p|].
    + destruct Hr as (k & Hk & -> & Ez & Hj). exists k. split; [lia|]. split; [done|]. split; [done|]. intros j Hjk.
      destruct (Z.eq_dec j i) as [->|]; [done|apply Hj; lia].
    + intros j Hj. destruct (Z.eq_dec j i) as [->|]; [done|apply Hr; lia].
Qed.

Lemma el_put_other base w m k n bs : 0 < w -> length bs = Z.to_nat w -> k <> n -> el base w (put m (base + n * w) bs) k = el base w m k.
Proof. intros Hw Hl Hk. apply bytes_ext. intros i Hi. apply ld8_put_out. unfold adr. nia. Qed.

(** [lsearch] returns the first object that compares equal, or appends the
    key. *)
Theorem lsearch_finds_or_appends compar key base n w m :
  0 < w -> 0 <= n ->
  exists p n' m', lsearch compar key base n w m = Ret (p, n') m' /\
    (forall k, 0 <= k < n -> el base w m' k = el base w m k) /\
    ((n' = n /\ m' = m /\ exists k, 0 <= k < n /\ p = base + k * w /\ compar (bytes (Z.to_nat w) m key) (el base w m k) = 0 /\
        forall j, 0 <= j < k -> compar (bytes (Z.to_nat w) m key) (el base w m j) <> 0) \/
     (n' = n + 1 /\ p = base + n * w /\ el base w m' n = bytes (Z.to_nat w) m key /\
        forall j, 0 <= j < n -> compar (bytes (Z.to_nat w) m key) (el base w m j) <> 0)).
Proof.
  intros Hw Hn. unfold lsearch. destruct (find_loop_run (Z.to_nat n) compar key base w 0 m Hw ltac:(lia)) as (r & E & Hr).
  rewrite (bind_ret _ _ _ _ _ E). destruct r as [p|].
  - exists p, n, m. split; [done|]. split; [done|]. left. split; [done|]. split; [done|].
    destruct Hr as (k & Hk & Hr). exists k. split; [lia|done].
  - eexists _, _, _. split; [reflexivity|]. split; [intros k Hk; apply el_put_other; [done|apply length_bytes|lia]|].
    right. split; [done|]. split; [done|]. split; [|intros j Hj; apply Hr; lia].
    apply list_eq_same_length with (Z.to_nat w); [apply length_bytes|apply length_bytes|].
    intros i x y Hi. unfold el, adr. rewrite !bytes_lookup by done. intros [= <-] [= <-].
    erewrite ld8_put_in by (by apply bytes_lookup). apply u8_id, ld8_range.
Qed.

(** *** Linked lists *)
(** The nodes [l] in their order between [pr] and [nx]. *)
Fixpoint linked (m : gmap Z Z) (pr : Z) (l : list Z) (nx : Z) : Prop :=
  match l with
  | [] => True
  | a :: l' => next m a = hd nx l' /\ prev m a = pr /\ linked m a l' nx
  end.
Definition node_ok (a : Z) : Prop := 0 < a < 2 ^ 64.
(** Nodes do not overlap. *)
Definition nodes (l : list Z) : Prop := Forall node_ok l /\ apart 16 l.

Fixpoint final (pr : Z) (l : list Z) : Z := match l with [] => pr | a :: l' => final a l' end.

Lemma linked_app m pr l1 l2 nx : linked m pr (l1 ++ l2) nx <-> linked m pr l1 (hd nx l2) /\ linked m (final pr l1) l2 nx.
Proof.
  revert pr. induction l1 as [|a l1 IH]; intros pr; [cbn; tauto|]. cbn [linked app final]. rewrite IH.
  assert (hd nx (l1 ++ l2) = hd (hd nx l2) l1) as -> by (by destruct l1). tauto.
Qed.
Lemma linked_ext m m' pr l nx :
  (forall a, a ∈ l -> next m' a = next m a /\ prev m' a = prev m a) -> linked m pr l nx -> linked m' pr l nx.
Proof.
  revert pr. induction l as [|a l IH]; intros pr He; [done|]. cbn [linked]. destruct (He a ltac:(left)) as [-> ->].
  intros (H1 & H2 & H3). split; [done|]. split; [done|]. apply IH; [|done]. intros b Hb. apply He. by right.
Qed.
Lemma final_elem pr l : l <> [] -> final pr l ∈ l.
Proof. revert pr. induction l as [|a l IH]; intros pr Hl; [done|]. cbn [final]. destruct l; [left|right; by apply IH]. Qed.

(** Fields of nodes that do not overlap. *)
Definition clear_of (a b : Z) : Prop := a = b \/ a + 16 <= b \/ b + 16 <= a.
Lemma next_set_next a b v m : clear_of a b -> 0 <= v < 2 ^ 64 -> next (set_next a v m) b = if decide (b = a) then v else next m b.
Proof.
  intros Hd Hv. unfold next, set_next. destruct (decide (b = a)) as [->|Hne]; [rewrite ld_st_eq; apply Z.mod_small; exact Hv|].
  apply ld_st_ne. destruct Hd as [?|?]; [done|lia].
Qed.
Lemma prev_set_next a b v m : clear_of a b -> prev (set_next a v m) b = prev m b.
Proof. intros Hd. unfold prev, set_next. apply ld_st_ne. destruct Hd as [->|?]; lia. Qed.
Lemma next_set_prev a b v m : clear_of a b -> next (set_prev a v m) b = next m b.
Proof. intros Hd. unfold next, set_prev. apply ld_st_ne. destruct Hd as [->|?]; lia. Qed.
Lemma prev_set_prev a b v m : clear_of a b -> 0 <= v < 2 ^ 64 -> prev (set_prev a v m) b = if decide (b = a) then v else prev m b.
Proof.
  intros Hd Hv. unfold prev, set_prev. destruct (decide (b = a)) as [->|Hne]; [rewrite ld_st_eq; apply Z.mod_small; exact Hv|].
  apply ld_st_ne. destruct Hd as [?|?]; [done|lia].
Qed.

Lemma nodes_clear l a b : nodes l -> a ∈ l -> b ∈ l -> clear_of a b.
Proof. intros [_ [_ H]] Ha Hb. destruct (decide (a = b)) as [?|Hne]; [by left|right]. by apply H. Qed.
Lemma nodes_range l a : nodes l -> a ∈ l -> 0 < a < 2 ^ 64.
Proof. intros [H _] Ha. rewrite Forall_forall in H. by apply H. Qed.
Lemma hd_range l l' : nodes l -> (forall a, a ∈ l' -> a ∈ l) -> 0 <= hd 0 l' < 2 ^ 64 /\ (hd 0 l' <> 0 -> hd 0 l' ∈ l).
Proof.
  intros Hn Hs. destruct l' as [|a l']; [cbn; split; [lia|done]|]. pose proof (nodes_range l a Hn ltac:(apply Hs; left)).
  cbn. split; [lia|intros _; apply Hs; left].
Qed.

Ltac dec_eq :=
  repeat match goal with
  | |- context [decide (?x = ?x)] => rewrite (decide_True (P := x = x)) by reflexivity
  | H : ?x <> ?y |- context [decide (?x = ?y)] => rewrite (decide_False (P := x = y)) by exact H
  end.

(** All fields after [insque]. *)
Lemma insque_fields e p m l : nodes l -> e ∈ l -> p ∈ l -> e <> p -> (next m p <> 0 -> next m p ∈ l) -> next m p <> e -> 0 <= next m p < 2 ^ 64 ->
  forall x, x ∈ l ->
    next (insque e p m) x = (if decide (x = p) then e else if decide (x = e) then next m p else next m x) /\
    prev (insque e p m) x = (if decide (x = e) then p else if decide (x = next m p) then e else prev m x).
Proof.
  intros Hn He Hp Hne Hnx Hnn Hr x Hx. pose proof (nodes_range l _ Hn He). pose proof (nodes_range l _ Hn Hp). pose proof (nodes_range l _ Hn Hx).
  assert (Hcl : forall a b, a ∈ l -> b ∈ l -> clear_of a b) by (intros a b; by apply nodes_clear).
  unfold insque. destruct (Z.eqb_spec p 0); [lia|]. cbv zeta. set (q := next m p) in *.
  set (m3 := set_next p e (set_prev e p (set_next e q m))).
  assert (N3 : forall y, y ∈ l -> next m3 y = if decide (y = p) then e else if decide (y = e) then q else next m y).
  { intros y Hy. unfold m3. rewrite next_set_next by (auto || lia). destruct (decide (y = p)); [done|]. rewrite next_set_prev by auto. apply next_set_next; [auto|lia]. }
  assert (P3 : forall y, y ∈ l -> prev m3 y = if decide (y = e) then p else prev m y).
  { intros y Hy. unfold m3. rewrite prev_set_next by auto. rewrite prev_set_prev by (auto || lia). destruct (decide (y = e)); [done|]. apply prev_set_next. auto. }
  assert (Eq : next m3 e = q) by (rewrite N3 by done; destruct (decide (e = p)), (decide (e = e)); done). rewrite Eq.
  destruct (Z.eqb_spec q 0) as [E0|E0]; cbn [negb].
  - rewrite N3, P3 by done. split; [done|]. destruct (decide (x = e)); [done|]. destruct (decide (x = q)); [lia|done].
  - specialize (Hnx E0). rewrite next_set_prev, prev_set_prev by (auto || lia). rewrite N3, P3 by done. split; [done|].
    destruct (decide (x = q)) as [->|]; [by destruct (decide (q = e))|done].
Qed.

Theorem insque_links e p m l1 l2 :
  nodes (e :: l1 ++ p :: l2) -> linked m 0 (l1 ++ p :: l2) 0 -> linked (insque e p m) 0 (l1 ++ p :: e :: l2) 0.
Proof.
  intros Hn Hl. set (l := e :: l1 ++ p :: l2) in *. pose proof (proj1 (proj2 Hn)) as Hnd. apply linked_app in Hl as [Hl1 Hl2]. cbn [linked hd] in Hl1, Hl2.
  destruct Hl2 as (Hnp & Hpp & Hl2). unfold l in Hnd. apply list.NoDup_cons in Hnd as [He Hnd]. apply NoDup_app in Hnd as (Hnd1 & Hd & Hnd2).
  apply list.NoDup_cons in Hnd2 as [Hp2 Hnd2].
  assert (Sub : forall x, x ∈ l1 \/ x = p \/ x ∈ l2 -> x ∈ l) by (intros x Hx; unfold l; set_solver).
  destruct (hd_range l l2 Hn) as [Hq1 Hq2]; [intros a Ha; apply Sub; tauto|]. rewrite <- Hnp in Hq1, Hq2.
  assert (Hqe : next m p <> e).
  { intros E. apply He. rewrite <- E, Hnp. destruct l2 as [|b l2]; [|set_solver]. cbn [hd] in Hnp.
    pose proof (nodes_range l e Hn ltac:(left)). lia. }
  assert (F := insque_fields e p m l Hn ltac:(left) ltac:(apply Sub; tauto) ltac:(intros ->; apply He; set_solver) Hq2 Hqe Hq1).
  assert (Same : forall x, x ∈ l1 \/ x ∈ tail l2 -> next (insque e p m) x = next m x /\ prev (insque e p m) x = prev m x).
  { intros x Hx. assert (Hx' : x ∈ l1 \/ x ∈ l2) by (destruct l2; set_solver). assert (x <> p) by set_solver. assert (x <> e) by set_solver.
    destruct (F x) as [-> ->]; [apply Sub; tauto|]. destruct (decide (x = p)), (decide (x = e)); try done.
    destruct (decide (x = next m p)) as [E|]; [|done]. exfalso. rewrite Hnp in E. destruct l2 as [|b l2]; cbn [hd tail] in *.
    - destruct Hx as [Hx|Hx]; [|by apply not_elem_of_nil in Hx]. pose proof (nodes_range l x Hn ltac:(apply Sub; tauto)). lia.
    - subst x. destruct Hx as [Hx|Hx]; [by apply (Hd b Hx); right; left|]. by apply list.NoDup_cons in Hnd2 as [? _]. }
  apply linked_app. split; [apply (linked_ext m); [intros a Ha; apply Same; tauto|exact Hl1]|]. cbn [linked hd].
  assert (Hep : e <> p) by (intros ->; apply He; set_solver). assert (Hpe : p <> e) by congruence.
  assert (Hpq : p <> next m p).
  { intros E. apply Hp2. rewrite E, Hnp. destruct l2; [|set_solver]. pose proof (nodes_range l p Hn ltac:(apply Sub; tauto)). cbn [hd] in Hnp. lia. }
  destruct (F p) as [-> ->]; [apply Sub; tauto|]. destruct (F e) as [-> ->]; [left|]. dec_eq.
  split; [reflexivity|]. split; [exact Hpp|]. split; [exact Hnp|]. split; [reflexivity|].
  destruct l2 as [|b l2]; [exact I|]. cbn [linked hd tail] in *. destruct Hl2 as (B1 & B2 & B3).
  assert (b <> p) by set_solver. assert (b <> e) by set_solver. rewrite Hnp in F.
  destruct (F b) as [-> ->]; [apply Sub; set_solver|]. dec_eq. split; [exact B1|]. split; [reflexivity|].
  apply (linked_ext m); [|exact B3]. intros a Ha. apply Same. by right.
Qed.


Lemma remque_fields e m l : nodes l -> e ∈ l -> (next m e <> 0 -> next m e ∈ l) -> (prev m e <> 0 -> prev m e ∈ l) ->
  next m e <> e -> prev m e <> e -> 0 <= next m e < 2 ^ 64 -> 0 <= prev m e < 2 ^ 64 ->
  forall x, x ∈ l ->
    next (remque e m) x = (if decide (x = prev m e) then next m e else next m x) /\
    prev (remque e m) x = (if decide (x = next m e) then prev m e else prev m x).
Proof.
  intros Hn He Hq Hp Hqe Hpe Rq Rp x Hx. pose proof (nodes_range l _ Hn Hx).
  assert (Hcl : forall a b, a ∈ l -> b ∈ l -> clear_of a b) by (intros a b; by apply nodes_clear).
  unfold remque. cbv zeta. set (q := next m e) in *. set (pr := prev m e) in *.
  set (m1 := if negb (q =? 0) then set_prev q pr m else m).
  assert (F1 : forall y, y ∈ l -> next m1 y = next m y /\ prev m1 y = if decide (y = q) then pr else prev m y).
  { intros y Hy. pose proof (nodes_range l _ Hn Hy). unfold m1. destruct (Z.eqb_spec q 0) as [E|E]; cbn [negb].
    - split; [reflexivity|]. by rewrite decide_False by lia.
    - specialize (Hq E). split; [apply next_set_prev; auto|apply prev_set_prev; [auto|lia]]. }
  assert (E1 : next m1 e = q) by (by apply F1). assert (E2 : prev m1 e = pr).
  { destruct (F1 e He) as [_ ->]. rewrite decide_False by congruence. reflexivity. }
  rewrite E1, E2. destruct (F1 x Hx) as [Fn Fp]. destruct (Z.eqb_spec pr 0) as [E|E]; cbn [negb].
  - rewrite Fn, Fp. split; [|reflexivity]. by rewrite decide_False by lia.
  - specialize (Hp E). rewrite next_set_next, prev_set_next by (auto || lia). rewrite Fn, Fp. split; reflexivity.
Qed.

(** The list before the node that is taken out. *)
Lemma linked_relink m m' pr l nx nx' :
  NoDup l -> (forall a, a ∈ l -> prev m' a = prev m a /\ next m' a = if decide (a = final pr l) then nx' else next m a) ->
  linked m pr l nx -> linked m' pr l nx'.
Proof.
  revert pr. induction l as [|a l IH]; intros pr Hnd He; [done|]. cbn [linked final] in *. apply list.NoDup_cons in Hnd as [Ha Hnd].
  intros (H1 & H2 & H3). destruct (He a ltac:(left)) as [Ep En]. rewrite Ep, En. destruct l as [|b l].
  - cbn [final hd]. dec_eq. split; [reflexivity|]. split; [exact H2|exact I].
  - assert (a <> final a (b :: l)) by (intros E; apply Ha; rewrite E; by apply final_elem).
    rewrite decide_False by assumption. split; [exact H1|]. split; [exact H2|]. apply IH; [done| |exact H3]. intros c Hc'. apply He. by right.
Qed.

Theorem remque_unlinks e m l1 l2 : nodes (l1 ++ e :: l2) -> linked m 0 (l1 ++ e :: l2) 0 -> linked (remque e m) 0 (l1 ++ l2) 0.
Proof.
  intros Hn Hl. set (l := l1 ++ e :: l2) in *. pose proof (proj1 (proj2 Hn)) as Hnd. apply linked_app in Hl as [Hl1 Hl2]. cbn [linked hd] in Hl1, Hl2.
  destruct Hl2 as (Hnx & Hpv & Hl2). apply NoDup_app in Hnd as (Hnd1 & Hd & Hnd2). apply list.NoDup_cons in Hnd2 as [He2 Hnd2].
  assert (Sub : forall x, x ∈ l1 \/ x = e \/ x ∈ l2 -> x ∈ l) by (intros x Hx; unfold l; set_solver).
  pose proof (nodes_range l e Hn ltac:(apply Sub; tauto)) as Re. assert (He1 : e ∉ l1) by (intros Hx; apply (Hd e Hx); left).
  destruct (hd_range l l2 Hn) as [Hq1 Hq2]; [intros a Ha; apply Sub; tauto|].
  assert (Hpr : (final 0 l1 <> 0 -> final 0 l1 ∈ l) /\ 0 <= final 0 l1 < 2 ^ 64 /\ final 0 l1 <> e).
  { destruct l1 as [|a l1]; [cbn; split; [done|lia]|]. pose proof (final_elem 0 (a :: l1) ltac:(done)) as Hf.
    pose proof (nodes_range l _ Hn ltac:(apply Sub; by left)). split; [intros _; apply Sub; by left|]. split; [lia|]. intros E. by rewrite E in Hf. }
  destruct Hpr as (P1 & P2 & P3).
  assert (Hqe : hd 0 l2 <> e) by (destruct l2; cbn [hd]; [lia|]; intros ->; apply He2; left).
  rewrite <- Hnx in Hq1, Hq2, Hqe. rewrite <- Hpv in P1, P2, P3.
  assert (F := remque_fields e m l Hn ltac:(apply Sub; tauto) Hq2 P1 Hqe P3 Hq1 P2). rewrite Hnx, Hpv in F.
  apply linked_app. split.
  - apply (linked_relink m _ _ _ e); [exact Hnd1| |exact Hl1]. intros a Ha. destruct (F a) as [-> ->]; [apply Sub; tauto|]. split; [|reflexivity].
    apply decide_False. destruct l2 as [|b l2]; cbn [hd]; [pose proof (nodes_range l a Hn ltac:(apply Sub; tauto)); lia|]. intros ->. apply (Hd b Ha). right. left.
  - destruct l2 as [|b l2]; [exact I|]. cbn [linked hd] in *. destruct Hl2 as (B1 & _ & B3). apply list.NoDup_cons in Hnd2 as [Hb Hnd2].
    assert (Hf : forall x, x ∈ b :: l2 -> x <> final 0 l1).
    { intros x Hx E. destruct l1 as [|a l1]; [pose proof (nodes_range l x Hn ltac:(apply Sub; tauto)); cbn [final] in E; lia|].
      apply (Hd x); [rewrite E; by apply final_elem|by right]. }
    destruct (F b) as [-> ->]; [apply Sub; set_solver|]. pose proof (Hf b ltac:(left)). dec_eq. split; [exact B1|]. split; [reflexivity|].
    apply (linked_ext m); [|exact B3]. intros a Ha. assert (a <> b) by congruence. pose proof (Hf a ltac:(by right)).
    destruct (F a) as [-> ->]; [apply Sub; set_solver|]. dec_eq. split; reflexivity.
Qed.
End Lists.
