(* ===== verification/Utf8.v ===== *)
(** Multibyte characters (musl src/multibyte): the UTF-8 decoder [mbrtowc]
    with its restartable state, [mbtowc], the encoder [wcrtomb], the UTF-16
    and UTF-32 functions on top of them and [wcsrtombs]. *)

From stdpp Require Import base tactics list numbers option.
From Stdlib Require Import ZArith Lia.
From S2P Require Import Prelude.

#[local] Open Scope Z_scope.

Module Utf8.
Import Prelude.

(** ** The tables (internal.h, internal.c) *)

Definition SA : Z := 0xc2.
Definition SB : Z := 0xf4.

Definition OOB (c b : Z) : Z :=
  Z.land (Z.lor (Z.shiftr b 3 - 0x10) (Z.shiftr b 3 + Z.shiftr (i32 c) 26)) (Z.lnot 7).
Definition R (a b : Z) : Z := u32 (Z.shiftl (if a =? 0x80 then u32 (0x40 - b) else u32 (0 - a)) 23).

Definition C (x : Z) : Z := if x <? 2 then u32 (-1) else Z.lor (R 0x80 0xc0) x.
Definition D (x : Z) : Z := C (x + 16).
Definition E (x : Z) : Z :=
  Z.lor (Z.lor (if x =? 0 then R 0xa0 0xc0 else if x =? 0xd then R 0x80 0xa0 else R 0x80 0xc0)
               (Z.shiftr (R 0x80 0xc0) 6)) x.
Definition F (x : Z) : Z :=
  Z.lor (Z.lor (Z.lor (if 5 <=? x then 0 else if x =? 0 then R 0x90 0xc0 else if x =? 4 then R 0x80 0x90 else R 0x80 0xc0)
                      (Z.shiftr (R 0x80 0xc0) 6))
               (Z.shiftr (R 0x80 0xc0) 12)) x.

Definition bittab : list Z :=
  map C (seqZ 2 14) ++ map D (seqZ 0 16) ++ map E (seqZ 0 16) ++ map F (seqZ 0 5).

(** Bytes of other encodings as code units of a range of surrogates. *)
Definition CODEUNIT (c : Z) : Z := Z.land 0xdfff (sgn 8 (u8 c)).
Definition IS_CODEUNIT (c : Z) : bool := u32 (u32 c - 0xdf80) <? 0x80.

(** [MB_CUR_MAX]; [utf8]: the locale has a character type. *)
Definition MB_CUR_MAX (utf8 : bool) : Z := if utf8 then 4 else 1.

(** ** Decoding

    The outcome of a call: the value returned, what is stored in [*wc], the
    conversion state after the call, and whether [errno] is set to [EILSEQ].
    A function reads its string as a list of bytes; a read behind the list is
    the outcome [None]. *)
Record result : Type := Res { ret : Z; wc : option Z; st : Z; errno_ilseq : bool }.

Definition SIZE_ILSEQ : Z := u64 (-1).
Definition SIZE_INCOMPLETE : Z := u64 (-2).
Definition ilseq : result := Res SIZE_ILSEQ None 0 true.

(** [c<<6 | *s++-0x80] *)
Definition add_byte (c b : Z) : Z := Z.lor (u32 (Z.shiftl c 6)) (u32 (b - 0x80)).
(** [c&(1U<<31)] *)
Definition more (c : Z) : bool := negb (Z.land c (Z.shiftl 1 31) =? 0).
(** [*s-0x80u >= 0x40] *)
Definition not_tail (b : Z) : bool := 0x40 <=? u32 (b - 0x80).

(** The label [loop]; [N] is the 32-bit copy of the argument [n]. *)
Fixpoint loop (N c : Z) (s : list Z) (n : Z) : option result :=
  match s with
  | [] => None
  | b :: s' =>
    let c := add_byte c b in
    let n := n - 1 in
    if negb (more c) then Some (Res (u64 (N - n)) (Some c) 0 false)
    else if n =? 0 then Some (Res SIZE_INCOMPLETE None c false)
    else
      match s' with
      | [] => None
      | b' :: _ => if not_tail b' then Some ilseq else loop N c s' n
      end
  end.

(** From the state [c] on, after the first byte of a character. *)
Definition resume (N c : Z) (s : list Z) (n : Z) : option result :=
  if n =? 0 then Some (Res SIZE_INCOMPLETE None c false)
  else
    match s with
    | [] => None
    | b :: _ => if negb (OOB c b =? 0) then Some ilseq else loop N c s n
    end.

Definition mbrtowc (utf8 : bool) (src : option (list Z)) (n c : Z) : option result :=
  let N := u32 n in
  match src with
  | None => Some (if negb (c =? 0) then ilseq else Res 0 None c false)
  | Some s =>
    if n =? 0 then Some (Res SIZE_INCOMPLETE None c false)
    else if c =? 0 then
      match s with
      | [] => None
      | b :: s' =>
        if b <? 0x80 then Some (Res (if b =? 0 then 0 else 1) (Some b) c false)
        else if MB_CUR_MAX utf8 =? 1 then Some (Res 1 (Some (CODEUNIT b)) c false)
        else if SB - SA <? u32 (b - SA) then Some ilseq
        else resume N (nth (Z.to_nat (b - SA)) bittab 0) s' (n - 1)
      end
    else resume N c s n
  end.

(** [mbrtowc(0, s, n, st ? st : &internal)]: nothing is stored. *)
Definition mbrlen (utf8 : bool) (s : option (list Z)) (n c : Z) : option result :=
  match mbrtowc utf8 s n c with Some r => Some (Res (ret r) None (st r) (errno_ilseq r)) | None => None end.

Definition mbsinit (st : option Z) : bool := match st with None => true | Some c => c =? 0 end.

(** [mbtowc] keeps no state; its results are of type int. *)
Record iresult : Type := IRes { iret : Z; iwc : option Z; ierrno_ilseq : bool }.
Definition iilseq : iresult := IRes (-1) None true.

Definition mbtowc (utf8 : bool) (src : option (list Z)) (n : Z) : option iresult :=
  match src with
  | None => Some (IRes 0 None false)
  | Some s =>
    if n =? 0 then Some iilseq
    else
      match s with
      | [] => None
      | b :: s' =>
        if b <? 0x80 then Some (IRes (if b =? 0 then 0 else 1) (Some b) false)
        else if MB_CUR_MAX utf8 =? 1 then Some (IRes 1 (Some (CODEUNIT b)) false)
        else if SB - SA <? u32 (b - SA) then Some iilseq
        else
          let c := nth (Z.to_nat (b - SA)) bittab 0 in
          if (n <? 4) && more (u32 (Z.shiftl c (6 * n - 6))) then Some iilseq
          else
            match s' with
            | [] => None
            | b2 :: s2 =>
              if negb (OOB c b2 =? 0) then Some iilseq
              else
                let c := add_byte c b2 in
                if negb (more c) then Some (IRes 2 (Some c) false)
                else
                  match s2 with
                  | [] => None
                  | b3 :: s3 =>
                    if not_tail b3 then Some iilseq
                    else
                      let c := add_byte c b3 in
                      if negb (more c) then Some (IRes 3 (Some c) false)
                      else
                        match s3 with
                        | [] => None
                        | b4 :: _ => if not_tail b4 then Some iilseq else Some (IRes 4 (Some (add_byte c b4)) false)
                        end
                  end
            end
      end
  end.

Definition mblen (utf8 : bool) (s : option (list Z)) (n : Z) : option Z :=
  match mbtowc utf8 s n with Some r => Some (iret r) | None => None end.

(** ** Encoding

    The value returned, the bytes stored at [s], and whether [errno] is set. *)
Record wresult : Type := WRes { wret : Z; bytes : list Z; werrno_ilseq : bool }.

(** [s]: the pointer is not null. *)
Definition wcrtomb (utf8 : bool) (s : bool) (wc : Z) : wresult :=
  let put l := WRes (Z.of_nat (length l)) l false in
  if negb s then WRes 1 [] false
  else if u32 wc <? 0x80 then put [u8 wc]
  else if MB_CUR_MAX utf8 =? 1 then
    if negb (IS_CODEUNIT wc) then WRes SIZE_ILSEQ [] true else put [u8 wc]
  else if u32 wc <? 0x800 then
    put [u8 (Z.lor 0xc0 (Z.shiftr wc 6)); u8 (Z.lor 0x80 (Z.land wc 0x3f))]
  else if (u32 wc <? 0xd800) || (u32 (u32 wc - 0xe000) <? 0x2000) then
    put [u8 (Z.lor 0xe0 (Z.shiftr wc 12)); u8 (Z.lor 0x80 (Z.land (Z.shiftr wc 6) 0x3f)); u8 (Z.lor 0x80 (Z.land wc 0x3f))]
  else if u32 (u32 wc - 0x10000) <? 0x100000 then
    put [u8 (Z.lor 0xf0 (Z.shiftr wc 18)); u8 (Z.lor 0x80 (Z.land (Z.shiftr wc 12) 0x3f));
         u8 (Z.lor 0x80 (Z.land (Z.shiftr wc 6) 0x3f)); u8 (Z.lor 0x80 (Z.land wc 0x3f))]
  else WRes SIZE_ILSEQ [] true.

Definition wctomb (utf8 : bool) (s : bool) (wc : Z) : wresult :=
  if negb s then WRes 0 [] false
  else let r := wcrtomb utf8 true wc in WRes (i32 (wret r)) (bytes r) (werrno_ilseq r).

Definition WEOF : Z := 0xffffffff.
Definition EOF : Z := -1.
Definition btowc (utf8 : bool) (c : Z) : Z :=
  let b := u8 c in
  if b <? 128 then b else if (MB_CUR_MAX utf8 =? 1) && negb (c =? EOF) then CODEUNIT c else WEOF.
Definition wctob (utf8 : bool) (c : Z) : Z :=
  if c <? 128 then c else if (MB_CUR_MAX utf8 =? 1) && IS_CODEUNIT c then u8 c else EOF.

(** ** UTF-16 and UTF-32

    The state is a pending surrogate, or that of [mbrtowc]. *)
Definition c16rtomb (utf8 : bool) (s : bool) (c16 x : Z) : wresult * Z :=
  if negb s then if negb (x =? 0) then (WRes SIZE_ILSEQ [] true, 0) else (WRes 1 [] false, x)
  else if (x =? 0) && (u32 (c16 - 0xd800) <? 0x400) then (WRes 0 [] false, u32 (Z.shiftl (c16 - 0xd7c0) 10))
  else if negb (x =? 0) then
    if 0x400 <=? u32 (c16 - 0xdc00) then (WRes SIZE_ILSEQ [] true, 0)
    else (wcrtomb utf8 true (i32 (x + c16 - 0xdc00)), 0)
  else (wcrtomb utf8 true c16, x).

Definition mbrtoc16 (utf8 : bool) (src : option (list Z)) (n pending : Z) : option result :=
  let (s, n) := match src with None => ([0], 1) | Some s => (s, n) end in
  let keep o := match src with None => None | Some _ => o end in
  if 0 <? i32 pending then Some (Res (u64 (-3)) (keep (Some (u16 pending))) 0 false)
  else
    match mbrtowc utf8 (Some s) n pending with
    | None => None
    | Some r =>
      match wc r with
      | Some w =>
        if ret r <=? 4 then
          if 0x10000 <=? w then
            Some (Res (ret r) (keep (Some (u16 (0xd7c0 + Z.shiftr w 10)))) (Z.land w 0x3ff + 0xdc00) false)
          else Some (Res (ret r) (keep (Some (u16 w))) (st r) false)
        else Some (Res (ret r) None (st r) false)
      | None => Some (Res (ret r) None (st r) (errno_ilseq r))
      end
    end.

Definition mbrtoc32 (utf8 : bool) (src : option (list Z)) (n c : Z) : option result :=
  let (s, n) := match src with None => ([0], 1) | Some s => (s, n) end in
  match mbrtowc utf8 (Some s) n c with
  | None => None
  | Some r =>
    Some (Res (ret r) (match src with None => None | Some _ => if ret r <=? 4 then wc r else None end) (st r) (errno_ilseq r))
  end.

Definition c32rtomb (utf8 : bool) (s : bool) (c32 : Z) : wresult := wcrtomb utf8 s (i32 c32).

(** ** Strings

    The value returned, the bytes stored, the pointer left in [*ws] ([None]
    for null) and whether [errno] is set. *)
Record sresult : Type := SRes { sret : Z; out : list Z; rest : option (list Z); serrno_ilseq : bool }.

(** The loop for a null [s]; [n] counts. *)
Fixpoint wcs_count (utf8 : bool) (n : Z) (ws2 : list Z) : option (Z * bool) :=
  match ws2 with
  | [] => None
  | w :: ws2' =>
    if w =? 0 then Some (n, false)
    else if 0x80 <=? u32 w then
      let r := wcrtomb utf8 true w in
      if u64 (wret r + 1) =? 0 then Some (SIZE_ILSEQ, true) else wcs_count utf8 (u64 (n + wret r)) ws2'
    else wcs_count utf8 (u64 (n + 1)) ws2'
  end.

(** [while (n>=4)] and [while (n)]: a character has four bytes at most, so
    only the second loop writes to a buffer first. *)
Fixpoint wcs_fill (utf8 : bool) (N n : Z) (ws : list Z) (o : list Z) : option sresult :=
  if n =? 0 then Some (SRes N o (Some ws) false)
  else
    match ws with
    | [] => None
    | w :: ws' =>
      if 0x7f <=? u32 (w - 1) then
        if w =? 0 then Some (SRes (N - n) (o ++ [0]) None false)
        else
          let r := wcrtomb utf8 true w in
          if u64 (wret r + 1) =? 0 then Some (SRes SIZE_ILSEQ o (Some ws) true)
          else if (n <? 4) && (n <? wret r) then Some (SRes (N - n) o (Some ws) false)
          else wcs_fill utf8 N (u64 (n - wret r)) ws' (o ++ bytes r)
      else wcs_fill utf8 N (n - 1) ws' (o ++ [u8 w])
    end.

Definition wcsrtombs (utf8 : bool) (s : bool) (ws : list Z) (n : Z) : option sresult :=
  if negb s then
    match wcs_count utf8 0 ws with Some (k, e) => Some (SRes k [] (Some ws) e) | None => None end
  else wcs_fill utf8 n n ws [].

Definition wcstombs (utf8 : bool) (s : bool) (ws : list Z) (n : Z) : option sresult := wcsrtombs utf8 s ws n.


(** ** UTF-8

    The encoding of a scalar value, and (Table 3-7 of the Unicode standard)
    the well-formed byte sequences with the values they stand for. *)
Definition utf8 (c : Z) : option (list Z) :=
  if c <? 0 then None
  else if c <? 0x80 then Some [c]
  else if c <? 0x800 then Some [0xc0 + c / 64; 0x80 + c mod 64]
  else if (c <? 0xd800) || ((0xe000 <=? c) && (c <? 0x10000)) then
    Some [0xe0 + c / 4096; 0x80 + c / 64 mod 64; 0x80 + c mod 64]
  else if (0x10000 <=? c) && (c <? 0x110000) then
    Some [0xf0 + c / 262144; 0x80 + c / 4096 mod 64; 0x80 + c / 64 mod 64; 0x80 + c mod 64]
  else None.

Definition tail (b : Z) : Prop := 0x80 <= b < 0xc0.
Definition second (b1 b2 : Z) : Prop :=
  tail b2 /\ (b1 = 0xe0 -> 0xa0 <= b2) /\ (b1 = 0xed -> b2 < 0xa0) /\ (b1 = 0xf0 -> 0x90 <= b2) /\ (b1 = 0xf4 -> b2 < 0x90).

Inductive wf_char : list Z -> Z -> Prop :=
| wf1 b : 0 <= b < 0x80 -> wf_char [b] b
| wf2 b1 b2 : 0xc2 <= b1 < 0xe0 -> tail b2 -> wf_char [b1; b2] ((b1 - 0xc0) * 64 + (b2 - 0x80))
| wf3 b1 b2 b3 : 0xe0 <= b1 < 0xf0 -> second b1 b2 -> tail b3 ->
    wf_char [b1; b2; b3] ((b1 - 0xe0) * 4096 + (b2 - 0x80) * 64 + (b3 - 0x80))
| wf4 b1 b2 b3 b4 : 0xf0 <= b1 <= 0xf4 -> second b1 b2 -> tail b3 -> tail b4 ->
    wf_char [b1; b2; b3; b4] ((b1 - 0xf0) * 262144 + (b2 - 0x80) * 4096 + (b3 - 0x80) * 64 + (b4 - 0x80)).

Lemma wf_eq bs c c' : wf_char bs c' -> c = c' -> wf_char bs c.
Proof. by intros H ->. Qed.

(** The two agree. *)
Lemma utf8_wf c bs : utf8 c = Some bs <-> wf_char bs c.
Proof.
  split.
  - unfold utf8. intros H. repeat (zcase; cbn [orb andb] in H; try discriminate H).
    all: injection H as <-; try lia.
    all: eapply wf_eq; [constructor; unfold second, tail; split_and?; intros; zdm|zdm].
  - unfold utf8. destruct 1; unfold second, tail in *; repeat (zcase; cbn [orb andb]); try lia; repeat f_equal; zdm.
Qed.

(** *** The encoder *)

(** [a | x] where the low [k] bits of [a] are clear. *)
Lemma lor_high a x k : 0 <= k -> 0 <= x < 2 ^ k -> a mod 2 ^ k = 0 -> Z.lor a x = a + x.
Proof.
  intros Hk Hx Ha. pose proof (Z.div_mod a (2 ^ k) ltac:(lia)) as E.
  replace a with (Z.shiftl (a / 2 ^ k) k) at 1 by (rewrite Z.shiftl_mul_pow2 by lia; lia).
  rewrite Z.lor_comm, lor_shiftl_add by lia. lia.
Qed.

Lemma land_3f x : Z.land x 0x3f = x mod 64.
Proof. change 0x3f with (Z.ones 6). by rewrite land_ones_mod by lia. Qed.

(** A byte of a sequence: a marker and the bits from position [k] on. *)
Lemma tail_byte x k : 0 <= k -> u8 (Z.lor 0x80 (Z.land (Z.shiftr x k) 0x3f)) = 0x80 + x / 2 ^ k mod 64.
Proof.
  intros Hk. rewrite land_3f, Z.shiftr_div_pow2 by lia. rewrite (lor_high 0x80 _ 6) by (cbn; lia || zdm || done).
  apply u8_id. pose proof (Z.mod_pos_bound (x / 2 ^ k) 64 ltac:(lia)). lia.
Qed.

Lemma head_byte a x k j : 0 <= k -> 0 <= j -> a mod 2 ^ j = 0 -> 0 <= a < 256 - 2 ^ j -> 0 <= x / 2 ^ k < 2 ^ j ->
  u8 (Z.lor a (Z.shiftr x k)) = a + x / 2 ^ k.
Proof.
  intros Hk Hj Ha Hr Hx. rewrite Z.shiftr_div_pow2 by lia. rewrite (lor_high a _ j) by lia. apply u8_id. lia.
Qed.

(** [wcrtomb] stores the encoding of the character, and rejects what is not a
    scalar value. *)
Lemma wcrtomb_encodes w :
  - 2 ^ 31 <= w < 2 ^ 31 ->
  wcrtomb true true w =
  match utf8 w with Some l => WRes (Z.of_nat (length l)) l false | None => WRes SIZE_ILSEQ [] true end.
Proof.
  intros Hw. unfold wcrtomb, utf8. cbn [negb MB_CUR_MAX]. change (4 =? 1) with false. cbn iota.
  destruct (Z.ltb_spec w 0).
  { repeat (zcase; cbn [orb]; try done); unfold u32 in *; zdm. }
  rewrite !(u32_id w) by lia.
  destruct (Z.ltb_spec w 0x80); [rewrite u8_id by lia; done|].
  pose proof (tail_byte w 0 ltac:(lia)) as T0. rewrite Z.shiftr_0_r, Z.div_1_r in T0. rewrite T0.
  destruct (Z.ltb_spec w 0x800).
  { rewrite (head_byte 0xc0 w 6 5) by (cbn; zdm). done. }
  rewrite (tail_byte w 6), (tail_byte w 12) by lia.
  assert (E1 : (u32 (w - 0xe000) <? 0x2000) = (0xe000 <=? w) && (w <? 0x10000)) by (unfold u32; repeat zcase; cbn; zdm || done).
  assert (E2 : (u32 (w - 0x10000) <? 0x100000) = (0x10000 <=? w) && (w <? 0x110000)) by (unfold u32; repeat zcase; cbn; zdm || done).
  rewrite E1, E2. destruct (_ || _) eqn:E3.
  { rewrite (head_byte 0xe0 w 12 4); [done|lia|lia|done|cbn; lia|]. apply orb_prop in E3. cbn.
    rewrite andb_true_iff, !Z.ltb_lt, Z.leb_le in E3. zdm. }
  clear E1 E2 E3. destruct (_ && _) eqn:E4; [|done].
  rewrite (head_byte 0xf0 w 18 3); [done|lia|lia|done|cbn; lia|]. rewrite andb_true_iff, Z.ltb_lt, Z.leb_le in E4. cbn. zdm.
Qed.

(** *** The state *)

Lemma more_ge c : 0 <= c < 2 ^ 32 -> more c = (2 ^ 31 <=? c).
Proof.
  intros Hc. unfold more. change (Z.shiftl 1 31) with (2 ^ 31).
  assert (Hl : Z.land c (2 ^ 31) = if Z.testbit c 31 then 2 ^ 31 else 0).
  { apply Z.bits_inj'. intros i Hi. rewrite Z.land_spec, Z.pow2_bits_eqb by lia.
    destruct (Z.eqb_spec 31 i) as [<-|]; [destruct (Z.testbit c 31); [by rewrite Z.pow2_bits_true by lia|by rewrite Z.bits_0]|].
    rewrite andb_false_r. destruct (Z.testbit c 31); [by rewrite Z.pow2_bits_false by lia|by rewrite Z.bits_0]. }
  rewrite Hl. destruct (Z.leb_spec (2 ^ 31) c) as [Hge|Hlt].
  - replace (Z.testbit c 31) with true; [done|]. symmetry. rewrite Z.testbit_true by lia. zdm.
  - by rewrite (testbit_high c 31 31) by lia.
Qed.

Lemma add_byte_tail c b : tail b -> add_byte c b = u32 (c * 64) + (b - 0x80).
Proof.
  unfold tail. intros Hb. unfold add_byte. rewrite Z.shiftl_mul_pow2, (u32_id (b - 0x80)) by lia.
  apply (lor_high _ _ 6); [lia|lia|]. unfold u32. zdm.
Qed.

#[export] Instance tail_dec b : Decision (tail b).
Proof. unfold tail. apply _. Defined.
#[export] Instance second_dec b1 b2 : Decision (second b1 b2).
Proof. unfold second. apply _. Defined.

Lemma not_tail_spec b : 0 <= b < 256 -> not_tail b = negb (bool_decide (tail b)).
Proof.
  intros Hb. unfold not_tail, tail, u32. case_bool_decide; repeat zcase; cbn; try done; exfalso; zdm.
Qed.


(** *** The tables

    The state after a byte has the marker of one or two more bytes to come in
    its upper bits. *)
Definition tab (b1 : Z) : Z := nth (Z.to_nat (b1 - SA)) bittab 0.
Definition waiting (c : Z) : Prop := 0xc0000000 <= c < 0xc4000000.
#[export] Instance waiting_dec c : Decision (waiting c).
Proof. unfold waiting. apply _. Defined.

Definition value2 (b1 b2 : Z) : Z := (b1 - 0xc0) * 64 + (b2 - 0x80).
Definition value3 (b1 b2 b3 : Z) : Z := (b1 - 0xe0) * 4096 + (b2 - 0x80) * 64 + (b3 - 0x80).
Definition value4 (b1 b2 b3 b4 : Z) : Z := (b1 - 0xf0) * 262144 + (b2 - 0x80) * 4096 + (b3 - 0x80) * 64 + (b4 - 0x80).


(** The offset in the upper 6 bits of the entry of a first byte. *)
Definition offset (b1 : Z) : Z :=
  if b1 =? 0xe0 then -20 else if b1 =? 0xed then -12 else if b1 =? 0xf0 then -18 else if b1 =? 0xf4 then -10 else -16.

(** An entry: its offset, and what one, two and three shifts make of it. *)
Definition entry_ok (b1 : Z) : Prop :=
  let c := tab b1 in
  0 < c < 2 ^ 32 /\ 2 ^ 31 <= c /\ Z.shiftr (i32 c) 26 = offset b1 /\
  if b1 <? 0xe0 then u32 (c * 64) = (b1 - 0xc0) * 64
  else waiting (u32 (c * 64)) /\ waiting (u32 (c * 64) + 63) /\
    if b1 <? 0xf0 then u32 (c * 4096) = (b1 - 0xe0) * 4096
    else waiting (u32 (c * 4096)) /\ waiting (u32 (c * 4096) + 4095) /\ u32 (c * 262144) = (b1 - 0xf0) * 262144.
#[export] Instance entry_ok_dec b1 : Decision (entry_ok b1).
Proof. unfold entry_ok. repeat case_match; apply _. Defined.

Lemma entries_checked : forallb (fun b1 => bool_decide (entry_ok b1)) (seqZ SA 51) = true.
Proof. vm_compute. reflexivity. Qed.

Lemma entry_spec b1 : 0xc2 <= b1 <= 0xf4 -> entry_ok b1.
Proof.
  intros H1. pose proof entries_checked as H. rewrite forallb_forall in H.
  specialize (H b1 ltac:(apply list_elem_of_In, elem_of_seqZ; unfold SA; lia)). by apply bool_decide_eq_true in H.
Qed.

(** *** The test of the next byte *)

Lemma land_lnot7 x : Z.land x (Z.lnot 7) = 0 <-> 0 <= x < 8.
Proof.
  change 7 with (Z.ones 3). rewrite <- Z.ldiff_land, Z.ldiff_ones_r, Z.shiftr_div_pow2, Z.shiftl_mul_pow2 by lia. zdm.
Qed.

Lemma OOB_spec c b :
  OOB c b = 0 <-> 0 <= b / 8 - 16 < 8 /\ 0 <= b / 8 + Z.shiftr (i32 c) 26 < 8.
Proof.
  unfold OOB. rewrite Z.land_lor_distr_l, Z.lor_eq_0_iff, !land_lnot7. by rewrite Z.shiftr_div_pow2 by lia.
Qed.

(** The entry of the first byte takes the second bytes of the standard. *)
Lemma OOB_second b1 b2 : 0xc2 <= b1 <= 0xf4 -> (OOB (tab b1) b2 =? 0) = bool_decide (second b1 b2).
Proof.
  intros H1. destruct (entry_spec b1 H1) as (_ & _ & E & _). apply eq_bool_prop_intro. rewrite bool_decide_spec.
  rewrite Is_true_true, Z.eqb_eq, OOB_spec, E. unfold second, tail, offset. repeat zcase; split; intros; split_and?; intros; zdm.
Qed.

(** A state that waits takes every continuation byte and no other. *)
Lemma OOB_waiting c b : waiting c -> (OOB c b =? 0) = bool_decide (tail b).
Proof.
  intros Hc. apply eq_bool_prop_intro. rewrite bool_decide_spec, Is_true_true, Z.eqb_eq, OOB_spec.
  replace (Z.shiftr (i32 c) 26) with (-16); [unfold tail; split; intros; zdm|].
  unfold waiting, i32, sgn in *. rewrite Z.shiftr_div_pow2 by lia. rewrite Z.mod_small by lia.
  destruct (Z.ltb_spec c (2 ^ (32 - 1))); [lia|]. zdm.
Qed.

(** *** The decoder in terms of bytes *)
Definition incomplete (c : Z) : option result := Some (Res SIZE_INCOMPLETE None c false).
Definition complete (k v : Z) : option result := Some (Res (u64 k) (Some v) 0 false).

Definition after3 (b1 b2 b3 N : Z) (s : list Z) (n : Z) : option result :=
  if n =? 0 then incomplete (add_byte (add_byte (tab b1) b2) b3)
  else match s with
  | [] => None
  | b4 :: _ => if bool_decide (tail b4) then complete (N - (n - 1)) (value4 b1 b2 b3 b4) else Some ilseq
  end.
Definition after2 (b1 b2 N : Z) (s : list Z) (n : Z) : option result :=
  if n =? 0 then incomplete (add_byte (tab b1) b2)
  else match s with
  | [] => None
  | b3 :: s' =>
    if bool_decide (tail b3) then
      if b1 <? 0xf0 then complete (N - (n - 1)) (value3 b1 b2 b3) else after3 b1 b2 b3 N s' (n - 1)
    else Some ilseq
  end.
Definition after1 (b1 N : Z) (s : list Z) (n : Z) : option result :=
  if n =? 0 then incomplete (tab b1)
  else match s with
  | [] => None
  | b2 :: s' =>
    if bool_decide (second b1 b2) then
      if b1 <? 0xe0 then complete (N - (n - 1)) (value2 b1 b2) else after2 b1 b2 N s' (n - 1)
    else Some ilseq
  end.

(** The loop with the test of the byte before it. *)
Definition next (N c : Z) (s : list Z) (n : Z) : option result :=
  if n =? 0 then incomplete c
  else match s with [] => None | b :: _ => if not_tail b then Some ilseq else loop N c s n end.

Lemma loop_cons N c b s n :
  loop N c (b :: s) n =
  if more (add_byte c b) then next N (add_byte c b) s (n - 1) else complete (N - (n - 1)) (add_byte c b).
Proof. cbn [loop]. unfold next. by destruct (more (add_byte c b)). Qed.

Lemma waiting_more c : waiting c -> more c = true.
Proof. unfold waiting. intros. rewrite more_ge by lia. apply Z.leb_le. lia. Qed.
Lemma value_more c : 0 <= c < 2 ^ 31 -> more c = false.
Proof. intros. rewrite more_ge by lia. apply Z.leb_gt. lia. Qed.

Lemma add_byte_add_byte c b b' : tail b -> tail b' ->
  add_byte (add_byte c b) b' = u32 (c * 4096 + (b - 0x80) * 64) + (b' - 0x80).
Proof.
  intros Hb Hb'. rewrite !add_byte_tail by done. f_equal. unfold u32.
  rewrite <- Z.mul_mod_idemp_l, Zplus_mod_idemp_l, Z.mul_mod_idemp_l by lia. f_equal. lia.
Qed.

Lemma u32_add c x : 0 <= u32 c + x < 2 ^ 32 -> u32 (c + x) = u32 c + x.
Proof. intros H. unfold u32 in *. rewrite <- Zplus_mod_idemp_l. by rewrite Z.mod_small. Qed.

(** The states after two bytes, three and four. *)
Lemma state2 b1 b2 : 0xc2 <= b1 <= 0xf4 -> tail b2 ->
  if b1 <? 0xe0 then add_byte (tab b1) b2 = value2 b1 b2 else waiting (add_byte (tab b1) b2).
Proof.
  intros H1 Hb. destruct (entry_spec b1 H1) as (_ & _ & _ & H). rewrite add_byte_tail by done.
  destruct (b1 <? 0xe0); [by rewrite H|]. destruct H as (Ha & Hb' & _). unfold waiting, tail in *. lia.
Qed.

Lemma state3 b1 b2 b3 : 0xe0 <= b1 <= 0xf4 -> tail b2 -> tail b3 ->
  if b1 <? 0xf0 then add_byte (add_byte (tab b1) b2) b3 = value3 b1 b2 b3 else waiting (add_byte (add_byte (tab b1) b2) b3).
Proof.
  intros H1 Hb Hb3. destruct (entry_spec b1 ltac:(lia)) as (_ & _ & _ & H). rewrite add_byte_add_byte by done.
  destruct (Z.ltb_spec b1 0xe0); [lia|]. destruct H as (_ & _ & H). unfold tail in *.
  destruct (Z.ltb_spec b1 0xf0).
  - rewrite u32_add by (rewrite H; lia). rewrite H. unfold value3. lia.
  - destruct H as (Ha & Ha' & _). unfold waiting in *. rewrite u32_add by lia. lia.
Qed.

Lemma state4 b1 b2 b3 b4 : 0xf0 <= b1 <= 0xf4 -> tail b2 -> tail b3 -> tail b4 ->
  add_byte (add_byte (add_byte (tab b1) b2) b3) b4 = value4 b1 b2 b3 b4.
Proof.
  intros H1 Hb Hb3 Hb4. destruct (entry_spec b1 ltac:(lia)) as (_ & _ & _ & H).
  destruct (Z.ltb_spec b1 0xe0); [lia|]. destruct H as (_ & _ & H). destruct (Z.ltb_spec b1 0xf0); [lia|].
  destruct H as (_ & _ & H). rewrite add_byte_tail, add_byte_add_byte by done. unfold tail in *.
  assert (E : u32 ((u32 (tab b1 * 4096 + (b2 - 128) * 64) + (b3 - 128)) * 64) =
    u32 (tab b1 * 262144 + ((b2 - 128) * 4096 + (b3 - 128) * 64))).
  { unfold u32. rewrite <- Z.mul_mod_idemp_l, Zplus_mod_idemp_l, Z.mul_mod_idemp_l by lia. f_equal. lia. }
  rewrite E, u32_add by (rewrite H; lia). rewrite H. unfold value4. lia.
Qed.

(** After the first byte, the code is the decoder in terms of bytes. *)
Lemma next_tail N c b s n : n <> 0 -> 0 <= b < 256 ->
  next N c (b :: s) n = if bool_decide (tail b) then loop N c (b :: s) n else Some ilseq.
Proof.
  intros Hn Hb. unfold next. rewrite (proj2 (Z.eqb_neq n 0) Hn), not_tail_spec by done. by destruct (bool_decide (tail b)).
Qed.

Lemma next_after3 b1 b2 b3 N s n : 0xf0 <= b1 <= 0xf4 -> tail b2 -> tail b3 -> byte_list s ->
  next N (add_byte (add_byte (tab b1) b2) b3) s n = after3 b1 b2 b3 N s n.
Proof.
  intros H1 H2 H3 Hs. unfold after3. destruct (Z.eqb_spec n 0) as [->|Hn]; [done|].
  destruct s as [|b4 s]; [unfold next; by rewrite (proj2 (Z.eqb_neq n 0) Hn)|].
  apply byte_list_cons in Hs as [Hb4 Hs]. rewrite next_tail by done. case_bool_decide as H4; [|done].
  rewrite loop_cons, state4 by done. rewrite value_more; [done|]. unfold value4, tail in *. lia.
Qed.

Lemma next_after2 b1 b2 N s n : 0xe0 <= b1 <= 0xf4 -> tail b2 -> byte_list s ->
  (b1 = 0xe0 -> 0xa0 <= b2) ->
  next N (add_byte (tab b1) b2) s n = after2 b1 b2 N s n.
Proof.
  intros H1 H2 Hs He. unfold after2. destruct (Z.eqb_spec n 0) as [->|Hn]; [done|].
  destruct s as [|b3 s]; [unfold next; by rewrite (proj2 (Z.eqb_neq n 0) Hn)|].
  apply byte_list_cons in Hs as [Hb3 Hs]. rewrite next_tail by done. case_bool_decide as H3; [|done].
  rewrite loop_cons. pose proof (state3 b1 b2 b3 H1 H2 H3) as Hst. destruct (Z.ltb_spec b1 0xf0).
  - rewrite Hst, value_more; [done|]. unfold value3, tail in *. lia.
  - rewrite waiting_more by done. apply next_after3; (done || lia).
Qed.

Lemma resume_after1 b1 N s n : 0xc2 <= b1 <= 0xf4 -> byte_list s -> resume N (tab b1) s n = after1 b1 N s n.
Proof.
  intros H1 Hs. unfold resume, after1. destruct (Z.eqb_spec n 0) as [->|Hn]; [done|].
  destruct s as [|b2 s]; [done|]. apply byte_list_cons in Hs as [Hb2 Hs]. rewrite OOB_second by done.
  case_bool_decide as H2; [|done]. cbn [negb]. rewrite loop_cons. pose proof (state2 b1 b2 H1 (proj1 H2)) as Hst.
  destruct (Z.ltb_spec b1 0xe0).
  - rewrite Hst, value_more; [done|]. destruct H2 as [H2 _]. unfold value2, tail in *. lia.
  - rewrite waiting_more by done. apply next_after2; [lia|apply H2|done|apply H2].
Qed.

Lemma mbrtowc_bytes b s n : 0 <= b < 256 -> byte_list s -> n <> 0 ->
  mbrtowc true (Some (b :: s)) n 0 =
  if b <? 0x80 then Some (Res (if b =? 0 then 0 else 1) (Some b) 0 false)
  else if bool_decide (0xc2 <= b <= 0xf4) then after1 b (u32 n) s (n - 1) else Some ilseq.
Proof.
  intros Hb Hs Hn. unfold mbrtowc. rewrite (proj2 (Z.eqb_neq n 0) Hn). cbn [Z.eqb MB_CUR_MAX].
  destruct (Z.ltb_spec b 0x80); [done|]. change (4 =? 1) with false. cbn iota.
  assert (E : (SB - SA <? u32 (b - SA)) = negb (bool_decide (0xc2 <= b <= 0xf4))).
  { unfold SA, SB, u32. case_bool_decide; repeat zcase; cbn; try done; exfalso; zdm. }
  rewrite E. case_bool_decide; [|done]. cbn [negb]. by apply resume_after1.
Qed.

(** No byte behind the first [n] is read. *)
Lemma loop_app N c b s t n : n = Z.of_nat (length (b :: s)) -> loop N c ((b :: s) ++ t) n = loop N c (b :: s) n.
Proof.
  revert b c n. induction s as [|b' s IH]; intros b c n Hn; cbn [length app loop] in *;
    destruct (negb (more (add_byte c b))); try done; destruct (Z.eqb_spec (n - 1) 0) as [|Hne]; try done; [lia|].
  destruct (not_tail b'); [done|]. apply (IH b'). lia.
Qed.

Lemma resume_app N c s t : resume N c (s ++ t) (Z.of_nat (length s)) = resume N c s (Z.of_nat (length s)).
Proof.
  unfold resume. destruct (Z.eqb_spec (Z.of_nat (length s)) 0) as [|Hn]; [done|]. destruct s as [|b s]; [done|].
  cbn [app]. destruct (negb (OOB c b =? 0)); [done|]. by rewrite app_comm_cons, loop_app.
Qed.

Lemma mbrtowc_app utf8 s t c :
  mbrtowc utf8 (Some (s ++ t)) (Z.of_nat (length s)) c = mbrtowc utf8 (Some s) (Z.of_nat (length s)) c.
Proof.
  unfold mbrtowc. destruct (Z.eqb_spec (Z.of_nat (length s)) 0) as [|Hn]; [done|].
  destruct (c =? 0); [|apply resume_app]. destruct s as [|b s]; [done|]. cbn [app length].
  replace (Z.of_nat (S (length s)) - 1) with (Z.of_nat (length s)) by lia. by rewrite resume_app.
Qed.

(** *** The verdict on the bytes [s] *)
Inductive verdict (s : list Z) : result -> Prop :=
| Char c bs : utf8 c = Some bs -> bs `prefix_of` s ->
    verdict s (Res (if c =? 0 then 0 else Z.of_nat (length bs)) (Some c) 0 false)
| Partial c bs state : utf8 c = Some bs -> s `prefix_of` bs -> s <> bs -> state <> 0 ->
    verdict s (Res SIZE_INCOMPLETE None state false)
| Illegal : (forall c bs, utf8 c = Some bs -> ~ bs `prefix_of` s /\ ~ s `prefix_of` bs) -> verdict s ilseq.

Lemma verdict_char s c bs r t : wf_char bs c -> c <> 0 -> s = bs ++ t -> r = Z.of_nat (length bs) ->
  verdict s (Res r (Some c) 0 false).
Proof.
  intros H Hc -> ->. pose proof (Char (bs ++ t) c bs (proj2 (utf8_wf c bs) H) (prefix_app_r _ _ _ (reflexivity bs))) as V.
  by rewrite (proj2 (Z.eqb_neq c 0) Hc) in V.
Qed.

Lemma verdict_partial s c t st : wf_char (s ++ t) c -> t <> [] -> st <> 0 -> verdict s (Res SIZE_INCOMPLETE None st false).
Proof.
  intros H Ht Hst. apply (Partial s c (s ++ t)); [by apply utf8_wf|by exists t| |done].
  intros E. apply Ht. apply (app_inv_head s). by rewrite app_nil_r.
Qed.

Lemma verdict_illegal s : (forall c bs t, wf_char bs c -> s <> bs ++ t /\ bs <> s ++ t) -> verdict s ilseq.
Proof.
  intros H. constructor. intros c bs Hc%utf8_wf. split; intros [t E]; by destruct (H c bs t Hc).
Qed.

(** Choices of further bytes, for a sequence that is cut off. *)
Definition any_second (b1 : Z) : Z := if b1 =? 0xe0 then 0xa0 else if b1 =? 0xf0 then 0x90 else 0x80.
Lemma any_second_ok b1 : second b1 (any_second b1).
Proof. unfold second, any_second, tail. repeat zcase; split_and!; intros; lia. Qed.
Lemma tail_80 : tail 0x80.
Proof. unfold tail. lia. Qed.

Lemma wf_extend b1 b2 : 0xc2 <= b1 <= 0xf4 -> second b1 b2 ->
  exists c t, wf_char (b1 :: b2 :: t) c /\ (0xe0 <= b1 -> t <> []).
Proof.
  intros H1 H2. destruct (Z.ltb_spec b1 0xe0); [|destruct (Z.ltb_spec b1 0xf0)].
  - eexists _, []. split; [apply wf2; [lia|apply H2]|lia].
  - eexists _, [0x80]. split; [apply wf3; [lia|done|apply tail_80]|done].
  - eexists _, [0x80; 0x80]. split; [apply wf4; [lia|done|apply tail_80|apply tail_80]|done].
Qed.

Lemma waiting_ne0 c : waiting c -> c <> 0.
Proof. unfold waiting. lia. Qed.

(** A sequence with a wrong byte at a place where every character has a
    correct one. *)
Ltac illegal :=
  apply verdict_illegal; intros ? ? ?; destruct 1; split; intros ?; simplify_eq/=; unfold second, tail in *; (done || lia).

Lemma after3_verdict b1 b2 b3 s N :
  0xf0 <= b1 <= 0xf4 -> second b1 b2 -> tail b3 -> byte_list s -> N = 3 + Z.of_nat (length s) -> N < 2 ^ 32 ->
  exists r, after3 b1 b2 b3 N s (Z.of_nat (length s)) = Some r /\ verdict (b1 :: b2 :: b3 :: s) r.
Proof.
  intros H1 H2 H3 Hs HN Hlt. unfold after3. destruct s as [|b4 s]; cbn [length] in *.
  - eexists. split; [reflexivity|]. eapply (verdict_partial [b1; b2; b3] _ [0x80]); [by apply wf4, tail_80|done|].
    pose proof (state3 b1 b2 b3 ltac:(lia) (proj1 H2) H3) as Hst. destruct (Z.ltb_spec b1 0xf0); [lia|by apply waiting_ne0].
  - destruct (Z.eqb_spec (Z.of_nat (S (length s))) 0); [lia|]. apply byte_list_cons in Hs as [Hb4 Hs].
    case_bool_decide as H4; eexists; (split; [reflexivity|]).
    + eapply (verdict_char _ _ [b1; b2; b3; b4] _ s); [by apply wf4| |done|cbn; unfold u64; zdm].
      unfold value2, value3, value4, second, tail in *. lia.
    + illegal.
Qed.

Lemma after2_verdict b1 b2 s N :
  0xe0 <= b1 <= 0xf4 -> second b1 b2 -> byte_list s -> N = 2 + Z.of_nat (length s) -> N < 2 ^ 32 ->
  exists r, after2 b1 b2 N s (Z.of_nat (length s)) = Some r /\ verdict (b1 :: b2 :: s) r.
Proof.
  intros H1 H2 Hs HN Hlt. unfold after2. destruct s as [|b3 s]; cbn [length] in *.
  - eexists. split; [reflexivity|]. destruct (wf_extend b1 b2 ltac:(lia) H2) as (c & t & Hw & Ht).
    apply (verdict_partial [b1; b2] c t); [done|apply Ht; lia|].
    pose proof (state2 b1 b2 ltac:(lia) (proj1 H2)) as Hst. destruct (Z.ltb_spec b1 0xe0); [lia|by apply waiting_ne0].
  - destruct (Z.eqb_spec (Z.of_nat (S (length s))) 0); [lia|]. apply byte_list_cons in Hs as [Hb3 Hs].
    case_bool_decide as H3; [|eexists; (split; [reflexivity|]); illegal].
    destruct (Z.ltb_spec b1 0xf0).
    + eexists. split; [reflexivity|]. eapply (verdict_char _ _ [b1; b2; b3] _ s); [apply wf3; (done || lia)| |done|cbn; unfold u64; zdm].
      unfold value2, value3, value4, second, tail in *. lia.
    + replace (Z.of_nat (S (length s)) - 1) with (Z.of_nat (length s)) by lia. apply after3_verdict; (done || lia).
Qed.

Lemma after1_verdict b1 s N :
  0xc2 <= b1 <= 0xf4 -> byte_list s -> N = 1 + Z.of_nat (length s) -> N < 2 ^ 32 ->
  exists r, after1 b1 N s (Z.of_nat (length s)) = Some r /\ verdict (b1 :: s) r.
Proof.
  intros H1 Hs HN Hlt. unfold after1. destruct s as [|b2 s]; cbn [length] in *.
  - eexists. split; [reflexivity|]. destruct (wf_extend b1 _ H1 (any_second_ok b1)) as (c & t & Hw & Ht).
    apply (verdict_partial [b1] c (any_second b1 :: t)); [done|done|]. destruct (entry_spec b1 H1). lia.
  - destruct (Z.eqb_spec (Z.of_nat (S (length s))) 0); [lia|]. apply byte_list_cons in Hs as [Hb2 Hs].
    case_bool_decide as H2; [|eexists; (split; [reflexivity|]); illegal].
    destruct (Z.ltb_spec b1 0xe0).
    + eexists. split; [reflexivity|]. eapply (verdict_char _ _ [b1; b2] _ s); [apply wf2; [lia|apply H2]| |done|cbn; unfold u64; zdm].
      unfold value2, value3, value4, second, tail in *. lia.
    + replace (Z.of_nat (S (length s)) - 1) with (Z.of_nat (length s)) by lia. apply after2_verdict; (done || lia).
Qed.

(** C36: [mbrtowc] decodes UTF-8 as the standard defines it.  Given [n] bytes
    (fewer than 2^32) in the initial state it returns the character whose
    encoding they begin with, reports that they are the beginning of an
    encoding, or reports an illegal sequence when they are neither; it never
    reads a byte behind them. *)
Theorem mbrtowc_decodes s t :
  byte_list s -> 0 < Z.of_nat (length s) < 2 ^ 32 ->
  exists r, mbrtowc true (Some (s ++ t)) (Z.of_nat (length s)) 0 = Some r /\ verdict s r.
Proof.
  intros Hs Hn. rewrite mbrtowc_app. destruct s as [|b s]; [cbn in Hn; lia|]. cbn [length] in Hn.
  apply byte_list_cons in Hs as [Hb Hs]. rewrite mbrtowc_bytes by (done || (cbn; lia)).
  destruct (Z.ltb_spec b 0x80).
  - eexists. split; [reflexivity|]. replace (if b =? 0 then 0 else 1) with (if b =? 0 then 0 else Z.of_nat (length [b])) by done.
    apply Char; [apply utf8_wf; constructor; lia|by exists s].
  - case_bool_decide as H1; [|eexists; (split; [reflexivity|]); illegal].
    rewrite u32_id by (cbn; lia). replace (Z.of_nat (length (b :: s)) - 1) with (Z.of_nat (length s)) by (cbn; lia).
    apply after1_verdict; (done || (cbn; lia)).
Qed.

Lemma mbrtowc_decodes_witness :
  exists r, mbrtowc true (Some ([0xe2; 0x82; 0xac] ++ [])) 3 0 = Some r /\ verdict [0xe2; 0x82; 0xac] r.
Proof. apply (mbrtowc_decodes [0xe2; 0x82; 0xac] []); [repeat constructor; lia|cbn; lia]. Defined.

(** *** Round trip *)

Lemma after1_char b1 s t c N n :
  wf_char (b1 :: s) c -> 0x80 <= b1 -> Z.of_nat (length s) <= n ->
  after1 b1 N (s ++ t) n = complete (N - (n - Z.of_nat (length s))) c.
Proof.
  intros H Hb Hn. unfold after1, after2, after3. inversion H; subst; cbn [length app] in *; [lia| | |].
  - rewrite (bool_decide_eq_true_2 (second b1 b2)) by (unfold second, tail in *; split_and!; intros; lia).
    repeat zcase; try lia; unfold complete, value2; do 3 f_equal; lia.
  - rewrite (bool_decide_eq_true_2 (second b1 b2)), (bool_decide_eq_true_2 (tail b3)) by done.
    repeat zcase; try lia; unfold complete, value3; do 3 f_equal; lia.
  - rewrite (bool_decide_eq_true_2 (second b1 b2)), (bool_decide_eq_true_2 (tail b3)), (bool_decide_eq_true_2 (tail b4)) by done.
    repeat zcase; try lia; unfold complete, value4; do 3 f_equal; lia.
Qed.

Lemma wf_first b1 s c : wf_char (b1 :: s) c -> 0x80 <= b1 -> 0xc2 <= b1 <= 0xf4 /\ 0x80 <= c < 0x110000.
Proof. intros H Hb. inversion H; subst; unfold second, tail in *; lia. Qed.

Lemma wf_bytes bs c : wf_char bs c -> byte_list bs.
Proof. destruct 1; unfold second, tail in *; repeat constructor; lia. Qed.

(** Decoding what the encoder stored gives the character back, whatever
    follows it, and as many bytes are used as were stored (none for the null
    character).  The count is taken modulo 2^32 of the size argument, which
    the code copies to a 32-bit variable: with a size of 2^32 or more the
    character is right and the value returned is not its length. *)
Theorem wcrtomb_mbrtowc w t n :
  is_Some (utf8 w) -> byte_list t -> 4 <= n < 2 ^ 64 ->
  exists bs, wcrtomb true true w = WRes (Z.of_nat (length bs)) bs false /\
    mbrtowc true (Some (bs ++ t)) n 0 =
    Some (Res (if w =? 0 then 0 else if w <? 0x80 then 1 else u64 (Z.of_nat (length bs) - (n - u32 n))) (Some w) 0 false).
Proof.
  intros [bs Hw] Ht Hn. exists bs. pose proof (proj1 (utf8_wf w bs) Hw) as H.
  assert (Hr : 0 <= w < 0x110000 /\ (length bs <= 4)%nat) by (destruct H; unfold second, tail in *; cbn; lia).
  split; [rewrite wcrtomb_encodes by lia; by rewrite Hw|].
  destruct bs as [|b s]; [by inversion H|]. pose proof (wf_bytes _ _ H) as [Hb Hs]%byte_list_cons. cbn [app length] in *.
  rewrite mbrtowc_bytes by (done || lia || by apply byte_list_app). destruct (Z.ltb_spec b 0x80).
  - inversion H; subst; unfold second, tail in *; try lia. destruct (Z.ltb_spec w 0x80); [|lia]. by destruct (w =? 0).
  - destruct (wf_first b s w H ltac:(lia)) as [Hb1 Hc]. rewrite bool_decide_eq_true_2 by lia.
    rewrite (after1_char _ _ _ w) by (done || lia).
    rewrite (proj2 (Z.eqb_neq w 0)), (proj2 (Z.ltb_ge w 0x80)) by lia. unfold complete. do 3 f_equal. lia.
Qed.

Lemma wcrtomb_mbrtowc_witness :
  exists bs, wcrtomb true true 0x20ac = WRes (Z.of_nat (length bs)) bs false /\
    mbrtowc true (Some (bs ++ [0x41])) 4 0 = Some (Res 3 (Some 0x20ac) 0 false).
Proof.
  destruct (wcrtomb_mbrtowc 0x20ac [0x41] 4 ltac:(by eexists) ltac:(repeat constructor; lia) ltac:(lia)) as (bs & E & H).
  exists bs. split; [exact E|]. pose proof (f_equal bytes E) as Eb. vm_compute in Eb. subst bs. exact H.
Defined.

(** *** Restarting *)

(** A result for a string that begins [d] bytes earlier. *)
Definition count (d : Z) (r : result) : result :=
  match wc r with Some w => Res (u64 (ret r + d)) (Some w) (st r) (errno_ilseq r) | None => r end.

Lemma u64_sub_add a b : u64 (a + b) = u64 (u64 a + b).
Proof. unfold u64. by rewrite Zplus_mod_idemp_l. Qed.

Lemma loop_count N d c s n : loop (N + d) c s n = count d <$> loop N c s n.
Proof.
  revert c n. induction s as [|b s IH]; intros c n; [done|]. cbn [loop].
  destruct (negb (more (add_byte c b))).
  { cbn. do 2 f_equal. rewrite <- u64_sub_add. f_equal. lia. }
  destruct (n - 1 =? 0); [done|]. destruct s as [|b' s]; [done|]. destruct (not_tail b'); [done|]. apply IH.
Qed.

Lemma resume_count N d c s n : resume (N + d) c s n = count d <$> resume N c s n.
Proof.
  unfold resume. destruct (n =? 0); [done|]. destruct s as [|b s]; [done|]. destruct (negb (OOB c b =? 0)); [done|].
  apply loop_count.
Qed.

Lemma resume_next N c s n : waiting c -> byte_list s -> resume N c s n = next N c s n.
Proof.
  intros Hc Hs. unfold resume, next. destruct (n =? 0); [done|]. destruct s as [|b s]; [done|].
  apply byte_list_cons in Hs as [Hb _]. by rewrite OOB_waiting, not_tail_spec.
Qed.

(** The states in which [mbrtowc] stops, and how it goes on from there. *)
Lemma partial_state b1 s c s2 N n :
  0xc2 <= b1 <= 0xf4 -> byte_list s -> byte_list s2 -> 0 < n ->
  after1 b1 (1 + Z.of_nat (length s)) s (Z.of_nat (length s)) = incomplete c ->
  c <> 0 /\ after1 b1 N (s ++ s2) (Z.of_nat (length s) + n) = resume N c s2 n.
Proof.
  intros H1 Hs Hs2 Hn. destruct s as [|b2 s]; cbn [length app].
  { unfold after1 at 1. intros [= <-]. destruct (entry_spec b1 H1) as (? & _). split; [lia|]. by rewrite resume_after1. }
  apply byte_list_cons in Hs as [Hb2 Hs]. unfold after1. destruct (Z.eqb_spec (Z.of_nat (S (length s))) 0); [lia|].
  destruct (Z.eqb_spec (Z.of_nat (S (length s)) + n) 0); [lia|].
  case_bool_decide as H2; [|done]. destruct (Z.ltb_spec b1 0xe0); [done|].
  pose proof (state2 b1 b2 H1 (proj1 H2)) as St2. rewrite (proj2 (Z.ltb_ge b1 0xe0)) in St2 by lia.
  replace (Z.of_nat (S (length s)) - 1) with (Z.of_nat (length s)) by lia.
  replace (Z.of_nat (S (length s)) + n - 1) with (Z.of_nat (length s) + n) by lia.
  destruct s as [|b3 s]; cbn [length app].
  { unfold after2 at 1. intros [= <-]. split; [by apply waiting_ne0|]. rewrite resume_next by done.
    rewrite next_after2; [done|lia|apply H2|done|apply H2]. }
  apply byte_list_cons in Hs as [Hb3 Hs]. unfold after2. destruct (Z.eqb_spec (Z.of_nat (S (length s))) 0); [lia|].
  destruct (Z.eqb_spec (Z.of_nat (S (length s)) + n) 0); [lia|].
  case_bool_decide as H3; [|done]. destruct (Z.ltb_spec b1 0xf0); [done|].
  pose proof (state3 b1 b2 b3 ltac:(lia) (proj1 H2) H3) as St3. rewrite (proj2 (Z.ltb_ge b1 0xf0)) in St3 by lia.
  replace (Z.of_nat (S (length s)) - 1) with (Z.of_nat (length s)) by lia.
  replace (Z.of_nat (S (length s)) + n - 1) with (Z.of_nat (length s) + n) by lia.
  destruct s as [|b4 s]; cbn [length app].
  { unfold after3 at 1. intros [= <-]. split; [by apply waiting_ne0|]. rewrite resume_next by done.
    rewrite next_after3; [done|lia|apply H2|done|done]. }
  unfold after3. destruct (Z.eqb_spec (Z.of_nat (S (length s))) 0); [lia|]. by case_bool_decide.
Qed.

(** The decoder can be restarted: when the bytes given so far are the
    beginning of a character, going on from the saved state with the bytes
    that follow gives the result of one call on all of them, with the bytes
    of the second call counted. *)
Theorem mbrtowc_restart s1 s2 c :
  byte_list s1 -> byte_list s2 -> s1 <> [] -> s2 <> [] -> Z.of_nat (length s1 + length s2) < 2 ^ 32 ->
  mbrtowc true (Some s1) (Z.of_nat (length s1)) 0 = Some (Res SIZE_INCOMPLETE None c false) ->
  mbrtowc true (Some (s1 ++ s2)) (Z.of_nat (length s1 + length s2)) 0 =
  count (Z.of_nat (length s1)) <$> mbrtowc true (Some s2) (Z.of_nat (length s2)) c.
Proof.
  intros Hs1 Hs2 Hn1 Hn2 Hlt H. destruct s1 as [|b1 s]; [done|]. clear Hn1.
  apply byte_list_cons in Hs1 as [Hb1 Hs]. cbn [length app] in *.
  assert (0 < Z.of_nat (length s2)) by (destruct s2; [done|cbn; lia]).
  rewrite mbrtowc_bytes in * by (done || lia || by apply byte_list_app). destruct (b1 <? 0x80); [done|].
  case_bool_decide as H1; [|done]. rewrite !u32_id in * by lia.
  replace (Z.of_nat (S (length s)) - 1) with (Z.of_nat (length s)) in H by lia.
  replace (Z.of_nat (S (length s))) with (1 + Z.of_nat (length s)) in H by lia.
  replace (Z.of_nat (S (length s) + length s2) - 1) with (Z.of_nat (length s) + Z.of_nat (length s2)) by lia.
  destruct (partial_state b1 s c s2 (Z.of_nat (S (length s) + length s2)) (Z.of_nat (length s2)) H1 Hs Hs2 ltac:(lia) H) as [Hc ->].
  unfold mbrtowc. rewrite (proj2 (Z.eqb_neq c 0) Hc). destruct (Z.eqb_spec (Z.of_nat (length s2)) 0); [lia|].
  rewrite u32_id by lia. rewrite <- resume_count. f_equal. lia.
Qed.

Lemma mbrtowc_restart_witness :
  mbrtowc true (Some [0xf0; 0x9f; 0x98; 0x80]) 4 0 = Some (Res 4 (Some 0x1f600) 0 false) /\
  mbrtowc true (Some [0xf0; 0x9f; 0x98; 0x80]) 4 0 =
  count 2 <$> mbrtowc true (Some [0x98; 0x80]) 2 (add_byte (tab 0xf0) 0x9f).
Proof.
  split; [reflexivity|].
  apply (mbrtowc_restart [0xf0; 0x9f] [0x98; 0x80]); [repeat constructor; lia|repeat constructor; lia|done|done|cbn; lia|reflexivity].
Defined.

(** *** [mbtowc] *)

Definition char_len (b1 : Z) : Z := if b1 <? 0xe0 then 2 else if b1 <? 0xf0 then 3 else 4.

(** The early test finds out whether [n] bytes are too few. *)
Lemma early_test b1 n : 0xc2 <= b1 <= 0xf4 -> 1 <= n < 4 ->
  more (u32 (Z.shiftl (tab b1) (6 * n - 6))) = (n <? char_len b1).
Proof.
  intros H1 Hn. destruct (entry_spec b1 H1) as (Hr & Hm & _ & H). rewrite Z.shiftl_mul_pow2 by lia. unfold char_len.
  assert (n = 1 \/ n = 2 \/ n = 3) as [->|[->| ->]] by lia.
  - change (2 ^ (6 * 1 - 6)) with 1. rewrite Z.mul_1_r, u32_id, more_ge by lia. repeat zcase; lia || done.
  - change (2 ^ (6 * 2 - 6)) with 64. destruct (Z.ltb_spec b1 0xe0).
    + rewrite H, value_more by lia. done.
    + rewrite waiting_more by apply H. by destruct (b1 <? 0xf0).
  - change (2 ^ (6 * 3 - 6)) with 4096. destruct (Z.ltb_spec b1 0xe0).
    + assert (E : u32 (tab b1 * 4096) = (b1 - 0xc0) * 4096).
      { unfold u32 in *. replace (tab b1 * 4096) with (tab b1 * 64 * 64) by lia. rewrite <- Z.mul_mod_idemp_l, H by lia. zdm. }
      rewrite E, value_more by lia. done.
    + destruct H as (_ & _ & H). destruct (Z.ltb_spec b1 0xf0).
      * rewrite H, value_more by lia. done.
      * by rewrite waiting_more by apply H.
Qed.

(** The results of the restartable function as those of the other. *)
Definition to_int (r : result) : iresult :=
  match wc r with Some w => IRes (ret r) (Some w) false | None => iilseq end.

Lemma after1_short b1 s N :
  0xc2 <= b1 <= 0xf4 -> 1 + Z.of_nat (length s) < char_len b1 ->
  to_int <$> after1 b1 N s (Z.of_nat (length s)) = Some iilseq.
Proof.
  intros H1. unfold char_len, after1, after2, after3. destruct s as [|b2 [|b3 [|b4 s]]]; cbn [length]; [done|..]; intros Hl.
  all: repeat zcase; try lia; repeat case_bool_decide; try done.
Qed.

(** With enough bytes, the straight line code after the first byte. *)
Definition straight (c : Z) (s : list Z) : option iresult :=
  match s with
  | [] => None
  | b2 :: s2 =>
    if negb (OOB c b2 =? 0) then Some iilseq
    else
      let c := add_byte c b2 in
      if negb (more c) then Some (IRes 2 (Some c) false)
      else
        match s2 with
        | [] => None
        | b3 :: s3 =>
          if not_tail b3 then Some iilseq
          else
            let c := add_byte c b3 in
            if negb (more c) then Some (IRes 3 (Some c) false)
            else match s3 with [] => None | b4 :: _ => if not_tail b4 then Some iilseq else Some (IRes 4 (Some (add_byte c b4)) false) end
        end
  end.

Lemma straight_after1 b1 s t :
  0xc2 <= b1 <= 0xf4 -> byte_list s -> char_len b1 <= 1 + Z.of_nat (length s) < 2 ^ 32 ->
  straight (tab b1) (s ++ t) = to_int <$> after1 b1 (1 + Z.of_nat (length s)) s (Z.of_nat (length s)).
Proof.
  intros H1 Hs Hl. unfold char_len in Hl. unfold after1.
  destruct s as [|b2 s]; [cbn in Hl; repeat zcase; lia|]. cbn [length app straight] in *.
  destruct (Z.eqb_spec (Z.of_nat (S (length s))) 0); [lia|]. apply byte_list_cons in Hs as [Hb2 Hs].
  rewrite OOB_second by done. case_bool_decide as H2; [|done]. cbn [negb].
  pose proof (state2 b1 b2 H1 (proj1 H2)) as St2. destruct (Z.ltb_spec b1 0xe0).
  { rewrite St2, value_more by (unfold value2, second, tail in *; lia). cbn. do 2 f_equal. unfold u64. zdm. }
  rewrite waiting_more by done. cbn [negb]. replace (Z.of_nat (S (length s)) - 1) with (Z.of_nat (length s)) by lia. unfold after2.
  destruct s as [|b3 s]; [cbn in Hl; repeat zcase; lia|]. cbn [length app] in *.
  destruct (Z.eqb_spec (Z.of_nat (S (length s))) 0); [lia|]. apply byte_list_cons in Hs as [Hb3 Hs].
  rewrite not_tail_spec by done. case_bool_decide as H3; [|done]. cbn [negb].
  pose proof (state3 b1 b2 b3 ltac:(lia) (proj1 H2) H3) as St3. destruct (Z.ltb_spec b1 0xf0).
  { rewrite St3, value_more by (unfold value3, second, tail in *; lia). cbn. do 2 f_equal. unfold u64. zdm. }
  rewrite waiting_more by done. cbn [negb]. replace (Z.of_nat (S (length s)) - 1) with (Z.of_nat (length s)) by lia. unfold after3.
  destruct s as [|b4 s]; [cbn in Hl; repeat zcase; lia|]. cbn [length app] in *.
  destruct (Z.eqb_spec (Z.of_nat (S (length s))) 0); [lia|]. apply byte_list_cons in Hs as [Hb4 Hs].
  rewrite not_tail_spec by done. case_bool_decide as H4; [|done]. cbn [negb].
  rewrite state4 by (done || lia || apply H2). cbn. do 2 f_equal. unfold u64. zdm.
Qed.

(** [mbtowc], which decodes without a loop and tests the number of bytes
    once, agrees with [mbrtowc] in the initial state: the same character and
    length, and an error where the other reports an incomplete or illegal
    sequence.  It reads no byte behind the [n] it is given. *)
Theorem mbtowc_mbrtowc s t :
  byte_list s -> byte_list t -> 0 < Z.of_nat (length s) < 2 ^ 32 ->
  mbtowc true (Some (s ++ t)) (Z.of_nat (length s)) = to_int <$> mbrtowc true (Some s) (Z.of_nat (length s)) 0.
Proof.
  intros Hs Ht Hn. destruct s as [|b1 s]; [cbn in Hn; lia|]. apply byte_list_cons in Hs as [Hb1 Hs]. cbn [app length] in *.
  rewrite mbrtowc_bytes by (done || lia). unfold mbtowc. destruct (Z.eqb_spec (Z.of_nat (S (length s))) 0); [lia|].
  destruct (b1 <? 0x80) eqn:E80; [by destruct (b1 =? 0)|]. apply Z.ltb_ge in E80.
  change (MB_CUR_MAX true =? 1) with false. cbn iota.
  assert (E : (SB - SA <? u32 (b1 - SA)) = negb (bool_decide (0xc2 <= b1 <= 0xf4))).
  { unfold SA, SB, u32. case_bool_decide; repeat zcase; cbn; try done; exfalso; zdm. }
  rewrite E. case_bool_decide as H1; [|done]. cbn [negb]. fold (tab b1). rewrite (u32_id (Z.of_nat (S (length s)))) by lia.
  replace (Z.of_nat (S (length s)) - 1) with (Z.of_nat (length s)) by lia.
  destruct (Z.ltb_spec (Z.of_nat (S (length s))) (char_len b1)) as [Hs'|Hl].
  - rewrite after1_short by (done || lia). rewrite early_test by (unfold char_len in *; repeat zcase; lia).
    assert (Z.of_nat (S (length s)) < 4) by (unfold char_len in *; repeat zcase; lia).
    rewrite (proj2 (Z.ltb_lt _ 4)), (proj2 (Z.ltb_lt _ (char_len b1))) by lia. done.
  - assert (Ee : (Z.of_nat (S (length s)) <? 4) && more (u32 (Z.shiftl (tab b1) (6 * Z.of_nat (S (length s)) - 6))) = false).
    { destruct (Z.ltb_spec (Z.of_nat (S (length s))) 4); [|done]. rewrite early_test by lia. by apply Z.ltb_ge. }
    rewrite Ee. replace (Z.of_nat (S (length s))) with (1 + Z.of_nat (length s)) by lia.
    apply straight_after1; (done || lia).
Qed.

Lemma mbtowc_mbrtowc_witness :
  mbtowc true (Some ([0xc3; 0xa9] ++ [0x41])) 2 = to_int <$> mbrtowc true (Some [0xc3; 0xa9]) 2 0.
Proof. apply (mbtowc_mbrtowc [0xc3; 0xa9] [0x41]); [repeat constructor; lia|repeat constructor; lia|cbn; lia]. Defined.

(** *** UTF-16 *)

Definition high_surrogate (w : Z) : Z := 0xd800 + (w - 0x10000) / 1024.
Definition low_surrogate (w : Z) : Z := 0xdc00 + w mod 1024.

Lemma mbrtowc_char w bs t n :
  utf8 w = Some bs -> byte_list t -> 4 <= n < 2 ^ 32 ->
  mbrtowc true (Some (bs ++ t)) n 0 = Some (Res (if w =? 0 then 0 else Z.of_nat (length bs)) (Some w) 0 false).
Proof.
  intros Hw Ht Hn. pose proof (proj1 (utf8_wf w bs) Hw) as H. pose proof (wf_bytes _ _ H) as Hb.
  assert (Hlen : (length bs <= 4)%nat) by (destruct H; cbn; lia).
  destruct bs as [|b s]; [by inversion H|]. apply byte_list_cons in Hb as [Hb Hs]. cbn [app length] in *.
  rewrite mbrtowc_bytes by (done || lia || by apply byte_list_app). destruct (Z.ltb_spec b 0x80).
  - inversion H; subst; unfold second, tail in *; try lia. done.
  - destruct (wf_first b s w H ltac:(lia)) as [Hb1 Hc]. rewrite bool_decide_eq_true_2 by lia.
    rewrite (after1_char _ _ _ w) by (done || lia). rewrite u32_id by lia.
    rewrite (proj2 (Z.eqb_neq w 0)) by lia. unfold complete. do 2 f_equal. unfold u64. zdm.
Qed.

(** Characters beyond 16 bits go through UTF-16 as a pair of surrogates:
    [mbrtoc16] delivers the two units of the character one after the other,
    and [c16rtomb], fed with them in that order, stores the encoding of the
    character; every other character is one unit. *)
Theorem utf16_round_trip w bs t n :
  utf8 w = Some bs -> byte_list t -> 4 <= n < 2 ^ 32 ->
  let r := if w =? 0 then 0 else Z.of_nat (length bs) in
  let stored := WRes (Z.of_nat (length bs)) bs false in
  if w <? 0x10000 then
    mbrtoc16 true (Some (bs ++ t)) n 0 = Some (Res r (Some w) 0 false) /\ c16rtomb true true w 0 = (stored, 0)
  else
    mbrtoc16 true (Some (bs ++ t)) n 0 = Some (Res r (Some (high_surrogate w)) (low_surrogate w) false) /\
    mbrtoc16 true (Some t) n (low_surrogate w) = Some (Res (u64 (-3)) (Some (low_surrogate w)) 0 false) /\
    exists x, c16rtomb true true (high_surrogate w) 0 = (WRes 0 [] false, x) /\ c16rtomb true true (low_surrogate w) x = (stored, 0).
Proof.
  intros Hw Ht Hn r stored. pose proof (mbrtowc_char w bs t n Hw Ht Hn) as Hm. fold r in Hm.
  pose proof (proj1 (utf8_wf w bs) Hw) as H.
  assert (Hr : 0 <= w < 0x110000 /\ 0 <= r <= 4 /\ ~ 0xd800 <= w < 0xe000).
  { subst r. destruct H; unfold second, tail in *; cbn; destruct (_ =? 0); lia. }
  assert (Hs : wcrtomb true true w = stored) by (rewrite wcrtomb_encodes by lia; by rewrite Hw).
  destruct (Z.ltb_spec w 0x10000).
  - split.
    + unfold mbrtoc16. cbn [i32]. change (0 <? i32 0) with false. cbn iota. rewrite Hm. cbn [wc ret st].
      rewrite (proj2 (Z.leb_le r 4)), (proj2 (Z.leb_gt 0x10000 w)) by lia. unfold u16. by rewrite Z.mod_small by lia.
    + unfold c16rtomb. cbn [negb]. change (0 =? 0) with true. cbn [andb negb].
      destruct (Z.ltb_spec (u32 (w - 0xd800)) 0x400) as [Hlt|_]; [unfold u32 in Hlt; zdm|]. by rewrite Hs.
  - split; [|split].
    + unfold mbrtoc16. change (0 <? i32 0) with false. cbn iota. rewrite Hm. cbn [wc ret st].
      rewrite (proj2 (Z.leb_le r 4)), (proj2 (Z.leb_le 0x10000 w)) by lia. unfold high_surrogate, low_surrogate.
      rewrite Z.shiftr_div_pow2 by lia. change 0x3ff with (Z.ones 10). rewrite land_ones_mod by lia. 
      change (2 ^ 10) with 1024.
      replace (u16 (0xd7c0 + w / 1024)) with (0xd800 + (w - 0x10000) / 1024) by (unfold u16; zdm). do 2 f_equal. lia.
    + unfold mbrtoc16, low_surrogate, i32, sgn. pose proof (Z.mod_pos_bound w 1024 ltac:(lia)).
      rewrite Z.mod_small by lia. destruct (Z.ltb_spec (0xdc00 + w mod 1024) (2 ^ (32 - 1))); [|lia].
      rewrite (proj2 (Z.ltb_lt 0 _)) by lia. unfold u16. by rewrite Z.mod_small by lia.
    + exists (w - w mod 1024). unfold c16rtomb, high_surrogate, low_surrogate. cbn [negb]. change (0 =? 0) with true.
      pose proof (Z.mod_pos_bound w 1024 ltac:(lia)).
      destruct (Z.ltb_spec (u32 (0xd800 + (w - 0x10000) / 1024 - 0xd800)) 0x400) as [_|Hge]; [|unfold u32 in Hge; zdm].
      split; [cbn [andb]; do 2 f_equal; rewrite Z.shiftl_mul_pow2 by lia; unfold u32; zdm|].
      destruct (Z.eqb_spec (w - w mod 1024) 0); [zdm|]. cbn [andb negb].
      destruct (Z.leb_spec 0x400 (u32 (0xdc00 + w mod 1024 - 0xdc00))) as [Hge|_]; [unfold u32 in Hge; zdm|].
      f_equal. rewrite <- Hs. f_equal. unfold i32, sgn. rewrite Z.mod_small by lia. zcase; lia.
Qed.

Lemma utf16_round_trip_witness :
  mbrtoc16 true (Some [0xf0; 0x9f; 0x98; 0x80]) 4 0 = Some (Res 4 (Some 0xd83d) 0xde00 false).
Proof. apply (utf16_round_trip 0x1f600 [0xf0; 0x9f; 0x98; 0x80] [] 4); [reflexivity|constructor|lia]. Defined.

(** *** Strings *)

Definition encode (ws : list Z) : list Z := concat (map (fun w => default [] (utf8 w)) ws).
Definition size (ws : list Z) : Z := Z.of_nat (length (encode ws)).
Definition valid (ws : list Z) : Prop := Forall (fun w => 0 < w /\ is_Some (utf8 w)) ws.

Lemma encode_app p q : encode (p ++ q) = encode p ++ encode q.
Proof. unfold encode. by rewrite map_app, concat_app. Qed.
Lemma size_cons w q : size (w :: q) = Z.of_nat (length (default [] (utf8 w))) + size q.
Proof. unfold size, encode. cbn [map concat]. rewrite length_app. lia. Qed.
Lemma size_nonneg q : 0 <= size q.
Proof. unfold size. lia. Qed.

(** A valid character: one byte of its own value, or what [wcrtomb] stores. *)
Lemma valid_char w : 0 < w -> is_Some (utf8 w) ->
  exists bs, utf8 w = Some bs /\ wcrtomb true true w = WRes (Z.of_nat (length bs)) bs false /\
    1 <= Z.of_nat (length bs) <= 4 /\ 0 < w < 0x110000 /\ (w < 0x80 -> bs = [w]).
Proof.
  intros Hw [bs Hb]. exists bs. pose proof (proj1 (utf8_wf w bs) Hb) as H.
  assert (w < 0x110000 /\ 1 <= Z.of_nat (length bs) <= 4) by (destruct H; unfold second, tail in *; cbn; lia).
  split; [done|]. split; [rewrite wcrtomb_encodes by lia; by rewrite Hb|]. split; [lia|]. split; [lia|].
  intros Hlt. unfold utf8 in Hb. rewrite (proj2 (Z.ltb_ge w 0)), (proj2 (Z.ltb_lt w 0x80)) in Hb by lia. by injection Hb as <-.
Qed.

Lemma wcs_count_spec n ws t :
  valid ws -> 0 <= n -> n + size ws < 2 ^ 64 -> wcs_count true n (ws ++ 0 :: t) = Some (n + size ws, false).
Proof.
  revert n. induction ws as [|w ws IH]; intros n Hv Hn Hs.
  { cbn. unfold size, encode. cbn. by rewrite Z.add_0_r. }
  apply List.Forall_cons_iff in Hv as [[Hw Hsome] Hv]. destruct (valid_char w Hw Hsome) as (bs & Hb & Hr & Hl & Hr' & H1).
  rewrite size_cons, Hb in *. change (default [] (Some bs)) with bs in *. pose proof (size_nonneg ws). cbn [app wcs_count].
  rewrite (proj2 (Z.eqb_neq w 0)) by lia. rewrite u32_id by lia. destruct (Z.leb_spec 0x80 w).
  - rewrite Hr. cbn [wret]. rewrite (u64_id (_ + 1)) by lia. destruct (Z.eqb_spec (Z.of_nat (length bs) + 1) 0); [lia|].
    rewrite u64_id by lia. rewrite IH by (done || lia). do 2 f_equal. lia.
  - rewrite H1 in * by lia. cbn [length] in *. rewrite u64_id by lia. rewrite IH by (done || lia). do 2 f_equal. lia.
Qed.

(** One turn of the loops on a character. *)
Lemma wcs_fill_char N n w ws o :
  0 < w -> is_Some (utf8 w) -> 0 < n < 2 ^ 64 ->
  wcs_fill true N n (w :: ws) o =
  if n <? size [w] then Some (SRes (N - n) o (Some (w :: ws)) false) else wcs_fill true N (n - size [w]) ws (o ++ encode [w]).
Proof.
  intros Hw Hsome Hn. destruct (valid_char w Hw Hsome) as (bs & Hb & Hr & Hl & Hr' & H1).
  assert (Ee : encode [w] = bs) by (unfold encode; cbn; by rewrite Hb, app_nil_r).
  unfold size. rewrite Ee. cbn [wcs_fill]. rewrite (proj2 (Z.eqb_neq n 0)) by lia. rewrite (u32_id (w - 1)) by lia.
  destruct (Z.leb_spec 0x7f (w - 1)).
  - rewrite (proj2 (Z.eqb_neq w 0)) by lia. rewrite Hr. cbn [wret bytes]. rewrite (u64_id (_ + 1)) by lia.
    destruct (Z.eqb_spec (Z.of_nat (length bs) + 1) 0); [lia|].
    destruct (Z.ltb_spec n (Z.of_nat (length bs))).
    + by rewrite (proj2 (Z.ltb_lt n 4)) by lia.
    + rewrite andb_false_r. by rewrite u64_id by lia.
  - rewrite H1 by lia. cbn [length]. destruct (Z.ltb_spec n (Z.of_nat 1)); [lia|]. rewrite u8_id by lia. done.
Qed.

Lemma wcs_fill_spec N n ws t o :
  valid ws -> 0 <= n < 2 ^ 64 ->
  (size ws < n -> wcs_fill true N n (ws ++ 0 :: t) o = Some (SRes (N - n + size ws) (o ++ encode ws ++ [0]) None false)) /\
  (n <= size ws -> exists p q, ws = p ++ q /\ size p <= n /\ (forall w q', q = w :: q' -> n < size (p ++ [w])) /\
     wcs_fill true N n (ws ++ 0 :: t) o = Some (SRes (N - n + size p) (o ++ encode p) (Some (q ++ 0 :: t)) false)).
Proof.
  revert n o. induction ws as [|w ws IH]; intros n o Hv Hn.
  - split; intros Hs; unfold size, encode in Hs; cbn in Hs; cbn [app].
    + cbn [wcs_fill]. rewrite (proj2 (Z.eqb_neq n 0)) by lia. change (u32 (0 - 1)) with (2 ^ 32 - 1). cbn. do 2 f_equal. unfold size, encode. cbn. lia.
    + exists [], []. assert (n = 0) as -> by lia. split_and!; [done|by cbn|done|]. cbn. unfold size, encode. cbn.
      by rewrite app_nil_r, Z.sub_0_r, Z.add_0_r.
  - apply List.Forall_cons_iff in Hv as [[Hw Hsome] Hv]. destruct (valid_char w Hw Hsome) as (bs & Hb & _ & Hl & _).
    assert (Es : size [w] = Z.of_nat (length bs)) by (rewrite size_cons, Hb; cbn; unfold size, encode; cbn; lia).
    assert (Ec : forall q, size (w :: q) = size [w] + size q) by (intros q; rewrite Es, size_cons, Hb; done).
    assert (En : forall q, encode (w :: q) = encode [w] ++ encode q) by (intros q; exact (encode_app [w] q)).
    pose proof (size_nonneg ws). rewrite (Ec ws). destruct (Z.eqb_spec n 0) as [->|Hn0].
    { split; [lia|]. intros _. exists [], (w :: ws). split_and!; [done|by cbn| |].
      - intros ? ? [= <- <-]. cbn [app]. lia.
      - cbn. unfold size, encode. cbn. by rewrite app_nil_r, Z.sub_0_r, Z.add_0_r. }
    cbn [app]. rewrite wcs_fill_char by (done || lia). destruct (Z.ltb_spec n (size [w])).
    { split; [lia|]. intros _. exists [], (w :: ws). split_and!; [done|unfold size, encode; cbn; lia| |].
      - intros ? ? [= <- <-]. done.
      - unfold size, encode. cbn. by rewrite app_nil_r, Z.add_0_r. }
    destruct (IH (n - size [w]) (o ++ encode [w]) Hv ltac:(lia)) as [IH1 IH2]. split.
    + intros Hs. rewrite IH1 by lia. rewrite (En ws), <- !app_assoc.
      by replace (N - (n - size [w]) + size ws) with (N - n + (size [w] + size ws)) by lia.
    + intros Hs. destruct (IH2 ltac:(lia)) as (p & q & -> & Hp & Hq & ->). exists (w :: p), q. rewrite (Ec p), (En p).
      split_and!; [done|lia| |].
      * intros w' q' Eq. specialize (Hq w' q' Eq). cbn [app]. rewrite (Ec (p ++ [w'])). lia.
      * rewrite <- app_assoc. by replace (N - (n - size [w]) + size p) with (N - n + (size [w] + size p)) by lia.
Qed.

(** [wcsrtombs] on a string of valid characters: without a buffer it
    returns the length of the encoding; with room for more than that it stores
    the encoding and a terminator; with less it stores as many whole
    characters as fit and leaves the pointer at the first one that does not. *)
Theorem wcsrtombs_encodes ws t n :
  valid ws -> size ws < 2 ^ 64 -> 0 <= n < 2 ^ 64 ->
  let s := ws ++ 0 :: t in
  wcsrtombs true false s n = Some (SRes (size ws) [] (Some s) false) /\
  (size ws < n -> wcsrtombs true true s n = Some (SRes (size ws) (encode ws ++ [0]) None false)) /\
  (n <= size ws -> exists p q, ws = p ++ q /\ size p <= n /\ (forall w q', q = w :: q' -> n < size (p ++ [w])) /\
     wcsrtombs true true s n = Some (SRes (size p) (encode p) (Some (q ++ 0 :: t)) false)).
Proof.
  cbv zeta. intros Hv Hs Hn. unfold wcsrtombs. cbn [negb]. split; [by rewrite wcs_count_spec by (done || lia)|].
  destruct (wcs_fill_spec n n ws t [] Hv Hn) as [H1 H2]. split.
  - intros Hlt. rewrite H1 by done. by rewrite Z.sub_diag.
  - intros Hge. destruct (H2 Hge) as (p & q & E & Hp & Hq & Ef). exists p, q. rewrite Ef. split_and!; [done|done|done|].
    by rewrite Z.sub_diag.
Qed.

Lemma wcsrtombs_encodes_witness :
  wcsrtombs true true [0x20ac; 0x41; 0] 10 = Some (SRes 4 ([0xe2; 0x82; 0xac; 0x41] ++ [0]) None false).
Proof.
  apply (wcsrtombs_encodes [0x20ac; 0x41] [] 10); [|reflexivity|lia|reflexivity].
  repeat constructor; by eexists.
Defined.
End Utf8.
