(* ===== verification/Interrupts.v ===== *)
(** Descriptor tables (kernel/Interrupts, kernel/Faults, kernel/Memory/Gdt):
    the gates of the interrupt table, [AddHandler], the fault handlers and
    the segment table, with what the processor reads from them. *)

From stdpp Require Import base tactics list gmap numbers option strings.
From Stdlib Require Import ZArith Lia.
From S2P Require Import Prelude Mem Console.

#[local] Open Scope Z_scope.

Module Interrupts.
Import Prelude Mem.
#[local] Open Scope lofi_scope.

(** ** State

    The memory, the global [Idt0] and the processor: the operand of the last
    [lidt] and [lgdt] (a table register holds a limit and an address) and
    the interrupt flag. *)
Record cpu := mkCpu {
  mem : gmap Z Z;
  Idt0_Limit : Z;
  Idt0_Offset : Z;
  idtr : option (Z * Z);
  gdtr : option (Z * Z);
  interrupts_on : bool
}.

Definition set_mem (m : gmap Z Z) (s : cpu) : cpu :=
  mkCpu m (Idt0_Limit s) (Idt0_Offset s) (idtr s) (gdtr s) (interrupts_on s).
Definition set_Idt0 (limit offset : Z) (s : cpu) : cpu :=
  mkCpu (mem s) limit offset (idtr s) (gdtr s) (interrupts_on s).
Definition lidt (s : cpu) : cpu :=
  mkCpu (mem s) (Idt0_Limit s) (Idt0_Offset s) (Some (Idt0_Limit s, Idt0_Offset s)) (gdtr s) (interrupts_on s).
Definition lgdt (size offset : Z) (s : cpu) : cpu :=
  mkCpu (mem s) (Idt0_Limit s) (Idt0_Offset s) (idtr s) (Some (size, offset)) (interrupts_on s).
Definition sti (s : cpu) : cpu :=
  mkCpu (mem s) (Idt0_Limit s) (Idt0_Offset s) (idtr s) (gdtr s) true.

(** ** Gates

    [InterruptEntry]: Offset0 at 0, Selector at 2, StackListOffset at 4,
    TypeAttribute at 5, Offset1 at 6, Offset2 at 8, Ignore at 12. *)
Definition sizeof_InterruptEntry : Z := 16.
Definition IntTA_Gate : Z := 0x8E.

Definition SetInterruptOffset (m : gmap Z Z) (IntAddress Offset : Z) : gmap Z Z :=
  let m := st 2 m IntAddress (u16 (Z.land Offset 0xFFFF)) in
  let m := st 2 m (IntAddress + 6) (u16 (Z.shiftr (Z.land Offset 0xFFFF0000) 16)) in
  st 4 m (IntAddress + 8) (u32 (Z.shiftr (Z.land Offset 0xFFFFFFFF00000000) 32)).

Definition GetInterruptOffset (m : gmap Z Z) (IntAddress : Z) : Z :=
  let Offset := 0 in
  let Offset := Z.lor Offset (ld 2 m IntAddress) in
  let Offset := Z.lor Offset (u64 (Z.shiftl (ld 2 m (IntAddress + 6)) 16)) in
  Z.lor Offset (u64 (Z.shiftl (ld 4 m (IntAddress + 8)) 32)).

(** ** The interrupt table

    [IdtPage] is the address the linker gives the table. *)
Definition CreateIdt (IdtPage : Z) (s : cpu) : cpu := set_Idt0 0x0FFF IdtPage s.

Definition AddHandler_sel (Handler Offset Selector : Z) (s : cpu) : cpu :=
  let PageFaultHandler := u64 (Idt0_Offset s + u64 (Offset * sizeof_InterruptEntry)) in
  let s := set_mem (SetInterruptOffset (mem s) PageFaultHandler Handler) s in
  let s := set_mem (st 1 (mem s) (PageFaultHandler + 5) IntTA_Gate) s in
  let s := set_mem (st 2 (mem s) (PageFaultHandler + 2) (u16 Selector)) s in
  sti (lidt s).
Definition AddHandler (Handler Offset : Z) (s : cpu) : cpu := AddHandler_sel Handler Offset 0x08 s.

(** *** Faults.cpp: the handlers are given by their addresses. *)
Section Faults.
Context (OnPageFault OnDoubleFault OnGeneralProtectionFault : Z).

Definition RegisterFaults (s : cpu) : cpu :=
  let s := AddHandler OnPageFault 0xE s in
  let s := AddHandler OnDoubleFault 0x8 s in
  AddHandler OnGeneralProtectionFault 0xD s.
End Faults.

(** What each handler does when it is entered. *)
Definition OnPageFault_body : M Console.tty unit := Console.fputs (lit "PF.") Console.stdout ;;; done_.
Definition OnDoubleFault_body : M Console.tty unit := Console.fputs (lit "DF.") Console.stdout ;;; done_.
Definition OnGeneralProtectionFault_body : M Console.tty unit :=
  Console.fputs (lit "GP.") Console.stdout ;;; done_.

(** ** The segment table

    [Gdt0] is the address the linker gives the table, [Gdt0_words] what it
    holds.  [load_gdt] (Gdt.asm) executes [lgdt] and reloads the segment
    registers. *)
Definition Gdt0_words : list Z := [
  0x0000000000000000;
  0x0020980000000000;
  0x0000920000000000;
  0x0020f80000000000;
  0x0000f20000000000;
  0].
Definition CreateGdt (Gdt0 : Z) (s : cpu) : cpu := lgdt (5 * 8 - 1) Gdt0 s.

(** ** What the processor reads

    The gate of a vector, from the table the register names: the limit is
    the offset of the table's last byte. *)
Record gate := mkGate { g_offset : Z; g_selector : Z; g_ist : Z; g_type : Z }.

Definition cpu_gate (s : cpu) (vector : Z) : option gate :=
  match idtr s with
  | Some (limit, base) =>
    if vector * 16 + 15 <=? limit then
      let a := base + vector * 16 in
      Some (mkGate (ld 2 (mem s) a + 2 ^ 16 * ld 2 (mem s) (a + 6) + 2 ^ 32 * ld 4 (mem s) (a + 8))
                   (ld 2 (mem s) (a + 2)) (ld 1 (mem s) (a + 4)) (ld 1 (mem s) (a + 5)))
    else None
  | None => None
  end.

(** The fields of a segment descriptor: access byte and flags. *)
Definition seg_access (d : Z) : Z := Z.land (Z.shiftr d 40) 255.
Definition seg_long (d : Z) : bool := Z.testbit d 53.
Definition seg_descriptor (s : cpu) (selector : Z) : option Z :=
  match gdtr s with
  | Some (limit, base) => if Z.land selector 0xFFF8 + 7 <=? limit then Some (nth (Z.to_nat (Z.shiftr selector 3)) Gdt0_words 0) else None
  | None => None
  end.


(** ** Lemmas *)

(** The three fields of an address. *)
Lemma offset_fields x :
  0 <= x < 2 ^ 64 ->
  u16 (Z.land x 0xFFFF) = x mod 2 ^ 16 /\
  u16 (Z.shiftr (Z.land x 0xFFFF0000) 16) = (x / 2 ^ 16) mod 2 ^ 16 /\
  u32 (Z.shiftr (Z.land x 0xFFFFFFFF00000000) 32) = x / 2 ^ 32.
Proof.
  intros Hx. change 0xFFFF with (Z.ones 16). change 0xFFFF0000 with (Z.shiftl (Z.ones 16) 16).
  change 0xFFFFFFFF00000000 with (Z.shiftl (Z.ones 32) 32).
  rewrite !Z.shiftr_land, !Z.shiftr_shiftl_l, !Z.sub_diag, !Z.shiftl_0_r by lia.
  rewrite !Z.land_ones, !Z.shiftr_div_pow2 by lia. unfold u16, u32. split_and!; [zdm..|].
  rewrite Zmod_mod. apply Z.mod_small. zdm.
Qed.

Lemma fields_sum x : 0 <= x -> x mod 2 ^ 16 + 2 ^ 16 * ((x / 2 ^ 16) mod 2 ^ 16) + 2 ^ 32 * (x / 2 ^ 32) = x.
Proof. intros. zdm. Qed.

Lemma ld_st2_id m a v : 0 <= v < 2 ^ 16 -> ld 2 (st 2 m a v) a = v.
Proof. intros. rewrite ld_st_eq. apply Z.mod_small. done. Qed.
Lemma ld_st4_id m a v : 0 <= v < 2 ^ 32 -> ld 4 (st 4 m a v) a = v.
Proof. intros. rewrite ld_st_eq. apply Z.mod_small. done. Qed.
Lemma ld_st1_id m a v : 0 <= v < 2 ^ 8 -> ld 1 (st 1 m a v) a = v.
Proof. intros. rewrite ld_st_eq. apply Z.mod_small. done. Qed.

Lemma SetInterruptOffset_fields m a x :
  0 <= x < 2 ^ 64 ->
  let m' := SetInterruptOffset m a x in
  ld 2 m' a = x mod 2 ^ 16 /\ ld 2 m' (a + 6) = (x / 2 ^ 16) mod 2 ^ 16 /\ ld 4 m' (a + 8) = x / 2 ^ 32 /\
  (forall y, y < a \/ a + 2 <= y < a + 6 \/ a + 12 <= y -> ld8 m' y = ld8 m y).
Proof.
  intros Hx. destruct (offset_fields x Hx) as (E1 & E2 & E3). unfold SetInterruptOffset. rewrite E1, E2, E3.
  cbv zeta. split_and!.
  - rewrite 2!ld_st_ne by lia. apply ld_st2_id. zdm.
  - rewrite ld_st_ne by lia. apply ld_st2_id. zdm.
  - apply ld_st4_id. zdm.
  - intros y Hy. rewrite !ld8_st_out by lia. done.
Qed.

Lemma InterruptOffset_round_trip m a x :
  0 <= x < 2 ^ 64 -> GetInterruptOffset (SetInterruptOffset m a x) a = x.
Proof.
  intros Hx. destruct (SetInterruptOffset_fields m a x Hx) as (E1 & E2 & E3 & _).
  unfold GetInterruptOffset. rewrite E1, E2, E3, Z.lor_0_l.
  rewrite !Z.shiftl_mul_pow2 by lia. rewrite !u64_id by zdm. rewrite <- !Z.shiftl_mul_pow2 by lia.
  rewrite (lor_shiftl_add (x mod 2 ^ 16)) by zdm. rewrite lor_shiftl_add by zdm.
  pose proof (fields_sum x). lia.
Qed.

(** The gate at [a], as the processor decodes it. *)
Definition gate_at (m : gmap Z Z) (a : Z) : gate :=
  mkGate (ld 2 m a + 2 ^ 16 * ld 2 m (a + 6) + 2 ^ 32 * ld 4 m (a + 8)) (ld 2 m (a + 2)) (ld 1 m (a + 4)) (ld 1 m (a + 5)).

Lemma gate_at_ext m m' a : (forall x, a <= x < a + 16 -> ld8 m x = ld8 m' x) -> gate_at m a = gate_at m' a.
Proof. intros H. unfold gate_at. f_equal; rewrite ?(fun n b Hb => ld_ext n m m' b Hb); try done; cbn; intros; apply H; lia. Qed.

Lemma AddHandler_spec h v s :
  0 <= h < 2 ^ 64 -> 0 <= v < 256 -> 0 <= Idt0_Offset s -> Idt0_Offset s + 4096 < 2 ^ 64 ->
  let s' := AddHandler h v s in let a := Idt0_Offset s + 16 * v in
  gate_at (mem s') a = mkGate h 8 (ld 1 (mem s) (a + 4)) IntTA_Gate /\
  (forall x, x < a \/ a + 16 <= x \/ x = a + 4 -> ld8 (mem s') x = ld8 (mem s) x) /\
  GetInterruptOffset (mem s') a = h /\
  Idt0_Limit s' = Idt0_Limit s /\ Idt0_Offset s' = Idt0_Offset s /\ gdtr s' = gdtr s /\
  idtr s' = Some (Idt0_Limit s, Idt0_Offset s) /\ interrupts_on s' = true.
Proof.
  intros Hh Hv Hb Hb' s' a.
  assert (Ea : u64 (Idt0_Offset s + u64 (v * sizeof_InterruptEntry)) = a)
    by (unfold a, sizeof_InterruptEntry; rewrite (u64_id (v * 16)), u64_id by lia; lia).
  unfold s', AddHandler, AddHandler_sel. rewrite Ea. cbn [mem set_mem lidt sti idtr gdtr Idt0_Limit Idt0_Offset interrupts_on].
  destruct (SetInterruptOffset_fields (mem s) a h Hh) as (E1 & E2 & E3 & Ho).
  set (m1 := SetInterruptOffset (mem s) a h) in *.
  split; [|split; [|split; [|done]]].
  - unfold gate_at. rewrite ld_st2_id by done. rewrite !(ld_st_ne 2) by lia.
    rewrite ld_st1_id by done. rewrite !(ld_st_ne 1) by lia. rewrite E1, E2, E3, fields_sum by lia.
    f_equal. rewrite !ld_1. apply Ho. lia.
  - intros x Hx. rewrite !ld8_st_out by lia. apply Ho. lia.
  - unfold GetInterruptOffset. rewrite !(ld_st_ne 2), !(ld_st_ne 1) by lia.
    apply InterruptOffset_round_trip. done.
Qed.

Definition kernel_gate (h ist : Z) : gate := mkGate h 8 ist IntTA_Gate.

(** The tables after the three calls. *)
Lemma RegisterFaults_spec (pf df gp IdtPage Gdt0 : Z) (s : cpu) :
  0 <= pf < 2 ^ 64 -> 0 <= df < 2 ^ 64 -> 0 <= gp < 2 ^ 64 -> 0 <= IdtPage -> IdtPage + 4096 < 2 ^ 64 ->
  let s' := RegisterFaults pf df gp (CreateIdt IdtPage (CreateGdt Gdt0 s)) in
  (forall v, 0 <= v < 256 -> cpu_gate s' v = Some
     (let old := gate_at (mem s) (IdtPage + 16 * v) in
      if v =? 14 then kernel_gate pf (g_ist old) else if v =? 8 then kernel_gate df (g_ist old)
      else if v =? 13 then kernel_gate gp (g_ist old) else old)) /\
  (forall v, 256 <= v -> cpu_gate s' v = None) /\
  (forall x, x < IdtPage \/ IdtPage + 4096 <= x -> ld8 (mem s') x = ld8 (mem s) x) /\
  interrupts_on s' = true /\
  exists d, seg_descriptor s' 8 = Some d /\ seg_access d = 0x98 /\ seg_long d = true.
Proof.
  intros Hpf Hdf Hgp Hb Hb' s'. set (s0 := CreateIdt IdtPage (CreateGdt Gdt0 s)) in *.
  destruct (AddHandler_spec pf 0xE s0) as (G1 & M1 & _ & L1 & O1 & D1 & _); [done..|].
  set (s1 := AddHandler pf 0xE s0) in *.
  destruct (AddHandler_spec df 0x8 s1) as (G2 & M2 & _ & L2 & O2 & D2 & _); [done|done|by rewrite O1..|].
  set (s2 := AddHandler df 0x8 s1) in *.
  destruct (AddHandler_spec gp 0xD s2) as (G3 & M3 & _ & L3 & O3 & D3 & I3 & On3); [done|done|by rewrite O2, O1..|].
  change (AddHandler gp 0xD s2) with s' in *.
  rewrite L2, L1, O2, O1 in I3. rewrite O2, O1 in G3, M3. rewrite O1 in G2, M2.
  clearbody s' s2 s1. change (Idt0_Limit s0) with 4095 in I3. change (Idt0_Offset s0) with IdtPage in *. change (mem s0) with (mem s) in *.
  split; [|split; [|split; [|split]]].
  - intros v Hv. unfold cpu_gate. rewrite I3. destruct (Z.leb_spec (v * 16 + 15) 4095); [|lia].
    rewrite (Z.mul_comm v 16). transitivity (Some (gate_at (mem s') (IdtPage + 16 * v))); [done|].
    f_equal. cbv zeta. unfold kernel_gate.
    rewrite !ld_1 in G2, G3. rewrite M1 in G2 by lia. rewrite M2, M1 in G3 by lia. rewrite <- !ld_1 in G2, G3.
    repeat zcase; subst v || idtac; [etrans; [|exact G1]|etrans; [|exact G2]|exact G3|];
      apply gate_at_ext; intros x Hx; rewrite M3 by lia; [by rewrite M2 by lia|done|by rewrite M2, M1 by lia].
  - intros v Hv. unfold cpu_gate. rewrite I3. cbn. destruct (Z.leb_spec (v * 16 + 15) 4095); [lia|done].
  - intros x Hx. rewrite M3, M2, M1 by lia. done.
  - done.
  - unfold seg_descriptor. rewrite D3, D2, D1. eexists. split; [reflexivity|]. split; reflexivity.
Qed.

(** ** Properties *)

(** After [CreateGdt], [CreateIdt] and [RegisterFaults] the processor
    finds, for page fault, double fault and general protection fault, an
    interrupt gate to the right handler, whose selector names a 64-bit code
    segment of ring 0; the other gates and everything outside the table are
    as they were, the table register names the whole table, and interrupts
    are on. *)
Theorem faults_registered (pf df gp IdtPage Gdt0 : Z) (s : cpu) :
  0 <= pf < 2 ^ 64 -> 0 <= df < 2 ^ 64 -> 0 <= gp < 2 ^ 64 -> 0 <= IdtPage -> IdtPage + 4096 < 2 ^ 64 ->
  let s' := RegisterFaults pf df gp (CreateIdt IdtPage (CreateGdt Gdt0 s)) in
  (forall v, 0 <= v < 256 -> cpu_gate s' v = Some
     (let old := gate_at (mem s) (IdtPage + 16 * v) in
      if v =? 14 then kernel_gate pf (g_ist old) else if v =? 8 then kernel_gate df (g_ist old)
      else if v =? 13 then kernel_gate gp (g_ist old) else old)) /\
  (forall v, 256 <= v -> cpu_gate s' v = None) /\
  (forall x, x < IdtPage \/ IdtPage + 4096 <= x -> ld8 (mem s') x = ld8 (mem s) x) /\
  interrupts_on s' = true /\
  exists d, seg_descriptor s' 8 = Some d /\ seg_access d = 0x98 /\ seg_long d = true.
Proof. apply RegisterFaults_spec. Qed.

Lemma faults_registered_witness :
  let s' := RegisterFaults 0xFFFFFFFF80001230 0xFFFFFFFF80001260 0xFFFFFFFF80001290
              (CreateIdt 0xFFFFFFFF80004000 (CreateGdt 0xFFFFFFFF80005000 (mkCpu ∅ 0 0 None None false))) in
  cpu_gate s' 14 = Some (mkGate 0xFFFFFFFF80001230 8 0 0x8E) /\ cpu_gate s' 13 = Some (mkGate 0xFFFFFFFF80001290 8 0 0x8E) /\
  cpu_gate s' 3 = Some (mkGate 0 0 0 0).
Proof.
  destruct (faults_registered 0xFFFFFFFF80001230 0xFFFFFFFF80001260 0xFFFFFFFF80001290 0xFFFFFFFF80004000
    0xFFFFFFFF80005000 (mkCpu ∅ 0 0 None None false)) as (H & _); [lia..|].
  split_and!; rewrite H by lia; reflexivity.
Defined.

End Interrupts.
