(* ===== verification/PciBus.v ===== *)
(** Finding the disk controllers (kernel/IO/IO.cpp, kernel/Acpi/Acpi.cpp):
    [GetAcpi] looks for the MCFG table among the tables of the firmware,
    [GetPci] walks the configuration space it describes and constructs a
    driver for every AHCI controller; and the programming of the interrupt
    controllers. *)

From stdpp Require Import base tactics list gmap numbers option strings.
From Stdlib Require Import ZArith Lia.
From S2P Require Import Prelude Mem Console Pmm Ptm.

#[local] Open Scope Z_scope.

Module PciBus.
Import Prelude Mem.
#[local] Open Scope lofi_scope.

(** ** Layout

    [SdtHeader]: Signature at 0, Length at 4; [MCFG]: its header and 8
    reserved bytes; [Acpi], an entry of the MCFG table: BaseAddress at 0,
    FirstBusIndex at 10, LastBusIndex at 11; [RSDP2]: Xsdt at 24; [Pci]:
    DeviceId at 2, ProgramInterface at 9, DeviceSubClass at 10, DeviceClass
    at 11; [AcpiData]: RSDP0 at 0, MCFG0 at 8. *)
Definition sizeof_SdtHeader : Z := 36.
Definition sizeof_MCFG : Z := 44.
Definition sizeof_Acpi : Z := 16.

Section Ops.
Context {S : Type} `{PageSource S}.

(** [new Ahci::AhciDriver(Pci0)] *)
Context (new_AhciDriver : Z -> M S unit).

Definition load (n : nat) (a : Z) : M S Z := gets (fun s => ld n (ps_mem s) a).

(** [for (i = first; i < first + n; i++) body(i)] *)
Fixpoint for_range (n : nat) (i : Z) (body : Z -> M S unit) : M S unit :=
  match n with
  | O => ret tt
  | Datatypes.S n' => body i ;;; for_range n' (i + 1) body
  end.

Definition present_at (a : Z) (k : M S unit) : M S unit :=
  let* DeviceId := load 2 (a + 2) in
  if negb (DeviceId =? 0) && negb (DeviceId =? 0xFFFF) then k else ret tt.

(** ** The walk *)

Definition WalkThroughFunction (DeviceAddress FunctionIndex : Z) : M S unit :=
  let FunctionOffset := u64 (Z.shiftl FunctionIndex 12) in
  let FunctionAddress := u64 (DeviceAddress + FunctionOffset) in
  present_at FunctionAddress
    (let* DeviceClass := load 1 (FunctionAddress + 11) in
     let* DeviceSubClass := load 1 (FunctionAddress + 10) in
     let* ProgramInterface := load 1 (FunctionAddress + 9) in
     if (DeviceClass =? 0x01) && (DeviceSubClass =? 0x06) && (ProgramInterface =? 0x01)
     then new_AhciDriver FunctionAddress else ret tt).

Definition WalkThroughDevice (BusAddress DeviceIndex : Z) : M S unit :=
  let DeviceOffset := u64 (Z.shiftl DeviceIndex 15) in
  let DeviceAddress := u64 (BusAddress + DeviceOffset) in
  present_at DeviceAddress (for_range 8 0 (WalkThroughFunction DeviceAddress)).

Definition WalkThroughBus (BaseAddress BusIndex : Z) : M S unit :=
  let BusOffset := u64 (Z.shiftl BusIndex 20) in
  let BusAddress := u64 (BaseAddress + BusOffset) in
  present_at BusAddress (for_range 32 0 (WalkThroughDevice BusAddress)).

(** [for (BusIndex = FirstBusIndex; BusIndex < LastBusIndex; BusIndex++)]:
    the bounds are read from the table again in every turn; the turns left
    are at most 255. *)
Fixpoint bus_loop (fuel : nat) (DeviceConfiguration BusIndex : Z) : M S unit :=
  match fuel with
  | O => ret tt
  | Datatypes.S f =>
    let* LastBusIndex := load 1 (DeviceConfiguration + 11) in
    if BusIndex <? LastBusIndex then
      let* BaseAddress := load 8 DeviceConfiguration in
      WalkThroughBus BaseAddress BusIndex ;;;
      bus_loop f DeviceConfiguration (BusIndex + 1)
    else ret tt
  end.

Definition WalkThroughPciBus (MCFG0 : Z) : M S unit :=
  let* Length := load 4 (MCFG0 + 4) in
  let ItemCount := u64 (Length - sizeof_MCFG) / sizeof_Acpi in
  for_range (Z.to_nat ItemCount) 0 (fun Index =>
    let DeviceConfiguration := u64 (MCFG0 + sizeof_MCFG + u64 (Index * sizeof_Acpi)) in
    let* FirstBusIndex := load 1 (DeviceConfiguration + 10) in
    bus_loop 256 DeviceConfiguration FirstBusIndex).

End Ops.


(** ** [GetAcpi] and [GetPci]

    The source of pages with the static variables [AcpiData0] and [IsReady]
    and the global [RSDP]. *)
Record acpi (S : Type) := mkAcpi { src : S; AcpiData0 : Z; IsReady : bool; RSDP : Z }.
Arguments mkAcpi {S} _ _ _ _.
Arguments src {S} _.
Arguments AcpiData0 {S} _.
Arguments IsReady {S} _.
Arguments RSDP {S} _.

Section Acpi.
Context {S : Type} `{PageSource S} (new_AhciDriver : Z -> M S unit).

(** The answer of the boot loader to [RSDP_Request], and the address the
    linker gives the literal ["MCFG"]. *)
Context (RSDP_response : option Z) (str_MCFG : Z).

Definition set_src (t : S) (s : acpi S) : acpi S := mkAcpi t (AcpiData0 s) (IsReady s) (RSDP s).
Definition set_AcpiData0 (x : Z) (s : acpi S) : acpi S := mkAcpi (src s) x (IsReady s) (RSDP s).
Definition set_IsReady (s : acpi S) : acpi S := mkAcpi (src s) (AcpiData0 s) true (RSDP s).
Definition set_RSDP (x : Z) (s : acpi S) : acpi S := mkAcpi (src s) (AcpiData0 s) (IsReady s) x.

Definition aload (n : nat) (a : Z) : M (acpi S) Z := gets (fun s => ld n (ps_mem (src s)) a).
Definition astore (n : nat) (a v : Z) : M (acpi S) unit :=
  modify (fun s => set_src (ps_set_mem (st n (ps_mem (src s)) a v) (src s)) s).

(** [GetPci] calls [GetAcpi], which calls [GetPci]. *)
Definition GetPci (GetAcpi : M (acpi S) Z) : M (acpi S) unit :=
  let* ready := gets IsReady in
  if negb ready then
    let* Acpi0 := GetAcpi in
    let* MCFG0 := aload 8 (Acpi0 + 8) in
    zoom src set_src (WalkThroughPciBus new_AhciDriver MCFG0) ;;;
    modify set_IsReady
  else ret tt.

(** One turn of the loop over the tables. *)
Definition acpi_item (GetAcpi : M (acpi S) Z) (Xsdt Index : Z) : M (acpi S) unit :=
  let* Item := aload 8 (u64 (Xsdt + sizeof_SdtHeader + u64 (Index * 8))) in
  let* differ := gets (fun s => memcmp (ps_mem (src s)) Item str_MCFG 4) in
  if differ =? 0 then
    let* p := gets AcpiData0 in
    astore 8 (p + 8) Item ;;;
    GetPci GetAcpi
  else ret tt.

Fixpoint item_loop (n : nat) (GetAcpi : M (acpi S) Z) (Xsdt Index : Z) : M (acpi S) unit :=
  match n with
  | O => ret tt
  | Datatypes.S n' => acpi_item GetAcpi Xsdt Index ;;; item_loop n' GetAcpi Xsdt (Index + 1)
  end.

(** [fuel] bounds the calls of [GetAcpi] inside each other: two are enough
    (see [GetAcpi_terminates]). *)
Fixpoint GetAcpi (fuel : nat) : M (acpi S) Z :=
  match fuel with
  | O => fun _ => NoFuel
  | Datatypes.S f =>
    let* cached := gets AcpiData0 in
    if cached =? 0 then
      match RSDP_response with
      | None => done_
      | Some address =>
        modify (set_RSDP address) ;;;
        let* p := zoom src set_src ps_alloc in
        modify (set_AcpiData0 p) ;;;
        let* rsdp := gets RSDP in
        astore 8 p rsdp ;;;
        let* RSDP0 := aload 8 p in
        let* Xsdt := aload 8 (RSDP0 + 24) in
        let* Length := aload 4 (Xsdt + 4) in
        let ItemCount := u64 (Length - sizeof_SdtHeader) / 8 in
        item_loop (Z.to_nat ItemCount) (GetAcpi f) Xsdt 0 ;;;
        gets AcpiData0
      end
    else ret cached
  end.

End Acpi.

(** ** Ports *)

Class PortIO (D : Type) := {
  port_in : Z -> D -> Z * D;
  port_out : Z -> Z -> D -> D
}.

Section Ports.
Context {D : Type} `{PortIO D}.

Definition MasterPIC_CommandPort : Z := 0x20.
Definition SlavePIC_CommandPort : Z := 0xA0.
Definition MasterPIC_DataPort : Z := 0x21.
Definition SlavePIC_DataPort : Z := 0xA1.
Definition ICW1_Init : Z := 0x10.
Definition ICW1_ICW4 : Z := 0x01.
Definition ICW4_8086 : Z := 0x01.
Definition PIC_Eoi : Z := 0x20.

Definition OutB (port value : Z) : M D unit := modify (port_out port value).
Definition InB (port : Z) : M D Z := fun d => let (v, d') := port_in port d in Ret v d'.
Definition IO_Wait : M D unit := OutB 0x80 0.

Definition RemapInterruptsForIO : M D unit :=
  let* MasterDataValue := InB MasterPIC_DataPort in IO_Wait ;;;
  let* SlaveDataValue := InB SlavePIC_DataPort in IO_Wait ;;;
  OutB MasterPIC_CommandPort (Z.lor ICW1_Init ICW1_ICW4) ;;; IO_Wait ;;;
  OutB SlavePIC_CommandPort (Z.lor ICW1_Init ICW1_ICW4) ;;; IO_Wait ;;;
  OutB MasterPIC_DataPort 0x20 ;;; IO_Wait ;;;
  OutB SlavePIC_DataPort 0x28 ;;; IO_Wait ;;;
  OutB MasterPIC_DataPort 4 ;;; IO_Wait ;;;
  OutB SlavePIC_DataPort 2 ;;; IO_Wait ;;;
  OutB MasterPIC_DataPort ICW4_8086 ;;; IO_Wait ;;;
  OutB SlavePIC_DataPort ICW4_8086 ;;; IO_Wait ;;;
  OutB MasterPIC_DataPort MasterDataValue ;;; IO_Wait ;;;
  OutB SlavePIC_DataPort SlaveDataValue ;;; IO_Wait.

Definition EndInterruptsForMasterIO : M D unit := OutB MasterPIC_CommandPort PIC_Eoi.
Definition EndInterruptsForSlaveIO : M D unit :=
  OutB SlavePIC_CommandPort PIC_Eoi ;;; EndInterruptsForMasterIO.

End Ports.

(** ** The 8259A, as its data sheet describes it

    A command byte with bit 4 set starts an initialisation (in cascade mode
    when bit 1 is clear, the only mode described here): the mask and the
    in-service register are cleared and the next bytes at the data port are
    ICW2 (the vector base), ICW3 (the cascade) and, when bit 0 of the first
    was set, ICW4.  Otherwise a byte at the data port is the
    mask, and the command 0x20 ends the interrupt of highest priority in
    service. *)
Record pic := mkPic {
  imr : Z; isr : list Z; vector_base : Z; cascade : Z; icw4 : Z;
  expect : nat; (* the next initialisation byte, 0: none *)
  wants_icw4 : bool
}.

Definition pic_command (v : Z) (p : pic) : pic :=
  if Z.testbit v 4 then mkPic 0 [] (vector_base p) (cascade p) 0 2 (Z.testbit v 0)
  else if v =? 0x20 then mkPic (imr p) (tail (isr p)) (vector_base p) (cascade p) (icw4 p) (expect p) (wants_icw4 p)
  else p.
Definition pic_data (v : Z) (p : pic) : pic :=
  match expect p with
  | 2%nat => mkPic (imr p) (isr p) (Z.land v 0xF8) (cascade p) (icw4 p) 3 (wants_icw4 p)
  | 3%nat => mkPic (imr p) (isr p) (vector_base p) v (icw4 p) (if wants_icw4 p then 4 else 0)%nat (wants_icw4 p)
  | 4%nat => mkPic (imr p) (isr p) (vector_base p) (cascade p) v 0 (wants_icw4 p)
  | _ => mkPic v (isr p) (vector_base p) (cascade p) (icw4 p) (expect p) (wants_icw4 p)
  end.

(** The two controllers of a PC at their ports. *)
#[export] Instance two_pics : PortIO (pic * pic) := {|
  port_in port d :=
    (if port =? 0x21 then imr d.1 else if port =? 0xA1 then imr d.2 else 0xFF, d);
  port_out port v d :=
    if port =? 0x20 then (pic_command v d.1, d.2) else if port =? 0x21 then (pic_data v d.1, d.2)
    else if port =? 0xA0 then (d.1, pic_command v d.2) else if port =? 0xA1 then (d.1, pic_data v d.2)
    else d
|}.

(** ** Lemmas *)

Section Walk.
Context {S : Type} `{PageSource S} (new : Z -> M S unit).

(** The drivers of a list of controllers, constructed in order. *)
Fixpoint construct (l : list Z) : M S unit :=
  match l with
  | [] => ret tt
  | a :: r => new a ;;; construct r
  end.

(** What the walk finds in a memory. *)
Definition present (m : gmap Z Z) (a : Z) : bool := negb (ld 2 m (a + 2) =? 0) && negb (ld 2 m (a + 2) =? 0xFFFF).
Definition is_ahci (m : gmap Z Z) (a : Z) : bool :=
  (ld 1 m (a + 11) =? 0x01) && (ld 1 m (a + 10) =? 0x06) && (ld 1 m (a + 9) =? 0x01).
Definition if_present (m : gmap Z Z) (a : Z) (l : list Z) : list Z := if present m a then l else [].

Definition sub (a k shift : Z) : Z := u64 (a + u64 (Z.shiftl k shift)).
Definition in_function (m : gmap Z Z) (dev f : Z) : list Z :=
  if_present m (sub dev f 12) (if is_ahci m (sub dev f 12) then [sub dev f 12] else []).
Definition in_device (m : gmap Z Z) (bus d : Z) : list Z :=
  if_present m (sub bus d 15) (flat_map (in_function m (sub bus d 15)) (seqZ 0 8)).
Definition in_bus (m : gmap Z Z) (base b : Z) : list Z :=
  if_present m (sub base b 20) (flat_map (in_device m (sub base b 20)) (seqZ 0 32)).
(** The entry at [e] names the buses from its first up to, but without, its
    last. *)
Definition in_entry (m : gmap Z Z) (e : Z) : list Z :=
  flat_map (in_bus m (ld 8 m e)) (seqZ (ld 1 m (e + 10)) (ld 1 m (e + 11) - ld 1 m (e + 10))).
Definition entries (m : gmap Z Z) (MCFG0 : Z) : list Z :=
  map (fun i => u64 (MCFG0 + sizeof_MCFG + u64 (i * sizeof_Acpi)))
    (seqZ 0 (u64 (ld 4 m (MCFG0 + 4) - sizeof_MCFG) / sizeof_Acpi)).
Definition ahci_functions (m : gmap Z Z) (MCFG0 : Z) : list Z := flat_map (in_entry m) (entries m MCFG0).

(** [quiet] addresses: constructing a driver leaves them alone. *)
Context (quiet : Z -> Prop) (m : gmap Z Z).
Hypothesis new_quiet : forall a s s', new a s = Ret tt s' -> forall x, quiet x -> ld8 (ps_mem s') x = ld8 (ps_mem s) x.

Definition agree (s : S) : Prop := forall x, quiet x -> ld8 (ps_mem s) x = ld8 m x.

Lemma agree_ld s n a :
  agree s -> (forall x, a <= x < a + Z.of_nat n -> quiet x) -> ld n (ps_mem s) a = ld n m a.
Proof. intros Ha Hq. apply ld_ext. auto. Qed.

Lemma construct_agree l s s' : agree s -> construct l s = Ret tt s' -> agree s'.
Proof.
  revert s. induction l as [|a l IH]; intros s Ha; cbn [construct].
  - intros [= <-]. done.
  - intros ([] & s1 & E1 & E2)%bind_ret_inv. apply (IH s1); [|done].
    intros x Hx. rewrite (new_quiet _ _ _ E1 x Hx). by apply Ha.
Qed.

Lemma construct_app l1 l2 s : construct (l1 ++ l2) s = bind (construct l1) (fun _ => construct l2) s.
Proof.
  revert s. induction l1 as [|a l1 IH]; intros s; cbn [construct app]; [done|].
  unfold bind. destruct (new a s) as [[] s1| |]; [|done..]. rewrite IH. done.
Qed.

(** A routine that constructs the drivers of [l]. *)
Definition constructs (c : M S unit) (l : list Z) : Prop := forall s, agree s -> c s = construct l s.

Lemma constructs_nil : constructs (ret tt) [].
Proof. done. Qed.

Lemma constructs_bind c k l l' : constructs c l -> constructs k l' -> constructs (c ;;; k) (l ++ l').
Proof.
  intros Hc Hk s Hs. rewrite construct_app. unfold bind. rewrite Hc by done.
  destruct (construct l s) as [[] s1| |] eqn:E; [|done..]. apply Hk. by eapply construct_agree.
Qed.

Lemma constructs_range body f n i :
  (forall j, i <= j < i + Z.of_nat n -> constructs (body j) (f j)) ->
  constructs (for_range n i body) (flat_map f (seqZ i (Z.of_nat n))).
Proof.
  revert i. induction n as [|n IH]; intros i Hb; [apply constructs_nil|].
  rewrite Nat2Z.inj_succ, seqZ_cons by lia. cbn [for_range flat_map].
  apply constructs_bind; [apply Hb; lia|]. rewrite Z.pred_succ, <- Z.add_1_r. apply IH. intros j Hj. apply Hb. lia.
Qed.

Lemma constructs_present a k l :
  (forall x, a <= x < a + 12 -> quiet x) -> constructs k l -> constructs (present_at a k) (if_present m a l).
Proof.
  intros Hq Hk s Hs. unfold present_at, load, gets, bind. rewrite (agree_ld s 2 (a + 2) Hs) by (intros; apply Hq; lia).
  unfold if_present, present. destruct (_ && _); [by apply Hk|done].
Qed.

Lemma constructs_function dev f :
  (forall x, sub dev f 12 <= x < sub dev f 12 + 12 -> quiet x) ->
  constructs (WalkThroughFunction new dev f) (in_function m dev f).
Proof.
  intros Hq. apply constructs_present; [exact Hq|]. fold (sub dev f 12). intros s Hs.
  unfold load, gets, bind. rewrite !(agree_ld s 1 _ Hs) by (intros; apply Hq; lia).
  unfold is_ahci. destruct (_ && _ && _); [|done].
  cbn [construct]. unfold bind. destruct (new _ s) as [[] s1| |]; done.
Qed.

Definition fn_addr (base b d f : Z) : Z := sub (sub (sub base b 20) d 15) f 12.

Lemma sub_0 a k shift shift' : sub (sub a k shift) 0 shift' = sub a k shift.
Proof. unfold sub. rewrite Z.shiftl_0_l. change (u64 0) with 0. rewrite Z.add_0_r. apply u64_id, u64_range. Qed.

Lemma constructs_device bus d :
  (forall f x, 0 <= f < 8 -> sub (sub bus d 15) f 12 <= x < sub (sub bus d 15) f 12 + 12 -> quiet x) ->
  constructs (WalkThroughDevice new bus d) (in_device m bus d).
Proof.
  intros Hq. unfold WalkThroughDevice, in_device. fold (sub bus d 15). apply constructs_present.
  - intros x Hx. apply (Hq 0); [lia|]. by rewrite sub_0.
  - apply (constructs_range _ _ 8). intros f Hf. apply constructs_function. intros x. by apply Hq.
Qed.

Lemma constructs_bus base b :
  (forall d f x, 0 <= d < 32 -> 0 <= f < 8 -> fn_addr base b d f <= x < fn_addr base b d f + 12 -> quiet x) ->
  constructs (WalkThroughBus new base b) (in_bus m base b).
Proof.
  intros Hq. unfold WalkThroughBus, in_bus. fold (sub base b 20). apply constructs_present.
  - intros x Hx. apply (Hq 0 0); [lia|lia|]. unfold fn_addr. by rewrite !sub_0.
  - apply (constructs_range _ _ 32). intros d Hd. apply constructs_device. intros f x Hf. by apply Hq.
Qed.

(** The addresses the walk reads. *)
Definition walk_quiet (MCFG0 : Z) : Prop :=
  (forall x, MCFG0 + 4 <= x < MCFG0 + 8 -> quiet x) /\
  (forall e x, e ∈ entries m MCFG0 -> e <= x < e + 16 -> quiet x) /\
  (forall e b d f x, e ∈ entries m MCFG0 -> 0 <= b < 255 -> 0 <= d < 32 -> 0 <= f < 8 ->
     fn_addr (ld 8 m e) b d f <= x < fn_addr (ld 8 m e) b d f + 12 -> quiet x).

Lemma constructs_bus_loop fuel e b :
  (forall x, e <= x < e + 16 -> quiet x) ->
  (forall b d f x, 0 <= b < 255 -> 0 <= d < 32 -> 0 <= f < 8 ->
     fn_addr (ld 8 m e) b d f <= x < fn_addr (ld 8 m e) b d f + 12 -> quiet x) ->
  0 <= b -> ld 1 m (e + 11) - b <= Z.of_nat fuel ->
  constructs (bus_loop new fuel e b) (flat_map (in_bus m (ld 8 m e)) (seqZ b (ld 1 m (e + 11) - b))).
Proof.
  intros He Hq. revert b. induction fuel as [|fuel IH]; intros b Hb Hf.
  { rewrite seqZ_nil by lia. apply constructs_nil. }
  intros s Hs. cbn [bus_loop]. unfold load at 1, gets, bind at 1.
  rewrite (agree_ld s 1 (e + 11) Hs) by (intros; apply He; lia).
  destruct (Z.ltb_spec b (ld 1 m (e + 11))) as [Hlt|Hge]; [|by rewrite seqZ_nil by lia].
  unfold load at 1, gets, bind at 1. rewrite (agree_ld s 8 e Hs) by (intros; apply He; lia).
  rewrite seqZ_cons by lia. cbn [flat_map].
  refine (constructs_bind _ _ _ _ _ _ s Hs).
  - apply constructs_bus. intros d f x. apply Hq. pose proof (ld_range 1 m (e + 11)). lia.
  - replace (Z.pred (ld 1 m (e + 11) - b)) with (ld 1 m (e + 11) - (b + 1)) by lia.
    rewrite <- Z.add_1_r. apply IH; lia.
Qed.

Lemma constructs_load n a (k : Z -> M S unit) l :
  (forall x, a <= x < a + Z.of_nat n -> quiet x) -> constructs (k (ld n m a)) l ->
  constructs (bind (load n a) k) l.
Proof. intros Hq Hk s Hs. unfold load, gets, bind. rewrite agree_ld by done. by apply Hk. Qed.

Lemma flat_map_map {A B C} (g : A -> B) (f : B -> list C) l : flat_map f (map g l) = flat_map (fun x => f (g x)) l.
Proof. induction l as [|a l IH]; cbn; [done|]. by rewrite IH. Qed.

Lemma constructs_walk MCFG0 :
  walk_quiet MCFG0 -> constructs (WalkThroughPciBus new MCFG0) (ahci_functions m MCFG0).
Proof.
  intros (Hh & He & Hf). unfold WalkThroughPciBus. apply constructs_load.
  { intros x Hx. apply Hh. lia. }
  unfold ahci_functions, entries in *. rewrite flat_map_map.
  set (n := u64 (ld 4 m (MCFG0 + 4) - sizeof_MCFG) / sizeof_Acpi) in *.
  assert (Hn : 0 <= n) by (apply Z.div_pos; [apply u64_range|done]).
  rewrite <- (Z2Nat.id n) at 2 by done. apply constructs_range. intros i Hi.
  set (e := u64 (MCFG0 + sizeof_MCFG + u64 (i * sizeof_Acpi))) in *.
  assert (Hin : e ∈ map (fun i => u64 (MCFG0 + sizeof_MCFG + u64 (i * sizeof_Acpi))) (seqZ 0 n)).
  { apply list_elem_of_fmap. exists i. split; [done|]. apply elem_of_seqZ. lia. }
  apply constructs_load; [intros x Hx; apply (He e); [done|lia]|].
  pose proof (ld_range 1 m (e + 10)). pose proof (ld_range 1 m (e + 11)).
  apply constructs_bus_loop; [intros x; by apply He|intros b d f x; by apply Hf|lia|lia].
Qed.

End Walk.

(** *** Calls inside calls *)

Section AcpiLemmas.
Context {S : Type} `{PageSource S} (new : Z -> M S unit) (resp : option Z) (lit_at : Z).
Hypothesis new_returns : forall a t, new a t <> NoFuel.
Hypothesis alloc_returns : forall t : S, ps_alloc t <> NoFuel.

Definition halts {T A} (c : M T A) : Prop := forall s, c s <> NoFuel.

Lemma halts_bind {T A B} (c : M T A) (k : A -> M T B) : halts c -> (forall a, halts (k a)) -> halts (bind c k).
Proof. intros Hc Hk s. unfold bind. specialize (Hc s). destruct (c s) as [a s1| |]; [apply Hk|done|done]. Qed.
Lemma halts_ret {T A} (a : A) : halts (T := T) (ret a).
Proof. done. Qed.
Lemma halts_gets {T A} (f : T -> A) : halts (gets f).
Proof. done. Qed.
Lemma halts_modify {T} (f : T -> T) : halts (modify f).
Proof. done. Qed.
Lemma halts_zoom {T U A} (get : T -> U) put (c : M U A) : halts c -> halts (zoom get put c).
Proof. intros Hc s. unfold zoom. specialize (Hc (get s)). by destruct (c (get s)). Qed.

Lemma halts_range n i (body : Z -> M S unit) : (forall j, halts (body j)) -> halts (for_range n i body).
Proof.
  intros Hb. revert i. induction n as [|n IH]; intros i; cbn [for_range]; [apply halts_ret|].
  apply halts_bind; [apply Hb|intros _; apply IH].
Qed.
Lemma halts_present a (k : M S unit) : halts k -> halts (present_at a k).
Proof. intros Hk. apply halts_bind; [apply halts_gets|]. intros id. by destruct (_ && _). Qed.

Lemma halts_walk MCFG0 : halts (WalkThroughPciBus new MCFG0).
Proof.
  apply halts_bind; [apply halts_gets|]. intros len. apply halts_range. intros i.
  apply halts_bind; [apply halts_gets|]. intros first. generalize 256%nat as fuel. intros fuel. revert first.
  induction fuel as [|fuel IH]; intros b; cbn [bus_loop]; [apply halts_ret|].
  apply halts_bind; [apply halts_gets|]. intros last. destruct (b <? last); [|apply halts_ret].
  apply halts_bind; [apply halts_gets|]. intros base. apply halts_bind; [|intros _; apply IH].
  apply halts_present, halts_range. intros d. apply halts_present, halts_range. intros f. apply halts_present.
  repeat (apply halts_bind; [apply halts_gets|intros ?]). destruct (_ && _ && _); [intros s; apply new_returns|apply halts_ret].
Qed.

(** With the pointer set, [GetAcpi] only returns it. *)
Lemma GetAcpi_cached f s : AcpiData0 s <> 0 -> GetAcpi new resp lit_at (Datatypes.S f) s = Ret (AcpiData0 s) s.
Proof. intros Hp. cbn [GetAcpi]. unfold bind, gets. destruct (Z.eqb_spec (AcpiData0 s) 0); [done|reflexivity]. Qed.

(** From a state whose pointer is set, a routine returns and keeps it, or
    halts the processor. *)
Definition keeps_ptr {A} (c : M (acpi S) A) : Prop :=
  forall s, AcpiData0 s <> 0 ->
    match c s with Ret _ s' => AcpiData0 s' = AcpiData0 s | Done _ => True | NoFuel => False end.

Lemma keeps_bind {A B} (c : M (acpi S) A) (k : A -> M (acpi S) B) :
  keeps_ptr c -> (forall a, keeps_ptr (k a)) -> keeps_ptr (bind c k).
Proof.
  intros Hc Hk s Hs. unfold bind. specialize (Hc s Hs). destruct (c s) as [a s1| |]; [|done|done].
  specialize (Hk a s1 ltac:(congruence)). destruct (k a s1); [congruence|done|done].
Qed.
Lemma keeps_gets {A} (f : acpi S -> A) : keeps_ptr (gets f).
Proof. done. Qed.
Lemma keeps_modify f : (forall s, AcpiData0 (f s) = AcpiData0 s) -> keeps_ptr (modify f).
Proof. intros Hf s Hs. apply Hf. Qed.

Lemma keeps_GetPci : keeps_ptr (GetPci new (GetAcpi new resp lit_at 1)).
Proof.
  apply keeps_bind; [apply keeps_gets|]. intros ready. destruct (negb ready); [|intros s _; done].
  apply keeps_bind; [intros s Hs; by rewrite GetAcpi_cached|]. intros p.
  apply keeps_bind; [apply keeps_gets|]. intros mcfg. apply keeps_bind; [|intros _; by apply keeps_modify].
  intros s Hs. unfold zoom. pose proof (halts_walk mcfg (src s)) as Hw.
  destruct (WalkThroughPciBus new mcfg (src s)); done.
Qed.

Lemma keeps_items n Xsdt i : keeps_ptr (item_loop new lit_at n (GetAcpi new resp lit_at 1) Xsdt i).
Proof.
  revert i. induction n as [|n IH]; intros i; cbn [item_loop]; [intros s _; done|].
  apply keeps_bind; [|intros _; apply IH].
  apply keeps_bind; [apply keeps_gets|]. intros item. apply keeps_bind; [apply keeps_gets|]. intros differ.
  destruct (differ =? 0); [|intros s _; done].
  apply keeps_bind; [apply keeps_gets|]. intros p. apply keeps_bind; [by apply keeps_modify|intros _; apply keeps_GetPci].
Qed.

(** The same for a routine that returns the pointer. *)
Definition ends (c : M (acpi S) Z) : Prop := keeps_ptr c /\ forall s a s', c s = Ret a s' -> a = AcpiData0 s'.

Lemma ends_bind {A} (c : M (acpi S) A) k : keeps_ptr c -> (forall a, ends (k a)) -> ends (bind c k).
Proof.
  intros Hc Hk. split.
  - apply keeps_bind; [done|]. intros a. apply Hk.
  - intros s a s' (x & s1 & _ & E)%bind_ret_inv. by apply (proj2 (Hk x)) in E.
Qed.
Lemma ends_ptr : ends (gets AcpiData0).
Proof. split; [apply keeps_gets|]. by intros s a s' [= <- <-]. Qed.

End AcpiLemmas.

(** *** [GetAcpi] on a machine whose drivers keep an invariant

    [I p] is kept by the constructor of the driver and by stores to the page
    [p] of [AcpiData0]. *)
Section AcpiRuns.
Context {S : Type} `{PageSource S} (new : Z -> M S unit) (response lit_at : Z).
Context (I : Z -> S -> Prop).
Context (Hnew : forall p a s, I p s -> exists s', new a s = Ret tt s' /\ I p s').
Context (Hst : forall p k v s, I p s -> k = 0 \/ k = 8 -> I p (ps_set_mem (st 8 (ps_mem s) (p + k) v) s)).

Definition runs {A} (c : M S A) : Prop := forall p s, I p s -> exists a s', c s = Ret a s' /\ I p s'.
Definition aruns {A} (c : M (acpi S) A) : Prop :=
  forall s, AcpiData0 s <> 0 -> I (AcpiData0 s) (src s) ->
    exists a s', c s = Ret a s' /\ AcpiData0 s' = AcpiData0 s /\ I (AcpiData0 s') (src s').

Lemma runs_bind {A B} (c : M S A) (k : A -> M S B) : runs c -> (forall a, runs (k a)) -> runs (bind c k).
Proof. intros Hc Hk p s Hi. destruct (Hc p s Hi) as (a & s1 & E & H1). rewrite (bind_ret _ _ _ _ _ E). by apply Hk. Qed.
Lemma runs_gets {A} (f : S -> A) : runs (gets f).
Proof. intros p s Hi. by exists (f s), s. Qed.
Lemma runs_ret {A} (a : A) : runs (ret a).
Proof. intros p s Hi. by exists a, s. Qed.
Lemma runs_range n i (body : Z -> M S unit) : (forall j, runs (body j)) -> runs (for_range n i body).
Proof.
  intros Hb. revert i. induction n as [|n IH]; intros i; cbn [for_range]; [apply runs_ret|].
  apply runs_bind; [apply Hb|intros _; apply IH].
Qed.
Lemma runs_present a (k : M S unit) : runs k -> runs (present_at a k).
Proof. intros Hk. apply runs_bind; [apply runs_gets|]. intros id. destruct (_ && _); [done|apply runs_ret]. Qed.

Lemma runs_walk MCFG0 : runs (WalkThroughPciBus new MCFG0).
Proof.
  apply runs_bind; [apply runs_gets|]. intros len. apply runs_range. intros i.
  apply runs_bind; [apply runs_gets|]. intros first. generalize 256%nat as fuel. intros fuel. revert first.
  induction fuel as [|fuel IH]; intros b; cbn [bus_loop]; [apply runs_ret|].
  apply runs_bind; [apply runs_gets|]. intros last. destruct (b <? last); [|apply runs_ret].
  apply runs_bind; [apply runs_gets|]. intros base. apply runs_bind; [|intros _; apply IH].
  apply runs_present, runs_range. intros d. apply runs_present, runs_range. intros f. apply runs_present.
  repeat (apply runs_bind; [apply runs_gets|intros ?]). destruct (_ && _ && _); [|apply runs_ret].
  intros p s Hi.
  edestruct (Hnew p) as (s'' & E' & Hi''); [exact Hi|]. eexists _, _. split; [exact E'|exact Hi''].
Qed.

Lemma aruns_bind {A B} (c : M (acpi S) A) (k : A -> M (acpi S) B) : aruns c -> (forall a, aruns (k a)) -> aruns (bind c k).
Proof.
  intros Hc Hk s Hn Hi. destruct (Hc s Hn Hi) as (a & s1 & E & E1 & H1). rewrite (bind_ret _ _ _ _ _ E).
  destruct (Hk a s1 ltac:(congruence) H1) as (a' & s2 & E' & E2 & H2). exists a', s2. split; [done|]. split; [congruence|done].
Qed.
Lemma aruns_gets {A} (f : acpi S -> A) : aruns (gets f).
Proof. intros s Hn Hi. by exists (f s), s. Qed.
Lemma aruns_ret {A} (a : A) : aruns (ret a).
Proof. intros s Hn Hi. by exists a, s. Qed.

Lemma aruns_GetPci : aruns (GetPci new (GetAcpi new (Some response) lit_at 1)).
Proof.
  apply aruns_bind; [apply aruns_gets|]. intros ready. destruct (negb ready); [|apply aruns_ret].
  apply aruns_bind; [intros s Hn Hi; rewrite GetAcpi_cached by done; by eexists _, s|]. intros p.
  apply aruns_bind; [apply aruns_gets|]. intros mcfg. apply aruns_bind; [|intros _ s Hn Hi; by eexists _, _].
  intros s Hn Hi. destruct (runs_walk mcfg _ _ Hi) as (a & t & E & Hi'). eexists _, _. split; [exact (zoom_ret _ _ _ _ _ _ E)|done].
Qed.

Lemma aruns_items n Xsdt i : aruns (item_loop new lit_at n (GetAcpi new (Some response) lit_at 1) Xsdt i).
Proof.
  revert i. induction n as [|n IH]; intros i; cbn [item_loop]; [apply aruns_ret|].
  apply aruns_bind; [|intros _; apply IH].
  apply aruns_bind; [apply aruns_gets|]. intros item. apply aruns_bind; [apply aruns_gets|]. intros differ.
  destruct (differ =? 0); [|apply aruns_ret].
  intros s Hn Hi. unfold bind at 1, gets at 1. unfold bind at 1, astore at 1, modify at 1.
  match goal with |- exists a s', _ ?s1 = _ /\ _ => apply (aruns_GetPci s1); [done|] end. cbn [AcpiData0 set_src src]. apply Hst; [done|by right].
Qed.

(** The same for a routine that returns the pointer. *)
Definition aends (c : M (acpi S) Z) : Prop :=
  forall s, AcpiData0 s <> 0 -> I (AcpiData0 s) (src s) ->
    exists s', c s = Ret (AcpiData0 s) s' /\ AcpiData0 s' = AcpiData0 s /\ I (AcpiData0 s') (src s').
Lemma aends_bind {A} (c : M (acpi S) A) k : aruns c -> (forall a, aends (k a)) -> aends (bind c k).
Proof.
  intros Hc Hk s Hn Hi. destruct (Hc s Hn Hi) as (a & s1 & E & E1 & H1). rewrite (bind_ret _ _ _ _ _ E).
  destruct (Hk a s1 ltac:(congruence) H1) as (s2 & E' & E2 & H2). exists s2. rewrite E1 in *. done.
Qed.

Lemma GetAcpi_run (s : acpi S) p t :
  AcpiData0 s = 0 -> ps_alloc (src s) = Ret p t -> p <> 0 -> I p t ->
  exists s', GetAcpi new (Some response) lit_at 2 s = Ret p s' /\ AcpiData0 s' = p /\ I p (src s').
Proof.
  intros H0 Ea Hp Hi. change 2%nat with (Datatypes.S 1). remember 1%nat as one eqn:E1 in |- *. cbn [GetAcpi]. unfold bind at 1, gets at 1.
  rewrite H0. cbn [Z.eqb]. unfold bind at 1, modify at 1. unfold bind at 1, zoom at 1. cbn [src set_RSDP].
  rewrite Ea. unfold bind at 1, modify at 1. unfold bind at 1, gets at 1. unfold bind at 1, astore at 1, modify at 1.
  match goal with |- exists s', ?c ?s1 = _ /\ _ => assert (Hc : aends c); [|destruct (Hc s1) as (s' & E & E2 & Hi')] end.
  - do 3 (apply aends_bind; [apply aruns_gets|]; intros ?). subst one. apply aends_bind; [apply aruns_items|].
    intros _ s0 Hn0 Hi0. by exists s0.
  - cbn [AcpiData0 set_src set_AcpiData0]. done.
  - cbn [AcpiData0 set_src set_AcpiData0 src]. rewrite <- (Z.add_0_r p) at 2. apply Hst; [done|by left].
  - exists s'. rewrite E. cbn [AcpiData0 set_src set_AcpiData0] in *. rewrite E2 in Hi'. done.
Qed.

End AcpiRuns.

Lemma elem_flat_map {A B} (f : A -> list B) l b : b ∈ flat_map f l <-> exists a, a ∈ l /\ b ∈ f a.
Proof. rewrite list_elem_of_In, in_flat_map. by setoid_rewrite <- list_elem_of_In. Qed.
Lemma elem_if_present m x l a : a ∈ if_present m x l <-> present m x = true /\ a ∈ l.
Proof. unfold if_present. destruct (present m x); [naive_solver|]. split; [by intros ?%not_elem_of_nil|by intros []]. Qed.

Lemma elem_bus m base b a :
  a ∈ in_bus m base b <-> exists d f, 0 <= d < 32 /\ 0 <= f < 8 /\
    present m (fn_addr base b 0 0) = true /\ present m (fn_addr base b d 0) = true /\
    present m (fn_addr base b d f) = true /\ is_ahci m (fn_addr base b d f) = true /\ a = fn_addr base b d f.
Proof.
  unfold in_bus, in_device, in_function, fn_addr. rewrite elem_if_present, elem_flat_map, !sub_0.
  setoid_rewrite elem_if_present. setoid_rewrite elem_flat_map. setoid_rewrite elem_if_present.
  setoid_rewrite elem_of_seqZ. setoid_rewrite sub_0.
  split.
  - intros (Hb & d & Hd & Hpd & f & Hf & Hpf & Ha). destruct (is_ahci _ _) eqn:E; [|by apply not_elem_of_nil in Ha].
    apply list_elem_of_singleton in Ha. exists d, f. split_and!; try done; lia.
  - intros (d & f & Hd & Hf & Hb & Hpd & Hpf & E & ->). split; [done|]. exists d. split_and!; [lia|lia|done|].
    exists f. rewrite E. split_and!; [lia|lia|done|]. by apply list_elem_of_singleton.
Qed.

(** ** Properties *)

(** C37: [WalkThroughPciBus] constructs a driver for exactly the AHCI
    controllers (class 1, subclass 6, interface 1) of the configuration
    spaces the MCFG table names, in the order of bus, device and function,
    provided that constructing one leaves the table and the configuration
    spaces alone.  A controller counts when its function, function 0 of its
    device and device 0 of its bus answer, and when its bus lies before the
    last bus of the entry, which the walk leaves out. *)
Theorem bus_walk_finds {S : Type} `{PageSource S} (new : Z -> M S unit) (quiet : Z -> Prop) (s : S) MCFG0 :
  (forall a t t', new a t = Ret tt t' -> forall x, quiet x -> ld8 (ps_mem t') x = ld8 (ps_mem t) x) ->
  let m := ps_mem s in
  walk_quiet quiet m MCFG0 ->
  WalkThroughPciBus new MCFG0 s = construct new (ahci_functions m MCFG0) s /\
  forall a, a ∈ ahci_functions m MCFG0 <->
    exists e b d f, e ∈ entries m MCFG0 /\ ld 1 m (e + 10) <= b < ld 1 m (e + 11) /\ 0 <= d < 32 /\ 0 <= f < 8 /\
      let base := ld 8 m e in
      present m (fn_addr base b 0 0) = true /\ present m (fn_addr base b d 0) = true /\
      present m (fn_addr base b d f) = true /\ is_ahci m (fn_addr base b d f) = true /\ a = fn_addr base b d f.
Proof.
  intros Hnew m Hq. split; [by apply (constructs_walk new quiet m Hnew)|].
  intros a. unfold ahci_functions, in_entry. rewrite elem_flat_map. setoid_rewrite elem_flat_map.
  setoid_rewrite elem_bus. setoid_rewrite elem_of_seqZ. split.
  - intros (e & He & b & Hb & d & f & Hd & Hf & Hrest). exists e, b, d, f. split_and!; try apply Hrest; try done; lia.
  - intros (e & b & d & f & He & Hb & Hd & Hf & Hrest). exists e. split; [done|]. exists b. split; [lia|]. eauto.
Qed.

(** One entry with its configuration space at 0x100000, bus 0, and on it the
    devices 0 and 31, the latter with an AHCI controller as function 2. *)
Definition one_controller : gmap Z Z :=
  let m := st 4 ∅ 0x1004 60 in
  let m := st 8 m 0x102C 0x100000 in
  let m := st 1 (st 1 m 0x1036 0) 0x1037 1 in
  let m := st 2 (st 2 m 0x100002 0x29C0) 0x1F8002 0x2918 in
  st 1 (st 1 (st 1 (st 2 m 0x1FA002 0x2922) 0x1FA009 1) 0x1FA00A 6) 0x1FA00B 1.

(** A driver that notes the address of its controller. *)
Definition noting (a : Z) : M Pmm.pmm unit := modify (Pmm.set_mem (fun m => st 8 m 0x100 a)).

Lemma bus_walk_finds_witness :
  let s := Pmm.mkPmm one_controller (Console.mkTty [] 0) 4096 0 4096 0 in
  @WalkThroughPciBus _ (Ptm.pmm_source Ptm.map2 Ptm.map2_ok) noting 0x1000 s = Ret tt (Pmm.set_mem (fun m => st 8 m 0x100 0x1FA000) s).
Proof.
  intros s. destruct (@bus_walk_finds _ (Ptm.pmm_source Ptm.map2 Ptm.map2_ok) noting (fun x => x < 0x100 \/ 0x108 <= x) s 0x1000)
    as [E _].
  - intros a t t' E x Hx. unfold noting, modify in E. injection E as <-.
    exact (ld8_st_out 8 (Pmm.mem t) 0x100 a x ltac:(lia)).
  - change (ps_mem s) with one_controller.
    assert (E : entries one_controller 0x1000 = [0x102C]) by reflexivity. unfold walk_quiet. rewrite E. split_and!.
    + lia.
    + intros e x ->%list_elem_of_singleton. lia.
    + intros e b d f x ->%list_elem_of_singleton Hb Hd Hf. change (ld 8 one_controller 0x102C) with 0x100000.
      unfold fn_addr, sub. rewrite !Z.shiftl_mul_pow2 by lia. rewrite (u64_id (b * _)), (u64_id (d * _)), (u64_id (f * _)) by lia.
      rewrite (u64_id (0x100000 + _)) by lia. rewrite (u64_id (0x100000 + _ + _)) by lia. rewrite u64_id by lia. lia.
  - rewrite E. assert (El : ahci_functions one_controller 0x1000 = [0x1FA000]) by reflexivity.
    change (ps_mem s) with one_controller. rewrite El. reflexivity.
Defined.

(** [GetAcpi], which calls itself through [GetPci], never goes deeper
    than one call inside the first: with two levels of calls the model never
    runs out of fuel.  It returns a non-null pointer, and a second call
    returns the same pointer and changes nothing. *)
Theorem GetAcpi_terminates {S : Type} `{PageSource S} (new : Z -> M S unit) resp lit_at (s : acpi S) :
  (forall a t, new a t <> NoFuel) -> (forall t : S, ps_alloc t <> NoFuel) -> ps_inv (src s) ->
  match GetAcpi new resp lit_at 2 s with
  | Ret p s' => p <> 0 /\ p = AcpiData0 s' /\ GetAcpi new resp lit_at 1 s' = Ret p s'
  | Done _ => True
  | NoFuel => False
  end.
Proof.
  intros Hnew Halloc Hinv. destruct (decide (AcpiData0 s = 0)) as [H0|H0].
  2:{ rewrite GetAcpi_cached by done. split; [done|]. split; [done|]. by rewrite GetAcpi_cached. }
  change 2%nat with (Datatypes.S 1). remember 1%nat as one eqn:E1. cbn [GetAcpi]. unfold bind at 1, gets at 1.
  rewrite H0. cbn [Z.eqb]. destruct resp as [address|]; [|done].
  unfold bind at 1, modify at 1. unfold bind at 1, zoom at 1. cbn [src set_RSDP].
  destruct (ps_alloc (src s)) as [p t| |] eqn:Ea; [|done|by apply Halloc in Ea].
  destruct (ps_alloc_ret _ _ _ Hinv Ea) as (_ & Hf & _). destruct (ps_free_page _ _ Hinv Hf) as (_ & Hp & _).
  unfold bind at 1, modify at 1. set (s1 := set_AcpiData0 p _).
  match goal with |- match ?c s1 with _ => _ end => assert (He : ends c) end.
  { apply ends_bind; [apply keeps_gets|]. intros rsdp. apply ends_bind; [by apply keeps_modify|]. intros _.
    do 3 (apply ends_bind; [apply keeps_gets|]; intros ?). subst one.
    apply ends_bind; [by apply keeps_items|]. intros _. apply ends_ptr. }
  destruct He as [Hk Hr]. specialize (Hk s1). specialize (Hr s1). cbn [AcpiData0 s1 set_AcpiData0] in Hk.
  match goal with |- match ?c with _ => _ end => destruct c as [a s'| |] eqn:E end; [|done|by apply Hk; lia].
  specialize (Hk ltac:(lia)). specialize (Hr _ _ eq_refl). subst a. split; [lia|]. split; [done|].
  subst one. apply GetAcpi_cached. lia.
Qed.

(** The tables of [one_controller] below an XSDT at 0x21000, which the RSDP
    at 0x20000 names; the literal lies at 0x30000. *)
Definition one_table_acpi : gmap Z Z :=
  let m := st 8 (st 4 (st 8 one_controller 0x20018 0x21000) 0x21004 44) 0x21024 0x1000 in
  st 4 (st 4 m 0x1000 0x4746434D) 0x30000 0x4746434D.

Lemma pmm_alloc_returns l s : Pmm.AllocateEmptyPage l s <> NoFuel.
Proof.
  unfold Pmm.AllocateEmptyPage, Pmm.AllocatePage, Pmm.out_of_memory, bind.
  destruct (0 <? Pmm.FreeListLength s); [done|]. destruct (Pmm.scan_entries l (Pmm.LastAddress s)); [done|].
  destruct s as [m [out n] fl len la sz]. vm_compute. discriminate.
Qed.

Definition observe (o : outcome (acpi Pmm.pmm) Z) : option (Z * bool * Z) :=
  match o with
  | Ret p s' => Some (p, IsReady s', ld 8 (Pmm.mem (src s')) 0x100)
  | _ => None
  end.

Lemma GetAcpi_terminates_witness :
  let s := mkAcpi (Pmm.mkPmm one_table_acpi (Console.mkTty [] 0) 4096 0 4096 0) 0 false 0 in
  let GetAcpi := @GetAcpi _ (Ptm.pmm_source Ptm.map2 Ptm.map2_ok) noting (Some 0x20000) 0x30000 in
  match GetAcpi 2%nat s with
  | Ret p s' => p = 0x2000 /\ IsReady s' = true /\ ld 8 (Pmm.mem (src s')) 0x100 = 0x1FA000 /\ GetAcpi 1%nat s' = Ret p s'
  | _ => False
  end.
Proof.
  intros s GetAcpi'. unfold GetAcpi'. clear GetAcpi'.
  pose proof (@GetAcpi_terminates _ (Ptm.pmm_source Ptm.map2 Ptm.map2_ok) noting (Some 0x20000) 0x30000 s) as Ht.
  assert (Ho : observe (@GetAcpi _ (Ptm.pmm_source Ptm.map2 Ptm.map2_ok) noting (Some 0x20000) 0x30000 2%nat s)
    = Some (0x2000, true, 0x1FA000)) by (vm_compute; reflexivity).
  destruct (@GetAcpi _ (Ptm.pmm_source Ptm.map2 Ptm.map2_ok) noting (Some 0x20000) 0x30000 2%nat s) as [p s'| |];
    [|discriminate Ho..].
  cbn [observe] in Ho. injection Ho as Hp Hr Hn. split; [exact Hp|]. split; [exact Hr|]. split; [exact Hn|].
  apply Ht; [discriminate|apply pmm_alloc_returns|]. split; [|done]. repeat split; cbn; lia.
Defined.

(** [RemapInterruptsForIO] programs both interrupt controllers: whatever
    their state was (outside an initialisation), the master then delivers
    its interrupts at vectors 0x20 to 0x27 and the slave at 0x28 to 0x2F,
    the cascade is on line 2, both are in 8086 mode with no interrupt in
    service, and each has the interrupt mask it had before.  The end of an
    interrupt of the slave is signalled to both. *)
Theorem pics_remapped (master slave : pic) :
  expect master = O -> expect slave = O ->
  let d' := (mkPic (imr master) [] 0x20 4 1 0 true, mkPic (imr slave) [] 0x28 2 1 0 true) in
  RemapInterruptsForIO (master, slave) = Ret tt d' /\
  EndInterruptsForSlaveIO (master, slave) =
    Ret tt (pic_command 0x20 master, pic_command 0x20 slave).
Proof. intros Hm Hs. destruct master, slave. cbn in *. subst. split; reflexivity. Qed.

Lemma pics_remapped_witness :
  RemapInterruptsForIO (mkPic 0xB8 [1] 8 4 1 0 true, mkPic 0x8E [] 0x70 2 1 0 true) =
    Ret tt (mkPic 0xB8 [] 0x20 4 1 0 true, mkPic 0x8E [] 0x28 2 1 0 true).
Proof. apply (pics_remapped (mkPic 0xB8 [1] 8 4 1 0 true) (mkPic 0x8E [] 0x70 2 1 0 true)); reflexivity. Defined.

End PciBus.
