(* ===== verification/Ahci.v ===== *)
(** The AHCI disk driver (kernel/Ahci/Ahci.cpp), over two interfaces: the
    memory and page tables of the kernel ([Host]) and the controller behind
    the port registers ([Hba]). *)

From stdpp Require Import base tactics list gmap numbers option strings.
From Stdlib Require Import ZArith Lia.
From S2P Require Import Prelude Mem.

#[local] Open Scope Z_scope.

(** ** What the driver relies on in the kernel

    [h_map p] is [MapMemory(Pml4, p, p, 4096)] and [h_alloc] is
    [AllocateEmptyPage].  [h_inv s g] is the invariant of the page tables,
    [g] what they consist of; [h_data s g x] says that the byte [x] lies in
    no table and in no free page.  [h_need s p] is the number of pages the
    mapping of [p] takes, [h_pages s] the number of pages that are left, and
    [h_low s] says that these lie below 4 GiB. *)
Class Host (S : Type) := {
  h_mem : S -> gmap Z Z;
  h_set_mem : gmap Z Z -> S -> S;
  h_map : Z -> M S unit;
  h_alloc : M S Z;
  h_ghost : Type;
  h_inv : S -> h_ghost -> Prop;
  h_data : S -> h_ghost -> Z -> Prop;
  h_need : S -> Z -> Z;
  h_pages : S -> Z;
  h_low : S -> Prop;
  h_mem_set m s : h_mem (h_set_mem m s) = m;
  h_set_set m m' s : h_set_mem m (h_set_mem m' s) = h_set_mem m s;
  h_set_inv m s g :
    h_inv s g -> (forall x, ~ h_data s g x -> Mem.ld8 m x = Mem.ld8 (h_mem s) x) -> h_inv (h_set_mem m s) g;
  h_set_data m s g x : h_data (h_set_mem m s) g x <-> h_data s g x;
  h_set_need m s g p :
    h_inv s g -> (forall x, ~ h_data s g x -> Mem.ld8 m x = Mem.ld8 (h_mem s) x) ->
    h_need (h_set_mem m s) p = h_need s p;
  h_set_pages m s : h_pages (h_set_mem m s) = h_pages s;
  h_set_low m s : h_low s -> h_low (h_set_mem m s);
  h_need_range s p : 0 <= h_need s p <= 3;
  h_map_ret s g p :
    h_inv s g -> p mod 4096 = 0 -> 0 <= p -> p + 4096 <= 2 ^ 48 -> h_need s p <= h_pages s ->
    exists s' g', h_map p s = Ret tt s' /\ h_inv s' g' /\ h_need s' p = 0 /\
      h_pages s <= h_need s p + h_pages s' /\ 0 <= h_pages s' /\ (h_low s -> h_low s') /\
      forall x, h_data s g x -> h_data s' g' x /\ Mem.ld8 (h_mem s') x = Mem.ld8 (h_mem s) x;
  h_alloc_ret s g :
    h_inv s g -> 0 < h_pages s ->
    exists a s', h_alloc s = Ret a s' /\ h_inv s' g /\ a mod 4096 = 0 /\ 0 < a /\ a + 4096 <= 2 ^ 52 /\
      (h_low s -> a + 4096 <= 2 ^ 32 /\ h_low s') /\ h_pages s' = h_pages s - 1 /\ (forall p, h_need s' p = h_need s p) /\
      h_mem s' = Mem.memset (h_mem s) a 0 4096 /\
      (forall x, h_data s g x -> (x < a \/ a + 4096 <= x) /\ h_data s' g x) /\
      (forall x, a <= x < a + 4096 -> h_data s' g x)
}.

(** ** The controller

    Registers are read and written at their addresses; [tick] is the passing
    of time between two looks at it, in which it may access memory. *)
Class Hba (D : Type) := {
  rd : Z -> D -> Z;
  wr : Z -> Z -> D -> D;
  tick : gmap Z Z * D -> gmap Z Z * D
}.

Module Ahci.
Import Prelude Mem.
#[local] Open Scope lofi_scope.

(** ** Registers and constants (Ahci.h)

    [HBA_Memory]: PortsImplemented at 0x0C, the ports from 0x100, 0x80 bytes
    each; [HBA_Port] below. *)
Definition CommandListBase : Z := 0x00.
Definition CommandListBaseUpper : Z := 0x04.
Definition FIS_BaseAddress : Z := 0x08.
Definition FIS_BaseAddressUpper : Z := 0x0C.
Definition InterruptStatus : Z := 0x10.
Definition CommandStatus : Z := 0x18.
Definition TaskFileData : Z := 0x20.
Definition Signature : Z := 0x24.
Definition SATA_Status : Z := 0x28.
Definition CommandIssue : Z := 0x38.

Definition PortsImplemented : Z := 0x0C.
Definition Ports (Index : Z) : Z := 0x100 + Index * 0x80.

Definition ATA_DEV_Busy : Z := 0x80.
Definition ATA_DEV_DRQ : Z := 0x08.
Definition HBA_PxIS_TFES : Z := 2 ^ 30.
Definition ATA_CommandReadDMA_EX : Z := 0x25.
Definition REG_H2D : Z := 0x27.
Definition HBA_PortDevicePresent : Z := 0x3.
Definition HBA_PortIPM_Active : Z := 0x1.
Definition SATA_SIG_Atapi : Z := 0xEB140101.
Definition SATA_SIG_ATA : Z := 0x00000101.
Definition SATA_SIG_Semb : Z := 0xC33C0101.
Definition SATA_SIG_PM : Z := 0x96690101.
Definition HBA_PxCmdCR : Z := 0x8000.
Definition HBA_PxCmdFRE : Z := 0x0010.
Definition HBA_PxCmdSt : Z := 0x0001.
Definition HBA_PxCmdFR : Z := 0x1000.

(** sizeof(FIS_REG_H2D), sizeof(HBA_CommandHeader), sizeof(HBA_CommandTable)
    and sizeof(HBA_PrdtEntry). *)
Definition sizeof_FIS_REG_H2D : Z := 20.
Definition sizeof_CommandHeader : Z := 32.
Definition sizeof_CommandTable : Z := 128.
Definition sizeof_PrdtEntry : Z := 16.

Inductive PortType : Set := None_ | SATA | Semb | PM | SATA_Pi.
#[global] Instance PortType_eq_dec : EqDecision PortType.
Proof. solve_decision. Defined.

Record Port := mkPort { HBA : Z; Type_ : PortType; PortNumber : Z }.

(** The kernel and the controller. *)
Record system (S D : Type) := mkSystem { host : S; dev : D }.
Arguments mkSystem {S D} _ _.
Arguments host {S D} _.
Arguments dev {S D} _.

Section Ops.
Context {S D : Type} `{Host S} `{Hba D}.

Definition set_host (h : S) (s : system S D) : system S D := mkSystem h (dev s).
Definition on_host {A} (c : M S A) : M (system S D) A := zoom host set_host c.

Definition load (n : nat) (a : Z) : M (system S D) Z := gets (fun s => ld n (h_mem (host s)) a).
Definition update (f : gmap Z Z -> gmap Z Z) : M (system S D) unit :=
  modify (fun s => set_host (h_set_mem (f (h_mem (host s))) (host s)) s).
Definition store (n : nat) (a v : Z) : M (system S D) unit := update (fun m => st n m a v).
Definition get_reg (a : Z) : M (system S D) Z := gets (fun s => rd a (dev s)).
Definition set_reg (a v : Z) : M (system S D) unit := modify (fun s => mkSystem (host s) (wr a v (dev s))).
(** Time passes, as in [IO_Wait] and between two looks at a register. *)
Definition wait : M (system S D) unit :=
  modify (fun s => let (m, d) := tick (h_mem (host s), dev s) in mkSystem (h_set_mem m (host s)) d).

(** ** Port::Read *)

(** [while ((TaskFileData & (Busy | DRQ)) && Spin < 10000) { Spin++; IO_Wait(); }] *)
Fixpoint spin_loop (fuel : nat) (HBA Spin : Z) : M (system S D) Z :=
  match fuel with
  | O => fun _ => NoFuel
  | Datatypes.S f =>
    let* t := get_reg (HBA + TaskFileData) in
    if negb (Z.land t (Z.lor ATA_DEV_Busy ATA_DEV_DRQ) =? 0) && (Spin <? 10000)
    then wait ;;; spin_loop f HBA (Spin + 1)
    else ret Spin
  end.

(** The loop after the command was issued: [while (true)]. *)
Fixpoint issue_loop (fuel : nat) (HBA : Z) : M (system S D) bool :=
  match fuel with
  | O => fun _ => NoFuel
  | Datatypes.S f =>
    wait ;;;
    let* ci := get_reg (HBA + CommandIssue) in
    if ci =? 0 then ret true
    else
      let* ist := get_reg (HBA + InterruptStatus) in
      if negb (Z.land ist HBA_PxIS_TFES =? 0) then ret false else issue_loop f HBA
  end.

(** The command header at [ch]: bits 0 to 4 of its first byte are
    CommandFIS_Length, bit 6 is Write; PrdtLength is at 2,
    CommandTableBaseAddress at 8. *)
Definition set_header (m : gmap Z Z) (ch : Z) : gmap Z Z :=
  let m := st 1 m ch (Z.lor (Z.ldiff (ld 1 m ch) 0x1F) (sizeof_FIS_REG_H2D / 4)) in
  let m := st 1 m ch (Z.ldiff (ld 1 m ch) 0x40) in
  st 2 m (ch + 2) 1.

(** PrdtEntries[0] lies at 128 in the command table: DbAddress at 0,
    DbAddressUpper at 4, ByteCount in bits 0 to 21 and InterruptOnCompletion
    in bit 31 of the word at 12. *)
Definition set_prdt (m : gmap Z Z) (ct Buffer SectorCount : Z) : gmap Z Z :=
  let e := ct + sizeof_CommandTable in
  let m := st 4 m e (u32 Buffer) in
  let m := st 4 m (e + 4) (u32 (Z.shiftr Buffer 32)) in
  let m := st 4 m (e + 12)
             (Z.lor (Z.ldiff (ld 4 m (e + 12)) (Z.ones 22)) (Z.land (u32 (u32 (Z.shiftl SectorCount 9) - 1)) (Z.ones 22))) in
  st 4 m (e + 12) (Z.setbit (ld 4 m (e + 12)) 31).

(** The command FIS at the start of the table. *)
Definition set_fis (m : gmap Z Z) (fis Sector SectorCount : Z) : gmap Z Z :=
  let SectorLow := u32 Sector in
  let SectorHigh := u32 (Z.shiftr Sector 32) in
  let m := st 1 m fis REG_H2D in
  let m := st 1 m (fis + 1) (Z.setbit (ld 1 m (fis + 1)) 7) in
  let m := st 1 m (fis + 2) ATA_CommandReadDMA_EX in
  let m := st 1 m (fis + 4) (u8 SectorLow) in
  let m := st 1 m (fis + 5) (u8 (Z.shiftr SectorLow 8)) in
  let m := st 1 m (fis + 6) (u8 (Z.shiftr SectorLow 16)) in
  let m := st 1 m (fis + 8) (u8 SectorHigh) in
  let m := st 1 m (fis + 9) (u8 (Z.shiftr SectorHigh 8)) in
  let m := st 1 m (fis + 10) (u8 (Z.shiftr SectorHigh 16)) in
  let m := st 1 m (fis + 7) (Z.shiftl 1 6) in
  let m := st 1 m (fis + 12) (Z.land SectorCount 0xFF) in
  st 1 m (fis + 13) (Z.land (Z.shiftr SectorCount 8) 0xFF).

(** All that is stored before the command is issued: the header, the table
    cleared (it holds PrdtLength entries), the entry and the FIS. *)
Definition set_command (m : gmap Z Z) (CommandHeader Sector SectorCount Buffer : Z) : gmap Z Z :=
  let m := set_header m CommandHeader in
  let CommandTable := ld 4 m (CommandHeader + 8) in
  let PrdtLength := ld 2 m (CommandHeader + 2) in
  let m := memset m CommandTable 0 (u64 (sizeof_CommandTable + u64 ((PrdtLength - 1) * sizeof_PrdtEntry))) in
  let m := set_prdt m CommandTable Buffer SectorCount in
  set_fis m CommandTable Sector SectorCount.

(** [fuel] bounds the turns of the last loop, which the source does not
    bound; see [Read_reads] for how many the controller needs. *)
Definition Read (fuel : nat) (this : Port) (Sector SectorCount Buffer : Z) : M (system S D) bool :=
  let HBA := HBA this in
  on_host (h_map Buffer) ;;;
  set_reg (HBA + InterruptStatus) (u32 (-1)) ;;;
  let* CommandHeader := get_reg (HBA + CommandListBase) in
  update (fun m => set_command m CommandHeader Sector SectorCount Buffer) ;;;
  let* Spin := spin_loop (Z.to_nat 10001) HBA 0 in
  if Spin =? 100 then ret false
  else
    set_reg (HBA + CommandIssue) 1 ;;;
    issue_loop fuel HBA.

(** ** Starting and stopping the engine of a port *)

(** [while (true) { if (FR || CR) continue; else break; }] *)
Fixpoint stop_loop (fuel : nat) (HBA : Z) : M (system S D) unit :=
  match fuel with
  | O => fun _ => NoFuel
  | Datatypes.S f =>
    let* c1 := get_reg (HBA + CommandStatus) in
    let* c2 := get_reg (HBA + CommandStatus) in
    if negb (Z.land c1 HBA_PxCmdFR =? 0) || negb (Z.land c2 HBA_PxCmdCR =? 0)
    then wait ;;; stop_loop f HBA else ret tt
  end.
Definition StopCommand (fuel : nat) (this : Port) : M (system S D) unit :=
  let* c := get_reg (HBA this + CommandStatus) in
  set_reg (HBA this + CommandStatus) (Z.ldiff c HBA_PxCmdSt) ;;;
  let* c := get_reg (HBA this + CommandStatus) in
  set_reg (HBA this + CommandStatus) (Z.ldiff c HBA_PxCmdFRE) ;;;
  stop_loop fuel (HBA this).

(** [while (CommandStatus & CR);] *)
Fixpoint start_loop (fuel : nat) (HBA : Z) : M (system S D) unit :=
  match fuel with
  | O => fun _ => NoFuel
  | Datatypes.S f =>
    let* c := get_reg (HBA + CommandStatus) in
    if negb (Z.land c HBA_PxCmdCR =? 0) then wait ;;; start_loop f HBA else ret tt
  end.
Definition StartCommand (fuel : nat) (this : Port) : M (system S D) unit :=
  start_loop fuel (HBA this) ;;;
  let* c := get_reg (HBA this + CommandStatus) in
  set_reg (HBA this + CommandStatus) (Z.lor c HBA_PxCmdFRE) ;;;
  let* c := get_reg (HBA this + CommandStatus) in
  set_reg (HBA this + CommandStatus) (Z.lor c HBA_PxCmdSt).

Fixpoint header_loop (n : nat) (CommandHeader Index : Z) : M (system S D) unit :=
  match n with
  | O => ret tt
  | Datatypes.S n' =>
    let h := u64 (CommandHeader + Index * sizeof_CommandHeader) in
    store 2 (h + 2) 8 ;;;
    let* CommandTableAddress := on_host h_alloc in
    let Address := u64 (CommandTableAddress + u32 (Z.shiftl Index 8)) in
    store 4 (h + 8) (u32 Address) ;;;
    store 4 (h + 12) (u32 (Z.shiftr Address 32)) ;;;
    update (fun m => memset m CommandTableAddress 0 256) ;;;
    header_loop n' CommandHeader (Index + 1)
  end.

Definition Configure (fuel : nat) (this : Port) : M (system S D) unit :=
  let HBA := HBA this in
  StopCommand fuel this ;;;
  let* NewBase := on_host h_alloc in
  set_reg (HBA + CommandListBase) (u32 NewBase) ;;;
  set_reg (HBA + CommandListBaseUpper) (u32 (Z.shiftr NewBase 32)) ;;;
  update (fun m => memset m NewBase 0 1024) ;;;
  let* FIS_Base := on_host h_alloc in
  set_reg (HBA + FIS_BaseAddress) (u32 FIS_Base) ;;;
  set_reg (HBA + FIS_BaseAddressUpper) (u32 (Z.shiftr FIS_Base 32)) ;;;
  update (fun m => memset m FIS_Base 0 256) ;;;
  let* lo := get_reg (HBA + CommandListBase) in
  let* hi := get_reg (HBA + CommandListBaseUpper) in
  header_loop 32 (u64 (lo + u64 (Z.shiftl hi 32))) 0 ;;;
  StartCommand fuel this.

(** ** AhciDriver *)

(** [(SATA_Status >> 8) && 0b111] is a truth value. *)
Definition GetPortType (Port : Z) : M (system S D) PortType :=
  let* status := get_reg (Port + SATA_Status) in
  let InterfacePowerManagement := if negb (Z.shiftr status 8 =? 0) then 1 else 0 in
  let DeviceDetection := Z.land status 7 in
  if negb (DeviceDetection =? HBA_PortDevicePresent) || negb (InterfacePowerManagement =? HBA_PortIPM_Active)
  then ret None_
  else
    let* s1 := get_reg (Port + Signature) in
    if s1 =? SATA_SIG_Atapi then ret SATA_Pi
    else
    let* s2 := get_reg (Port + Signature) in
    if s2 =? SATA_SIG_ATA then ret SATA
    else
    let* s3 := get_reg (Port + Signature) in
    if s3 =? SATA_SIG_PM then ret PM
    else
    let* s4 := get_reg (Port + Signature) in
    if s4 =? SATA_SIG_Semb then ret Semb else ret None_.

(** The array [Ports] and [PortCount], an 8-bit counter. *)
Fixpoint probe_loop (n : nat) (ABAR implemented Index : Z) (found : Z -> Port) (PortCount : Z)
  : M (system S D) ((Z -> Port) * Z) :=
  match n with
  | O => ret (found, PortCount)
  | Datatypes.S n' =>
    if negb (Z.land implemented (u32 (Z.shiftl 1 Index)) =? 0) then
      let* T := GetPortType (ABAR + Ports Index) in
      if bool_decide (T = SATA) || bool_decide (T = SATA_Pi) then
        probe_loop n' ABAR implemented (Index + 1)
          (fun i => if i =? PortCount then mkPort (ABAR + Ports Index) T PortCount else found i) (u8 (PortCount + 1))
      else probe_loop n' ABAR implemented (Index + 1) found PortCount
    else probe_loop n' ABAR implemented (Index + 1) found PortCount
  end.
(** Both start with what the memory of the object held. *)
Definition ProbePorts (ABAR : Z) (found : Z -> Port) (PortCount : Z) : M (system S D) ((Z -> Port) * Z) :=
  let* implemented := get_reg (ABAR + PortsImplemented) in
  probe_loop 32 ABAR implemented 0 found PortCount.

(** The reads of sector 0 and the search for ["ROOT"] (at [str_ROOT]) in
    what they return; [Root] is the global port pointer. *)
Fixpoint search_loop (n : nat) (this : Port) (str_ROOT a : Z) (Root : option Port) : M (system S D) (option Port) :=
  match n with
  | O => ret Root
  | Datatypes.S n' =>
    let* differ := gets (fun s => memcmp (h_mem (host s)) a str_ROOT 4) in
    search_loop n' this str_ROOT (a + 1) (if differ =? 0 then Some this else Root)
  end.
Fixpoint try_loop (n fuel : nat) (this : Port) (str_ROOT Buffer : Z) (Root : option Port) : M (system S D) (option Port) :=
  match n with
  | O => ret Root
  | Datatypes.S n' =>
    update (fun m => memset m Buffer 0 512) ;;;
    let* ok := Read fuel this 0 1 Buffer in
    let* Root := if ok : bool then search_loop 512 this str_ROOT Buffer Root else ret Root in
    try_loop n' fuel this str_ROOT Buffer Root
  end.
Fixpoint ports_loop (n fuel : nat) (ports : Z -> Port) (str_ROOT Buffer Index : Z) (Root : option Port)
  : M (system S D) (option Port) :=
  match n with
  | O => ret Root
  | Datatypes.S n' =>
    Configure fuel (ports Index) ;;;
    let* Root := try_loop (Z.to_nat 1000) fuel (ports Index) str_ROOT Buffer Root in
    ports_loop n' fuel ports str_ROOT Buffer (Index + 1) Root
  end.

(** The constructor; BAR5 lies at 0x24 of the configuration space.  Returns
    the global [Root]. *)
Definition AhciDriver (fuel : nat) (str_ROOT Base_Address : Z) (found : Z -> Port) (PortCount : Z) (Root : option Port)
  : M (system S D) (option Port) :=
  let* Buffer := on_host h_alloc in
  let* ABAR := load 4 (Base_Address + 0x24) in
  on_host (h_map ABAR) ;;;
  let* r := ProbePorts ABAR found PortCount in
  ports_loop (Z.to_nat r.2) fuel r.1 str_ROOT Buffer 0 Root.

End Ops.


(** ** The command a controller finds in memory

    As the AHCI specification lays it out: the command header at [clb], its
    table, the command FIS and the first entry of the scatter list. *)
Record command := mkCommand {
  c_fis_words : Z; c_write : bool; c_prdtl : Z; c_table : Z;
  c_fis_type : Z; c_is_command : bool; c_opcode : Z; c_lba : Z; c_device : Z; c_count : Z;
  c_buffer : Z; c_bytes : Z
}.

Definition fetch (m : gmap Z Z) (clb : Z) : command :=
  let ct := ld 4 m (clb + 8) + 2 ^ 32 * ld 4 m (clb + 12) in
  mkCommand (ld 1 m clb mod 32) (Z.testbit (ld 1 m clb) 6) (ld 2 m (clb + 2)) ct
    (ld 1 m ct) (Z.testbit (ld 1 m (ct + 1)) 7) (ld 1 m (ct + 2))
    (ld 1 m (ct + 4) + 2 ^ 8 * ld 1 m (ct + 5) + 2 ^ 16 * ld 1 m (ct + 6)
      + 2 ^ 24 * ld 1 m (ct + 8) + 2 ^ 32 * ld 1 m (ct + 9) + 2 ^ 40 * ld 1 m (ct + 10))
    (ld 1 m (ct + 7)) (ld 1 m (ct + 12) + 2 ^ 8 * ld 1 m (ct + 13))
    (ld 4 m (ct + 128) + 2 ^ 32 * ld 4 m (ct + 132)) (ld 4 m (ct + 140) mod 2 ^ 22 + 1).

(** The sector the command of [Read] asks for: bits 24 to 31 of the sector
    number are lost, and bits 32 and up take their place. *)
Definition lba_of (Sector : Z) : Z := Sector mod 2 ^ 24 + 2 ^ 24 * ((Sector / 2 ^ 32) mod 2 ^ 24).

Definition read_command (ct lba SectorCount Buffer : Z) : command :=
  mkCommand 5 false 1 ct REG_H2D true ATA_CommandReadDMA_EX lba 0x40 (SectorCount mod 2 ^ 16) Buffer
    (((SectorCount * 512 - 1) mod 2 ^ 22) + 1).

(** ** Lemmas *)

Lemma ldiff_low x n : 0 <= n -> Z.ldiff x (Z.ones n) = x - x mod 2 ^ n.
Proof.
  intros Hn. rewrite Z.ldiff_ones_r by done. rewrite Z.shiftl_mul_pow2, Z.shiftr_div_pow2 by done.
  pose proof (Z.div_mod x (2 ^ n) ltac:(lia)). lia.
Qed.

Lemma set_low_bits x v n : 0 <= n -> 0 <= v < 2 ^ n -> Z.lor (Z.ldiff x (Z.ones n)) v mod 2 ^ n = v.
Proof.
  intros Hn Hv. rewrite <- Z.land_ones by done. apply Z.bits_inj'. intros i Hi.
  rewrite Z.land_spec, Z.lor_spec, Z.ldiff_spec, Z.testbit_ones_nonneg by lia.
  destruct (Z.ltb_spec i n); [by rewrite andb_false_r, andb_true_r|].
  rewrite andb_false_r. symmetry. apply (testbit_high v n); lia.
Qed.

Lemma setbit_high_mod x n k : 0 <= n <= k -> Z.setbit x k mod 2 ^ n = x mod 2 ^ n.
Proof.
  intros Hn. rewrite <- !Z.land_ones by lia. apply Z.bits_inj'. intros i Hi.
  rewrite !Z.land_spec, Z.testbit_ones_nonneg by lia. destruct (Z.ltb_spec i n); [|by rewrite !andb_false_r].
  rewrite Z.setbit_neq by lia. done.
Qed.

Lemma mod_32_22 x : (x mod 2 ^ 32) mod 2 ^ 22 = x mod 2 ^ 22.
Proof. apply Z.mod_mod_divide. exists (2 ^ 10). reflexivity. Qed.

(** Loads after the stores of one routine: the store at the same place, or
    one that is elsewhere. *)
Lemma ld1_st1_eq m a v : ld 1 (st 1 m a v) a = v mod 256.
Proof. apply ld_st_eq. Qed.
Lemma ld2_st2_eq m a v : ld 2 (st 2 m a v) a = v mod 2 ^ 16.
Proof. apply ld_st_eq. Qed.
Lemma ld4_st4_eq m a v : ld 4 (st 4 m a v) a = v mod 2 ^ 32.
Proof. apply ld_st_eq. Qed.
Ltac ld_solve := repeat first [rewrite ld1_st1_eq | rewrite ld2_st2_eq | rewrite ld4_st4_eq | rewrite ld_st_ne by lia].
Ltac ld8_solve := repeat (rewrite ld8_st_out by lia); reflexivity.

(** A property of every byte, by looking at each. *)
Lemma all_bytes (P : Z -> bool) : forallb P (seqZ 0 256) = true -> forall b, 0 <= b < 256 -> P b = true.
Proof. intros H b Hb. rewrite forallb_forall in H. apply H. apply list_elem_of_In, elem_of_seqZ. lia. Qed.

Lemma set_header_spec m ch :
  let m' := set_header m ch in
  ld 1 m' ch mod 32 = 5 /\ Z.testbit (ld 1 m' ch) 6 = false /\ ld 2 m' (ch + 2) = 1 /\
  (forall x, x < ch \/ ch + 4 <= x \/ x = ch + 1 -> ld8 m' x = ld8 m x).
Proof.
  cbv zeta. unfold set_header. set (b := ld 1 m ch).
  assert (Hb : 0 <= b < 256) by apply (ld_range 1).
  assert (Hbits : let b' := Z.ldiff (Z.lor (Z.ldiff b 0x1F) (sizeof_FIS_REG_H2D / 4) mod 256) 0x40 mod 256 in
    (b' mod 32 =? 5) && negb (Z.testbit b' 6) = true).
  { apply (all_bytes (fun b => let b' := Z.ldiff (Z.lor (Z.ldiff b 0x1F) (sizeof_FIS_REG_H2D / 4) mod 256) 0x40 mod 256 in
      (b' mod 32 =? 5) && negb (Z.testbit b' 6))); [vm_compute; reflexivity|done]. }
  cbv zeta in Hbits. apply andb_true_iff in Hbits as [H1 H2]. apply Z.eqb_eq in H1. apply negb_true_iff in H2.
  split_and!.
  - ld_solve. exact H1.
  - ld_solve. exact H2.
  - ld_solve. reflexivity.
  - intros x Hx. ld8_solve.
Qed.

Lemma set_prdt_spec m ct Buffer n :
  0 <= Buffer < 2 ^ 64 -> 0 <= n < 2 ^ 23 ->
  let m' := set_prdt m ct Buffer n in
  ld 4 m' (ct + 128) + 2 ^ 32 * ld 4 m' (ct + 132) = Buffer /\
  ld 4 m' (ct + 140) mod 2 ^ 22 = (n * 512 - 1) mod 2 ^ 22 /\
  (forall x, x < ct + 128 \/ ct + 144 <= x -> ld8 m' x = ld8 m x).
Proof.
  intros HB Hn. cbv zeta. unfold set_prdt, sizeof_CommandTable. rewrite <- !Z.add_assoc.
  change (128 + 4) with 132. change (128 + 12) with 140. split_and!.
  - ld_solve. rewrite Z.shiftr_div_pow2 by lia. unfold u32. rewrite !Zmod_mod. zdm.
  - ld_solve. rewrite mod_32_22, setbit_high_mod, mod_32_22 by lia.
    rewrite Z.land_ones by lia. rewrite set_low_bits by (try apply Z.mod_pos_bound; lia).
    unfold u32. rewrite mod_32_22, Z.shiftl_mul_pow2 by lia. change (2 ^ 9) with 512.
    zdm.
  - intros x Hx. ld8_solve.
Qed.

Lemma set_fis_spec m f Sector n :
  0 <= Sector < 2 ^ 64 -> 0 <= n < 2 ^ 32 ->
  let m' := set_fis m f Sector n in
  ld 1 m' f = REG_H2D /\ Z.testbit (ld 1 m' (f + 1)) 7 = true /\ ld 1 m' (f + 2) = ATA_CommandReadDMA_EX /\
  ld 1 m' (f + 4) + 2 ^ 8 * ld 1 m' (f + 5) + 2 ^ 16 * ld 1 m' (f + 6)
    + 2 ^ 24 * ld 1 m' (f + 8) + 2 ^ 32 * ld 1 m' (f + 9) + 2 ^ 40 * ld 1 m' (f + 10) = lba_of Sector /\
  ld 1 m' (f + 7) = 0x40 /\ ld 1 m' (f + 12) + 2 ^ 8 * ld 1 m' (f + 13) = n mod 2 ^ 16 /\
  (forall x, x < f \/ f + 20 <= x -> ld8 m' x = ld8 m x).
Proof.
  intros HS Hn. cbv zeta. unfold set_fis. split_and!.
  - ld_solve. reflexivity.
  - ld_solve. change 256 with (2 ^ 8). rewrite Z.mod_pow2_bits_low by lia. apply Z.setbit_eq. lia.
  - ld_solve. reflexivity.
  - ld_solve. rewrite !Z.shiftr_div_pow2 by lia. unfold u8, u32, lba_of. zdm.
  - ld_solve. reflexivity.
  - ld_solve. change 0xFF with (Z.ones 8). rewrite !Z.land_ones, !Z.shiftr_div_pow2 by lia. zdm.
  - intros x Hx. ld8_solve.
Qed.

Lemma set_command_spec m ch ct Sector n Buffer :
  ld 4 m (ch + 8) = ct -> ld 4 m (ch + 12) = 0 -> ch + 32 <= ct \/ ct + 144 <= ch ->
  0 <= Sector < 2 ^ 64 -> 0 <= n < 2 ^ 23 -> 0 <= Buffer < 2 ^ 64 ->
  let m' := set_command m ch Sector n Buffer in
  fetch m' ch = read_command ct (lba_of Sector) n Buffer /\
  (forall x, x < ch \/ ch + 4 <= x -> x < ct \/ ct + 144 <= x -> ld8 m' x = ld8 m x).
Proof.
  intros Hct Hup Hdis HS Hn HB. cbv zeta. unfold set_command.
  destruct (set_header_spec m ch) as (H1 & H2 & H3 & H4). set (m1 := set_header m ch) in *. cbv zeta.
  assert (E1 : forall k a, (0 < k <= 8)%nat -> ch + 4 <= a -> ld k m1 a = ld k m a)
    by (intros k a Hk Ha; apply ld_ext; intros x Hx; apply H4; lia).
  rewrite E1 by lia. rewrite Hct, H3. change (u64 (sizeof_CommandTable + u64 ((1 - 1) * sizeof_PrdtEntry))) with 128.
  pose proof (set_prdt_spec (memset m1 ct 0 128) ct Buffer n HB Hn) as (P1 & P2 & P3).
  set (m2 := set_prdt (memset m1 ct 0 128) ct Buffer n) in *.
  pose proof (set_fis_spec m2 ct Sector n HS ltac:(lia)) as (F1 & F2 & F3 & F4 & F5 & F6 & F7).
  set (m3 := set_fis m2 ct Sector n) in *.
  assert (Out : forall x, x < ct \/ ct + 144 <= x -> ld8 m3 x = ld8 m1 x)
    by (intros x Hx; rewrite F7, P3 by lia; apply ld8_memset_out; lia).
  assert (O1 : forall k a, a + Z.of_nat k <= ct \/ ct + 144 <= a -> ld k m3 a = ld k m1 a)
    by (intros k a Ha; apply ld_ext; intros x Hx; apply Out; lia).
  assert (O2 : forall k a, ct + 20 <= a -> ld k m3 a = ld k m2 a)
    by (intros k a Ha; apply ld_ext; intros x Hx; apply F7; lia).
  split.
  - unfold fetch. rewrite (O1 1%nat ch), (O1 2%nat (ch + 2)), (O1 4%nat (ch + 8)), (O1 4%nat (ch + 12)) by lia.
    rewrite (E1 4%nat (ch + 8)), (E1 4%nat (ch + 12)) by lia. rewrite Hct, Hup, Z.mul_0_r, Z.add_0_r.
    rewrite (O2 4%nat (ct + 128)), (O2 4%nat (ct + 132)), (O2 4%nat (ct + 140)) by lia.
    rewrite H1, H2, H3, F1, F2, F3, F4, F5, F6, P1, P2. done.
  - intros x Hx1 Hx2. rewrite Out by done. apply H4. lia.
Qed.

Lemma lba_of_small Sector : 0 <= Sector < 2 ^ 24 -> lba_of Sector = Sector.
Proof. intros. unfold lba_of. zdm. Qed.

Lemma lba_of_folds Sector : 0 <= Sector < 2 ^ 32 -> lba_of Sector = Sector mod 2 ^ 24.
Proof. intros. unfold lba_of. rewrite (Z.div_small Sector) by done. zdm. Qed.

(** ** The disk behind the controller

    What the AHCI and ATA specifications promise.  [drive d p e data]: at
    the port [p] of the controller is a disk with the content [data]; its
    engine is in state [e]: stopped, with the given values in the address
    registers, or running with the command list at [clb] and the received
    FIS at [fb], the disk neither busy nor in error; or in whatever state
    the firmware left it.  [quiet d]: no port has a command outstanding. *)
Inductive engine : Set :=
| Unknown
| Stopped (clb clbu fb fbu : Z)
| Running (clb fb : Z).

Fixpoint ticks {D} `{Hba D} (n : nat) (c : gmap Z Z * D) : gmap Z Z * D :=
  match n with
  | O => c
  | S n' => ticks n' (tick c)
  end.

(** Ports are 0x80 bytes apart. *)
Definition other_port (p q : Z) : Prop := p + 0x80 <= q \/ q + 0x80 <= p.
Definition port_running (c : Z) : Prop := Z.land c HBA_PxCmdFR <> 0 \/ Z.land c HBA_PxCmdCR <> 0.

(** - [drive_stop]: with the bits ST and FRE of the command register cleared,
      FR and CR go off within [latency] turns;
    - [drive_set]: the address registers of a stopped port hold what is
      written, the low bits of an aligned address being 0;
    - [drive_start]: with FRE and ST set it runs;
    - [drive_read]: READ DMA EXT of one sector, issued in slot 0 of a running
      port, completes within [latency] turns: bit 0 of CommandIssue is clear
      again, no error was shown before, and the buffer holds the sector.
      Apart from the buffer, the byte count in the command header and the
      received FIS change in memory. *)
Class AtaDisk (D : Type) `{Hba D} := {
  drive : D -> Z -> engine -> (Z -> Z -> Z) -> Prop;
  quiet : D -> Prop;
  latency : nat;
  drive_byte d p e data l o : drive d p e data -> 0 <= data l o < 256;
  drive_other d p q e data o v :
    drive d q e data -> other_port p q -> 0 <= o < 0x80 -> drive (wr (p + o) v d) q e data;
  drive_stop d p data m :
    quiet d -> drive d p Unknown data ->
    let d1 := wr (p + CommandStatus) (Z.ldiff (rd (p + CommandStatus) d) HBA_PxCmdSt) d in
    let d2 := wr (p + CommandStatus) (Z.ldiff (rd (p + CommandStatus) d1) HBA_PxCmdFRE) d1 in
    exists n d3 clb clbu fb fbu, (n < latency)%nat /\ ticks n (m, d2) = (m, d3) /\
      (forall k, (k < n)%nat -> port_running (rd (p + CommandStatus) (ticks k (m, d2)).2)) /\
      ~ port_running (rd (p + CommandStatus) d3) /\
      quiet d3 /\ drive d3 p (Stopped clb clbu fb fbu) data /\
      (forall q e data', other_port p q -> drive d q e data' -> drive d3 q e data');
  drive_stopped d p clb clbu fb fbu data :
    drive d p (Stopped clb clbu fb fbu) data ->
    rd (p + CommandListBase) d = clb /\ rd (p + CommandListBaseUpper) d = clbu /\
    ~ port_running (rd (p + CommandStatus) d);
  drive_set d p clb clbu fb fbu data v :
    quiet d -> drive d p (Stopped clb clbu fb fbu) data -> 0 <= v < 2 ^ 32 ->
    (v mod 1024 = 0 -> let d' := wr (p + CommandListBase) v d in quiet d' /\ drive d' p (Stopped v clbu fb fbu) data) /\
    (let d' := wr (p + CommandListBaseUpper) v d in quiet d' /\ drive d' p (Stopped clb v fb fbu) data) /\
    (v mod 256 = 0 -> let d' := wr (p + FIS_BaseAddress) v d in quiet d' /\ drive d' p (Stopped clb clbu v fbu) data) /\
    (let d' := wr (p + FIS_BaseAddressUpper) v d in quiet d' /\ drive d' p (Stopped clb clbu fb v) data);
  drive_start d p clb clbu fb fbu data :
    quiet d -> drive d p (Stopped clb clbu fb fbu) data ->
    let d1 := wr (p + CommandStatus) (Z.lor (rd (p + CommandStatus) d) HBA_PxCmdFRE) d in
    let d2 := wr (p + CommandStatus) (Z.lor (rd (p + CommandStatus) d1) HBA_PxCmdSt) d1 in
    quiet d2 /\ drive d2 p (Running (clb + 2 ^ 32 * clbu) (fb + 2 ^ 32 * fbu)) data;
  drive_running d p clb fb data :
    quiet d -> drive d p (Running clb fb) data ->
    rd (p + CommandListBase) d = clb mod 2 ^ 32 /\
    Z.land (rd (p + TaskFileData) d) (Z.lor ATA_DEV_Busy ATA_DEV_DRQ) = 0;
  drive_ack d p clb fb data v :
    quiet d -> drive d p (Running clb fb) data ->
    let d' := wr (p + InterruptStatus) v d in quiet d' /\ drive d' p (Running clb fb) data;
  drive_read d p clb fb data m ct lba buf :
    quiet d -> drive d p (Running clb fb) data -> fetch m clb = read_command ct lba 1 buf -> 0 <= lba < 2 ^ 48 ->
    buf + 512 <= fb \/ fb + 256 <= buf ->
    buf + 512 <= clb \/ clb + 32 <= buf ->
    exists n, (n < latency)%nat /\
      let run k := ticks k (m, wr (p + CommandIssue) 1 d) in
      (forall k, (1 <= k <= n)%nat -> rd (p + CommandIssue) (run k).2 <> 0 /\
         Z.land (rd (p + InterruptStatus) (run k).2) HBA_PxIS_TFES = 0) /\
      let '(m', d') := run (S n) in
      rd (p + CommandIssue) d' = 0 /\ quiet d' /\ drive d' p (Running clb fb) data /\
      (forall q e data', other_port p q -> drive d q e data' -> drive d' q e data') /\
      (forall o, 0 <= o < 512 -> ld8 m' (buf + o) = data lba o) /\
      (forall x, x < buf \/ buf + 512 <= x -> x < clb + 4 \/ clb + 8 <= x ->
         x < fb \/ fb + 256 <= x -> ld8 m' x = ld8 m x)
}.

Section ReadSpec.
Context {S D : Type} `{Host S} `{AtaDisk D}.

Lemma set_reg_ret a v (s : system S D) : set_reg a v s = Ret tt (mkSystem (host s) (wr a v (dev s))).
Proof. done. Qed.
Lemma get_reg_ret a (s : system S D) : get_reg a s = Ret (rd a (dev s)) s.
Proof. done. Qed.
Lemma update_ret f (s : system S D) :
  update f s = Ret tt (mkSystem (h_set_mem (f (h_mem (host s))) (host s)) (dev s)).
Proof. done. Qed.
Lemma wait_ret (s : system S D) :
  wait s = Ret tt (let c := tick (h_mem (host s), dev s) in mkSystem (h_set_mem c.1 (host s)) c.2).
Proof. unfold wait, modify. by destruct (tick _). Qed.

Lemma issue_loop_runs p n fuel h d m :
  (n < fuel)%nat ->
  let run k := ticks k (m, d) in
  (forall k, (1 <= k <= n)%nat -> rd (p + CommandIssue) (run k).2 <> 0 /\
     Z.land (rd (p + InterruptStatus) (run k).2) HBA_PxIS_TFES = 0) ->
  rd (p + CommandIssue) (run (Datatypes.S n)).2 = 0 ->
  issue_loop fuel p (mkSystem (h_set_mem m h) d) =
    Ret true (mkSystem (h_set_mem (run (Datatypes.S n)).1 h) (run (Datatypes.S n)).2).
Proof.
  revert fuel m d. induction n as [|n IH]; intros fuel m d Hf run Hbusy Hdone;
    (destruct fuel as [|fuel]; [lia|]); cbn [issue_loop];
    rewrite (bind_ret _ _ _ _ _ (wait_ret _)); cbn [host dev]; cbv zeta; rewrite h_mem_set, h_set_set;
    unfold get_reg, bind, gets; cbn [host dev].
  - change (tick (m, d)) with (run 1%nat). rewrite Hdone. done.
  - destruct (Hbusy 1%nat ltac:(lia)) as [Hci His]. change (run 1%nat) with (tick (m, d)) in *.
    apply Z.eqb_neq in Hci. apply Z.eqb_eq in His. rewrite Hci. cbn [host dev]. rewrite His. cbn [negb].
    destruct (tick (m, d)) as [m1 d1] eqn:Et. cbn [fst snd].
    assert (Er : forall k, ticks k (m1, d1) = run (Datatypes.S k)) by (intros k; unfold run; cbn [ticks]; by rewrite Et).
    rewrite IH; rewrite ?Er; [done|lia| |done].
    intros k Hk. rewrite Er. apply Hbusy. lia.
Qed.

Lemma spin_loop_free fuel p clb fb data s :
  (0 < fuel)%nat -> quiet (dev s) -> drive (dev s) p (Running clb fb) data -> spin_loop fuel p 0 s = Ret 0 s.
Proof.
  intros Hf Hq Hd. destruct fuel as [|fuel]; [lia|]. cbn [spin_loop]. unfold get_reg, bind, gets.
  destruct (drive_running _ _ _ _ _ Hq Hd) as [_ E]. by rewrite E.
Qed.

(** ** What a step of the driver on the port [p] may change

    The bytes in [W] and, of what was in use before, no others; at most [n]
    pages are used; the other ports are left alone. *)
Record effect (s : system S D) (g : h_ghost) (s' : system S D) (g' : h_ghost) (p : Z) (W : Z -> Prop) (n : Z) : Prop := {
  ef_inv : h_inv (host s') g';
  ef_quiet : quiet (dev s');
  ef_data x : h_data (host s) g x -> h_data (host s') g' x;
  ef_mem x : h_data (host s) g x -> ~ W x -> ld8 (h_mem (host s')) x = ld8 (h_mem (host s)) x;
  ef_other q e data : other_port p q -> drive (dev s) q e data -> drive (dev s') q e data;
  ef_pages : h_pages (host s) <= n + h_pages (host s');
  ef_low : h_low (host s) -> h_low (host s')
}.

Lemma effect_refl s g p W : h_inv (host s) g -> quiet (dev s) -> effect s g s g p W 0.
Proof. intros Hi Hq. split; auto; lia. Qed.

Lemma effect_trans s g s1 g1 s2 g2 p (W W1 W2 : Z -> Prop) n1 n2 :
  effect s g s1 g1 p W1 n1 -> effect s1 g1 s2 g2 p W2 n2 ->
  (forall x, h_data (host s) g x -> W1 x \/ W2 x -> W x) -> effect s g s2 g2 p W (n1 + n2).
Proof.
  intros E1 E2 HW. split.
  - apply E2.
  - apply E2.
  - intros x Hx. by apply E2, E1.
  - intros x Hx Hn. rewrite (ef_mem _ _ _ _ _ _ _ E2); [|by apply E1|naive_solver].
    apply E1; [done|naive_solver].
  - intros q e data Hq Hd. apply E2; [done|]. by apply E1.
  - pose proof (ef_pages _ _ _ _ _ _ _ E1). pose proof (ef_pages _ _ _ _ _ _ _ E2). lia.
  - intros Hl. by apply E2, E1.
Qed.

Lemma effect_weaken s g s' g' p (W W' : Z -> Prop) n n' :
  effect s g s' g' p W n -> (forall x, h_data (host s) g x -> W x -> W' x) -> n <= n' -> effect s g s' g' p W' n'.
Proof. intros [? ? ? Hm ? ? ?] HW Hn. split; try done; [|lia]. intros x Hx Hw. apply Hm; [done|]. naive_solver. Qed.

(** Writing memory that is in use. *)
Lemma effect_memory (s : system S D) g p (W : Z -> Prop) m d :
  h_inv (host s) g -> quiet d -> (forall x, W x -> h_data (host s) g x) ->
  (forall x, ~ h_data (host s) g x \/ ~ W x -> ld8 m x = ld8 (h_mem (host s)) x) ->
  (forall q e data, other_port p q -> drive (dev s) q e data -> drive d q e data) ->
  effect s g (mkSystem (h_set_mem m (host s)) d) g p W 0.
Proof.
  intros Hi Hq HW Hm Hd. split; cbn [host dev].
  - apply h_set_inv; [done|]. intros x Hx. apply Hm. by left.
  - done.
  - intros x Hx. by apply h_set_data.
  - intros x Hx Hn. rewrite h_mem_set. apply Hm. by right.
  - done.
  - rewrite h_set_pages. lia.
  - apply h_set_low.
Qed.

(** ** The memory a port works with

    The header of slot 0 at [clb], its table at [ct], the received FIS at
    [fb] and a buffer, disjoint from each other and from page tables and free
    pages. *)
Definition apart (a n b k : Z) : Prop := a + n <= b \/ b + k <= a.
Definition within (a n x : Z) : Prop := a <= x < a + n.

Record configured (s : system S D) (g : h_ghost) (p clb ct fb : Z) (data : Z -> Z -> Z) : Prop := {
  cf_drive : drive (dev s) p (Running clb fb) data;
  cf_low : 0 <= clb < 2 ^ 32;
  cf_table : ld 4 (h_mem (host s)) (clb + 8) = ct;
  cf_upper : ld 4 (h_mem (host s)) (clb + 12) = 0;
  cf_apart : apart clb 32 ct 144 /\ apart fb 256 clb 32 /\ apart fb 256 ct 144;
  cf_data x : within clb 32 x \/ within ct 144 x \/ within fb 256 x -> h_data (host s) g x
}.
Record buffer (s : system S D) (g : h_ghost) (clb ct fb buf : Z) : Prop := {
  bf_page : buf mod 4096 = 0 /\ 0 <= buf /\ buf + 4096 <= 2 ^ 48;
  bf_need : h_need (host s) buf <= h_pages (host s);
  bf_apart : apart clb 32 buf 4096 /\ apart ct 144 buf 4096 /\ apart fb 256 buf 4096;
  bf_data x : within buf 4096 x -> h_data (host s) g x
}.
Record port_ready (s : system S D) (g : h_ghost) (p clb ct fb buf : Z) (data : Z -> Z -> Z) : Prop := {
  pr_inv : h_inv (host s) g;
  pr_quiet : quiet (dev s);
  pr_conf : configured s g p clb ct fb data;
  pr_buf : buffer s g clb ct fb buf
}.

(** A port stays configured under steps that leave its header alone. *)
Lemma configured_keep s g s' g' p clb ct fb data :
  configured s g p clb ct fb data -> drive (dev s') p (Running clb fb) data ->
  (forall x, h_data (host s) g x -> h_data (host s') g' x) ->
  (forall x, within (clb + 8) 8 x -> ld8 (h_mem (host s')) x = ld8 (h_mem (host s)) x) ->
  configured s' g' p clb ct fb data.
Proof.
  intros [_ Hl Ht Hu Ha Hda] Hd Hdata Hm. unfold within in *. split; [done|done| | |done|auto].
  - rewrite <- Ht. apply ld_ext. intros x Hx. apply Hm. lia.
  - rewrite <- Hu. apply ld_ext. intros x Hx. apply Hm. lia.
Qed.

(** What [Read] writes: the structures of the port and the buffer. *)
Definition read_writes (clb ct fb buf x : Z) : Prop :=
  within clb 8 x \/ within ct 144 x \/ within fb 256 x \/ within buf 512 x.
#[local] Instance read_writes_dec clb ct fb buf x : Decision (read_writes clb ct fb buf x).
Proof. unfold read_writes, within. apply _. Defined.

(** One read of a sector. *)
Lemma Read_sector fuel (this : Port) Sector buf s g clb ct fb data :
  port_ready s g (HBA this) clb ct fb buf data -> (latency <= fuel)%nat -> 0 <= Sector < 2 ^ 64 ->
  exists s' g', Read fuel this Sector 1 buf s = Ret true s' /\ port_ready s' g' (HBA this) clb ct fb buf data /\
    (forall o, 0 <= o < 512 -> ld8 (h_mem (host s')) (buf + o) = data (lba_of Sector) o) /\
    h_need (host s') buf = 0 /\
    effect s g s' g' (HBA this) (read_writes clb ct fb buf) (h_need (host s) buf).
Proof.
  intros [Hinv Hq Hc Hb] Hfuel HS. unfold Read.
  destruct (bf_page _ _ _ _ _ _ Hb) as (Hp1 & Hp2 & Hp3).
  destruct (h_map_ret _ _ _ Hinv Hp1 Hp2 Hp3 (bf_need _ _ _ _ _ _ Hb)) as (h1 & g1 & E1 & Hinv1 & Hneed1 & Hpg1 & Hpg1' & Hlow1 & Hdata1).
  rewrite (bind_ret _ _ _ _ _ (zoom_ret host set_host _ s _ _ E1)).
  pose proof (cf_drive _ _ _ _ _ _ _ Hc) as Hdrv.
  destruct (drive_ack _ _ _ _ _ (u32 (-1)) Hq Hdrv) as (Hq1 & Hdrv1).
  set (d1 := wr (HBA this + InterruptStatus) (u32 (-1)) (dev s)) in *.
  rewrite (bind_ret _ _ _ _ _ (set_reg_ret _ _ _)). cbn [host dev set_host]. fold d1.
  rewrite (bind_ret _ _ _ _ _ (get_reg_ret _ _)). cbn [host dev].
  destruct (drive_running _ _ _ _ _ Hq1 Hdrv1) as [Eclb _]. rewrite Eclb, Z.mod_small by apply (cf_low _ _ _ _ _ _ _ Hc).
  rewrite (bind_ret _ _ _ _ _ (update_ret _ _)). cbn [host dev set_host].
  rewrite (bind_ret _ _ _ _ _ (spin_loop_free (Z.to_nat 10001) _ clb fb data (mkSystem _ d1) ltac:(lia) Hq1 Hdrv1)). change (0 =? 100) with false. cbv match.
  rewrite (bind_ret _ _ _ _ _ (set_reg_ret _ _ _)). cbn [host dev].
  set (m2 := set_command (h_mem h1) clb Sector 1 buf) in *.
  (* the command *)
  set (s1 := mkSystem h1 d1).
  assert (Ef1 : effect s g s1 g1 (HBA this) (fun _ => False) (h_need (host s) buf)).
  { split; cbn [s1 host dev]; auto; try (intros x Hx; by apply Hdata1); [intros x Hx _; by apply Hdata1|].
    intros q e dat Ho Hd. apply drive_other; [done|done|unfold InterruptStatus; lia]. }
  assert (Hc1 : configured s1 g1 (HBA this) clb ct fb data).
  { apply (configured_keep s g); [done|done|apply Ef1|]. intros x Hx. apply Ef1; [|tauto]. apply (cf_data _ _ _ _ _ _ _ Hc). unfold within in *. lia. }
  pose proof (cf_apart _ _ _ _ _ _ _ Hc) as (A1 & A4 & A5). pose proof (bf_apart _ _ _ _ _ _ Hb) as (A2 & A3 & A6). unfold apart in *.
  destruct (set_command_spec (h_mem h1) clb ct Sector 1 buf) as (Hfetch & Hframe);
    [apply (cf_table _ _ _ _ _ _ _ Hc1)|apply (cf_upper _ _ _ _ _ _ _ Hc1)|lia..|]. fold m2 in Hfetch, Hframe.
  (* the transfer *)
  assert (Hlba : 0 <= lba_of Sector < 2 ^ 48) by (unfold lba_of; zdm).
  destruct (drive_read d1 (HBA this) clb fb data m2 ct (lba_of Sector) buf Hq1 Hdrv1 Hfetch Hlba) as (n & Hn & Hbusy & Hdone); [lia|lia|].
  cbv zeta in Hbusy, Hdone.
  destruct (ticks (Datatypes.S n) _) as [m3 d3] eqn:Et. destruct Hdone as (Hci & Hq3 & Hdrv3 & Hoth3 & Hbuf & Hrest).
  rewrite (issue_loop_runs (HBA this) n fuel h1 _ m2); [|lia|done|by rewrite Et]. rewrite Et. cbn [fst snd].
  (* what the bytes are now *)
  assert (Hin : forall x, read_writes clb ct fb buf x -> h_data h1 g1 x).
  { intros x Hx. destruct (decide (within buf 512 x)) as [Hx'|Hx'].
    - apply Hdata1, (bf_data _ _ _ _ _ _ Hb). unfold within in *. lia.
    - apply (cf_data _ _ _ _ _ _ _ Hc1). unfold read_writes, within in *. lia. }
  assert (Hkeep : forall x, ~ read_writes clb ct fb buf x -> ld8 m3 x = ld8 (h_mem h1) x).
  { intros x Hx. unfold read_writes, within in Hx. rewrite Hrest by lia. apply Hframe; lia. }
  assert (Ef2 : effect s1 g1 (mkSystem (h_set_mem m3 h1) d3) g1 (HBA this) (read_writes clb ct fb buf) 0).
  { apply (effect_memory s1); [done|done|done| |].
    - intros x [Hx|Hx]; [|by apply Hkeep]. apply Hkeep. intros Hx'. by apply Hx, Hin.
    - intros q e dat Ho Hd. by apply Hoth3. }
  assert (Hset : h_need (h_set_mem m3 h1) buf = 0).
  { rewrite (h_set_need _ _ g1); [done|done|]. intros x Hx. apply Hkeep. intros Hx'. by apply Hx, Hin. }
  exists (mkSystem (h_set_mem m3 h1) d3), g1. cbn [host dev]. split_and!; [done| | |done|].
  - split; [apply Ef2|done| |].
    + apply (configured_keep s1 g1); [done|done|apply Ef2|]. intros x Hx. cbn [host s1]. rewrite h_mem_set. apply Hkeep. unfold read_writes, within in *. lia.
    + split; cbn [host]; [done|rewrite Hset, h_set_pages; lia|done|]. intros x Hx. apply h_set_data, Hdata1, (bf_data _ _ _ _ _ _ Hb). exact Hx.
  - intros o Ho. rewrite h_mem_set. by apply Hbuf.
  - rewrite <- (Z.add_0_r (h_need _ _)). eapply effect_trans; [exact Ef1|exact Ef2|]. intros x _ [[]|Hx]. exact Hx.
Qed.
(** Clearing the buffer keeps the port ready. *)
Lemma clear_ready (s : system S D) g p clb ct fb buf data :
  port_ready s g p clb ct fb buf data ->
  let s' := mkSystem (h_set_mem (memset (h_mem (host s)) buf 0 512) (host s)) (dev s) in
  port_ready s' g p clb ct fb buf data /\ effect s g s' g p (within buf 512) 0 /\
  h_need (host s') buf = h_need (host s) buf.
Proof.
  intros [Hinv Hq Hc Hb]. cbv zeta.
  assert (Hw : forall x, within buf 512 x -> h_data (host s) g x) by (intros x Hx; apply (bf_data _ _ _ _ _ _ Hb); unfold within in *; lia).
  assert (Hk : forall x, ~ h_data (host s) g x \/ ~ within buf 512 x -> ld8 (memset (h_mem (host s)) buf 0 512) x = ld8 (h_mem (host s)) x).
  { intros x Hx. apply ld8_memset_out; [lia|]. destruct (decide (buf <= x < buf + 512)) as [Hi|]; [|lia].
    destruct Hx as [Hx|Hx]; exfalso; apply Hx; [by apply Hw|done]. }
  assert (Ef : effect s g (mkSystem (h_set_mem (memset (h_mem (host s)) buf 0 512) (host s)) (dev s)) g p (within buf 512) 0)
    by (apply effect_memory; done).
  assert (Hn : h_need (h_set_mem (memset (h_mem (host s)) buf 0 512) (host s)) buf = h_need (host s) buf) by (apply (h_set_need _ _ g); auto).
  destruct (bf_apart _ _ _ _ _ _ Hb) as (A1 & A2 & A3). unfold apart in *.
  split; [|split; [exact Ef|exact Hn]]. split; [apply Ef|exact Hq| |].
  - apply (configured_keep s g); [done|apply Hc|apply Ef|]. intros x Hx. cbn [host]. rewrite h_mem_set. apply Hk. right. unfold within in *. lia.
  - split; [apply Hb| |apply Hb|]; cbn [host].
    + rewrite h_set_pages, Hn. apply Hb.
    + intros x Hx. apply h_set_data. by apply (bf_data _ _ _ _ _ _ Hb).
Qed.
End ReadSpec.

(** ** Two guards that do not guard *)

(** A disk that is busy for ever: the wait ends after 10000 turns, so the
    test [Spin == 100] that follows it does not see the failure. *)
Lemma spin_loop_busy {S D : Type} `{Host S} `{Hba D} p (s : system S D) :
  (forall d : D, Z.land (rd (p + TaskFileData) d) (Z.lor ATA_DEV_Busy ATA_DEV_DRQ) <> 0) ->
  exists s', spin_loop (Z.to_nat 10001) p 0 s = Ret 10000 s'.
Proof.
  intros Hbusy. change 0 with (10000 - Z.of_nat (Z.to_nat 10000)) at 1.
  change (Z.to_nat 10001) with (Datatypes.S (Z.to_nat 10000)).
  assert (Hn : Z.of_nat (Z.to_nat 10000) <= 10000) by lia. revert Hn s.
  generalize (Z.to_nat 10000) as n. induction n as [|n IH]; intros Hn s; cbn [spin_loop];
    rewrite (bind_ret _ _ _ _ _ (get_reg_ret _ _)); pose proof (Hbusy (dev s)) as Hb; apply Z.eqb_neq in Hb; rewrite Hb; cbn [negb andb].
  - destruct (Z.ltb_spec (10000 - Z.of_nat 0) 10000); [lia|]. eexists. reflexivity.
  - destruct (Z.ltb_spec (10000 - Z.of_nat (Datatypes.S n)) 10000); [|lia].
    rewrite (bind_ret _ _ _ _ _ (wait_ret _)).
    replace (10000 - Z.of_nat (Datatypes.S n) + 1) with (10000 - Z.of_nat n) by lia. apply IH. lia.
Qed.

(** [GetPortType] takes a port for active whenever any bit above the eighth
    of its status is set, whatever its power management state. *)
Lemma GetPortType_any_state {S D : Type} `{Host S} `{Hba D} p (s : system S D) ipm :
  1 <= ipm < 16 -> rd (p + SATA_Status) (dev s) = ipm * 2 ^ 8 + 3 -> rd (p + Signature) (dev s) = SATA_SIG_ATA ->
  GetPortType p s = Ret SATA s.
Proof.
  intros Hi Hs Hg. unfold GetPortType. rewrite (bind_ret _ _ _ _ _ (get_reg_ret _ _)). rewrite Hs.
  rewrite Z.shiftr_div_pow2 by lia. replace ((ipm * 2 ^ 8 + 3) / 2 ^ 8) with ipm by zdm.
  change 7 with (Z.ones 3). rewrite Z.land_ones by lia. replace ((ipm * 2 ^ 8 + 3) mod 2 ^ 3) with 3 by zdm.
  destruct (Z.eqb_spec ipm 0); [lia|]. cbn [negb Z.eqb Pos.eqb orb HBA_PortDevicePresent HBA_PortIPM_Active].
  rewrite (bind_ret _ _ _ _ _ (get_reg_ret _ _)). rewrite Hg.
  change (SATA_SIG_ATA =? SATA_SIG_Atapi) with false. cbv match.
  rewrite (bind_ret _ _ _ _ _ (get_reg_ret _ _)). by rewrite Hg.
Qed.

(** ** A kernel without page tables and a simple disk

    They show that the interfaces can be met. *)
Record flat := mkFlat { f_mem : gmap Z Z; f_next : Z }.

#[export, program] Instance flat_host : Host flat := {|
  h_mem := f_mem;
  h_set_mem m s := mkFlat m (f_next s);
  h_map _ := ret tt;
  h_alloc s := Ret (f_next s) (mkFlat (memset (f_mem s) (f_next s) 0 4096) (f_next s + 4096));
  h_ghost := unit;
  h_inv s _ := f_next s mod 4096 = 0 /\ 0 < f_next s <= 2 ^ 32;
  h_data s _ x := x < f_next s;
  h_need _ _ := 0;
  h_pages s := (2 ^ 32 - f_next s) / 4096;
  h_low _ := True
|}.
Next Obligation. done. Qed.
Next Obligation. done. Qed.
Next Obligation. done. Qed.
Next Obligation. done. Qed.
Next Obligation. done. Qed.
Next Obligation. done. Qed.
Next Obligation. done. Qed.
Next Obligation. cbv beta. intros. lia. Qed.
Next Obligation.
  cbv beta. intros s g p (Ha & Hr) _ _ _ Hn. exists s, tt. split; [done|]. split; [done|]. split; [done|].
  split; [lia|]. split; [exact Hn|]. done.
Qed.
Next Obligation.
  cbv beta. intros s g (Ha & Hr) Hp. exists (f_next s). eexists. split; [reflexivity|]. cbn [f_mem f_next].
  assert (Hlt : f_next s + 4096 <= 2 ^ 32) by zdm. split_and!; try done; try lia; try zdm.
Qed.

(** [blocks] are the sectors; a command takes three turns.  The engine
    follows the bits ST and FRE at once. *)
Record ssd := mkSsd {
  blocks : Z -> Z -> Z; s_port : Z; s_st : bool; s_fre : bool;
  s_clb : Z; s_clbu : Z; s_fb : Z; s_fbu : Z; s_ci : Z; s_left : nat
}.

Fixpoint put (n : nat) (m : gmap Z Z) (a : Z) (f : Z -> Z) : gmap Z Z :=
  match n with
  | O => m
  | S n' => st8 (put n' m a f) (a + Z.of_nat n') (f (Z.of_nat n'))
  end.

Definition ssd_run (m : gmap Z Z) (d : ssd) : gmap Z Z :=
  let c := fetch m (s_clb d + 2 ^ 32 * s_clbu d) in
  if (c_opcode c =? ATA_CommandReadDMA_EX) && (c_fis_type c =? REG_H2D) && c_is_command c && negb (c_write c)
     && (c_count c =? 1) && (c_bytes c =? 512)
  then put (Z.to_nat 512) m (c_buffer c) (blocks d (c_lba c)) else m.

Definition ssd_rd (o : Z) (d : ssd) : Z :=
  if o =? CommandListBase then s_clb d
  else if o =? CommandListBaseUpper then s_clbu d
  else if o =? CommandStatus then
    (if s_st d then HBA_PxCmdSt + HBA_PxCmdCR else 0) + (if s_fre d then HBA_PxCmdFRE + HBA_PxCmdFR else 0)
  else if o =? Signature then SATA_SIG_ATA
  else if o =? SATA_Status then 0x123
  else if o =? CommandIssue then s_ci d
  else if o =? PortsImplemented - Ports 0 then 1
  else 0.
Definition ssd_wr (o v : Z) (d : ssd) : ssd :=
  let '(mkSsd B p t r c cu f fu i k) := d in
  if o =? CommandListBase then mkSsd B p t r v cu f fu i k
  else if o =? CommandListBaseUpper then mkSsd B p t r c v f fu i k
  else if o =? FIS_BaseAddress then mkSsd B p t r c cu v fu i k
  else if o =? FIS_BaseAddressUpper then mkSsd B p t r c cu f v i k
  else if o =? CommandStatus then mkSsd B p (Z.testbit v 0) (Z.testbit v 4) c cu f fu i k
  else if o =? CommandIssue then mkSsd B p t r c cu f fu (Z.lor i v) 2
  else d.

#[export] Instance ssd_hba : Hba ssd := {|
  rd a d := ssd_rd (a - s_port d) d;
  wr a v d := ssd_wr (a - s_port d) v d;
  tick c :=
    let '(m, mkSsd B p t r cl cu f fu i k) := c in
    if i =? 0 then c
    else match k with
         | S k => (m, mkSsd B p t r cl cu f fu i k)
         | O => (ssd_run m (mkSsd B p t r cl cu f fu i 0), mkSsd B p t r cl cu f fu 0 0)
         end
|}.

Lemma ld8_put n m a f x :
  ld8 (put n m a f) x = if (a <=? x) && (x <? a + Z.of_nat n) then u8 (f (x - a)) else ld8 m x.
Proof.
  induction n as [|n IH]; cbn [put].
  { destruct (Z.leb_spec a x), (Z.ltb_spec x (a + Z.of_nat 0)); try done. lia. }
  destruct (decide (x = a + Z.of_nat n)) as [->|Hne].
  - rewrite ld8_st8_eq. destruct (Z.leb_spec a (a + Z.of_nat n)), (Z.ltb_spec (a + Z.of_nat n) (a + Z.of_nat (S n))); try lia.
    cbn [andb]. f_equal. f_equal. lia.
  - rewrite ld8_st8_ne by congruence. rewrite IH.
    destruct (Z.leb_spec a x), (Z.ltb_spec x (a + Z.of_nat n)), (Z.ltb_spec x (a + Z.of_nat (S n))); try done; lia.
Qed.

Definition ssd_drive (d : ssd) (p : Z) (e : engine) (data : Z -> Z -> Z) : Prop :=
  s_port d = p /\ data = (fun l o => u8 (blocks d l o)) /\
  match e with
  | Unknown => True
  | Stopped clb clbu fb fbu => s_clb d = clb /\ s_clbu d = clbu /\ s_fb d = fb /\ s_fbu d = fbu /\ s_st d = false /\ s_fre d = false /\
      0 <= clb < 2 ^ 32
  | Running clb fb => clb = s_clb d + 2 ^ 32 * s_clbu d /\ fb = s_fb d + 2 ^ 32 * s_fbu d /\ 0 <= s_clb d < 2 ^ 32
  end.

(** An access to a register of the port itself. *)
Lemma ssd_rd_port d p o : s_port d = p -> rd (p + o) d = ssd_rd o d.
Proof. intros <-. cbn [rd ssd_hba]. f_equal. lia. Qed.
Lemma ssd_wr_port d p o v : s_port d = p -> wr (p + o) v d = ssd_wr o v d.
Proof. intros <-. cbn [wr ssd_hba]. f_equal. lia. Qed.

#[export, program] Instance ssd_disk : AtaDisk ssd := {|
  drive := ssd_drive;
  quiet d := s_ci d = 0 /\ 0 <= s_clb d < 2 ^ 32;
  latency := 3
|}.
Next Obligation. intros d p e data l o (_ & -> & _). apply (u8_range _). Qed.
Next Obligation.
  intros d p q e data o v Hd Ho Hr. pose proof Hd as (Hp & _). unfold other_port in Ho. cbn [wr ssd_hba].
  destruct d as [B p' t r c cu f fu i k]. cbn [s_port] in *. unfold ssd_wr, CommandListBase, CommandListBaseUpper, FIS_BaseAddress, FIS_BaseAddressUpper, CommandStatus, CommandIssue.
  repeat zcase; try lia. done.
Qed.
Next Obligation.
  intros d p data m (Hci & Hclb) (Hp & Hdat & _). cbv zeta. rewrite !(ssd_rd_port d p) by done. rewrite !(ssd_wr_port d p) by done.
  destruct d as [B p' t r c cu f fu i k]. cbn [s_port s_ci s_clb blocks] in *. subst p'.
  exists 0%nat, (mkSsd B p false false c cu f fu i k), c, cu, f, fu. split; [lia|].
  assert (E : wr (p + CommandStatus) (Z.ldiff (rd (p + CommandStatus) (ssd_wr CommandStatus (Z.ldiff (ssd_rd CommandStatus (mkSsd B p t r c cu f fu i k)) HBA_PxCmdSt) (mkSsd B p t r c cu f fu i k))) HBA_PxCmdFRE) (ssd_wr CommandStatus (Z.ldiff (ssd_rd CommandStatus (mkSsd B p t r c cu f fu i k)) HBA_PxCmdSt) (mkSsd B p t r c cu f fu i k)) = mkSsd B p false false c cu f fu i k).
  { rewrite !(ssd_rd_port _ p), !(ssd_wr_port _ p) by done. by destruct t, r. }
  rewrite E. split; [done|]. split; [lia|]. rewrite (ssd_rd_port _ p) by done.
  split; [intros [Hr|Hr]; by apply Hr|]. split; [done|]. split; [done|].
  intros q e data' Ho (Hq & _). unfold other_port in Ho. cbn [s_port] in Hq. lia.
Qed.
Next Obligation.
  intros d p clb clbu fb fbu data (Hp & _ & <- & <- & _ & _ & Ht & Hr & _). rewrite !(ssd_rd_port d p) by done.
  destruct d as [B p' t r c cu f fu i k]. cbn [s_st s_fre] in *. subst t r. split; [done|]. split; [done|]. intros [Hx|Hx]; by apply Hx.
Qed.
Next Obligation.
  intros d p clb clbu fb fbu data v (Hci & Hclb) (Hp & Hdat & <- & <- & <- & <- & Ht & Hr & _) Hv. cbv zeta. rewrite !(ssd_wr_port d p) by done.
  destruct d as [B p' t r c cu f fu i k]. done.
Qed.
Next Obligation.
  intros d p clb clbu fb fbu data (Hci & Hclb) (Hp & Hdat & <- & <- & <- & <- & Ht & Hr & _). cbv zeta. rewrite !(ssd_rd_port d p), !(ssd_wr_port d p) by done.
  destruct d as [B p' t r c cu f fu i k]. cbn [s_port s_st s_fre] in *. subst. by rewrite (ssd_rd_port _ p), (ssd_wr_port _ p) by done.
Qed.
Next Obligation.
  intros d p clb fb data (Hci & Hclb) (Hp & _ & -> & _ & _). rewrite !(ssd_rd_port d p) by done. cbn [ssd_rd]. split; [|reflexivity].
  change (ssd_rd CommandListBase d) with (s_clb d). rewrite (Z.mul_comm (2 ^ 32)), Z.mod_add, Z.mod_small by lia. done.
Qed.
Next Obligation.
  intros d p clb fb data v Hq Hd. cbv zeta. pose proof Hd as (Hp & _). rewrite (ssd_wr_port d p) by done. by destruct d.
Qed.
Next Obligation.
  intros d p clb fb data m ct lba buf (Hci & _) (Hp & -> & -> & -> & Hlow) Hf Hlba Hb1 Hb2. exists 2%nat. split; [lia|]. cbv zeta. rewrite (ssd_wr_port d p) by done.
  destruct d as [B p' t r c cu f fu i k]. cbn [s_port s_clb s_clbu s_fb s_fbu s_ci blocks] in *. subst p' i.
  change (ssd_wr CommandIssue 1 (mkSsd B p t r c cu f fu 0 k)) with (mkSsd B p t r c cu f fu 1 2). split.
  - intros j Hj. assert (j = 1%nat \/ j = 2%nat) as [-> | ->] by lia; cbn [ticks tick ssd_hba Z.eqb snd]; by rewrite !(ssd_rd_port _ p) by done.
  - cbn [ticks tick ssd_hba Z.eqb]. rewrite (ssd_rd_port _ p) by done.
    assert (Er : ssd_run m (mkSsd B p t r c cu f fu 1 0) = put (Z.to_nat 512) m buf (B lba))
      by (unfold ssd_run; cbn [s_clb s_clbu blocks]; rewrite Hf; reflexivity).
    rewrite Er. split_and!; try done; try (cbn [s_clb]; lia).
    + intros o Ho. rewrite ld8_put. destruct (Z.leb_spec buf (buf + o)), (Z.ltb_spec (buf + o) (buf + Z.of_nat (Z.to_nat 512))); try lia.
      cbn [andb]. do 2 f_equal. lia.
    + intros x Hx _ _. rewrite ld8_put.
      destruct (Z.leb_spec buf x), (Z.ltb_spec x (buf + Z.of_nat (Z.to_nat 512))); try lia; done.
Qed.

(** ** Properties *)

(** C38: On a configured port whose disk keeps to the AHCI and ATA
    specifications, [Read] of one sector returns true once the disk's
    latency has passed, with the 512 bytes of a sector in the buffer and
    every other byte of the kernel as before, the command structures aside;
    the port can be used again.  The sector is the requested one for numbers
    below 2^24; a number below 2^32 is taken modulo 2^24. *)
Theorem Read_reads {S D : Type} `{Host S} `{AtaDisk D} fuel (this : Port) Sector buf (s : system S D) g clb ct fb data :
  port_ready s g (HBA this) clb ct fb buf data -> (latency <= fuel)%nat -> 0 <= Sector < 2 ^ 32 ->
  exists s' g', Read fuel this Sector 1 buf s = Ret true s' /\ port_ready s' g' (HBA this) clb ct fb buf data /\
    (forall o, 0 <= o < 512 -> ld8 (h_mem (host s')) (buf + o) = data (Sector mod 2 ^ 24) o) /\
    (Sector < 2 ^ 24 -> Sector mod 2 ^ 24 = Sector) /\
    (forall x, h_data (host s) g x -> ~ read_writes clb ct fb buf x -> ld8 (h_mem (host s')) x = ld8 (h_mem (host s)) x) /\
    (forall q e data', other_port (HBA this) q -> drive (dev s) q e data' -> drive (dev s') q e data').
Proof.
  intros Hs Hf HS. destruct (Read_sector fuel this Sector buf s g clb ct fb data Hs Hf ltac:(lia))
    as (s' & g' & E & Hs' & Hbuf & _ & Ef).
  exists s', g'. rewrite lba_of_folds in Hbuf by done. split_and!; try done; [intros; apply Z.mod_small; lia|apply Ef|apply Ef].
Qed.

(** A port at 0xFEBF1100 with its command list at 0x10000, the table of slot
    0 at 0x12000, the received FIS at 0x11000, the buffer at 0x20000; every
    byte of sector n is n mod 256. *)
Definition a_port : Port := mkPort 0xFEBF1100 SATA 0.
Definition a_system : system flat ssd :=
  mkSystem (mkFlat (st 4 ∅ 0x10008 0x12000) 0x30000) (mkSsd (fun n _ => n) 0xFEBF1100 true true 0x10000 0 0x11000 0 0 0).

Lemma a_system_ready : port_ready a_system tt (HBA a_port) 0x10000 0x12000 0x11000 0x20000 (fun l o => u8 l).
Proof.
  split; [split; [reflexivity|cbn; lia]|split; [reflexivity|cbn; lia]| |].
  - split; [split_and!; try done; cbn; lia|lia|reflexivity|reflexivity|unfold apart; lia|]. unfold within. cbn. lia.
  - split; [split; [reflexivity|lia]|vm_compute; discriminate|unfold apart; lia|]. unfold within. cbn. lia.
Qed.

Lemma Read_reads_witness :
  exists s' g', Read 3 a_port 0x2000007 1 0x20000 a_system = Ret true s' /\
    ld8 (h_mem (host s')) 0x20100 = 7 /\ port_ready s' g' (HBA a_port) 0x10000 0x12000 0x11000 0x20000 (fun l o => u8 l).
Proof.
  destruct (@Read_reads _ _ flat_host ssd_hba ssd_disk 3 a_port 0x2000007 0x20000 a_system tt 0x10000 0x12000 0x11000 (fun l o => u8 l)) as (s' & g' & E & Hs' & Hb & _);
    [apply a_system_ready|exact (le_n 3)|lia|].
  exists s', g'. split; [exact E|]. split; [|exact Hs']. refine (eq_trans (Hb 0x100 _) _); [lia|reflexivity].
Defined.

End Ahci.
