(* ===== verification/AhciInit.v ===== *)
(** Bringing up the disks (kernel/Ahci/Ahci.cpp: [Port::Configure],
    [AhciDriver::ProbePorts] and the constructor of [AhciDriver]): after the
    constructor every port with a disk is configured, and [Root] is the one
    whose first sector is marked. *)

From stdpp Require Import base tactics list gmap numbers option strings.
From Stdlib Require Import ZArith Lia.
From S2P Require Import Prelude Mem Ahci.

#[local] Open Scope Z_scope.

Module AhciInit.
Import Prelude Mem Ahci.
#[local] Open Scope lofi_scope.
#[local] Opaque memset.

Section Steps.
Context {S D : Type} `{Host S} `{AtaDisk D}.

Definition none : Z -> Prop := fun _ => False.
Lemma not_none x : ~ none x.
Proof. by intros []. Qed.

(** A page that was free in [s] and is in use in [s']. *)
Record new_page (s s' : system S D) (g : h_ghost) (a : Z) : Prop := {
  np_page : a mod 4096 = 0 /\ 0 < a /\ a + 4096 <= 2 ^ 52;
  np_low : h_low (host s) -> a + 4096 <= 2 ^ 32;
  np_fresh x : h_data (host s) g x -> x < a \/ a + 4096 <= x;
  np_data x : within a 4096 x -> h_data (host s') g x
}.

Lemma alloc_step s g p :
  h_inv (host s) g -> quiet (dev s) -> 0 < h_pages (host s) ->
  exists a s', on_host h_alloc s = Ret a s' /\ dev s' = dev s /\ effect s g s' g p none 1 /\ new_page s s' g a /\
    (forall q, h_need (host s') q = h_need (host s) q) /\ (forall x, within a 4096 x -> ld8 (h_mem (host s')) x = 0) /\
    h_pages (host s') = h_pages (host s) - 1.
Proof.
  intros Hi Hq Hp. destruct (h_alloc_ret _ _ Hi Hp) as (a & h' & E & Hi' & Ha & Ha0 & Ha1 & Hl & Hpg & Hn & Hm & Hd & Hin).
  exists a, (mkSystem h' (dev s)). split; [exact (zoom_ret host set_host _ s _ _ E)|]. split; [reflexivity|]. split.
  { split; cbn [host dev].
    - exact Hi'.
    - exact Hq.
    - intros x Hx. by apply Hd.
    - intros x Hx _. rewrite Hm. apply ld8_memset_out; [lia|]. by apply Hd.
    - intros q e data _ Hx. exact Hx.
    - lia.
    - intros Hl'. by apply Hl. }
  split. { split; cbn [host]; [split; [|split]; assumption|intros Hl'; by apply Hl|intros x Hx; by apply Hd|intros x Hx; apply Hin; exact Hx]. }
  split; [exact Hn|]. split; [|exact Hpg].
  intros x Hx. cbn [host]. rewrite Hm. rewrite ld8_memset_in by exact Hx. reflexivity.
Qed.

Lemma new_page_apart s s' g a b n :
  new_page s s' g a -> 0 < n -> (forall x, within b n x -> h_data (host s) g x) -> apart a 4096 b n.
Proof.
  intros Hn Hp Hb. unfold apart. destruct (decide (a + 4096 <= b \/ b + n <= a)) as [|Hc]; [done|].
  pose proof (np_fresh _ _ _ _ Hn (Z.max a b)) as Hx. unfold within in Hb. specialize (Hx (Hb (Z.max a b) ltac:(lia))). lia.
Qed.

(** Different pages below 4 GiB, not in use in [s], in use in [s']. *)
Record fresh_pages (s : system S D) (g : h_ghost) (s' : system S D) (g' : h_ghost) (l : list Z) : Prop := {
  fp_nodup : NoDup l;
  fp_page a : a ∈ l -> a mod 4096 = 0 /\ 0 < a /\ a + 4096 <= 2 ^ 32;
  fp_old a x : a ∈ l -> within a 4096 x -> ~ h_data (host s) g x;
  fp_new a x : a ∈ l -> within a 4096 x -> h_data (host s') g' x
}.
Lemma fresh_none s g : fresh_pages s g s g [].
Proof. split; [constructor|..]; intros a; by intros ?%elem_of_nil || (intros ? ?%elem_of_nil). Qed.
Lemma fresh_page s s' g a : new_page s s' g a -> h_low (host s) -> fresh_pages s g s' g [a].
Proof.
  intros Hn Hl. split; [apply NoDup_singleton|..].
  - intros b ->%list_elem_of_singleton. pose proof (np_page _ _ _ _ Hn). pose proof (np_low _ _ _ _ Hn Hl). lia.
  - intros b x ->%list_elem_of_singleton Hx Hd. pose proof (np_fresh _ _ _ _ Hn x Hd). unfold within in Hx. lia.
  - intros b x ->%list_elem_of_singleton Hx. by apply Hn.
Qed.
Lemma fresh_app s g s1 g1 s2 g2 l1 l2 : fresh_pages s g s1 g1 l1 -> fresh_pages s1 g1 s2 g2 l2 ->
  (forall x, h_data (host s) g x -> h_data (host s1) g1 x) -> (forall x, h_data (host s1) g1 x -> h_data (host s2) g2 x) ->
  fresh_pages s g s2 g2 (l1 ++ l2).
Proof.
  intros F1 F2 M1 M2. split.
  - apply NoDup_app. split; [apply F1|]. split; [|apply F2]. intros a Ha1 Ha2.
    apply (fp_old _ _ _ _ _ F2 a a Ha2); [unfold within; lia|]. apply (fp_new _ _ _ _ _ F1 a a Ha1). unfold within. lia.
  - intros a [Ha|Ha]%elem_of_app; [by apply F1|by apply F2].
  - intros a x [Ha|Ha]%elem_of_app Hx Hd; [by apply (fp_old _ _ _ _ _ F1 a x)|by apply (fp_old _ _ _ _ _ F2 a x Ha Hx), M1].
  - intros a x [Ha|Ha]%elem_of_app Hx; [by apply M2, (fp_new _ _ _ _ _ F1 a)|by apply (fp_new _ _ _ _ _ F2 a)].
Qed.
Lemma fresh_keep s g s1 g1 s2 g2 l : fresh_pages s g s1 g1 l -> (forall x, h_data (host s1) g1 x -> h_data (host s2) g2 x) -> fresh_pages s g s2 g2 l.
Proof. intros F1 M. split; [apply F1|apply F1|apply F1|]. intros a x Ha Hx. by apply M, (fp_new _ _ _ _ _ F1 a). Qed.

Lemma update_step (f : gmap Z Z -> gmap Z Z) s g p (W : Z -> Prop) `{!forall x, Decision (W x)} :
  h_inv (host s) g -> quiet (dev s) -> (forall x, W x -> h_data (host s) g x) ->
  (forall x, ~ W x -> ld8 (f (h_mem (host s))) x = ld8 (h_mem (host s)) x) ->
  exists s', update f s = Ret tt s' /\ dev s' = dev s /\ h_mem (host s') = f (h_mem (host s)) /\
    effect s g s' g p W 0 /\ (forall q, h_need (host s') q = h_need (host s) q) /\ h_pages (host s') = h_pages (host s).
Proof.
  intros Hi Hq HW Hf.
  assert (Hk : forall x, ~ h_data (host s) g x -> ld8 (f (h_mem (host s))) x = ld8 (h_mem (host s)) x) by (intros x Hx; apply Hf; intros Hw; by apply Hx, HW).
  eexists. split; [exact (update_ret _ _)|]. cbn [host dev]. split; [done|]. split; [apply h_mem_set|].
  split; [|split; [intros q; by apply (h_set_need _ _ g)|apply h_set_pages]].
  apply effect_memory; [done|done|done| |done]. intros x [Hx|Hx]; auto.
Qed.

Lemma reg_step p o v s g :
  h_inv (host s) g -> 0 <= o < 0x80 -> quiet (wr (p + o) v (dev s)) ->
  effect s g (mkSystem (host s) (wr (p + o) v (dev s))) g p none 0.
Proof.
  intros Hi Ho Hq. split; cbn [host dev]; try done; try lia. intros q e data Hoth Hd. by apply drive_other.
Qed.

(** One step after another. *)
Lemma effect_seq s g s1 g1 s2 g2 p (W W2 : Z -> Prop) n1 n2 :
  effect s g s1 g1 p W n1 -> effect s1 g1 s2 g2 p W2 n2 -> (forall x, h_data (host s) g x -> W2 x -> W x) ->
  effect s g s2 g2 p W (n1 + n2).
Proof. intros F1 F2 HW. eapply effect_trans; [exact F1|exact F2|]. intros x Hx [Hw|Hw]; auto. Qed.

(** ** Stopping and starting the engine *)

Definition stop_test (c : Z) : bool := negb (Z.land c HBA_PxCmdFR =? 0) || negb (Z.land c HBA_PxCmdCR =? 0).
Lemma stop_test_running c : stop_test c = true <-> port_running c.
Proof. unfold stop_test, port_running. rewrite orb_true_iff, !negb_true_iff, !Z.eqb_neq. done. Qed.
Lemma stop_test_stopped c : ~ port_running c -> stop_test c = false.
Proof. rewrite <- stop_test_running. by destruct (stop_test c). Qed.

Lemma stop_loop_runs p n fuel s :
  (n < fuel)%nat ->
  let run k := ticks k (h_mem (host s), dev s) in
  (forall k, (k < n)%nat -> port_running (rd (p + CommandStatus) (run k).2)) ->
  ~ port_running (rd (p + CommandStatus) (run n).2) ->
  exists s', stop_loop fuel p s = Ret tt s' /\ dev s' = (run n).2 /\
    (host s' = host s /\ h_mem (host s) = (run n).1 \/ host s' = h_set_mem (run n).1 (host s)).
Proof.
  revert fuel s. induction n as [|n IH]; intros fuel s Hf run Hb Hd; (destruct fuel as [|fuel]; [lia|]);
    cbn [stop_loop]; do 2 (rewrite (bind_ret _ _ _ _ _ (get_reg_ret _ _))); fold (stop_test (rd (p + CommandStatus) (dev s))).
  - rewrite stop_test_stopped by exact Hd. exists s. auto.
  - assert (Hb0 : port_running (rd (p + CommandStatus) (dev s))) by exact (Hb 0%nat ltac:(lia)).
    rewrite (proj2 (stop_test_running _) Hb0). rewrite (bind_ret _ _ _ _ _ (wait_ret _)). cbv zeta.
    destruct (tick (h_mem (host s), dev s)) as [m1 d1] eqn:Et. cbn [fst snd].
    set (s1 := mkSystem (h_set_mem m1 (host s)) d1).
    assert (Er : forall k, ticks k (h_mem (host s1), dev s1) = run (Datatypes.S k)).
    { intros k. unfold run. cbn [ticks s1 host dev]. by rewrite Et, h_mem_set. }
    destruct (IH fuel s1) as (s' & E & Ed & Eh); [lia|intros k Hk; rewrite Er; apply Hb; lia|by rewrite Er|].
    exists s'. rewrite Er in Ed, Eh. split; [done|]. split; [done|]. right. destruct Eh as [[Eh Em]|Eh]; rewrite Eh.
    + rewrite <- Em. cbn [s1 host]. by rewrite h_mem_set.
    + cbn [s1 host]. apply h_set_set.
Qed.

Lemma StopCommand_stops fuel (this : Port) s g data :
  h_inv (host s) g -> quiet (dev s) -> drive (dev s) (HBA this) Unknown data -> (latency <= fuel)%nat ->
  (0 < fuel)%nat /\ exists s' clb clbu fb fbu, StopCommand fuel this s = Ret tt s' /\
    drive (dev s') (HBA this) (Stopped clb clbu fb fbu) data /\ effect s g s' g (HBA this) none 0 /\
    (forall q, h_need (host s') q = h_need (host s) q) /\ h_pages (host s') = h_pages (host s).
Proof.
  intros Hi Hq Hd Hf. unfold StopCommand.
  destruct (drive_stop _ _ _ (h_mem (host s)) Hq Hd) as (n & d3 & clb & clbu & fb & fbu & Hn & Et & Hb & Hstop & Hq3 & Hd3 & Hoth).
  cbv zeta in Et, Hb.
  rewrite (bind_ret _ _ _ _ _ (get_reg_ret _ _)), (bind_ret _ _ _ _ _ (set_reg_ret _ _ _)),
    (bind_ret _ _ _ _ _ (get_reg_ret _ _)), (bind_ret _ _ _ _ _ (set_reg_ret _ _ _)). cbn [host dev].
  match goal with |- context [stop_loop _ _ ?x] => set (s2 := x) end.
  destruct (stop_loop_runs (HBA this) n fuel s2) as (s' & E & Ed & Eh); [lia|done|cbn [s2 host dev]; by rewrite Et|].
  cbn [s2 host dev] in Ed, Eh. rewrite Et in Ed, Eh. cbn [fst snd] in Ed, Eh.
  split; [lia|]. exists s', clb, clbu, fb, fbu. split; [exact E|]. rewrite Ed. split; [done|].
  destruct s' as [h' d']. cbn [host dev] in *. subst d'.
  assert (Ef : effect s g (mkSystem (h_set_mem (h_mem (host s)) (host s)) d3) g (HBA this) none 0)
    by (apply effect_memory; [done|done|unfold none; tauto|done|done]).
  destruct Eh as [[-> _]| ->]; [|split; [exact Ef|split; [intros q; by apply (h_set_need _ _ g)|apply h_set_pages]]].
  split; [|done]. split; cbn [host dev]; try done; lia.
Qed.

Lemma StartCommand_starts fuel (this : Port) s g data clb clbu fb fbu :
  h_inv (host s) g -> quiet (dev s) -> drive (dev s) (HBA this) (Stopped clb clbu fb fbu) data -> (0 < fuel)%nat ->
  exists s', StartCommand fuel this s = Ret tt s' /\ host s' = host s /\
    drive (dev s') (HBA this) (Running (clb + 2 ^ 32 * clbu) (fb + 2 ^ 32 * fbu)) data /\ effect s g s' g (HBA this) none 0.
Proof.
  intros Hi Hq Hd Hf. unfold StartCommand. destruct fuel as [|fuel]; [lia|]. cbn [start_loop].
  destruct (drive_stopped _ _ _ _ _ _ _ Hd) as (_ & _ & Hs). unfold port_running in Hs.
  assert (El : start_loop (Datatypes.S fuel) (HBA this) s = Ret tt s).
  { cbn [start_loop]. rewrite (bind_ret _ _ _ _ _ (get_reg_ret _ _)).
    destruct (Z.eqb_spec (Z.land (rd (HBA this + CommandStatus) (dev s)) HBA_PxCmdCR) 0); [done|tauto]. }
  cbn [start_loop] in El. rewrite (bind_ret _ _ _ _ _ El).
  rewrite (bind_ret _ _ _ _ _ (get_reg_ret _ _)), (bind_ret _ _ _ _ _ (set_reg_ret _ _ _)),
    (bind_ret _ _ _ _ _ (get_reg_ret _ _)), set_reg_ret. cbn [host dev].
  destruct (drive_start _ _ _ _ _ _ _ Hq Hd) as [Hq2 Hd2]. cbv zeta in Hq2, Hd2.
  eexists. split; [reflexivity|]. cbn [host dev]. split; [done|]. split; [done|].
  split; cbn [host dev]; try done; try lia. intros q e dat Ho Hx. unfold CommandStatus in *. repeat (apply drive_other; [|done|lia]). done.
Qed.

(** ** The command headers *)

#[local] Instance within_dec a n x : Decision (within a n x).
Proof. unfold within. apply _. Defined.

(** A store of [k] bytes into memory that is in use. *)
Lemma store_step k a v s g p b n :
  h_inv (host s) g -> quiet (dev s) -> b <= a -> a + Z.of_nat k <= b + n -> (forall x, within b n x -> h_data (host s) g x) ->
  exists s', store k a v s = Ret tt s' /\ dev s' = dev s /\ h_mem (host s') = st k (h_mem (host s)) a v /\
    effect s g s' g p (within b n) 0 /\ (forall q, h_need (host s') q = h_need (host s) q) /\ h_pages (host s') = h_pages (host s).
Proof.
  intros Hi Hq Hb1 Hb2 Hd. apply update_step; [apply _|done|done|done|].
  intros x Hx. apply ld8_st_out. unfold within in Hx. lia.
Qed.
Lemma clear_step a len s g p b n :
  h_inv (host s) g -> quiet (dev s) -> b <= a -> 0 <= len -> a + len <= b + n -> (forall x, within b n x -> h_data (host s) g x) ->
  exists s', update (fun m => memset m a 0 len) s = Ret tt s' /\ dev s' = dev s /\ h_mem (host s') = memset (h_mem (host s)) a 0 len /\
    effect s g s' g p (within b n) 0 /\ (forall q, h_need (host s') q = h_need (host s) q) /\ h_pages (host s') = h_pages (host s).
Proof.
  intros Hi Hq Hb1 Hl Hb2 Hd. apply (update_step (fun m => memset m a 0 len)); [apply _|done|done|done|].
  intros x Hx. apply ld8_memset_out; unfold within in Hx; lia.
Qed.

(** The command header at [h] has the address [t], 64 bits, of its table. *)
Definition header_at (m : gmap Z Z) (h t : Z) : Prop := ld 4 m (h + 8) + 2 ^ 32 * ld 4 m (h + 12) = t.
(** The headers from slot [i] on in the list at [clb]: slot [k] has the page
    [a] and addresses byte [256 * k] from its start, which is behind the page
    from slot 16 on; there is room for 8 entries.  (Slot 0 is used, and then
    has one entry.) *)
Definition headers (m : gmap Z Z) (clb i : Z) (cts : list Z) : Prop :=
  forall k a, cts !! k = Some a ->
    let slot := i + Z.of_nat k in
    header_at m (clb + slot * 32) (a + 256 * slot) /\ (0 < slot -> ld 2 m (clb + slot * 32 + 2) = 8).

Lemma headers_keep m m' clb i cts : headers m clb i cts ->
  (forall k x, (k < length cts)%nat -> within (clb + (i + Z.of_nat k) * 32 + 8) 8 x \/ (0 < i + Z.of_nat k /\ within (clb + (i + Z.of_nat k) * 32 + 2) 2 x) ->
     ld8 m' x = ld8 m x) -> headers m' clb i cts.
Proof.
  intros Hh Hm k a Ha. cbv zeta. destruct (Hh k a Ha) as [H1' H2']. pose proof (Hm k) as Hk. specialize (fun x => Hk x (lookup_lt_Some _ _ _ Ha)).
  unfold header_at, within in *. split.
  - rewrite <- H1'. f_equal; [|f_equal]; apply ld_ext; intros x Hx; apply Hk; lia.
  - intros Hs. rewrite <- H2' by done. apply ld_ext. intros x Hx. apply Hk. lia.
Qed.

Lemma slot_step n clb i s g p :
  h_inv (host s) g -> quiet (dev s) -> 0 < h_pages (host s) -> 0 <= i < 32 -> 0 <= clb -> clb + 1024 <= 2 ^ 32 ->
  (forall x, within clb 1024 x -> h_data (host s) g x) ->
  let h := clb + i * 32 in
  exists a s', header_loop (Datatypes.S n) clb i s = header_loop n clb (i + 1) s' /\ dev s' = dev s /\
    effect s g s' g p (within h 32) 1 /\ new_page s s' g a /\
    header_at (h_mem (host s')) h (a + 256 * i) /\ ld 2 (h_mem (host s')) (h + 2) = 8 /\
    (forall q, h_need (host s') q = h_need (host s) q) /\ h_pages (host s') = h_pages (host s) - 1.
Proof.
  intros Hi Hq Hp Hir Hc0 Hc1 Hd h. cbn [header_loop].
  assert (Eh : u64 (clb + i * sizeof_CommandHeader) = h) by (unfold sizeof_CommandHeader; rewrite u64_id; unfold h; lia). rewrite Eh.
  assert (Ei : u32 (Z.shiftl i 8) = 256 * i) by (rewrite Z.shiftl_mul_pow2, u32_id by lia; lia). rewrite Ei.
  assert (Hw : forall x, within h 32 x -> h_data (host s) g x) by (intros x Hx; apply Hd; unfold within, h in *; lia).
  destruct (store_step 2 (h + 2) 8 s g p h 32) as (s1 & E1 & D1 & M1 & F1 & N1 & P1); [done|done|lia|lia|done|].
  rewrite (bind_ret _ _ _ _ _ E1).
  destruct (alloc_step s1 g p) as (a & s2 & E2 & D2 & F2 & A2 & N2 & _ & P2); [apply F1|apply F1|lia|].
  rewrite (bind_ret _ _ _ _ _ E2).
  destruct (store_step 4 (h + 8) (u32 (u64 (a + 256 * i))) s2 g p h 32) as (s3 & E3 & D3 & M3 & F3 & N3 & P3);
    [apply F2|apply F2|lia|lia|intros x Hx; by apply F2, F1, Hw|].
  rewrite (bind_ret _ _ _ _ _ E3).
  destruct (store_step 4 (h + 12) (u32 (Z.shiftr (u64 (a + 256 * i)) 32)) s3 g p h 32) as (s4 & E4 & D4 & M4 & F4 & N4 & P4);
    [apply F3|apply F3|lia|lia|intros x Hx; by apply F3, F2, F1, Hw|].
  rewrite (bind_ret _ _ _ _ _ E4).
  destruct (clear_step a 256 s4 g p a 4096) as (s5 & E5 & D5 & M5 & F5 & N5 & P5);
    [apply F4|apply F4|lia|lia|lia|intros x Hx; by apply F4, F3, (np_data _ _ _ _ A2)|].
  rewrite (bind_ret _ _ _ _ _ E5).
  assert (Ha : h + 32 <= a \/ a + 4096 <= h).
  { pose proof (np_page _ _ _ _ A2) as (Ha & _). pose proof (np_fresh _ _ _ _ A2 h) as Hf1. pose proof (np_fresh _ _ _ _ A2 (h + 31)) as Hf2.
    assert (within h 32 h /\ within h 32 (h + 31)) as [W1 W2] by (unfold within; lia).
    specialize (Hf1 (ef_data _ _ _ _ _ _ _ F1 _ (Hw _ W1))). specialize (Hf2 (ef_data _ _ _ _ _ _ _ F1 _ (Hw _ W2))). lia. }
  exists a, s5. split; [done|]. split; [congruence|]. split; [|split; [|split; [|split; [|split]]]].
  - pose proof (effect_seq _ _ _ _ _ _ _ _ _ _ _ F1 F2 ltac:(by intros x _ [])) as F12.
    pose proof (effect_seq _ _ _ _ _ _ _ _ _ _ _ F12 F3 ltac:(done)) as F13.
    pose proof (effect_seq _ _ _ _ _ _ _ _ _ _ _ F13 F4 ltac:(done)) as F14.
    refine (effect_seq _ _ _ _ _ _ _ _ _ 1 0 F14 F5 _). intros x Hx Hw5.
    pose proof (np_fresh _ _ _ _ A2 x (ef_data _ _ _ _ _ _ _ F1 _ Hx)). unfold within in Hw5. lia.
  - split; [apply A2|intros Hl; by apply A2, F1|intros x Hx; by apply A2, F1|intros x Hx; by apply F5, F4, F3, (np_data _ _ _ _ A2)].
  - pose proof (np_page _ _ _ _ A2) as (_ & Ha0 & Ha1). unfold header_at. rewrite M5, !ld_memset_out, M4 by lia. rewrite ld_st_eq, ld_st_ne, M3, ld_st_eq by lia.
    change (256 ^ Z.of_nat 4) with (2 ^ 32). rewrite !(Z.mod_small (u32 _)) by apply u32_range. rewrite u64_id, Z.shiftr_div_pow2 by lia. unfold u32. zdm.
  - rewrite M5, ld_memset_out, M4, ld_st_ne, M3, ld_st_ne by lia.
    rewrite (ld_ext _ _ (h_mem (host s1))); [rewrite M1, ld_st_eq; reflexivity|]. intros x Hx. apply F2; [apply F1, Hw; unfold within; lia|apply not_none].
  - intros q. by rewrite N5, N4, N3, N2, N1.
  - lia.
Qed.

Lemma header_loop_runs n clb i s g p :
  h_inv (host s) g -> quiet (dev s) -> h_low (host s) -> Z.of_nat n <= h_pages (host s) -> 0 <= i -> i + Z.of_nat n <= 32 ->
  0 <= clb -> clb + 1024 <= 2 ^ 32 -> (forall x, within clb 1024 x -> h_data (host s) g x) ->
  exists cts s', header_loop n clb i s = Ret tt s' /\ dev s' = dev s /\
    effect s g s' g p (within (clb + i * 32) (32 * Z.of_nat n)) (Z.of_nat n) /\
    length cts = n /\ fresh_pages s g s' g cts /\ headers (h_mem (host s')) clb i cts /\
    (forall q, h_need (host s') q = h_need (host s) q) /\ h_pages (host s') = h_pages (host s) - Z.of_nat n.
Proof.
  revert i s. induction n as [|n IH]; intros i s Hi Hq Hl Hp Hi0 Hin Hc0 Hc1 Hd.
  { exists [], s. split; [done|]. split; [done|]. split; [by apply effect_refl|]. split; [done|]. split; [apply fresh_none|]. split; [intros k a E; discriminate E|]. split; [done|lia]. }
  destruct (slot_step n clb i s g p) as (a & s1 & E1 & D1 & F1 & A1 & T1 & T2 & N1 & P1); [done|done|lia..|done|].
  destruct (IH (i + 1) s1) as (cts & s2 & E2 & D2 & F2 & L2 & A2 & T3 & N2 & P2); [apply F1|apply F1|by apply F1|lia..|intros x Hx; by apply F1, Hd|].
  exists (a :: cts), s2. rewrite E1, E2. split; [done|]. split; [congruence|]. split; [|split; [cbn [length]; lia|split; [|split; [|split; [intros q; by rewrite N2, N1|lia]]]]].
  - replace (Z.of_nat (Datatypes.S n)) with (1 + Z.of_nat n) by lia. eapply effect_trans; [exact F1|exact F2|].
    intros x _ Hx. unfold within in *. lia.
  - apply (fresh_app s g s1 g s2 g [a]); [by apply fresh_page|done|apply F1|apply F2].
  - assert (Hk : headers (h_mem (host s2)) clb i [a]).
    { apply (headers_keep (h_mem (host s1))).
      - intros [|k] b E; [injection E as <-|discriminate E]. cbv zeta. rewrite Z.add_0_r. auto.
      - intros k x Hk Hx. cbn [length] in Hk. apply F2; [apply F1, Hd; unfold within in *; lia|unfold within in *; lia]. }
    intros [|k] b E; [by apply (Hk 0%nat)|]. cbv zeta. replace (i + Z.of_nat (Datatypes.S k)) with (i + 1 + Z.of_nat k) by lia. by apply (T3 k).
Qed.

(** ** Port::Configure *)

(** The port [p] runs with a command list, a received-FIS area and a command
    table for each of the 32 slots: [l] are their pages. *)
Definition equipped (s : system S D) (g : h_ghost) (p : Z) (l : list Z) (clb ct fb : Z) (data : Z -> Z -> Z) : Prop :=
  exists cts, l = clb :: fb :: ct :: cts /\ length cts = 31%nat /\ configured s g p clb ct fb data /\
    headers (h_mem (host s)) clb 0 (ct :: cts) /\ (forall x, within clb 1024 x -> h_data (host s) g x).

(** What a port uses is new. *)
Lemma fresh_areas s g s' g' l p clb ct fb data x : fresh_pages s g s' g' l -> equipped s' g' p l clb ct fb data ->
  h_data (host s) g x -> ~ within clb 4096 x /\ ~ within fb 4096 x /\ ~ within ct 4096 x.
Proof.
  intros F (cts & -> & _) Hx. split_and!; intros Hw; (eapply (fp_old _ _ _ _ _ F); [|exact Hw|exact Hx]); repeat first [left|right].
Qed.
Lemma header_low m h t : header_at m h t -> 0 <= t < 2 ^ 32 -> ld 4 m (h + 8) = t /\ ld 4 m (h + 12) = 0.
Proof.
  unfold header_at. intros E Ht. pose proof (ld_range 4 m (h + 8)) as R1. pose proof (ld_range 4 m (h + 12)) as R2.
  change (256 ^ Z.of_nat 4) with (2 ^ 32) in *. lia.
Qed.
Lemma equipped_keep s g s' g' p l clb ct fb data (W : Z -> Prop) n q :
  equipped s g p l clb ct fb data -> effect s g s' g' q W n -> drive (dev s') p (Running clb fb) data ->
  (forall x, within clb 1024 x -> W x -> within clb 8 x) -> equipped s' g' p l clb ct fb data.
Proof.
  intros (cts & -> & L & Hc & T & Hx) F Hd HW. exists cts. split; [done|]. split; [done|].
  assert (Hk : forall x, within clb 1024 x -> ~ within clb 8 x -> ld8 (h_mem (host s')) x = ld8 (h_mem (host s)) x).
  { intros x Hx1 Hx2. apply F; [by apply Hx|]. intros Hw. by apply Hx2, HW. }
  split; [|split; [|intros x Hx1; by apply F, Hx]].
  - apply (configured_keep s g); [done|done|apply F|]. intros x Hx1. apply Hk; unfold within in *; lia.
  - apply (headers_keep (h_mem (host s))); [done|]. cbn [length]. rewrite L. intros k x Hlt Hx1. apply Hk; unfold within in *; lia.
Qed.
(** Different pages do not overlap. *)
Lemma pages_disjoint_in (l : list Z) s g s' g' i j a b : fresh_pages s g s' g' l -> l !! i = Some a -> l !! j = Some b -> i <> j -> apart a 4096 b 4096.
Proof.
  intros F Ha Hb Hij. assert (a <> b) by (intros ->; apply Hij; exact (NoDup_lookup _ _ _ _ (fp_nodup _ _ _ _ _ F) Ha Hb)).
  pose proof (fp_page _ _ _ _ _ F a (list_elem_of_lookup_2 _ _ _ Ha)). pose proof (fp_page _ _ _ _ _ F b (list_elem_of_lookup_2 _ _ _ Hb)).
  unfold apart. zdm.
Qed.

(** A new page whose address goes into the registers at [lo] and [hi]. *)
Lemma area_step {A} (K : Z -> M (system S D) A) lo hi len s g p (e : Z -> engine) data :
  h_inv (host s) g -> quiet (dev s) -> h_low (host s) -> 0 < h_pages (host s) -> 0 <= len <= 4096 -> 0 <= lo < 0x80 -> 0 <= hi < 0x80 ->
  (forall a, 0 < a < 2 ^ 32 -> a mod 4096 = 0 ->
     let d1 := wr (p + lo) a (dev s) in let d2 := wr (p + hi) 0 d1 in quiet d1 /\ quiet d2 /\ drive d2 p (e a) data) ->
  exists a s',
    (let* Base := on_host h_alloc in
     set_reg (p + lo) (u32 Base) ;;; set_reg (p + hi) (u32 (Z.shiftr Base 32)) ;;;
     update (fun m => memset m Base 0 len) ;;; K Base) s = K a s' /\
    drive (dev s') p (e a) data /\ effect s g s' g p none 1 /\ new_page s s' g a /\
    (forall q, h_need (host s') q = h_need (host s) q) /\ h_pages (host s') = h_pages (host s) - 1.
Proof.
  intros Hi Hq Hl Hp Hlen Hlo Hhi He.
  destruct (alloc_step s g p Hi Hq Hp) as (a & s1 & E1 & D1 & F1 & A1 & N1 & _ & P1).
  rewrite (bind_ret _ _ _ _ _ E1). pose proof (np_page _ _ _ _ A1) as (Ha & Ha0 & _). pose proof (np_low _ _ _ _ A1 Hl) as Ha1.
  rewrite (u32_id a) by lia. rewrite Z.shiftr_div_pow2, Z.div_small by lia. change (u32 0) with 0.
  destruct (He a) as (Q1 & Q2 & Dr); [lia|done|]. rewrite <- D1 in Q1, Q2, Dr.
  rewrite (bind_ret _ _ _ _ _ (set_reg_ret _ _ _)), (bind_ret _ _ _ _ _ (set_reg_ret _ _ _)). cbn [host dev].
  pose proof (reg_step p lo a s1 g (ef_inv _ _ _ _ _ _ _ F1) Hlo Q1) as F2.
  pose proof (reg_step p hi 0 (mkSystem (host s1) (wr (p + lo) a (dev s1))) g (ef_inv _ _ _ _ _ _ _ F1) Hhi Q2) as F3. cbn [host dev] in F3.
  set (s3 := mkSystem (host s1) (wr (p + hi) 0 (wr (p + lo) a (dev s1)))) in *.
  destruct (clear_step a len s3 g p a 4096) as (s4 & E4 & D4 & M4 & F4 & N4 & P4); [apply F3|apply F3|lia..|apply A1|].
  rewrite (bind_ret _ _ _ _ _ E4).
  exists a, s4. split; [done|]. split; [by rewrite D4|]. split; [|split; [|split; [intros q; rewrite N4; apply N1|rewrite P4; apply P1]]].
  - pose proof (effect_seq _ _ _ _ _ _ _ _ _ _ _ F1 F2 ltac:(done)) as F12.
    pose proof (effect_seq _ _ _ _ _ _ _ _ _ _ _ F12 F3 ltac:(done)) as F13.
    refine (effect_seq _ _ _ _ _ _ _ _ _ 1 0 F13 F4 _). intros x Hx Hw. pose proof (np_fresh _ _ _ _ A1 x Hx). unfold within in Hw. lia.
  - split; [apply A1|apply A1|apply A1|]. intros x Hx. apply F4. by apply A1.
Qed.

Lemma equip s g s' g' p clb ct fb cts data :
  length cts = 31%nat -> drive (dev s') p (Running clb fb) data -> fresh_pages s g s' g' (clb :: fb :: ct :: cts) ->
  headers (h_mem (host s')) clb 0 (ct :: cts) -> equipped s' g' p (clb :: fb :: ct :: cts) clb ct fb data.
Proof.
  intros L Hd A T. exists cts. split; [done|]. split; [done|].
  split; [|split; [done|intros x Hx; apply (fp_new _ _ _ _ _ A clb); [left|unfold within in *; lia]]].
  pose proof (pages_disjoint_in _ _ _ _ _ 0 2 clb ct A eq_refl eq_refl ltac:(lia)) as A1. pose proof (pages_disjoint_in _ _ _ _ _ 1 0 fb clb A eq_refl eq_refl ltac:(lia)) as A2.
  pose proof (pages_disjoint_in _ _ _ _ _ 1 2 fb ct A eq_refl eq_refl ltac:(lia)) as A3.
  pose proof (fp_page _ _ _ _ _ A clb ltac:(left)) as B1. pose proof (fp_page _ _ _ _ _ A ct ltac:(do 2 right; left)) as B2.
  destruct (T 0%nat ct eq_refl) as [T0 _]. cbv zeta in T0. rewrite Z.mul_0_l, !Z.mul_0_r, !Z.add_0_r in T0.
  apply header_low in T0 as [T1 T2]; [|lia]. unfold apart in *.
  split; [done|lia|done|done|unfold apart; lia|].
  intros x Hx. unfold within in Hx. destruct (decide (within clb 4096 x)); [apply (fp_new _ _ _ _ _ A clb); [left|done]|].
  destruct (decide (within fb 4096 x)); [apply (fp_new _ _ _ _ _ A fb); [right; left|done]|].
  apply (fp_new _ _ _ _ _ A ct); [do 2 right; left|unfold within in *; lia].
Qed.

Lemma Configure_configures fuel (this : Port) s g data :
  h_inv (host s) g -> quiet (dev s) -> drive (dev s) (HBA this) Unknown data -> (latency <= fuel)%nat ->
  h_low (host s) -> 34 <= h_pages (host s) ->
  exists s' l clb ct fb, Configure fuel this s = Ret tt s' /\ equipped s' g (HBA this) l clb ct fb data /\
    fresh_pages s g s' g l /\ effect s g s' g (HBA this) none 34 /\
    (forall q, h_need (host s') q = h_need (host s) q) /\ h_pages (host s') = h_pages (host s) - 34.
Proof.
  intros Hi Hq Hd Hf Hl Hp. unfold Configure. set (p := HBA this).
  destruct (StopCommand_stops fuel this s g data Hi Hq Hd Hf) as (Hfuel & s1 & c0 & cu0 & f0 & fu0 & E1 & D1 & F1 & N1 & P1).
  rewrite (bind_ret _ _ _ _ _ E1).
  edestruct (area_step (A := unit)) with (lo := CommandListBase) (hi := CommandListBaseUpper) (len := 1024) (s := s1) (g := g) (p := p)
    (e := fun a => Stopped a 0 f0 fu0) (data := data) as (clb & s2 & E2 & D2 & F2 & A2 & N2 & P2);
    [apply F1|apply F1|by apply F1|lia|lia|unfold CommandListBase; lia|unfold CommandListBaseUpper; lia| |rewrite E2].
  { intros a Ha Hal.
    destruct (drive_set _ _ _ _ _ _ _ a (ef_quiet _ _ _ _ _ _ _ F1) D1) as ([Q1 Dr1] & _); [lia|zdm|].
    destruct (drive_set _ _ _ _ _ _ _ 0 Q1 Dr1) as (_ & [Q2 Dr2] & _); [lia|]. exact (conj Q1 (conj Q2 Dr2)). }
  edestruct (area_step (A := unit)) with (lo := FIS_BaseAddress) (hi := FIS_BaseAddressUpper) (len := 256) (s := s2) (g := g) (p := p)
    (e := fun a => Stopped clb 0 a 0) (data := data) as (fb & s3 & E3 & D3 & F3 & A3 & N3 & P3);
    [apply F2|apply F2|by apply F2, F1|lia|lia|unfold FIS_BaseAddress; lia|unfold FIS_BaseAddressUpper; lia| |rewrite E3].
  { intros a Ha Hal.
    destruct (drive_set _ _ _ _ _ _ _ a (ef_quiet _ _ _ _ _ _ _ F2) D2) as (_ & _ & [Q1 Dr1] & _); [lia|zdm|].
    destruct (drive_set _ _ _ _ _ _ _ 0 Q1 Dr1) as (_ & _ & _ & [Q2 Dr2]); [lia|]. exact (conj Q1 (conj Q2 Dr2)). }
  destruct (drive_stopped _ _ _ _ _ _ _ D3) as (R1 & R2 & _).
  rewrite (bind_ret _ _ _ _ _ (get_reg_ret _ _)), (bind_ret _ _ _ _ _ (get_reg_ret _ _)), R1, R2.
  pose proof (np_page _ _ _ _ A2) as (Hc & Hc0 & _). pose proof (np_low _ _ _ _ A2 (ef_low _ _ _ _ _ _ _ F1 Hl)) as Hc1.
  replace (u64 (clb + u64 (Z.shiftl 0 32))) with clb by (change (u64 (Z.shiftl 0 32)) with 0; rewrite u64_id; lia).
  assert (Hcd : forall x, within clb 4096 x -> h_data (host s3) g x) by (intros x Hx; by apply F3, A2).
  destruct (header_loop_runs 32 clb 0 s3 g p) as (cts & s4 & E4 & D4 & F4 & L4 & A4 & T4 & N4 & P4);
    [apply F3|apply F3|by apply F3, F2, F1|lia..|intros x Hx; apply Hcd; unfold within in *; lia|]. rewrite (bind_ret _ _ _ _ _ E4).
  destruct (StartCommand_starts fuel this s4 g data clb 0 fb 0) as (s5 & E5 & H5 & D5 & F5); [apply F4|apply F4|by rewrite D4|done|].
  rewrite Z.mul_0_r, !Z.add_0_r in D5.
  pose proof (effect_seq _ _ _ _ _ _ _ _ _ _ _ F1 F2 ltac:(done)) as F12. pose proof (effect_seq _ _ _ _ _ _ _ _ _ _ _ F12 F3 ltac:(done)) as F13.
  assert (A : fresh_pages s g s4 g (clb :: fb :: cts)).
  { assert (B : fresh_pages s g s1 g []) by (apply (fresh_keep s g s g); [apply fresh_none|apply F1]).
    apply (fresh_app s g s3 g s4 g [clb; fb]); [|exact A4|apply F13|apply F4].
    apply (fresh_app s g s2 g s3 g [clb]); [|by apply fresh_page, F2, F1|apply F12|apply F3].
    apply (fresh_app s g s1 g s2 g []); [exact B|by apply fresh_page, F1|apply F1|apply F2]. }
  destruct cts as [|ct cts]; [discriminate L4|].
  exists s5, (clb :: fb :: ct :: cts), clb, ct, fb. split; [exact E5|]. rewrite H5. split; [|split; [|split; [|split]]].
  - apply (equip s g s5 g); [by injection L4|exact D5|by apply (fresh_keep s g s4 g); [|rewrite H5]|by rewrite H5].
  - apply (fresh_keep s g s4 g); [exact A|by rewrite H5].
  - assert (F14 : effect s g s4 g p none (0 + 1 + 1 + 32)).
    { refine (effect_seq _ _ _ _ _ _ _ _ _ _ _ F13 F4 _). intros x Hx Hw.
      exfalso. apply (fp_old _ _ _ _ _ A clb x); [left|unfold within in *; lia|exact Hx]. }
    exact (effect_seq _ _ _ _ _ _ _ _ _ _ _ F14 F5 ltac:(done)).
  - intros q. by rewrite N4, N3, N2, N1.
  - lia.
Qed.

(** ** The search for the mark *)

(** ["ROOT"] *)
Definition mark (j : nat) : Z := nth j [0x52; 0x4F; 0x4F; 0x54] 0.
(** The bytes behind the sector in the buffer are 0. *)
Definition byte_at (data : Z -> Z -> Z) (o : Z) : Z := if o <? 512 then data 0 o else 0.
Definition marked_at (data : Z -> Z -> Z) (o : Z) : bool := forallb (fun j => byte_at data (o + Z.of_nat j) =? mark j) (seq 0 4).
(** A disk is marked when its first sector has the mark at some place. *)
Definition marked (data : Z -> Z -> Z) : bool := existsb (fun i => marked_at data (Z.of_nat i)) (seq 0 512).
Definition mark_in (m : gmap Z Z) (str : Z) : Prop := forall j, (j < 4)%nat -> ld8 m (str + Z.of_nat j) = mark j.

Lemma memcmp_mark m str data a o :
  mark_in m str -> str <> 0 -> a + o <> 0 -> (forall k, o <= k < o + 4 -> ld8 m (a + k) = byte_at data k) ->
  (memcmp m (a + o) str 4 =? 0) = marked_at data o.
Proof.
  intros Hm Hs Ha Hb. apply eq_bool_prop_intro. rewrite !Is_true_true. unfold marked_at, memcmp. rewrite Z.eqb_eq, memcmp_loop_zero, forallb_forall by done.
  setoid_rewrite Z.eqb_eq. split.
  - intros Hx j Hj. apply in_seq in Hj. rewrite <- Hb, <- Hm by lia. rewrite Z.add_assoc. apply Hx. lia.
  - intros Hx i Hi. rewrite <- Z.add_assoc, Hb by lia. rewrite <- (Z2Nat.id i) by lia. rewrite Hx, Hm by (try apply in_seq; lia). done.
Qed.

Lemma search_loop_spec n this str a data k Root (s : system S D) :
  mark_in (h_mem (host s)) str -> str <> 0 -> 0 < a -> (forall o, 0 <= o < Z.of_nat (k + n) + 4 -> ld8 (h_mem (host s)) (a + o) = byte_at data o) ->
  search_loop n this str (a + Z.of_nat k) Root s =
    Ret (if existsb (fun i => marked_at data (Z.of_nat i)) (seq k n) then Some this else Root) s.
Proof.
  intros Hm Hs Ha. revert k Root. induction n as [|n IH]; intros k Root Hb; [done|]. cbn [search_loop seq existsb].
  unfold bind at 1, gets at 1. rewrite (memcmp_mark _ _ data) by (try done; try lia; intros; apply Hb; lia).
  replace (a + Z.of_nat k + 1) with (a + Z.of_nat (Datatypes.S k)) by lia. rewrite IH by (intros; apply Hb; lia).
  destruct (marked_at data (Z.of_nat k)), (existsb _ _); done.
Qed.

(** What the attempts to read rely on besides the port. *)
Record searchable (s : system S D) (g : h_ghost) (str clb ct fb buf : Z) : Prop := {
  sb_str : str <> 0 /\ mark_in (h_mem (host s)) str;
  sb_data x : within str 4 x -> h_data (host s) g x /\ ~ read_writes clb ct fb buf x;
  sb_buf : 0 < buf;
  sb_tail x : within (buf + 512) 3584 x -> ld8 (h_mem (host s)) x = 0
}.

Lemma searchable_keep s g s' g' p str clb ct fb buf n :
  searchable s g str clb ct fb buf -> buffer s g clb ct fb buf ->
  effect s g s' g' p (read_writes clb ct fb buf) n -> searchable s' g' str clb ct fb buf.
Proof.
  intros [[Hs Hm] Hd Hb Ht] [_ _ Ha Hbd] Ef. unfold apart in Ha. split; [split; [done|]| |done|].
  - intros j Hj. destruct (Hd (str + Z.of_nat j)) as [H1' H2']; [unfold within; lia|].
    rewrite (ef_mem _ _ _ _ _ _ _ Ef) by done. by apply Hm.
  - intros x Hx. destruct (Hd x Hx). split; [by apply Ef|done].
  - intros x Hx. rewrite (ef_mem _ _ _ _ _ _ _ Ef); [by apply Ht|apply Hbd; unfold within in *; lia|unfold read_writes, within in *; lia].
Qed.

Lemma attempt n fuel this str buf Root s g clb ct fb data :
  port_ready s g (HBA this) clb ct fb buf data -> searchable s g str clb ct fb buf -> (latency <= fuel)%nat ->
  exists s' g', try_loop (Datatypes.S n) fuel this str buf Root s = try_loop n fuel this str buf (if marked data then Some this else Root) s' /\
    port_ready s' g' (HBA this) clb ct fb buf data /\ searchable s' g' str clb ct fb buf /\ h_need (host s') buf = 0 /\
    effect s g s' g' (HBA this) (read_writes clb ct fb buf) (h_need (host s) buf).
Proof.
  intros Hr Hsb Hf. cbn [try_loop]. rewrite (bind_ret _ _ _ _ _ (update_ret _ _)).
  destruct (clear_ready _ _ _ _ _ _ _ _ Hr) as (Hr1 & F1 & N1). cbv zeta in Hr1, F1, N1. set (s1 := mkSystem (h_set_mem _ _) _) in *.
  destruct (Read_sector fuel this 0 buf s1 g clb ct fb data Hr1 Hf ltac:(lia)) as (s2 & g2 & E2 & Hr2 & Hb2 & N2 & F2). rewrite (bind_ret _ _ _ _ _ E2).
  assert (F : effect s g s2 g2 (HBA this) (read_writes clb ct fb buf) (h_need (host s) buf)).
  { rewrite <- N1. refine (effect_seq _ _ _ _ _ _ _ _ _ 0 _ (effect_weaken _ _ _ _ _ _ _ _ _ F1 _ _) F2 _); [|lia|auto].
    intros x _ Hx. unfold read_writes. tauto. }
  pose proof (searchable_keep _ _ _ _ _ _ _ _ _ _ _ Hsb (pr_buf _ _ _ _ _ _ _ _ Hr) F) as Hsb2.
  assert (Es : search_loop 512 this str buf Root s2 = Ret (if marked data then Some this else Root) s2).
  { rewrite <- (Z.add_0_r buf). apply (search_loop_spec _ this str buf data 0);
      [exact (proj2 (sb_str _ _ _ _ _ _ _ Hsb2))|exact (proj1 (sb_str _ _ _ _ _ _ _ Hsb2))|exact (sb_buf _ _ _ _ _ _ _ Hsb2)|].
    intros o Ho. unfold byte_at. destruct (Z.ltb_spec o 512); [rewrite Hb2 by lia; reflexivity|]. apply (sb_tail _ _ _ _ _ _ _ Hsb2). unfold within. lia. }
  rewrite (bind_ret _ _ _ _ _ Es). exists s2, g2. split; [reflexivity|]. split; [exact Hr2|]. split; [exact Hsb2|]. split; [exact N2|exact F].
Qed.

Lemma try_loop_spec n fuel this str buf Root s g clb ct fb data :
  port_ready s g (HBA this) clb ct fb buf data -> searchable s g str clb ct fb buf -> (latency <= fuel)%nat ->
  exists s' g', try_loop (Datatypes.S n) fuel this str buf Root s = Ret (if marked data then Some this else Root) s' /\
    port_ready s' g' (HBA this) clb ct fb buf data /\ searchable s' g' str clb ct fb buf /\ h_need (host s') buf = 0 /\
    effect s g s' g' (HBA this) (read_writes clb ct fb buf) (h_need (host s) buf).
Proof.
  revert Root s g. induction n as [|n IH]; intros Root s g Hr Hsb Hf.
  - destruct (attempt 0 fuel this str buf Root s g clb ct fb data Hr Hsb Hf) as (s1 & g1 & E1 & Hr1 & Hsb1 & N1 & F1).
    exists s1, g1. split; [exact E1|]. split; [exact Hr1|]. split; [exact Hsb1|]. split; [exact N1|exact F1].
  - destruct (attempt (Datatypes.S n) fuel this str buf Root s g clb ct fb data Hr Hsb Hf) as (s1 & g1 & E1 & Hr1 & Hsb1 & N1 & F1).
    destruct (IH (if marked data then Some this else Root) s1 g1 Hr1 Hsb1 Hf) as (s2 & g2 & E2 & Hr2 & Hsb2 & N2 & F2).
    exists s2, g2. split; [rewrite E1, E2; by destruct (marked data)|]. split; [exact Hr2|]. split; [exact Hsb2|]. split; [exact N2|].
    rewrite N1 in F2. rewrite <- (Z.add_0_r (h_need _ _)). eapply effect_seq; [exact F1|exact F2|auto].
Qed.

(** ** All ports *)

(** What holds between two ports: the buffer is a page in use whose end is
    clear, and ["ROOT"] lies elsewhere. *)
Record driving (s : system S D) (g : h_ghost) (str buf : Z) : Prop := {
  dv_inv : h_inv (host s) g;
  dv_quiet : quiet (dev s);
  dv_low : h_low (host s);
  dv_str : str <> 0 /\ mark_in (h_mem (host s)) str;
  dv_str_data x : within str 4 x -> h_data (host s) g x /\ ~ within buf 4096 x;
  dv_buf : buf mod 4096 = 0 /\ 0 < buf /\ buf + 4096 <= 2 ^ 48;
  dv_buf_data x : within buf 4096 x -> h_data (host s) g x;
  dv_tail x : within (buf + 512) 3584 x -> ld8 (h_mem (host s)) x = 0
}.
(** The port [p] is equipped with the pages [l], apart from the buffer. *)
Definition up (s : system S D) (g : h_ghost) (buf p : Z) (l : list Z) (data : Z -> Z -> Z) : Prop :=
  exists clb ct fb, equipped s g p l clb ct fb data /\ apart clb 4096 buf 4096 /\ apart ct 4096 buf 4096 /\ apart fb 4096 buf 4096.

(** What reading through the port needs. *)
Lemma up_configured s g buf p l data : up s g buf p l data ->
  exists clb ct fb, configured s g p clb ct fb data /\ apart clb 32 buf 4096 /\ apart ct 144 buf 4096 /\ apart fb 256 buf 4096.
Proof. intros (clb & ct & fb & (cts & _ & _ & Hc & _) & Ha). exists clb, ct, fb. split; [done|]. unfold apart in *. lia. Qed.

Lemma driving_keep s g s' g' p str buf n :
  driving s g str buf -> effect s g s' g' p (within buf 512) n -> driving s' g' str buf.
Proof.
  intros [Hi Hq Hl [Hs Hm] Hd Hb Hbd Ht] Ef. split; [apply Ef|apply Ef|by apply Ef|split; [done|]| |done| |].
  - intros j Hj. destruct (Hd (str + Z.of_nat j)) as [H1' H2']; [unfold within; lia|].
    rewrite (ef_mem _ _ _ _ _ _ _ Ef); [by apply Hm|done|unfold within in *; lia].
  - intros x Hx. destruct (Hd x Hx). split; [by apply Ef|done].
  - intros x Hx. by apply Ef, Hbd.
  - intros x Hx. rewrite (ef_mem _ _ _ _ _ _ _ Ef); [by apply Ht|apply Hbd|]; unfold within in *; lia.
Qed.

Lemma up_keep s g s' g' p q buf l data n :
  up s g buf q l data -> other_port p q -> effect s g s' g' p (within buf 512) n -> up s' g' buf q l data.
Proof.
  intros (clb & ct & fb & Hc & Ha) Ho Ef. exists clb, ct, fb. split; [|done]. unfold apart in Ha.
  apply (equipped_keep s g s' g' q l clb ct fb data _ _ _ Hc Ef); [|unfold within; lia].
  destruct Hc as (cts & _ & _ & Hc & _). by apply Ef, Hc.
Qed.

(** One port is configured and its first sector is searched. *)
Lemma port_step fuel n this str buf Root s g data :
  driving s g str buf -> drive (dev s) (HBA this) Unknown data -> (latency <= fuel)%nat ->
  34 + h_need (host s) buf <= h_pages (host s) ->
  exists s1 s' g' l, Configure fuel this s = Ret tt s1 /\
    try_loop (Datatypes.S n) fuel this str buf Root s1 = Ret (if marked data then Some this else Root) s' /\
    driving s' g' str buf /\ up s' g' buf (HBA this) l data /\ fresh_pages s g s' g' l /\ h_need (host s') buf = 0 /\
    effect s g s' g' (HBA this) (within buf 512) (34 + h_need (host s) buf).
Proof.
  intros Hdv Hd Hf Hp. pose proof (h_need_range (host s) buf) as Hnr.
  destruct (Configure_configures fuel this s g data) as (s1 & l & clb & ct & fb & E1 & Hq & A & F1 & N1 & P1); [apply Hdv|apply Hdv|done|done|apply Hdv|lia|].
  assert (F1' : effect s g s1 g (HBA this) (within buf 512) 34) by (eapply effect_weaken; [exact F1|by intros x _ []|lia]).
  pose proof (driving_keep _ _ _ _ _ _ _ _ Hdv F1') as Hdv1. pose proof (fun x => fresh_areas _ _ _ _ _ _ _ _ _ _ x A Hq) as Hfr.
  assert (Hap : forall a, (forall x, within a 4096 x -> ~ h_data (host s) g x) -> apart a 4096 buf 4096).
  { intros a Ha. unfold apart. destruct (decide (a + 4096 <= buf \/ buf + 4096 <= a)) as [|Hn]; [done|].
    exfalso. apply (Ha (Z.max a buf)); [unfold within; lia|apply (dv_buf_data _ _ _ _ Hdv); unfold within; lia]. }
  assert (Ha : apart clb 4096 buf 4096 /\ apart ct 4096 buf 4096 /\ apart fb 4096 buf 4096).
  { split_and!; apply Hap; intros x Hx Hx'; destruct (Hfr x Hx') as (? & ? & ?); done. }
  pose proof Hq as (cts & El & _ & Hc & _).
  assert (Hr : port_ready s1 g (HBA this) clb ct fb buf data).
  { split; [apply F1|apply F1|exact Hc|]. destruct (dv_buf _ _ _ _ Hdv) as (B1 & B2 & B3).
    split; [lia|rewrite N1, P1; lia|unfold apart in *; lia|apply (dv_buf_data _ _ _ _ Hdv1)]. }
  assert (Hsb : searchable s1 g str clb ct fb buf).
  { split; [apply Hdv1| |apply Hdv|apply Hdv1]. intros x Hx. split; [by apply (dv_str_data _ _ _ _ Hdv1)|].
    destruct (dv_str_data _ _ _ _ Hdv x Hx) as [Hxd Hxb]. pose proof (Hfr x Hxd). unfold read_writes, within in *. lia. }
  destruct (try_loop_spec n fuel this str buf Root s1 g clb ct fb data Hr Hsb Hf) as (s2 & g2 & E2 & Hr2 & Hsb2 & N2 & F2).
  assert (F : effect s g s2 g2 (HBA this) (within buf 512) (34 + h_need (host s) buf)).
  { rewrite <- (N1 buf). refine (effect_seq _ _ _ _ _ _ _ _ _ _ _ F1' F2 _).
    intros x Hx Hw. pose proof (Hfr x Hx). unfold read_writes, within in *. lia. }
  exists s1, s2, g2, l. split; [exact E1|]. split; [exact E2|]. split; [exact (driving_keep _ _ _ _ _ _ _ _ Hdv F)|].
  split; [|split; [apply (fresh_keep s g s1 g); [exact A|apply F2]|split; [exact N2|exact F]]].
  exists clb, ct, fb. split; [|exact Ha]. apply (equipped_keep s1 g s2 g2 _ l clb ct fb data _ _ _ Hq F2); [apply Hr2|].
  rewrite El in A. pose proof (pages_disjoint_in _ _ _ _ _ 0 2 clb ct A eq_refl eq_refl ltac:(lia)). pose proof (pages_disjoint_in _ _ _ _ _ 0 1 clb fb A eq_refl eq_refl ltac:(lia)).
  unfold read_writes, within, apart in *. lia.
Qed.

(** The last of the marked ports, or what [Root] was. *)
Definition last_marked (disk : Z -> Z -> Z -> Z) (ps : list Port) (Root : option Port) : option Port :=
  fold_left (fun R P => if marked (disk (HBA P)) then Some P else R) ps Root.

Lemma last_marked_Some disk ps P : last_marked disk ps None = Some P -> P ∈ ps /\ marked (disk (HBA P)) = true.
Proof.
  assert (G : forall R, last_marked disk ps R = Some P -> R = Some P \/ P ∈ ps /\ marked (disk (HBA P)) = true).
  { induction ps as [|Q ps IH]; intros R E; [by left|]. apply IH in E as [E|[Hin Hm]]; [|right; split; [by right|done]].
    destruct (marked (disk (HBA Q))) eqn:Em; [injection E as ->; right; split; [left|done]|by left]. }
  intros E. by destruct (G None E).
Qed.

Lemma ports_loop_spec fuel ports str buf disk ps i Root s g :
  driving s g str buf -> (latency <= fuel)%nat ->
  (forall k P, ps !! k = Some P -> ports (i + Z.of_nat k) = P) ->
  (forall P, P ∈ ps -> drive (dev s) (HBA P) Unknown (disk (HBA P))) ->
  ForallOrdPairs (fun P Q => other_port (HBA P) (HBA Q)) ps ->
  34 * Z.of_nat (length ps) + h_need (host s) buf <= h_pages (host s) ->
  exists s' g' pages, ports_loop (length ps) fuel ports str buf i Root s = Ret (last_marked disk ps Root) s' /\
    driving s' g' str buf /\ Forall2 (fun P l => up s' g' buf (HBA P) l (disk (HBA P))) ps pages /\ fresh_pages s g s' g' (concat pages) /\
    (forall q l data, (forall P, P ∈ ps -> other_port (HBA P) q) -> up s g buf q l data -> up s' g' buf q l data) /\
    (forall x, h_data (host s) g x -> h_data (host s') g' x /\ (~ within buf 512 x -> ld8 (h_mem (host s')) x = ld8 (h_mem (host s)) x)) /\
    h_pages (host s) <= 34 * Z.of_nat (length ps) + h_need (host s) buf + h_pages (host s').
Proof.
  intros Hdv Hf. revert i Root s g Hdv. induction ps as [|P ps IH]; intros i Root s g Hdv Hps Hdr Hpw Hpg.
  { exists s, g, []. cbn [ports_loop length]. pose proof (h_need_range (host s) buf). split_and!; try done; [apply fresh_none|lia]. }
  cbn [length] in *. cbn [ports_loop]. pose proof (Hps 0%nat P eq_refl) as EP. rewrite Z.add_0_r in EP. rewrite EP.
  replace (Z.to_nat 1000) with (Datatypes.S (Z.to_nat 999)) by lia.
  inversion Hpw as [|? ? HP Hpw']; subst. rewrite Forall_forall in HP. pose proof (h_need_range (host s) buf).
  destruct (port_step fuel (Z.to_nat 999) (ports i) str buf Root s g (disk (HBA (ports i))) Hdv) as (s1 & s2 & g2 & l & E1 & E2 & Hdv2 & Hup2 & A2 & N2 & F2);
    [apply Hdr; left|done|lia|].
  rewrite (bind_ret _ _ _ _ _ E1), (bind_ret _ _ _ _ _ E2). pose proof (ef_pages _ _ _ _ _ _ _ F2).
  destruct (IH (i + 1) (if marked (disk (HBA (ports i))) then Some (ports i) else Root) s2 g2 Hdv2) as (s3 & g3 & pages & E3 & Hdv3 & Hup3 & A3 & Hold3 & Hk3 & P3);
    [| |exact Hpw'|lia|].
  { intros k Q HQ. rewrite <- (Hps (Datatypes.S k) Q HQ). f_equal. lia. }
  { intros Q HQ. apply F2; [by apply HP|]. apply Hdr. by right. }
  exists s3, g3, (l :: pages). split; [exact E3|]. split; [exact Hdv3|]. split; [|split; [|split; [|split; [|lia]]]].
  - constructor; [|exact Hup3]. apply Hold3; [|exact Hup2]. intros P HPin. unfold other_port. pose proof (HP P HPin) as Ho. unfold other_port in Ho. lia.
  - apply (fresh_app s g s2 g2); [exact A2|exact A3|apply F2|apply Hk3].
  - intros q l' data Ho Hup. apply Hold3; [intros P HPin; apply Ho; by right|]. eapply up_keep; [exact Hup| |exact F2]. apply Ho. left.
  - intros x Hx. destruct (Hk3 x (ef_data _ _ _ _ _ _ _ F2 _ Hx)) as [Hx3 Hm3]. split; [done|]. intros Hw. rewrite Hm3 by done. by apply F2.
Qed.

(** ** Probing *)

Definition port_type (status sig : Z) : PortType :=
  if negb (Z.land status 7 =? HBA_PortDevicePresent) || (Z.shiftr status 8 =? 0) then None_
  else if sig =? SATA_SIG_Atapi then SATA_Pi
  else if sig =? SATA_SIG_ATA then SATA
  else if sig =? SATA_SIG_PM then PM
  else if sig =? SATA_SIG_Semb then Semb else None_.
Definition type_at (d : D) (p : Z) : PortType := port_type (rd (p + SATA_Status) d) (rd (p + Signature) d).

Lemma GetPortType_ret p (s : system S D) : GetPortType p s = Ret (type_at (dev s) p) s.
Proof.
  unfold GetPortType, type_at, port_type. rewrite (bind_ret _ _ _ _ _ (get_reg_ret _ _)).
  destruct (Z.shiftr _ 8 =? 0); cbn [negb Z.eqb orb]; rewrite ?orb_true_r, ?orb_false_r; [done|].
  destruct (Z.land _ 7 =? _); cbn [negb]; [|done]. cbn [HBA_PortIPM_Active Z.eqb Pos.eqb negb orb].
  rewrite (bind_ret _ _ _ _ _ (get_reg_ret _ _)). destruct (_ =? SATA_SIG_Atapi); [done|].
  rewrite (bind_ret _ _ _ _ _ (get_reg_ret _ _)). destruct (_ =? SATA_SIG_ATA); [done|].
  rewrite (bind_ret _ _ _ _ _ (get_reg_ret _ _)). destruct (_ =? SATA_SIG_PM); [done|].
  rewrite (bind_ret _ _ _ _ _ (get_reg_ret _ _)). by destruct (_ =? SATA_SIG_Semb).
Qed.

(** The ports with a disk among the [n] from [Index] on, numbered from [c]. *)
Definition is_disk (d : D) (ABAR i : Z) : bool :=
  Z.testbit (rd (ABAR + PortsImplemented) d) i && (bool_decide (type_at d (ABAR + Ports i) = SATA) || bool_decide (type_at d (ABAR + Ports i) = SATA_Pi)).
Fixpoint disks_from (n : nat) (d : D) (ABAR i c : Z) : list Port :=
  match n with
  | O => []
  | Datatypes.S n => if is_disk d ABAR i then mkPort (ABAR + Ports i) (type_at d (ABAR + Ports i)) c :: disks_from n d ABAR (i + 1) (c + 1)
                     else disks_from n d ABAR (i + 1) c
  end.
Definition disks (d : D) (ABAR : Z) : list Port := disks_from 32 d ABAR 0 0.

Lemma disks_from_length n d ABAR i c : (length (disks_from n d ABAR i c) <= n)%nat.
Proof. revert i c. induction n as [|n IH]; intros i c; cbn [disks_from]; [done|]. pose proof (IH (i + 1) (c + 1)). pose proof (IH (i + 1) c). destruct (is_disk _ _ _); cbn [length]; lia. Qed.
Lemma disks_from_base n d ABAR i c P : P ∈ disks_from n d ABAR i c -> exists j, i <= j < i + Z.of_nat n /\ HBA P = ABAR + Ports j.
Proof.
  revert i c. induction n as [|n IH]; intros i c; cbn [disks_from]; [by intros ?%elem_of_nil|].
  destruct (is_disk d ABAR i); [intros [->|HP]%elem_of_cons; [exists i; split; [lia|done]|]|intros HP]; apply IH in HP as (j & Hj & E); exists j; split; (lia || done).
Qed.
Lemma disks_from_apart n d ABAR i c : ForallOrdPairs (fun P Q => other_port (HBA P) (HBA Q)) (disks_from n d ABAR i c).
Proof.
  revert i c. induction n as [|n IH]; intros i c; cbn [disks_from]; [constructor|]. destruct (is_disk d ABAR i); [|apply IH].
  constructor; [|apply IH]. apply Forall_forall. intros Q (j & Hj & E)%disks_from_base. rewrite E. cbn [HBA]. unfold other_port, Ports. lia.
Qed.

Lemma probe_loop_spec n ABAR i found c (s : system S D) :
  0 <= i -> i + Z.of_nat n <= 32 -> 0 <= c -> c + Z.of_nat n < 256 ->
  exists found', probe_loop n ABAR (rd (ABAR + PortsImplemented) (dev s)) i found c s
      = Ret (found', c + Z.of_nat (length (disks_from n (dev s) ABAR i c))) s /\
    (forall k, k < c -> found' k = found k) /\
    (forall k P, disks_from n (dev s) ABAR i c !! k = Some P -> found' (c + Z.of_nat k) = P).
Proof.
  revert i found c. induction n as [|n IH]; intros i found c Hi0 Hi Hc0 Hc; cbn [probe_loop disks_from].
  { exists found. split; [cbn [length]; by rewrite Z.add_0_r|]. split; [done|]. intros k P. by rewrite lookup_nil. }
  rewrite u32_id by (rewrite Z.shiftl_1_l; split; [apply Z.pow_nonneg; lia|apply Z.pow_lt_mono_r; lia]). rewrite bit_test by lia. unfold is_disk.
  destruct (Z.testbit _ i); cbn [andb]; [|destruct (IH (i + 1) found c) as (f' & E & Hk & Hl); [lia..|]; by exists f'].
  rewrite (bind_ret _ _ _ _ _ (GetPortType_ret _ _)). destruct (bool_decide _ || bool_decide _); [|destruct (IH (i + 1) found c) as (f' & E & Hk & Hl); [lia..|]; by exists f'].
  rewrite u8_id by lia.
  match goal with |- context [probe_loop n _ _ _ ?f _] => destruct (IH (i + 1) f (c + 1)) as (f' & E & Hk & Hl); [lia..|] end.
  exists f'. rewrite E. cbn [length]. split; [do 2 f_equal; lia|]. split.
  - intros k Hkc. rewrite Hk by lia. destruct (Z.eqb_spec k c); [lia|done].
  - intros [|k] P HP; [|rewrite <- (Hl k P HP); f_equal; lia]. injection HP as <-. rewrite Hk, Z.add_0_r by lia. by rewrite Z.eqb_refl.
Qed.

Lemma ProbePorts_spec ABAR found (s : system S D) :
  exists ports, ProbePorts ABAR found 0 s = Ret (ports, Z.of_nat (length (disks (dev s) ABAR))) s /\
    forall k P, disks (dev s) ABAR !! k = Some P -> ports (0 + Z.of_nat k) = P.
Proof.
  destruct (probe_loop_spec 32 ABAR 0 found 0 s) as (ports & E & _ & Hports); [lia..|]. rewrite Z.add_0_l in E. unfold disks.
  exists ports. split; [|exact Hports]. unfold ProbePorts. rewrite (bind_ret _ _ _ _ _ (get_reg_ret _ _)). exact E.
Qed.

(** ** The constructor *)

Lemma map_step a s g p :
  h_inv (host s) g -> quiet (dev s) -> a mod 4096 = 0 -> 0 <= a -> a + 4096 <= 2 ^ 48 -> h_need (host s) a <= h_pages (host s) ->
  exists s' g', on_host (h_map a) s = Ret tt s' /\ dev s' = dev s /\ effect s g s' g' p none (h_need (host s) a).
Proof.
  intros Hi Hq Ha Ha0 Ha1 Hn. destruct (h_map_ret _ _ _ Hi Ha Ha0 Ha1 Hn) as (h' & g' & E & Hi' & _ & Hp & _ & Hl & Hd).
  exists (mkSystem h' (dev s)), g'. split; [exact (zoom_ret host set_host _ s _ _ E)|]. split; [done|].
  split; cbn [host dev]; try done; intros x Hx; [|intros _]; by apply Hd.
Qed.

Record driver_ready (s : system S D) (g : h_ghost) (str Base : Z) (disk : Z -> Z -> Z -> Z) : Prop := {
  rd_inv : h_inv (host s) g;
  rd_quiet : quiet (dev s);
  rd_low : h_low (host s);
  rd_str : str <> 0 /\ mark_in (h_mem (host s)) str;
  rd_data x : within str 4 x \/ within (Base + 0x24) 4 x -> h_data (host s) g x;
  rd_abar : ld 4 (h_mem (host s)) (Base + 0x24) mod 4096 = 0;
  rd_drives P : P ∈ disks (dev s) (ld 4 (h_mem (host s)) (Base + 0x24)) -> drive (dev s) (HBA P) Unknown (disk (HBA P))
}.

Lemma AhciDriver_runs fuel str Base found Root s g disk :
  driver_ready s g str Base disk -> (latency <= fuel)%nat ->
  let ps := disks (dev s) (ld 4 (h_mem (host s)) (Base + 0x24)) in
  7 + 34 * Z.of_nat (length ps) <= h_pages (host s) ->
  exists s' g' buf pages, AhciDriver fuel str Base found 0 Root s = Ret (last_marked disk ps Root) s' /\
    driving s' g' str buf /\ Forall2 (fun P l => up s' g' buf (HBA P) l (disk (HBA P))) ps pages /\ fresh_pages s g s' g' (buf :: concat pages) /\
    (forall x, h_data (host s) g x -> h_data (host s') g' x /\ ld8 (h_mem (host s')) x = ld8 (h_mem (host s)) x) /\
    h_pages (host s) <= 7 + 34 * Z.of_nat (length ps) + h_pages (host s').
Proof.
  intros [Hi Hq Hl Hs Hd Hab Hdr] Hf ps Hpg. unfold AhciDriver. set (ABAR := ld 4 (h_mem (host s)) (Base + 0x24)) in *.
  pose proof (ld_range 4 (h_mem (host s)) (Base + 0x24)) as Har. fold ABAR in Har. change (256 ^ Z.of_nat 4) with (2 ^ 32) in Har.
  destruct (alloc_step s g 0 Hi Hq ltac:(lia)) as (buf & s1 & E1 & D1 & F1 & A1 & N1 & Z1 & P1). rewrite (bind_ret _ _ _ _ _ E1).
  assert (El : load 4 (Base + 0x24) s1 = Ret ABAR s1).
  { unfold load, gets. f_equal. apply ld_ext. intros x Hx. apply F1; [|apply not_none]. apply Hd. unfold within. lia. }
  rewrite (bind_ret _ _ _ _ _ El). pose proof (h_need_range (host s1) ABAR) as Hn1.
  destruct (map_step ABAR s1 g 0) as (s2 & g2 & E2 & D2 & F2); [apply F1|apply F1|done|lia..|]. rewrite (bind_ret _ _ _ _ _ E2).
  assert (Ed : dev s2 = dev s) by congruence.
  assert (Hdv : driving s2 g2 str buf).
  { pose proof (np_page _ _ _ _ A1) as (B1 & B2 & _). pose proof (np_low _ _ _ _ A1 Hl). destruct Hs as [Hs Hm].
    assert (Hin : forall x, within buf 4096 x -> h_data (host s2) g2 x) by (intros x Hx; by apply F2, A1).
    split; [apply F2|apply F2|by apply F2, F1|split; [done|]| |lia|done|].
    - intros j Hj. assert (h_data (host s) g (str + Z.of_nat j)) by (apply Hd; unfold within; lia).
      rewrite (ef_mem _ _ _ _ _ _ _ F2), (ef_mem _ _ _ _ _ _ _ F1) by (try apply not_none; try apply F1; done). by apply Hm.
    - intros x Hx. split; [apply F2, F1, Hd; by left|]. pose proof (np_fresh _ _ _ _ A1 x (Hd x (or_introl Hx))). unfold within in *. lia.
    - intros x Hx. rewrite (ef_mem _ _ _ _ _ _ _ F2); [apply Z1|apply A1|apply not_none]; unfold within in *; lia. }
  destruct (ProbePorts_spec ABAR found s2) as (ports & Ep & Hports). rewrite Ed in Ep, Hports.
  assert (Hap : ForallOrdPairs (fun P Q => other_port (HBA P) (HBA Q)) (disks (dev s) ABAR)) by apply disks_from_apart.
  fold ps in Ep, Hports, Hap, Hdr. clearbody ps.
  rewrite (bind_ret _ _ _ _ _ Ep). cbn [fst snd]. rewrite Nat2Z.id.
  pose proof (ef_pages _ _ _ _ _ _ _ F2) as Hp2. pose proof (h_need_range (host s2) buf) as Hn2.
  destruct (ports_loop_spec fuel ports str buf disk ps 0 Root s2 g2 Hdv Hf) as (s3 & g3 & pages & E4 & Hdv3 & Hup & A3 & _ & Hk & Hp3);
    [exact Hports|rewrite Ed; exact Hdr|exact Hap|lia|].
  exists s3, g3, buf, pages. split; [exact E4|]. split; [exact Hdv3|]. split; [exact Hup|]. split; [|split; [|lia]].
  { apply (fresh_app s g s2 g2 s3 g3 [buf]); [apply (fresh_keep s g s1 g); [by apply fresh_page|apply F2]|exact A3|intros x Hx; by apply F2, F1|apply Hk]. }
  intros x Hx. pose proof (np_fresh _ _ _ _ A1 x Hx). destruct (Hk x) as [Hx3 Hm3]; [by apply F2, F1|]. split; [done|].
  rewrite Hm3, (ef_mem _ _ _ _ _ _ _ F2), (ef_mem _ _ _ _ _ _ _ F1) by (try apply not_none; try apply F1; unfold within; first [done|lia]). done.
Qed.
End Steps.

(** ** Properties *)


(** A controller at 0xFEBF1000, as BAR5 at 0x1024 says, with one disk, whose
    engine the firmware left running; its first sector has the mark at 3. *)
Definition root_disk (l o : Z) : Z := if l =? 0 then nth (Z.to_nat o) [0xEB; 0x3C; 0x90; 0x52; 0x4F; 0x4F; 0x54] 0 else l.
Definition booted : system flat ssd :=
  mkSystem (mkFlat (st 4 (st 4 ∅ 0x2000 0x544F4F52) 0x1024 0xFEBF1000) 0x10000)
    (mkSsd root_disk 0xFEBF1100 true true 0x7000 0 0x8000 0 0 0).

Lemma booted_disks : disks (dev booted) (ld 4 (h_mem (host booted)) (0x1000 + 0x24)) = [mkPort 0xFEBF1100 SATA 0].
Proof. vm_compute. reflexivity. Qed.

Lemma booted_ready : driver_ready booted tt 0x2000 0x1000 (fun _ l o => u8 (root_disk l o)).
Proof.
  split.
  - split; [reflexivity|cbn; lia].
  - split; [reflexivity|cbn; lia].
  - done.
  - split; [done|]. intros j Hj. do 4 (destruct j as [|j]; [reflexivity|]). lia.
  - unfold within. cbn. lia.
  - reflexivity.
  - rewrite booted_disks. intros P ->%list_elem_of_singleton. done.
Qed.


End AhciInit.
