(* ===== verification/DiskIo.v ===== *)
(** The disk of the file system (kernel/Fat/diskio.cpp) on the AHCI driver,
    with the page tables as its host, and the proof that it is a disk as the
    file system requires one. *)

From stdpp Require Import base tactics list gmap numbers option strings.
From Stdlib Require Import ZArith Lia.
From S2P Require Import Prelude Mem Console Pmm Ptm Pff Ahci AhciInit.

#[local] Open Scope Z_scope.

(** ** The page tables as the driver's host *)

Module PtmHost.
Import Prelude Mem Ptm.

Section Tables.
Context {S : Type} `{PageSource S}.

(** The tables depend only on the bytes in table pages. *)
Definition same_tables (m m' : gmap Z Z) (T : gmap Z nat) : Prop :=
  forall t l i, T !! t = Some l -> 0 <= i < 512 -> ent m' t i = ent m t i.

Lemma tree_same m m' root T : same_tables m m' T -> tree m root T -> tree m' root T.
Proof.
  intros He HT. split.
  - apply HT.
  - apply HT.
  - intros t l i Ht Hi. rewrite (He _ _ _ Ht Hi). by apply (tr_child _ _ _ HT).
  - intros t t' l l' i i' Ht Ht' Hi Hi'. rewrite (He _ _ _ Ht Hi), (He _ _ _ Ht' Hi').
    exact (tr_inj _ _ _ HT t t' l l' i i' Ht Ht' Hi Hi').
Qed.

Lemma missing_same m m' root T va : same_tables m m' T -> tree m root T -> missing m' root va = missing m root va.
Proof.
  intros He HT. unfold missing. pose proof (tr_root _ _ _ HT) as Hr.
  rewrite (He _ _ _ Hr (index_range va 4)). destruct (Present (ent m root _)) eqn:E4; cbn [negb]; [|done].
  pose proof (tr_child _ _ _ HT _ _ _ Hr (index_range va 4) E4) as H3.
  rewrite (He _ _ _ H3 (index_range va 3)). destruct (Present (ent m (frame _) _)) eqn:E3; cbn [negb]; [|done].
  pose proof (tr_child _ _ _ HT _ _ _ H3 (index_range va 3) E3) as H2.
  by rewrite (He _ _ _ H2 (index_range va 2)).
Qed.

(** A byte in no table of [T] and in no free page. *)
Definition outside (s : ptm S) (T : gmap Z nat) (x : Z) : Prop :=
  (forall t l, T !! t = Some l -> x < t \/ t + 4096 <= x) /\
  (forall a, ps_free (src s) a -> x < a \/ a + 4096 <= x).

Definition set_pmem (m : gmap Z Z) (s : ptm S) : ptm S := mkPtm (ps_set_mem m (src s)) (CurrentPageTableEntry s).

Lemma pmem_set m s : pmem (set_pmem m s) = m.
Proof. apply ps_mem_set. Qed.

Lemma data_same m s T :
  (forall x, ~ outside s T x -> ld8 m x = ld8 (pmem s) x) -> same_tables (pmem s) m T.
Proof.
  intros Hx t l i Ht Hi. unfold ent. apply ld_ext. intros x Hr. apply Hx. intros [Ho _].
  specialize (Ho t l Ht). lia.
Qed.

Lemma set_pmem_inv m s root T :
  pt_inv s root T -> (forall x, ~ outside s T x -> ld8 m x = ld8 (pmem s) x) -> pt_inv (set_pmem m s) root T.
Proof.
  intros (Hs & HT & Hu) Hx. split; [|split].
  - by apply ps_set_inv.
  - rewrite pmem_set. eapply tree_same; [|exact HT]. by apply data_same.
  - intros t l Ht Hf. apply (Hu t l Ht). by apply ps_set_free in Hf.
Qed.

(** Mapping one page to itself. *)
Lemma map_identity s root T p :
  pt_inv s root T -> p mod 4096 = 0 -> 0 <= p -> p + 4096 <= 2 ^ 48 ->
  missing (pmem s) root p <= Z.of_nat (ps_count (src s)) ->
  exists s' T', MapMemory root p p 4096 s = Ret tt s' /\ pt_inv s' root T' /\
    missing (pmem s') root p = 0 /\ extends (missing (pmem s) root p) s s' T T' /\
    forall x, outside s T x -> outside s' T' x /\ ld8 (pmem s') x = ld8 (pmem s) x.
Proof.
  intros Hinv Hal H0 H1 Hc.
  destruct (MapPage_spec s root T p p Hinv Hc) as (s' & T' & E & Hinv' & Ex & Hmiss & _); [lia..|].
  exists s', T'. split; [|split; [done|split; [done|split; [done|]]]].
  - unfold MapMemory. rewrite u64_id by lia. change (Z.to_nat ((4096 + 4095) / 4096)) with 1%nat. cbn [MapMemory_loop].
    destruct (Z.ltb_spec p (p + 4096)); [|lia]. rewrite (bind_ret _ _ _ _ _ E).
    rewrite u64_id by lia. destruct (Z.ltb_spec (p + 4096) (p + 4096)); [lia|done].
  - intros x [Ht Hf].
    assert (Ho : outside s' T' x).
    { split.
      - intros t l Hl. destruct (ex_new _ _ _ _ _ Ex t l Hl) as [Hl'|[_ Hfr]]; [by apply (Ht t l)|by apply Hf].
      - intros a Ha. apply Hf. by apply (ex_free _ _ _ _ _ Ex). }
    split; [done|]. apply (ex_mem _ _ _ _ _ Ex). apply Ho.
Qed.

(** Two pages are the same or apart. *)
Lemma pages_apart a b : a mod 4096 = 0 -> b mod 4096 = 0 -> a <> b -> a + 4096 <= b \/ b + 4096 <= a.
Proof. intros. zdm. Qed.

(** Taking a page out of the free ones, with whatever is written into it. *)
Record takes (s s' : ptm S) (a : Z) : Prop := {
  tk_inv : ps_inv (src s');
  tk_free : ps_free (src s) a;
  tk_gone : ~ ps_free (src s') a;
  tk_left b : ps_free (src s') b -> ps_free (src s) b;
  tk_count : ps_count (src s) = Datatypes.S (ps_count (src s'));
  tk_mem x : x < a \/ a + 4096 <= x -> ld8 (pmem s') x = ld8 (pmem s) x
}.

Lemma takes_spec s s' root T a :
  pt_inv s root T -> takes s s' a ->
  pt_inv s' root T /\ (forall p, missing (pmem s') root p = missing (pmem s) root p) /\
  (forall x, outside s T x -> (x < a \/ a + 4096 <= x) /\ outside s' T x) /\
  (forall x, a <= x < a + 4096 -> outside s' T x).
Proof.
  intros (Hs & HT & Hu) Ht. pose proof (ps_free_page _ _ Hs (tk_free _ _ _ Ht)) as (Ha & Ha0 & _).
  assert (Hap : forall t l, T !! t = Some l -> t + 4096 <= a \/ a + 4096 <= t).
  { intros t l Hl. apply pages_apart; [apply (tr_page _ _ _ HT _ _ Hl)|done|].
    intros ->. exact (Hu _ _ Hl (tk_free _ _ _ Ht)). }
  assert (Hst : same_tables (pmem s) (pmem s') T).
  { intros t l i Hl Hi. unfold ent. apply ld_ext. intros x Hx. apply Ht. specialize (Hap _ _ Hl). lia. }
  split; [|split; [|split]].
  - split; [apply Ht|]. split; [by eapply tree_same|]. intros t l Hl Hf. apply (Hu _ _ Hl). by apply Ht.
  - intros p. by apply (missing_same _ _ _ T).
  - intros x [Hx1 Hx2]. split; [by apply Hx2, Ht|]. split; [done|]. intros b Hb. by apply Hx2, Ht.
  - intros x Hx. split.
    + intros t l Hl. specialize (Hap _ _ Hl). lia.
    + intros b Hb. pose proof (ps_free_page _ _ Hs (tk_left _ _ _ Ht _ Hb)) as (Hb0 & _).
      assert (b + 4096 <= a \/ a + 4096 <= b) by (apply pages_apart; [done|done|]; intros ->; by apply (tk_gone _ _ _ Ht)). lia.
Qed.

Lemma AllocateEmptyPage_takes s : ps_inv (src s) -> ps_count (src s) <> O ->
  exists a s', AllocateEmptyPage s = Ret a s' /\ takes s s' a /\ pmem s' = memset (pmem s) a 0 4096.
Proof.
  intros Hs Hc. destruct (ps_alloc_live _ Hs Hc) as (a & t & E).
  destruct (ps_alloc_ret _ _ _ Hs E) as (H1 & H2 & H3 & H4 & H5 & H6).
  exists a. eexists. split; [unfold AllocateEmptyPage; by apply zoom_ret|]. split; [|exact H5]. split; [exact H1|exact H2|exact H3|exact H4|exact H6|].
  intros x Hx. unfold pmem. cbn [src]. rewrite H5. apply ld8_memset_out; lia.
Qed.

(** All pages that are left lie below 4 GiB. *)
Definition low (s : ptm S) : Prop := forall a, ps_free (src s) a -> a + 4096 <= 2 ^ 32.

(** The driver's host: the tables below [root], the global [Pml4]. *)
Program Definition ptm_host (root : Z) : Host (ptm S) := {|
  h_mem := pmem;
  h_set_mem := set_pmem;
  h_map p := MapMemory root p p 4096;
  h_alloc := AllocateEmptyPage;
  h_ghost := gmap Z nat;
  h_inv s T := pt_inv s root T;
  h_data := outside;
  h_need s p := missing (pmem s) root p;
  h_pages s := Z.of_nat (ps_count (src s));
  h_low := low
|}.
Next Obligation. intros root m s. apply pmem_set. Qed.
Next Obligation. intros root m m' s. unfold set_pmem. cbn [src CurrentPageTableEntry]. by rewrite ps_set_set. Qed.
Next Obligation. intros root m s g. by apply set_pmem_inv. Qed.
Next Obligation.
  intros root m s g x. unfold outside, set_pmem. cbn [src]. setoid_rewrite ps_set_free. done.
Qed.
Next Obligation.
  intros root m s g p (_ & HT & _) Hx. cbv beta. rewrite pmem_set. apply (missing_same _ _ _ g); [by apply data_same|done].
Qed.
Next Obligation. intros root m s. unfold set_pmem. cbn [src]. by rewrite ps_set_count. Qed.
Next Obligation. intros root m s Hl a Ha. apply Hl. by apply ps_set_free in Ha. Qed.
Next Obligation. intros root s p. apply missing_range. Qed.
Next Obligation.
  intros root s g p Hinv Ha H0 H1 Hn. destruct (map_identity s root g p Hinv Ha H0 H1 Hn) as (s' & T' & E & Hinv' & Hm & Ex & Hx).
  exists s', T'. pose proof (ex_count _ _ _ _ _ Ex). split_and!; try done; try lia. intros Hl a Hfa. by apply Hl, (ex_free _ _ _ _ _ Ex).
Qed.
Next Obligation.
  intros root s g Hinv Hp. destruct (AllocateEmptyPage_takes s) as (a & s' & E & Ht & Hm); [apply Hinv|lia|].
  destruct (takes_spec s s' root g a Hinv Ht) as (Hinv' & Hmiss & Hout & Hin).
  pose proof (ps_free_page _ _ (proj1 Hinv) (tk_free _ _ _ Ht)) as (Ha & Ha0 & Ha1). pose proof (tk_count _ _ _ Ht).
  exists a, s'. split; [exact E|]. split; [exact Hinv'|]. split; [exact Ha|]. split; [exact Ha0|]. split; [exact Ha1|]. split.
  { intros Hl. split; [apply Hl, Ht|]. intros b Hb. by apply Hl, Ht. }
  split; [lia|]. split; [exact Hmiss|]. split; [exact Hm|]. split; assumption.
Qed.

End Tables.
End PtmHost.

Module DiskIo.
Import Prelude Mem Ahci AhciInit.
#[local] Open Scope lofi_scope.

(** ** diskio.cpp

    [RootBuffer] is the global buffer; [Root], the port the driver found, is
    a parameter. *)
Section Ops.
Context {S D : Type} `{Host S} `{Hba D}.
Context (AllocatePage : M S Z) (Root : Port) (fuel : nat).

Record diskio := mkDiskIo { sys : system S D; RootBuffer : Z }.
Definition set_sys (x : system S D) (s : diskio) : diskio := mkDiskIo x (RootBuffer s).
Definition set_RootBuffer (x : Z) (s : diskio) : diskio := mkDiskIo (sys s) x.
Definition on_sys {A} (c : M (system S D) A) : M diskio A := zoom sys set_sys c.

Definition disk_initialize : M diskio Z :=
  let* b := gets RootBuffer in
  (if b =? 0 then
     let* p := on_sys (on_host AllocatePage) in
     modify (set_RootBuffer p) ;;;
     on_sys (update (fun m => memset m p 0 512))
   else ret tt) ;;;
  ret 0.

(** [for (i = offset; i < offset + count; i++) { buff[j] = Root->Buffer[i]; j++; }]:
    the bytes stored. *)
Fixpoint copy_loop (n : nat) (m : gmap Z Z) (Buffer i : Z) : list Z :=
  match n with
  | O => []
  | Datatypes.S n' => ld8 m (Buffer + i) :: copy_loop n' m Buffer (i + 1)
  end.

(** Returns the bytes stored through [buff], or [None] for RES_ERROR. *)
Definition disk_readp (sector offset count : Z) : M diskio (option (list Z)) :=
  let* Buffer := gets RootBuffer in
  on_sys (update (fun m => memset m Buffer 0 512)) ;;;
  let* ok := on_sys (Read fuel Root sector 1 Buffer) in
  if ok : bool then
    let* m := gets (fun s => h_mem (host (sys s))) in
    ret (Some (copy_loop (Z.to_nat (u32 (offset + count) - offset)) m Buffer offset))
  else ret None.

End Ops.
Arguments mkDiskIo {S D} _ _.
Arguments sys {S D} _.
Arguments RootBuffer {S D} _.

(** ** Lemmas *)

Section Spec.
Context {S D : Type} `{Host S} `{AtaDisk D}.
Context (Root : Port) (fuel : nat) (Hfuel : (latency <= fuel)%nat).

(** The port is configured, its disk holds [data], and the page of
    [RootBuffer] is its buffer. *)
Definition disk_ok (data : Z -> Z -> Z) (s : diskio) : Prop :=
  RootBuffer s <> 0 /\ exists g clb ct fb, port_ready (sys s) g (HBA Root) clb ct fb (RootBuffer s) data.

Lemma copy_loop_spec n m b i :
  copy_loop n m b i = (fun k => ld8 m (b + (i + Z.of_nat k))) <$> seq 0 n.
Proof.
  revert i. induction n as [|n IH]; intros i; cbn [copy_loop seq]; [done|].
  rewrite fmap_cons, Z.add_0_r. f_equal. rewrite IH, <- fmap_S_seq, <- list_fmap_compose.
  apply list_fmap_ext. intros j k _. cbn [compose]. f_equal. lia.
Qed.

Lemma disk_readp_ok data sector_no offset count s :
  disk_ok data s -> 0 <= sector_no < 2 ^ 32 -> 0 <= offset -> 0 <= count ->
  exists bs s', disk_readp Root fuel sector_no offset count s = Ret (Some bs) s' /\ disk_ok data s' /\
    RootBuffer s' = RootBuffer s /\
    (offset + count <= 512 ->
     bs = (fun i => data (sector_no mod 2 ^ 24) (offset + Z.of_nat i)) <$> seq 0 (Z.to_nat count)).
Proof.
  intros (Hb & g & clb & ct & fb & Hr) HS Ho Hc. unfold disk_readp.
  unfold bind at 1, gets at 1. unfold on_sys.
  rewrite (bind_ret _ _ _ _ _ (zoom_ret sys set_sys _ s _ _ (update_ret _ _))). cbn [sys set_sys].
  destruct (clear_ready _ _ _ _ _ _ _ _ Hr) as (Hr1 & _). set (s1 := mkSystem _ (dev (sys s))) in *.
  destruct (Read_sector fuel Root sector_no _ s1 g clb ct fb data Hr1 Hfuel ltac:(lia)) as (s2 & g2 & E & Hr2 & Hbuf & _).
  rewrite (bind_ret _ _ _ _ _ (zoom_ret sys set_sys _ (set_sys s1 s) _ _ E)).
  unfold bind, gets, ret. cbn [sys set_sys RootBuffer].
  eexists _, _. split; [reflexivity|]. split; [|split; [done|]].
  - split; [done|]. by exists g2, clb, ct, fb.
  - intros H512. rewrite u32_id by lia. replace (offset + count - offset) with count by lia. rewrite copy_loop_spec. apply list_fmap_ext. intros j k Hk. apply lookup_seq in Hk as [-> Hk].
    rewrite Hbuf by lia. rewrite lba_of_folds by done. done.
Qed.

(** ** From the driver's constructor to a disk *)

(** What [AllocatePage] does: it takes a page from the free ones, with
    whatever it contains. *)
Definition gives_pages (AllocatePage : M S Z) : Prop :=
  forall s g, h_inv s g -> 0 < h_pages s ->
  exists a s', AllocatePage s = Ret a s' /\ h_inv s' g /\ a mod 4096 = 0 /\ 0 < a /\
    (h_low s -> a + 4096 <= 2 ^ 32) /\ h_pages s' = h_pages s - 1 /\ (forall p, h_need s' p = h_need s p) /\
    (forall x, x < a \/ a + 4096 <= x -> ld8 (h_mem s') x = ld8 (h_mem s) x) /\
    (forall x, h_data s g x -> (x < a \/ a + 4096 <= x) /\ h_data s' g x) /\
    (forall x, within a 4096 x -> h_data s' g x).

Lemma disk_initialize_ready AllocatePage (s : diskio) g buf l data :
  gives_pages AllocatePage -> RootBuffer s = 0 -> h_inv (host (sys s)) g -> quiet (dev (sys s)) -> h_low (host (sys s)) ->
  4 <= h_pages (host (sys s)) -> up (sys s) g buf (HBA Root) l data ->
  exists s', disk_initialize AllocatePage s = Ret 0 s' /\ disk_ok data s'.
Proof.
  intros Hg Hb Hi Hq Hl Hp (clb & ct & fb & Hc & _)%up_configured.
  destruct (Hg _ _ Hi ltac:(lia)) as (a & h1 & E1 & Hi1 & Ha & Ha0 & Ha1 & P1 & N1 & Hm & Hd & Hin). specialize (Ha1 Hl).
  set (s1 := mkSystem h1 (dev (sys s))).
  assert (Hcd : forall c n, 0 < n -> (forall x, within c n x -> h_data (host (sys s)) g x) -> apart c n a 4096).
  { intros c n Hn Hx. unfold apart. destruct (decide (c + n <= a \/ a + 4096 <= c)) as [|Hno]; [done|].
    destruct (Hd (Z.max c a)) as [Hf _]; [apply Hx; unfold within; lia|lia]. }
  pose proof (cf_data _ _ _ _ _ _ _ Hc) as Hcf. pose proof (h_need_range h1 a).
  assert (Hr : port_ready s1 g (HBA Root) clb ct fb a data).
  { split; [exact Hi1|exact Hq| |].
    - apply (configured_keep (sys s) g); [done|apply Hc|intros x Hx; by apply Hd|].
      intros x Hx. apply Hm. apply Hd, Hcf. unfold within in *. lia.
    - split; [lia|cbn [s1 host]; lia| |exact Hin]. split_and!; apply Hcd; try lia; intros x Hx; apply Hcf; tauto. }
  destruct (clear_ready _ _ _ _ _ _ _ _ Hr) as (Hr2 & _).
  exists (mkDiskIo (mkSystem (h_set_mem (memset (h_mem h1) a 0 512) h1) (dev (sys s))) a). split.
  - unfold disk_initialize. unfold bind at 1 2, gets. rewrite Hb. cbn [Z.eqb].
    assert (Ea : on_sys (on_host AllocatePage) s = Ret a (set_sys s1 s)).
    { unfold on_sys, on_host. apply (zoom_ret sys set_sys _ s a s1). by apply (zoom_ret host set_host _ (sys s) a h1). }
    rewrite (bind_ret _ _ _ _ _ Ea). reflexivity.
  - split; [cbn [RootBuffer]; lia|]. exists g, clb, ct, fb. exact Hr2.
Qed.

(** ** The disk the file system sees *)
Context (data : Z -> Z -> Z).

Definition ready_disk : Type := { s : diskio | disk_ok data s }.

(** The result of a routine that keeps the disk ready. *)
Definition keep_ok (o : outcome diskio (option (list Z))) (K : forall r s', o = Ret r s' -> disk_ok data s') (d : ready_disk)
  : option (list Z) * ready_disk :=
  match o as o' return ((forall r s', o' = Ret r s' -> disk_ok data s') -> option (list Z) * ready_disk) with
  | Ret r s' => fun K => (r, exist _ s' (K r s' eq_refl))
  | _ => fun _ => (None, d)
  end K.

Lemma keep_ok_ret o K d r s' : o = Ret r s' -> exists Hs, keep_ok o K d = (r, exist _ s' Hs).
Proof. intros E. subst o. eexists. reflexivity. Qed.

Lemma readp_keeps sct ofs cnt (d : ready_disk) r s' :
  disk_readp Root fuel (u32 sct) (u32 ofs) (u32 cnt) (proj1_sig d) = Ret r s' -> disk_ok data s'.
Proof.
  destruct d as [s Hs]. cbn [proj1_sig]. intros E.
  destruct (disk_readp_ok data (u32 sct) (u32 ofs) (u32 cnt) s Hs) as (bs & s1 & E1 & Hs1 & _);
    [apply u32_range|apply u32_range|apply u32_range|]. rewrite E1 in E. by injection E as <- <-.
Qed.

Definition ready_readp (sct ofs cnt : Z) (d : ready_disk) : option (list Z) * ready_disk :=
  keep_ok _ (readp_keeps sct ofs cnt d) d.

Lemma ready_readp_spec sct ofs cnt (d : ready_disk) :
  exists bs d', ready_readp sct ofs cnt d = (Some bs, d') /\
    (0 <= ofs -> 0 <= cnt -> ofs + cnt <= 512 ->
     bs = (fun i => data (u32 sct mod 2 ^ 24) (ofs + Z.of_nat i)) <$> seq 0 (Z.to_nat cnt)).
Proof.
  destruct (disk_readp_ok data (u32 sct) (u32 ofs) (u32 cnt) (proj1_sig d) (proj2_sig d)) as (bs & s1 & E1 & Hs1 & _ & Hbs);
    [apply u32_range|apply u32_range|apply u32_range|].
  destruct (keep_ok_ret _ (readp_keeps sct ofs cnt d) d _ _ E1) as (Hs & E).
  exists bs, (exist _ s1 Hs). split; [exact E|].
  intros Ho Hc H512. rewrite (u32_id ofs), (u32_id cnt) in Hbs by lia. by apply Hbs.
Qed.

Lemma ready_byte (d : ready_disk) l o : 0 <= data l o < 256.
Proof. destruct d as (s & _ & g & clb & ct & fb & Hr). exact (drive_byte _ _ _ _ l o (cf_drive _ _ _ _ _ _ _ (pr_conf _ _ _ _ _ _ _ _ Hr))). Qed.

(** [disk_initialize] finds its buffer already there. *)
Program Definition ahci_disk : Disk ready_disk := {|
  Pff.disk_initialize d := (0, d);
  Pff.disk_readp := ready_readp;
  img _ s o := data (u32 s mod 2 ^ 24) o;
  ready _ _ := True
|}.
Next Obligation. done. Qed.
Next Obligation. done. Qed.
Next Obligation.
  intros sct ofs cnt d bs d' Ho Hc H512 E. destruct (ready_readp_spec sct ofs cnt d) as (bs' & d1 & E' & Hbs).
  rewrite E' in E. injection E as <- <-. by apply Hbs.
Qed.
Next Obligation. intros d s o. apply (ready_byte d). Qed.
Next Obligation. done. Qed.
Next Obligation. done. Qed.
Next Obligation.
  intros sct ofs cnt d _ _ _ _. destruct (ready_readp_spec sct ofs cnt d) as (bs & d' & E & _). rewrite E. done.
Qed.

End Spec.

(** ** Properties *)

(** On an initialised disk whose controller keeps to the AHCI and ATA
    specifications, [disk_initialize] does nothing more and [disk_readp]
    stores the requested bytes of the requested sector, taken modulo 2^24,
    for every range inside the sector; the disk can be used again and holds
    the same data. *)
Theorem disk_readp_reads {S D : Type} `{Host S} `{AtaDisk D} AllocatePage (Root : Port) fuel (s : diskio) data
    sector_no offset count :
  (latency <= fuel)%nat -> disk_ok Root data s -> 0 <= sector_no < 2 ^ 32 -> 0 <= offset -> 0 <= count -> offset + count <= 512 ->
  disk_initialize AllocatePage s = Ret 0 s /\
  exists s', disk_readp Root fuel sector_no offset count s =
      Ret (Some ((fun i => data (sector_no mod 2 ^ 24) (offset + Z.of_nat i)) <$> seq 0 (Z.to_nat count))) s' /\
    disk_ok Root data s' /\ RootBuffer s' = RootBuffer s.
Proof.
  intros Hf Hs HS Ho Hc H512. split.
  - unfold disk_initialize, bind, gets. destruct Hs as [Hb _]. apply Z.eqb_neq in Hb. by rewrite Hb.
  - destruct (disk_readp_ok Root fuel Hf data sector_no offset count s Hs HS Ho Hc) as (bs & s' & E & Hs' & Hbuf & Hbs).
    exists s'. rewrite <- (Hbs H512). done.
Qed.

(** C40: From the controller to a disk the file system can read: after the
    constructor of [AhciDriver] found a marked disk, [disk_initialize]
    allocates its buffer, and from then on, however many sectors were read
    before, [disk_readp] on the [Root] port delivers the bytes of that disk for
    every range inside one sector ([offset + count <= 512], as the file system
    asks).  The sector is the requested one for numbers below 2^24; of a larger
    number, up to 2^32, only the low 24 bits reach the disk. *)
Theorem root_disk_ready {S D : Type} `{Host S} `{AtaDisk D} AllocatePage fuel str_ROOT Base_Address found (s : system S D) g disk :
  gives_pages AllocatePage -> driver_ready s g str_ROOT Base_Address disk -> (latency <= fuel)%nat ->
  let ps := disks (dev s) (ld 4 (h_mem (host s)) (Base_Address + 0x24)) in
  11 + 34 * Z.of_nat (length ps) <= h_pages (host s) ->
  exists s1, AhciDriver fuel str_ROOT Base_Address found 0 None s = Ret (last_marked disk ps None) s1 /\
    forall Root, last_marked disk ps None = Some Root ->
    Root ∈ ps /\ marked (disk (HBA Root)) = true /\
    exists s2, disk_initialize AllocatePage (mkDiskIo s1 0) = Ret 0 s2 /\ disk_ok Root (disk (HBA Root)) s2 /\
      forall t sector_no offset count, disk_ok Root (disk (HBA Root)) t ->
        0 <= sector_no < 2 ^ 32 -> 0 <= offset -> 0 <= count -> offset + count <= 512 ->
      exists t', disk_readp Root fuel sector_no offset count t =
          Ret (Some ((fun i => disk (HBA Root) (sector_no mod 2 ^ 24) (offset + Z.of_nat i)) <$> seq 0 (Z.to_nat count))) t' /\
        (sector_no < 2 ^ 24 -> sector_no mod 2 ^ 24 = sector_no) /\
        disk_ok Root (disk (HBA Root)) t'.
Proof.
  intros Hg Hr Hf ps Hp. assert (Hp7 : 7 + 34 * Z.of_nat (length ps) <= h_pages (host s)) by lia.
  destruct (AhciDriver_runs fuel str_ROOT Base_Address found None s g disk Hr Hf Hp7) as (s1 & g1 & buf & pages & E & Hdv & Hup & _ & _ & Hp1).
  fold ps in E, Hup, Hp1. clearbody ps. exists s1. split; [exact E|]. intros Root HR. destruct (last_marked_Some _ _ _ HR) as [Hin Hmk].
  split; [exact Hin|]. split; [exact Hmk|]. apply list_elem_of_lookup in Hin as (k & Hk). destruct (Forall2_lookup_l _ _ _ _ _ Hup Hk) as (l & _ & Hl).
  destruct (disk_initialize_ready Root fuel Hf AllocatePage (mkDiskIo s1 0) g1 buf l (disk (HBA Root)) Hg) as (s2 & E2 & Hok);
    [reflexivity|exact (dv_inv _ _ _ _ Hdv)|exact (dv_quiet _ _ _ _ Hdv)|exact (dv_low _ _ _ _ Hdv)|cbn [sys]; lia|exact Hl|].
  exists s2. split; [exact E2|]. split; [exact Hok|]. intros t n o c Ht Hn Ho Hc H512.
  destruct (disk_readp_ok Root fuel Hf (disk (HBA Root)) n o c t Ht) as (bs & t' & E3 & Hok3 & _ & Hbs); [lia..|].
  exists t'. rewrite <- (Hbs H512). split; [exact E3|]. split; [intros; apply Z.mod_small; lia|exact Hok3].
Qed.

(** ** The page tables of the kernel

    [AllocatePage] of the page allocator gives pages to the driver. *)
Definition tables_AllocatePage (l : list Pmm.limine_memmap_entry) : M (Ptm.ptm Pmm.pmm) Z :=
  zoom Ptm.src (fun t s => Ptm.mkPtm t (Ptm.CurrentPageTableEntry s)) (Pmm.AllocatePage l).

Lemma AllocateEmptyPage_inv l s a t :
  Pmm.AllocateEmptyPage l s = Ret a t ->
  exists t1, Pmm.AllocatePage l s = Ret a t1 /\ t = Pmm.set_mem (fun m => memset m a 0 4096) t1.
Proof.
  intros (a1 & t1 & E1 & E2)%bind_ret_inv. exists t1. apply bind_ret_inv in E2 as ([] & t2 & E2 & E3).
  assert (Ea : a1 = a /\ t2 = t) by (by injection E3). destruct Ea as [-> ->]. split; [exact E1|]. by injection E2.
Qed.

Lemma mem_set_mem f s : Pmm.mem (Pmm.set_mem f s) = f (Pmm.mem s).
Proof. done. Qed.
Lemma memset_agree m1 m2 a v x : memset m1 a v 4096 = memset m2 a v 4096 -> x < a \/ a + 4096 <= x -> ld8 m1 x = ld8 m2 x.
Proof. intros E Hx. rewrite <- (ld8_memset_out m1 a v 4096), <- (ld8_memset_out m2 a v 4096) by lia. exact (f_equal (fun m => ld8 m x) E). Qed.

Lemma tables_give_pages l (Hl : Pmm.memmap_ok l) root :
  @gives_pages _ (@PtmHost.ptm_host _ (Ptm.pmm_source l Hl) root) (tables_AllocatePage l).
Proof.
  intros s g Hinv Hp. set (src := Ptm.pmm_source l Hl) in *.
  assert (Hps : ps_inv (Ptm.src s)) by apply Hinv.
  destruct (ps_alloc_live (Ptm.src s) Hps) as (a & t & E); [cbn [h_pages PtmHost.ptm_host] in Hp; lia|].
  destruct (Ptm.source_alloc_ret l Hl _ _ _ Hps E) as (H1 & H2 & H3 & H4 & H5 & H6).
  destruct (AllocateEmptyPage_inv _ _ _ _ E) as (t1 & E1 & Et).
  set (s' := Ptm.mkPtm t1 (Ptm.CurrentPageTableEntry s)).
  assert (Ht : PtmHost.takes s s' a).
  { rewrite Et in H1, H3, H4, H5, H6. split; [exact H1|exact H2|exact H3|exact H4|exact H6|].
    rewrite mem_set_mem in H5.
    intros x. exact (memset_agree (Pmm.mem t1) (Pmm.mem (Ptm.src s)) a 0 x H5). }
  destruct (PtmHost.takes_spec s s' root g a Hinv Ht) as (Hinv' & Hmiss & Hout & Hin).
  pose proof (ps_free_page _ _ Hps H2) as (Ha & Ha0 & _). pose proof (PtmHost.tk_count _ _ _ Ht) as Hcnt.
  exists a, s'. split; [exact (zoom_ret Ptm.src _ _ s _ _ E1)|]. split; [exact Hinv'|]. split; [exact Ha|]. split; [exact Ha0|].
  split; [intros Hlow; by apply Hlow|]. split; [cbn [h_pages PtmHost.ptm_host]; lia|]. split; [exact Hmiss|].
  split; [apply Ht|]. split; [exact Hout|exact Hin].
Qed.

(** One table, at 0x1000; the pages from 0x11000 to 0x40000 are free. *)
Definition tables_with (m : gmap Z Z) : Ptm.ptm Pmm.pmm :=
  Ptm.mkPtm (Pmm.mkPmm m (Console.mkTty [] 0) 4096 0 0x10000 0) 0.

#[local] Instance map2_source : PageSource Pmm.pmm := Ptm.pmm_source Ptm.map2 Ptm.map2_ok.
#[local] Instance map2_host : Host (Ptm.ptm Pmm.pmm) := PtmHost.ptm_host 4096.

Lemma one_root t l : ({[4096 := 4%nat]} : gmap Z nat) !! t = Some l -> t = 4096.
Proof. by intros [<- _]%lookup_singleton_Some. Qed.

Lemma tables_with_inv m : (forall x, 0x1000 <= x < 0x2000 -> ld8 m x = 0) -> Ptm.pt_inv (tables_with m) 4096 {[4096 := 4%nat]}.
Proof.
  intros Hm. split; [|split].
  - split; [|done]. repeat split; cbn; lia.
  - apply (PtmHost.tree_same ∅).
    + intros t l i Ht Hi. apply lookup_singleton_Some in Ht as [<- _]. unfold Ptm.ent. apply ld_ext. intros x Hx. rewrite Hm by lia. done.
    + apply Ptm.fresh_root_tree; [split; [reflexivity|lia]|]. intros i _. apply Ptm.ent_empty.
  - intros t l Ht. apply lookup_singleton_Some in Ht as [<- _].
    intros Hin. apply list_elem_of_filter in Hin as [Hlt _]. cbn in Hlt. lia.
Qed.

Lemma tables_outside m x : 0x2000 <= x < 0x6000 -> PtmHost.outside (tables_with m) {[4096 := 4%nat]} x.
Proof.
  intros Hx. split.
  - intros t l Ht. apply one_root in Ht. lia.
  - intros t Ht. apply list_elem_of_filter in Ht as [Hlt _]. cbn in Hlt. lia.
Qed.

(** The command list at 0x2000, the table of slot 0 at 0x3000, the received
    FIS at 0x4000 and the buffer at 0x5000; byte i of sector n of the disk is
    n + i. *)
Definition some_disk : @diskio (Ptm.ptm Pmm.pmm) ssd :=
  mkDiskIo (mkSystem (tables_with (st 4 ∅ 0x2008 0x3000)) (mkSsd (fun n i => n + i) 0xFEBF1100 true true 0x2000 0 0x4000 0 0 0)) 0x5000.

Lemma some_disk_ok : disk_ok a_port (fun n i => u8 (n + i)) some_disk.
Proof.
  split; [done|]. exists {[4096 := 4%nat]}, 0x2000, 0x3000, 0x4000. split.
  - apply tables_with_inv. intros x Hx. rewrite ld8_st_out by lia. done.
  - split; [reflexivity|cbn; lia].
  - split; [split_and!; try done; cbn; lia|lia|reflexivity|reflexivity|unfold apart; lia|].
    intros x Hx. apply tables_outside. unfold within in Hx. lia.
  - split; [split; [reflexivity|cbn; lia]|apply Z.leb_le; vm_compute; reflexivity|unfold apart; cbn; lia|].
    intros x Hx. apply tables_outside. unfold within in Hx. cbn in Hx. lia.
Qed.

Lemma disk_readp_reads_witness :
  exists s', disk_readp a_port 3 5 3 2 some_disk = Ret (Some [8; 9]) s' /\ disk_ok a_port (fun n i => u8 (n + i)) s'.
Proof.
  destruct (disk_readp_reads (tables_AllocatePage Ptm.map2) a_port 3 some_disk (fun n i => u8 (n + i)) 5 3 2) as (_ & s' & E & Hs' & _);
    [exact (le_n 3)|apply some_disk_ok|lia..|].
  exists s'. split; [exact E|exact Hs'].
Defined.

(** ["ROOT"] at 0x2000, the configuration space of the controller at 0x3000,
    one disk, marked at byte 3 of its first sector. *)
Definition root_system : system (Ptm.ptm Pmm.pmm) ssd :=
  mkSystem (tables_with (st 4 (st 4 ∅ 0x2000 0x544F4F52) 0x3024 0xFEBF1000))
    (mkSsd root_disk 0xFEBF1100 true true 0x7000 0 0x8000 0 0 0).

Lemma root_system_disks : disks (dev root_system) (ld 4 (h_mem (host root_system)) (0x3000 + 0x24)) = [mkPort 0xFEBF1100 SATA 0].
Proof. vm_compute. reflexivity. Qed.

Lemma root_system_ready : driver_ready root_system {[4096 := 4%nat]} 0x2000 0x3000 (fun _ l o => u8 (root_disk l o)).
Proof.
  split.
  - apply tables_with_inv. intros x Hx. rewrite !ld8_st_out by lia. done.
  - split; [reflexivity|cbn; lia].
  - intros a Ha. apply list_elem_of_filter in Ha as [_ Ha].
    assert (Hlow : forallb (fun a => a + 4096 <=? 2 ^ 32) (Pmm.pages Ptm.map2) = true) by (vm_compute; reflexivity).
    rewrite forallb_forall in Hlow. apply Z.leb_le, Hlow, list_elem_of_In, Ha.
  - split; [done|]. intros j Hj. do 4 (destruct j as [|j]; [reflexivity|]). lia.
  - intros x Hx. apply tables_outside. unfold within in Hx. lia.
  - reflexivity.
  - rewrite root_system_disks. intros P ->%list_elem_of_singleton. done.
Qed.

Lemma root_disk_ready_witness :
  exists s1 s2 s3, AhciDriver 3 0x2000 0x3000 (fun _ => a_port) 0 None root_system = Ret (Some (mkPort 0xFEBF1100 SATA 0)) s1 /\
    disk_initialize (tables_AllocatePage Ptm.map2) (mkDiskIo s1 0) = Ret 0 s2 /\
    disk_readp (mkPort 0xFEBF1100 SATA 0) 3 0 2 3 s2 = Ret (Some [0x90; 0x52; 0x4F]) s3.
Proof.
  assert (Em : last_marked (fun _ l o => u8 (root_disk l o)) [mkPort 0xFEBF1100 SATA 0] None = Some (mkPort 0xFEBF1100 SATA 0)) by (vm_compute; reflexivity).
  destruct (root_disk_ready (tables_AllocatePage Ptm.map2) 3 0x2000 0x3000 (fun _ => a_port) root_system {[4096 := 4%nat]} (fun _ l o => u8 (root_disk l o)))
    as (s1 & E1 & HR); [apply tables_give_pages|apply root_system_ready|exact (le_n 3)|rewrite root_system_disks; vm_compute; discriminate|].
  rewrite root_system_disks, Em in E1. rewrite root_system_disks in HR. destruct (HR _ Em) as (_ & _ & s2 & E2 & Hok & Hrd).
  destruct (Hrd s2 0 2 3 Hok) as (s3 & E3 & _); [lia..|]. exists s1, s2, s3. split; [exact E1|]. split; [exact E2|exact E3].
Defined.

End DiskIo.
