(* ===== verification/Boot.v ===== *)
(** The kernel's start (kernel/main.cpp): the virtual memory of the page
    tables as the memory below the heap, and [PrepareKernel], which runs the
    components one after the other on one memory. *)

From stdpp Require Import base tactics list gmap numbers option strings.
From Stdlib Require Import ZArith Lia.
From S2P Require Import Prelude Mem Console Pmm Ptm Heap Interrupts PciBus Ahci DiskIo.

#[local] Open Scope Z_scope.

(** ** Memory through the page tables *)

Module PagedMem.
Import Prelude Mem Ptm PtmHost.
#[local] Open Scope lofi_scope.

Section Ops.
Context {S : Type} `{PageSource S}.
(** The root table [Pml4] and the terminal. *)
Context (root : Z) (puts : list Z -> S -> S).

Definition vtrans (s : ptm S) (a : Z) : option Z := translate (pmem s) root a.

(** One byte; an address without a translation would fault. *)
Definition vld8 (s : ptm S) (a : Z) : Z := match vtrans s a with Some x => ld8 (pmem s) x | None => 0 end.
Definition vst8 (s : ptm S) (a v : Z) : ptm S :=
  match vtrans s a with Some x => set_pmem (st8 (pmem s) x v) s | None => s end.

Fixpoint pvld (n : nat) (s : ptm S) (a : Z) : Z :=
  match n with O => 0 | Datatypes.S n' => vld8 s a + 256 * pvld n' s (a + 1) end.
Fixpoint pvst (n : nat) (s : ptm S) (a v : Z) : ptm S :=
  match n with O => s | Datatypes.S n' => pvst n' (vst8 s a v) (a + 1) (v / 256) end.

(** [MapMemory(Pml4, va, AllocateEmptyPage(), 4096)] *)
Definition pvmap (va : Z) : M (ptm S) unit :=
  let* p := AllocateEmptyPage in MapMemory root va p 4096.

Definition pvputs (l : list Z) (s : ptm S) : ptm S := mkPtm (puts l (src s)) (CurrentPageTableEntry s).

End Ops.

(** ** The invariant *)

(** Where heap and system data go. *)
Definition window (a : Z) : Prop := 2 ^ 64 - 2 ^ 30 - 4096 <= a < 2 ^ 64 - 4096.

Lemma window_page a b : window a -> window b -> vpage a = vpage b -> a / 4096 = b / 4096.
Proof. unfold window, vpage. intros. zdm. Qed.

Section Spec.
Context {S : Type} `{PageSource S}.
Context (root : Z) (puts : list Z -> S -> S).
(** Addresses that are mapped from the beginning: the first page and the
    image of the kernel, none of them in a page of the window. *)
Context (base : Z -> Prop).
Context (Hbase0 : forall b, 0 <= b < 4096 -> base b).
Context (Hbase : forall b a, base b -> window a -> vpage b <> vpage a).
(** The translation of everything outside the pages of the window. *)
Context (rest : Z -> option Z).

Definition pvok (s : ptm S) (b : Z) : Prop := base b \/ (window b /\ is_Some (vtrans root s b)).

Record pvinv_at (s : ptm S) (T : gmap Z nat) : Prop := {
  pi_tables : pt_inv s root T;
  pi_data b : pvok s b -> exists x, vtrans root s b = Some x /\ outside s T x;
  pi_inj b b' x : pvok s b -> pvok s b' -> vtrans root s b = Some x -> vtrans root s b' = Some x -> b = b';
  pi_rest b : (forall a, window a -> vpage b <> vpage a) -> vtrans root s b = rest b
}.
Definition pvinv (s : ptm S) : Prop := exists T, pvinv_at s T.

(** The translation depends on the tables only. *)
Lemma walk_same m m' T lvl t va : same_tables m m' T -> tree m root T -> T !! t = Some lvl -> walk lvl m' t va = walk lvl m t va.
Proof.
  intros He HT. revert t. induction lvl as [|lvl IH]; intros t Ht; [done|].
  rewrite !walk_S. cbv zeta. rewrite (He _ _ _ Ht (index_range va (Z.of_nat (Datatypes.S lvl)))).
  destruct (Present _) eqn:Ep; [|done]. destruct lvl as [|lvl]; [done|]. apply IH.
  apply (tr_child _ _ _ HT _ _ _ Ht (index_range va _) Ep).
Qed.

Lemma translate_same m m' T va : same_tables m m' T -> tree m root T -> translate m' root va = translate m root va.
Proof. intros He HT. apply (walk_same m m' T 4 root va He HT). apply HT. Qed.


(** *** One byte *)

(** Memory outside tables and free pages can be changed freely. *)
Lemma set_pmem_data m s T :
  pvinv_at s T -> (forall x, ~ outside s T x -> ld8 m x = ld8 (pmem s) x) ->
  pvinv_at (set_pmem m s) T /\ (forall b, vtrans root (set_pmem m s) b = vtrans root s b) /\
  (forall x, outside (set_pmem m s) T x <-> outside s T x).
Proof.
  intros [Hi Hd Hj Hr] Hm.
  assert (Ht : forall b, vtrans root (set_pmem m s) b = vtrans root s b).
  { intros b. unfold vtrans. rewrite pmem_set. eapply translate_same; [by apply data_same|apply Hi]. }
  assert (Hok : forall b, pvok (set_pmem m s) b <-> pvok s b) by (intros b; unfold pvok; by rewrite Ht).
  assert (Hout : forall x, outside (set_pmem m s) T x <-> outside s T x).
  { intros x. unfold outside, set_pmem. cbn [src]. by setoid_rewrite ps_set_free. }
  split; [|done]. split.
  - by apply set_pmem_inv.
  - intros b Hb%Hok. rewrite Ht. destruct (Hd b Hb) as (x & Ex & Ho). exists x. by rewrite Hout.
  - intros b b' y Hb%Hok Hb'%Hok. rewrite !Ht. by apply Hj.
  - intros b. rewrite Ht. apply Hr.
Qed.

(** A store through an address that is mapped. *)
Lemma vst8_data s T a v :
  pvinv_at s T -> pvok s a ->
  exists x, vtrans root s a = Some x /\ vst8 root s a v = set_pmem (st8 (pmem s) x v) s /\
    pvinv_at (vst8 root s a v) T /\ (forall b, vtrans root (vst8 root s a v) b = vtrans root s b).
Proof.
  intros Hinv Ha. destruct (pi_data _ _ Hinv a Ha) as (x & Ex & Ho). exists x. unfold vst8. rewrite Ex.
  destruct (set_pmem_data (st8 (pmem s) x v) s T Hinv) as (H1 & H2 & _).
  { intros y Hy. apply ld8_st8_ne. by intros ->. }
  done.
Qed.

Lemma pvok_trans s s' b : (forall c, vtrans root s' c = vtrans root s c) -> pvok s' b <-> pvok s b.
Proof. intros E. unfold pvok. by rewrite E. Qed.

Lemma vld8_vst8 s T a v b : pvinv_at s T -> pvok s a -> pvok s b ->
  vld8 root (vst8 root s a v) b = if decide (b = a) then u8 v else vld8 root s b.
Proof.
  intros Hinv Ha Hb. destruct (vst8_data s T a v Hinv Ha) as (x & Ex & E & _ & Ht). unfold vld8. rewrite Ht.
  destruct (pi_data _ _ Hinv b Hb) as (y & Ey & _). rewrite Ey. rewrite E, pmem_set. destruct (decide (b = a)) as [->|Hne].
  - assert (y = x) as -> by congruence. apply ld8_st8_eq.
  - apply ld8_st8_ne. intros ->. apply Hne. by apply (pi_inj _ _ Hinv b a y).
Qed.

(** *** Several bytes *)
Definition all_ok (n : nat) (s : ptm S) (a : Z) : Prop := forall i, 0 <= i < Z.of_nat n -> pvok s (a + i).

Lemma all_ok_S n s a : all_ok (Datatypes.S n) s a -> pvok s a /\ all_ok n s (a + 1).
Proof.
  intros Ha. split; [rewrite <- (Z.add_0_r a); apply Ha; lia|]. intros i Hi. replace (a + 1 + i) with (a + (i + 1)) by lia. apply Ha. lia.
Qed.

Lemma pvst_spec n s T a v : pvinv_at s T -> all_ok n s a ->
  pvinv_at (pvst root n s a v) T /\ (forall b, pvok (pvst root n s a v) b <-> pvok s b) /\
  (forall b, pvok s b -> b < a \/ a + Z.of_nat n <= b -> vld8 root (pvst root n s a v) b = vld8 root s b) /\
  ps_count (src (pvst root n s a v)) = ps_count (src s).
Proof.
  revert s a v. induction n as [|n IH]; intros s a v Hinv Ha; [done|]. cbn [pvst].
  apply all_ok_S in Ha as [Ha Hn].
  assert (Hok : forall b, pvok (vst8 root s a v) b <-> pvok s b).
  { intros b. apply pvok_trans. by destruct (vst8_data s T a v Hinv Ha) as (x & _ & _ & _ & Ht). }
  assert (Hc : ps_count (src (vst8 root s a v)) = ps_count (src s)).
  { destruct (vst8_data s T a v Hinv Ha) as (x & _ & -> & _). unfold set_pmem. cbn [src]. apply ps_set_count. }
  destruct (IH (vst8 root s a v) (a + 1) (v / 256)) as (I1 & I2 & I3 & I4).
  { by destruct (vst8_data s T a v Hinv Ha) as (x & _ & _ & Hinv' & _). }
  { intros i Hi. apply Hok. by apply Hn. }
  split; [done|]. split; [intros b; by rewrite I2, Hok|]. split; [|by rewrite I4].
  intros b Hb Hout. rewrite I3; [|by apply Hok|lia]. rewrite (vld8_vst8 s T) by done. destruct (decide (b = a)); [lia|done].
Qed.

Lemma vld8_range s a : 0 <= vld8 root s a < 256.
Proof. unfold vld8. destruct (vtrans root s a); [apply ld8_range|lia]. Qed.

Lemma pvld_range n s a : 0 <= pvld root n s a < 256 ^ Z.of_nat n.
Proof.
  revert a. induction n as [|n IH]; intros a; [cbn; lia|]. cbn [pvld]. pose proof (vld8_range s a). specialize (IH (a + 1)).
  replace (Z.of_nat (Datatypes.S n)) with (Z.succ (Z.of_nat n)) by lia. rewrite Z.pow_succ_r by lia. lia.
Qed.

Lemma pvld_ext n s s' a : (forall i, 0 <= i < Z.of_nat n -> vld8 root s' (a + i) = vld8 root s (a + i)) -> pvld root n s' a = pvld root n s a.
Proof.
  revert a. induction n as [|n IH]; intros a He; [done|]. cbn [pvld]. f_equal.
  - rewrite <- (Z.add_0_r a). apply He. lia.
  - f_equal. apply IH. intros i Hi. replace (a + 1 + i) with (a + (i + 1)) by lia. apply He. lia.
Qed.

Lemma pvld_pvst_eq n s T a v : pvinv_at s T -> all_ok n s a -> pvld root n (pvst root n s a v) a = v mod 256 ^ Z.of_nat n.
Proof.
  revert s a v. induction n as [|n IH]; intros s a v Hinv Ha; [by rewrite Z.mod_1_r|].
  apply all_ok_S in Ha as [Ha Hn]. cbn [pvld pvst].
  assert (Hok : forall b, pvok (vst8 root s a v) b <-> pvok s b).
  { intros b. apply pvok_trans. by destruct (vst8_data s T a v Hinv Ha) as (x & _ & _ & _ & Ht). }
  assert (Hn' : all_ok n (vst8 root s a v) (a + 1)) by (intros i Hi; by apply Hok, Hn).
  destruct (vst8_data s T a v Hinv Ha) as (_ & _ & _ & Hinv' & _). rewrite IH by done.
  destruct (pvst_spec n (vst8 root s a v) T (a + 1) (v / 256) Hinv' Hn') as (_ & _ & Hb & _).
  rewrite Hb; [|by apply Hok|lia]. rewrite (vld8_vst8 s T) by done. destruct (decide (a = a)); [|done].
  replace (Z.of_nat (Datatypes.S n)) with (Z.succ (Z.of_nat n)) by lia. rewrite Z.pow_succ_r by lia.
  unfold u8. rewrite Z.rem_mul_r by lia. done.
Qed.

Lemma pvld_pvst_ne n k s T a b v : pvinv_at s T -> all_ok n s a -> all_ok k s b ->
  a + Z.of_nat n <= b \/ b + Z.of_nat k <= a -> pvld root k (pvst root n s a v) b = pvld root k s b.
Proof.
  intros Hinv Ha Hb Hd. destruct (pvst_spec n s T a v Hinv Ha) as (_ & _ & Hk & _).
  apply pvld_ext. intros i Hi. apply Hk; [by apply Hb|lia].
Qed.

Lemma pvst_count n s a v : ps_count (src (pvst root n s a v)) = ps_count (src s).
Proof.
  revert s a v. induction n as [|n IH]; intros s a v; [done|]. cbn [pvst]. rewrite IH. unfold vst8.
  destruct (vtrans root s a); [apply ps_set_count|done].
Qed.

(** *** Mapping a page *)

(** [MapMemory] of one page is [MapPage]. *)
Lemma MapMemory_one s va pa s' :
  0 <= pa -> pa + 4096 <= 2 ^ 52 -> MapPage root va pa s = Ret tt s' -> MapMemory root va pa 4096 s = Ret tt s'.
Proof.
  intros H0 H1 E. unfold MapMemory. rewrite u64_id by lia. change (Z.to_nat ((4096 + 4095) / 4096)) with 1%nat. cbn [MapMemory_loop].
  destruct (Z.ltb_spec pa (pa + 4096)); [|lia]. rewrite (bind_ret _ _ _ _ _ E).
  rewrite (u64_id (pa + 4096)) by lia. destruct (Z.ltb_spec (pa + 4096) (pa + 4096)); [lia|done].
Qed.

(** A page taken from the source: no table, and no longer free. *)
Lemma take_page s T :
  pt_inv s root T -> ps_count (src s) <> O ->
  exists p s1, AllocateEmptyPage s = Ret p s1 /\ pt_inv s1 root T /\ is_page p /\
    ps_free (src s) p /\ ~ ps_free (src s1) p /\ (forall b, ps_free (src s1) b -> ps_free (src s) b) /\
    ps_count (src s) = Datatypes.S (ps_count (src s1)) /\ same_tables (pmem s) (pmem s1) T /\
    (forall x, x < p \/ p + 4096 <= x -> ld8 (pmem s1) x = ld8 (pmem s) x).
Proof using Type. clear puts rest.
  intros (Hsrc & HT & Hu) Hc. destruct (ps_alloc_live _ Hsrc Hc) as (p & t & Ha).
  destruct (ps_alloc_ret _ _ _ Hsrc Ha) as (Hinv & Hf & Hnf & Hmono & Hmem & Hcnt).
  pose proof (ps_free_page _ _ Hsrc Hf) as Hp. change (is_page p) in Hp.
  exists p, (mkPtm t (CurrentPageTableEntry s)).
  assert (Hout : forall x, x < p \/ p + 4096 <= x -> ld8 (ps_mem t) x = ld8 (ps_mem (src s)) x).
  { intros x Hx. rewrite Hmem. by apply ld8_memset_out. }
  assert (Hs : same_tables (pmem s) (ps_mem t) T).
  { intros t0 l i Ht Hi. unfold ent. apply ld_ext. intros x Hx. apply Hout.
    pose proof (tr_page _ _ _ HT _ _ Ht) as Hpg. assert (t0 <> p) by (intros ->; by apply (Hu _ _ Ht)).
    unfold is_page in *. zdm. }
  split; [exact (zoom_ret _ _ _ _ _ _ Ha)|]. split.
  { split; [done|]. split; [by eapply tree_same|]. intros t0 l Ht Hfr. apply (Hu _ _ Ht). by apply Hmono. }
  split; [done|]. split; [done|]. split; [done|]. split; [done|]. split; [done|]. split; [exact Hs|exact Hout].
Qed.

Lemma page_apart p q x : is_page p -> is_page q -> p <> q -> p <= x < p + 4096 -> x < q \/ q + 4096 <= x.
Proof. unfold is_page. intros. zdm. Qed.

Lemma pvmap_spec s va :
  pvinv s -> 2 ^ 64 - 2 ^ 30 - 4096 <= va -> va + 4096 <= 2 ^ 64 - 4096 -> va mod 4096 = 0 ->
  (forall b, va <= b < va + 4096 -> ~ pvok s b) -> 4 <= Z.of_nat (ps_count (src s)) ->
  exists s', pvmap root va s = Ret tt s' /\ pvinv s' /\ Z.of_nat (ps_count (src s)) <= 4 + Z.of_nat (ps_count (src s')) /\
    (forall b, pvok s' b <-> pvok s b \/ va <= b < va + 4096) /\
    (forall b, vpage b <> vpage va -> vtrans root s' b = vtrans root s b) /\
    (forall b, pvok s b -> vld8 root s' b = vld8 root s b).
Proof.
  intros [T [Hi Hd Hj Hr]] Hlo Hhi Hal Hno Hcnt.
  destruct (take_page s T Hi ltac:(lia)) as (p & s1 & Ea & Hi1 & Hp & Hf & Hnf & Hmono & Hc1 & Hs1 & Hm1).
  pose proof (missing_range (pmem s1) root va) as Hmr.
  destruct (MapPage_spec s1 root T va p Hi1) as (s2 & T2 & Em & Hi2 & Ex & _ & Htr); [lia|unfold is_page in Hp; lia|apply Hp|apply Hp|].
  assert (Hwin : forall b, va <= b < va + 4096 -> window b) by (unfold window; intros; lia).
  assert (Hpage : forall b, va <= b < va + 4096 -> vpage b = vpage va) by (intros b Hb; unfold vpage; zdm).
  assert (Htr1 : forall b, vpage b <> vpage va -> vtrans root s2 b = vtrans root s b).
  { intros b Hb. unfold vtrans. rewrite Htr. destruct (decide _) as [|_]; [done|]. eapply translate_same; [exact Hs1|apply Hi]. }
  assert (Hold : forall b, pvok s b -> vpage b <> vpage va).
  { intros b Hb. pose proof Hb as [Hb'|[Hw _]]; [apply Hbase; [done|apply Hwin; lia]|]. intros Hv.
    apply (Hno b); [|done]. pose proof (window_page b va Hw (Hwin va ltac:(lia)) Hv). zdm. }
  assert (Hnew : forall b, va <= b < va + 4096 -> vtrans root s2 b = Some (p + (b - va))).
  { intros b Hb. unfold vtrans. rewrite Htr. destruct (decide _) as [_|Hn]; [|by destruct Hn; apply Hpage]. do 2 f_equal. zdm. }
  assert (Hok : forall b, pvok s2 b <-> pvok s b \/ va <= b < va + 4096).
  { intros b. split.
    - intros [Hb|[Hw Hsm]]; [left; by left|]. destruct (decide (vpage b = vpage va)) as [Hv|Hv].
      + right. pose proof (window_page b va Hw (Hwin va ltac:(lia)) Hv). zdm.
      + left. right. by rewrite <- (Htr1 b Hv).
    - intros [Hb|Hb]; [|right; split; [by apply Hwin|rewrite Hnew by done; by eexists]].
      pose proof (Hold b Hb) as Hv. destruct Hb as [Hb|[Hw Hsm]]; [by left|right]. by rewrite (Htr1 b Hv). }
  assert (Hkeep : forall x, outside s T x -> outside s2 T2 x /\ (x < p \/ p + 4096 <= x)).
  { intros x [Ho1 Ho2]. split; [|by apply Ho2]. split.
    - intros t l Ht. destruct (ex_new _ _ _ _ _ Ex t l Ht) as [Ht'|[_ Hfr]]; [by apply (Ho1 t l)|by apply Ho2, Hmono].
    - intros a Ha. by apply Ho2, Hmono, (ex_free _ _ _ _ _ Ex). }
  assert (Hpo : forall x, p <= x < p + 4096 -> outside s2 T2 x).
  { intros x Hx. split.
    - intros t l Ht. apply (page_apart p); [done|apply (tr_page _ _ _ (proj1 (proj2 Hi2)) _ _ Ht)| |done]. intros <-.
      destruct (ex_new _ _ _ _ _ Ex p l Ht) as [Ht'|[_ Hfr]]; [by apply (proj2 (proj2 Hi) p l)|done].
    - intros a Ha. apply (page_apart p); [done|apply (ps_free_page _ _ (proj1 Hi2) Ha)| |done]. intros <-.
      by apply Hnf, (ex_free _ _ _ _ _ Ex). }
  exists s2. split; [|split; [exists T2; split|split; [|split; [done|split; [done|]]]]].
  - unfold pvmap. rewrite (bind_ret _ _ _ _ _ Ea). apply MapMemory_one; [unfold is_page in Hp; lia|apply Hp|done].
  - done.
  - intros b [Hb|Hb]%Hok.
    + destruct (Hd b Hb) as (x & Ex' & Ho). exists x. rewrite (Htr1 b (Hold b Hb)). split; [done|]. by apply Hkeep.
    + exists (p + (b - va)). rewrite Hnew by done. split; [done|]. apply Hpo. lia.
  - intros b b' x [Hb|Hb]%Hok [Hb'|Hb']%Hok.
    + rewrite (Htr1 b (Hold b Hb)), (Htr1 b' (Hold b' Hb')). by apply Hj.
    + rewrite (Htr1 b (Hold b Hb)), (Hnew b' Hb'). intros E1 [= <-]. destruct (Hd b Hb) as (y & Ey & Ho).
      destruct (Hkeep y Ho) as [_ Hk]. assert (y = p + (b' - va)) by congruence. lia.
    + rewrite (Htr1 b' (Hold b' Hb')), (Hnew b Hb). intros [= <-] E1. destruct (Hd b' Hb') as (y & Ey & Ho).
      destruct (Hkeep y Ho) as [_ Hk]. assert (y = p + (b - va)) by congruence. lia.
    + rewrite (Hnew b Hb), (Hnew b' Hb'). intros [= <-] [= E1]. lia.
  - intros b Hb. rewrite Htr1 by (apply Hb, Hwin; lia). by apply Hr.
  - pose proof (ex_count _ _ _ _ _ Ex). lia.
  - intros b Hb. unfold vld8. rewrite (Htr1 b (Hold b Hb)). destruct (Hd b Hb) as (x & -> & Ho).
    destruct (Hkeep x Ho) as [Ho2 Hpx]. rewrite (ex_mem _ _ _ _ _ Ex x (proj1 Ho2)). by apply Hm1.
Qed.

(** *** A page in use outside the tables *)
Definition reserved (p : Z) (s : ptm S) (T : gmap Z nat) : Prop :=
  is_page p /\ T !! p = None /\ ~ ps_free (src s) p /\
  (forall b x, pvok s b -> vtrans root s b = Some x -> x < p \/ p + 4096 <= x).

Lemma reserved_outside p s T x : pvinv_at s T -> reserved p s T -> p <= x < p + 4096 -> outside s T x.
Proof.
  intros [Hi _ _ _] (Hp & HT & Hf & _) Hx. split.
  - intros t l Ht. apply (page_apart p); [done|apply (tr_page _ _ _ (proj1 (proj2 Hi)) _ _ Ht)|congruence|done].
  - intros a Ha. apply (page_apart p); [done|apply (ps_free_page _ _ (proj1 Hi) Ha)|congruence|done].
Qed.

(** Taking a page reserves it. *)
Lemma reserve_page s T :
  pvinv_at s T -> ps_count (src s) <> O ->
  exists p s', AllocateEmptyPage s = Ret p s' /\ pvinv_at s' T /\ reserved p s' T /\ (forall b, pvok s' b <-> pvok s b).
Proof.
  intros [Hi Hd Hj Hr] Hc. destruct (take_page s T Hi Hc) as (p & s1 & Ea & Hi1 & Hp & Hf & Hnf & Hmono & _ & Hs1 & _).
  exists p, s1. split; [done|].
  assert (Ht : forall b, vtrans root s1 b = vtrans root s b) by (intros b; eapply translate_same; [exact Hs1|apply Hi]).
  assert (Hok : forall b, pvok s1 b <-> pvok s b) by (intros b; by apply pvok_trans).
  assert (Hout : forall x, outside s T x -> outside s1 T x) by (intros x [H1 H2]; split; [done|intros a Ha; by apply H2, Hmono]).
  split; [split; [done| | |]|split; [|done]].
  - intros b Hb%Hok. rewrite Ht. destruct (Hd b Hb) as (x & Ex & Ho). exists x. split; [done|by apply Hout].
  - intros b b' y Hb%Hok Hb'%Hok. rewrite !Ht. by apply Hj.
  - intros b. rewrite Ht. apply Hr.
  - split; [done|]. split; [destruct (T !! p) eqn:E; [by destruct (proj2 (proj2 Hi) p _ E)|done]|]. split; [done|].
    intros b x Hb%Hok. rewrite Ht. intros Ex. destruct (Hd b Hb) as (y & Ey & Ho). assert (y = x) as -> by congruence. by apply Ho.
Qed.

(** Storing into it. *)
Lemma store_reserved p k n v s T :
  pvinv_at s T -> reserved p s T -> 0 <= k -> k + Z.of_nat n <= 4096 ->
  let s' := set_pmem (st n (pmem s) (p + k) v) s in
  pvinv_at s' T /\ reserved p s' T /\ (forall b, pvok s' b <-> pvok s b).
Proof.
  intros Hinv Hres H0 Hk s'.
  destruct (set_pmem_data (st n (pmem s) (p + k) v) s T Hinv) as (H1 & H2 & H3).
  { intros x Hx. apply ld8_st_out. destruct (decide (p + k <= x < p + k + Z.of_nat n)); [|lia].
    destruct Hx. apply (reserved_outside p); [done|done|lia]. }
  assert (Hok : forall b, pvok s' b <-> pvok s b) by (intros b; by apply pvok_trans).
  split; [done|]. split; [|done]. destruct Hres as (? & ? & Hf & Hd). split; [done|]. split; [done|]. split.
  - unfold s', set_pmem. cbn [src]. by rewrite ps_set_free.
  - intros b x Hb%Hok. unfold s'. rewrite H2. by apply Hd.
Qed.

(** *** The instance

    Each page takes at most four from the source: itself and three tables. *)
Program Definition paged_vmem : VMem (ptm S) := {|
  vld := pvld root;
  vst := pvst root;
  vmap := pvmap root;
  vputs := pvputs puts;
  vinv := pvinv;
  vok := pvok;
  vpages s := Z.of_nat (ps_count (src s)) / 4
|}.
Next Obligation. intros n v a. apply pvld_range. Qed.
Next Obligation. intros n v a x [T Hi] Ha. by apply (pvld_pvst_eq n v T). Qed.
Next Obligation. intros n k v a b x [T Hi] Ha Hb Hd. by apply (pvld_pvst_ne n k v T). Qed.
Next Obligation. intros n v a x [T Hi] Ha. exists T. by apply (pvst_spec n v T a x Hi Ha). Qed.
Next Obligation. intros n v a x b [T Hi] Ha. apply (pvst_spec n v T a x Hi Ha). Qed.
Next Obligation. intros n v a x. cbn beta. by rewrite pvst_count. Qed.
Next Obligation. intros v b _ Hb. left. by apply Hbase0. Qed.
Next Obligation.
  intros v va Hi Hlo Hhi Hal Hno Hp. cbv beta in *. destruct (pvmap_spec v va Hi Hlo Hhi Hal Hno) as (v' & E & Hi' & Hc & Hok & _ & Hld); [zdm|].
  exists v'. split; [done|]. split; [done|]. split; [zdm|]. split; [done|].
  intros k b Hb. apply pvld_ext. intros i Hik. by apply Hld, Hb.
Qed.

End Spec.

(** The tables with their allocator are a source of pages themselves. *)
Program Definition ptm_source {S} `{PageSource S} : PageSource (ptm S) := {|
  ps_mem := pmem;
  ps_set_mem := set_pmem;
  ps_alloc := AllocateEmptyPage;
  ps_inv s := ps_inv (src s);
  ps_free s := ps_free (src s);
  ps_count s := ps_count (src s)
|}.
Next Obligation. intros S PS m s. apply pmem_set. Qed.
Next Obligation. intros S PS m m' s. unfold set_pmem. cbn [src CurrentPageTableEntry]. by rewrite ps_set_set. Qed.
Next Obligation. intros S PS m s Hi. by apply ps_set_inv. Qed.
Next Obligation. intros S PS m s a. apply ps_set_free. Qed.
Next Obligation. intros S PS m s. apply ps_set_count. Qed.
Next Obligation.
  intros S PS s a s' Hi E. unfold AllocateEmptyPage, zoom in E. destruct (ps_alloc (src s)) as [p t| |] eqn:Ea; try discriminate E.
  injection E as <- <-. exact (ps_alloc_ret _ _ _ Hi Ea).
Qed.
Next Obligation.
  intros S PS s Hi Hc. destruct (ps_alloc_live _ Hi Hc) as (a & t & E). exists a, (mkPtm t (CurrentPageTableEntry s)).
  exact (zoom_ret _ _ _ _ _ _ E).
Qed.
Next Obligation. intros S PS s a. apply ps_free_page. Qed.

End PagedMem.

(** ** Starting the kernel *)

Module Boot.
Import Prelude Mem Console.
#[local] Open Scope lofi_scope.

(** The state of the machine: memory, page allocator and page tables
    ([Ptm.paging]), the processor's table registers and the globals [Idt0], the
    heap's globals and those of Acpi.cpp. *)
Record kernel := mkKernel {
  pag : Ptm.paging Pmm.pmm;
  k_limit : Z; k_offset : Z; k_idtr : option (Z * Z); k_gdtr : option (Z * Z); k_if : bool;
  HeapStart : Z; HeapEnd : Z; LastHeapHDR : Z;
  AcpiData0 : Z; IsReady : bool; RSDP : Z
}.

Definition set_pag (p : Ptm.paging Pmm.pmm) (s : kernel) : kernel :=
  mkKernel p (k_limit s) (k_offset s) (k_idtr s) (k_gdtr s) (k_if s) (HeapStart s) (HeapEnd s) (LastHeapHDR s)
    (AcpiData0 s) (IsReady s) (RSDP s).
Definition tables (s : kernel) : Ptm.ptm Pmm.pmm := Ptm.pg (pag s).
Definition set_tables (g : Ptm.ptm Pmm.pmm) (s : kernel) : kernel := set_pag (Ptm.set_pg g (pag s)) s.
Definition pmm (s : kernel) : Pmm.pmm := Ptm.src (tables s).
Definition set_pmm (x : Pmm.pmm) (s : kernel) : kernel := set_tables (Ptm.mkPtm x (Ptm.CurrentPageTableEntry (tables s))) s.
Definition con (s : kernel) : tty := Pmm.con (pmm s).
Definition set_con (t : tty) (s : kernel) : kernel := set_pmm (Pmm.set_con t (pmm s)) s.

(** What the linker and the boot loader provide. *)
Record image := mkImage {
  boot : Ptm.boot;
  terminal : bool;
  RSDP_response : option Z;
  Gdt0 : Z; IdtPage : Z; OnPageFault : Z; OnDoubleFault : Z; OnGeneralProtectionFault : Z;
  str_MCFG : Z; addr_puts_n : Z
}.

Section Start.
Context (im : image).

(** The boot loader maps the image of the kernel at a fixed distance from
    where it lies in memory; until [CreatePTM] the kernel runs on that
    mapping. *)
Definition distance : Z :=
  match Ptm.kernel_address_response (boot im) with Some (phys, virt) => virt - phys | None => 0 end.
Definition to_cpu (s : kernel) : Interrupts.cpu :=
  Interrupts.mkCpu (kmap (Z.add distance) (Pmm.mem (pmm s))) (k_limit s) (k_offset s) (k_idtr s) (k_gdtr s) (k_if s).
Definition from_cpu (c : Interrupts.cpu) (s : kernel) : kernel :=
  let p := Ptm.set_pg (Ptm.mkPtm (Pmm.set_mem (fun _ => kmap (Z.add (- distance)) (Interrupts.mem c)) (pmm s))
                         (Ptm.CurrentPageTableEntry (tables s))) (pag s) in
  mkKernel p (Interrupts.Idt0_Limit c) (Interrupts.Idt0_Offset c) (Interrupts.idtr c) (Interrupts.gdtr c)
    (Interrupts.interrupts_on c) (HeapStart s) (HeapEnd s) (LastHeapHDR s) (AcpiData0 s) (IsReady s) (RSDP s).
Definition on_cpu (f : Interrupts.cpu -> Interrupts.cpu) : M kernel unit := modify (fun s => from_cpu (f (to_cpu s)) s).

Definition on_pmm {A} (c : M Pmm.pmm A) : M kernel A := zoom pmm set_pmm c.
Definition on_paging {A} (c : M (Ptm.paging Pmm.pmm) A) : M kernel A := zoom pag set_pag c.
Definition on_con {A} (c : M tty A) : M kernel A := zoom con set_con c.

Definition to_heap (s : kernel) : Heap.heap (Ptm.ptm Pmm.pmm) := Heap.mkHeap (tables s) (HeapStart s) (HeapEnd s) (LastHeapHDR s).
Definition from_heap (h : Heap.heap (Ptm.ptm Pmm.pmm)) (s : kernel) : kernel :=
  mkKernel (Ptm.set_pg (Heap.vm h) (pag s)) (k_limit s) (k_offset s) (k_idtr s) (k_gdtr s) (k_if s)
    (Heap.HeapStart h) (Heap.HeapEnd h) (Heap.LastHeapHDR h) (AcpiData0 s) (IsReady s) (RSDP s).
Definition on_heap {A} (c : M (Heap.heap (Ptm.ptm Pmm.pmm)) A) : M kernel A := zoom to_heap from_heap c.

Definition to_acpi (s : kernel) : PciBus.acpi (Ptm.ptm Pmm.pmm) := PciBus.mkAcpi (tables s) (AcpiData0 s) (IsReady s) (RSDP s).
Definition from_acpi (a : PciBus.acpi (Ptm.ptm Pmm.pmm)) (s : kernel) : kernel :=
  mkKernel (Ptm.set_pg (PciBus.src a) (pag s)) (k_limit s) (k_offset s) (k_idtr s) (k_gdtr s) (k_if s)
    (HeapStart s) (HeapEnd s) (LastHeapHDR s) (PciBus.AcpiData0 a) (PciBus.IsReady a) (PciBus.RSDP a).
Definition on_acpi {A} (c : M (PciBus.acpi (Ptm.ptm Pmm.pmm)) A) : M kernel A := zoom to_acpi from_acpi c.

(** The terminal as the heap's functions use it. *)
Definition print (l : list Z) (p : Pmm.pmm) : Pmm.pmm :=
  match fputs l stdout (Pmm.con p) with Ret _ t => Pmm.set_con t p | Done t => Pmm.set_con t p | NoFuel => p end.

(** *** What the boot protocol promises *)
Definition ksize : Z := u64 (Ptm.KernelEnd (boot im) - Ptm.KernelStart (boot im)).
Definition full : Z := Ptm.full_loop (Ptm.memmap (boot im)) 0.
Definition pages_needed (off virt : Z) : Z :=
  1 + Ptm.tables_for 0 full + Ptm.tables_for virt ksize + Ptm.tables_for off full + 4 * 514.

Record protocol (off phys virt : Z) : Prop := {
  pr_terminal : terminal im = true;
  pr_memmap : Pmm.memmap_ok (Ptm.memmap (boot im));
  pr_hhdm : Ptm.hhdm_response (boot im) = Some off;
  pr_kernel : Ptm.kernel_address_response (boot im) = Some (phys, virt);
  (** physical memory of up to 2^46 bytes *)
  pr_full : 0 < full <= 2 ^ 46;
  (** the image, in the upper 2 GiB, below the heap, and not in usable memory *)
  pr_size : 0 < ksize;
  pr_phys : 4096 <= phys /\ phys mod 4096 = 0 /\ phys + ksize <= 2 ^ 48;
  pr_virt : virt mod 4096 = 0 /\ virt + ksize <= 2 ^ 64 - 2 ^ 30 - 4096;
  pr_apart a : a ∈ Pmm.pages (Ptm.memmap (boot im)) -> a + 4096 <= phys \/ phys + ksize <= a;
  (** the higher half, below the image *)
  pr_off : 2 ^ 64 - 2 ^ 47 <= off /\ off mod 4096 = 0 /\ off + full + 4096 <= virt;
  (** the interrupt table is a page of the image *)
  pr_idt : virt <= IdtPage im /\ IdtPage im + 4096 <= virt + ksize;
  pr_handlers : 0 <= OnPageFault im < 2 ^ 64 /\ 0 <= OnDoubleFault im < 2 ^ 64 /\ 0 <= OnGeneralProtectionFault im < 2 ^ 64;
  pr_pages : pages_needed off virt <= Z.of_nat (length (filter (fun a => 0 < a) (Pmm.pages (Ptm.memmap (boot im)))))
}.

(** Mapped from the beginning: the first page and the image. *)
Definition in_image (b : Z) : Prop :=
  match Ptm.kernel_address_response (boot im) with Some (_, virt) => virt <= b < virt + ksize | None => False end.
Definition low_or_image (b : Z) : Prop := 0 <= b < 4096 \/ in_image b.

Section Run.
Context (off phys virt : Z) (Hp : protocol off phys virt).

Lemma low_base b : 0 <= b < 4096 -> low_or_image b.
Proof. by left. Qed.
Lemma base_window b a : low_or_image b -> PagedMem.window a -> Ptm.vpage b <> Ptm.vpage a.
Proof.
  intros Hb Ha. pose proof (pr_virt _ _ _ Hp) as [Hv1 Hv2]. pose proof (pr_off _ _ _ Hp) as (Ho1 & _ & Ho2). pose proof (pr_full _ _ _ Hp).
  unfold PagedMem.window in Ha. unfold low_or_image, in_image in Hb. rewrite (pr_kernel _ _ _ Hp) in Hb. unfold Ptm.vpage. zdm.
Qed.

(** The address space [CreatePTM] is to build. *)
Definition space (va : Z) : option Z := Ptm.kernel_space full off phys virt ksize va.

#[local] Instance source : PageSource Pmm.pmm := Ptm.pmm_source (Ptm.memmap (boot im)) (pr_memmap _ _ _ Hp).
Definition vmem (root : Z) : VMem (Ptm.ptm Pmm.pmm) :=
  PagedMem.paged_vmem root print low_or_image low_base base_window space.

(** *** [PrepareKernel] and [_start] (main.cpp)

    [AcpiInit] is the call of [GetAcpi] at the end. *)
Definition with_heap {A} (c : VMem (Ptm.ptm Pmm.pmm) -> M (Heap.heap (Ptm.ptm Pmm.pmm)) A) : M kernel A :=
  let* root := gets (fun s => Ptm.Pml4 (pag s)) in on_heap (c (vmem root)).

Definition PrepareMemory : M kernel unit :=
  on_cpu (Interrupts.CreateGdt (Gdt0 im)) ;;;
  on_pmm (Pmm.CreatePMM (Ptm.memmap (boot im))) ;;;
  on_cpu (Interrupts.CreateIdt (IdtPage im)) ;;;
  on_cpu (Interrupts.RegisterFaults (OnPageFault im) (OnDoubleFault im) (OnGeneralProtectionFault im)) ;;;
  on_paging (Ptm.CreatePTM (boot im)) ;;;
  with_heap (fun V => Heap.CreateHeap_default) ;;;
  with_heap (fun V => modify (fun h => Heap.set_vm (Heap.vmemset 4096 Heap.AddressOfSystemData 0 (Heap.vm h)) h)).


Section Entry.
(** [AcpiData* Acpi = GetAcpi();]: [new_AhciDriver Pml4 a] is the construction
    of a driver for the function at [a], with the tables at [Pml4].
    [GetAcpi] needs two levels of calls (see [PciBus]). *)
Context (new_AhciDriver : Z -> Z -> M (Ptm.ptm Pmm.pmm) unit).
Definition PrepareKernel : M kernel unit :=
  PrepareMemory ;;;
  let* root := gets (fun s => Ptm.Pml4 (pag s)) in
  let* Acpi := on_acpi (@PciBus.GetAcpi _ PagedMem.ptm_source (new_AhciDriver root) (RSDP_response im) (str_MCFG im) 2) in
  ret tt.

(** [code_at]: what a call of the function at an address does. *)
Context (code_at : Z -> list Z -> Z -> M tty unit).
Definition _start : M kernel unit :=
  if negb (terminal im) then done_
  else
    PrepareKernel ;;;
    on_con (puts (lit "This is a test! :)")) ;;;
    with_heap (fun V => modify (fun h => Heap.set_vm (vst 8 (Heap.vm h) Heap.AddressOfSystemData (addr_puts_n im)) h)) ;;;
    let* f := with_heap (fun V => gets (fun h => vld 8 (Heap.vm h) Heap.AddressOfSystemData)) in
    on_con (code_at f (lit "hmmm123") 7) ;;;
    done_.
End Entry.

(** *** The address space of [CreatePTM] *)
Lemma page_off_sub va va' : Ptm.page_off va va' = (va' / 4096 - va / 4096) mod 2 ^ 36.
Proof. unfold Ptm.page_off, Ptm.vpage. by rewrite <- Zminus_mod. Qed.

Lemma space_image b : virt <= b < virt + ksize -> space b = Some (b - (virt - phys)).
Proof.
  intros Hb. destruct (pr_virt _ _ _ Hp), (pr_off _ _ _ Hp) as (? & ? & ?), (pr_full _ _ _ Hp), (pr_phys _ _ _ Hp) as (? & ? & ?).
  unfold space, Ptm.kernel_space, Ptm.npages. rewrite !page_off_sub.
  rewrite (Z.mod_small (b / 4096 - off / 4096)) by zdm. rewrite (Z.mod_small (b / 4096 - virt / 4096)) by zdm.
  destruct (Z.ltb_spec (b / 4096 - off / 4096) ((full + 4095) / 4096)); [zdm|].
  destruct (Z.ltb_spec (b / 4096 - virt / 4096) ((ksize + 4095) / 4096)); [f_equal; zdm|zdm].
Qed.

Lemma space_low b : 0 <= b < 4096 -> space b = Some b.
Proof.
  intros Hb. destruct (pr_virt _ _ _ Hp), (pr_off _ _ _ Hp) as (? & ? & ?), (pr_full _ _ _ Hp), (pr_phys _ _ _ Hp) as (? & ? & ?).
  pose proof (pr_size _ _ _ Hp). unfold space, Ptm.kernel_space, Ptm.npages. rewrite !page_off_sub.
  rewrite <- (Z_mod_plus_full (b / 4096 - off / 4096) (2 ^ 16)). rewrite (Z.mod_small (b / 4096 - off / 4096 + _)) by zdm.
  rewrite <- (Z_mod_plus_full (b / 4096 - virt / 4096) (2 ^ 16)). rewrite (Z.mod_small (b / 4096 - virt / 4096 + _)) by zdm.
  rewrite (Z.mod_small (b / 4096 - 0 / 4096)) by zdm.
  destruct (Z.ltb_spec (b / 4096 - off / 4096 + 2 ^ 16 * 2 ^ 36) ((full + 4095) / 4096)); [zdm|].
  destruct (Z.ltb_spec (b / 4096 - virt / 4096 + 2 ^ 16 * 2 ^ 36) ((ksize + 4095) / 4096)); [zdm|].
  destruct (Z.ltb_spec (b / 4096 - 0 / 4096) ((full + 4095) / 4096)); [f_equal; zdm|zdm].
Qed.

Lemma space_window b : PagedMem.window b -> space b = None.
Proof.
  unfold PagedMem.window. intros Hb. pose proof (pr_size _ _ _ Hp).
  destruct (pr_virt _ _ _ Hp), (pr_off _ _ _ Hp) as (? & ? & ?), (pr_full _ _ _ Hp), (pr_phys _ _ _ Hp) as (? & ? & ?).
  unfold space, Ptm.kernel_space, Ptm.npages. rewrite !page_off_sub.
  rewrite (Z.mod_small (b / 4096 - off / 4096)) by zdm. rewrite (Z.mod_small (b / 4096 - virt / 4096)) by zdm.
  rewrite <- (Z_mod_plus_full (b / 4096 - 0 / 4096) (- (2 ^ 16 - 1))). rewrite (Z.mod_small (b / 4096 - 0 / 4096 + _)) by zdm.
  destruct (Z.ltb_spec (b / 4096 - off / 4096) ((full + 4095) / 4096)); [zdm|].
  destruct (Z.ltb_spec (b / 4096 - virt / 4096) ((ksize + 4095) / 4096)); [zdm|].
  destruct (Z.ltb_spec (b / 4096 - 0 / 4096 + - (2 ^ 16 - 1) * 2 ^ 36) ((full + 4095) / 4096)); [zdm|done].
Qed.


(** *** Views of memory *)
#[local] Instance add_inj d : Inj eq eq (Z.add d).
Proof. intros x y. lia. Qed.

Lemma kmap_cancel (d : Z) (m : gmap Z Z) : kmap (Z.add d) (kmap (Z.add (- d)) m) = m.
Proof.
  apply map_eq. intros k. replace k with (d + (k - d)) at 1 by lia. rewrite lookup_kmap by apply _.
  replace (k - d) with (- d + k) by lia. by rewrite lookup_kmap by apply _.
Qed.

Lemma ld8_kmap (d : Z) (m : gmap Z Z) a : ld8 (kmap (Z.add d) m) a = ld8 m (a - d).
Proof. unfold ld8. replace a with (d + (a - d)) at 1 by lia. by rewrite lookup_kmap by apply _. Qed.

Lemma to_from_cpu c s : to_cpu (from_cpu c s) = c.
Proof. unfold to_cpu, from_cpu. cbn. rewrite kmap_cancel. by destruct c. Qed.

(** *** The state the kernel starts in *)
Definition cold (m : gmap Z Z) (t : tty) : kernel :=
  mkKernel (Ptm.mkPaging (Ptm.mkPtm (Pmm.boot_state m t) 0) 0 0 0 0 0 0) 0 0 None None false 0 0 0 0 false 0.

Definition registered (m : gmap Z Z) : Interrupts.cpu :=
  Interrupts.RegisterFaults (OnPageFault im) (OnDoubleFault im) (OnGeneralProtectionFault im)
    (Interrupts.CreateIdt (IdtPage im) (Interrupts.CreateGdt (Gdt0 im)
      (Interrupts.mkCpu (kmap (Z.add distance) m) 0 0 None None false))).

(** After [RegisterFaults]: the tables are those of the image, the page
    allocator has every usable page. *)
Lemma first_steps m t :
  exists s, (forall A (k : M kernel A), (on_cpu (Interrupts.CreateGdt (Gdt0 im)) ;;;
     on_pmm (Pmm.CreatePMM (Ptm.memmap (boot im))) ;;;
     on_cpu (Interrupts.CreateIdt (IdtPage im)) ;;;
     on_cpu (Interrupts.RegisterFaults (OnPageFault im) (OnDoubleFault im) (OnGeneralProtectionFault im)) ;;; k) (cold m t) = k s) /\
    to_cpu s = registered m /\ AcpiData0 s = 0 /\ Ptm.never_freed (pmm s) /\ Ptm.FullSizeOfMemory (pag s) = 0 /\
    Pmm.fresh (Ptm.memmap (boot im)) (pmm s) = filter (fun a => 0 < a) (Pmm.pages (Ptm.memmap (boot im))).
Proof.
  eexists. split; [reflexivity|]. rewrite to_from_cpu. split; [|split; [done|split; [|split; [done|done]]]].
  - unfold registered. f_equal. rewrite to_from_cpu. f_equal. unfold to_cpu, from_cpu, set_pmm. cbn.
    by rewrite kmap_cancel.
  - destruct (Pmm.CreatePMM_inv (Ptm.memmap (boot im)) m t _ (pr_memmap _ _ _ Hp) eq_refl) as [Hok _]. split; [exact Hok|done].
Qed.

(** [CreatePTM] leaves the tables ready for the heap. *)
Lemma tables_ready s :
  Ptm.never_freed (pmm s) -> Ptm.FullSizeOfMemory (pag s) = 0 ->
  Pmm.fresh (Ptm.memmap (boot im)) (pmm s) = filter (fun a => 0 < a) (Pmm.pages (Ptm.memmap (boot im))) ->
  exists s', on_paging (Ptm.CreatePTM (boot im)) s = Ret tt s' /\ Ptm.cr3 (pag s') = Ptm.Pml4 (pag s') /\
    to_heap s' = Heap.set_vm (tables s') (to_heap s) /\ AcpiData0 s' = AcpiData0 s /\
    k_idtr s' = k_idtr s /\ k_gdtr s' = k_gdtr s /\ k_if s' = k_if s /\
    (let V := vmem (Ptm.cr3 (pag s')) in
     vinv (tables s') /\ 514 <= vpages (tables s') /\
     (forall b, Heap.AddressOfSystemData <= b < 2 ^ 64 -> ~ vok (tables s') b) /\
     (forall b, in_image b -> vok (tables s') b /\ PagedMem.vld8 (Ptm.cr3 (pag s')) (tables s') b = ld8 (Interrupts.mem (to_cpu s)) b)).
Proof.
  intros Hnf Hfs Hfr. pose proof Hp as [P1 P2 P3 P4 P5 P6 P7 P8 P9 P10 P11 P12 P13].
  unfold pages_needed in P13.
  assert (Hlen : Z.of_nat (ps_count (Ptm.src (Ptm.pg (pag s)))) =
    Z.of_nat (length (filter (fun a => 0 < a) (Pmm.pages (Ptm.memmap (boot im)))))) by (rewrite <- Hfr; done).
  destruct (Ptm.CreatePTM_run (boot im) (pag s) off phys virt) as (p & T & E & Hcr & Hinv & Htr & Hff & Hcnt);
    try done; try (change (u64 _) with ksize); try (change (Ptm.full_loop _ 0) with full); try lia.
  change (u64 (Ptm.KernelEnd (boot im) - Ptm.KernelStart (boot im))) with ksize in *. change (Ptm.full_loop (Ptm.memmap (boot im)) 0) with full in *.
  exists (set_pag p s). split; [by apply zoom_ret|]. do 6 (split; [done|]).
  assert (Hsp : forall va, PagedMem.vtrans (Ptm.cr3 p) (Ptm.pg p) va = space va) by exact Htr.
  assert (Hap : forall a x, ps_free (Ptm.src (Ptm.pg (pag s))) a -> 0 <= x < 4096 \/ phys <= x < phys + ksize -> x < a \/ a + 4096 <= x).
  { intros a x Ha Hx. cbn [ps_free source Ptm.pmm_source] in Ha. change (Ptm.src (Ptm.pg (pag s))) with (pmm s) in Ha.
    rewrite Hfr in Ha. apply list_elem_of_filter in Ha as [Hpos Ha].
    destruct (Pmm.pages_in _ _ P2 Ha) as (e & _ & _ & _ & _ & ? & ? & ?). specialize (P9 a Ha). zdm. }
  assert (Hout : forall x, 0 <= x < 4096 \/ phys <= x < phys + ksize -> PtmHost.outside (Ptm.pg p) T x).
  { intros x Hx. split; [intros t l Ht|intros a Ha].
    - apply Hap; [|done]. by apply (Ptm.ff_table _ _ _ Hff t l).
    - apply Hap; [|done]. by apply (Ptm.ff_free _ _ _ Hff). }
  assert (Him : forall b, in_image b <-> virt <= b < virt + ksize) by (intros b; unfold in_image; by rewrite P4).
  assert (Hbase : forall b, low_or_image b -> exists x, space b = Some x /\ (0 <= x < 4096 \/ phys <= x < phys + ksize) /\
     (b = x /\ 0 <= x < 4096 \/ b = x + (virt - phys) /\ phys <= x < phys + ksize)).
  { intros b [Hb|Hb%Him]; [exists b; rewrite (space_low b Hb); split; [done|]; split; [by left|left; lia]|].
    exists (b - (virt - phys)). rewrite (space_image b Hb). split; [done|]. split; [right; lia|right; lia]. }
  assert (Hwin : forall b, PagedMem.window b -> ~ is_Some (PagedMem.vtrans (Ptm.cr3 p) (Ptm.pg p) b)).
  { intros b Hb. rewrite Hsp, (space_window b Hb). by intros [? ?]. }
  cbv zeta. split; [|split; [|split]].
  - exists T. split; [exact Hinv| | |].
    + intros b [Hb|[Hw Hs]]; [|by destruct (Hwin b Hw)]. destruct (Hbase b Hb) as (x & Ex & Hx & _). exists x.
      change (tables (set_pag p s)) with (Ptm.pg p). change (Ptm.cr3 (pag (set_pag p s))) with (Ptm.cr3 p). rewrite Hsp. split; [done|]. by apply Hout.
    + intros b b' x [Hb|[Hw Hs]] [Hb'|[Hw' Hs']]; [|by destruct (Hwin b' Hw')|by destruct (Hwin b Hw)..].
      change (tables (set_pag p s)) with (Ptm.pg p). change (Ptm.cr3 (pag (set_pag p s))) with (Ptm.cr3 p). rewrite !Hsp. intros E1 E2.
      destruct (Hbase b Hb) as (y & Ey & _ & Hy), (Hbase b' Hb') as (y' & Ey' & _ & Hy'). assert (y = x) by congruence. assert (y' = x) by congruence. lia.
    + intros b _. apply Hsp.
  - cbn [vpages vmem PagedMem.paged_vmem]. change (tables (set_pag p s)) with (Ptm.pg p). zdm.
  - unfold Heap.AddressOfSystemData. intros b Hb [[Hl|Hi%Him]|[Hw Hs]]; [lia|lia|]. by destruct (Hwin b Hw).
  - intros b Hb. split; [left; by right|]. unfold PagedMem.vld8. change (tables (set_pag p s)) with (Ptm.pg p).
    change (Ptm.cr3 (pag (set_pag p s))) with (Ptm.cr3 p). rewrite Hsp. apply Him in Hb. rewrite (space_image b Hb).
    transitivity (ld8 (Pmm.mem (pmm s)) (b - (virt - phys))).
    + apply (Ptm.ff_mem _ _ _ Hff). intros a Ha. apply Hap; [done|right; lia].
    + cbn [to_cpu Interrupts.mem]. rewrite ld8_kmap. unfold distance. by rewrite P4.
Qed.

(** The gate of a vector, read by the processor through the page tables. *)
Definition gate_through (s : kernel) (a : Z) : Interrupts.gate :=
  let ld n a := PagedMem.pvld (Ptm.cr3 (pag s)) n (tables s) a in
  Interrupts.mkGate (ld 2%nat a + 2 ^ 16 * ld 2%nat (a + 6) + 2 ^ 32 * ld 4%nat (a + 8)) (ld 2%nat (a + 2)) (ld 1%nat (a + 4)) (ld 1%nat (a + 5)).
Definition cpu_gate (s : kernel) (vector : Z) : option Interrupts.gate :=
  match k_idtr s with
  | Some (limit, base) => if vector * 16 + 15 <=? limit then Some (gate_through s (base + vector * 16)) else None
  | None => None
  end.

Lemma pvld_ld root n g m a :
  (forall i, 0 <= i < Z.of_nat n -> PagedMem.vld8 root g (a + i) = ld8 m (a + i)) -> PagedMem.pvld root n g a = ld n m a.
Proof.
  revert a. induction n as [|n IH]; intros a He; [done|]. cbn [PagedMem.pvld ld]. f_equal.
  - rewrite <- (Z.add_0_r a). apply He. lia.
  - f_equal. apply IH. intros i Hi. replace (a + 1 + i) with (a + (i + 1)) by lia. apply He. lia.
Qed.

Lemma gate_through_at s m a :
  (forall x, a <= x < a + 16 -> PagedMem.vld8 (Ptm.cr3 (pag s)) (tables s) x = ld8 m x) ->
  gate_through s a = Interrupts.gate_at m a.
Proof.
  intros Hx. unfold gate_through, Interrupts.gate_at.
  rewrite !(fun n b Hb => pvld_ld (Ptm.cr3 (pag s)) n (tables s) m b Hb); [done|intros; apply Hx; cbn in *; lia..].
Qed.

(** The heap and the fault gates of a kernel that is ready. *)
Record ready (m : gmap Z Z) (s : kernel) : Prop := {
  rd_root : Ptm.cr3 (pag s) = Ptm.Pml4 (pag s);
  rd_heap : @Heap.wf _ (vmem (Ptm.cr3 (pag s))) (to_heap s) [Heap.mkSeg 0xffffffffC0000000 (512 * 4096 - 32) true];
  rd_data b : Heap.AddressOfSystemData <= b < Heap.AddressOfSystemData + 4096 ->
    @vok _ (vmem (Ptm.cr3 (pag s))) (tables s) b /\ PagedMem.vld8 (Ptm.cr3 (pag s)) (tables s) b = 0;
  rd_space va : (forall a, PagedMem.window a -> Ptm.vpage va <> Ptm.vpage a) ->
    Ptm.translate (Pmm.mem (pmm s)) (Ptm.cr3 (pag s)) va = space va;
  rd_gates v : 0 <= v < 256 -> cpu_gate s v = Some
    (let old := Interrupts.gate_at (kmap (Z.add distance) m) (IdtPage im + 16 * v) in
     if v =? 14 then Interrupts.kernel_gate (OnPageFault im) (Interrupts.g_ist old)
     else if v =? 8 then Interrupts.kernel_gate (OnDoubleFault im) (Interrupts.g_ist old)
     else if v =? 13 then Interrupts.kernel_gate (OnGeneralProtectionFault im) (Interrupts.g_ist old) else old);
  rd_if : k_if s = true;
  (** enough is left for another page, and no ACPI data was read so far *)
  rd_pages : 1 <= @vpages _ (vmem (Ptm.cr3 (pag s))) (tables s);
  rd_acpi : AcpiData0 s = 0
}.

Lemma vld1 root g b : @vld _ (vmem root) 1 g b = PagedMem.vld8 root g b.
Proof. cbn [vld vmem PagedMem.paged_vmem PagedMem.pvld]. lia. Qed.

Lemma to_from_heap h s : to_heap (from_heap h s) = h.
Proof. by destruct h. Qed.

Lemma with_heap_ret {A} (c : VMem (Ptm.ptm Pmm.pmm) -> M (Heap.heap (Ptm.ptm Pmm.pmm)) A) s a h :
  c (vmem (Ptm.Pml4 (pag s))) (to_heap s) = Ret a h -> with_heap c s = Ret a (from_heap h s).
Proof. intros E. unfold with_heap, bind, gets. by apply zoom_ret. Qed.

Lemma with_heap_gets {A} (f : VMem (Ptm.ptm Pmm.pmm) -> Heap.heap (Ptm.ptm Pmm.pmm) -> A) s :
  with_heap (fun V => gets (f V)) s = Ret (f (vmem (Ptm.Pml4 (pag s))) (to_heap s)) s.
Proof. by destruct s as [[]]. Qed.

(** [memset] below the heap, for any size. *)
Lemma memset_step root n (h : Heap.heap (Ptm.ptm Pmm.pmm)) l a :
  let V := vmem root in
  Heap.wf h l -> (forall b, a <= b < a + Z.of_nat n -> vok (Heap.vm h) b) -> a + Z.of_nat n <= Heap.HeapStart h ->
  exists h', (modify (fun h => Heap.set_vm (Heap.vmemset n a 0 (Heap.vm h)) h)) h = Ret tt h' /\ Heap.wf h' l /\
    (forall b, vok (Heap.vm h') b <-> vok (Heap.vm h) b) /\
    (forall b, vok (Heap.vm h) b -> b < a -> PagedMem.vld8 root (Heap.vm h') b = PagedMem.vld8 root (Heap.vm h) b) /\
    (forall b, a <= b < a + Z.of_nat n -> PagedMem.vld8 root (Heap.vm h') b = 0) /\ vpages (Heap.vm h') = vpages (Heap.vm h).
Proof.
  intros V W Hok Hlt. assert (Hd : forall i, 0 <= i < Z.of_nat n -> vok (Heap.vm h) (a + i)) by (intros i Hi; apply Hok; lia).
  destruct (Heap.vmemset_spec n (Heap.vm h) a 0 (Heap.wf_inv _ _ W) Hd) as (_ & Hok' & Hpg & Hk & Hz).
  pose proof (Heap.wf_memset_below n h l a 0 W Hd Hlt) as W'.
  eexists. split; [reflexivity|]. split; [exact W'|]. split; [exact Hok'|]. split; [|split].
  - intros b Hb Hba. rewrite <- !vld1. exact (Hk b Hb (or_introl Hba)).
  - intros b Hb. rewrite <- vld1. exact (Hz b Hb).
  - exact Hpg.
Qed.

Lemma PrepareMemory_run m t : exists s, PrepareMemory (cold m t) = Ret tt s /\ ready m s.
Proof.
  destruct (first_steps m t) as (s4 & E4 & Hc & Hac & Hnf & Hfs & Hfr).
  destruct (tables_ready s4 Hnf Hfs Hfr) as (s5 & E5 & Hroot & Hh5 & Hac5 & Hi5 & Hg5 & Hif5 & Hv & Hpg & Hno & Him).
  set (root := Ptm.cr3 (pag s5)) in *.
  destruct (@Heap.CreateHeap_default_spec _ (vmem root) (to_heap s5) Hv Hno ltac:(exact (Z.le_trans 513 514 _ ltac:(done) Hpg))) as (h6 & E6 & W6 & Hpg6 & Hz6 & Hk6).
  assert (Hs6 : Heap.HeapStart h6 = 0xffffffffC0000000) by (pose proof (Heap.wf_tiles _ _ W6) as [? _]; done).
  destruct (memset_step root 4096 h6 _ Heap.AddressOfSystemData W6) as (h7 & E7 & W7 & Hok7 & Hk7 & Hz7 & Hpg7).
  { intros b Hb. apply Hz6. lia. }
  { rewrite Hs6. unfold Heap.AddressOfSystemData. lia. }
  assert (Erun : PrepareMemory (cold m t) = Ret tt (from_heap h7 (from_heap h6 s5))).
  { unfold PrepareMemory. rewrite E4. rewrite (bind_ret _ _ _ _ _ E5).
    erewrite bind_ret by (apply with_heap_ret; rewrite <- Hroot; exact E6).
    apply with_heap_ret. change (Ptm.Pml4 (pag (from_heap h6 s5))) with (Ptm.Pml4 (pag s5)). rewrite <- Hroot, to_from_heap. exact E7. }
  clear E7. exists (from_heap h7 (from_heap h6 s5)). split; [exact Erun|]. clear Erun.
  pose proof (Heap.wf_inv _ _ W7) as Hv7.
  remember (from_heap h7 (from_heap h6 s5)) as s7 eqn:Hs7.
  assert (Hb7 : forall b, in_image b -> PagedMem.vld8 root (Heap.vm h7) b = ld8 (Interrupts.mem (registered m)) b).
  { intros b Hb. destruct (Him b Hb) as [Hvb Hm]. rewrite Hc in Hm. rewrite <- Hm.
    assert (Hlt : b < Heap.AddressOfSystemData).
    { unfold in_image in Hb. rewrite (pr_kernel _ _ _ Hp) in Hb. destruct (pr_virt _ _ _ Hp). unfold Heap.AddressOfSystemData. lia. }
    destruct (Hk6 b Hvb Hlt) as [Hvb6 E1]. rewrite (Hk7 b Hvb6 Hlt). rewrite !vld1 in E1. exact E1. }
  assert (Hr7 : Ptm.cr3 (pag s7) = root) by (by rewrite Hs7).
  assert (Ht7 : tables s7 = Heap.vm h7) by (by rewrite Hs7).
  assert (Hc7 : k_idtr s7 = Interrupts.idtr (registered m) /\ k_if s7 = Interrupts.interrupts_on (registered m)).
  { rewrite Hs7. cbn [from_heap k_idtr k_if]. rewrite Hi5, Hif5, <- Hc. done. }
  split; rewrite ?Hr7, ?Ht7.
  - rewrite Hs7. exact Hroot.
  - rewrite Hs7, to_from_heap. exact W7.
  - intros b Hb. split; [apply Hok7, Hz6, Hb|]. apply Hz7. lia.
  - intros va Hva. destruct Hv7 as [T [_ _ _ Hr]]. unfold pmm. rewrite Ht7. exact (Hr va Hva).
  - clear Hv. intros v Hv. pose proof (pr_idt _ _ _ Hp) as [Hi1 Hi2]. destruct (pr_virt _ _ _ Hp), (pr_off _ _ _ Hp) as (? & ? & ?), (pr_full _ _ _ Hp).
    destruct (pr_handlers _ _ _ Hp) as (Hh1 & Hh2 & Hh3).
    destruct (Interrupts.RegisterFaults_spec _ _ _ (IdtPage im) (Gdt0 im) (Interrupts.mkCpu (kmap (Z.add distance) m) 0 0 None None false)
      Hh1 Hh2 Hh3 ltac:(lia) ltac:(lia)) as (Hg & _). etrans; [|exact (Hg v Hv)]. fold (registered m).
    assert (Eid : Interrupts.idtr (registered m) = Some (0xFFF, IdtPage im)) by reflexivity.
    unfold cpu_gate, Interrupts.cpu_gate. rewrite (proj1 Hc7), Eid. destruct (Z.leb_spec (v * 16 + 15) 0xFFF); [|lia].
    f_equal. apply gate_through_at. rewrite Hr7, Ht7. intros x Hx. apply Hb7. unfold in_image. rewrite (pr_kernel _ _ _ Hp). lia.
  - rewrite (proj2 Hc7). reflexivity.
  - change (Heap.vm (to_heap s5)) with (tables s5) in Hpg6. lia.
  - rewrite Hs7. cbn [from_heap AcpiData0]. congruence.
Qed.

(** *** The end of [PrepareKernel] and [_start] *)

(** What constructing a driver is to keep: tables in order, the page of the
    ACPI data not used by them, the system data mapped. *)
Definition driver_keeps (root p : Z) (g : Ptm.ptm Pmm.pmm) : Prop :=
  exists T, PagedMem.pvinv_at root low_or_image space g T /\ PagedMem.reserved root low_or_image p g T /\
    (forall b, Heap.AddressOfSystemData <= b < Heap.AddressOfSystemData + 4096 -> PagedMem.pvok root low_or_image g b).

Section Last.
Context (new_AhciDriver : Z -> Z -> M (Ptm.ptm Pmm.pmm) unit) (code_at : Z -> list Z -> Z -> M tty unit).
Context (Hdrv : forall root p a g, driver_keeps root p g -> exists g', new_AhciDriver root a g = Ret tt g' /\ driver_keeps root p g').

Lemma GetAcpi_step m s r :
  ready m s -> RSDP_response im = Some r ->
  exists p a, @PciBus.GetAcpi _ PagedMem.ptm_source (new_AhciDriver (Ptm.Pml4 (pag s))) (RSDP_response im) (str_MCFG im) 2 (to_acpi s) = Ret p a /\
    PciBus.AcpiData0 a = p /\ p <> 0 /\ driver_keeps (Ptm.Pml4 (pag s)) p (PciBus.src a).
Proof.
  intros R Hr. rewrite Hr. rewrite <- (rd_root _ _ R). set (root := Ptm.cr3 (pag s)).
  destruct (Heap.wf_inv _ _ (rd_heap _ _ R)) as [T Hi]. change (Heap.vm (to_heap s)) with (tables s) in Hi. fold root in Hi.
  destruct (PagedMem.reserve_page root low_or_image space (tables s) T Hi) as (p & g & Ea & Hi' & Hres & Hok).
  { pose proof (rd_pages _ _ R) as Hc. cbn [vpages vmem PagedMem.paged_vmem] in Hc. intros E. rewrite E in Hc. done. }
  destruct (@PciBus.GetAcpi_run _ PagedMem.ptm_source (new_AhciDriver root) r (str_MCFG im) (driver_keeps root)) with (s := to_acpi s) (p := p) (t := g)
    as (a & E & E0 & Hk).
  - intros q b h. apply Hdrv.
  - intros q k v h (T' & I1 & I2 & I3) Hkk. cbn [ps_set_mem ps_mem PagedMem.ptm_source].
    destruct (PagedMem.store_reserved root low_or_image space q k 8 v h T' I1 I2) as (J1 & J2 & J3); [lia|lia|].
    exists T'. split; [exact J1|]. split; [exact J2|]. intros b Hb. by apply J3, I3.
  - exact (rd_acpi _ _ R).
  - exact Ea.
  - destruct Hres as ((_ & ? & _) & _). lia.
  - exists T. split; [done|]. split; [done|]. intros b Hb. apply Hok. apply (rd_data _ _ R b Hb).
  - exists p, a. split; [exact E|]. split; [done|]. split; [|done]. destruct Hres as ((_ & ? & _) & _). lia.
Qed.

Lemma PrepareKernel_run m t r :
  RSDP_response im = Some r ->
  exists s p, PrepareKernel new_AhciDriver (cold m t) = Ret tt s /\ AcpiData0 s = p /\ p <> 0 /\ driver_keeps (Ptm.Pml4 (pag s)) p (tables s).
Proof.
  intros Hr. destruct (PrepareMemory_run m t) as (s & E & R). destruct (GetAcpi_step m s r R Hr) as (p & a & Ea & E0 & Hp0 & Hk).
  exists (from_acpi a s), p. split; [|done]. unfold PrepareKernel. rewrite (bind_ret _ _ _ _ _ E). unfold bind at 1, gets at 1.
  by rewrite (bind_ret _ _ _ _ _ (zoom_ret to_acpi from_acpi _ _ _ _ Ea)).
Qed.

Lemma pvst_con root n (g : Ptm.ptm Pmm.pmm) a v : Pmm.con (Ptm.src (PagedMem.pvst root n g a v)) = Pmm.con (Ptm.src g).
Proof.
  revert g a v. induction n as [|n IH]; intros g a v; [done|]. cbn [PagedMem.pvst]. rewrite IH. unfold PagedMem.vst8.
  by destruct (PagedMem.vtrans root g a).
Qed.

Lemma puts_out (l : list Z) t :
  Z.of_nat (length l) < 2 ^ 64 ->
  puts l t = Ret 1 (mkTty (tty_out t ++ buf_str l ++ [10]) 1).
Proof.
  intros Hl. unfold puts. rewrite (bind_ret _ _ _ _ _ (fputs_out l t Hl)). rewrite fputs_out by done. cbn [tty_out].
  by rewrite <- app_assoc.
Qed.

Lemma print_keeps root p t g : driver_keeps root p g -> driver_keeps root p (Ptm.mkPtm (Pmm.set_con t (Ptm.src g)) (Ptm.CurrentPageTableEntry g)).
Proof.
  intros (T & [I1 I2 I3 I4] & (R1 & R2 & R3 & R4) & I5). exists T. split; [|split; [|exact I5]].
  - split; [exact I1|exact I2|exact I3|exact I4].
  - split; [exact R1|]. split; [exact R2|]. split; [exact R3|exact R4].
Qed.

Lemma store_call root p g f :
  driver_keeps root p g -> 0 <= f < 2 ^ 64 ->
  PagedMem.pvld root 8 (PagedMem.pvst root 8 g Heap.AddressOfSystemData f) Heap.AddressOfSystemData = f.
Proof.
  intros (T & I1 & _ & I3) Hf. rewrite (PagedMem.pvld_pvst_eq root low_or_image space 8 g T) by (done || intros i Hi; apply I3; lia).
  apply Z.mod_small. done.
Qed.

Lemma start_run m t r :
  RSDP_response im = Some r -> 0 <= addr_puts_n im < 2 ^ 64 -> code_at (addr_puts_n im) = puts_n ->
  exists s1 s2, PrepareKernel new_AhciDriver (cold m t) = Ret tt s1 /\ AcpiData0 s1 <> 0 /\ _start new_AhciDriver code_at (cold m t) = Done s2 /\
    tty_out (con s2) = tty_out (con s1) ++ lit "This is a test! :)" ++ [10] ++ lit "hmmm123".
Proof.
  intros Hr Ha Hcode. destruct (PrepareKernel_run m t r Hr) as (s1 & p & E1 & E0 & Hp0 & Hk). rewrite <- E0 in Hp0.
  set (root := Ptm.Pml4 (pag s1)) in *.
  set (t2 := mkTty (tty_out (con s1) ++ buf_str (lit "This is a test! :)") ++ [10]) 1).
  set (s2 := set_con t2 s1).
  assert (Hk2 : driver_keeps root p (tables s2)) by exact (print_keeps root p t2 (tables s1) Hk).
  set (g3 := PagedMem.pvst root 8 (tables s2) Heap.AddressOfSystemData (addr_puts_n im)).
  set (s3 := from_heap (Heap.set_vm g3 (to_heap s2)) s2).
  destruct (puts_n_loop_out 7 0 (lit "hmmm123") (con s3)) as (k & En).
  eexists s1, _. split; [exact E1|]. split; [exact Hp0|]. unfold _start. rewrite (pr_terminal _ _ _ Hp). cbn [negb].
  rewrite (bind_ret _ _ _ _ _ E1).
  rewrite (bind_ret _ _ _ _ _ (zoom_ret con set_con _ s1 _ _ (puts_out (lit "This is a test! :)") (con s1) eq_refl))). fold t2 s2.
  assert (E3 : with_heap (fun V => modify (fun h => Heap.set_vm (vst 8 (Heap.vm h) Heap.AddressOfSystemData (addr_puts_n im)) h)) s2 = Ret tt s3) by reflexivity.
  rewrite (bind_ret _ _ _ _ _ E3).
  assert (E4 : with_heap (fun V => gets (fun h => vld 8 (Heap.vm h) Heap.AddressOfSystemData)) s3 = Ret (addr_puts_n im) s3).
  { etrans; [apply with_heap_gets|]. apply (f_equal (fun x => Ret x s3)). exact (store_call root p (tables s2) (addr_puts_n im) Hk2 Ha). }
  rewrite (bind_ret _ _ _ _ _ E4). rewrite Hcode.
  rewrite (bind_ret _ _ _ _ _ (zoom_ret con set_con _ s3 _ _ En)). split; [reflexivity|].
  change (tty_out (con s3) ++ filter (fun c => c <> 0) (cstr_get (lit "hmmm123") <$> seq 0 7) =
    tty_out (con s1) ++ lit "This is a test! :)" ++ [10] ++ lit "hmmm123").
  assert (con s3 = t2) as -> by (unfold con, pmm; exact (pvst_con root 8 (tables s2) _ _)).
  unfold t2. cbn [tty_out]. rewrite <- !app_assoc. f_equal.
Qed.

End Last.
End Run.
End Start.

(** ** Properties *)

(** C9: On a machine that answers as the boot protocol promises,
    [PrepareKernel] up to [GetAcpi] returns: the components run one after the
    other on one memory, and in the end [cr3] holds the tables, the heap over
    the pages they map is well formed and empty, the page of system data is
    mapped and zero, every address outside the last gigabyte translates as
    [CreatePTM] promises, the processor finds through the tables the gates
    [RegisterFaults] stored before they existed, interrupts are on, and a
    page is left. *)
Theorem PrepareMemory_ready (im : image) off phys virt (Hp : protocol im off phys virt) (m : gmap Z Z) (t : tty) :
  exists s, PrepareMemory im off phys virt Hp (cold m t) = Ret tt s /\ ready im off phys virt Hp m s.
Proof. apply PrepareMemory_run. Qed.


(** 16 MiB of memory above the first 16, the image at 2 MiB. *)
Definition some_image : image :=
  mkImage (Ptm.mkBoot [Pmm.mkEntry 0x1000000 (4096 * 4096) 0] (Some (2 ^ 64 - 2 ^ 47)) (Some (2 ^ 21, 2 ^ 64 - 2 ^ 31))
             (2 ^ 64 - 2 ^ 31) (2 ^ 64 - 2 ^ 31 + 2 ^ 20))
    true (Some 0xE0000) (2 ^ 64 - 2 ^ 31 + 8192) (2 ^ 64 - 2 ^ 31 + 4096)
    (2 ^ 64 - 2 ^ 31 + 0x5000) (2 ^ 64 - 2 ^ 31 + 0x5100) (2 ^ 64 - 2 ^ 31 + 0x5200) (2 ^ 64 - 2 ^ 31 + 0x6000) (2 ^ 64 - 2 ^ 31 + 0x5300).

Lemma some_memmap_ok : Pmm.memmap_ok (Ptm.memmap (boot some_image)).
Proof.
  unfold Pmm.memmap_ok. change (filter Pmm.usable (Ptm.memmap (boot some_image))) with [Pmm.mkEntry 0x1000000 (4096 * 4096) 0].
  unfold Pmm.entry_ok. split; repeat constructor; cbn; lia.
Qed.

Lemma some_protocol : protocol some_image (2 ^ 64 - 2 ^ 47) (2 ^ 21) (2 ^ 64 - 2 ^ 31).
Proof.
  assert (Hks : ksize some_image = 2 ^ 20) by reflexivity. assert (Hfull : full some_image = 2 ^ 25) by reflexivity.
  split.
  - done.
  - apply some_memmap_ok.
  - done.
  - done.
  - rewrite Hfull. lia.
  - rewrite Hks. lia.
  - rewrite Hks. by split_and!.
  - rewrite Hks. by split.
  - intros a Ha. destruct (Pmm.pages_in _ _ some_memmap_ok Ha) as (e & [->|[]%not_elem_of_nil]%elem_of_cons & _ & Hb & _).
    cbn [Pmm.base] in Hb. rewrite Hks. right. lia.
  - rewrite Hfull. by split_and!.
  - rewrite Hks. cbn [some_image IdtPage]. lia.
  - cbn [some_image OnPageFault OnDoubleFault OnGeneralProtectionFault]. lia.
  - apply Z.leb_le. vm_compute. reflexivity.
Qed.

Lemma PrepareMemory_ready_witness :
  exists s, PrepareMemory some_image _ _ _ some_protocol (cold ∅ (mkTty [] 0)) = Ret tt s /\
    ready some_image _ _ _ some_protocol ∅ s.
Proof. apply (PrepareMemory_ready some_image _ _ _ some_protocol ∅ (mkTty [] 0)). Defined.


End Boot.
